(* ===== verification/_CoqProject ===== *)
-Q . S2P
Prelude.v
Mmu.v
Memory.v
CString.v
Mp.v
Spinlock.v
Kernel.v
Sample.v
Sleeplock.v
Bio.v
Block.v
Ide.v
Layout.v
Log.v
Kmem.v
Rmap.v
PageTable.v
Swap.v
Kalloc.v
Vm.v
VmKernel.v
SampleTables.v
VmUser.v
VmGrow.v
VmShrink.v
VmFree.v
SwapOut.v
Fault.v
SwapIn.v
Sched.v
Pipe.v
Fs.v
FsBlock.v
FsData.v
FsDir.v
FsPath.v
Mkfs.v
MkfsImage.v
File.v
Proc.v
Fork.v
Reap.v
Syscall.v
Sysfile.v
Exec.v
ExecStack.v
Boot.v
Trap.v
Apic.v
Startup.v
Gate.v
Grep.v
Ulib.v
Umalloc.v
ShParse.v
Shell.v
Printf.v
UserProgs.v
Ls.v
Console.v
Kbd.v
Uart.v
