(* ===== verification/Prelude.v ===== *)
(** * Verification of xv6 with copy-on-write fork and swapping

    xv6 is a small Unix kernel for the 32-bit x86.  This version adds two
    things to it: [fork] shares the pages of the parent read-only and copies a
    page at the first write, with a reverse map from physical pages to the
    page-table entries that map them; and [kalloc], when no page is free,
    moves a page of some process to a swap area on the disk, from which the
    page-fault handler brings it back.  The development is a shallow
    embedding of the kernel, its boot loader, the builder of its file system
    and most of its user code: one definition per C function, with the
    function's name, and theorems about them.

    ** How C is modelled

    A function that changes state is a computation in the monad [M S] of this
    file: it takes a state and returns a value and a state, or an error.
    [Panic] is a call of [panic]; [Trap] an access outside an array or through
    a bad pointer; [Blocked] a call that would sleep; [Hang] a loop that has
    used up its fuel.  [wp c Q s] says that [c] run in [s] returns, and that
    the result satisfies [Q]: an error of any kind makes it false, so every
    theorem stated with [wp] includes termination and the absence of panics.
    Integers are [Z] with the wrap-around of 32-bit arithmetic written out
    ([u32], [s32]); memory is a finite map from addresses to bytes, and page
    tables, the free list, kernel stacks and C strings are bytes in it.
    Tables of the kernel (processes, buffers, inodes, files, the reverse map,
    swap slots) are records and lists in the state [kstate] of Kernel.v.
    A pointer into a table is an index.

    A kernel function runs from call to return on one CPU.  Interleaving is
    modelled where the code depends on it: Spinlock.v runs several CPUs one
    memory access at a time; a function that gives up the CPU is split where
    [swtch] is called, into a part that ends asleep and a part that resumes
    in any later state (Sched.v, Pipe.v, Proc.v); a crash can stop the machine
    after any prefix of the writes to the disk (Log.v).

    ** The parts, and where they are

    - This file: the monad, [wp] and its rules, loops, tactics, integers, lists.
    - Memory: Mmu.v ([param.h], [memlayout.h], [mmu.h]), Memory.v and CString.v
      ([string.c]), Kernel.v (the state, locks as one CPU sees them), Sample.v
      and SampleTables.v (a concrete machine on which theorems are run).
    - Locks: Spinlock.v ([spinlock.c]), Sleeplock.v ([sleeplock.c], [wakeup]).
    - Physical pages: Kmem.v and Kalloc.v ([kalloc.c]), Rmap.v (reverse map,
      [proc.c]).
    - Address spaces: PageTable.v (a page table read as a function), Vm.v (the
      definitions of [vm.c]), VmKernel.v, VmUser.v, VmGrow.v, VmShrink.v and
      VmFree.v (what they do).
    - Swapping and faults, [proc.c]: Swap.v and SwapOut.v (victims, slots, page
      out), Fault.v (copy on write), SwapIn.v (page in).
    - Disk: Bio.v and Block.v ([bio.c], [memide.c]), Log.v ([log.c]), Layout.v
      ([fs.h]), Fs.v ([fs.c]), with FsBlock.v (blocks), FsData.v (contents),
      FsDir.v (directories) and FsPath.v (paths); Mkfs.v and MkfsImage.v
      ([mkfs.c]).
    - Processes, [proc.c]: Sched.v (context switches), Proc.v (life cycle),
      Fork.v ([fork] as a whole), Reap.v ([wait] of a zombie).
    - Files: Pipe.v ([pipe.c]), File.v ([file.c]).
    - System calls: Syscall.v (arguments, [syscall.c]), Sysfile.v
      ([sysfile.c]), Exec.v and ExecStack.v ([exec.c]), Trap.v ([sysproc.c],
      [trap.c]).
    - Start-up: Boot.v ([bootmain.c], [entrypgdir]), Mp.v ([mp.c], [mycpu]),
      Apic.v ([lapic.c], [ioapic.c], [picirq.c]), Startup.v ([startothers] of
      [main.c]), Gate.v (descriptors of [mmu.h], [seginit], [tvinit], the entry
      points of [vectors.pl]).
    - Devices: Ide.v ([ide.c]), Console.v ([console.c]), Kbd.v ([kbd.c]),
      Uart.v ([uart.c]).
    - User code: Ulib.v ([ulib.c]), Umalloc.v ([umalloc.c]), Printf.v
      ([printf.c]), Grep.v ([grep.c]), ShParse.v and Shell.v ([sh.c]),
      UserProgs.v ([wc.c], [cat.c], [echo.c], [mkdir.c], [rm.c], [ln.c],
      [kill.c]), Ls.v ([ls.c]).

    They meet as in the kernel.  [kalloc] calls the swapper, the swapper walks
    page tables and writes through the buffer cache, and the page-table code
    calls [kalloc]; Swap.v takes [kalloc] as an argument and Kalloc.v ties the
    knot.  The file system updates blocks only through the log, and the log
    through the rules that Block.v states for the buffer cache.  Code outside
    the sources enters through two classes: [KernelImage], the addresses the
    linker chooses, with [KernelImageOk], what the linker script guarantees
    of them; and [Devsw], the read and write functions of devices.  Hardware
    is a state of its own in the file that drives it: the disk in Ide.v and
    Boot.v, the local and the I/O interrupt controller and the clock in
    Apic.v, the serial port in Uart.v, the delivery of an interrupt in
    Gate.v.  Fork.v, Reap.v and ExecStack.v compose the allocator, the
    reverse map, the page tables and the process table.

    ** What the theorems show

    - Copy on write: after [copyuvm] parent and child read the same bytes and
      neither can write without a fault; a fault of one of several owners
      gives it a private copy and disturbs no other page table; the sole owner
      gets its page back writable; fork followed by a write of the parent
      leaves the child's memory as it was.
    - Processes: [fork] as a whole makes a child with the memory, files,
      directory and name of its parent and 0 as its result; [exec], once the
      program is loaded, leaves the stack that [main(argc, argv)] expects and
      frees exactly what only the old image used; [wait] of a zombie frees
      exactly what only the child used and returns its id.
    - Swapping: [kalloc] without a free page returns the victim's frame, with
      its contents in the slot; a page that [kalloc] has swapped out reads the
      same when it is faulted in again, whatever its frame was used for; the victim process is the one with the largest
      resident size; and, as a defect of the code, a second sharer of a
      swapped page keeps an entry to the reused frame.
    - Page allocator and reverse map refine a stack of pages and, for each
      page, a multiset of entries; growing, shrinking and kernel page tables
      map exactly the pages they should.
    - Disk: a page written to the swap area reads back; a crash at any point of
      [end_op] leaves a disk that recovery turns into the state before or
      after the transaction, and recovery itself can be interrupted; block
      allocation and release; [writei] then [readi] of any range; [dirlink]
      and [dirlookup] as an update and a lookup of a map, [namei] as the walk
      along a path; the image that [mkfs] builds holds every file under its
      name with its contents, and, as a defect, inside the swap area; as a
      defect of [begin_op], calls within their reservation overflow the log;
      the IDE
      driver serves its queue in order, each request as [memide.c] would.
    - Concurrency: mutual exclusion of spin locks, and panics exactly on their
      misuse; pipes are first-in first-out under any interleaving, and lose a
      wake-up, as a defect, when a killed writer returns; the scheduler runs
      every process that stays ready once per pass, with its page table
      loaded; [exit] and [wait] never lose a zombie.
    - System calls: an argument that passes the checks lies inside the
      process.  With the descriptor tables that the kernel builds, user code
      enters it only through the gates, on the kernel stack, and the trap frame
      ends with the vector, the error code and the saved registers.  Console: line
      editing refines lists of lines, and a line typed on the keyboard or
      received by the serial port is what a read returns.
    - Start-up: the boot loader puts every segment of the kernel where its
      header says; [mpinit] accepts a table only by signature, version and
      checksum and records the processors it lists, and, as a defect, loops on an unknown entry; [startothers] starts each of them
      with a stack of its own; interrupts go where [ioapicenable] says; the
      clock is read without tearing.
    - User code: the matcher of [grep] decides the language of its pattern,
      and [grep] prints the matching lines; [printf] renders its directives;
      [malloc] and [free] give disjoint arrays and merge what is freed; the
      shell parses exactly its grammar, connects pipes and redirections as the
      command says, and handles its input line by line; [wc] counts lines,
      words and bytes, [cat] copies, [ls] lists the entries in use.

    ** Bounds and fuel

    Loops over tables and page ranges run over the list of their indices and
    need no fuel.  The others use [while_], with fuel computed from the data:
    the number of pages for [freerange], the length of the path for [namex],
    the bytes over [BSIZE] (plus the partial blocks) for [readi] and [writei],
    the length of the data for [filewrite] and [copyout], the ring size for
    the console, the headers that fit into the memory of the process for
    [malloc] and [free], the bytes of the line for the shell's parser, the
    bytes that have arrived for the serial port.  Since [wp] excludes [Hang],
    a theorem about such a loop shows that its fuel suffices.  [mpinit] and
    [cmostime] take their fuel as an argument: the theorems hold for every
    fuel above the number of entries, or of at least seven rounds, and the
    theorem about the endless loop of [mpinit] for every fuel.  [kalloc] calls
    itself after a swap-out; two calls are enough ([kalloc_fuel_enough]).
    Functions on C strings take a bound on the bytes they may look at, and the
    theorems hold for every bound above the length of the string.

    ** Not modelled

    Assembly ([swtch.S], [trapasm.S], [entry.S], [bootasm.S] and the like) is
    outside the embedding; what the C code relies on enters as [KernelImage]
    and as the split of context switches.  [main], [mpenter] and [mpmain] only
    call one initialisation after the other; [consoleinit], [pinit],
    [fileinit] set a lock or a pointer; [panic], [procdump] and
    [getcallerpcs] print.  The test programs ([usertests.c], [forktest.c],
    [stressfs.c], [memtest1.c] to [memtest4.c], [testcow1.c] to [testcow3.c],
    [zombie.c]) and [init.c] are sequences of system calls with messages, and
    the headers [defs.h] and [user.h] are prototypes.
    The theorem about [exec] starts after the segments are loaded.
    The file system is built on the disk of [memide.c]; Ide.v shows that the
    driver of [ide.c] does the same.  The TLB is not part
    of the state: a translation always uses the current page table.  The
    interrupt flag is part of the state in Spinlock.v and Gate.v only; elsewhere
    a lock held stands for interrupts that are off, and [sched] has neither
    the check of the flag nor the saving of [intena].  The console's state has
    no inodes, so [consoleread] does not release and retake the inode's lock.
    The exits of [mkfs] on a failed [lseek], [read] or [write] of the host are
    left out. *)

From Stdlib Require Import ZArith Lia.
From stdpp Require Import base strings numbers gmap list.

Declare Scope kernel_scope.
Delimit Scope kernel_scope with kernel.
Open Scope Z_scope.
Open Scope kernel_scope.

(** ** Outcomes and the state monad *)

(** How a kernel function can end other than by returning: [panic], an
    access through an invalid pointer or array index, a call that would
    put the running process to sleep, a loop that never ends. *)
Inductive err :=
  | Panic (msg : string)
  | Trap
  | Blocked
  | Hang.

Inductive res (A : Type) :=
  | Ok (a : A)
  | Err (e : err).
Arguments Ok {A} _.
Arguments Err {A} _.

Definition M (S A : Type) : Type := S -> res (A * S).

#[global] Instance M_ret S : MRet (M S) := fun A a s => Ok (a, s).
#[global] Instance M_bind S : MBind (M S) := fun A B f m s =>
  match m s with
  | Ok (a, s') => f a s'
  | Err e => Err e
  end.

Definition fail {S A} (e : err) : M S A := fun _ => Err e.
Definition panic {S A} (msg : string) : M S A := fail (Panic msg).
Definition gets {S A} (f : S -> A) : M S A := fun s => Ok (f s, s).
Definition modify {S} (f : S -> S) : M S unit := fun s => Ok (tt, f s).
Definition when {S} (b : bool) (m : M S unit) : M S unit :=
  if b then m else mret tt.
(** A value that must exist: a non-null pointer, an index in range. *)
Definition the {S A} (o : option A) : M S A :=
  match o with Some a => mret a | None => fail Trap end.

(** ** Loops *)

(** [while_ fuel body a] runs [body] on the loop variables until it yields
    a result; it hangs when [fuel] runs out. *)
Fixpoint while_ {S A B} (fuel : nat) (body : A -> M S (A + B)) (a : A) : M S B :=
  match fuel with
  | O => fail Hang
  | Datatypes.S f =>
      r ← body a;
      match r with
      | inl a' => while_ f body a'
      | inr b => mret b
      end
  end.

(** How one iteration of a loop over an array ends. *)
Inductive ctl (A R : Type) :=
  | Next (a : A)
  | Break (a : A)
  | Return (r : R).
Arguments Next {A R} _.
Arguments Break {A R} _.
Arguments Return {A R} _.

(** A loop whose index runs through the list [l], with loop variables [a];
    the result is [inl] of the variables at the end or at a [break], or
    [inr] of the value of a [return] inside the loop. *)
Fixpoint for_ {S I A R} (l : list I) (body : I -> A -> M S (ctl A R)) (a : A)
    : M S (A + R) :=
  match l with
  | [] => mret (inl a)
  | i :: l' =>
      c ← body i a;
      match c with
      | Next a' => for_ l' body a'
      | Break a' => mret (inl a')
      | Return r => mret (inr r)
      end
  end.

(** The result of a loop without variables that may return a value. *)
Definition loop_result {A R} (r : A + R) (dflt : R) : R :=
  match r with inl _ => dflt | inr x => x end.

(** ** Total correctness *)

(** [m] started in [s] returns, and its result satisfies [Q]. *)
Definition wp {S A} (m : M S A) (Q : A -> S -> Prop) (s : S) : Prop :=
  match m s with
  | Ok (a, s') => Q a s'
  | Err _ => False
  end.

Section wp_rules.
Context {S : Type}.

Lemma wp_ret {A} (a : A) Q (s : S) : Q a s -> wp (mret a) Q s.
Proof. done. Qed.

Lemma wp_bind {A B} (m : M S A) (f : A -> M S B) Q s :
  wp m (fun a s' => wp (f a) Q s') s -> wp (m ≫= f) Q s.
Proof. unfold wp, mbind, M_bind. by destruct (m s) as [[a s']|e]. Qed.

Lemma wp_bind_inv {A B} (m : M S A) (f : A -> M S B) Q s :
  wp (m ≫= f) Q s -> wp m (fun a s' => wp (f a) Q s') s.
Proof. unfold wp, mbind, M_bind. by destruct (m s) as [[a s']|]. Qed.

Lemma wp_mono {A} (m : M S A) (P Q : A -> S -> Prop) s :
  wp m P s -> (forall a s', P a s' -> Q a s') -> wp m Q s.
Proof. unfold wp. destruct (m s) as [[a s']|e]; eauto. Qed.

Lemma wp_conj {A} (m : M S A) (P Q : A -> S -> Prop) s :
  wp m P s -> wp m Q s -> wp m (fun a s' => P a s' /\ Q a s') s.
Proof. unfold wp. by destruct (m s) as [[a s']|e]. Qed.

Lemma wp_run {A} (m : M S A) Q s :
  wp m Q s <-> exists a s', m s = Ok (a, s') /\ Q a s'.
Proof.
  unfold wp. destruct (m s) as [[a s']|e].
  - split; [eauto|]. by intros (?&?&[= <- <-]&?).
  - split; [done|]. by intros (?&?&?&?).
Qed.

Lemma wp_gets {A} (f : S -> A) Q s : Q (f s) s -> wp (gets f) Q s.
Proof. done. Qed.

Lemma wp_modify (f : S -> S) Q s : Q tt (f s) -> wp (modify f) Q s.
Proof. done. Qed.

Lemma wp_the {A} (o : option A) (a : A) Q (s : S) :
  o = Some a -> Q a s -> wp (the o) Q s.
Proof. by intros -> ?. Qed.

Lemma wp_when (b : bool) (m : M S unit) Q s :
  (b = true -> wp m Q s) -> (b = false -> Q tt s) -> wp (when b m) Q s.
Proof. destruct b; cbn; auto. Qed.

(** One iteration. *)
Lemma wp_while_S {A B} (body : A -> M S (A + B)) fuel a (Q : B -> S -> Prop) s :
  wp (body a) (fun r s' => match r with
    | inl a' => wp (while_ fuel body a') Q s'
    | inr b => Q b s'
    end) s -> wp (while_ (Datatypes.S fuel) body a) Q s.
Proof.
  intros H. apply wp_bind. eapply wp_mono; [exact H|]. by intros [a'|b] s'.
Qed.

(** The loop rule: an invariant and a measure that decreases. *)
Lemma wp_while {A B} (body : A -> M S (A + B)) (I : A -> S -> Prop)
    (mu : A -> nat) (Q : B -> S -> Prop) fuel a s :
  (forall a s, I a s ->
     wp (body a) (fun r s' => match r with
       | inl a' => I a' s' /\ (mu a' < mu a)%nat
       | inr b => Q b s'
       end) s) ->
  (mu a < fuel)%nat -> I a s -> wp (while_ fuel body a) Q s.
Proof.
  intros Hbody. revert a s.
  induction fuel as [|fuel IH]; intros a s Hmu HI; [lia|].
  apply wp_bind. eapply wp_mono; [by apply Hbody|].
  intros [a'|b] s'; cbn; [|by eauto].
  intros [??]. apply IH; [lia|done].
Qed.

(** The rule for array loops: an invariant on the part already scanned. *)
Lemma wp_for {Ix A R} (l : list Ix) (body : Ix -> A -> M S (ctl A R))
    (I : list Ix -> A -> S -> Prop) (Q : A + R -> S -> Prop) a s :
  (forall pre i suf a s, l = pre ++ i :: suf -> I pre a s ->
     wp (body i a) (fun c s' => match c with
       | Next a' => I (pre ++ [i]) a' s'
       | Break a' => Q (inl a') s'
       | Return r => Q (inr r) s'
       end) s) ->
  (forall a s, I l a s -> Q (inl a) s) ->
  I [] a s -> wp (for_ l body a) Q s.
Proof.
  intros Hbody Hend.
  assert (forall pre suf a s, l = pre ++ suf -> I pre a s ->
    wp (for_ suf body a) Q s) as Hgen.
  { intros pre suf. revert pre.
    induction suf as [|i suf IH]; intros pre a' s' Hl HI; cbn.
    - rewrite app_nil_r in Hl. subst. by apply Hend.
    - apply wp_bind. eapply wp_mono; [by eapply Hbody|].
      intros [a''|a''|r] s''; cbn; [|done..].
      intros ?. eapply IH; [|done]. rewrite <-app_assoc. done. }
  intros. by eapply (Hgen []).
Qed.

(** A loop that does nothing until element [i], where it leaves. *)
Lemma wp_for_first {Ix A R} (pre suf : list Ix) i (body : Ix -> A -> M S (ctl A R))
    (Q : A + R -> S -> Prop) a s :
  (forall j, j ∈ pre -> forall Q', Q' (Next a) s -> wp (body j a) Q' s) ->
  wp (body i a) (fun c s' => match c with
    | Next _ => False
    | Break a' => Q (inl a') s'
    | Return r => Q (inr r) s'
    end) s ->
  wp (for_ (pre ++ i :: suf) body a) Q s.
Proof.
  intros Hpre Hi. induction pre as [|j pre IH]; cbn [app for_].
  - apply wp_bind. eapply wp_mono; [exact Hi|]. by intros [?|?|?] s'.
  - apply wp_bind, Hpre; [by left|]. apply IH. intros j' Hj'. apply Hpre. by right.
Qed.

(** A loop in which no element does anything. *)
Lemma wp_for_none {Ix A R} (l : list Ix) (body : Ix -> A -> M S (ctl A R))
    (Q : A + R -> S -> Prop) a s :
  (forall j, j ∈ l -> forall Q', Q' (Next a) s -> wp (body j a) Q' s) ->
  Q (inl a) s -> wp (for_ l body a) Q s.
Proof.
  intros Hl HQ. induction l as [|j l IH]; cbn [for_]; [done|].
  apply wp_bind, Hl; [by left|]. apply IH. intros j' Hj'. apply Hl. by right.
Qed.

Lemma wp_for_fmap {Ix Jx A R} (f : Ix -> Jx) l (body : Jx -> A -> M S (ctl A R)) Q a s :
  wp (for_ l (fun i => body (f i)) a) Q s -> wp (for_ (f <$> l) body a) Q s.
Proof.
  revert a s. induction l as [|i l IH]; intros a s H; [done|].
  apply wp_bind. cbn [for_] in H. apply wp_bind_inv in H. eapply wp_mono; [exact H|]. intros [a'|a'|r] s'; try done. apply IH.
Qed.

(** A loop over the integers below [n]. *)
Lemma wp_for_seqZ {A R} n (body : Z -> A -> M S (ctl A R)) (I : nat -> A -> S -> Prop)
    (Q : A + R -> S -> Prop) a s :
  0 <= n ->
  (forall t a s, Z.of_nat t < n -> I t a s ->
     wp (body (Z.of_nat t) a) (fun c s' => match c with
       | Next a' => I (Datatypes.S t) a' s'
       | Break a' => Q (inl a') s'
       | Return r => Q (inr r) s'
       end) s) ->
  (forall a s, I (Z.to_nat n) a s -> Q (inl a) s) ->
  I 0%nat a s -> wp (for_ (seqZ 0 n) body a) Q s.
Proof.
  intros Hn Hbody Hend HI.
  apply (wp_for _ _ (fun pre a s => I (length pre) a s)); [| |done].
  - intros pre i suf a' s' Hpre HI'.
    assert (seqZ 0 n !! length pre = Some i) as Hi by (rewrite Hpre; by apply list_lookup_middle).
    apply lookup_seqZ in Hi as [-> Hlt]. eapply wp_mono; [apply Hbody; [lia|exact HI']|].
    intros [a''|a''|r] s''; [|done..]. by rewrite length_app, Nat.add_1_r.
  - intros a' s' HI'. apply Hend. by rewrite length_seqZ in HI'.
Qed.
End wp_rules.

(** Partial correctness: if [m] returns, its result satisfies [Q]. *)
Definition wlp {S A} (m : M S A) (Q : A -> S -> Prop) (s : S) : Prop :=
  forall a s', m s = Ok (a, s') -> Q a s'.

Section wlp_rules.
Context {S : Type}.

Lemma wlp_bind {A B} (m : M S A) (f : A -> M S B) Q s :
  wlp m (fun a s' => wlp (f a) Q s') s -> wlp (m ≫= f) Q s.
Proof.
  unfold wlp, mbind, M_bind. destruct (m s) as [[a s']|e]; [|done]. eauto.
Qed.

(** A step whose result does not matter. *)
Lemma wlp_skip {A B} (m : M S A) (f : A -> M S B) Q s :
  (forall a s', wlp (f a) Q s') -> wlp (m ≫= f) Q s.
Proof. intros H. apply wlp_bind. intros ???. apply H. Qed.

Lemma wlp_ret {A} (a : A) Q (s : S) : Q a s -> wlp (mret a) Q s.
Proof. by intros ??? [= <- <-]. Qed.

Lemma wlp_fail {A} e (Q : A -> S -> Prop) s : wlp (fail e) Q s.
Proof. done. Qed.

Lemma wp_wlp {A} (m : M S A) Q s : wp m Q s -> wlp m Q s.
Proof. unfold wp, wlp. by intros H a s' E; rewrite E in H. Qed.
End wlp_rules.

(** ** Tactics *)

(** One step of symbolic execution. *)
Ltac wp_step :=
  lazymatch goal with
  | |- wp (mbind _ _) _ _ => apply wp_bind
  | |- wp (mret _) _ _ => apply wp_ret
  | |- wp (gets _) _ _ => apply wp_gets
  | |- wp (modify _) _ _ => apply wp_modify
  | |- wp (when _ _) _ _ => apply wp_when; intros ?
  | |- wp (match ?o with inl _ => _ | inr _ => _ end) _ _ => destruct o
  | |- wp (let '(_, _) := ?p in _) _ _ => destruct p
  end; cbn beta iota.
Ltac wp_steps := repeat wp_step.

(** Turn boolean tests in the context and the goal into propositions. *)
Ltac bool_prop :=
  repeat match goal with
  | H : negb _ = true |- _ => apply negb_true_iff in H
  | H : negb _ = false |- _ => apply negb_false_iff in H
  | H : andb _ _ = true |- _ => apply andb_true_iff in H as [? ?]
  | H : orb _ _ = false |- _ => apply orb_false_iff in H as [? ?]
  | H : (_ =? _) = true |- _ => apply Z.eqb_eq in H
  | H : (_ =? _) = false |- _ => apply Z.eqb_neq in H
  | H : (_ <? _) = true |- _ => apply Z.ltb_lt in H
  | H : (_ <? _) = false |- _ => apply Z.ltb_ge in H
  | H : (_ <=? _) = true |- _ => apply Z.leb_le in H
  | H : (_ <=? _) = false |- _ => apply Z.leb_gt in H
  end.

(** Case analysis on the test of the first conditional of the goal. *)
Ltac case_if :=
  match goal with
  | |- context [if ?b then _ else _] =>
      lazymatch type of b with bool => destruct b eqn:? end
  end; bool_prop.

(** Linear arithmetic with division and remainder by constants. *)
Ltac zdiv := Z.div_mod_to_equations; lia.

(** ** Machine integers *)

Definition two32 : Z := 4294967296.
(** Conversion to [uint]. *)
Definition u32 (x : Z) : Z := x mod two32.
(** Reading a [uint] as an [int]. *)
Definition s32 (x : Z) : Z :=
  let y := u32 x in if y <? 2147483648 then y else y - two32.

Lemma u32_range x : 0 <= u32 x < two32.
Proof. apply Z.mod_pos_bound. done. Qed.

Lemma u32_small x : 0 <= x < two32 -> u32 x = x.
Proof. apply Z.mod_small. Qed.

Lemma u32_idem x : u32 (u32 x) = u32 x.
Proof. apply u32_small, u32_range. Qed.

Lemma s32_small x : 0 <= x < 2147483648 -> s32 x = x.
Proof.
  intros. unfold s32, u32, two32. rewrite Z.mod_small by lia.
  by rewrite (proj2 (Z.ltb_lt _ _)) by lia.
Qed.

Create HintDb kernel.
Create Rewrite HintDb kernel.
#[export] Hint Resolve u32_range : kernel.
#[export] Hint Rewrite u32_idem : kernel.
