(* ===== verification/Mmu.v ===== *)
(** * The memory management unit and the memory layout

    [types.h], [param.h], [memlayout.h] and [mmu.h]: sizes, the split of a
    virtual address into directory index, table index and offset, the
    fields of a page-table entry, and the map between physical addresses
    and the kernel addresses at which the kernel sees them. *)

From Stdlib Require Import ZArith Lia.
From stdpp Require Import base strings numbers gmap list.
From S2P Require Import Prelude.

(** ** param.h *)

Definition NPROC : Z := 64.
Definition KSTACKSIZE : Z := 4096.
Definition NCPU : Z := 8.
Definition NOFILE : Z := 16.
Definition NFILE : Z := 100.
Definition NINODE : Z := 50.
Definition NDEV : Z := 10.
Definition ROOTDEV : Z := 1.
Definition MAXARG : Z := 32.
Definition MAXOPBLOCKS : Z := 10.
Definition LOGSIZE : Z := MAXOPBLOCKS * 3.
Definition NBUF : Z := MAXOPBLOCKS * 3.
Definition SWAPBLOCKS : Z := 250 * 8.
Definition FSSIZE : Z := 1000.

(** ** memlayout.h *)

Definition EXTMEM : Z := 0x100000.
Definition PHYSTOP : Z := 0x400000.
Definition DEVSPACE : Z := 0xFE000000.
Definition KERNBASE : Z := 0x80000000.
Definition KERNLINK : Z := KERNBASE + EXTMEM.
Definition V2P (a : Z) : Z := u32 (a - KERNBASE).
Definition P2V (a : Z) : Z := u32 (a + KERNBASE).

(** ** mmu.h *)

Definition PDXSHIFT : Z := 22.
Definition PTXSHIFT : Z := 12.
Definition NPDENTRIES : Z := 1024.
Definition NPTENTRIES : Z := 1024.
Definition PGSIZE : Z := 4096.

Definition PDX (va : Z) : Z := Z.land (Z.shiftr (u32 va) PDXSHIFT) 0x3FF.
Definition PTX (va : Z) : Z := Z.land (Z.shiftr (u32 va) PTXSHIFT) 0x3FF.
Definition PGADDR (d t o : Z) : Z :=
  u32 (Z.lor (Z.lor (Z.shiftl d PDXSHIFT) (Z.shiftl t PTXSHIFT)) o).
Definition PGROUNDUP (sz : Z) : Z := Z.land (u32 (sz + PGSIZE - 1)) (Z.lnot (PGSIZE - 1)).
Definition PGROUNDDOWN (a : Z) : Z := Z.land (u32 a) (Z.lnot (PGSIZE - 1)).

Definition PTE_P : Z := 0x001.
Definition PTE_W : Z := 0x002.
Definition PTE_U : Z := 0x004.
Definition PTE_A : Z := 0x020.
Definition PTE_S : Z := 0x080.

Definition PTE_ADDR (pte : Z) : Z := Z.land (u32 pte) (Z.lnot 0xFFF).
Definition PTE_FLAGS (pte : Z) : Z := Z.land (u32 pte) 0xFFF.

(** The test [pte & f] of a flag. *)
Definition has (pte f : Z) : bool := negb (Z.land pte f =? 0).

(** ** Arithmetic of the address split *)

Lemma land_page_mask x : Z.land x (Z.lnot 4095) = x - x mod 4096.
Proof.
  change 4095 with (Z.ones 12). change 4096 with (2 ^ 12).
  rewrite <-Z.ldiff_land, Z.ldiff_ones_r, Z.shiftl_mul_pow2, Z.shiftr_div_pow2 by lia.
  pose proof (Z.div_mod x (2 ^ 12)). lia.
Qed.

Lemma land_page_offset x : Z.land x 4095 = x mod 4096.
Proof. change 4095 with (Z.ones 12). by rewrite Z.land_ones. Qed.

Lemma PDX_eq va : PDX va = u32 va / 0x400000.
Proof.
  unfold PDX, PDXSHIFT. change 0x3FF with (Z.ones 10).
  rewrite Z.land_ones, Z.shiftr_div_pow2 by lia.
  pose proof (u32_range va). change (2 ^ 22) with 0x400000. change (2 ^ 10) with 1024.
  unfold two32 in *. zdiv.
Qed.

Lemma PTX_eq va : PTX va = u32 va / 4096 mod 1024.
Proof.
  unfold PTX, PTXSHIFT. change 0x3FF with (Z.ones 10).
  by rewrite Z.land_ones, Z.shiftr_div_pow2 by lia.
Qed.

Lemma PGROUNDDOWN_eq a : PGROUNDDOWN a = u32 a - u32 a mod 4096.
Proof. apply land_page_mask. Qed.

Lemma PGROUNDUP_eq a : 0 <= a <= two32 - 4096 ->
  PGROUNDUP a = (a + 4095) / 4096 * 4096.
Proof.
  intros. unfold PGROUNDUP, PGSIZE. rewrite land_page_mask, u32_small by lia.
  replace (a + 4096 - 1) with (a + 4095) by lia.
  pose proof (Z.div_mod (a + 4095) 4096). lia.
Qed.

Lemma PTE_ADDR_eq x : PTE_ADDR x = u32 x - u32 x mod 4096.
Proof. apply land_page_mask. Qed.

Lemma PTE_FLAGS_eq x : PTE_FLAGS x = u32 x mod 4096.
Proof. apply land_page_offset. Qed.

Lemma PDX_range va : 0 <= PDX va < 1024.
Proof.
  rewrite PDX_eq. pose proof (u32_range va).
  unfold two32 in *. zdiv.
Qed.

Lemma PTX_range va : 0 <= PTX va < 1024.
Proof. rewrite PTX_eq. zdiv. Qed.

Lemma PTE_ADDR_range x : 0 <= PTE_ADDR x <= two32 - 4096.
Proof.
  rewrite PTE_ADDR_eq. pose proof (u32_range x).
  unfold two32 in *. zdiv.
Qed.

Lemma PTE_ADDR_aligned x : PTE_ADDR x mod 4096 = 0.
Proof. rewrite PTE_ADDR_eq. zdiv. Qed.

Lemma PTE_FLAGS_range x : 0 <= PTE_FLAGS x < 4096.
Proof. rewrite PTE_FLAGS_eq. zdiv. Qed.

(** Solve arithmetic goals that mention the layout constants. *)
Ltac klia :=
  unfold PGSIZE, PHYSTOP, KERNBASE, EXTMEM, DEVSPACE, NPROC, NPDENTRIES,
    NPTENTRIES, two32 in *; zdiv.

(** The low bits of a page-aligned address are clear, and flags have no
    other bits. *)
Lemma testbit_aligned a n : a mod 4096 = 0 -> 0 <= n < 12 -> Z.testbit a n = false.
Proof.
  intros Ha Hn. replace a with (a / 4096 * 2 ^ 12) by (change (2 ^ 12) with 4096; zdiv).
  apply Z.mul_pow2_bits_low. lia.
Qed.

Lemma testbit_flags f n : 0 <= f < 4096 -> 12 <= n -> Z.testbit f n = false.
Proof.
  intros Hf Hn. destruct (Z.eq_dec f 0) as [->|]; [apply Z.bits_0|].
  apply Z.bits_above_log2; [lia|]. apply Z.log2_lt_pow2; [lia|].
  eapply Z.lt_le_trans; [apply Hf|]. change 4096 with (2 ^ 12).
  by apply Z.pow_le_mono_r.
Qed.

(** A page-aligned address or-ed with flags is their sum. *)
Lemma lor_aligned a f : a mod 4096 = 0 -> 0 <= f < 4096 -> Z.lor a f = a + f.
Proof.
  intros Ha Hf. symmetry. apply Z.add_nocarry_lor.
  apply Z.bits_inj'. intros n Hn. rewrite Z.land_spec, Z.bits_0.
  destruct (Z.lt_ge_cases n 12).
  - by rewrite testbit_aligned by lia.
  - by rewrite (testbit_flags f), andb_false_r by lia.
Qed.

Lemma lor_flags_range f g : 0 <= f < 4096 -> 0 <= g < 4096 -> 0 <= Z.lor f g < 4096.
Proof.
  intros Hf Hg. assert (Z.lor f g = Z.lor f g mod 2 ^ 12) as ->; [|zdiv].
  symmetry. rewrite <-Z.land_ones by lia.
  apply Z.bits_inj'. intros n Hn. rewrite Z.land_spec, Z.lor_spec, Z.testbit_ones_nonneg by lia.
  destruct (Z.ltb_spec n 12); [by rewrite andb_true_r|].
  by rewrite !testbit_flags by lia.
Qed.

Lemma PTE_ADDR_lor a f : 0 <= a < two32 -> a mod 4096 = 0 -> 0 <= f < 4096 ->
  PTE_ADDR (Z.lor a f) = a.
Proof. intros. rewrite PTE_ADDR_eq, lor_aligned, u32_small by klia. zdiv. Qed.

Lemma PTE_FLAGS_lor a f : 0 <= a < two32 -> a mod 4096 = 0 -> 0 <= f < 4096 ->
  PTE_FLAGS (Z.lor a f) = f.
Proof. intros. rewrite PTE_FLAGS_eq, lor_aligned, u32_small by klia. zdiv. Qed.

Lemma pte_split w : 0 <= w < two32 -> w = Z.lor (PTE_ADDR w) (PTE_FLAGS w).
Proof.
  intros. rewrite lor_aligned by (apply PTE_ADDR_aligned || apply PTE_FLAGS_range).
  rewrite PTE_ADDR_eq, PTE_FLAGS_eq, u32_small by lia. lia.
Qed.

Lemma land_u32_range x y : 0 <= x < two32 -> 0 <= Z.land x y < two32.
Proof.
  intros. assert (Z.land x y = Z.land x y mod 2 ^ 32) as ->; [|klia].
  rewrite <-Z.land_ones, <-Z.land_assoc, (Z.land_comm y), Z.land_assoc by lia.
  by rewrite (Z.land_ones x), Z.mod_small by (unfold two32 in *; lia).
Qed.

Lemma lor_u32_range x y : 0 <= x < two32 -> 0 <= y < two32 -> 0 <= Z.lor x y < two32.
Proof.
  intros Hx Hy. assert (Z.lor x y = Z.lor x y mod 2 ^ 32) as ->; [|klia].
  rewrite <-Z.land_ones, Z.land_lor_distr_l, !Z.land_ones by lia.
  by rewrite !Z.mod_small by (unfold two32 in *; lia).
Qed.

(** Clearing or setting flags leaves the address. *)
Lemma PTE_ADDR_ldiff w f : 0 <= w < two32 -> 0 <= f < 4096 ->
  PTE_ADDR (Z.land w (Z.lnot f)) = PTE_ADDR w.
Proof.
  intros Hw Hf. unfold PTE_ADDR.
  rewrite !u32_small by (done || by apply land_u32_range).
  apply Z.bits_inj'. intros n Hn. rewrite !Z.land_spec, !Z.lnot_spec by lia.
  destruct (Z.lt_ge_cases n 12).
  - change 4095 with (Z.ones 12). rewrite Z.testbit_ones_nonneg by lia.
    rewrite (proj2 (Z.ltb_lt _ _)) by lia. cbn. by rewrite !andb_false_r.
  - rewrite (testbit_flags f) by lia. cbn. by rewrite andb_true_r.
Qed.

Lemma PTE_ADDR_lor_flags w f : 0 <= w < two32 -> 0 <= f < 4096 ->
  PTE_ADDR (Z.lor w f) = PTE_ADDR w.
Proof.
  intros Hw Hf. rewrite (pte_split w) at 1 by lia. rewrite <-Z.lor_assoc.
  apply PTE_ADDR_lor; [|apply PTE_ADDR_aligned|].
  - pose proof (PTE_ADDR_range w). klia.
  - apply lor_flags_range; [apply PTE_FLAGS_range|done].
Qed.

(** A flag test reads one bit. *)
Lemma has_testbit w k : 0 <= k -> has w (2 ^ k) = Z.testbit w k.
Proof.
  intros Hk. unfold has.
  assert (Z.land w (2 ^ k) = if Z.testbit w k then 2 ^ k else 0) as ->.
  { apply Z.bits_inj'. intros n Hn. rewrite Z.land_spec, Z.pow2_bits_eqb by lia.
    destruct (Z.eqb_spec k n) as [->|].
    - rewrite andb_true_r. destruct (Z.testbit w n) eqn:E; [|by rewrite Z.bits_0].
      by rewrite Z.pow2_bits_eqb, Z.eqb_refl by lia.
    - rewrite andb_false_r. destruct (Z.testbit w k); [|by rewrite Z.bits_0].
      rewrite Z.pow2_bits_eqb by lia. symmetry. by apply Z.eqb_neq. }
  destruct (Z.testbit w k); [|done].
  pose proof (Z.pow_pos_nonneg 2 k). by rewrite (proj2 (Z.eqb_neq _ _)) by lia.
Qed.

Lemma has_P w : has w PTE_P = Z.testbit w 0.
Proof. by apply (has_testbit w 0). Qed.
Lemma has_W w : has w PTE_W = Z.testbit w 1.
Proof. by apply (has_testbit w 1). Qed.
Lemma has_U w : has w PTE_U = Z.testbit w 2.
Proof. by apply (has_testbit w 2). Qed.
Lemma has_A w : has w PTE_A = Z.testbit w 5.
Proof. by apply (has_testbit w 5). Qed.
Lemma has_S w : has w PTE_S = Z.testbit w 7.
Proof. by apply (has_testbit w 7). Qed.

(** Decide flag tests of entries built with [|], [&] and [~]. *)
Ltac flags :=
  rewrite ?has_P, ?has_W, ?has_U, ?has_A, ?has_S in *;
  repeat (rewrite ?Z.lor_spec, ?Z.land_spec, ?Z.lnot_spec in * by lia);
  repeat match goal with
  | |- context [Z.testbit ?a ?n] =>
      rewrite (testbit_aligned a n) by (assumption || apply PTE_ADDR_aligned || lia)
  end;
  cbn in *.

(** ** Physical and kernel addresses *)

Lemma V2P_P2V a : 0 <= a < two32 -> V2P (P2V a) = a.
Proof. intros. unfold V2P, P2V, u32, KERNBASE. klia. Qed.

Lemma P2V_V2P a : 0 <= a < two32 -> P2V (V2P a) = a.
Proof. intros. unfold V2P, P2V, u32, KERNBASE. klia. Qed.

Lemma P2V_small a : 0 <= a < KERNBASE -> P2V a = a + KERNBASE.
Proof. intros. unfold P2V. apply u32_small. klia. Qed.

Lemma V2P_high a : KERNBASE <= a < two32 -> V2P a = a - KERNBASE.
Proof. intros. unfold V2P. apply u32_small. klia. Qed.

Lemma P2V_aligned a : a mod 4096 = 0 -> P2V a mod 4096 = 0.
Proof. intros. unfold P2V, u32, KERNBASE, two32. zdiv. Qed.

Lemma V2P_aligned a : a mod 4096 = 0 -> V2P a mod 4096 = 0.
Proof. intros. unfold V2P, u32, KERNBASE, two32. zdiv. Qed.

(** ** Properties *)

Lemma lor_add_low a k x : 0 <= k -> 0 <= x < 2 ^ k -> Z.lor (Z.shiftl a k) x = a * 2 ^ k + x.
Proof.
  intros Hk Hx. rewrite <-Z.shiftl_mul_pow2 by lia. symmetry. apply Z.add_nocarry_lor.
  apply Z.bits_inj'. intros n Hn. rewrite Z.land_spec, Z.bits_0, Z.shiftl_spec by lia.
  destruct (Z.lt_ge_cases n k).
  - by rewrite Z.testbit_neg_r by lia.
  - rewrite <-(Z.mod_small x (2 ^ k)), Z.mod_pow2_bits_high by lia. apply andb_false_r.
Qed.

Lemma PGADDR_eq d t o : 0 <= d < 1024 -> 0 <= t < 1024 -> 0 <= o < PGSIZE ->
  PGADDR d t o = d * 0x400000 + t * 0x1000 + o.
Proof.
  intros Hd Ht Ho. unfold PGADDR, PDXSHIFT, PTXSHIFT. rewrite <-Z.lor_assoc.
  rewrite (lor_add_low t 12) by (cbn; klia). rewrite (lor_add_low d 22) by (cbn; klia).
  rewrite u32_small by klia. cbn. lia.
Qed.

Lemma div_4m va : va / 0x400000 = va / PGSIZE / 1024.
Proof. rewrite Z.div_div by done. done. Qed.

(** The split of a virtual address into directory index, table index and
    offset is a bijection: putting the parts together gives the address back,
    and the parts of an address built from parts are these. *)
Theorem va_split_bijective :
  (forall va, 0 <= va < two32 -> PGADDR (PDX va) (PTX va) (va mod PGSIZE) = va) /\
  (forall d t o, 0 <= d < NPDENTRIES -> 0 <= t < NPTENTRIES -> 0 <= o < PGSIZE ->
     PDX (PGADDR d t o) = d /\ PTX (PGADDR d t o) = t /\ PGADDR d t o mod PGSIZE = o).
Proof.
  split.
  - intros va Hva.
    rewrite (PGADDR_eq _ _ _ (PDX_range va) (PTX_range va)) by (apply Z.mod_pos_bound; reflexivity).
    rewrite PDX_eq, PTX_eq, u32_small, div_4m by done.
    pose proof (Z.div_mod va PGSIZE). pose proof (Z.div_mod (va / PGSIZE) 1024).
    unfold PGSIZE in *. lia.
  - intros d t o Hd Ht Ho. rewrite PGADDR_eq by done.
    rewrite PDX_eq, PTX_eq, u32_small, div_4m by klia.
    replace (d * 0x400000 + t * 0x1000 + o) with (o + (d * 1024 + t) * PGSIZE) by (unfold PGSIZE; lia).
    change 4096 with PGSIZE. rewrite Z.mod_add by done.
    assert ((o + (d * 1024 + t) * PGSIZE) / PGSIZE = t + d * 1024) as ->
      by (rewrite Z.div_add, Z.div_small by done; lia).
    rewrite Z.div_add, Z.mod_add, (Z.div_small t), (Z.mod_small t) by done.
    rewrite (Z.mod_small o) by done. done.
Qed.

(** An entry is its frame address and its flags: building an entry from a
    page-aligned address and flags and taking it apart gives them back, and
    any entry is rebuilt from its parts; changing flags never changes the
    address. *)
Theorem pte_fields_roundtrip :
  (forall pa f, 0 <= pa < two32 -> pa mod PGSIZE = 0 -> 0 <= f < 4096 ->
     PTE_ADDR (Z.lor pa f) = pa /\ PTE_FLAGS (Z.lor pa f) = f) /\
  (forall e, 0 <= e < two32 -> Z.lor (PTE_ADDR e) (PTE_FLAGS e) = e) /\
  (forall e f, 0 <= e < two32 -> 0 <= f < 4096 ->
     PTE_ADDR (Z.lor e f) = PTE_ADDR e /\ PTE_ADDR (Z.land e (Z.lnot f)) = PTE_ADDR e).
Proof.
  split; [|split].
  - intros. split; [by apply PTE_ADDR_lor|by apply PTE_FLAGS_lor].
  - intros. symmetry. by apply pte_split.
  - intros. split; [by apply PTE_ADDR_lor_flags|by apply PTE_ADDR_ldiff].
Qed.
