(* ===== verification/Memory.v ===== *)
(** * Memory and the routines of string.c

    Memory is a finite map from addresses to bytes; an address never written
    reads as zero, as after reset.  Addresses are the ones the kernel uses
    (physical address plus [KERNBASE]).  [ld] and [st] are the 32-bit
    little-endian accesses of the processor, [ldb] and [stb] the byte
    accesses.  [memset], [memmove] and [memcmp] follow [string.c]; the
    functions on C strings are in CString.v. *)

From Stdlib Require Import ZArith Lia.
From stdpp Require Import base strings numbers gmap list.
From S2P Require Import Prelude Mmu.

Abbreviation mem := (gmap Z Z).

(** ** Processor accesses *)

Definition ldb (m : mem) (a : Z) : Z := default 0 (m !! a) mod 256.
Definition stb (m : mem) (a v : Z) : mem := <[a := v mod 256]> m.

Definition ld (m : mem) (a : Z) : Z :=
  ldb m a + 0x100 * ldb m (a + 1) + 0x10000 * ldb m (a + 2) + 0x1000000 * ldb m (a + 3).
(** The 16-bit load. *)
Definition ld16 (m : mem) (a : Z) : Z := ldb m a + 0x100 * ldb m (a + 1).
Definition st (m : mem) (a v : Z) : mem :=
  stb (stb (stb (stb m a v) (a + 1) (v / 0x100)) (a + 2) (v / 0x10000)) (a + 3) (v / 0x1000000).

(** [rep stosb] and [rep stosl] of x86.h. *)
Fixpoint stosb (m : mem) (addr data : Z) (cnt : nat) : mem :=
  match cnt with
  | O => m
  | S n => stosb (stb m addr data) (addr + 1) data n
  end.
Fixpoint stosl (m : mem) (addr data : Z) (cnt : nat) : mem :=
  match cnt with
  | O => m
  | S n => stosl (st m addr data) (addr + 4) data n
  end.

(** ** string.c *)

Definition memset (m : mem) (dst c n : Z) : mem :=
  if (dst mod 4 =? 0) && (n mod 4 =? 0) then
    let c := Z.land c 0xFF in
    stosl m dst
      (Z.lor (Z.lor (Z.lor (Z.shiftl c 24) (Z.shiftl c 16)) (Z.shiftl c 8)) c)
      (Z.to_nat (n / 4))
  else stosb m dst c (Z.to_nat n).

(** [while(n-- > 0) *d++ = *s++;] *)
Fixpoint copy_fwd (m : mem) (d s : Z) (n : nat) : mem :=
  match n with
  | O => m
  | S n => copy_fwd (stb m d (ldb m s)) (d + 1) (s + 1) n
  end.
(** [while(n-- > 0) *--d = *--s;] *)
Fixpoint copy_bwd (m : mem) (d s : Z) (n : nat) : mem :=
  match n with
  | O => m
  | S n => copy_bwd (stb m (d - 1) (ldb m (s - 1))) (d - 1) (s - 1) n
  end.
Definition memmove (m : mem) (dst src n : Z) : mem :=
  if (src <? dst) && (dst <? src + n)
  then copy_bwd m (dst + n) (src + n) (Z.to_nat n)
  else copy_fwd m dst src (Z.to_nat n).

(** [memcmp] on [n] bytes. *)
Fixpoint memcmp_loop (m : mem) (s1 s2 : Z) (n : nat) : Z :=
  match n with
  | O => 0
  | S n =>
      if negb (ldb m s1 =? ldb m s2) then ldb m s1 - ldb m s2
      else memcmp_loop m (s1 + 1) (s2 + 1) n
  end.
Definition memcmp (m : mem) (v1 v2 n : Z) : Z := memcmp_loop m v1 v2 (Z.to_nat n).

(** ** Bytes and words *)

Lemma ldb_range m a : 0 <= ldb m a < 256.
Proof. unfold ldb. zdiv. Qed.

Lemma ldb_stb m a b v : ldb (stb m a v) b = if decide (a = b) then v mod 256 else ldb m b.
Proof.
  unfold ldb, stb. rewrite lookup_insert. case_decide; [|done].
  cbn. by rewrite Zmod_mod.
Qed.

Lemma ldb_stb_eq m a v : ldb (stb m a v) a = v mod 256.
Proof. rewrite ldb_stb. by case_decide. Qed.

Lemma ldb_stb_ne m a b v : a <> b -> ldb (stb m a v) b = ldb m b.
Proof. intros. rewrite ldb_stb. by case_decide. Qed.

Lemma ld_range m a : 0 <= ld m a < two32.
Proof.
  unfold ld, two32. pose proof (ldb_range m a). pose proof (ldb_range m (a + 1)).
  pose proof (ldb_range m (a + 2)). pose proof (ldb_range m (a + 3)). lia.
Qed.

(** A word only depends on its four bytes. *)
Lemma ld_ext m m' a : (forall i, 0 <= i < 4 -> ldb m (a + i) = ldb m' (a + i)) -> ld m a = ld m' a.
Proof.
  intros H. unfold ld. pose proof (H 0) as H0. rewrite Z.add_0_r in H0.
  by rewrite H0, !H by lia.
Qed.

Lemma ldb_st_ne m a v b : b < a \/ a + 4 <= b -> ldb (st m a v) b = ldb m b.
Proof. intros. unfold st. by rewrite !ldb_stb_ne by lia. Qed.

Lemma ld_st_eq m a v : ld (st m a v) a = u32 v.
Proof.
  unfold ld, st. rewrite !ldb_stb.
  repeat (case_decide; [try lia|try lia]).
  unfold u32, two32.
  change 0x10000 with (0x100 * 0x100). change 0x1000000 with (0x100 * (0x100 * 0x100)).
  rewrite <-!Z.div_div by lia. zdiv.
Qed.

Lemma ld_st_ne m a v b : b + 4 <= a \/ a + 4 <= b -> ld (st m a v) b = ld m b.
Proof. intros. apply ld_ext. intros. apply ldb_st_ne. lia. Qed.

(** For aligned accesses, words behave like an array. *)
Lemma ld_st_aligned m a v b : a mod 4 = 0 -> b mod 4 = 0 ->
  ld (st m a v) b = if decide (a = b) then u32 v else ld m b.
Proof.
  intros. case_decide; [subst; apply ld_st_eq|]. apply ld_st_ne. zdiv.
Qed.

(** ** Correctness of memset and memmove *)

Lemma ldb_stosb m a c n b :
  ldb (stosb m a c n) b = if decide (a <= b < a + Z.of_nat n) then c mod 256 else ldb m b.
Proof.
  revert m a. induction n as [|n IH]; intros m a; cbn [stosb].
  - by rewrite decide_False by lia.
  - rewrite IH, ldb_stb.
    repeat case_decide; try done; lia.
Qed.

Lemma ldb_st_byte m a c b : 0 <= c < 256 -> a <= b < a + 4 ->
  ldb (st m a (c * 0x1010101)) b = c.
Proof.
  intros Hc Hb. unfold st. rewrite !ldb_stb.
  assert (c * 0x1010101 / 0x1000000 = c) as -> by zdiv.
  assert (c * 0x1010101 / 0x10000 = c * 0x101) as -> by zdiv.
  assert (c * 0x1010101 / 0x100 = c * 0x10101) as -> by zdiv.
  repeat case_decide; try lia; zdiv.
Qed.

Lemma ldb_stosl m a c n b : 0 <= c < 256 ->
  ldb (stosl m a (c * 0x1010101) n) b =
    if decide (a <= b < a + 4 * Z.of_nat n) then c else ldb m b.
Proof.
  intros Hc. revert m a. induction n as [|n IH]; intros m a; cbn [stosl].
  - by rewrite decide_False by lia.
  - rewrite IH. destruct (decide (a <= b < a + 4)).
    + rewrite ldb_st_byte by lia. repeat case_decide; try done; lia.
    + rewrite ldb_st_ne by lia. repeat case_decide; try done; lia.
Qed.

Lemma memset_word c : 0 <= c < 256 ->
  Z.lor (Z.lor (Z.lor (Z.shiftl c 24) (Z.shiftl c 16)) (Z.shiftl c 8)) c = c * 0x1010101.
Proof.
  intros Hc.
  assert (forallb (fun n => let c := Z.of_nat n in
    Z.lor (Z.lor (Z.lor (Z.shiftl c 24) (Z.shiftl c 16)) (Z.shiftl c 8)) c
      =? c * 0x1010101) (seq 0 256) = true) as Hall by reflexivity.
  rewrite forallb_forall in Hall. specialize (Hall (Z.to_nat c)).
  rewrite Z2Nat.id in Hall by lia. apply Z.eqb_eq, Hall, in_seq. lia.
Qed.

(** [memset] fills exactly the [n] bytes, whichever store it uses. *)
Lemma ldb_memset m dst c n b : 0 <= n ->
  ldb (memset m dst c n) b = if decide (dst <= b < dst + n) then c mod 256 else ldb m b.
Proof.
  intros Hn. unfold memset. case_if.
  - change 0xFF with (Z.ones 8). rewrite Z.land_ones by lia. change (2 ^ 8) with 256.
    rewrite memset_word by zdiv. rewrite ldb_stosl by zdiv.
    assert (4 * Z.of_nat (Z.to_nat (n / 4)) = n) as -> by zdiv. done.
  - rewrite ldb_stosb. by rewrite Z2Nat.id by lia.
Qed.

Lemma ldb_memset_out m dst c n b : 0 <= n -> b < dst \/ dst + n <= b ->
  ldb (memset m dst c n) b = ldb m b.
Proof. intros. rewrite ldb_memset by lia. by rewrite decide_False by lia. Qed.

Lemma ld_memset_out m dst c n b : 0 <= n -> b + 4 <= dst \/ dst + n <= b ->
  ld (memset m dst c n) b = ld m b.
Proof. intros. apply ld_ext. intros. apply ldb_memset_out; lia. Qed.

Lemma ld_memset_0 m dst n b : dst <= b -> b + 4 <= dst + n -> ld (memset m dst 0 n) b = 0.
Proof.
  intros. unfold ld. rewrite !ldb_memset by lia.
  by rewrite !decide_True by lia.
Qed.

Lemma ldb_copy_fwd m d s n b : ~ (s < d < s + Z.of_nat n) ->
  ldb (copy_fwd m d s n) b =
    if decide (d <= b < d + Z.of_nat n) then ldb m (s + (b - d)) else ldb m b.
Proof.
  revert m d s. induction n as [|n IH]; intros m d s Hd; cbn [copy_fwd].
  - by rewrite decide_False by lia.
  - rewrite IH by lia. destruct (decide (b = d)) as [->|].
    + rewrite decide_False, decide_True by lia.
      rewrite ldb_stb_eq, Z.mod_small by apply ldb_range. f_equal. lia.
    + destruct (decide (d + 1 <= b < d + 1 + Z.of_nat n)).
      * rewrite decide_True by lia. rewrite ldb_stb_ne by lia. f_equal. lia.
      * rewrite decide_False by lia. by rewrite ldb_stb_ne by lia.
Qed.

Lemma ldb_copy_bwd m d s n b : s < d ->
  ldb (copy_bwd m d s n) b =
    if decide (d - Z.of_nat n <= b < d) then ldb m (s + (b - d)) else ldb m b.
Proof.
  revert m d s. induction n as [|n IH]; intros m d s Hd; cbn [copy_bwd].
  - by rewrite decide_False by lia.
  - rewrite IH by lia. destruct (decide (b = d - 1)) as [->|].
    + rewrite decide_False, decide_True by lia.
      rewrite ldb_stb_eq, Z.mod_small by apply ldb_range. f_equal. lia.
    + destruct (decide (d - 1 - Z.of_nat n <= b < d - 1)).
      * rewrite decide_True by lia. rewrite ldb_stb_ne by lia. f_equal. lia.
      * rewrite decide_False by lia. by rewrite ldb_stb_ne by lia.
Qed.

(** [memmove] copies the [n] bytes of the source as they were before the
    call, also when the two ranges overlap. *)
Lemma ldb_memmove m dst src n b : 0 <= n ->
  ldb (memmove m dst src n) b =
    if decide (dst <= b < dst + n) then ldb m (src + (b - dst)) else ldb m b.
Proof.
  intros Hn. unfold memmove. destruct ((src <? dst) && (dst <? src + n)) eqn:E.
  - bool_prop. rewrite ldb_copy_bwd by lia. rewrite Z2Nat.id by lia.
    replace (dst + n - n) with dst by lia.
    replace (src + n + (b - (dst + n))) with (src + (b - dst)) by lia. done.
  - rewrite ldb_copy_fwd; rewrite Z2Nat.id by lia; [done|].
    apply andb_false_iff in E as [E|E]; bool_prop; lia.
Qed.

Lemma ldb_memmove_out m dst src n b : 0 <= n -> b < dst \/ dst + n <= b ->
  ldb (memmove m dst src n) b = ldb m b.
Proof. intros. rewrite ldb_memmove by lia. by rewrite decide_False by lia. Qed.

Lemma ld_memmove_out m dst src n b : 0 <= n -> b + 4 <= dst \/ dst + n <= b ->
  ld (memmove m dst src n) b = ld m b.
Proof. intros. apply ld_ext. intros. apply ldb_memmove_out; lia. Qed.

(** [memcmp] is zero exactly when the two ranges hold the same bytes. *)
Lemma memcmp_loop_0 m s1 s2 n :
  memcmp_loop m s1 s2 n = 0 <->
    forall i, 0 <= i < Z.of_nat n -> ldb m (s1 + i) = ldb m (s2 + i).
Proof.
  revert s1 s2. induction n as [|n IH]; intros s1 s2; cbn [memcmp_loop]; [split; [lia|done]|].
  destruct (Z.eqb_spec (ldb m s1) (ldb m s2)) as [E|E]; cbn [negb].
  - rewrite IH. split; intros H i Hi.
    + destruct (decide (i = 0)) as [->|]; [by rewrite !Z.add_0_r|].
      specialize (H (i - 1)). rewrite <-!Z.add_assoc in H.
      replace (1 + (i - 1)) with i in H by lia. apply H. lia.
    + rewrite <-!Z.add_assoc. apply H. lia.
  - split; [lia|]. intros H. specialize (H 0). rewrite !Z.add_0_r in H. lia.
Qed.

(** ** Properties *)

(** [memmove] is correct for overlapping ranges: every byte of the
    destination is the byte of the source before the call, and no other byte
    changes; after it [memcmp] finds the destination equal to the old source
    when the ranges do not overlap. *)
Theorem memmove_correct m dst src n : 0 <= n ->
  (forall i, 0 <= i < n -> ldb (memmove m dst src n) (dst + i) = ldb m (src + i)) /\
  (forall b, b < dst \/ dst + n <= b -> ldb (memmove m dst src n) b = ldb m b) /\
  (src + n <= dst \/ dst + n <= src -> memcmp (memmove m dst src n) dst src n = 0).
Proof.
  intros Hn. assert (forall i, 0 <= i < n -> ldb (memmove m dst src n) (dst + i) = ldb m (src + i)) as H1.
  { intros i Hi. rewrite ldb_memmove, decide_True by lia. f_equal. lia. }
  split; [done|]. split; [intros; by apply ldb_memmove_out|].
  intros Hd. unfold memcmp. apply memcmp_loop_0. intros i Hi. rewrite H1 by lia.
  by rewrite ldb_memmove_out by lia.
Qed.

Lemma memmove_correct_witness :
  ldb (memmove (st ∅ 100 0x04030201) 101 100 4) 104 = ldb (st ∅ 100 0x04030201) 103.
Proof. exact (proj1 (memmove_correct (st ∅ 100 0x04030201) 101 100 4 ltac:(lia)) 3 ltac:(lia)). Defined.
