(* ===== verification/CString.v ===== *)
(** * C strings

    [strncmp], [strncpy], [safestrcpy] and [strlen] of [string.c]; a string
    at [a] is the list of its bytes before the terminating zero ([cstr]). *)

From Stdlib Require Import ZArith Lia.
From stdpp Require Import base strings numbers gmap list.
From S2P Require Import Prelude Mmu Memory.

(** ** Operations *)

(** [while(n > 0 && *p && *p == *q) n--, p++, q++;] *)
Fixpoint strncmp (m : mem) (p q : Z) (n : nat) : Z :=
  match n with
  | O => 0
  | S n =>
      if negb (ldb m p =? 0) && (ldb m p =? ldb m q) then strncmp m (p + 1) (q + 1) n
      else ldb m p - ldb m q
  end.

(** [while(n-- > 0) *s++ = 0;] *)
Fixpoint zero_fill (m : mem) (s : Z) (n : nat) : mem :=
  match n with
  | O => m
  | S n => zero_fill (stb m s 0) (s + 1) n
  end.
Fixpoint strncpy_loop (m : mem) (s t : Z) (n : nat) : mem :=
  match n with
  | O => m
  | S n =>
      let c := ldb m t in
      let m := stb m s c in
      if c =? 0 then zero_fill m (s + 1) n else strncpy_loop m (s + 1) (t + 1) n
  end.
Definition strncpy (m : mem) (s t n : Z) : mem := strncpy_loop m s t (Z.to_nat n).

(** The loop of [safestrcpy], with [n] the value of [--n], and the final
    [*s = 0]. *)
Fixpoint safestrcpy_loop (m : mem) (s t : Z) (n : nat) : mem :=
  match n with
  | O => stb m s 0
  | S n =>
      let c := ldb m t in
      let m := stb m s c in
      if c =? 0 then stb m (s + 1) 0 else safestrcpy_loop m (s + 1) (t + 1) n
  end.
Definition safestrcpy (m : mem) (s t n : Z) : mem :=
  if n <=? 0 then m else safestrcpy_loop m s t (Z.to_nat (n - 1)).

(** [for(n = 0; s[n]; n++)], at most [fuel] bytes. *)
Fixpoint strlen (m : mem) (s : Z) (fuel : nat) : option Z :=
  match fuel with
  | O => None
  | S f => if ldb m s =? 0 then Some 0 else Z.succ <$> strlen m (s + 1) f
  end.

(** ** Strings *)

(** The string at [a] is [l]. *)
Fixpoint cstr (m : mem) (a : Z) (l : list Z) : Prop :=
  match l with
  | [] => ldb m a = 0
  | c :: l' => c <> 0 /\ ldb m a = c /\ cstr m (a + 1) l'
  end.

Lemma cstr_frame m m' a l :
  (forall b, a <= b <= a + Z.of_nat (length l) -> ldb m' b = ldb m b) ->
  cstr m a l -> cstr m' a l.
Proof.
  revert a. induction l as [|c l IH]; intros a Hm; cbn [cstr length] in *.
  - intros <-. apply Hm. lia.
  - intros (? & <- & ?). split; [done|]. split; [apply Hm; lia|].
    apply IH; [|done]. intros. apply Hm. lia.
Qed.

Lemma cstr_unique m a l l' : cstr m a l -> cstr m a l' -> l = l'.
Proof.
  revert a l'. induction l as [|c l IH]; intros a [|c' l']; cbn; [done|naive_solver..|].
  intros (? & ? & ?) (? & ? & ?). f_equal; [congruence|eauto].
Qed.

(** ** Lemmas *)

Lemma ldb_zero_fill m s n b :
  ldb (zero_fill m s n) b = if decide (s <= b < s + Z.of_nat n) then 0 else ldb m b.
Proof.
  revert m s. induction n as [|n IH]; intros m s; cbn [zero_fill].
  - by rewrite decide_False by lia.
  - rewrite IH, ldb_stb. repeat case_decide; try done; lia.
Qed.

Lemma strlen_cstr m s l fuel : cstr m s l -> (length l < fuel)%nat ->
  strlen m s fuel = Some (Z.of_nat (length l)).
Proof.
  revert s fuel. induction l as [|c l IH]; intros s [|fuel] Hl Hf; cbn in *; try lia.
  - by rewrite Hl.
  - destruct Hl as (Hc & -> & Hl). rewrite (proj2 (Z.eqb_neq _ _)) by done.
    rewrite (IH _ fuel) by (done || lia). cbn. f_equal. lia.
Qed.

Lemma strncmp_cstr m p q l l' n : cstr m p l -> cstr m q l' ->
  strncmp m p q n = 0 <-> take n l = take n l'.
Proof.
  revert p q l l'. induction n as [|n IH]; intros p q l l' Hl Hl'; cbn [strncmp]; [done|].
  pose proof (ldb_range m p). pose proof (ldb_range m q).
  destruct l as [|c l], l' as [|c' l']; cbn [cstr take] in *.
  - rewrite Hl, Hl'. done.
  - rewrite Hl. destruct Hl' as (? & <- & ?). cbn. split; [lia|done].
  - rewrite Hl'. destruct Hl as (? & <- & ?).
    rewrite (proj2 (Z.eqb_neq (ldb m p) 0)) by done. cbn. split; [lia|done].
  - destruct Hl as (Hc & Hp & Hl), Hl' as (Hc' & Hq & Hl'). rewrite Hp, Hq.
    rewrite (proj2 (Z.eqb_neq c 0)) by done. cbn.
    destruct (Z.eqb_spec c c') as [<-|].
    + rewrite (IH _ _ l l') by done. split; [by intros ->|by intros [= ?]].
    + split; [lia|]. congruence.
Qed.

Lemma safestrcpy_loop_out m s t n b : b < s \/ s + Z.of_nat n < b ->
  ldb (safestrcpy_loop m s t n) b = ldb m b.
Proof.
  revert m s t. induction n as [|n IH]; intros m s t Hb; cbn [safestrcpy_loop].
  - apply ldb_stb_ne. lia.
  - case_if; [rewrite !ldb_stb_ne by lia; done|]. rewrite IH by lia. apply ldb_stb_ne. lia.
Qed.

Lemma safestrcpy_loop_cstr m s t n l : cstr m t l ->
  s + Z.of_nat n < t \/ t + Z.of_nat (length l) < s ->
  cstr (safestrcpy_loop m s t n) s (take n l).
Proof.
  revert m s t l. induction n as [|n IH]; intros m s t l Hl Hd; cbn [safestrcpy_loop].
  - rewrite take_0. apply ldb_stb_eq.
  - destruct l as [|c l]; cbn [cstr take length] in *.
    + rewrite Hl. cbn. rewrite ldb_stb_ne by lia. apply ldb_stb_eq.
    + destruct Hl as (Hc & Ht & Hl). rewrite Ht, (proj2 (Z.eqb_neq c 0)) by done. split; [done|].
      pose proof (ldb_range m t). split.
      * rewrite safestrcpy_loop_out by lia. rewrite ldb_stb_eq. apply Z.mod_small. lia.
      * apply IH; [|lia]. eapply cstr_frame; [|done]. intros. apply ldb_stb_ne. lia.
Qed.

Lemma strncpy_loop_out m s t n b : b < s \/ s + Z.of_nat n <= b ->
  ldb (strncpy_loop m s t n) b = ldb m b.
Proof.
  revert m s t. induction n as [|n IH]; intros m s t Hb; cbn [strncpy_loop]; [done|].
  case_if; [rewrite ldb_zero_fill, decide_False by lia|rewrite IH by lia]; apply ldb_stb_ne; lia.
Qed.

Lemma strncpy_loop_in m s t n l : cstr m t l ->
  s + Z.of_nat n <= t \/ t + Z.of_nat (length l) < s ->
  forall i, (i < n)%nat -> ldb (strncpy_loop m s t n) (s + Z.of_nat i) = default 0 (l !! i).
Proof.
  revert m s t l. induction n as [|n IH]; intros m s t l Hl Hd i Hi; cbn [strncpy_loop]; [lia|].
  destruct l as [|c l]; cbn [cstr length] in *.
  - rewrite Hl. cbn. rewrite ldb_zero_fill, ldb_stb.
    repeat case_decide; try done; lia.
  - destruct Hl as (Hc & Ht & Hl). rewrite Ht, (proj2 (Z.eqb_neq c 0)) by done.
    pose proof (ldb_range m t). destruct i as [|i].
    + change (default 0 ((c :: l) !! 0%nat)) with c. rewrite Z.add_0_r, strncpy_loop_out by lia. rewrite ldb_stb_eq. apply Z.mod_small. lia.
    + change ((c :: l) !! S i) with (l !! i).
      replace (s + Z.of_nat (S i)) with (s + 1 + Z.of_nat i) by lia.
      apply IH; [|lia..]. eapply cstr_frame; [|done]. intros. apply ldb_stb_ne. lia.
Qed.

(** ** Properties *)

(** [safestrcpy] copies at most [n - 1] bytes of the string, always
    terminates the result, and writes only the [n] bytes of the buffer. *)
Theorem safestrcpy_correct m s t n l : 0 < n -> cstr m t l ->
  s + n <= t \/ t + Z.of_nat (length l) < s ->
  cstr (safestrcpy m s t n) s (take (Z.to_nat (n - 1)) l) /\
  forall b, b < s \/ s + n <= b -> ldb (safestrcpy m s t n) b = ldb m b.
Proof.
  intros Hn Hl Hd. unfold safestrcpy. rewrite (proj2 (Z.leb_gt _ _)) by lia. split.
  - apply safestrcpy_loop_cstr; [done|lia].
  - intros b Hb. apply safestrcpy_loop_out. lia.
Qed.

Definition hello : mem := st ∅ 16 0x6c6c6568.

Lemma safestrcpy_correct_witness :
  cstr (safestrcpy hello 100 16 4) 100 [104; 101; 108].
Proof.
  assert (cstr hello 16 [104; 101; 108; 108]) as H by (repeat split; done).
  exact (proj1 (safestrcpy_correct hello 100 16 4 _ ltac:(lia) H ltac:(cbn; lia))).
Defined.
