(* ===== verification/Mp.v ===== *)
(** * The processors of the machine

    [mp.c]: the search for the tables in which the firmware describes the
    machine, and [mpinit], which records the processors and the I/O APIC;
    [mycpu] and [cpuid] of [proc.c], which look the running processor up.
    Pointers are kernel addresses. *)

From Stdlib Require Import ZArith Lia.
From stdpp Require Import base strings numbers gmap list.
From S2P Require Import Prelude Mmu Memory.

(** ** State *)

(** [mc_cpus] holds the field [apicid] of [cpus]; the last two fields are
    the interrupt mode configuration register (IMCR) and its selector. *)
Record machine := mk_machine {
  mc_mem : mem; mc_cpus : list Z; mc_ncpu : Z; mc_ioapicid : Z; mc_lapic : Z;
  mc_sel : Z; mc_imcr : Z }.
Abbreviation MP := (M machine).

Definition record_cpu (id : Z) (s : machine) : machine :=
  mk_machine (mc_mem s) (<[Z.to_nat (mc_ncpu s) := id]> (mc_cpus s)) (mc_ncpu s + 1) (mc_ioapicid s) (mc_lapic s) (mc_sel s) (mc_imcr s).
Definition set_ioapicid (id : Z) (s : machine) : machine :=
  mk_machine (mc_mem s) (mc_cpus s) (mc_ncpu s) id (mc_lapic s) (mc_sel s) (mc_imcr s).
Definition set_lapic (a : Z) (s : machine) : machine :=
  mk_machine (mc_mem s) (mc_cpus s) (mc_ncpu s) (mc_ioapicid s) a (mc_sel s) (mc_imcr s).

(** Ports 0x22 and 0x23. *)
Definition imcr_outb (port v : Z) : MP unit := modify (fun s =>
  let sel := if port =? 0x22 then v else mc_sel s in
  let imcr := if (port =? 0x23) && (mc_sel s =? 0x70) then v else mc_imcr s in
  mk_machine (mc_mem s) (mc_cpus s) (mc_ncpu s) (mc_ioapicid s) (mc_lapic s) sel imcr).
Definition imcr_inb : MP Z := gets mc_imcr.

(** ** Operations *)

(** The bytes are added in an [int] and returned as an [uchar]. *)
Fixpoint sum_loop (m : mem) (addr : Z) (len : nat) : Z :=
  match len with O => 0 | S n => ldb m addr + sum_loop m (addr + 1) n end.
Definition sum (m : mem) (addr len : Z) : Z := s32 (sum_loop m addr (Z.to_nat len)) mod 256.

(** [memcmp] with a literal. *)
Fixpoint has_sig (m : mem) (p : Z) (sig : list Z) : bool :=
  match sig with [] => true | c :: sig => (ldb m p =? c) && has_sig m (p + 1) sig end.
Definition SIG_MP : list Z := [95; 77; 80; 95]. (* _MP_ *)
Definition SIG_PCMP : list Z := [80; 67; 77; 80]. (* PCMP *)
Definition SIZEOF_MP : Z := 16.
Definition SIZEOF_MPCONF : Z := 44.
Definition SIZEOF_MPPROC : Z := 20.
Definition SIZEOF_MPIOAPIC : Z := 8.

(** Look for an MP structure in the [len] bytes at [addr]. *)
Fixpoint mpsearch_from (n : nat) (m : mem) (p e : Z) : option Z :=
  match n with
  | O => None
  | S n =>
      if p <? e then
        if has_sig m p SIG_MP && (sum m p SIZEOF_MP =? 0) then Some p
        else mpsearch_from n m (p + SIZEOF_MP) e
      else None
  end.
Definition mpsearch1 (m : mem) (a len : Z) : option Z :=
  let addr := P2V a in mpsearch_from (Z.to_nat (len / SIZEOF_MP + 1)) m addr (addr + len).

Definition mpsearch (m : mem) : option Z :=
  let bda := P2V 0x400 in
  let p := Z.shiftl (Z.lor (Z.shiftl (ldb m (bda + 0x0F)) 8) (ldb m (bda + 0x0E))) 4 in
  let rom := mpsearch1 m 0xF0000 0x10000 in
  if negb (p =? 0) then
    match mpsearch1 m p 1024 with Some mp => Some mp | None => rom end
  else
    let p := Z.lor (Z.shiftl (ldb m (bda + 0x14)) 8) (ldb m (bda + 0x13)) * 1024 in
    match mpsearch1 m (p - 1024) 1024 with Some mp => Some mp | None => rom end.

(** The fields of the two structures. *)
Definition mp_physaddr (m : mem) (mp : Z) : Z := ld m (mp + 4).
Definition mp_imcrp (m : mem) (mp : Z) : Z := ldb m (mp + 12).
Definition conf_length (m : mem) (conf : Z) : Z := ld16 m (conf + 4).
Definition conf_version (m : mem) (conf : Z) : Z := ldb m (conf + 6).
Definition conf_lapicaddr (m : mem) (conf : Z) : Z := ld m (conf + 36).

(** The floating structure and the configuration table. *)
Definition mpconfig (m : mem) : option (Z * Z) :=
  match mpsearch m with
  | None => None
  | Some mp =>
      if mp_physaddr m mp =? 0 then None
      else
        let conf := P2V (mp_physaddr m mp) in
        if negb (has_sig m conf SIG_PCMP) then None
        else if negb (conf_version m conf =? 1) && negb (conf_version m conf =? 4) then None
        else if negb (sum m conf (conf_length m conf) =? 0) then None
        else Some (mp, conf)
  end.

Definition MPPROC : Z := 0.
Definition MPBUS : Z := 1.
Definition MPIOAPIC : Z := 2.
Definition MPIOINTR : Z := 3.
Definition MPLINTR : Z := 4.

(** One pass of the loop of [mpinit]: the [switch] on the entry at [p].
    The [break] of the default case only leaves the [switch]. *)
Definition mp_entry (p : Z) (ismp : bool) : MP (Z * bool) :=
  m ← gets mc_mem;
  let t := ldb m p in
  if t =? MPPROC then
    ncpu ← gets mc_ncpu;
    when (ncpu <? NCPU) (modify (record_cpu (ldb m (p + 1))));;
    mret (p + SIZEOF_MPPROC, ismp)
  else if t =? MPIOAPIC then
    modify (set_ioapicid (ldb m (p + 1)));;
    mret (p + SIZEOF_MPIOAPIC, ismp)
  else if (t =? MPBUS) || (t =? MPIOINTR) || (t =? MPLINTR) then mret (p + 8, ismp)
  else mret (p, false).

Definition mpinit (fuel : nat) : MP unit :=
  m ← gets mc_mem;
  match mpconfig m with
  | None => panic "Expect to run on an SMP"
  | Some (mp, conf) =>
      modify (set_lapic (conf_lapicaddr m conf));;
      ismp ← while_ fuel (fun '(p, ismp) =>
        if p <? conf + conf_length m conf
        then r ← mp_entry p ismp; mret (inl r)
        else mret (inr ismp)) (conf + SIZEOF_MPCONF, true);
      if negb ismp then panic "Didn't find a suitable machine"
      else when (negb (mp_imcrp m mp =? 0))
        (imcr_outb 0x22 0x70;; v ← imcr_inb; imcr_outb 0x23 (Z.lor v 1))
  end.

(** [mycpu], as an index of [cpus]: the interrupt flag and the result of
    [lapicid] are arguments. *)
Definition mycpu (fl_if : bool) (apicid : Z) : MP Z :=
  if fl_if then panic "mycpu called with interrupts enabled"
  else
    s ← gets (fun s => s);
    r ← for_ (seqZ 0 (mc_ncpu s)) (fun i (_ : unit) =>
          id ← the (mc_cpus s !! Z.to_nat i);
          mret (if id =? apicid then Return i else Next tt)) tt;
    match r with inl _ => panic "unknown apicid" | inr i => mret i end.
(** [mycpu() - cpus] *)
Definition cpuid (fl_if : bool) (apicid : Z) : MP Z := mycpu fl_if apicid.

(** ** The search *)

Definition mp_valid (m : mem) (p : Z) : Prop := has_sig m p SIG_MP = true /\ sum m p SIZEOF_MP = 0.

Lemma mpsearch_from_spec n m p e : e <= p + 16 * Z.of_nat n ->
  match mpsearch_from n m p e with
  | Some q => exists i, 0 <= i /\ q = p + 16 * i /\ q < e /\ mp_valid m q /\ forall j, 0 <= j < i -> ~ mp_valid m (p + 16 * j)
  | None => forall j, 0 <= j -> p + 16 * j < e -> ~ mp_valid m (p + 16 * j)
  end.
Proof.
  revert p. induction n as [|n IH]; intros p He; cbn [mpsearch_from]; [intros; lia|].
  destruct (Z.ltb_spec p e); [|intros; lia].
  destruct (has_sig m p SIG_MP && (sum m p SIZEOF_MP =? 0)) eqn:Hv.
  - bool_prop. exists 0. repeat split; try lia; done.
  - assert (~ mp_valid m p) as Hnv by (intros [Hs Hz]; rewrite Hs, Hz in Hv; done).
    specialize (IH (p + SIZEOF_MP) ltac:(unfold SIZEOF_MP; lia)). unfold SIZEOF_MP in IH.
    assert (forall j, p + 16 + 16 * j = p + 16 * (j + 1)) as E by (intros; lia).
    unfold SIZEOF_MP. destruct (mpsearch_from n m (p + 16) e) as [q|].
    + destruct IH as (i & Hi & -> & Hq & Hval & Hlt). exists (i + 1). rewrite E in *. split_and!; [lia|lia|lia|done|].
      intros j Hj. destruct (decide (j = 0)) as [->|]; [by rewrite Z.mul_0_r, Z.add_0_r|].
      replace (p + 16 * j) with (p + 16 + 16 * (j - 1)) by lia. apply Hlt. lia.
    + intros j Hj Hje. destruct (decide (j = 0)) as [->|]; [by rewrite Z.mul_0_r, Z.add_0_r|].
      replace (p + 16 * j) with (p + 16 + 16 * (j - 1)) by lia. apply IH; lia.
Qed.

(** ** The configuration table *)

(** An entry, with the bytes behind its type that the kernel does not use. *)
Inductive entry :=
  | Proc (apicid : Z) (rest : list Z)
  | Bus (rest : list Z)
  | Ioapic (apicno : Z) (rest : list Z)
  | Iointr (rest : list Z)
  | Lintr (rest : list Z).
Definition entry_bytes (e : entry) : list Z :=
  match e with
  | Proc id rest => MPPROC :: id :: rest
  | Bus rest => MPBUS :: rest
  | Ioapic no rest => MPIOAPIC :: no :: rest
  | Iointr rest => MPIOINTR :: rest
  | Lintr rest => MPLINTR :: rest
  end.
Definition entry_size (e : entry) : Z := match e with Proc _ _ => SIZEOF_MPPROC | _ => 8 end.
Definition entry_ok (e : entry) : Prop := Z.of_nat (length (entry_bytes e)) = entry_size e.
Definition table_bytes (es : list entry) : list Z := concat (entry_bytes <$> es).

(** What the table says. *)
Definition procs (es : list entry) : list Z := omap (fun e => match e with Proc id _ => Some id | _ => None end) es.
Definition ioapics (es : list entry) : list Z := omap (fun e => match e with Ioapic no _ => Some no | _ => None end) es.

Definition bytes_at (m : mem) (a : Z) (l : list Z) : Prop := forall i v, l !! i = Some v -> ldb m (a + Z.of_nat i) = v.

Lemma bytes_at_app m a l l' : bytes_at m a (l ++ l') <-> bytes_at m a l /\ bytes_at m (a + Z.of_nat (length l)) l'.
Proof.
  split.
  - intros H. split; intros i v Hi.
    + apply H. by apply lookup_app_l_Some.
    + rewrite <-Z.add_assoc, <-Nat2Z.inj_add. apply H. rewrite lookup_app_r by lia. by rewrite Nat.add_comm, Nat.add_sub.
  - intros [H H'] i v [Hi|[Hle Hi]]%lookup_app_Some; [by apply H|]. apply H' in Hi. rewrite <-Hi. f_equal. lia.
Qed.
Lemma bytes_at_cons m a v l : bytes_at m a (v :: l) -> ldb m a = v /\ bytes_at m (a + 1) l.
Proof.
  intros H. split; [rewrite <-(H 0%nat v eq_refl); f_equal; lia|].
  intros i w Hi. rewrite <-(H (S i) w Hi). f_equal. lia.
Qed.

Definition with_cpus (cpus : list Z) (n io : Z) (s : machine) : machine :=
  mk_machine (mc_mem s) cpus n io (mc_lapic s) (mc_sel s) (mc_imcr s).

(** The state after the entries [es], from [s]. *)
Definition after (es : list entry) (s s' : machine) : Prop :=
  exists cpus, s' = with_cpus cpus (Z.of_nat (length (take 8 (procs es)))) (default (mc_ioapicid s) (last (ioapics es))) s /\
    length cpus = 8%nat /\ take (length (take 8 (procs es))) cpus = take 8 (procs es).

(** An entry of the table is recorded, and the pointer moves behind it. *)
Lemma wp_mp_entry pre e p ismp s s' : after pre s s' -> bytes_at (mc_mem s) p (entry_bytes e) -> entry_ok e ->
  wp (mp_entry p ismp) (fun r s'' => r = (p + Z.of_nat (length (entry_bytes e)), ismp) /\ after (pre ++ [e]) s s'') s'.
Proof.
  intros (cpus & -> & Hlen & Htake) Hb ->. unfold mp_entry. wp_step. wp_step. cbn [with_cpus mc_mem].
  assert (forall s'', s'' = with_cpus cpus (Z.of_nat (length (take 8 (procs pre)))) (default (mc_ioapicid s) (last (ioapics (pre ++ [e])))) s ->
    procs (pre ++ [e]) = procs pre -> after (pre ++ [e]) s s'') as Hsame.
  { intros s'' -> Hp. exists cpus. by rewrite Hp. }
  destruct e as [id rest|rest|no rest|rest|rest]; cbn [entry_bytes] in Hb; apply bytes_at_cons in Hb as [-> Hb]; cbn -[Z.add].
  2, 4, 5: apply wp_ret; split; [done|]; apply Hsame; [|by unfold procs; rewrite omap_app, app_nil_r];
    by unfold ioapics; rewrite omap_app, app_nil_r.
  - apply bytes_at_cons in Hb as [-> _]. wp_step. wp_step. cbn [with_cpus mc_ncpu]. wp_step. unfold procs in *.
    assert (take 8 (procs (pre ++ [Proc id rest])) = take 8 (procs pre ++ [id])) as E by (unfold procs; by rewrite omap_app).
    assert (ioapics (pre ++ [Proc id rest]) = ioapics pre) as Eio by (unfold ioapics; by rewrite omap_app, app_nil_r).
    unfold after. rewrite E, Eio. clear Hsame. fold (procs pre) in *. set (ps := procs pre) in *.
    wp_step; bool_prop; [wp_step|]; wp_steps; (split; [done|]).
    + assert (length ps < 8)%nat by (rewrite length_take in *; unfold NCPU in *; lia).
      rewrite (take_ge ps 8) in Htake |- * by lia. rewrite (take_ge (ps ++ [id]) 8) by (rewrite length_app; cbn; lia).
      exists (<[length ps := id]> cpus).
      unfold record_cpu. cbn. rewrite Nat2Z.id. split; [|split].
      * unfold with_cpus. cbn. f_equal. rewrite length_app. cbn. lia.
      * by rewrite length_insert.
      * rewrite length_app. cbn. rewrite Nat.add_1_r.
        rewrite (take_S_r _ _ id) by (apply list_lookup_insert_eq; lia).
        by rewrite take_insert_ge, Htake by lia.
    + assert (8 <= length ps)%nat by (rewrite length_take in *; unfold NCPU in *; lia).
      exists cpus. by rewrite (take_app_le ps [id] 8) by lia.
  - apply bytes_at_cons in Hb as [-> _]. wp_steps. split; [done|]. apply Hsame.
    + unfold set_ioapicid, with_cpus. cbn. f_equal. unfold ioapics. rewrite omap_app. cbn. by rewrite last_snoc.
    + unfold procs. by rewrite omap_app, app_nil_r.
Qed.

(** The table at [conf] consists of the entries [es]. *)
Record described (m : mem) (conf : Z) (es : list entry) : Prop := {
  ds_ok : Forall entry_ok es;
  ds_length : conf_length m conf = SIZEOF_MPCONF + Z.of_nat (length (table_bytes es));
  ds_bytes : bytes_at m (conf + SIZEOF_MPCONF) (table_bytes es);
}.

Lemma entry_bytes_pos e : (0 < length (entry_bytes e))%nat.
Proof. destruct e; cbn; lia. Qed.

Lemma table_bytes_snoc pre e suf : table_bytes (pre ++ e :: suf) = table_bytes pre ++ entry_bytes e ++ table_bytes suf.
Proof. unfold table_bytes. by rewrite fmap_app, concat_app. Qed.

(** The loop scans the whole table. *)
Lemma wp_mpscan conf es s s0 fuel : described (mc_mem s) conf es -> after [] s s0 -> (length es < fuel)%nat ->
  wp (while_ fuel (fun '(p, ismp) =>
        if p <? conf + conf_length (mc_mem s) conf
        then r ← mp_entry p ismp; mret (inl r)
        else mret (inr ismp)) (conf + SIZEOF_MPCONF, true))
    (fun b s' => b = true /\ after es s s') s0.
Proof.
  intros [Hok Hlen Hb] H0 Hf. rewrite Hlen. set (base := conf + SIZEOF_MPCONF) in *.
  assert (forall suf f pre s', es = pre ++ suf -> after pre s s' -> (length suf < f)%nat ->
    wp (while_ f (fun '(p, ismp) =>
        if p <? conf + (SIZEOF_MPCONF + Z.of_nat (length (table_bytes es)))
        then r ← mp_entry p ismp; mret (inl r)
        else mret (inr ismp)) (base + Z.of_nat (length (table_bytes pre)), true))
      (fun b s' => b = true /\ after es s s') s') as Hgen.
  { clear H0 Hf. induction suf as [|e suf IH]; intros [|f] pre s' Hes Ha Hf; cbn [length] in Hf; try lia; apply wp_while_S.
    - rewrite app_nil_r in Hes. subst pre. rewrite (proj2 (Z.ltb_ge _ _)) by lia. wp_step. done.
    - rewrite Hes, table_bytes_snoc in Hb. apply bytes_at_app in Hb as [_ [Hb _]%bytes_at_app].
      pose proof (entry_bytes_pos e).
      rewrite (proj2 (Z.ltb_lt _ _)) by (rewrite Hes, table_bytes_snoc, !length_app; lia).
      wp_step. eapply wp_mono; [apply (wp_mp_entry pre e); [done|done|]|].
      { rewrite Hes in Hok. by apply Forall_app in Hok as [_ [? ?]%Forall_cons]. }
      intros r s'' [-> Ha']. wp_step. eapply wp_mono; [|by intros b s3 Hb3; exact Hb3].
      replace (base + Z.of_nat (length (table_bytes pre)) + Z.of_nat (length (entry_bytes e)))
        with (base + Z.of_nat (length (table_bytes (pre ++ [e])))).
      2: { rewrite table_bytes_snoc, !length_app. cbn. lia. }
      apply (IH f (pre ++ [e])); [by rewrite <-app_assoc|done|lia]. }
  replace base with (base + Z.of_nat (length (table_bytes []))) by (cbn; lia). by apply (Hgen es).
Qed.

(** [mycpu] returns the first entry with the identifier. *)
Lemma mycpu_first s l i id : mc_ncpu s = Z.of_nat (length l) -> take (length l) (mc_cpus s) = l ->
  l !! i = Some id -> (forall j, (j < i)%nat -> l !! j <> Some id) -> mycpu false id s = Ok (Z.of_nat i, s).
Proof.
  intros Hn Hl Hi Hfirst.
  assert (forall j x, l !! j = Some x -> mc_cpus s !! j = Some x) as Hcpu.
  { intros j x Hj. rewrite <-Hl in Hj. by apply lookup_take_Some in Hj as [??]. }
  enough (wp (mycpu false id) (fun r s' => r = Z.of_nat i /\ s' = s) s) as (r & s' & -> & -> & ->)%wp_run by done.
  unfold mycpu. wp_step. wp_step. wp_step. pose proof (lookup_lt_Some _ _ _ Hi). rewrite Hn.
  eapply (wp_for_seqZ _ _ (fun t _ s' => s' = s /\ (t <= i)%nat)); [lia| | |split; [done|lia]].
  - intros t [] s' Ht [-> Hti]. destruct (lookup_lt_is_Some_2 l t) as [x Hx]; [lia|]. wp_step.
    eapply wp_the; [rewrite Nat2Z.id; by apply Hcpu|]. wp_step. destruct (Z.eqb_spec x id) as [->|Hne].
    + wp_step. split; [|done]. f_equal. destruct (decide (t < i)%nat); [by destruct (Hfirst t)|lia].
    + split; [done|]. destruct (decide (t = i)) as [->|]; [congruence|lia].
  - intros [] s' [_ Hle]. lia.
Qed.

(** ** What the search finds *)

(** The tables as the specification of the machine describes them: the bytes
    of each structure add up to 0 modulo 256. *)
Definition checks (m : mem) (a n : Z) : Prop := foldr Z.add 0 ((fun i => ldb m (a + i)) <$> seqZ 0 n) mod 256 = 0.

(** The floating structure at [p]. *)
Definition mp_struct (m : mem) (p : Z) : Prop := bytes_at m p SIG_MP /\ checks m p 16.
(** The area that the BIOS names: the first kilobyte of its extended data
    area, or, without one, the last kilobyte of the base memory. *)
Definition mp_area (m : mem) : Z :=
  let ebda := 16 * ld16 m (P2V 0x40E) in
  if decide (ebda = 0) then 1024 * ld16 m (P2V 0x413) - 1024 else ebda.
(** [q] is the first structure on a 16-byte boundary of an area. *)
Definition first_in (m : mem) (a len q : Z) : Prop :=
  exists i, 0 <= i /\ 16 * i < len /\ q = P2V a + 16 * i /\ mp_struct m q /\ forall j, 0 <= j < i -> ~ mp_struct m (P2V a + 16 * j).
Definition none_in (m : mem) (a len : Z) : Prop := forall i, 0 <= i -> 16 * i < len -> ~ mp_struct m (P2V a + 16 * i).
(** The floating structure of the machine: in that area, or in the ROM. *)
Definition mp_found (m : mem) (mp : Z) : Prop :=
  first_in m (mp_area m) 1024 mp \/ none_in m (mp_area m) 1024 /\ first_in m 0xF0000 0x10000 mp.
(** The configuration table that it refers to. *)
Definition conf_valid (m : mem) (mp conf : Z) : Prop :=
  mp_physaddr m mp <> 0 /\ conf = P2V (mp_physaddr m mp) /\ bytes_at m conf SIG_PCMP /\
  (conf_version m conf = 1 \/ conf_version m conf = 4) /\ checks m conf (conf_length m conf).

Lemma has_sig_bytes_at m a l : has_sig m a l = true <-> bytes_at m a l.
Proof.
  revert a. induction l as [|v l IH]; intros a; cbn [has_sig]; [by split|]. rewrite andb_true_iff, Z.eqb_eq, IH. split.
  - intros [Hv Hl] [|i] w Hi; cbn in Hi; [injection Hi as <-; rewrite <-Hv; f_equal; lia|]. rewrite <-(Hl i w Hi). f_equal. lia.
  - by intros [Hv Hl]%bytes_at_cons.
Qed.

Lemma s32_mod_256 x : s32 x mod 256 = x mod 256.
Proof. unfold s32, u32, two32. cbv zeta. destruct (_ <? _); zdiv. Qed.

Lemma sum_checks m a n : sum m a n = 0 <-> checks m a n.
Proof.
  unfold sum, checks. rewrite s32_mod_256.
  replace (sum_loop m a (Z.to_nat n)) with (foldr Z.add 0 ((fun i => ldb m (a + i)) <$> seqZ 0 n)); [done|].
  unfold seqZ. rewrite <-list_fmap_compose. generalize (Z.to_nat n) as k. clear n. intros k. revert a.
  induction k as [|k IH]; intros a; [done|]. cbn [seq fmap list_fmap foldr sum_loop]. rewrite <-IH, <-fmap_S_seq, <-list_fmap_compose.
  f_equal; [cbn; f_equal; lia|]. f_equal. apply list_fmap_ext. intros i x _. cbn. f_equal. lia.
Qed.

Lemma mp_valid_struct m p : mp_valid m p <-> mp_struct m p.
Proof. unfold mp_valid, mp_struct. by rewrite has_sig_bytes_at, sum_checks. Qed.

Lemma mpsearch1_spec m a len : match mpsearch1 m a len with Some q => first_in m a len q | None => none_in m a len end.
Proof.
  unfold mpsearch1, first_in, none_in. pose proof (mpsearch_from_spec (Z.to_nat (len / SIZEOF_MP + 1)) m (P2V a) (P2V a + len)) as H.
  specialize (H ltac:(unfold SIZEOF_MP; zdiv)). destruct (mpsearch_from _ _ _ _) as [q|].
  - destruct H as (i & Hi & -> & Hq & Hv & Hlt). exists i. split_and!; [done|lia|done|by apply mp_valid_struct|].
    intros j Hj. rewrite <-mp_valid_struct. by apply Hlt.
  - intros i Hi Hl. rewrite <-mp_valid_struct. apply H; [done|lia].
Qed.

Lemma first_in_unique m a len q q' : first_in m a len q -> first_in m a len q' -> q = q'.
Proof.
  intros (i & Hi & _ & -> & Hv & Hlt) (j & Hj & _ & -> & Hv' & Hlt').
  destruct (decide (i < j)); [by destruct (Hlt' i)|]. destruct (decide (j < i)); [by destruct (Hlt j)|]. f_equal. lia.
Qed.
Lemma first_in_none m a len q : first_in m a len q -> ~ none_in m a len.
Proof. intros (i & Hi & Hl & -> & Hv & _) Hn. by apply (Hn i). Qed.

Lemma word_of_bytes h l : 0 <= l < 256 -> Z.lor (Z.shiftl h 8) l = l + 256 * h.
Proof.
  intros Hl. assert (Z.land l (Z.shiftl h 8) = 0) as H0.
  { apply Z.bits_inj'. intros k Hk. rewrite Z.land_spec, Z.bits_0, Z.shiftl_spec by done. destruct (decide (k < 8)).
    - rewrite (Z.testbit_neg_r h) by lia. apply andb_false_r.
    - rewrite <-(Z.mod_small l (2 ^ 8)), Z.mod_pow2_bits_high by lia. done. }
  rewrite Z.lor_comm, <-Z.lxor_lor, <-Z.add_nocarry_lxor, Z.shiftl_mul_pow2 by (done || lia). lia.
Qed.

Lemma mpsearch_spec m mp : mpsearch m = Some mp <-> mp_found m mp.
Proof.
  assert (mpsearch m = match mpsearch1 m (mp_area m) 1024 with Some q => Some q | None => mpsearch1 m 0xF0000 0x10000 end) as ->.
  { unfold mpsearch, mp_area, ld16. rewrite !word_of_bytes by apply ldb_range.
    change (P2V 0x400 + 0x0F) with (P2V 0x40E + 1). change (P2V 0x400 + 0x0E) with (P2V 0x40E).
    change (P2V 0x400 + 0x14) with (P2V 0x413 + 1). change (P2V 0x400 + 0x13) with (P2V 0x413).
    rewrite Z.shiftl_mul_pow2 by lia. change (2 ^ 4) with 16. rewrite (Z.mul_comm _ 16), (Z.mul_comm _ 1024). set (w := 16 * _). case_decide as Hw.
    - rewrite (proj2 (Z.eqb_eq _ _) Hw). done.
    - rewrite (proj2 (Z.eqb_neq _ _) Hw). done. }
  unfold mp_found. pose proof (mpsearch1_spec m (mp_area m) 1024) as H1. pose proof (mpsearch1_spec m 0xF0000 0x10000) as H2.
  destruct (mpsearch1 m (mp_area m) 1024) as [q|].
  - split; [intros [= <-]; by left|]. intros [H|[H _]]; [f_equal; by eapply first_in_unique|by apply first_in_none in H1].
  - destruct (mpsearch1 m 0xF0000 0x10000) as [q|].
    + split; [intros [= <-]; by right|]. intros [H|[_ H]]; [by apply first_in_none in H|f_equal; by eapply first_in_unique].
    + split; [done|]. intros [H|[_ H]]; by apply first_in_none in H.
Qed.

Lemma mpconfig_spec m mp conf : mpconfig m = Some (mp, conf) <-> mp_found m mp /\ conf_valid m mp conf.
Proof.
  rewrite <-mpsearch_spec. unfold mpconfig, conf_valid. destruct (mpsearch m) as [mp'|]; [|by split; [|intros [? _]]].
  destruct (Z.eqb_spec (mp_physaddr m mp') 0) as [H0|H0]; [split; [done|]; by intros [[= <-] [? _]]|]. cbv zeta.
  destruct (has_sig m (P2V (mp_physaddr m mp')) SIG_PCMP) eqn:Hs; cbn [negb].
  2: { split; [done|]. intros [[= <-] (_ & -> & Hb & _)]. apply has_sig_bytes_at in Hb. congruence. }
  apply has_sig_bytes_at in Hs. destruct (negb _ && negb _) eqn:Hv.
  { split; [done|]. intros [[= <-] (_ & -> & _ & [E|E] & _)]; by rewrite E in Hv. }
  destruct (Z.eqb_spec (sum m (P2V (mp_physaddr m mp')) (conf_length m (P2V (mp_physaddr m mp')))) 0) as [Hz|Hz]; cbn [negb].
  - apply sum_checks in Hz. split; [|by intros [[= <-] (_ & -> & _)]]. intros [= <- <-]. split_and!; try done.
    apply andb_false_iff in Hv as [E|E]; apply negb_false_iff, Z.eqb_eq in E; auto.
  - split; [done|]. intros [[= <-] (_ & -> & _ & _ & Hc)]. by apply sum_checks in Hc.
Qed.

(** The scan of a table that [mpconfig] accepts. *)
Lemma wp_mpinit es mp conf s fuel :
  mpconfig (mc_mem s) = Some (mp, conf) -> described (mc_mem s) conf es ->
  mc_ncpu s = 0 -> length (mc_cpus s) = 8%nat -> (length es < fuel)%nat ->
  wp (mpinit fuel) (fun _ s' =>
    mc_ncpu s' = Z.min NCPU (Z.of_nat (length (procs es))) /\
    take (Z.to_nat (mc_ncpu s')) (mc_cpus s') = take (Z.to_nat NCPU) (procs es) /\
    mc_ioapicid s' = default (mc_ioapicid s) (last (ioapics es)) /\
    mc_lapic s' = conf_lapicaddr (mc_mem s) conf /\
    mc_imcr s' = (if mp_imcrp (mc_mem s) mp =? 0 then mc_imcr s else Z.lor (mc_imcr s) 1) /\
    forall i id, Z.of_nat i < NCPU -> procs es !! i = Some id -> (forall j, (j < i)%nat -> procs es !! j <> Some id) ->
      mycpu false id s' = Ok (Z.of_nat i, s')) s.
Proof.
  intros Hconf Hd Hn Hc Hf. unfold mpinit. wp_step. wp_step. rewrite Hconf. wp_step. wp_step. wp_step.
  eapply wp_mono; [apply (wp_mpscan conf es (set_lapic (conf_lapicaddr (mc_mem s) conf) s)); [done| |done]|].
  { exists (mc_cpus s). split; [|split; [done|done]]. unfold with_cpus, set_lapic. cbn. by rewrite Hn. }
  intros b s' [-> (cpus & -> & Hlen & Htake)]. cbn [negb].
  assert (Z.of_nat (length (take 8 (procs es))) = Z.min NCPU (Z.of_nat (length (procs es)))) as En by (rewrite length_take; unfold NCPU; lia).
  assert (forall s', mc_cpus s' = cpus -> mc_ncpu s' = Z.of_nat (length (take 8 (procs es))) ->
    forall i id, Z.of_nat i < NCPU -> procs es !! i = Some id -> (forall j, (j < i)%nat -> procs es !! j <> Some id) ->
      mycpu false id s' = Ok (Z.of_nat i, s')) as Hmy.
  { intros s' <- Hns i id Hi Hid Hfirst. unfold NCPU in Hi. eapply mycpu_first; [exact Hns|exact Htake|rewrite lookup_take_lt by lia; done|].
    intros j Hj. rewrite lookup_take_lt by lia. by apply Hfirst. }
  assert (take (Z.to_nat (Z.of_nat (length (take 8 (procs es))))) cpus = take (Z.to_nat NCPU) (procs es)) as Et by (by rewrite Nat2Z.id).
  wp_step; [unfold imcr_outb, imcr_inb; wp_steps|]; bool_prop; cbn -[take mycpu Z.to_nat];
    (split_and!; [exact En|exact Et|done|done| |by apply Hmy]); case_if; done.
Qed.

(** C33: [mpinit] finds and records the machine's description.  The floating
    structure is the first one, on a 16-byte boundary, with the right
    signature and checksum in the area that the BIOS names, or else in the
    ROM; the table it points to must have its signature, version 1 or 4 and
    the right checksum.  On every such table of well-formed entries [mpinit]
    terminates and records the first [NCPU] processors in the order of the
    table with their APIC identifiers, the last I/O APIC and the address of
    the local APIC; external interrupts are masked exactly when the machine
    has the register for it.  Then [mycpu] on each recorded processor returns
    its own entry, also when the identifiers are not contiguous.  On a machine
    without such a structure or table [mpinit] panics. *)
Theorem mpinit_records_processors s fuel : mc_ncpu s = 0 -> length (mc_cpus s) = 8%nat ->
  (forall es mp conf, mp_found (mc_mem s) mp -> conf_valid (mc_mem s) mp conf -> described (mc_mem s) conf es -> (length es < fuel)%nat ->
   wp (mpinit fuel) (fun _ s' =>
    mc_ncpu s' = Z.min NCPU (Z.of_nat (length (procs es))) /\
    take (Z.to_nat (mc_ncpu s')) (mc_cpus s') = take (Z.to_nat NCPU) (procs es) /\
    mc_ioapicid s' = default (mc_ioapicid s) (last (ioapics es)) /\
    mc_lapic s' = conf_lapicaddr (mc_mem s) conf /\
    mc_imcr s' = (if mp_imcrp (mc_mem s) mp =? 0 then mc_imcr s else Z.lor (mc_imcr s) 1) /\
    forall i id, Z.of_nat i < NCPU -> procs es !! i = Some id -> (forall j, (j < i)%nat -> procs es !! j <> Some id) ->
      mycpu false id s' = Ok (Z.of_nat i, s')) s) /\
  ((forall mp conf, mp_found (mc_mem s) mp -> ~ conf_valid (mc_mem s) mp conf) ->
   mpinit fuel s = Err (Panic "Expect to run on an SMP")).
Proof.
  intros Hn Hc. split.
  - intros es mp conf Hmp Hconf Hd Hf. apply wp_mpinit; try done. by apply mpconfig_spec.
  - intros Hno. unfold mpinit, mbind, M_bind, gets. destruct (mpconfig (mc_mem s)) as [[mp conf]|] eqn:E; [|done].
    apply mpconfig_spec in E as [Hmp Hconf]. by apply Hno in Hconf.
Qed.

(** ** An entry of another type *)

(** A loop whose body always goes on never ends. *)
Lemma while_hangs {S A B} (body : A -> M S (A + B)) (I : A -> S -> Prop) :
  (forall a s, I a s -> exists a' s', body a s = Ok (inl a', s') /\ I a' s') ->
  forall fuel a s, I a s -> while_ fuel body a s = Err Hang.
Proof.
  intros Hbody. induction fuel as [|fuel IH]; intros a s HI; [done|].
  cbn [while_]. unfold mbind, M_bind. destruct (Hbody a s HI) as (a' & s' & -> & HI'). by apply IH.
Qed.

(** C39: an entry of a type that the kernel does not know, anywhere behind
    entries that it knows, makes [mpinit] loop forever: the [break] leaves
    only the [switch], the pointer does not move, and the panic behind the
    loop is never reached, whatever the number of iterations. *)
Theorem mpinit_unknown_entry_hangs es t mp conf s fuel :
  mpconfig (mc_mem s) = Some (mp, conf) -> Forall entry_ok es -> 4 < t ->
  bytes_at (mc_mem s) (conf + SIZEOF_MPCONF) (table_bytes es ++ [t]) ->
  SIZEOF_MPCONF + Z.of_nat (length (table_bytes es)) < conf_length (mc_mem s) conf ->
  mc_ncpu s = 0 -> length (mc_cpus s) = 8%nat -> mpinit fuel s = Err Hang.
Proof.
  intros Hconf Hok Ht [Hb Hbt]%bytes_at_app Hlen Hn Hc. unfold mpinit. cbn [mbind M_bind gets modify]. unfold mbind, M_bind, gets. rewrite Hconf.
  cbn [modify]. set (s1 := set_lapic _ s). cbn beta iota.
  rewrite (while_hangs _ (fun '(p, _) s' => exists pre suf, es = pre ++ suf /\
    p = conf + SIZEOF_MPCONF + Z.of_nat (length (table_bytes pre)) /\ after pre s1 s')); [done| |].
  2: { exists [], es. split_and!; [done|cbn; lia|]. exists (mc_cpus s). split; [|done]. unfold with_cpus, s1, set_lapic. cbn. by rewrite Hn. }
  intros [p b] s' (pre & suf & Hes & -> & Ha).
  rewrite (proj2 (Z.ltb_lt _ _)) by (rewrite Hes in Hlen; unfold table_bytes in *; rewrite fmap_app, concat_app, length_app in Hlen; lia).
  destruct suf as [|e suf].
  - rewrite app_nil_r in Hes. subst pre. destruct Ha as (cpus & -> & Hrest). apply bytes_at_cons in Hbt as [Hbt _].
    eexists (_, false), _. split; [|exists es, []; rewrite app_nil_r; split_and!; [done..|by exists cpus]].
    unfold mp_entry, mbind, M_bind, gets. cbn [with_cpus mc_mem s1 set_lapic]. rewrite Hbt.
    unfold MPPROC, MPIOAPIC, MPBUS, MPIOINTR, MPLINTR. by rewrite !(proj2 (Z.eqb_neq _ _)) by lia.
  - rewrite Hes, table_bytes_snoc in Hb. apply bytes_at_app in Hb as [_ [Hb _]%bytes_at_app].
    rewrite Hes in Hok. apply Forall_app in Hok as [_ [Hok _]%Forall_cons].
    pose proof (wp_mp_entry pre e _ b s1 s' Ha Hb Hok) as (r & s'' & E & -> & Ha')%wp_run.
    eexists (_, _), s''. unfold mbind, M_bind. rewrite E. split; [done|]. exists (pre ++ [e]), suf.
    rewrite <-app_assoc. split_and!; [done| |done]. rewrite table_bytes_snoc, !length_app. cbn. lia.
Qed.

(** ** Instances *)

Fixpoint put_bytes (m : mem) (a : Z) (l : list Z) : mem :=
  match l with [] => m | v :: l => put_bytes (stb m a v) (a + 1) l end.

(** A machine with two processors, 0 and 4, a bus and an I/O APIC, and one
    with an entry of type 5 behind the processor. *)
Definition mp0 : list Z := [95; 77; 80; 95; 0; 252; 9; 0; 1; 4; 27; 0; 128; 0; 0; 0].
Definition table0 : list entry := [Proc 0 (replicate 18 0); Proc 4 (replicate 18 0); Bus (replicate 7 0); Ioapic 2 (replicate 6 0)].
Definition conf0 : list Z := [80; 67; 77; 80; 100; 0; 4; 125] ++ replicate 26 0 ++ [4; 0; 0; 0; 224; 254; 0; 0; 0; 0].
Definition table1 : list entry := [Proc 0 (replicate 18 0)].
Definition conf1 : list Z := [80; 67; 77; 80; 72; 0; 4; 159] ++ replicate 26 0 ++ [2; 0; 0; 0; 224; 254; 0; 0; 0; 0].
Definition rom (tab : list Z) : machine :=
  mk_machine (put_bytes (put_bytes ∅ (P2V 0xF0000) mp0) (P2V 0x9FC00) tab) (replicate 8 0) 0 0 0 0 0.
Definition machine0 : machine := rom (conf0 ++ table_bytes table0).
Definition machine1 : machine := rom (conf1 ++ table_bytes table1 ++ 5 :: replicate 7 0).

(** The same machine with a byte of the table changed: its checksum is
    wrong. *)
Definition machine2 : machine := rom (<[50%nat := 1]> (conf0 ++ table_bytes table0)).

Lemma mpinit_records_processors_witness :
  wp (mpinit 5) (fun _ s' => mc_ncpu s' = 2 /\ mc_ioapicid s' = 2 /\ mc_imcr s' = 1 /\ mycpu false 4 s' = Ok (1, s')) machine0 /\
  mpinit 5 machine2 = Err (Panic "Expect to run on an SMP").
Proof.
  destruct (mpinit_records_processors machine0 5 eq_refl eq_refl) as [H _].
  destruct (mpinit_records_processors machine2 5 eq_refl eq_refl) as [_ Hno]. split.
  - destruct (proj1 (mpconfig_spec (mc_mem machine0) (P2V 0xF0000) (P2V 0x9FC00))) as [Hmp Hconf]; [vm_compute; reflexivity|].
    eapply wp_mono.
    + apply (H table0 (P2V 0xF0000) (P2V 0x9FC00) Hmp Hconf); [|cbn; lia].
      split; [repeat constructor|vm_compute; reflexivity|apply has_sig_bytes_at; vm_compute; reflexivity].
    + intros _ s' (Hn & _ & Hio & _ & Himcr & Hmy). split_and!; [exact Hn|exact Hio|rewrite Himcr; vm_compute; reflexivity|].
      apply (Hmy 1%nat 4); [reflexivity|reflexivity|]. intros [|j] Hj; [discriminate|lia].
  - apply Hno. intros mp conf Hmp Hconf. pose proof (proj2 (mpconfig_spec _ _ _) (conj Hmp Hconf)) as E.
    assert (mpconfig (mc_mem machine2) = None) as E2 by (vm_compute; reflexivity). rewrite E2 in E. discriminate E.
Defined.

Lemma mpinit_unknown_entry_hangs_witness : mpinit 1000 machine1 = Err Hang.
Proof.
  apply (mpinit_unknown_entry_hangs table1 5 (P2V 0xF0000) (P2V 0x9FC00) machine1 1000).
  - vm_compute. reflexivity.
  - repeat constructor.
  - lia.
  - apply has_sig_bytes_at. vm_compute. reflexivity.
  - vm_compute. reflexivity.
  - reflexivity.
  - reflexivity.
Defined.
