(* ===== verification/Spinlock.v ===== *)
(** * Spin locks on several CPUs

    [spinlock.c] as a machine in which the CPUs take atomic steps in any
    order: [pushcli] and [popcli] on the CPU's own counters, and one read or
    write of a lock's memory per step ([xchg] reads and writes at once).  A
    CPU between two calls may start [acquire] or [release] of any lock, and
    may turn interrupts on or off when it is outside every [pushcli].  The
    [pcs] that a lock records for debugging are left out.

    The theorem shows mutual exclusion, and that the two panics happen
    exactly on an [acquire] of a lock the CPU holds and a [release] of one it
    does not hold (a panic means such a call, and such a call goes to the
    panic): the contract that Kernel.v gives these functions. *)

From Stdlib Require Import ZArith Lia.
From stdpp Require Import base strings numbers sets list.
From S2P Require Import Prelude.

(** [struct spinlock]. *)
Record spinlock := mk_spinlock {
  locked : Z; (* Is the lock held? *)
  lk_cpu : option nat; (* The cpu holding the lock. *)
}.

(** Where a CPU is in [acquire] or [release] of a lock. *)
Inductive pc :=
  | Idle (* between two calls *)
  | AcqPush (l : nat) (* before pushcli() *)
  | AcqLocked (l : nat) (* in holding(): before reading locked *)
  | AcqCpu (l : nat) (* in holding(): before reading cpu *)
  | AcqSpin (l : nat) (* before xchg *)
  | AcqSet (l : nat) (* before lk->cpu = mycpu() *)
  | RelLocked (l : nat) (* in holding(): before reading locked *)
  | RelCpu (l : nat) (* in holding(): before reading cpu *)
  | RelClear (l : nat) (* before lk->cpu = 0 *)
  | RelStore (l : nat) (* before locked = 0 *)
  | RelPop (l : nat) (* before popcli() *)
  | PanicAcquire (l : nat)
  | PanicRelease (l : nat)
  | PanicPopcli.

#[global] Instance pc_eq_dec : EqDecision pc.
Proof. solve_decision. Defined.

(** The part of [struct cpu] used here, with the interrupt flag, the program
    counter, and, for the statements, the locks whose [acquire] returned. *)
Record cpu := mk_cpu {
  ncli : Z; (* Depth of pushcli nesting. *)
  intena : bool; (* Were interrupts enabled before pushcli? *)
  fl_if : bool; (* interrupts enabled *)
  c_pc : pc;
  c_has : list nat;
}.

Definition goto (p : pc) (c : cpu) : cpu := mk_cpu (ncli c) (intena c) (fl_if c) p (c_has c).
Definition set_has (h : list nat) (c : cpu) : cpu := mk_cpu (ncli c) (intena c) (fl_if c) (c_pc c) h.

(** ** Operations *)

Definition initlock : spinlock := mk_spinlock 0 None.

Definition pushcli (c : cpu) : cpu :=
  let eflags := fl_if c in
  mk_cpu (ncli c + 1) (if ncli c =? 0 then eflags else intena c) false (c_pc c) (c_has c).

(** [None] is the panic. *)
Definition popcli (c : cpu) : option cpu :=
  if fl_if c then None
  else if ncli c - 1 <? 0 then None
  else Some (mk_cpu (ncli c - 1) (intena c)
               (if (ncli c - 1 =? 0) && intena c then true else fl_if c) (c_pc c) (c_has c)).
Definition popcli_to (p : pc) (c : cpu) : cpu :=
  match popcli c with Some c' => goto p c' | None => goto PanicPopcli c end.

(** The next atomic step of the code that CPU [i] is in, on that CPU and the
    lock.  The reads of [holding] stand between its [pushcli] and [popcli]. *)
Definition cpu_step (i : nat) (c : cpu) (lk : spinlock) : option (cpu * spinlock) :=
  match c_pc c with
  | AcqPush l => Some (goto (AcqLocked l) (pushcli c), lk)
  | AcqLocked l =>
      let c := pushcli c in
      if locked lk =? 0 then Some (popcli_to (AcqSpin l) c, lk) else Some (goto (AcqCpu l) c, lk)
  | AcqCpu l =>
      Some (popcli_to (if bool_decide (lk_cpu lk = Some i) then PanicAcquire l else AcqSpin l) c, lk)
  | AcqSpin l =>
      Some (goto (if locked lk =? 0 then AcqSet l else AcqSpin l) c, mk_spinlock 1 (lk_cpu lk))
  | AcqSet l => Some (goto Idle (set_has (l :: c_has c) c), mk_spinlock (locked lk) (Some i))
  | RelLocked l =>
      let c := pushcli c in
      if locked lk =? 0 then Some (popcli_to (PanicRelease l) c, lk) else Some (goto (RelCpu l) c, lk)
  | RelCpu l =>
      Some (popcli_to (if bool_decide (lk_cpu lk = Some i) then RelClear l else PanicRelease l) c, lk)
  | RelClear l => Some (goto (RelStore l) c, mk_spinlock (locked lk) None)
  | RelStore l => Some (goto (RelPop l) (set_has (filter (.≠ l) (c_has c)) c), mk_spinlock 0 (lk_cpu lk))
  | RelPop l => Some (popcli_to Idle c, lk)
  | Idle | PanicAcquire _ | PanicRelease _ | PanicPopcli => None
  end.

(** The lock that a CPU works on. *)
Definition lock_of (p : pc) : nat :=
  match p with
  | AcqPush l | AcqLocked l | AcqCpu l | AcqSpin l | AcqSet l
  | RelLocked l | RelCpu l | RelClear l | RelStore l | RelPop l
  | PanicAcquire l | PanicRelease l => l
  | Idle | PanicPopcli => 0%nat
  end.

Record machine := mk_machine { m_cpu : list cpu; m_lock : list spinlock }.

Inductive step : machine -> machine -> Prop :=
  | step_acquire m i c l :
      m_cpu m !! i = Some c -> c_pc c = Idle -> (l < length (m_lock m))%nat ->
      step m (mk_machine (<[i := goto (AcqPush l) c]> (m_cpu m)) (m_lock m))
  | step_release m i c l :
      m_cpu m !! i = Some c -> c_pc c = Idle -> (l < length (m_lock m))%nat ->
      step m (mk_machine (<[i := goto (RelLocked l) c]> (m_cpu m)) (m_lock m))
  | step_sti m i c b :
      m_cpu m !! i = Some c -> c_pc c = Idle -> ncli c = 0 ->
      step m (mk_machine (<[i := mk_cpu 0 (intena c) b Idle (c_has c)]> (m_cpu m)) (m_lock m))
  | step_code m i c lk c' lk' :
      m_cpu m !! i = Some c -> m_lock m !! lock_of (c_pc c) = Some lk -> cpu_step i c lk = Some (c', lk') ->
      step m (mk_machine (<[i := c']> (m_cpu m)) (<[lock_of (c_pc c) := lk']> (m_lock m))).

Definition cpu0 : cpu := mk_cpu 0 false false Idle [].
Definition boot (ncpu nlocks : nat) : machine := mk_machine (replicate ncpu cpu0) (replicate nlocks initlock).
Inductive reachable (ncpu nlocks : nat) : machine -> Prop :=
  | reach_boot : reachable ncpu nlocks (boot ncpu nlocks)
  | reach_step m m' : reachable ncpu nlocks m -> step m m' -> reachable ncpu nlocks m'.

(** ** Invariant *)

(** The relation of a CPU to a lock: it does not own it, it got it by [xchg],
    it is recorded as its holder, or it is about to store 0. *)
Inductive status := Out | Got | In | Leaving.
Definition status_of (c : cpu) (l : nat) : status :=
  if bool_decide (l ∈ c_has c) then (if bool_decide (c_pc c = RelStore l) then Leaving else In)
  else if bool_decide (c_pc c = AcqSet l) then Got else Out.
#[global] Instance status_eq_dec : EqDecision status.
Proof. solve_decision. Defined.

(** A lock and its owner. *)
Definition lock_ok (cpus : list cpu) (l : nat) (lk : spinlock) : Prop :=
  (locked lk = 0 /\ lk_cpu lk = None /\ forall i c, cpus !! i = Some c -> status_of c l = Out) \/
  (exists i c, cpus !! i = Some c /\ status_of c l <> Out /\
     (forall j d, cpus !! j = Some d -> j <> i -> status_of d l = Out) /\
     locked lk <> 0 /\ lk_cpu lk = if decide (status_of c l = In) then Some i else None).

(** What the program counter says of the locks held. *)
Definition pc_ok (c : cpu) : Prop :=
  match c_pc c with
  | AcqSpin l | AcqSet l | RelPop l | PanicRelease l => l ∉ c_has c
  | RelClear l | RelStore l | PanicAcquire l => l ∈ c_has c
  | PanicPopcli => False
  | _ => True
  end.
(** How many [pushcli] are outstanding besides those of the locks held. *)
Definition extra (p : pc) : Z :=
  match p with
  | AcqLocked _ | AcqSpin _ | AcqSet _ | RelCpu _ | RelPop _ | PanicAcquire _ => 1
  | AcqCpu _ => 2
  | _ => 0
  end.

Record cpu_ok (c : cpu) : Prop := {
  ck_pc : pc_ok c;
  ck_nodup : NoDup (c_has c);
  ck_ncli : ncli c = Z.of_nat (length (c_has c)) + extra (c_pc c);
  ck_if : fl_if c = true -> ncli c = 0;
}.

Record inv (m : machine) : Prop := {
  inv_lock : forall l lk, m_lock m !! l = Some lk -> lock_ok (m_cpu m) l lk;
  inv_cpu : forall i c, m_cpu m !! i = Some c -> cpu_ok c;
}.

(** A CPU whose status is unchanged does not matter to a lock. *)
Lemma lock_ok_same cpus i c c' l lk : cpus !! i = Some c -> status_of c' l = status_of c l ->
  lock_ok cpus l lk -> lock_ok (<[i := c']> cpus) l lk.
Proof.
  intros Hi Hst [(H0 & Hn & Hall)|(j & d & Hj & Hd & Hother & Hl & Hc)].
  - left. split_and!; try done. intros k e Hk.
    apply list_lookup_insert_Some in Hk as [(<- & <- & _)|[_ Hk]]; [rewrite Hst|]; eauto.
  - right. destruct (decide (j = i)) as [->|Hne].
    + exists i, c'. assert (d = c) as -> by congruence. rewrite Hst. split_and!; try done.
      * apply list_lookup_insert_eq. by eapply lookup_lt_Some.
      * intros k e Hk Hki. rewrite list_lookup_insert_ne in Hk by done. eauto.
    + exists j, d. split_and!; try done; [by rewrite list_lookup_insert_ne|].
      intros k e Hk Hkj. apply list_lookup_insert_Some in Hk as [(<- & <- & _)|[_ Hk]]; [rewrite Hst|]; eauto.
Qed.

(** A CPU that owns the lock is its only owner. *)
Lemma lock_ok_owner cpus i c l lk : lock_ok cpus l lk -> cpus !! i = Some c -> status_of c l <> Out ->
  locked lk <> 0 /\ (lk_cpu lk = if decide (status_of c l = In) then Some i else None) /\
  forall j d, cpus !! j = Some d -> j <> i -> status_of d l = Out.
Proof.
  intros [(_ & _ & Hall)|(j & d & Hj & Hd & Hother & Hl & Hc)] Hi Hst; [by destruct Hst; eauto|].
  destruct (decide (i = j)) as [<-|Hne]; [|by destruct Hst; eauto].
  assert (d = c) as -> by congruence. done.
Qed.

Lemma lock_ok_cpu cpus i c l lk : lock_ok cpus l lk -> cpus !! i = Some c ->
  lk_cpu lk = Some i -> status_of c l = In.
Proof.
  intros [(_ & Hn & _)|(j & d & Hj & Hd & _ & _ & Hc)] Hi Hcpu; [congruence|].
  rewrite Hc in Hcpu. case_decide; [|done]. congruence.
Qed.

(** Changing the owner. *)
Lemma lock_ok_owned cpus i c c' l lk lk' : cpus !! i = Some c ->
  (forall j d, cpus !! j = Some d -> j <> i -> status_of d l = Out) ->
  status_of c' l <> Out -> locked lk' <> 0 ->
  (lk_cpu lk' = if decide (status_of c' l = In) then Some i else None) ->
  lock_ok cpus l lk -> lock_ok (<[i := c']> cpus) l lk'.
Proof.
  intros Hi Hother Hst Hl Hc _. right. exists i, c'. split_and!; try done.
  - apply list_lookup_insert_eq. by eapply lookup_lt_Some.
  - intros j d Hj Hne. rewrite list_lookup_insert_ne in Hj by done. eauto.
Qed.

Lemma lock_ok_freed cpus i c' l lk' :
  (forall j d, cpus !! j = Some d -> j <> i -> status_of d l = Out) ->
  status_of c' l = Out -> locked lk' = 0 -> lk_cpu lk' = None -> lock_ok (<[i := c']> cpus) l lk'.
Proof.
  intros Hother Hst Hl Hc. left. split_and!; try done. intros j d Hj.
  apply list_lookup_insert_Some in Hj as [(<- & <- & _)|[Hne Hj]]; [done|eauto].
Qed.

Lemma inv_update m i c c' l lk lk' : inv m -> m_cpu m !! i = Some c -> m_lock m !! l = Some lk ->
  cpu_ok c' -> (forall l', l' <> l -> status_of c' l' = status_of c l') ->
  lock_ok (<[i := c']> (m_cpu m)) l lk' ->
  inv (mk_machine (<[i := c']> (m_cpu m)) (<[l := lk']> (m_lock m))).
Proof.
  intros [HL HC] Hi Hl Hok Hst Hlk. split; cbn.
  - intros l' lk2 Hl'. apply list_lookup_insert_Some in Hl' as [(<- & <- & _)|[Hne Hl']]; [done|].
    apply (lock_ok_same _ _ c); eauto.
  - intros j d Hj. apply list_lookup_insert_Some in Hj as [(<- & <- & _)|[_ Hj]]; eauto.
Qed.

(** Steps that do not change who owns what. *)
Definition quiet (p : pc) : Prop := match p with AcqSet _ | RelStore _ => False | _ => True end.

Lemma status_quiet c l : quiet (c_pc c) -> status_of c l = if bool_decide (l ∈ c_has c) then In else Out.
Proof. unfold status_of. by destruct (c_pc c); cbn; repeat case_bool_decide. Qed.

Lemma inv_quiet m i c c' l lk : inv m -> m_cpu m !! i = Some c -> m_lock m !! l = Some lk ->
  c_has c' = c_has c -> quiet (c_pc c) -> quiet (c_pc c') -> cpu_ok c' ->
  inv (mk_machine (<[i := c']> (m_cpu m)) (<[l := lk]> (m_lock m))).
Proof.
  intros Hinv Hi Hl Hhas Hq Hq' Hok.
  assert (forall l', status_of c' l' = status_of c l') as Hst.
  { intros l'. by rewrite !status_quiet, Hhas. }
  eapply inv_update; eauto. apply (lock_ok_same _ _ c); [done..|]. by apply (inv_lock _ Hinv).
Qed.

Lemma popcli_to_ok p c : fl_if c = false -> 1 <= ncli c ->
  popcli_to p c = mk_cpu (ncli c - 1) (intena c) ((ncli c - 1 =? 0) && intena c) p (c_has c).
Proof.
  intros Hf Hn. unfold popcli_to, popcli. rewrite Hf, (proj2 (Z.ltb_ge _ _)) by lia.
  unfold goto. cbn. by destruct (_ && _).
Qed.

(** Leaving [holding]: the nesting is one less. *)
Lemma cpu_ok_pop c p : NoDup (c_has c) -> fl_if c = false ->
  ncli c = Z.of_nat (length (c_has c)) + extra p + 1 -> 0 <= extra p ->
  pc_ok (mk_cpu 0 false false p (c_has c)) ->
  cpu_ok (popcli_to p c) /\ c_pc (popcli_to p c) = p /\ c_has (popcli_to p c) = c_has c.
Proof.
  intros Hnd Hf Hn He Hpc. rewrite popcli_to_ok by (done || lia). split; [|done].
  split; cbn; try done; [lia|]. intros [Hz _]%andb_true_iff. lia.
Qed.

(** Entering [holding] or [acquire]: it is one more. *)
Lemma cpu_ok_push c p : cpu_ok c -> extra p = extra (c_pc c) + 1 ->
  pc_ok (mk_cpu 0 false false p (c_has c)) -> cpu_ok (goto p (pushcli c)).
Proof. intros [_ Hnd Hn _] He Hpc. split; cbn; try done. lia. Qed.

Lemma length_filter_ne l (h : list nat) : NoDup h -> l ∈ h -> (S (length (filter (.≠ l) h)) = length h)%nat.
Proof.
  induction h as [|x h IH]; [set_solver|]. intros [Hx Hnd]%NoDup_cons Hl. rewrite filter_cons.
  destruct (decide (x = l)) as [->|Hne].
  - rewrite decide_False by (intros Hf; by apply Hf). cbn. f_equal. f_equal.
    clear IH Hl Hnd. induction h as [|y h IH]; [done|]. rewrite filter_cons, decide_True by (intros ->; set_solver).
    f_equal. apply IH. set_solver.
  - rewrite decide_True by done. cbn. f_equal. apply IH; [done|]. set_solver.
Qed.

Section code.
Context (m : machine) (i : nat) (c : cpu) (l : nat) (lk : spinlock).
Context (Hinv : inv m) (Hi : m_cpu m !! i = Some c) (Hl : m_lock m !! l = Some lk).

Lemma own_ok : cpu_ok c.
Proof. by apply (inv_cpu _ Hinv i). Qed.
Lemma own_lock : lock_ok (m_cpu m) l lk.
Proof. by apply (inv_lock _ Hinv). Qed.

(** An unlocked lock is not held by this CPU. *)
Lemma unlocked_out : locked lk = 0 -> status_of c l = Out.
Proof.
  intros H0. destruct own_lock as [(_ & _ & H)|(? & ? & _ & _ & _ & H & _)]; [eauto|done].
Qed.

(** What [holding] finds: whether this CPU holds the lock. *)
Lemma holding_exact : quiet (c_pc c) ->
  (locked lk = 0 -> l ∉ c_has c) /\ (lk_cpu lk = Some i <-> l ∈ c_has c).
Proof.
  intros Hq. split.
  - intros H0 Hin. pose proof (unlocked_out H0) as Hst. by rewrite status_quiet, bool_decide_true in Hst.
  - split.
    + intros Hc. pose proof (lock_ok_cpu _ _ _ _ _ own_lock Hi Hc) as Hst.
      rewrite status_quiet in Hst by done. by case_bool_decide.
    + intros Hin. assert (status_of c l = In) as Hst by by rewrite status_quiet, bool_decide_true.
      destruct (lock_ok_owner _ _ _ _ _ own_lock Hi) as (_ & -> & _); [by rewrite Hst|]. by rewrite decide_True.
Qed.

Lemma inv_acq_push : c_pc c = AcqPush l ->
  inv (mk_machine (<[i := goto (AcqLocked l) (pushcli c)]> (m_cpu m)) (<[l := lk]> (m_lock m))).
Proof.
  intros Hpc. eapply inv_quiet; eauto; rewrite ?Hpc; try done. by apply cpu_ok_push; [apply own_ok|rewrite Hpc|].
Qed.

(** The steps of [holding], in [acquire] and in [release]. *)
Lemma inv_holding_locked p0 p1 : quiet (c_pc c) -> quiet p0 -> quiet p1 ->
  extra p0 = extra (c_pc c) -> extra p1 = extra (c_pc c) + 1 -> 0 <= extra p0 ->
  (l ∉ c_has c -> pc_ok (mk_cpu 0 false false p0 (c_has c))) -> pc_ok (mk_cpu 0 false false p1 (c_has c)) ->
  inv (mk_machine (<[i := if locked lk =? 0 then popcli_to p0 (pushcli c) else goto p1 (pushcli c)]> (m_cpu m))
         (<[l := lk]> (m_lock m))).
Proof.
  intros Hq Hq0 Hq1 He0 He1 Hpos Hok0 Hok1. pose proof own_ok as Hok. pose proof Hok as [_ Hnd Hn _].
  destruct (Z.eqb_spec (locked lk) 0) as [H0|H0].
  - destruct (cpu_ok_pop (pushcli c) p0) as (Hc' & Hp' & Hh'); cbn; try done; [lia| |].
    { apply Hok0. by apply holding_exact. }
    eapply inv_quiet; eauto. by rewrite Hp'.
  - eapply inv_quiet; eauto. by apply cpu_ok_push.
Qed.

Lemma inv_holding_cpu p0 p1 : quiet (c_pc c) -> quiet p0 -> quiet p1 -> fl_if c = false ->
  extra (c_pc c) = extra p0 + 1 -> extra p1 = extra p0 -> 0 <= extra p0 ->
  (l ∈ c_has c -> pc_ok (mk_cpu 0 false false p0 (c_has c))) ->
  (l ∉ c_has c -> pc_ok (mk_cpu 0 false false p1 (c_has c))) ->
  inv (mk_machine (<[i := popcli_to (if bool_decide (lk_cpu lk = Some i) then p0 else p1) c]> (m_cpu m))
         (<[l := lk]> (m_lock m))).
Proof.
  intros Hq Hq0 Hq1 Hf He0 He1 Hpos Hok0 Hok1. pose proof own_ok as [_ Hnd Hn _].
  destruct (holding_exact Hq) as [_ Hh].
  destruct (cpu_ok_pop c (if bool_decide (lk_cpu lk = Some i) then p0 else p1)) as (Hc' & Hp' & Hh'); try done.
  - case_bool_decide; lia.
  - case_bool_decide; lia.
  - case_bool_decide; tauto.
  - eapply inv_quiet; eauto. rewrite Hp'. by case_bool_decide.
Qed.

Lemma inv_spin : c_pc c = AcqSpin l ->
  inv (mk_machine (<[i := goto (if locked lk =? 0 then AcqSet l else AcqSpin l) c]> (m_cpu m))
         (<[l := mk_spinlock 1 (lk_cpu lk)]> (m_lock m))).
Proof.
  intros Hpc. pose proof own_ok as [Hp Hnd Hn Hif]. unfold pc_ok in Hp. rewrite Hpc in Hp, Hn.
  pose proof own_lock as HL. destruct (Z.eqb_spec (locked lk) 0) as [H0|H0].
  - eapply inv_update; eauto; [by split| |].
    + intros l' Hne. unfold status_of. cbn. rewrite Hpc. by rewrite !(bool_decide_false (_ = _)) by congruence.
    + assert (status_of (goto (AcqSet l) c) l = Got) as Hst.
      { unfold status_of. cbn. by rewrite bool_decide_false, bool_decide_true. }
      destruct HL as [(_ & Hc & Hall)|(? & ? & _ & _ & _ & ? & _)]; [|done].
      right. exists i, (goto (AcqSet l) c). rewrite Hst. split_and!; try done.
      * apply list_lookup_insert_eq. by eapply lookup_lt_Some.
      * intros j d Hj Hne. rewrite list_lookup_insert_ne in Hj by done. eauto.
  - eapply inv_update; eauto; [by split| |].
    + intros l' Hne. unfold status_of. cbn. by rewrite Hpc.
    + replace (goto (AcqSpin l) c) with c by (destruct c; cbn in *; by subst). rewrite list_insert_id by done.
      destruct HL as [(? & _)|(j & d & H)]; [done|]. right. exists j, d. cbn. intuition congruence.
Qed.

Lemma status_others p has l' : c_pc c = AcqSet l \/ c_pc c = RelClear l \/ c_pc c = RelStore l -> l' <> l ->
  p = Idle \/ p = RelStore l \/ p = RelPop l -> (l' ∈ has <-> l' ∈ c_has c) ->
  status_of (mk_cpu (ncli c) (intena c) (fl_if c) p has) l' = status_of c l'.
Proof.
  intros Hpc Hne Hp Hhas. unfold status_of. cbn. rewrite (bool_decide_ext _ _ Hhas).
  assert (c_pc c <> RelStore l' /\ c_pc c <> AcqSet l') as [??] by (destruct Hpc as [->|[->| ->]]; split; congruence).
  assert (p <> RelStore l' /\ p <> AcqSet l') as [??] by (destruct Hp as [->|[->| ->]]; split; congruence).
  by repeat (rewrite (bool_decide_false (_ = _)) by done).
Qed.

Lemma inv_set : c_pc c = AcqSet l ->
  inv (mk_machine (<[i := goto Idle (set_has (l :: c_has c) c)]> (m_cpu m))
         (<[l := mk_spinlock (locked lk) (Some i)]> (m_lock m))).
Proof.
  intros Hpc. pose proof own_ok as [Hp Hnd Hn Hif]. unfold pc_ok in Hp. rewrite Hpc in Hp, Hn.
  assert (status_of c l = Got) as Hst by (unfold status_of; by rewrite bool_decide_false, bool_decide_true).
  destruct (lock_ok_owner _ _ _ _ _ own_lock Hi) as (Hlk & _ & Hother); [by rewrite Hst|].
  eapply inv_update; eauto.
  - split; cbn in *; try done; [by constructor|lia].
  - intros l' Hne. apply status_others; auto. set_solver.
  - assert (status_of (goto Idle (set_has (l :: c_has c) c)) l = In) as Hst'.
    { unfold status_of. cbn. by rewrite bool_decide_true by set_solver. }
    eapply lock_ok_owned; eauto; [by rewrite Hst'|by rewrite Hst'|by apply own_lock].
Qed.

Lemma inv_clear : c_pc c = RelClear l ->
  inv (mk_machine (<[i := goto (RelStore l) c]> (m_cpu m)) (<[l := mk_spinlock (locked lk) None]> (m_lock m))).
Proof.
  intros Hpc. pose proof own_ok as [Hp Hnd Hn Hif]. unfold pc_ok in Hp. rewrite Hpc in Hp, Hn.
  assert (status_of c l = In) as Hst.
  { unfold status_of. rewrite bool_decide_true by done. by rewrite Hpc, bool_decide_false. }
  destruct (lock_ok_owner _ _ _ _ _ own_lock Hi) as (Hlk & _ & Hother); [by rewrite Hst|].
  eapply inv_update; eauto; [by split| |].
  - intros l' Hne. apply status_others; auto.
  - assert (status_of (goto (RelStore l) c) l = Leaving) as Hst'.
    { unfold status_of. cbn. by rewrite !bool_decide_true. }
    eapply lock_ok_owned; eauto; [by rewrite Hst'|by rewrite Hst'|by apply own_lock].
Qed.

Lemma inv_store : c_pc c = RelStore l ->
  inv (mk_machine (<[i := goto (RelPop l) (set_has (filter (.≠ l) (c_has c)) c)]> (m_cpu m))
         (<[l := mk_spinlock 0 (lk_cpu lk)]> (m_lock m))).
Proof.
  intros Hpc. pose proof own_ok as [Hp Hnd Hn Hif]. unfold pc_ok in Hp. rewrite Hpc in Hp, Hn.
  assert (status_of c l = Leaving) as Hst.
  { unfold status_of. rewrite bool_decide_true by done. by rewrite Hpc, bool_decide_true. }
  destruct (lock_ok_owner _ _ _ _ _ own_lock Hi) as (Hlk & Hc & Hother); [by rewrite Hst|].
  rewrite Hst in Hc. cbn in Hc. pose proof (length_filter_ne l _ Hnd Hp).
  eapply inv_update; eauto.
  - split; cbn in *; try done.
    + unfold pc_ok. cbn. rewrite list_elem_of_filter. tauto.
    + by apply NoDup_filter.
    + lia.
  - intros l' Hne. apply (status_others (RelPop l)); [tauto|done|tauto|]. cbn. rewrite list_elem_of_filter. tauto.
  - apply lock_ok_freed; try done. unfold status_of. cbn. by rewrite !bool_decide_false by (rewrite ?list_elem_of_filter; tauto || done).
Qed.

Lemma inv_pop : c_pc c = RelPop l ->
  inv (mk_machine (<[i := popcli_to Idle c]> (m_cpu m)) (<[l := lk]> (m_lock m))).
Proof.
  intros Hpc. pose proof own_ok as [Hp Hnd Hn Hif]. rewrite Hpc in Hn. cbn in Hn.
  destruct (cpu_ok_pop c Idle) as (Hc' & Hp' & Hh'); try done.
  - destruct (fl_if c); [|done]. specialize (Hif eq_refl). lia.
  - cbn. lia.
  - eapply inv_quiet; eauto; [by rewrite Hpc|by rewrite Hp'].
Qed.
End code.

Lemma insert_lock m l lk : m_lock m !! l = Some lk -> <[l := lk]> (m_lock m) = m_lock m.
Proof. apply list_insert_id. Qed.

Lemma fl_if_nested c : cpu_ok c -> 0 < extra (c_pc c) -> fl_if c = false.
Proof. intros [_ _ Hn Hif] He. destruct (fl_if c); [|done]. specialize (Hif eq_refl). lia. Qed.

Lemma code_inv m i c lk c' lk' : inv m -> m_cpu m !! i = Some c -> m_lock m !! lock_of (c_pc c) = Some lk ->
  cpu_step i c lk = Some (c', lk') ->
  inv (mk_machine (<[i := c']> (m_cpu m)) (<[lock_of (c_pc c) := lk']> (m_lock m))).
Proof.
  intros Hinv Hi Hl Hstep. pose proof (inv_cpu _ Hinv i c Hi) as Hok. unfold cpu_step in Hstep.
  destruct (c_pc c) as [|l|l|l|l|l|l|l|l|l|l|l|l|] eqn:Hpc; cbn [lock_of] in *; try done.
  - injection Hstep as <- <-. by apply inv_acq_push.
  - assert (c' = (if locked lk =? 0 then popcli_to (AcqSpin l) (pushcli c) else goto (AcqCpu l) (pushcli c)) /\ lk' = lk)
      as [-> ->] by (destruct (_ =? _); by simplify_eq).
    by apply inv_holding_locked; rewrite ?Hpc.
  - injection Hstep as <- <-. apply inv_holding_cpu; rewrite ?Hpc; try done.
    apply fl_if_nested; [done|by rewrite Hpc].
  - injection Hstep as <- <-. by apply inv_spin.
  - injection Hstep as <- <-. by apply inv_set.
  - assert (c' = (if locked lk =? 0 then popcli_to (PanicRelease l) (pushcli c) else goto (RelCpu l) (pushcli c)) /\ lk' = lk)
      as [-> ->] by (destruct (_ =? _); by simplify_eq).
    by apply inv_holding_locked; rewrite ?Hpc.
  - injection Hstep as <- <-. apply inv_holding_cpu; rewrite ?Hpc; try done.
    apply fl_if_nested; [done|by rewrite Hpc].
  - injection Hstep as <- <-. by apply inv_clear.
  - injection Hstep as <- <-. by apply inv_store.
  - injection Hstep as <- <-. by apply inv_pop.
Qed.

(** A step that starts a call. *)
Lemma start_inv m i c c' : inv m -> m_cpu m !! i = Some c -> c_pc c = Idle ->
  c_has c' = c_has c -> quiet (c_pc c') -> cpu_ok c' -> inv (mk_machine (<[i := c']> (m_cpu m)) (m_lock m)).
Proof.
  intros [HL HC] Hi Hpc Hhas Hq Hok. split; cbn.
  - intros l lk Hl. apply (lock_ok_same _ _ c); [done| |eauto]. by rewrite !status_quiet, Hhas by (rewrite ?Hpc; done).
  - intros j d Hj. apply list_lookup_insert_Some in Hj as [(<- & <- & _)|[_ Hj]]; eauto.
Qed.

Lemma step_inv m m' : inv m -> step m m' -> inv m'.
Proof.
  intros Hinv. destruct 1 as [m i c l Hi Hpc _|m i c l Hi Hpc _|m i c b Hi Hpc Hn|m i c lk c' lk' Hi Hl Hs].
  - pose proof (inv_cpu _ Hinv i c Hi) as [_ Hnd Hn Hif]. rewrite Hpc in Hn. by eapply start_inv.
  - pose proof (inv_cpu _ Hinv i c Hi) as [_ Hnd Hn Hif]. rewrite Hpc in Hn. by eapply start_inv.
  - pose proof (inv_cpu _ Hinv i c Hi) as [_ Hnd Hn' Hif]. rewrite Hpc in Hn'.
    eapply start_inv; eauto; [done|]. split; cbn in *; try done. lia.
  - by eapply code_inv.
Qed.

Lemma reachable_inv ncpu nlocks m : reachable ncpu nlocks m -> inv m.
Proof.
  induction 1 as [|m m' _ IH Hs]; [|by eapply step_inv]. split; cbn.
  - intros l lk Hl. apply lookup_replicate in Hl as [-> _]. left. split_and!; try done.
    intros i c Hi. apply lookup_replicate in Hi as [-> _]. done.
  - intros i c Hi. apply lookup_replicate in Hi as [-> _]. split; cbn; try done. constructor.
Qed.

(** The next step of CPU [i] goes to [p] and changes no lock. *)
Definition goes_to (i : nat) (c : cpu) (lk : spinlock) (p : pc) : Prop :=
  exists c', cpu_step i c lk = Some (c', lk) /\ c_pc c' = p /\ c_has c' = c_has c.

Section misuse.
Context (m : machine) (i : nat) (c : cpu) (l : nat) (lk : spinlock).
Context (Hinv : inv m) (Hi : m_cpu m !! i = Some c) (Hl : m_lock m !! l = Some lk).

(** The second half of [holding] compares the CPU that the lock records. *)
Lemma holding_cpu_goes (p0 p1 : pc) : quiet (c_pc c) -> 0 < extra (c_pc c) ->
  (forall lk, cpu_step i c lk = Some (popcli_to (if bool_decide (lk_cpu lk = Some i) then p0 else p1) c, lk)) ->
  goes_to i c lk (if bool_decide (l ∈ c_has c) then p0 else p1).
Proof.
  intros Hq He Hs. destruct (holding_exact m i c l lk Hinv Hi Hl Hq) as [_ Hh].
  pose proof (inv_cpu _ Hinv i c Hi) as Hok. pose proof Hok as [_ _ Hn _]. eexists. split; [apply Hs|].
  rewrite (bool_decide_ext _ _ Hh). rewrite popcli_to_ok; [done|by apply fl_if_nested|lia].
Qed.

(** [acquire] of a lock that the CPU holds runs into the panic. *)
Lemma acquire_held_panics : l ∈ c_has c ->
  (c_pc c = AcqPush l -> goes_to i c lk (AcqLocked l)) /\
  (c_pc c = AcqLocked l -> goes_to i c lk (AcqCpu l)) /\
  (c_pc c = AcqCpu l -> goes_to i c lk (PanicAcquire l)).
Proof.
  intros Hin. split_and!; intros Hpc.
  - unfold goes_to, cpu_step. rewrite Hpc. eauto.
  - destruct (holding_exact m i c l lk Hinv Hi Hl) as [Hfree _]; [by rewrite Hpc|].
    unfold goes_to, cpu_step. rewrite Hpc. destruct (Z.eqb_spec (locked lk) 0) as [H0|]; [by destruct (Hfree H0)|]. eauto.
  - pose proof (holding_cpu_goes (PanicAcquire l) (AcqSpin l)) as H. rewrite bool_decide_true in H by done.
    apply H; [by rewrite Hpc|by rewrite Hpc|]. intros lk'. unfold cpu_step. by rewrite Hpc.
Qed.

(** So does [release] of one that it does not hold. *)
Lemma release_not_held_panics : l ∉ c_has c ->
  (c_pc c = RelLocked l -> goes_to i c lk (if locked lk =? 0 then PanicRelease l else RelCpu l)) /\
  (c_pc c = RelCpu l -> goes_to i c lk (PanicRelease l)).
Proof.
  intros Hin. split; intros Hpc.
  - pose proof (inv_cpu _ Hinv i c Hi) as [_ _ Hn _]. rewrite Hpc in Hn. cbn in Hn.
    unfold goes_to, cpu_step. rewrite Hpc. destruct (locked lk =? 0); [|eauto].
    eexists. split; [done|]. by rewrite popcli_to_ok by (done || cbn; lia).
  - pose proof (holding_cpu_goes (RelClear l) (PanicRelease l)) as H. rewrite bool_decide_false in H by done.
    apply H; [by rewrite Hpc|by rewrite Hpc|]. intros lk'. unfold cpu_step. by rewrite Hpc.
Qed.
End misuse.

(** C7: whatever the order in which the CPUs run, at most one CPU holds a
    lock (from its successful [xchg] until it stores 0), and the lock then
    reads as locked.  The panics mark misuse exactly: [acquire] panics only
    on a CPU that already holds the lock, and on such a CPU every step of the
    call leads to the panic and the [xchg] is never reached; [release] panics
    only on a CPU that does not hold the lock, every step of such a call
    leads to the panic and the lock's memory is never written; [popcli] never
    panics.  Each CPU's [ncli] counts the locks it holds and the [pushcli] of
    the call it is in, and its interrupts are off as long as [ncli] is
    positive. *)
Theorem spinlock_mutual_exclusion ncpu nlocks m i c :
  reachable ncpu nlocks m -> m_cpu m !! i = Some c ->
  (forall l lk, m_lock m !! l = Some lk -> status_of c l <> Out -> locked lk <> 0 /\
     forall j d, m_cpu m !! j = Some d -> j <> i -> status_of d l = Out) /\
  (forall l, c_pc c = PanicAcquire l -> l ∈ c_has c) /\
  (forall l, c_pc c = PanicRelease l -> l ∉ c_has c) /\ c_pc c <> PanicPopcli /\
  (forall l lk, m_lock m !! l = Some lk -> l ∈ c_has c ->
     (c_pc c = AcqPush l -> goes_to i c lk (AcqLocked l)) /\
     (c_pc c = AcqLocked l -> goes_to i c lk (AcqCpu l)) /\
     (c_pc c = AcqCpu l -> goes_to i c lk (PanicAcquire l)) /\
     c_pc c <> AcqSpin l /\ c_pc c <> AcqSet l) /\
  (forall l lk, m_lock m !! l = Some lk -> l ∉ c_has c ->
     (c_pc c = RelLocked l -> goes_to i c lk (if locked lk =? 0 then PanicRelease l else RelCpu l)) /\
     (c_pc c = RelCpu l -> goes_to i c lk (PanicRelease l)) /\
     c_pc c <> RelClear l /\ c_pc c <> RelStore l) /\
  ncli c = Z.of_nat (length (c_has c)) + extra (c_pc c) /\ (0 < ncli c -> fl_if c = false).
Proof.
  intros Hinv%reachable_inv Hi. pose proof (inv_cpu _ Hinv i c Hi) as [Hpc Hnd Hn Hif].
  unfold pc_ok in Hpc. split_and!; try done.
  - intros l lk Hl Hc. by destruct (lock_ok_owner _ _ _ _ _ (inv_lock _ Hinv l lk Hl) Hi Hc) as (? & _ & ?).
  - intros l Hp. by rewrite Hp in Hpc.
  - intros l Hp. by rewrite Hp in Hpc.
  - intros Hp. by rewrite Hp in Hpc.
  - intros l lk Hl Hin. destruct (acquire_held_panics m i c l lk Hinv Hi Hl Hin) as (H1 & H2 & H3).
    split_and!; try done; intros Hp; by rewrite Hp in Hpc.
  - intros l lk Hl Hin. destruct (release_not_held_panics m i c l lk Hinv Hi Hl Hin) as [H1 H2].
    split_and!; try done; intros Hp; by rewrite Hp in Hpc.
  - intros Hpos. destruct (fl_if c); [|done]. specialize (Hif eq_refl). lia.
Qed.

(** ** An example: one CPU gets the lock, the other one spins *)

(** [inl (i, l)]: CPU [i] starts [acquire] of [l]; [inr i]: its next step. *)
Definition do_event (m : machine) (e : nat * nat + nat) : option machine :=
  match e with
  | inl (i, l) =>
      c ← m_cpu m !! i;
      if bool_decide (c_pc c = Idle) && bool_decide (l < length (m_lock m))%nat
      then Some (mk_machine (<[i := goto (AcqPush l) c]> (m_cpu m)) (m_lock m)) else None
  | inr i =>
      c ← m_cpu m !! i;
      lk ← m_lock m !! lock_of (c_pc c);
      '(c', lk') ← cpu_step i c lk;
      Some (mk_machine (<[i := c']> (m_cpu m)) (<[lock_of (c_pc c) := lk']> (m_lock m)))
  end.

Lemma do_event_step m e m' : do_event m e = Some m' -> step m m'.
Proof.
  destruct e as [[i l]|i]; cbn.
  - destruct (m_cpu m !! i) as [c|] eqn:Hi; [|done]. cbn. repeat case_bool_decide; try done.
    intros [= <-]. by apply step_acquire.
  - destruct (m_cpu m !! i) as [c|] eqn:Hi; [|done]. cbn.
    destruct (m_lock m !! _) as [lk|] eqn:Hl; [|done]. cbn.
    destruct (cpu_step i c lk) as [[c' lk']|] eqn:Hs; [|done]. intros [= <-]. by eapply step_code.
Qed.

Fixpoint do_events (m : machine) (es : list (nat * nat + nat)) : option machine :=
  match es with [] => Some m | e :: es => m' ← do_event m e; do_events m' es end.

Lemma do_events_reachable n k m es m' : reachable n k m -> do_events m es = Some m' -> reachable n k m'.
Proof.
  revert m. induction es as [|e es IH]; intros m Hm; cbn; [by intros [= <-]|].
  destruct (do_event m e) as [m1|] eqn:E; [|done]. cbn. apply IH. eapply reach_step; [done|by eapply do_event_step].
Qed.

(** Both CPUs call [acquire]; CPU 1 gets the lock, CPU 0 tries again, and
    CPU 1 calls [acquire] a second time and reads that it is locked. *)
Definition race : list (nat * nat + nat) :=
  [inl (0, 0); inl (1, 0); inr 0; inr 1; inr 0; inr 1; inr 1; inr 0; inr 1; inr 0; inl (1, 0); inr 1; inr 1]%nat.

Lemma spinlock_mutual_exclusion_witness : exists m c0 c1,
  do_events (boot 2 1) race = Some m /\ m_cpu m !! 0%nat = Some c0 /\ m_cpu m !! 1%nat = Some c1 /\
  c_pc c0 = AcqSpin 0 /\ c_has c1 = [0%nat] /\ status_of c0 0 = Out /\ fl_if c1 = false /\
  goes_to 1 c1 (mk_spinlock 1 (Some 1%nat)) (PanicAcquire 0).
Proof.
  eexists _, _, _. split; [vm_compute; reflexivity|]. split; [reflexivity|]. split; [reflexivity|].
  match goal with |- context [status_of ?c 0 = Out] => set (c0 := c) end.
  match goal with |- context [fl_if ?c = false] => set (c1 := c) end.
  set (m := mk_machine [c0; c1] [mk_spinlock 1 (Some 1%nat)]).
  assert (reachable 2 1 m) as Hm.
  { apply (do_events_reachable 2 1 (boot 2 1) race m); [constructor|vm_compute; reflexivity]. }
  destruct (spinlock_mutual_exclusion 2 1 m 1 c1 Hm eq_refl) as (Hex & _ & _ & _ & Hacq & _ & Hn & Hif).
  destruct (Hex 0%nat _ eq_refl) as [_ Hother]; [vm_compute; discriminate|].
  split; [reflexivity|]. split; [reflexivity|]. split.
  - apply (Hother 0%nat c0); [reflexivity|lia].
  - split; [apply Hif; reflexivity|]. destruct (Hacq 0%nat _ eq_refl) as (_ & _ & Hp & _); [by left|].
    apply Hp. reflexivity.
Defined.
