(* ===== verification/Kernel.v ===== *)
(** * The kernel state

    The data structures of the kernel as records, the state that collects
    them, and the primitive operations on it: memory accesses, array
    accesses (out of range is a [Trap]), and the spin locks.

    Kernel functions run here on one CPU from call to return: [k_held]
    lists the spin locks that CPU holds.  [acquire] panics on a lock it
    already holds and [release] on one it does not, as in [spinlock.c];
    Spinlock.v models those routines in full, on several CPUs, and shows
    that they keep this contract.  A call that would put the process to
    sleep ends in [Blocked]. *)

From Stdlib Require Import ZArith Lia.
From stdpp Require Import base strings numbers gmap list.
From S2P Require Import Prelude Mmu Memory.

(** ** Data *)

Inductive procstate := UNUSED | EMBRYO | SLEEPING | RUNNABLE | RUNNING | ZOMBIE.
#[global] Instance procstate_eq_dec : EqDecision procstate.
Proof. solve_decision. Defined.

(** Sleep channels: the addresses of kernel objects. *)
Inductive chan :=
  | NoChan
  | ChProc (i : nat) (* a process *)
  | ChBuf (i : nat) (* the sleep lock of a buffer *)
  | ChInode (i : nat) (* the sleep lock of an inode *)
  | ChLog
  | ChPipeRead (a : Z) (* &p->nread *)
  | ChPipeWrite (a : Z) (* &p->nwrite *)
  | ChTicks.
#[global] Instance chan_eq_dec : EqDecision chan.
Proof. solve_decision. Defined.

(** The spin locks, by the object they protect. *)
Inductive lock :=
  | L_kmem | L_ptable | L_bcache | L_buf (i : nat) | L_tickslock
  | L_log | L_icache | L_inode (i : nat) | L_ftable | L_pipe (a : Z).
#[global] Instance lock_eq_dec : EqDecision lock.
Proof. solve_decision. Defined.

(** [struct rmap_struct]; its [lock] is initialised and never taken. *)
Record rmap_struct := mk_rmap {
  refcount : Z; (* number of references counted *)
  pte_id : list Z; (* the entries that map the page *)
  present_id : list Z; (* 1 where the slot is used *)
}.

(** [struct swapslot]. *)
Record swapslot := mk_swap {
  sw_start : Z;
  page_perm : Z; (* flags of the entry swapped out *)
  is_free : Z;
  sw_pte_id : list Z; (* entries sharing the page *)
  sw_proc_id : list (option nat); (* their processes *)
  sw_cnt : Z; (* how many share it *)
}.

(** [struct proc]. *)
Record proc := mk_proc {
  p_sz : Z; (* size of process memory (bytes) *)
  p_rss : Z; (* resident set size (bytes) *)
  p_pgdir : Z; (* page table *)
  p_kstack : Z; (* bottom of kernel stack *)
  p_state : procstate;
  p_pid : Z;
  p_parent : option nat;
  p_tf : Z; (* trap frame *)
  p_context : Z; (* swtch() here to run process *)
  p_chan : chan; (* if non-zero, sleeping on chan *)
  p_killed : Z;
  p_ofile : list (option nat); (* open files *)
  p_cwd : option nat; (* current directory *)
  p_name : list Z;
}.

(** [struct sleeplock]; the spin lock inside it is named by [lock]. *)
Record sleeplock := mk_sleeplock {
  sl_locked : Z; (* is the lock held? *)
  sl_pid : Z; (* process holding it *)
}.

(** [struct buf]; [prev] and [next] are the order of [k_lru] below. *)
Record buf := mk_buf {
  b_flags : Z;
  b_dev : Z;
  b_blockno : Z;
  b_lock : sleeplock;
  b_refcnt : Z;
  b_data : list Z; (* BSIZE bytes *)
}.

(** [struct log] with its [logheader]. *)
Record log := mk_log {
  lg_start : Z;
  lg_size : Z;
  lg_outstanding : Z; (* how many FS sys calls are executing *)
  lg_committing : Z; (* in commit(), please wait *)
  lg_dev : Z;
  lh_n : Z; (* log.lh.n *)
  lh_block : list Z; (* log.lh.block *)
}.

(** [struct superblock]. *)
Record superblock := mk_sb {
  sb_size : Z; (* size of file system image (blocks) *)
  sb_nblocks : Z; (* number of data blocks *)
  sb_ninodes : Z; (* number of inodes *)
  sb_nlog : Z; (* number of log blocks *)
  sb_logstart : Z; (* block number of first log block *)
  sb_inodestart : Z; (* block number of first inode block *)
  sb_bmapstart : Z; (* block number of first free map block *)
  sb_swapblockstart : Z; (* block number of swap block *)
  sb_nswapblocks : Z; (* number of swap blocks *)
}.

(** [struct inode], the copy in memory. *)
Record inode := mk_inode {
  i_dev : Z; (* device number *)
  i_inum : Z; (* inode number *)
  i_ref : Z; (* reference count *)
  i_lock : sleeplock; (* protects everything below here *)
  i_valid : Z; (* inode has been read from disk? *)
  i_type : Z; (* copy of disk inode *)
  i_major : Z;
  i_minor : Z;
  i_nlink : Z;
  i_size : Z;
  i_addrs : list Z; (* NDIRECT+1 block addresses *)
}.

(** [struct file]. *)
Inductive filetype := FD_NONE | FD_PIPE | FD_INODE.
#[global] Instance filetype_eq_dec : EqDecision filetype.
Proof. solve_decision. Defined.

Record file := mk_file {
  f_type : filetype;
  f_ref : Z; (* reference count *)
  f_readable : Z;
  f_writable : Z;
  f_pipe : Z; (* address of the pipe *)
  f_ip : nat; (* index of the inode *)
  f_off : Z;
}.

(** [struct pipe]; it lives in a page of its own. *)
Record pipe := mk_pipe {
  pi_data : list Z; (* PIPESIZE bytes *)
  pi_nread : Z; (* number of bytes read *)
  pi_nwrite : Z; (* number of bytes written *)
  pi_readopen : Z; (* read fd is still open *)
  pi_writeopen : Z; (* write fd is still open *)
}.

(** The kernel's variables and the devices it uses. *)
Record kstate := mk_kstate {
  k_mem : mem; (* physical memory, at kernel addresses *)
  k_freelist : Z; (* kmem.freelist *)
  k_nfree : Z; (* kmem.num_free_pages *)
  k_use_lock : bool; (* kmem.use_lock *)
  k_global_var : Z; (* global_var of kalloc.c *)
  k_rmap : list rmap_struct; (* rmap *)
  k_swap : list swapslot; (* swaparray *)
  k_proc : list proc; (* ptable.proc *)
  k_cur : option nat; (* mycpu()->proc *)
  k_nextpid : Z; (* nextpid *)
  k_initproc : option nat; (* initproc *)
  k_held : list lock; (* spin locks this CPU holds *)
  k_buf : list buf; (* bcache.buf *)
  k_lru : list nat; (* bcache list, most recent first *)
  k_disk : list (Z * list Z); (* blocks written to the disk, last one first *)
  k_disksize : Z; (* number of disk blocks *)
  k_cr2 : Z; (* faulting address *)
  k_cr3 : Z; (* page-table base *)
  k_esp0 : Z; (* mycpu()->ts.esp0 *)
  k_kpgdir : Z; (* kpgdir of vm.c *)
  k_log : log; (* log *)
  k_sb : superblock; (* sb of fs.c *)
  k_inode : list inode; (* icache.inode *)
  k_file : list file; (* ftable.file *)
  k_pipe : gmap Z pipe; (* pipes by the address of their page *)
  k_ticks : Z; (* ticks *)
}.

Abbreviation K := (M kstate).

(** Symbols that the linker and the assembly files define. *)
Class KernelImage := {
  sym_end : Z;      (* first address after the kernel, kernel.ld *)
  sym_data : Z;     (* start of the kernel's data, kernel.ld *)
  sym_trapret : Z;  (* trapasm.S *)
  sym_forkret : Z;
}.

(** What kernel.ld guarantees of them. *)
Class KernelImageOk (I : KernelImage) : Prop := {
  end_range : KERNLINK <= sym_end <= KERNBASE + PHYSTOP;
  data_range : KERNLINK < sym_data <= sym_end;
  data_aligned : sym_data mod PGSIZE = 0;
}.

(** ** Setters *)

Definition set_refcount (v : Z) (r : rmap_struct) : rmap_struct :=
  mk_rmap v (pte_id r) (present_id r).
Definition set_pte_id (v : list Z) (r : rmap_struct) : rmap_struct :=
  mk_rmap (refcount r) v (present_id r).
Definition set_present_id (v : list Z) (r : rmap_struct) : rmap_struct :=
  mk_rmap (refcount r) (pte_id r) v.

Definition set_sw_start (v : Z) (r : swapslot) : swapslot :=
  mk_swap v (page_perm r) (is_free r) (sw_pte_id r) (sw_proc_id r) (sw_cnt r).
Definition set_page_perm (v : Z) (r : swapslot) : swapslot :=
  mk_swap (sw_start r) v (is_free r) (sw_pte_id r) (sw_proc_id r) (sw_cnt r).
Definition set_is_free (v : Z) (r : swapslot) : swapslot :=
  mk_swap (sw_start r) (page_perm r) v (sw_pte_id r) (sw_proc_id r) (sw_cnt r).
Definition set_sw_pte_id (v : list Z) (r : swapslot) : swapslot :=
  mk_swap (sw_start r) (page_perm r) (is_free r) v (sw_proc_id r) (sw_cnt r).
Definition set_sw_proc_id (v : list (option nat)) (r : swapslot) : swapslot :=
  mk_swap (sw_start r) (page_perm r) (is_free r) (sw_pte_id r) v (sw_cnt r).
Definition set_sw_cnt (v : Z) (r : swapslot) : swapslot :=
  mk_swap (sw_start r) (page_perm r) (is_free r) (sw_pte_id r) (sw_proc_id r) v.

Definition set_p_sz (v : Z) (r : proc) : proc :=
  mk_proc v (p_rss r) (p_pgdir r) (p_kstack r) (p_state r) (p_pid r) (p_parent r) (p_tf r) (p_context r) (p_chan r) (p_killed r) (p_ofile r) (p_cwd r) (p_name r).
Definition set_p_rss (v : Z) (r : proc) : proc :=
  mk_proc (p_sz r) v (p_pgdir r) (p_kstack r) (p_state r) (p_pid r) (p_parent r) (p_tf r) (p_context r) (p_chan r) (p_killed r) (p_ofile r) (p_cwd r) (p_name r).
Definition set_p_pgdir (v : Z) (r : proc) : proc :=
  mk_proc (p_sz r) (p_rss r) v (p_kstack r) (p_state r) (p_pid r) (p_parent r) (p_tf r) (p_context r) (p_chan r) (p_killed r) (p_ofile r) (p_cwd r) (p_name r).
Definition set_p_kstack (v : Z) (r : proc) : proc :=
  mk_proc (p_sz r) (p_rss r) (p_pgdir r) v (p_state r) (p_pid r) (p_parent r) (p_tf r) (p_context r) (p_chan r) (p_killed r) (p_ofile r) (p_cwd r) (p_name r).
Definition set_p_state (v : procstate) (r : proc) : proc :=
  mk_proc (p_sz r) (p_rss r) (p_pgdir r) (p_kstack r) v (p_pid r) (p_parent r) (p_tf r) (p_context r) (p_chan r) (p_killed r) (p_ofile r) (p_cwd r) (p_name r).
Definition set_p_pid (v : Z) (r : proc) : proc :=
  mk_proc (p_sz r) (p_rss r) (p_pgdir r) (p_kstack r) (p_state r) v (p_parent r) (p_tf r) (p_context r) (p_chan r) (p_killed r) (p_ofile r) (p_cwd r) (p_name r).
Definition set_p_parent (v : option nat) (r : proc) : proc :=
  mk_proc (p_sz r) (p_rss r) (p_pgdir r) (p_kstack r) (p_state r) (p_pid r) v (p_tf r) (p_context r) (p_chan r) (p_killed r) (p_ofile r) (p_cwd r) (p_name r).
Definition set_p_tf (v : Z) (r : proc) : proc :=
  mk_proc (p_sz r) (p_rss r) (p_pgdir r) (p_kstack r) (p_state r) (p_pid r) (p_parent r) v (p_context r) (p_chan r) (p_killed r) (p_ofile r) (p_cwd r) (p_name r).
Definition set_p_context (v : Z) (r : proc) : proc :=
  mk_proc (p_sz r) (p_rss r) (p_pgdir r) (p_kstack r) (p_state r) (p_pid r) (p_parent r) (p_tf r) v (p_chan r) (p_killed r) (p_ofile r) (p_cwd r) (p_name r).
Definition set_p_chan (v : chan) (r : proc) : proc :=
  mk_proc (p_sz r) (p_rss r) (p_pgdir r) (p_kstack r) (p_state r) (p_pid r) (p_parent r) (p_tf r) (p_context r) v (p_killed r) (p_ofile r) (p_cwd r) (p_name r).
Definition set_p_killed (v : Z) (r : proc) : proc :=
  mk_proc (p_sz r) (p_rss r) (p_pgdir r) (p_kstack r) (p_state r) (p_pid r) (p_parent r) (p_tf r) (p_context r) (p_chan r) v (p_ofile r) (p_cwd r) (p_name r).
Definition set_p_ofile (v : list (option nat)) (r : proc) : proc :=
  mk_proc (p_sz r) (p_rss r) (p_pgdir r) (p_kstack r) (p_state r) (p_pid r) (p_parent r) (p_tf r) (p_context r) (p_chan r) (p_killed r) v (p_cwd r) (p_name r).
Definition set_p_cwd (v : option nat) (r : proc) : proc :=
  mk_proc (p_sz r) (p_rss r) (p_pgdir r) (p_kstack r) (p_state r) (p_pid r) (p_parent r) (p_tf r) (p_context r) (p_chan r) (p_killed r) (p_ofile r) v (p_name r).
Definition set_p_name (v : list Z) (r : proc) : proc :=
  mk_proc (p_sz r) (p_rss r) (p_pgdir r) (p_kstack r) (p_state r) (p_pid r) (p_parent r) (p_tf r) (p_context r) (p_chan r) (p_killed r) (p_ofile r) (p_cwd r) v.

Definition set_sl_locked (v : Z) (r : sleeplock) : sleeplock :=
  mk_sleeplock v (sl_pid r).
Definition set_sl_pid (v : Z) (r : sleeplock) : sleeplock :=
  mk_sleeplock (sl_locked r) v.

Definition set_b_flags (v : Z) (r : buf) : buf :=
  mk_buf v (b_dev r) (b_blockno r) (b_lock r) (b_refcnt r) (b_data r).
Definition set_b_dev (v : Z) (r : buf) : buf :=
  mk_buf (b_flags r) v (b_blockno r) (b_lock r) (b_refcnt r) (b_data r).
Definition set_b_blockno (v : Z) (r : buf) : buf :=
  mk_buf (b_flags r) (b_dev r) v (b_lock r) (b_refcnt r) (b_data r).
Definition set_b_lock (v : sleeplock) (r : buf) : buf :=
  mk_buf (b_flags r) (b_dev r) (b_blockno r) v (b_refcnt r) (b_data r).
Definition set_b_refcnt (v : Z) (r : buf) : buf :=
  mk_buf (b_flags r) (b_dev r) (b_blockno r) (b_lock r) v (b_data r).
Definition set_b_data (v : list Z) (r : buf) : buf :=
  mk_buf (b_flags r) (b_dev r) (b_blockno r) (b_lock r) (b_refcnt r) v.

Definition set_lg_start (v : Z) (r : log) : log :=
  mk_log v (lg_size r) (lg_outstanding r) (lg_committing r) (lg_dev r) (lh_n r) (lh_block r).
Definition set_lg_size (v : Z) (r : log) : log :=
  mk_log (lg_start r) v (lg_outstanding r) (lg_committing r) (lg_dev r) (lh_n r) (lh_block r).
Definition set_lg_outstanding (v : Z) (r : log) : log :=
  mk_log (lg_start r) (lg_size r) v (lg_committing r) (lg_dev r) (lh_n r) (lh_block r).
Definition set_lg_committing (v : Z) (r : log) : log :=
  mk_log (lg_start r) (lg_size r) (lg_outstanding r) v (lg_dev r) (lh_n r) (lh_block r).
Definition set_lg_dev (v : Z) (r : log) : log :=
  mk_log (lg_start r) (lg_size r) (lg_outstanding r) (lg_committing r) v (lh_n r) (lh_block r).
Definition set_lh_n (v : Z) (r : log) : log :=
  mk_log (lg_start r) (lg_size r) (lg_outstanding r) (lg_committing r) (lg_dev r) v (lh_block r).
Definition set_lh_block (v : list Z) (r : log) : log :=
  mk_log (lg_start r) (lg_size r) (lg_outstanding r) (lg_committing r) (lg_dev r) (lh_n r) v.

Definition set_sb_size (v : Z) (r : superblock) : superblock :=
  mk_sb v (sb_nblocks r) (sb_ninodes r) (sb_nlog r) (sb_logstart r) (sb_inodestart r) (sb_bmapstart r) (sb_swapblockstart r) (sb_nswapblocks r).
Definition set_sb_nblocks (v : Z) (r : superblock) : superblock :=
  mk_sb (sb_size r) v (sb_ninodes r) (sb_nlog r) (sb_logstart r) (sb_inodestart r) (sb_bmapstart r) (sb_swapblockstart r) (sb_nswapblocks r).
Definition set_sb_ninodes (v : Z) (r : superblock) : superblock :=
  mk_sb (sb_size r) (sb_nblocks r) v (sb_nlog r) (sb_logstart r) (sb_inodestart r) (sb_bmapstart r) (sb_swapblockstart r) (sb_nswapblocks r).
Definition set_sb_nlog (v : Z) (r : superblock) : superblock :=
  mk_sb (sb_size r) (sb_nblocks r) (sb_ninodes r) v (sb_logstart r) (sb_inodestart r) (sb_bmapstart r) (sb_swapblockstart r) (sb_nswapblocks r).
Definition set_sb_logstart (v : Z) (r : superblock) : superblock :=
  mk_sb (sb_size r) (sb_nblocks r) (sb_ninodes r) (sb_nlog r) v (sb_inodestart r) (sb_bmapstart r) (sb_swapblockstart r) (sb_nswapblocks r).
Definition set_sb_inodestart (v : Z) (r : superblock) : superblock :=
  mk_sb (sb_size r) (sb_nblocks r) (sb_ninodes r) (sb_nlog r) (sb_logstart r) v (sb_bmapstart r) (sb_swapblockstart r) (sb_nswapblocks r).
Definition set_sb_bmapstart (v : Z) (r : superblock) : superblock :=
  mk_sb (sb_size r) (sb_nblocks r) (sb_ninodes r) (sb_nlog r) (sb_logstart r) (sb_inodestart r) v (sb_swapblockstart r) (sb_nswapblocks r).
Definition set_sb_swapblockstart (v : Z) (r : superblock) : superblock :=
  mk_sb (sb_size r) (sb_nblocks r) (sb_ninodes r) (sb_nlog r) (sb_logstart r) (sb_inodestart r) (sb_bmapstart r) v (sb_nswapblocks r).
Definition set_sb_nswapblocks (v : Z) (r : superblock) : superblock :=
  mk_sb (sb_size r) (sb_nblocks r) (sb_ninodes r) (sb_nlog r) (sb_logstart r) (sb_inodestart r) (sb_bmapstart r) (sb_swapblockstart r) v.

Definition set_i_dev (v : Z) (r : inode) : inode :=
  mk_inode v (i_inum r) (i_ref r) (i_lock r) (i_valid r) (i_type r) (i_major r) (i_minor r) (i_nlink r) (i_size r) (i_addrs r).
Definition set_i_inum (v : Z) (r : inode) : inode :=
  mk_inode (i_dev r) v (i_ref r) (i_lock r) (i_valid r) (i_type r) (i_major r) (i_minor r) (i_nlink r) (i_size r) (i_addrs r).
Definition set_i_ref (v : Z) (r : inode) : inode :=
  mk_inode (i_dev r) (i_inum r) v (i_lock r) (i_valid r) (i_type r) (i_major r) (i_minor r) (i_nlink r) (i_size r) (i_addrs r).
Definition set_i_lock (v : sleeplock) (r : inode) : inode :=
  mk_inode (i_dev r) (i_inum r) (i_ref r) v (i_valid r) (i_type r) (i_major r) (i_minor r) (i_nlink r) (i_size r) (i_addrs r).
Definition set_i_valid (v : Z) (r : inode) : inode :=
  mk_inode (i_dev r) (i_inum r) (i_ref r) (i_lock r) v (i_type r) (i_major r) (i_minor r) (i_nlink r) (i_size r) (i_addrs r).
Definition set_i_type (v : Z) (r : inode) : inode :=
  mk_inode (i_dev r) (i_inum r) (i_ref r) (i_lock r) (i_valid r) v (i_major r) (i_minor r) (i_nlink r) (i_size r) (i_addrs r).
Definition set_i_major (v : Z) (r : inode) : inode :=
  mk_inode (i_dev r) (i_inum r) (i_ref r) (i_lock r) (i_valid r) (i_type r) v (i_minor r) (i_nlink r) (i_size r) (i_addrs r).
Definition set_i_minor (v : Z) (r : inode) : inode :=
  mk_inode (i_dev r) (i_inum r) (i_ref r) (i_lock r) (i_valid r) (i_type r) (i_major r) v (i_nlink r) (i_size r) (i_addrs r).
Definition set_i_nlink (v : Z) (r : inode) : inode :=
  mk_inode (i_dev r) (i_inum r) (i_ref r) (i_lock r) (i_valid r) (i_type r) (i_major r) (i_minor r) v (i_size r) (i_addrs r).
Definition set_i_size (v : Z) (r : inode) : inode :=
  mk_inode (i_dev r) (i_inum r) (i_ref r) (i_lock r) (i_valid r) (i_type r) (i_major r) (i_minor r) (i_nlink r) v (i_addrs r).
Definition set_i_addrs (v : list Z) (r : inode) : inode :=
  mk_inode (i_dev r) (i_inum r) (i_ref r) (i_lock r) (i_valid r) (i_type r) (i_major r) (i_minor r) (i_nlink r) (i_size r) v.

Definition set_f_type (v : filetype) (r : file) : file :=
  mk_file v (f_ref r) (f_readable r) (f_writable r) (f_pipe r) (f_ip r) (f_off r).
Definition set_f_ref (v : Z) (r : file) : file :=
  mk_file (f_type r) v (f_readable r) (f_writable r) (f_pipe r) (f_ip r) (f_off r).
Definition set_f_readable (v : Z) (r : file) : file :=
  mk_file (f_type r) (f_ref r) v (f_writable r) (f_pipe r) (f_ip r) (f_off r).
Definition set_f_writable (v : Z) (r : file) : file :=
  mk_file (f_type r) (f_ref r) (f_readable r) v (f_pipe r) (f_ip r) (f_off r).
Definition set_f_pipe (v : Z) (r : file) : file :=
  mk_file (f_type r) (f_ref r) (f_readable r) (f_writable r) v (f_ip r) (f_off r).
Definition set_f_ip (v : nat) (r : file) : file :=
  mk_file (f_type r) (f_ref r) (f_readable r) (f_writable r) (f_pipe r) v (f_off r).
Definition set_f_off (v : Z) (r : file) : file :=
  mk_file (f_type r) (f_ref r) (f_readable r) (f_writable r) (f_pipe r) (f_ip r) v.

Definition set_pi_data (v : list Z) (r : pipe) : pipe :=
  mk_pipe v (pi_nread r) (pi_nwrite r) (pi_readopen r) (pi_writeopen r).
Definition set_pi_nread (v : Z) (r : pipe) : pipe :=
  mk_pipe (pi_data r) v (pi_nwrite r) (pi_readopen r) (pi_writeopen r).
Definition set_pi_nwrite (v : Z) (r : pipe) : pipe :=
  mk_pipe (pi_data r) (pi_nread r) v (pi_readopen r) (pi_writeopen r).
Definition set_pi_readopen (v : Z) (r : pipe) : pipe :=
  mk_pipe (pi_data r) (pi_nread r) (pi_nwrite r) v (pi_writeopen r).
Definition set_pi_writeopen (v : Z) (r : pipe) : pipe :=
  mk_pipe (pi_data r) (pi_nread r) (pi_nwrite r) (pi_readopen r) v.

Definition set_k_mem (v : mem) (r : kstate) : kstate :=
  mk_kstate v (k_freelist r) (k_nfree r) (k_use_lock r) (k_global_var r) (k_rmap r) (k_swap r) (k_proc r) (k_cur r) (k_nextpid r) (k_initproc r) (k_held r) (k_buf r) (k_lru r) (k_disk r) (k_disksize r) (k_cr2 r) (k_cr3 r) (k_esp0 r) (k_kpgdir r) (k_log r) (k_sb r) (k_inode r) (k_file r) (k_pipe r) (k_ticks r).
Definition set_k_freelist (v : Z) (r : kstate) : kstate :=
  mk_kstate (k_mem r) v (k_nfree r) (k_use_lock r) (k_global_var r) (k_rmap r) (k_swap r) (k_proc r) (k_cur r) (k_nextpid r) (k_initproc r) (k_held r) (k_buf r) (k_lru r) (k_disk r) (k_disksize r) (k_cr2 r) (k_cr3 r) (k_esp0 r) (k_kpgdir r) (k_log r) (k_sb r) (k_inode r) (k_file r) (k_pipe r) (k_ticks r).
Definition set_k_nfree (v : Z) (r : kstate) : kstate :=
  mk_kstate (k_mem r) (k_freelist r) v (k_use_lock r) (k_global_var r) (k_rmap r) (k_swap r) (k_proc r) (k_cur r) (k_nextpid r) (k_initproc r) (k_held r) (k_buf r) (k_lru r) (k_disk r) (k_disksize r) (k_cr2 r) (k_cr3 r) (k_esp0 r) (k_kpgdir r) (k_log r) (k_sb r) (k_inode r) (k_file r) (k_pipe r) (k_ticks r).
Definition set_k_use_lock (v : bool) (r : kstate) : kstate :=
  mk_kstate (k_mem r) (k_freelist r) (k_nfree r) v (k_global_var r) (k_rmap r) (k_swap r) (k_proc r) (k_cur r) (k_nextpid r) (k_initproc r) (k_held r) (k_buf r) (k_lru r) (k_disk r) (k_disksize r) (k_cr2 r) (k_cr3 r) (k_esp0 r) (k_kpgdir r) (k_log r) (k_sb r) (k_inode r) (k_file r) (k_pipe r) (k_ticks r).
Definition set_k_global_var (v : Z) (r : kstate) : kstate :=
  mk_kstate (k_mem r) (k_freelist r) (k_nfree r) (k_use_lock r) v (k_rmap r) (k_swap r) (k_proc r) (k_cur r) (k_nextpid r) (k_initproc r) (k_held r) (k_buf r) (k_lru r) (k_disk r) (k_disksize r) (k_cr2 r) (k_cr3 r) (k_esp0 r) (k_kpgdir r) (k_log r) (k_sb r) (k_inode r) (k_file r) (k_pipe r) (k_ticks r).
Definition set_k_rmap (v : list rmap_struct) (r : kstate) : kstate :=
  mk_kstate (k_mem r) (k_freelist r) (k_nfree r) (k_use_lock r) (k_global_var r) v (k_swap r) (k_proc r) (k_cur r) (k_nextpid r) (k_initproc r) (k_held r) (k_buf r) (k_lru r) (k_disk r) (k_disksize r) (k_cr2 r) (k_cr3 r) (k_esp0 r) (k_kpgdir r) (k_log r) (k_sb r) (k_inode r) (k_file r) (k_pipe r) (k_ticks r).
Definition set_k_swap (v : list swapslot) (r : kstate) : kstate :=
  mk_kstate (k_mem r) (k_freelist r) (k_nfree r) (k_use_lock r) (k_global_var r) (k_rmap r) v (k_proc r) (k_cur r) (k_nextpid r) (k_initproc r) (k_held r) (k_buf r) (k_lru r) (k_disk r) (k_disksize r) (k_cr2 r) (k_cr3 r) (k_esp0 r) (k_kpgdir r) (k_log r) (k_sb r) (k_inode r) (k_file r) (k_pipe r) (k_ticks r).
Definition set_k_proc (v : list proc) (r : kstate) : kstate :=
  mk_kstate (k_mem r) (k_freelist r) (k_nfree r) (k_use_lock r) (k_global_var r) (k_rmap r) (k_swap r) v (k_cur r) (k_nextpid r) (k_initproc r) (k_held r) (k_buf r) (k_lru r) (k_disk r) (k_disksize r) (k_cr2 r) (k_cr3 r) (k_esp0 r) (k_kpgdir r) (k_log r) (k_sb r) (k_inode r) (k_file r) (k_pipe r) (k_ticks r).
Definition set_k_cur (v : option nat) (r : kstate) : kstate :=
  mk_kstate (k_mem r) (k_freelist r) (k_nfree r) (k_use_lock r) (k_global_var r) (k_rmap r) (k_swap r) (k_proc r) v (k_nextpid r) (k_initproc r) (k_held r) (k_buf r) (k_lru r) (k_disk r) (k_disksize r) (k_cr2 r) (k_cr3 r) (k_esp0 r) (k_kpgdir r) (k_log r) (k_sb r) (k_inode r) (k_file r) (k_pipe r) (k_ticks r).
Definition set_k_nextpid (v : Z) (r : kstate) : kstate :=
  mk_kstate (k_mem r) (k_freelist r) (k_nfree r) (k_use_lock r) (k_global_var r) (k_rmap r) (k_swap r) (k_proc r) (k_cur r) v (k_initproc r) (k_held r) (k_buf r) (k_lru r) (k_disk r) (k_disksize r) (k_cr2 r) (k_cr3 r) (k_esp0 r) (k_kpgdir r) (k_log r) (k_sb r) (k_inode r) (k_file r) (k_pipe r) (k_ticks r).
Definition set_k_initproc (v : option nat) (r : kstate) : kstate :=
  mk_kstate (k_mem r) (k_freelist r) (k_nfree r) (k_use_lock r) (k_global_var r) (k_rmap r) (k_swap r) (k_proc r) (k_cur r) (k_nextpid r) v (k_held r) (k_buf r) (k_lru r) (k_disk r) (k_disksize r) (k_cr2 r) (k_cr3 r) (k_esp0 r) (k_kpgdir r) (k_log r) (k_sb r) (k_inode r) (k_file r) (k_pipe r) (k_ticks r).
Definition set_k_held (v : list lock) (r : kstate) : kstate :=
  mk_kstate (k_mem r) (k_freelist r) (k_nfree r) (k_use_lock r) (k_global_var r) (k_rmap r) (k_swap r) (k_proc r) (k_cur r) (k_nextpid r) (k_initproc r) v (k_buf r) (k_lru r) (k_disk r) (k_disksize r) (k_cr2 r) (k_cr3 r) (k_esp0 r) (k_kpgdir r) (k_log r) (k_sb r) (k_inode r) (k_file r) (k_pipe r) (k_ticks r).
Definition set_k_buf (v : list buf) (r : kstate) : kstate :=
  mk_kstate (k_mem r) (k_freelist r) (k_nfree r) (k_use_lock r) (k_global_var r) (k_rmap r) (k_swap r) (k_proc r) (k_cur r) (k_nextpid r) (k_initproc r) (k_held r) v (k_lru r) (k_disk r) (k_disksize r) (k_cr2 r) (k_cr3 r) (k_esp0 r) (k_kpgdir r) (k_log r) (k_sb r) (k_inode r) (k_file r) (k_pipe r) (k_ticks r).
Definition set_k_lru (v : list nat) (r : kstate) : kstate :=
  mk_kstate (k_mem r) (k_freelist r) (k_nfree r) (k_use_lock r) (k_global_var r) (k_rmap r) (k_swap r) (k_proc r) (k_cur r) (k_nextpid r) (k_initproc r) (k_held r) (k_buf r) v (k_disk r) (k_disksize r) (k_cr2 r) (k_cr3 r) (k_esp0 r) (k_kpgdir r) (k_log r) (k_sb r) (k_inode r) (k_file r) (k_pipe r) (k_ticks r).
Definition set_k_disk (v : list (Z * list Z)) (r : kstate) : kstate :=
  mk_kstate (k_mem r) (k_freelist r) (k_nfree r) (k_use_lock r) (k_global_var r) (k_rmap r) (k_swap r) (k_proc r) (k_cur r) (k_nextpid r) (k_initproc r) (k_held r) (k_buf r) (k_lru r) v (k_disksize r) (k_cr2 r) (k_cr3 r) (k_esp0 r) (k_kpgdir r) (k_log r) (k_sb r) (k_inode r) (k_file r) (k_pipe r) (k_ticks r).
Definition set_k_disksize (v : Z) (r : kstate) : kstate :=
  mk_kstate (k_mem r) (k_freelist r) (k_nfree r) (k_use_lock r) (k_global_var r) (k_rmap r) (k_swap r) (k_proc r) (k_cur r) (k_nextpid r) (k_initproc r) (k_held r) (k_buf r) (k_lru r) (k_disk r) v (k_cr2 r) (k_cr3 r) (k_esp0 r) (k_kpgdir r) (k_log r) (k_sb r) (k_inode r) (k_file r) (k_pipe r) (k_ticks r).
Definition set_k_cr2 (v : Z) (r : kstate) : kstate :=
  mk_kstate (k_mem r) (k_freelist r) (k_nfree r) (k_use_lock r) (k_global_var r) (k_rmap r) (k_swap r) (k_proc r) (k_cur r) (k_nextpid r) (k_initproc r) (k_held r) (k_buf r) (k_lru r) (k_disk r) (k_disksize r) v (k_cr3 r) (k_esp0 r) (k_kpgdir r) (k_log r) (k_sb r) (k_inode r) (k_file r) (k_pipe r) (k_ticks r).
Definition set_k_cr3 (v : Z) (r : kstate) : kstate :=
  mk_kstate (k_mem r) (k_freelist r) (k_nfree r) (k_use_lock r) (k_global_var r) (k_rmap r) (k_swap r) (k_proc r) (k_cur r) (k_nextpid r) (k_initproc r) (k_held r) (k_buf r) (k_lru r) (k_disk r) (k_disksize r) (k_cr2 r) v (k_esp0 r) (k_kpgdir r) (k_log r) (k_sb r) (k_inode r) (k_file r) (k_pipe r) (k_ticks r).
Definition set_k_esp0 (v : Z) (r : kstate) : kstate :=
  mk_kstate (k_mem r) (k_freelist r) (k_nfree r) (k_use_lock r) (k_global_var r) (k_rmap r) (k_swap r) (k_proc r) (k_cur r) (k_nextpid r) (k_initproc r) (k_held r) (k_buf r) (k_lru r) (k_disk r) (k_disksize r) (k_cr2 r) (k_cr3 r) v (k_kpgdir r) (k_log r) (k_sb r) (k_inode r) (k_file r) (k_pipe r) (k_ticks r).
Definition set_k_kpgdir (v : Z) (r : kstate) : kstate :=
  mk_kstate (k_mem r) (k_freelist r) (k_nfree r) (k_use_lock r) (k_global_var r) (k_rmap r) (k_swap r) (k_proc r) (k_cur r) (k_nextpid r) (k_initproc r) (k_held r) (k_buf r) (k_lru r) (k_disk r) (k_disksize r) (k_cr2 r) (k_cr3 r) (k_esp0 r) v (k_log r) (k_sb r) (k_inode r) (k_file r) (k_pipe r) (k_ticks r).
Definition set_k_log (v : log) (r : kstate) : kstate :=
  mk_kstate (k_mem r) (k_freelist r) (k_nfree r) (k_use_lock r) (k_global_var r) (k_rmap r) (k_swap r) (k_proc r) (k_cur r) (k_nextpid r) (k_initproc r) (k_held r) (k_buf r) (k_lru r) (k_disk r) (k_disksize r) (k_cr2 r) (k_cr3 r) (k_esp0 r) (k_kpgdir r) v (k_sb r) (k_inode r) (k_file r) (k_pipe r) (k_ticks r).
Definition set_k_sb (v : superblock) (r : kstate) : kstate :=
  mk_kstate (k_mem r) (k_freelist r) (k_nfree r) (k_use_lock r) (k_global_var r) (k_rmap r) (k_swap r) (k_proc r) (k_cur r) (k_nextpid r) (k_initproc r) (k_held r) (k_buf r) (k_lru r) (k_disk r) (k_disksize r) (k_cr2 r) (k_cr3 r) (k_esp0 r) (k_kpgdir r) (k_log r) v (k_inode r) (k_file r) (k_pipe r) (k_ticks r).
Definition set_k_inode (v : list inode) (r : kstate) : kstate :=
  mk_kstate (k_mem r) (k_freelist r) (k_nfree r) (k_use_lock r) (k_global_var r) (k_rmap r) (k_swap r) (k_proc r) (k_cur r) (k_nextpid r) (k_initproc r) (k_held r) (k_buf r) (k_lru r) (k_disk r) (k_disksize r) (k_cr2 r) (k_cr3 r) (k_esp0 r) (k_kpgdir r) (k_log r) (k_sb r) v (k_file r) (k_pipe r) (k_ticks r).
Definition set_k_file (v : list file) (r : kstate) : kstate :=
  mk_kstate (k_mem r) (k_freelist r) (k_nfree r) (k_use_lock r) (k_global_var r) (k_rmap r) (k_swap r) (k_proc r) (k_cur r) (k_nextpid r) (k_initproc r) (k_held r) (k_buf r) (k_lru r) (k_disk r) (k_disksize r) (k_cr2 r) (k_cr3 r) (k_esp0 r) (k_kpgdir r) (k_log r) (k_sb r) (k_inode r) v (k_pipe r) (k_ticks r).
Definition set_k_pipe (v : gmap Z pipe) (r : kstate) : kstate :=
  mk_kstate (k_mem r) (k_freelist r) (k_nfree r) (k_use_lock r) (k_global_var r) (k_rmap r) (k_swap r) (k_proc r) (k_cur r) (k_nextpid r) (k_initproc r) (k_held r) (k_buf r) (k_lru r) (k_disk r) (k_disksize r) (k_cr2 r) (k_cr3 r) (k_esp0 r) (k_kpgdir r) (k_log r) (k_sb r) (k_inode r) (k_file r) v (k_ticks r).
Definition set_k_ticks (v : Z) (r : kstate) : kstate :=
  mk_kstate (k_mem r) (k_freelist r) (k_nfree r) (k_use_lock r) (k_global_var r) (k_rmap r) (k_swap r) (k_proc r) (k_cur r) (k_nextpid r) (k_initproc r) (k_held r) (k_buf r) (k_lru r) (k_disk r) (k_disksize r) (k_cr2 r) (k_cr3 r) (k_esp0 r) (k_kpgdir r) (k_log r) (k_sb r) (k_inode r) (k_file r) (k_pipe r) v.

(** Reduce projections of updated records. *)
Ltac ksimpl := cbn [refcount pte_id present_id sw_start page_perm is_free sw_pte_id sw_proc_id sw_cnt p_sz p_rss p_pgdir p_kstack p_state p_pid p_parent p_tf p_context p_chan p_killed p_ofile p_cwd p_name sl_locked sl_pid b_flags b_dev b_blockno b_lock b_refcnt b_data lg_start lg_size lg_outstanding lg_committing lg_dev lh_n lh_block sb_size sb_nblocks sb_ninodes sb_nlog sb_logstart sb_inodestart sb_bmapstart sb_swapblockstart sb_nswapblocks i_dev i_inum i_ref i_lock i_valid i_type i_major i_minor i_nlink i_size i_addrs f_type f_ref f_readable f_writable f_pipe f_ip f_off pi_data pi_nread pi_nwrite pi_readopen pi_writeopen k_mem k_freelist k_nfree k_use_lock k_global_var k_rmap k_swap k_proc k_cur k_nextpid k_initproc k_held k_buf k_lru k_disk k_disksize k_cr2 k_cr3 k_esp0 k_kpgdir k_log k_sb k_inode k_file k_pipe k_ticks
  set_refcount set_pte_id set_present_id set_sw_start set_page_perm set_is_free set_sw_pte_id set_sw_proc_id set_sw_cnt set_p_sz set_p_rss set_p_pgdir set_p_kstack set_p_state set_p_pid set_p_parent set_p_tf set_p_context set_p_chan set_p_killed set_p_ofile set_p_cwd set_p_name set_sl_locked set_sl_pid set_b_flags set_b_dev set_b_blockno set_b_lock set_b_refcnt set_b_data set_lg_start set_lg_size set_lg_outstanding set_lg_committing set_lg_dev set_lh_n set_lh_block set_sb_size set_sb_nblocks set_sb_ninodes set_sb_nlog set_sb_logstart set_sb_inodestart set_sb_bmapstart set_sb_swapblockstart set_sb_nswapblocks set_i_dev set_i_inum set_i_ref set_i_lock set_i_valid set_i_type set_i_major set_i_minor set_i_nlink set_i_size set_i_addrs set_f_type set_f_ref set_f_readable set_f_writable set_f_pipe set_f_ip set_f_off set_pi_data set_pi_nread set_pi_nwrite set_pi_readopen set_pi_writeopen set_k_mem set_k_freelist set_k_nfree set_k_use_lock set_k_global_var set_k_rmap set_k_swap set_k_proc set_k_cur set_k_nextpid set_k_initproc set_k_held set_k_buf set_k_lru set_k_disk set_k_disksize set_k_cr2 set_k_cr3 set_k_esp0 set_k_kpgdir set_k_log set_k_sb set_k_inode set_k_file set_k_pipe set_k_ticks]
  in *.

(** ** Primitive operations *)

Definition load (a : Z) : K Z := gets (fun s => ld (k_mem s) a).
Definition modify_mem (f : mem -> mem) : K unit :=
  modify (fun s => set_k_mem (f (k_mem s)) s).
Definition store (a v : Z) : K unit := modify_mem (fun m => st m a v).

(** [*p] for a pointer that may be null. *)
Definition deref (p : Z) : K Z := if p =? 0 then fail Trap else load p.

(** Array accesses. *)
Definition zlookup {A} (l : list A) (i : Z) : option A :=
  if i <? 0 then None else l !! Z.to_nat i.
Definition zinsert {A} (i : Z) (x : A) (l : list A) : list A :=
  if i <? 0 then l else <[Z.to_nat i := x]> l.

Definition get_rmap (i : Z) : K rmap_struct :=
  s ← gets k_rmap; the (zlookup s i).
Definition put_rmap (i : Z) (r : rmap_struct) : K unit :=
  modify (fun s => set_k_rmap (zinsert i r (k_rmap s)) s).
Definition get_swap (i : Z) : K swapslot :=
  s ← gets k_swap; the (zlookup s i).
Definition put_swap (i : Z) (r : swapslot) : K unit :=
  modify (fun s => set_k_swap (zinsert i r (k_swap s)) s).
Definition get_proc (i : nat) : K proc :=
  s ← gets k_proc; the (s !! i).
Definition put_proc (i : nat) (p : proc) : K unit :=
  modify (fun s => set_k_proc (<[i := p]> (k_proc s)) s).
Definition upd_proc (i : nat) (f : proc -> proc) : K unit :=
  p ← get_proc i; put_proc i (f p).

Definition upd_log (f : log -> log) : K unit := modify (fun s => set_k_log (f (k_log s)) s).
Definition get_inode (i : nat) : K inode := s ← gets k_inode; the (s !! i).
Definition put_inode (i : nat) (x : inode) : K unit :=
  modify (fun s => set_k_inode (<[i := x]> (k_inode s)) s).
Definition upd_inode (i : nat) (f : inode -> inode) : K unit :=
  x ← get_inode i; put_inode i (f x).
Definition get_file (i : nat) : K file := s ← gets k_file; the (s !! i).
Definition put_file (i : nat) (x : file) : K unit :=
  modify (fun s => set_k_file (<[i := x]> (k_file s)) s).
Definition upd_file (i : nat) (f : file -> file) : K unit :=
  x ← get_file i; put_file i (f x).
Definition get_pipe (a : Z) : K pipe := s ← gets k_pipe; the (s !! a).
Definition put_pipe (a : Z) (x : pipe) : K unit :=
  modify (fun s => set_k_pipe (<[a := x]> (k_pipe s)) s).
Definition upd_pipe (a : Z) (f : pipe -> pipe) : K unit :=
  x ← get_pipe a; put_pipe a (f x).

(** [myproc()], which is null while the scheduler runs. *)
Definition myproc : K (option nat) := gets k_cur.
(** [myproc()] where it is dereferenced. *)
Definition curproc : K nat := c ← myproc; the c.

(** Console output is not part of the state. *)
Definition cprintf (fmt : string) : K unit := mret tt.

Definition lcr3 (v : Z) : K unit := modify (set_k_cr3 v).
Definition rcr2 : K Z := gets k_cr2.

(** ** Spin locks *)

Fixpoint remove_lock (l : lock) (h : list lock) : option (list lock) :=
  match h with
  | [] => None
  | l' :: h' => if decide (l = l') then Some h' else cons l' <$> remove_lock l h'
  end.

Definition acquire (l : lock) : K unit :=
  h ← gets k_held;
  if bool_decide (l ∈ h) then panic "acquire" else modify (set_k_held (l :: h)).
Definition release (l : lock) : K unit :=
  h ← gets k_held;
  match remove_lock l h with
  | Some h' => modify (set_k_held h')
  | None => panic "release"
  end.
Definition holding (l : lock) : K bool :=
  h ← gets k_held; mret (bool_decide (l ∈ h)).

(** ** Laws *)

Lemma kstate_held_eta s : set_k_held (k_held s) s = s.
Proof. by destruct s. Qed.
Lemma kstate_held_held h h' s : set_k_held h (set_k_held h' s) = set_k_held h s.
Proof. done. Qed.

Lemma wp_acquire l Q s : l ∉ k_held s -> Q tt (set_k_held (l :: k_held s) s) -> wp (acquire l) Q s.
Proof.
  intros Hl HQ. unfold acquire. wp_steps. by rewrite bool_decide_false by done.
Qed.

(** Releasing the lock taken last gives back the state before. *)
Lemma wp_release l h Q s : k_held s = l :: h -> Q tt (set_k_held h s) -> wp (release l) Q s.
Proof.
  intros Hl HQ. unfold release. wp_steps. rewrite Hl. cbn. by rewrite decide_True.
Qed.

Lemma acquire_held l s : l ∈ k_held s -> acquire l s = Err (Panic "acquire").
Proof.
  intros Hl. unfold acquire, mbind, M_bind, gets. by rewrite bool_decide_true.
Qed.

Lemma zlookup_lt {A} (l : list A) i x : zlookup l i = Some x -> 0 <= i < Z.of_nat (length l).
Proof.
  unfold zlookup. case_if; [done|]. intros H%lookup_lt_Some. lia.
Qed.

Lemma zlookup_is_Some {A} (l : list A) i :
  0 <= i < Z.of_nat (length l) -> is_Some (zlookup l i).
Proof.
  intros. unfold zlookup. rewrite (proj2 (Z.ltb_ge _ _)) by lia.
  apply lookup_lt_is_Some. lia.
Qed.

Lemma zlookup_zinsert {A} (l : list A) i j x :
  0 <= i < Z.of_nat (length l) ->
  zlookup (zinsert i x l) j = if decide (i = j) then Some x else zlookup l j.
Proof.
  intros Hi. unfold zlookup, zinsert. rewrite (proj2 (Z.ltb_ge i _)) by lia.
  case_if; [by rewrite decide_False by lia|].
  rewrite list_lookup_insert by lia.
  case_decide; case_decide; try done; lia.
Qed.

Lemma length_zinsert {A} (l : list A) i x : length (zinsert i x l) = length l.
Proof. unfold zinsert. case_if; [done|]. apply length_insert. Qed.

Lemma zinsert_zinsert {A} (l : list A) i x y : zinsert i x (zinsert i y l) = zinsert i x l.
Proof. unfold zinsert. case_if; [done|]. apply list_insert_insert_eq. Qed.

Lemma wp_get_rmap i r Q s : zlookup (k_rmap s) i = Some r -> Q r s -> wp (get_rmap i) Q s.
Proof. intros. unfold get_rmap. wp_steps. by eapply wp_the. Qed.
Lemma wp_get_swap i r Q s : zlookup (k_swap s) i = Some r -> Q r s -> wp (get_swap i) Q s.
Proof. intros. unfold get_swap. wp_steps. by eapply wp_the. Qed.
Lemma wp_get_proc i p Q s : k_proc s !! i = Some p -> Q p s -> wp (get_proc i) Q s.
Proof. intros. unfold get_proc. wp_steps. by eapply wp_the. Qed.
Lemma wp_upd_proc i f p Q s : k_proc s !! i = Some p ->
  Q tt (set_k_proc (<[i := f p]> (k_proc s)) s) -> wp (upd_proc i f) Q s.
Proof. intros. unfold upd_proc. wp_steps. eapply wp_get_proc; [done|]. by wp_steps. Qed.
Lemma wp_curproc c Q s : k_cur s = Some c -> Q c s -> wp curproc Q s.
Proof. intros Hc ?. unfold curproc, myproc. wp_steps. by eapply wp_the. Qed.
Lemma wp_load a Q s : Q (ld (k_mem s) a) s -> wp (load a) Q s.
Proof. done. Qed.
Lemma wp_store a v Q s : Q tt (set_k_mem (st (k_mem s) a v) s) -> wp (store a v) Q s.
Proof. done. Qed.
Lemma wp_modify_mem f Q s : Q tt (set_k_mem (f (k_mem s)) s) -> wp (modify_mem f) Q s.
Proof. done. Qed.
Lemma wp_cprintf fmt Q s : Q tt s -> wp (cprintf fmt) Q s.
Proof. done. Qed.
Lemma wp_deref p Q s : p <> 0 -> Q (ld (k_mem s) p) s -> wp (deref p) Q s.
Proof. intros. unfold deref. by rewrite (proj2 (Z.eqb_neq _ _)). Qed.
Lemma wp_get_inode i x Q s : k_inode s !! i = Some x -> Q x s -> wp (get_inode i) Q s.
Proof. intros. unfold get_inode. wp_steps. by eapply wp_the. Qed.
Lemma wp_upd_inode i f x Q s : k_inode s !! i = Some x ->
  Q tt (set_k_inode (<[i := f x]> (k_inode s)) s) -> wp (upd_inode i f) Q s.
Proof. intros. unfold upd_inode. wp_steps. eapply wp_get_inode; [done|]. by wp_steps. Qed.
Lemma wp_get_file i x Q s : k_file s !! i = Some x -> Q x s -> wp (get_file i) Q s.
Proof. intros. unfold get_file. wp_steps. by eapply wp_the. Qed.
Lemma wp_upd_file i f x Q s : k_file s !! i = Some x ->
  Q tt (set_k_file (<[i := f x]> (k_file s)) s) -> wp (upd_file i f) Q s.
Proof. intros. unfold upd_file. wp_steps. eapply wp_get_file; [done|]. by wp_steps. Qed.
Lemma wp_get_pipe a x Q s : k_pipe s !! a = Some x -> Q x s -> wp (get_pipe a) Q s.
Proof. intros. unfold get_pipe. wp_steps. by eapply wp_the. Qed.
Lemma wp_upd_pipe a f x Q s : k_pipe s !! a = Some x ->
  Q tt (set_k_pipe (<[a := f x]> (k_pipe s)) s) -> wp (upd_pipe a f) Q s.
Proof. intros. unfold upd_pipe. wp_steps. eapply wp_get_pipe; [done|]. by wp_steps. Qed.
