(* ===== verification/Sample.v ===== *)
(** * A small machine state

    A concrete kernel image and a concrete state, at which the theorems of
    the other files are instantiated: one process with one user page, and
    twelve free pages. *)

From Stdlib Require Import ZArith Lia.
From stdpp Require Import base strings numbers gmap list.
From S2P Require Import Prelude Mmu Memory Kernel.

Definition img : KernelImage :=
  Build_KernelImage 0x80300000 0x80200000 0x80101000 0x80102000.
#[global] Instance img_ok : KernelImageOk img.
Proof. split; cbn; unfold KERNLINK; klia. Qed.

(** The page directory, the page table and the user page of the process. *)
Definition pgdir0 : Z := 0x80300000.
Definition table0 : Z := 0x80301000.
Definition frame0 : Z := 0x80302000.
(** The free pages. *)
Definition free0 : list Z := (fun i => 0x80303000 + i * PGSIZE) <$> seqZ 0 12.

(** Words written one after the other. *)
Definition write_all (l : list (Z * Z)) (m : mem) : mem :=
  foldr (fun '(a, v) m => st m a v) m l.
Definition links (l : list Z) : list (Z * Z) := zip l (tail l).

Definition mem0 : mem :=
  write_all ([(pgdir0, Z.lor (V2P table0) 7); (table0, Z.lor (V2P frame0) 7)] ++ links free0) ∅.

Definition proc0 : proc :=
  mk_proc PGSIZE PGSIZE pgdir0 0 RUNNING 1 None 0 0 NoChan 0 (replicate 16 None) None [].
Definition unused_proc : proc :=
  mk_proc 0 0 0 0 UNUSED 0 None 0 0 NoChan 0 (replicate 16 None) None [].

Definition no_owner : rmap_struct := mk_rmap 0 (replicate 64 0) (replicate 64 0).
Definition one_owner (a : Z) : rmap_struct :=
  mk_rmap 1 (a :: replicate 63 0) (1 :: replicate 63 0).
Definition two_owners (a b : Z) : rmap_struct :=
  mk_rmap 2 (a :: b :: replicate 62 0) (1 :: 1 :: replicate 62 0).

Definition slot0 : swapslot := mk_swap 0 0 1 (replicate 64 0) (replicate 64 None) 0.
Definition buf0 : buf := mk_buf 0 0 0 (mk_sleeplock 0 0) 0 (replicate 512 0).

Definition log0 : log := mk_log 2002 30 0 0 1 0 (replicate 30 0).
Definition sb0 : superblock := mk_sb 3000 900 200 30 2002 2032 2058 2 2000.
Definition inode0 : inode := mk_inode 0 0 0 (mk_sleeplock 0 0) 0 0 0 0 0 0 (replicate 13 0).
Definition file0 : file := mk_file FD_NONE 0 0 0 0 0 0.

Definition state0 : kstate :=
  mk_kstate mem0 0x80303000 12 true 0
    (<[Z.to_nat (V2P frame0 / PGSIZE) := one_owner table0]> (replicate 1024 no_owner))
    (replicate 250 slot0) (proc0 :: replicate 63 unused_proc) (Some 0%nat) 2 (Some 0%nat) []
    (replicate 30 buf0) (seq 0 30) [] 3000 0 (V2P pgdir0) 0 0
    log0 sb0 (replicate 50 inode0) (replicate 100 file0) ∅ 0.

(** Reading a memory built by [write_all] at an aligned address. *)
Lemma ld_empty a : ld ∅ a = 0.
Proof. unfold ld, ldb. by rewrite !lookup_empty. Qed.

(** The word that [l] writes at [a]. *)
Fixpoint written (l : list (Z * Z)) (a : Z) : Z :=
  match l with
  | [] => 0
  | (b, v) :: l' => if b =? a then u32 v else written l' a
  end.

Lemma ld_write_all l a : Forall (fun bv => fst bv mod 4 = 0) l -> a mod 4 = 0 ->
  ld (write_all l ∅) a = written l a.
Proof.
  intros Hl Ha. induction Hl as [|[b v] l Hb _ IH]; [apply ld_empty|].
  cbn [write_all foldr written]. rewrite ld_st_aligned by done.
  destruct (Z.eqb_spec b a) as [->|].
  - by rewrite decide_True by done.
  - by rewrite decide_False by done.
Qed.

Lemma written_none l a : Forall (fun bv => fst bv <> a) l -> written l a = 0.
Proof.
  induction 1 as [|[b v] l Hb _ IH]; [done|]. cbn in *. by rewrite (proj2 (Z.eqb_neq _ _)).
Qed.

Lemma mem0_ld a : a mod 4 = 0 -> ld mem0 a =
  written ([(pgdir0, Z.lor (V2P table0) 7); (table0, Z.lor (V2P frame0) 7)] ++ links free0) a.
Proof. intros. apply ld_write_all; [|done]. vm_compute. repeat constructor. Qed.

(** Go through the words of [mem0]. *)
Ltac sample_words :=
  match goal with |- Forall ?P ?l => let l' := eval vm_compute in l in change (Forall P l') end;
  unfold pgdir0, table0, frame0 in *;
  repeat (apply List.Forall_cons; [cbn [fst]; lia|]); apply List.Forall_nil.

(** The directory and the table of the process have one entry each. *)
Lemma mem0_dir i : 0 <= i < 1024 ->
  ld mem0 (pgdir0 + 4 * i) = if decide (i = 0) then Z.lor (V2P table0) 7 else 0.
Proof.
  intros Hi. rewrite mem0_ld by (unfold pgdir0; zdiv). case_decide as Hd; [subst; done|].
  apply written_none. sample_words.
Qed.

Lemma mem0_table i : 0 <= i < 1024 ->
  ld mem0 (table0 + 4 * i) = if decide (i = 0) then Z.lor (V2P frame0) 7 else 0.
Proof.
  intros Hi. rewrite mem0_ld by (unfold table0; zdiv). case_decide as Hd; [subst; done|].
  apply written_none. sample_words.
Qed.
