(* ===== verification/Sleeplock.v ===== *)
(** * Waking processes and sleep locks

    [wakeup1] and [wakeup] of [proc.c], and [sleeplock.c].  A sleep lock is
    a field of the object it protects (a buffer, an inode), so its
    operations take the way to read and write that field, the spin lock
    inside it and its wait channel. *)

From Stdlib Require Import ZArith Lia.
From stdpp Require Import base strings numbers gmap list.
From S2P Require Import Prelude Mmu Memory Kernel.

(** ** Operations *)

Definition wake_proc (ch : chan) (p : proc) : proc :=
  if bool_decide (p_state p = SLEEPING) && bool_decide (p_chan p = ch)
  then set_p_state RUNNABLE p else p.
Definition wakeup1 (ch : chan) : K unit :=
  modify (fun s => set_k_proc (wake_proc ch <$> k_proc s) s).
Definition wakeup (ch : chan) : K unit :=
  acquire L_ptable;;
  wakeup1 ch;;
  release L_ptable.

Section sleeplock.
Variables (get : K sleeplock) (put : sleeplock -> K unit).
Variables (lk : lock) (ch : chan).

Definition initsleeplock : K unit := put (mk_sleeplock 0 0).

Definition acquiresleep : K unit :=
  acquire lk;;
  l ← get;
  if negb (sl_locked l =? 0) then fail Blocked (* sleep(lk, &lk->lk) *)
  else
    c ← curproc;
    p ← get_proc c;
    put (mk_sleeplock 1 (p_pid p));;
    release lk.

Definition releasesleep : K unit :=
  acquire lk;;
  put (mk_sleeplock 0 0);;
  wakeup ch;;
  release lk.

Definition holdingsleep : K bool :=
  acquire lk;;
  l ← get;
  r ← (if negb (sl_locked l =? 0)
       then c ← curproc; p ← get_proc c; mret (sl_pid l =? p_pid p)
       else mret false);
  release lk;;
  mret r.
End sleeplock.

(** ** Lemmas *)

(** The only effect on a process of being woken. *)
Definition woken (p p' : proc) : Prop :=
  p' = p \/ p_state p = SLEEPING /\ p' = set_p_state RUNNABLE p.
Definition procs_woken (ps ps' : list proc) : Prop := Forall2 woken ps ps'.

Lemma woken_refl p : woken p p.
Proof. by left. Qed.
Lemma woken_trans p q r : woken p q -> woken q r -> woken p r.
Proof. unfold woken. intros [->|[? ->]] [->|[? ->]]; auto. Qed.
Lemma procs_woken_refl ps : procs_woken ps ps.
Proof. apply Forall_Forall2_diag, Forall_forall. intros. apply woken_refl. Qed.
Lemma procs_woken_trans ps qs rs : procs_woken ps qs -> procs_woken qs rs -> procs_woken ps rs.
Proof. apply Forall2_trans. intros ???. apply woken_trans. Qed.

Lemma wake_proc_woken ch p : woken p (wake_proc ch p).
Proof.
  unfold wake_proc. destruct (bool_decide _) eqn:E; cbn; [|by left].
  apply bool_decide_eq_true in E. case_bool_decide; [by right|by left].
Qed.

Lemma wp_wakeup ch Q s : L_ptable ∉ k_held s ->
  Q tt (set_k_proc (wake_proc ch <$> k_proc s) s) -> wp (wakeup ch) Q s.
Proof.
  intros Hl HQ. unfold wakeup. wp_step. apply wp_acquire; [done|]. wp_steps.
  unfold wakeup1. wp_steps. eapply wp_release; [done|]. by destruct s.
Qed.
