(* ===== verification/Bio.v ===== *)
(** * The buffer cache and the disk

    [bio.c] and the disk driver of [memide.c].  The cache is the array of
    buffers and the order of its list, most recently used first; the disk is
    a map from block numbers to blocks.  [block_view] is the abstract disk:
    the contents of a block as the kernel sees it through the cache. *)

From Stdlib Require Import ZArith Lia.
From stdpp Require Import base strings numbers gmap list.
From S2P Require Import Prelude Mmu Memory Kernel Sample Sleeplock.

Definition BSIZE : Z := 512.
Definition B_VALID : Z := 0x2.
Definition B_DIRTY : Z := 0x4.

(** ** Operations *)

Definition get_buf (i : nat) : K buf := l ← gets k_buf; the (l !! i).
Definition put_buf (i : nat) (b : buf) : K unit :=
  modify (fun s => set_k_buf (<[i := b]> (k_buf s)) s).
Definition get_blk (i : nat) : K sleeplock := b ← get_buf i; mret (b_lock b).
Definition put_blk (i : nat) (l : sleeplock) : K unit :=
  b ← get_buf i; put_buf i (set_b_lock l b).

Definition b_acquiresleep (i : nat) : K unit :=
  acquiresleep (get_blk i) (put_blk i) (L_buf i).
Definition b_releasesleep (i : nat) : K unit :=
  releasesleep (put_blk i) (L_buf i) (ChBuf i).
Definition b_holdingsleep (i : nat) : K bool := holdingsleep (get_blk i) (L_buf i).

(** Each buffer in turn is linked in front of the list. *)
Definition binit : K unit :=
  modify (set_k_lru []);;
  _ ← for_ (R := unit) (seq 0 (Z.to_nat NBUF)) (fun i (_ : unit) =>
        initsleeplock (put_blk i);;
        modify (fun s => set_k_lru (i :: k_lru s) s);;
        mret (Next tt)) tt;
  mret tt.

(** A scan of the list for a buffer that satisfies [test]. *)
Definition scan (test : buf -> bool) (order : list nat) : K (option nat) :=
  bs ← gets k_buf;
  mret (snd <$> list_find (fun i => Is_true (from_option test false (bs !! i))) order).

Definition bget (dev blockno : Z) : K nat :=
  acquire L_bcache;;
  order ← gets k_lru;
  (* Is the block already cached? *)
  hit ← scan (fun b => (b_dev b =? dev) && (b_blockno b =? blockno)) order;
  match hit with
  | Some i =>
      b ← get_buf i;
      put_buf i (set_b_refcnt (u32 (b_refcnt b + 1)) b);;
      release L_bcache;;
      b_acquiresleep i;;
      mret i
  | None =>
      (* Not cached; recycle an unused buffer. *)
      free ← scan (fun b => (b_refcnt b =? 0) && (Z.land (b_flags b) B_DIRTY =? 0)) (rev order);
      match free with
      | Some i =>
          b ← get_buf i;
          put_buf i (set_b_refcnt 1 (set_b_flags 0 (set_b_blockno blockno (set_b_dev dev b))));;
          release L_bcache;;
          b_acquiresleep i;;
          mret i
      | None => panic "bget: no buffers"
      end
  end.

(** A block never written reads as zeroes. *)
Fixpoint disk_at (d : list (Z * list Z)) (n : Z) : list Z :=
  match d with
  | [] => replicate (Z.to_nat BSIZE) 0
  | (k, b) :: d' => if decide (k = n) then b else disk_at d' n
  end.
Definition disk_block (s : kstate) (n : Z) : list Z := disk_at (k_disk s) n.

Definition iderw (i : nat) : K unit :=
  h ← b_holdingsleep i;
  b ← get_buf i;
  if negb h then panic "iderw: buf not locked"
  else if Z.land (b_flags b) (Z.lor B_VALID B_DIRTY) =? B_VALID
  then panic "iderw: nothing to do"
  else if negb (b_dev b =? 1) then panic "iderw: request not for disk 1"
  else
    dsz ← gets k_disksize;
    if dsz <=? b_blockno b then panic "iderw: block out of range"
    else
      (if negb (Z.land (b_flags b) B_DIRTY =? 0) then
         put_buf i (set_b_flags (Z.land (b_flags b) (Z.lnot B_DIRTY)) b);;
         modify (fun s => set_k_disk ((b_blockno b, b_data b) :: k_disk s) s)
       else
         blk ← gets (fun s => disk_block s (b_blockno b));
         put_buf i (set_b_data blk b));;
      b' ← get_buf i;
      put_buf i (set_b_flags (Z.lor (b_flags b') B_VALID) b').

Definition bread (dev blockno : Z) : K nat :=
  i ← bget dev blockno;
  b ← get_buf i;
  when (Z.land (b_flags b) B_VALID =? 0) (iderw i);;
  mret i.

Definition bwrite (i : nat) : K unit :=
  h ← b_holdingsleep i;
  if negb h then panic "bwrite"
  else
    b ← get_buf i;
    put_buf i (set_b_flags (Z.lor (b_flags b) B_DIRTY) b);;
    iderw i.

Definition brelse (i : nat) : K unit :=
  h ← b_holdingsleep i;
  if negb h then panic "brelse"
  else
    b_releasesleep i;;
    acquire L_bcache;;
    b ← get_buf i;
    let n := u32 (b_refcnt b - 1) in
    put_buf i (set_b_refcnt n b);;
    when (n =? 0)
      (modify (fun s => set_k_lru (i :: filter (fun j => j <> i) (k_lru s)) s));;
    release L_bcache.

(** The bytes of memory [a .. a+n), and storing bytes at [a]. *)
Definition bytes (m : mem) (a n : Z) : list Z := (fun i => ldb m (a + i)) <$> seqZ 0 n.
Fixpoint put_bytes (m : mem) (a : Z) (l : list Z) : mem :=
  match l with
  | [] => m
  | b :: l' => put_bytes (stb m a b) (a + 1) l'
  end.

(** One iteration of [write_pag_to_disk]. *)
Definition write_block (page block : Z) : K unit :=
  buff ← bget ROOTDEV block;
  m ← gets k_mem;
  b ← get_buf buff;
  put_buf buff (set_b_data (bytes m page 512) b);;
  bwrite buff;;
  brelse buff.
Definition write_pag_to_disk (dev page block_id : Z) : K unit :=
  _ ← for_ (R := unit) (seqZ 0 8) (fun i (_ : unit) =>
        write_block (page + i * 512) (u32 (block_id + i));;
        mret (Next tt)) tt;
  mret tt.

(** One iteration of [read_page_from_disk]. *)
Definition read_block (block addr : Z) : K unit :=
  buff ← bread ROOTDEV block;
  b ← get_buf buff;
  modify_mem (fun m => put_bytes m addr (b_data b));;
  brelse buff.
Definition read_page_from_disk (slot addr : Z) : K unit :=
  _ ← for_ (R := unit) (seqZ 0 8) (fun i (_ : unit) =>
        read_block (u32 (slot + i)) (addr + i * 512);;
        mret (Next tt)) tt;
  mret tt.

(** ** Locks and buffers *)

(** The locks that the cache takes are free. *)
Definition bio_unlocked (s : kstate) : Prop :=
  (L_bcache ∉ k_held s) /\ (L_ptable ∉ k_held s) /\ forall i, L_buf i ∉ k_held s.

(** The process running has pid [pid]. *)
Definition cur_pid (s : kstate) (pid : Z) : Prop :=
  exists c p, k_cur s = Some c /\ k_proc s !! c = Some p /\ p_pid p = pid.

Lemma wp_get_buf i b Q s : k_buf s !! i = Some b -> Q b s -> wp (get_buf i) Q s.
Proof. intros. unfold get_buf. wp_steps. by eapply wp_the. Qed.

Lemma wp_get_blk i b Q s : k_buf s !! i = Some b -> Q (b_lock b) s -> wp (get_blk i) Q s.
Proof. intros. unfold get_blk. wp_step. eapply wp_get_buf; [done|]. by wp_steps. Qed.

Lemma wp_put_blk i b l Q s : k_buf s !! i = Some b ->
  Q tt (set_k_buf (<[i := set_b_lock l b]> (k_buf s)) s) -> wp (put_blk i l) Q s.
Proof. intros. unfold put_blk. wp_step. eapply wp_get_buf; [done|]. done. Qed.

Lemma wp_cur_pid {A} (f : Z -> K A) pid Q s : cur_pid s pid ->
  wp (f pid) Q s -> wp (c ← curproc; p ← get_proc c; f (p_pid p)) Q s.
Proof.
  intros (c & p & Hc & Hp & <-) HQ. wp_step. eapply wp_curproc; [done|].
  wp_step. by eapply wp_get_proc.
Qed.

Lemma wp_b_acquiresleep i b pid Q s :
  L_buf i ∉ k_held s -> k_buf s !! i = Some b -> sl_locked (b_lock b) = 0 -> cur_pid s pid ->
  Q tt (set_k_buf (<[i := set_b_lock (mk_sleeplock 1 pid) b]> (k_buf s)) s) ->
  wp (b_acquiresleep i) Q s.
Proof.
  intros Hl Hb Hlk Hpid HQ. unfold b_acquiresleep, acquiresleep.
  wp_step. apply wp_acquire; [done|]. wp_step. eapply wp_get_blk; [done|].
  rewrite Hlk. cbn.
  apply (wp_cur_pid (fun pid => put_blk i (mk_sleeplock 1 pid);; release (L_buf i)) pid); [done|].
  wp_step. eapply wp_put_blk; [done|]. eapply wp_release; [done|]. by destruct s.
Qed.

Lemma wp_b_holdingsleep i b pid Q s :
  L_buf i ∉ k_held s -> k_buf s !! i = Some b -> b_lock b = mk_sleeplock 1 pid -> cur_pid s pid ->
  Q true s -> wp (b_holdingsleep i) Q s.
Proof.
  intros Hl Hb Hlk Hpid HQ. unfold b_holdingsleep, holdingsleep.
  wp_step. apply wp_acquire; [done|]. wp_step. eapply wp_get_blk; [done|].
  rewrite Hlk. cbn. wp_step.
  apply (wp_cur_pid (fun q => mret (pid =? q)) pid); [done|]. wp_steps.
  eapply wp_release; [done|]. wp_steps. rewrite Z.eqb_refl. by destruct s.
Qed.

Lemma wp_b_releasesleep i b Q s :
  L_buf i ∉ k_held s -> L_ptable ∉ k_held s -> k_buf s !! i = Some b ->
  (forall ps, procs_woken (k_proc s) ps ->
     Q tt (set_k_proc ps (set_k_buf (<[i := set_b_lock (mk_sleeplock 0 0) b]> (k_buf s)) s))) ->
  wp (b_releasesleep i) Q s.
Proof.
  intros Hl Hpt Hb HQ. unfold b_releasesleep, releasesleep.
  wp_step. apply wp_acquire; [done|]. wp_step. eapply wp_put_blk; [done|].
  wp_step. apply wp_wakeup; [by intros [?|?]%elem_of_cons|].
  eapply wp_release; [done|].
  specialize (HQ (wake_proc (ChBuf i) <$> k_proc s)). destruct s. apply HQ.
  apply Forall2_fmap_r, Forall_Forall2_diag, Forall_forall. intros. apply wake_proc_woken.
Qed.

Lemma cur_pid_woken s s' pid :
  k_cur s' = k_cur s -> procs_woken (k_proc s) (k_proc s') -> cur_pid s pid -> cur_pid s' pid.
Proof.
  intros Hc Hw (c & p & ? & Hp & <-).
  destruct (Forall2_lookup_l _ _ _ _ _ Hw Hp) as (p' & Hp' & Hwk).
  exists c, p'. rewrite Hc. split_and!; [done..|]. by destruct Hwk as [->|[_ ->]].
Qed.

(** ** The invariant of the cache between uses *)

Record cache_ok (s : kstate) : Prop := {
  co_len : length (k_buf s) = Z.to_nat NBUF;
  co_lru : k_lru s ≡ₚ seq 0 (Z.to_nat NBUF);
  (* no buffer is in use *)
  co_idle : forall i b, k_buf s !! i = Some b -> sl_locked (b_lock b) = 0 /\ b_refcnt b = 0;
  (* a block has at most one buffer *)
  co_uniq : forall i j b b', k_buf s !! i = Some b -> k_buf s !! j = Some b' ->
    b_dev b = ROOTDEV -> b_dev b' = ROOTDEV -> b_blockno b = b_blockno b' -> i = j;
  (* a clean valid buffer agrees with the disk *)
  co_coherent : forall i b, k_buf s !! i = Some b -> b_dev b = ROOTDEV ->
    has (b_flags b) B_VALID = true -> has (b_flags b) B_DIRTY = false ->
    b_data b = disk_block s (b_blockno b);
  (* a modified buffer has its contents *)
  co_dirty : forall i b, k_buf s !! i = Some b ->
    has (b_flags b) B_DIRTY = true -> has (b_flags b) B_VALID = true;
  (* some buffer can be recycled *)
  co_clean : exists i b, k_buf s !! i = Some b /\ has (b_flags b) B_DIRTY = false;
}.

Definition caches (blockno : Z) (b : buf) : bool :=
  (b_dev b =? ROOTDEV) && (b_blockno b =? blockno).

(** Block [blockno] as the kernel sees it. *)
Definition block_view (s : kstate) (blockno : Z) : list Z :=
  match list_find (fun b => Is_true (caches blockno b && has (b_flags b) B_VALID)) (k_buf s) with
  | Some (_, b) => b_data b
  | None => disk_block s blockno
  end.

Lemma caches_true n b : caches n b = true <-> b_dev b = ROOTDEV /\ b_blockno b = n.
Proof. unfold caches. by rewrite andb_true_iff, !Z.eqb_eq. Qed.

Lemma block_view_hit s n i b :
  (forall j b', k_buf s !! j = Some b' -> caches n b' = true -> i = j) ->
  k_buf s !! i = Some b -> caches n b = true -> has (b_flags b) B_VALID = true ->
  block_view s n = b_data b.
Proof.
  intros Hu Hb Hc Hv. unfold block_view.
  destruct (list_find _ _) as [[j b']|] eqn:E.
  - apply list_find_Some in E as (Hj & Hp & _). apply Is_true_true, andb_true_iff in Hp as [Hp _].
    specialize (Hu j b' Hj Hp). congruence.
  - rewrite list_find_None, Forall_lookup in E. destruct (E i b Hb). by rewrite Hc, Hv.
Qed.

Lemma block_view_miss s n :
  (forall j b, k_buf s !! j = Some b -> caches n b = true -> has (b_flags b) B_VALID = false) ->
  block_view s n = disk_block s n.
Proof.
  intros H. unfold block_view. destruct (list_find _ _) as [[j b]|] eqn:E; [|done].
  apply list_find_Some in E as (Hj & Hp & _).
  apply Is_true_true, andb_true_iff in Hp as [Hp Hv]. by rewrite (H j b) in Hv.
Qed.

(** Every buffer that caches a block, if any, determines its view. *)
Lemma block_view_cases s n : cache_ok s ->
  (exists i b, k_buf s !! i = Some b /\ caches n b = true /\
     has (b_flags b) B_VALID = true /\ block_view s n = b_data b /\
     forall j b', k_buf s !! j = Some b' -> caches n b' = true -> i = j) \/
  ((forall i b, k_buf s !! i = Some b -> caches n b = true -> has (b_flags b) B_VALID = false) /\
     block_view s n = disk_block s n).
Proof.
  intros Hok. unfold block_view. destruct (list_find _ _) as [[i b]|] eqn:E.
  - left. apply list_find_Some in E as (Hi & Hp & _).
    apply Is_true_true, andb_true_iff in Hp as [Hp Hv]. exists i, b. split_and!; [done..|].
    intros j b' Hj Hc. apply caches_true in Hp as [??], Hc as [??].
    eapply (co_uniq s Hok); [done..|]. congruence.
  - right. split; [|done]. rewrite list_find_None, Forall_lookup in E.
    intros i b Hi Hc. specialize (E i b Hi). rewrite Hc in E.
    by destruct (has (b_flags b) B_VALID).
Qed.

(** Putting block [n] into buffer [i], which held it or could be recycled. *)
Section install.
Context (s s' : kstate) (i : nat) (b b' : buf) (n : Z).
Hypothesis (Hok : cache_ok s) (Hb : k_buf s !! i = Some b).
Hypothesis Hold : caches n b = true \/
  (forall j bj, k_buf s !! j = Some bj -> caches n bj = false) /\ has (b_flags b) B_DIRTY = false.
Hypothesis (Hbuf : k_buf s' = <[i := b']> (k_buf s)) (Hlru : k_lru s' ≡ₚ k_lru s).
Hypothesis (Hc' : caches n b' = true) (Hlk : sl_locked (b_lock b') = 0) (Href : b_refcnt b' = 0).
Hypothesis Hv : has (b_flags b') B_VALID = true.
Hypothesis Hd : has (b_flags b') B_DIRTY = true -> has (b_flags b) B_DIRTY = true.
Hypothesis Hcoh : has (b_flags b') B_DIRTY = false -> b_data b' = disk_block s' n.
Hypothesis Hdisk : forall k, k <> n -> disk_block s' k = disk_block s k.

Lemma install_lookup j bj : k_buf s' !! j = Some bj ->
  (j = i /\ bj = b') \/ (j <> i /\ k_buf s !! j = Some bj).
Proof.
  rewrite Hbuf. destruct (decide (i = j)) as [->|].
  - rewrite list_lookup_insert_eq by (by eapply lookup_lt_Some). intros [= <-]. auto.
  - rewrite list_lookup_insert_ne by done. auto.
Qed.

Lemma install_lookup_i : k_buf s' !! i = Some b'.
Proof. rewrite Hbuf. apply list_lookup_insert_eq. by eapply lookup_lt_Some. Qed.

Lemma install_other j bj : j <> i -> k_buf s !! j = Some bj -> caches n bj = false.
Proof.
  intros Hj Hbj. destruct Hold as [Hc|[Hn _]]; [|by eapply Hn].
  destruct (caches n bj) eqn:E; [|done].
  apply caches_true in Hc as [??], E as [??].
  destruct Hj. eapply (co_uniq s Hok); [done..|]. congruence.
Qed.

Lemma install_cache_ok : cache_ok s'.
Proof using All.
  pose proof (proj1 (caches_true _ _) Hc') as [Hdev' Hblk'].
  assert (forall j bj, j <> i -> k_buf s !! j = Some bj -> b_dev bj = ROOTDEV ->
    b_blockno bj <> n) as Hno.
  { intros j bj Hj Hbj ??. pose proof (install_other j bj Hj Hbj) as Ho.
    rewrite (proj2 (caches_true _ _)) in Ho; done. }
  split.
  - rewrite Hbuf, length_insert. apply Hok.
  - rewrite Hlru. apply Hok.
  - intros j bj [[-> ->]|[??]]%install_lookup; [done|]. by eapply (co_idle s Hok).
  - intros j k bj bk Hj Hk ???.
    apply install_lookup in Hj as [[-> ->]|[Hji Hj]], Hk as [[-> ->]|[Hki Hk]]; try done.
    + by destruct (Hno k bk); try congruence.
    + by destruct (Hno j bj); try congruence.
    + by eapply (co_uniq s Hok).
  - intros j bj [[-> ->]|[Hji Hj]]%install_lookup Hdev Hvj Hdj.
    + rewrite Hblk'. auto.
    + rewrite Hdisk by eauto. by eapply (co_coherent s Hok).
  - intros j bj [[-> ->]|[Hji Hj]]%install_lookup; [done|]. by eapply (co_dirty s Hok).
  - destruct (has (b_flags b') B_DIRTY) eqn:E; [|exists i, b'; auto using install_lookup_i].
    destruct (co_clean s Hok) as (j & bj & Hj & Hcl). exists j, bj. split; [|done].
    rewrite Hbuf. rewrite list_lookup_insert_ne; [done|]. intros <-.
    assert (bj = b) as -> by congruence. rewrite Hd in Hcl; done.
Qed.

Lemma install_view : block_view s' n = b_data b'.
Proof using All.
  eapply block_view_hit; [|apply install_lookup_i|done..].
  intros j bj [[-> ->]|[Hji Hj]]%install_lookup Hc; [done|].
  by rewrite (install_other j bj) in Hc.
Qed.

Lemma install_view_other k : k <> n -> block_view s' k = block_view s k.
Proof using All.
  intros Hk. assert (caches k b' = false) as Hkb'.
  { destruct (caches k b') eqn:E; [|done]. apply caches_true in E as [_ ?].
    apply caches_true in Hc' as [_ ?]. congruence. }
  destruct (block_view_cases s k Hok) as [(j & bj & Hj & Hcj & Hvj & -> & Hu)|[Hn ->]].
  - destruct (decide (j = i)) as [->|Hji].
    + assert (bj = b) as -> by congruence. destruct Hold as [Hc|[_ Hcl]].
      { apply caches_true in Hc as [??], Hcj as [??]. congruence. }
      rewrite block_view_miss.
      * rewrite Hdisk by done. apply caches_true in Hcj as [? <-].
        symmetry. by eapply (co_coherent s Hok).
      * intros m bm [[-> ->]|[Hmi Hm]]%install_lookup Hcm; [congruence|].
        destruct Hmi. symmetry. eauto.
    + eapply block_view_hit; [|by rewrite Hbuf, list_lookup_insert_ne by done|done..].
      intros m bm [[-> ->]|[Hmi Hm]]%install_lookup Hcm; [congruence|by eapply Hu].
  - rewrite block_view_miss; [by apply Hdisk|].
    intros m bm [[-> ->]|[Hmi Hm]]%install_lookup Hcm; [congruence|by eapply Hn].
Qed.
End install.

(** ** The operations *)

Lemma has_land f x : (Z.land f x =? 0) = negb (has f x).
Proof. unfold has. by rewrite negb_involutive. Qed.

Lemma wp_scan test order Q s :
  Q (snd <$> list_find (fun i => Is_true (from_option test false (k_buf s !! i))) order) s ->
  wp (scan test order) Q s.
Proof. done. Qed.

Lemma scan_Some test (bs : list buf) order i :
  snd <$> list_find (fun i => Is_true (from_option test false (bs !! i))) order = Some i ->
  exists b, bs !! i = Some b /\ test b = true.
Proof.
  intros ([j i'] & E & [= ->])%fmap_Some. apply list_find_Some in E as (_ & Hp & _).
  destruct (bs !! i') as [b|]; [|done]. exists b. split; [done|]. by apply Is_true_true.
Qed.

Lemma scan_None test (bs : list buf) order i b :
  snd <$> list_find (fun i => Is_true (from_option test false (bs !! i))) order = None ->
  i ∈ order -> bs !! i = Some b -> test b = false.
Proof.
  intros E%fmap_None Hi Hb. rewrite list_find_None, Forall_forall in E.
  specialize (E i Hi). rewrite Hb in E. cbn in E. by destruct (test b).
Qed.

(** The buffer just stored. *)
Ltac lookup_put := ksimpl; apply list_lookup_insert_eq; rewrite ?length_insert; by eapply lookup_lt_Some.

(** [bget] returns a locked buffer for the block: the one that caches it, or
    a recycled one without contents. *)
Lemma wp_bget n pid Q s :
  cache_ok s -> bio_unlocked s -> cur_pid s pid ->
  (forall i b b1, k_buf s !! i = Some b ->
     b_lock b1 = mk_sleeplock 1 pid -> b_refcnt b1 = 1 -> caches n b1 = true ->
     (caches n b = true /\ b_flags b1 = b_flags b /\ b_data b1 = b_data b \/
      (forall j bj, k_buf s !! j = Some bj -> caches n bj = false) /\
      has (b_flags b) B_DIRTY = false /\ b_flags b1 = 0) ->
     Q i (set_k_buf (<[i := b1]> (k_buf s)) s)) ->
  wp (bget ROOTDEV n) Q s.
Proof.
  intros Hok (Hlb & Hlp & Hlbuf) Hpid HQ. unfold bget.
  wp_step. apply wp_acquire; [done|]. wp_steps. apply wp_scan. ksimpl.
  assert (forall i b, k_buf s !! i = Some b -> i ∈ k_lru s) as Hin.
  { intros i b Hi%lookup_lt_Some. rewrite (co_lru s Hok), elem_of_seq. rewrite (co_len s Hok) in Hi. lia. }
  destruct (snd <$> _) as [i|] eqn:E.
  - apply scan_Some in E as (b & Hb & Hc). destruct (co_idle s Hok i b Hb) as [Hlk Hrc].
    wp_step. eapply wp_get_buf; [done|]. wp_steps. unfold put_buf. wp_steps.
    eapply wp_release; [done|]. wp_step.
    eapply wp_b_acquiresleep; [apply Hlbuf|lookup_put|done..|].
    wp_steps. ksimpl. rewrite list_insert_insert_eq.
    replace (set_k_buf _ _) with (set_k_buf (<[i := set_b_lock (mk_sleeplock 1 pid)
      (set_b_refcnt (u32 (b_refcnt b + 1)) b)]> (k_buf s)) s) by by destruct s.
    eapply HQ; try done; [by rewrite Hrc|left; done].
  - assert (forall j bj, k_buf s !! j = Some bj -> caches n bj = false) as Hmiss.
    { intros j bj Hj. eapply scan_None in E; [exact E|by eapply Hin|done]. }
    clear E. wp_step. apply wp_scan. ksimpl. destruct (snd <$> _) as [i|] eqn:E.
    + apply scan_Some in E as (b & Hb & Hc). destruct (co_idle s Hok i b Hb) as [Hlk Hrc].
      wp_step. eapply wp_get_buf; [done|]. wp_steps. unfold put_buf. wp_steps.
      eapply wp_release; [done|]. wp_step.
      eapply wp_b_acquiresleep; [apply Hlbuf|lookup_put|done..|].
      wp_steps. ksimpl. rewrite list_insert_insert_eq.
      replace (set_k_buf _ _) with (set_k_buf (<[i := set_b_lock (mk_sleeplock 1 pid)
        (set_b_refcnt 1 (set_b_flags 0 (set_b_blockno n (set_b_dev ROOTDEV b))))]> (k_buf s)) s)
        by by destruct s.
      rewrite has_land in Hc. bool_prop.
      eapply HQ; try done; [by apply caches_true|right; done].
    + destruct (co_clean s Hok) as (i & b & Hb & Hcl).
      eapply scan_None in E; [|by rewrite list_elem_of_In, <-in_rev, <-list_elem_of_In; eapply Hin|done].
      rewrite has_land, Hcl in E. by rewrite (proj2 (co_idle s Hok i b Hb)) in E.
Qed.

Lemma caches_dev n b : caches n b = true -> b_dev b = 1.
Proof. by intros [? _]%caches_true. Qed.

(** Writing a dirty buffer out. *)
Lemma wp_iderw_write i b n pid Q s :
  L_buf i ∉ k_held s -> cur_pid s pid -> k_buf s !! i = Some b ->
  b_lock b = mk_sleeplock 1 pid -> caches n b = true -> n < k_disksize s ->
  has (b_flags b) B_DIRTY = true ->
  Q tt (set_k_buf (<[i := set_b_flags (Z.lor (Z.land (b_flags b) (Z.lnot B_DIRTY)) B_VALID) b]> (k_buf s))
         (set_k_disk ((n, b_data b) :: k_disk s) s)) ->
  wp (iderw i) Q s.
Proof.
  intros Hl Hpid Hb Hlk Hc Hn Hd HQ. unfold iderw.
  wp_step. eapply wp_b_holdingsleep; [done..|]. wp_step. eapply wp_get_buf; [done|]. cbn [negb].
  replace (Z.land (b_flags b) (Z.lor B_VALID B_DIRTY) =? B_VALID) with false.
  2: { symmetry. apply Z.eqb_neq. intros Heq. change B_DIRTY with PTE_U in Hd. rewrite has_U in Hd.
       apply (f_equal (fun x => Z.testbit x 2)) in Heq. rewrite Z.land_spec, Hd in Heq. done. }
  rewrite (caches_dev n b Hc). cbn [negb Z.eqb Pos.eqb]. wp_steps.
  apply caches_true in Hc as [_ Hblk]. rewrite Hblk, (proj2 (Z.leb_gt _ _)) by done.
  wp_step. rewrite has_land, Hd. cbn [negb]. unfold put_buf. wp_steps.
  eapply wp_get_buf; [lookup_put|]. wp_steps. ksimpl.
  rewrite list_insert_insert_eq. by destruct s.
Qed.

(** Reading a buffer without contents in. *)
Lemma wp_iderw_read i b n pid Q s :
  L_buf i ∉ k_held s -> cur_pid s pid -> k_buf s !! i = Some b ->
  b_lock b = mk_sleeplock 1 pid -> caches n b = true -> n < k_disksize s ->
  has (b_flags b) B_VALID = false -> has (b_flags b) B_DIRTY = false ->
  Q tt (set_k_buf (<[i := set_b_flags (Z.lor (b_flags b) B_VALID)
                           (set_b_data (disk_block s n) b)]> (k_buf s)) s) ->
  wp (iderw i) Q s.
Proof.
  intros Hl Hpid Hb Hlk Hc Hn Hv Hd HQ. unfold iderw.
  wp_step. eapply wp_b_holdingsleep; [done..|]. wp_step. eapply wp_get_buf; [done|]. cbn [negb].
  replace (Z.land (b_flags b) (Z.lor B_VALID B_DIRTY) =? B_VALID) with false.
  2: { symmetry. apply Z.eqb_neq. intros Heq. change B_VALID with PTE_W in Hv. rewrite has_W in Hv.
       apply (f_equal (fun x => Z.testbit x 1)) in Heq. rewrite Z.land_spec, Hv in Heq. done. }
  rewrite (caches_dev n b Hc). cbn [negb Z.eqb Pos.eqb]. wp_steps.
  apply caches_true in Hc as [_ Hblk]. rewrite Hblk, (proj2 (Z.leb_gt _ _)) by done.
  rewrite has_land, Hd. cbn [negb]. unfold put_buf. wp_steps.
  eapply wp_get_buf; [lookup_put|]. wp_steps. ksimpl.
  rewrite list_insert_insert_eq. by destruct s.
Qed.

(** Releasing a buffer that only this process uses. *)
Lemma wp_brelse i b pid Q s :
  bio_unlocked s -> cur_pid s pid -> k_buf s !! i = Some b ->
  b_lock b = mk_sleeplock 1 pid -> b_refcnt b = 1 -> i ∈ k_lru s -> NoDup (k_lru s) ->
  (forall ps lru, procs_woken (k_proc s) ps -> lru ≡ₚ k_lru s ->
     Q tt (set_k_lru lru (set_k_proc ps
       (set_k_buf (<[i := set_b_refcnt 0 (set_b_lock (mk_sleeplock 0 0) b)]> (k_buf s)) s)))) ->
  wp (brelse i) Q s.
Proof.
  intros (Hlb & Hlp & Hlbuf) Hpid Hb Hlk Href Hin Hnd HQ. unfold brelse.
  wp_step. eapply wp_b_holdingsleep; [done..|]. cbn [negb].
  wp_step. eapply wp_b_releasesleep; [done..|]. intros ps Hps.
  wp_step. apply wp_acquire; [done|]. wp_step. eapply wp_get_buf; [lookup_put|].
  unfold put_buf. ksimpl. rewrite Href. change (u32 (1 - 1)) with 0. wp_steps.
  all: try done. eapply wp_release; [done|]. ksimpl. rewrite list_insert_insert_eq.
  specialize (HQ ps (i :: filter (fun j => j <> i) (k_lru s)) Hps).
  destruct s. apply HQ. ksimpl.
  apply NoDup_Permutation; [|done|].
  - constructor; [|by apply NoDup_filter]. rewrite list_elem_of_filter. naive_solver.
  - intros j. rewrite elem_of_cons, list_elem_of_filter. destruct (decide (j = i)); naive_solver.
Qed.

(** ** Blocks and pages *)

(** [s'] differs from [s] in the cache, the disk, the memory and processes
    woken up at most. *)
Definition bio_step (s s' : kstate) : Prop :=
  exists bufs lru disk ps m,
    s' = set_k_buf bufs (set_k_lru lru (set_k_disk disk (set_k_proc ps (set_k_mem m s)))) /\
    procs_woken (k_proc s) ps.

Lemma bio_step_refl s : bio_step s s.
Proof.
  exists (k_buf s), (k_lru s), (k_disk s), (k_proc s), (k_mem s).
  split; [by destruct s|]. apply procs_woken_refl.
Qed.

Lemma bio_step_trans s1 s2 s3 : bio_step s1 s2 -> bio_step s2 s3 -> bio_step s1 s3.
Proof.
  intros (?&?&?&?&?&->&?) (bs&l&d&ps&m&->&?). exists bs, l, d, ps, m. split; [done|].
  by eapply procs_woken_trans.
Qed.

Lemma bio_step_unlocked s s' : bio_step s s' -> bio_unlocked s -> bio_unlocked s'.
Proof. by intros (?&?&?&?&?&->&?). Qed.

Lemma bio_step_cur_pid s s' pid : bio_step s s' -> cur_pid s pid -> cur_pid s' pid.
Proof. intros (?&?&?&?&?&->&?). by apply cur_pid_woken. Qed.

Lemma bio_step_disksize s s' : bio_step s s' -> k_disksize s' = k_disksize s.
Proof. by intros (?&?&?&?&?&->&?). Qed.

Lemma lru_facts s i b : cache_ok s -> k_buf s !! i = Some b -> i ∈ k_lru s /\ NoDup (k_lru s).
Proof.
  intros Hok Hi%lookup_lt_Some. rewrite (co_lru s Hok). split; [|apply NoDup_seq].
  rewrite elem_of_seq. rewrite (co_len s Hok) in Hi. lia.
Qed.

Lemma wp_write_block page n pid s :
  cache_ok s -> bio_unlocked s -> cur_pid s pid -> n < k_disksize s ->
  wp (write_block page n) (fun _ s' => cache_ok s' /\ bio_step s s' /\ k_mem s' = k_mem s /\
    block_view s' n = bytes (k_mem s) page 512 /\
    forall k, k <> n -> block_view s' k = block_view s k) s.
Proof.
  intros Hok Hul Hpid Hn. unfold write_block. wp_step. eapply wp_bget; [done..|].
  intros i b b1 Hb Hlk Href Hc Hold. destruct (lru_facts s i b Hok Hb) as [Hin Hnd].
  wp_steps. eapply wp_get_buf; [lookup_put|]. ksimpl. unfold put_buf at 1. wp_steps. ksimpl.
  rewrite list_insert_insert_eq. unfold bwrite. wp_steps.
  eapply wp_b_holdingsleep; [apply Hul|lookup_put|done..|]. cbn [negb].
  wp_step. eapply wp_get_buf; [lookup_put|]. unfold put_buf at 1. wp_steps. ksimpl.
  rewrite list_insert_insert_eq.
  eapply (wp_iderw_write _ _ n); [apply Hul|done|lookup_put|done..| |].
  { ksimpl. change B_DIRTY with PTE_U. rewrite has_U, Z.lor_spec. by rewrite orb_true_r. }
  ksimpl. rewrite list_insert_insert_eq.
  eapply wp_brelse; [done|done|lookup_put|done..|]. intros ps lru Hps Hlru. ksimpl.
  rewrite list_insert_insert_eq. set (b' := set_b_refcnt _ _). set (s' := set_k_lru _ _).
  assert (has (b_flags b') B_VALID = true /\ has (b_flags b') B_DIRTY = false) as [Hv Hd].
  { change B_VALID with PTE_W. change B_DIRTY with PTE_U. subst b'. ksimpl.
    rewrite has_W, has_U, !Z.lor_spec, !Z.land_spec. change B_DIRTY with 4. change B_VALID with 2.
    cbn. by rewrite !orb_true_r, andb_false_r. }
  assert (caches n b = true \/ (forall j bj, k_buf s !! j = Some bj -> caches n bj = false) /\
    has (b_flags b) B_DIRTY = false) as Hold' by naive_solver.
  assert (forall k, k <> n -> disk_block s' k = disk_block s k) as Hdk.
  { intros k Hk. unfold disk_block. subst s'. ksimpl. cbn. by rewrite decide_False by done. }
  assert (b_data b' = disk_block s' n) as Hdn.
  { unfold disk_block. subst s'. ksimpl. cbn. by rewrite decide_True by done. }
  split_and!.
  - eapply (install_cache_ok s s' i b b' n); try done. by rewrite Hd.
  - exists (k_buf s'), lru, (k_disk s'), ps, (k_mem s). split; [by destruct s|done].
  - done.
  - eapply (install_view s s' i b b' n); try done. by rewrite Hd.
  - intros k Hk. eapply (install_view_other s s' i b b' n); try done. by rewrite Hd.
Qed.

Lemma wp_bread n pid Q s :
  cache_ok s -> bio_unlocked s -> cur_pid s pid -> n < k_disksize s ->
  (forall i b b1, k_buf s !! i = Some b -> b_lock b1 = mk_sleeplock 1 pid -> b_refcnt b1 = 1 ->
     caches n b1 = true -> has (b_flags b1) B_VALID = true -> b_data b1 = block_view s n ->
     (has (b_flags b1) B_DIRTY = true -> has (b_flags b) B_DIRTY = true) ->
     (has (b_flags b1) B_DIRTY = false -> b_data b1 = disk_block s n) ->
     (caches n b = true \/ (forall j bj, k_buf s !! j = Some bj -> caches n bj = false) /\
        has (b_flags b) B_DIRTY = false) ->
     Q i (set_k_buf (<[i := b1]> (k_buf s)) s)) ->
  wp (bread ROOTDEV n) Q s.
Proof.
  intros Hok Hul Hpid Hn HQ. unfold bread. wp_step. eapply wp_bget; [done..|].
  intros i b b1 Hb Hlk Href Hc Hold. wp_step. eapply wp_get_buf; [lookup_put|].
  assert (caches n b = true \/ (forall j bj, k_buf s !! j = Some bj -> caches n bj = false) /\
    has (b_flags b) B_DIRTY = false) as Hold' by (clear -Hold; tauto).
  assert (caches n b = true -> forall j bj, k_buf s !! j = Some bj -> caches n bj = true -> i = j) as Hu.
  { intros [??]%caches_true j bj Hj [??]%caches_true. eapply (co_uniq s Hok); [done..|congruence]. }
  rewrite has_land. wp_step. apply wp_when; intros Hv; bool_prop.
  - assert (has (b_flags b1) B_DIRTY = false) as Hd.
    { destruct Hold as [(_ & Hf & _)|(_ & _ & ->)]; [|done]. rewrite Hf in *.
      destruct (has (b_flags b) B_DIRTY) eqn:E; [|done]. rewrite (co_dirty s Hok i b) in Hv; done. }
    eapply (wp_iderw_read _ _ n); [apply Hul|done|lookup_put|done..|]. wp_steps. ksimpl.
    rewrite list_insert_insert_eq.
    replace (set_k_buf _ _) with (set_k_buf (<[i := set_b_flags (Z.lor (b_flags b1) B_VALID)
      (set_b_data (disk_block s n) b1)]> (k_buf s)) s) by by destruct s.
    eapply HQ; try done; ksimpl.
    + change B_VALID with PTE_W. rewrite has_W, Z.lor_spec. by rewrite orb_true_r.
    + symmetry. apply block_view_miss. intros j bj Hj Hcj.
      destruct Hold as [(Hcb & Hfl & _)|(Hn' & _)]; [|by rewrite (Hn' j bj) in Hcj].
      assert (i = j) as <- by eauto. assert (bj = b) as -> by congruence. congruence.
    + change B_DIRTY with PTE_U in *. rewrite has_U, Z.lor_spec, <-has_U, Hd. done.
  - wp_steps. destruct Hold as [(Hcb & Hfl & Hdt)|(_ & _ & Hf0)]; [|by rewrite Hf0 in Hv].
    eapply HQ; try done.
    + rewrite Hdt. symmetry. apply (block_view_hit s n i b); eauto. congruence.
    + by rewrite Hfl.
    + rewrite Hfl, Hdt in *. intros Hd. apply caches_true in Hcb as [? <-].
      by eapply (co_coherent s Hok).
Qed.

Lemma wp_read_block n addr pid s :
  cache_ok s -> bio_unlocked s -> cur_pid s pid -> n < k_disksize s ->
  wp (read_block n addr) (fun _ s' => cache_ok s' /\ bio_step s s' /\
    k_mem s' = put_bytes (k_mem s) addr (block_view s n) /\
    forall k, block_view s' k = block_view s k) s.
Proof.
  intros Hok Hul Hpid Hn. unfold read_block. wp_step. eapply wp_bread; [done..|].
  intros i b b1 Hb Hlk Href Hc Hv Hdata Hd Hcoh Hold.
  destruct (lru_facts s i b Hok Hb) as [Hin Hnd].
  wp_step. eapply wp_get_buf; [lookup_put|]. unfold modify_mem. wp_steps. ksimpl.
  eapply wp_brelse; [done|done|lookup_put|done..|]. intros ps lru Hps Hlru. ksimpl.
  rewrite list_insert_insert_eq. set (b' := set_b_refcnt _ _). set (s' := set_k_lru _ _).
  split_and!.
  - by eapply (install_cache_ok s s' i b b' n).
  - exists (k_buf s'), lru, (k_disk s'), ps, (k_mem s'). split; [by destruct s|done].
  - subst s'. ksimpl. by rewrite Hdata.
  - intros k. destruct (decide (k = n)) as [->|].
    + rewrite <-Hdata. by eapply (install_view s s' i b b' n).
    + by eapply (install_view_other s s' i b b' n).
Qed.

Lemma seqZ8_split pre i suf : seqZ 0 8 = pre ++ i :: suf -> 0 <= i < 8 /\ i ∉ pre.
Proof.
  intros H. split.
  - assert (i ∈ seqZ 0 8) as ?%elem_of_seqZ by (rewrite H; set_solver). lia.
  - pose proof (NoDup_seqZ 0 8) as Hnd. rewrite H in Hnd.
    apply NoDup_app in Hnd as (_ & Hd & _). intros Hi. by apply (Hd i Hi); left.
Qed.

Lemma wp_write_pag_to_disk dev page blk pid s :
  cache_ok s -> bio_unlocked s -> cur_pid s pid ->
  0 <= blk -> blk + 8 <= k_disksize s -> k_disksize s <= two32 ->
  wp (write_pag_to_disk dev page blk) (fun _ s' => cache_ok s' /\ bio_step s s' /\
    k_mem s' = k_mem s /\
    (forall i, 0 <= i < 8 -> block_view s' (blk + i) = bytes (k_mem s) (page + i * 512) 512) /\
    forall k, k < blk \/ blk + 8 <= k -> block_view s' k = block_view s k) s.
Proof.
  intros Hok Hul Hpid Hblk Hsz H32. unfold write_pag_to_disk. wp_step.
  apply (wp_for _ _ (fun pre _ s' => cache_ok s' /\ bio_step s s' /\ k_mem s' = k_mem s /\
    (forall i, i ∈ pre -> block_view s' (blk + i) = bytes (k_mem s) (page + i * 512) 512) /\
    forall k, k < blk \/ blk + 8 <= k -> block_view s' k = block_view s k)).
  - intros pre i suf _ s1 Hpre (Hok1 & Hst & Hm & Hin & Hout).
    apply seqZ8_split in Hpre as [Hi Hni]. wp_step. rewrite u32_small by lia.
    eapply wp_mono; [eapply wp_write_block; [done|by eapply bio_step_unlocked|
      by eapply bio_step_cur_pid|rewrite (bio_step_disksize s s1); [lia|done]]|].
    intros _ s2 (Hok2 & Hst2 & Hm2 & Hn & Ho). wp_steps. split_and!.
    + done.
    + by eapply bio_step_trans.
    + congruence.
    + intros j [Hj| ->%list_elem_of_singleton]%elem_of_app; [|by rewrite Hn, Hm].
      rewrite Ho; [by apply Hin|]. intros ?. assert (j = i) as -> by lia. done.
    + intros k Hk. rewrite Ho by lia. by apply Hout.
  - intros _ s' (?&?&?&Hin&?). wp_steps. split_and!; try done.
    intros i Hi. apply Hin, elem_of_seqZ. lia.
  - split_and!; try done; [apply bio_step_refl|]. intros i Hi. set_solver.
Qed.

Lemma ldb_put_bytes m a l b :
  ldb (put_bytes m a l) b =
    if decide (a <= b < a + Z.of_nat (length l)) then nth (Z.to_nat (b - a)) l 0 mod 256 else ldb m b.
Proof.
  revert m a. induction l as [|x l IH]; intros m a; cbn [put_bytes length].
  - by rewrite decide_False by lia.
  - rewrite IH, ldb_stb. destruct (decide (a = b)) as [->|].
    + rewrite decide_False, decide_True by lia. by rewrite Z.sub_diag.
    + destruct (decide (a + 1 <= b < a + 1 + Z.of_nat (length l))).
      * rewrite decide_True by lia.
        by replace (Z.to_nat (b - a)) with (S (Z.to_nat (b - (a + 1)))) by lia.
      * by rewrite decide_False by lia.
Qed.

Lemma length_bytes m a n : 0 <= n -> length (bytes m a n) = Z.to_nat n.
Proof. intros. unfold bytes. by rewrite length_fmap, length_seqZ. Qed.

Lemma nth_bytes m a n i : 0 <= i < n -> nth (Z.to_nat i) (bytes m a n) 0 = ldb m (a + i).
Proof.
  intros Hi. unfold bytes. apply nth_lookup_Some. rewrite list_lookup_fmap, lookup_seqZ_lt by lia.
  cbn. do 2 f_equal. lia.
Qed.

(** Reading the blocks of a page whose view is known. *)
Lemma wp_read_page_from_disk blk addr (f : Z -> Z) pid s :
  cache_ok s -> bio_unlocked s -> cur_pid s pid ->
  0 <= blk -> blk + 8 <= k_disksize s -> k_disksize s <= two32 ->
  (forall i, 0 <= i < 8 -> length (block_view s (blk + i)) = 512%nat /\
     forall o, 0 <= o < 512 -> nth (Z.to_nat o) (block_view s (blk + i)) 0 mod 256 = f (512 * i + o)) ->
  wp (read_page_from_disk blk addr) (fun _ s' => cache_ok s' /\ bio_step s s' /\
    (forall b, ldb (k_mem s') b =
       if decide (addr <= b < addr + 4096) then f (b - addr) else ldb (k_mem s) b) /\
    forall k, block_view s' k = block_view s k) s.
Proof.
  intros Hok Hul Hpid Hblk Hsz H32 Hview. unfold read_page_from_disk. wp_step.
  apply (wp_for _ _ (fun pre _ s' => cache_ok s' /\ bio_step s s' /\
    (forall b, ldb (k_mem s') b =
       if decide (addr <= b < addr + 4096 /\ (b - addr) / 512 ∈ pre)
       then f (b - addr) else ldb (k_mem s) b) /\
    forall k, block_view s' k = block_view s k)).
  - intros pre i suf _ s1 Hpre (Hok1 & Hst & Hm & Hv).
    apply seqZ8_split in Hpre as [Hi Hni]. wp_step. rewrite u32_small by lia.
    eapply wp_mono; [eapply wp_read_block; [done|by eapply bio_step_unlocked|
      by eapply bio_step_cur_pid|rewrite (bio_step_disksize s s1); [lia|done]]|].
    intros _ s2 (Hok2 & Hst2 & Hm2 & Hv2). wp_steps. split_and!.
    + done.
    + by eapply bio_step_trans.
    + intros b. rewrite Hm2, Hv, ldb_put_bytes. destruct (Hview i Hi) as [-> Hf].
      destruct (decide (addr + i * 512 <= b < addr + i * 512 + Z.of_nat 512)) as [Hb|Hb].
      * assert ((b - addr) / 512 = i) as -> by zdiv.
        rewrite decide_True by (split; [lia|set_solver]).
        replace (Z.to_nat (b - (addr + i * 512))) with (Z.to_nat (b - addr - 512 * i)) by lia.
        rewrite Hf by lia. f_equal. lia.
      * rewrite Hm. assert (b < addr \/ addr + 4096 <= b \/ (b - addr) / 512 <> i) by zdiv.
        apply decide_ext. rewrite elem_of_app, list_elem_of_singleton. split; [tauto|].
        intros [? [?|?]]; [done|lia].
    + intros k. by rewrite Hv2, Hv.
  - intros _ s' (?&?&Hm&?). wp_steps. split_and!; try done.
    intros b. rewrite Hm. apply decide_ext. split; [tauto|]. intros Hb.
    split; [done|]. apply elem_of_seqZ. zdiv.
  - split_and!; try done; [apply bio_step_refl|]. intros b. rewrite decide_False; [done|]. set_solver.
Qed.

(** ** Properties *)

(** A page written to the swap area with [write_pag_to_disk] and read
    back with [read_page_from_disk] arrives unchanged, wherever it is read
    to; nothing else in memory changes, no other block of the disk changes,
    and the buffer cache keeps its invariant. *)
Theorem swap_page_roundtrip dev page addr blk pid s :
  cache_ok s -> bio_unlocked s -> cur_pid s pid ->
  0 <= blk -> blk + 8 <= k_disksize s -> k_disksize s <= two32 ->
  wp (write_pag_to_disk dev page blk;; read_page_from_disk blk addr) (fun _ s' =>
    cache_ok s' /\
    (forall b, ldb (k_mem s') b =
       if decide (addr <= b < addr + PGSIZE) then ldb (k_mem s) (page + (b - addr)) else ldb (k_mem s) b) /\
    forall k, k < blk \/ blk + 8 <= k -> block_view s' k = block_view s k) s.
Proof.
  intros Hok Hul Hpid Hblk Hsz H32. wp_step.
  eapply wp_mono; [by eapply wp_write_pag_to_disk|].
  intros _ s1 (Hok1 & Hst & Hm & Hin & Hout).
  eapply wp_mono; [eapply (wp_read_page_from_disk blk addr (fun o => ldb (k_mem s) (page + o)));
    [done|by eapply bio_step_unlocked|by eapply bio_step_cur_pid|done|
     rewrite (bio_step_disksize s s1); done..|]|].
  - intros i Hi. rewrite Hin by done. split; [by apply length_bytes|].
    intros o Ho. rewrite nth_bytes by done. rewrite Z.mod_small by apply ldb_range. f_equal. lia.
  - intros _ s2 (Hok2 & _ & Hmem & Hv). split; [done|]. split.
    + intros b. rewrite Hmem, Hm. done.
    + intros k Hk. rewrite Hv. by apply Hout.
Qed.

(** ** Instances *)

Lemma sample_buf i b : k_buf state0 !! i = Some b -> b = buf0.
Proof. intros H. unfold state0 in H. ksimpl. by apply lookup_replicate_1 in H as [-> _]. Qed.

Lemma sample_cache_ok : cache_ok state0.
Proof.
  split; [done|done| | | | |].
  - by intros i b ->%sample_buf.
  - by intros i j b b' ->%sample_buf.
  - by intros i b ->%sample_buf.
  - by intros i b ->%sample_buf.
  - by exists 0%nat, buf0.
Qed.

Lemma sample_bio : bio_unlocked state0 /\ cur_pid state0 1.
Proof.
  split; [by split_and!; [apply not_elem_of_nil..|intros; apply not_elem_of_nil]|].
  by exists 0%nat, proc0.
Qed.

Lemma swap_page_roundtrip_witness :
  wp (write_pag_to_disk 1 frame0 2;; read_page_from_disk 2 0x80303000)
    (fun _ s' => ldb (k_mem s') 0x80303005 = ldb mem0 (frame0 + 5)) state0.
Proof.
  eapply wp_mono.
  - eapply (swap_page_roundtrip 1 frame0 0x80303000 2 1); [apply sample_cache_ok|apply sample_bio..|lia| |].
    + by vm_compute.
    + by vm_compute.
  - intros _ s' (_ & Hm & _). rewrite Hm, decide_True by (split; [lia|reflexivity]). done.
Defined.
