(* ===== verification/Block.v ===== *)
(** * The buffer cache as a store of blocks

    What [bio.c] promises to the log and to the file system.  [brep] relates
    the buffers to a function [V] from block numbers to contents: the
    buffers that the running process holds, the blocks that are only in the
    cache ([dirty], pinned by the log), and the disk, which has every other
    block.  One rule per operation. *)

From Stdlib Require Import ZArith Lia.
From stdpp Require Import base strings numbers gmap fin_sets list.
From S2P Require Import Prelude Mmu Memory Kernel Sample Sleeplock Bio.

Implicit Types (s : kstate) (V : Z -> list Z) (H : list (nat * Z)) (dirty : gset Z).

(** What is known of buffer [i]. *)
Record buffer_ok pid H V dirty (i : nat) (b : buf) : Prop := {
  bo_held : forall n, (i, n) ∈ H -> b_lock b = mk_sleeplock 1 pid /\ b_refcnt b = 1 /\
    caches n b = true /\ has (b_flags b) B_VALID = true;
  bo_idle : i ∉ H.*1 -> sl_locked (b_lock b) = 0 /\ b_refcnt b = 0;
  bo_data : b_dev b = ROOTDEV -> has (b_flags b) B_VALID = true -> b_data b = V (b_blockno b);
  bo_dirty : has (b_flags b) B_DIRTY = true ->
    has (b_flags b) B_VALID = true /\ b_dev b = ROOTDEV /\ b_blockno b ∈ dirty;
}.

(** The process [pid] holds the buffers [H] (buffer and block number). *)
Record brep s (pid : Z) H V dirty : Prop := {
  br_len : length (k_buf s) = Z.to_nat NBUF;
  br_lru : k_lru s ≡ₚ seq 0 (Z.to_nat NBUF);
  br_buf : forall i b, k_buf s !! i = Some b -> buffer_ok pid H V dirty i b;
  br_uniq : forall i j b b', k_buf s !! i = Some b -> k_buf s !! j = Some b' ->
    b_dev b = ROOTDEV -> b_dev b' = ROOTDEV -> b_blockno b = b_blockno b' -> i = j;
  br_nodup : NoDup H.*1;
  br_in : forall i n, (i, n) ∈ H -> is_Some (k_buf s !! i);
  br_clean : forall n, n ∉ dirty -> n ∉ H.*2 -> V n = disk_block s n;
  br_dirty : forall n, n ∈ dirty -> exists i b, k_buf s !! i = Some b /\
    caches n b = true /\ has (b_flags b) B_DIRTY = true;
  br_locks : bio_unlocked s;
  br_pid : cur_pid s pid;
}.

(** ** Consequences *)

Section facts.
Context s pid H V dirty (Hr : brep s pid H V dirty).

Lemma brep_held i n : (i, n) ∈ H -> exists b, k_buf s !! i = Some b /\
  b_lock b = mk_sleeplock 1 pid /\ b_refcnt b = 1 /\ caches n b = true /\
  has (b_flags b) B_VALID = true /\ b_data b = V n.
Proof.
  intros Hi. destruct (br_in _ _ _ _ _ Hr i n Hi) as [b Hb]. exists b. split; [done|].
  destruct (br_buf _ _ _ _ _ Hr i b Hb) as [Hh _ Hd _]. destruct (Hh n Hi) as (? & ? & Hc & Hv).
  split_and!; try done. apply caches_true in Hc as [? <-]. by apply Hd.
Qed.

Lemma brep_cached_uniq n i j b b' : k_buf s !! i = Some b -> k_buf s !! j = Some b' ->
  caches n b = true -> caches n b' = true -> i = j.
Proof.
  intros Hi Hj [? Hb]%caches_true [? Hb']%caches_true.
  eapply (br_uniq _ _ _ _ _ Hr); [done..|congruence].
Qed.

Lemma elem_of_fst i : i ∈ H.*1 <-> exists n, (i, n) ∈ H.
Proof.
  rewrite list_elem_of_fmap. split.
  - intros ([j n] & -> & ?). by exists n.
  - intros [n ?]. by exists (i, n).
Qed.

Lemma elem_of_snd n : n ∈ H.*2 <-> exists i, (i, n) ∈ H.
Proof.
  rewrite list_elem_of_fmap. split.
  - intros ([i m] & -> & ?). by exists i.
  - intros [i ?]. by exists (i, n).
Qed.

(** A buffer for a block that nobody holds is idle. *)
Lemma brep_idle n i b : n ∉ H.*2 -> k_buf s !! i = Some b -> caches n b = true -> i ∉ H.*1.
Proof.
  intros Hn Hb Hc [m Hm]%elem_of_fst. apply Hn, elem_of_snd. exists i.
  destruct (bo_held _ _ _ _ _ _ (br_buf _ _ _ _ _ Hr i b Hb) m Hm) as (_ & _ & Hc' & _).
  apply caches_true in Hc as [_ <-], Hc' as [_ <-]. done.
Qed.

Lemma brep_lru i b : k_buf s !! i = Some b -> i ∈ k_lru s /\ NoDup (k_lru s).
Proof.
  intros Hi%lookup_lt_Some. rewrite (br_lru _ _ _ _ _ Hr). split; [|apply NoDup_seq].
  rewrite elem_of_seq. rewrite (br_len _ _ _ _ _ Hr) in Hi. lia.
Qed.

(** With fewer than [NBUF] buffers held or dirty one can be recycled. *)
Lemma brep_available : Z.of_nat (size dirty + length H) < NBUF ->
  exists i b, k_buf s !! i = Some b /\ i ∉ H.*1 /\ has (b_flags b) B_DIRTY = false.
Proof.
  intros Hlt. pose proof (br_len _ _ _ _ _ Hr) as Hlen.
  destruct (decide (Exists (fun i => i ∉ H.*1 /\
    from_option (fun b => negb (has (b_flags b) B_DIRTY)) false (k_buf s !! i) = true) (seq 0 (length (k_buf s)))))
    as [(i & _ & Hi & Hd)%Exists_exists|Hno].
  { destruct (k_buf s !! i) as [b|] eqn:E; [|done]. apply negb_true_iff in Hd. by exists i, b. }
  exfalso. rewrite Exists_exists in Hno.
  set (blk := fun i => from_option b_blockno 0 (k_buf s !! i)).
  set (rest := filter (fun i => i ∉ H.*1) (seq 0 (length (k_buf s)))).
  assert (forall i, i ∈ rest -> exists b, k_buf s !! i = Some b /\ has (b_flags b) B_DIRTY = true) as Hrest.
  { intros i [Hi Hs]%list_elem_of_filter. apply elem_of_seq in Hs.
    destruct (lookup_lt_is_Some_2 (k_buf s) i ltac:(lia)) as [b Hb]. exists b. split; [done|].
    destruct (has (b_flags b) B_DIRTY) eqn:E; [done|]. exfalso. apply Hno. exists i.
    split; [apply elem_of_seq; lia|]. rewrite Hb. cbn. by rewrite E. }
  assert (NoDup (blk <$> rest)) as Hnd.
  { apply NoDup_fmap_2_strong; [|apply NoDup_filter, NoDup_seq].
    intros i j Hi Hj. destruct (Hrest i Hi) as (b & Hb & Hbd), (Hrest j Hj) as (b' & Hb' & Hbd').
    unfold blk. rewrite Hb, Hb'. cbn. intros E.
    destruct (bo_dirty _ _ _ _ _ _ (br_buf _ _ _ _ _ Hr i b Hb) Hbd) as (_ & ? & _).
    destruct (bo_dirty _ _ _ _ _ _ (br_buf _ _ _ _ _ Hr j b' Hb') Hbd') as (_ & ? & _).
    by eapply (br_uniq _ _ _ _ _ Hr). }
  assert (length rest <= size dirty)%nat as H1.
  { rewrite <-(length_fmap blk), <-(size_list_to_set (C := gset Z) _ Hnd). apply subseteq_size.
    intros n. rewrite elem_of_list_to_set, list_elem_of_fmap. intros (i & -> & Hi).
    destruct (Hrest i Hi) as (b & Hb & Hbd). unfold blk. rewrite Hb. cbn.
    by apply (bo_dirty _ _ _ _ _ _ (br_buf _ _ _ _ _ Hr i b Hb)). }
  assert (length (seq 0 (length (k_buf s))) <= length rest + length (H.*1))%nat as H2.
  { rewrite <-length_app. apply submseteq_length, NoDup_submseteq; [apply NoDup_seq|].
    intros i Hi. rewrite elem_of_app. destruct (decide (i ∈ H.*1)); [by right|left].
    by apply list_elem_of_filter. }
  rewrite length_seq, length_fmap, Hlen in H2. klia.
Qed.
End facts.

(** One buffer changes. *)
Lemma brep_update s s' pid H V dirty H' V' dirty' i b b' :
  brep s pid H V dirty -> k_buf s !! i = Some b -> k_buf s' = <[i := b']> (k_buf s) ->
  k_lru s' ≡ₚ k_lru s -> bio_unlocked s' -> cur_pid s' pid ->
  buffer_ok pid H' V' dirty' i b' ->
  (forall j bj, j <> i -> k_buf s !! j = Some bj -> buffer_ok pid H' V' dirty' j bj) ->
  (forall j bj, j <> i -> k_buf s !! j = Some bj -> b_dev b' = ROOTDEV -> b_dev bj = ROOTDEV ->
     b_blockno bj <> b_blockno b') ->
  NoDup H'.*1 -> (forall j n, (j, n) ∈ H' -> j = i \/ (j, n) ∈ H) ->
  (forall n, n ∉ dirty' -> n ∉ H'.*2 -> V' n = disk_block s' n) ->
  (forall n, n ∈ dirty' -> caches n b' = true /\ has (b_flags b') B_DIRTY = true \/
     exists j bj, j <> i /\ k_buf s !! j = Some bj /\ caches n bj = true /\ has (b_flags bj) B_DIRTY = true) ->
  brep s' pid H' V' dirty'.
Proof.
  intros Hr Hb Eb El Hlk Hpid Hi Hj Hu Hnd Hin Hcl Hd.
  assert (k_buf s' !! i = Some b') as Hi' by (rewrite Eb; apply list_lookup_insert_eq; by eapply lookup_lt_Some).
  assert (forall j, j <> i -> k_buf s' !! j = k_buf s !! j) as Hne
    by (intros j ?; rewrite Eb; by rewrite list_lookup_insert_ne).
  assert (forall j bj, k_buf s' !! j = Some bj -> j = i /\ bj = b' \/ j <> i /\ k_buf s !! j = Some bj) as Hcase.
  { intros j bj Hjb. destruct (decide (j = i)) as [->|]; [left|right; by rewrite <-Hne].
    rewrite Hi' in Hjb. by injection Hjb. }
  split.
  - rewrite Eb, length_insert. apply Hr.
  - rewrite El. apply Hr.
  - intros j bj [[-> ->]|[? ?]]%Hcase; [done|]. by apply Hj.
  - intros j k bj bk Hjb Hkb Dj Dk E.
    destruct (Hcase _ _ Hjb) as [[-> ->]|[Hji Hj']], (Hcase _ _ Hkb) as [[-> ->]|[Hki Hk']]; try done.
    + by destruct (Hu k bk Hki Hk').
    + by destruct (Hu j bj Hji Hj').
    + by eapply (br_uniq _ _ _ _ _ Hr).
  - done.
  - intros j n Hjn. destruct (decide (j = i)) as [->|Hji]; [by exists b'|].
    rewrite Hne by done. destruct (Hin j n Hjn) as [->|?]; [done|]. by eapply (br_in _ _ _ _ _ Hr).
  - done.
  - intros n Hn. destruct (Hd n Hn) as [[? ?]|(j & bj & Hji & Hjb & ? & ?)].
    + by exists i, b'.
    + exists j, bj. by rewrite Hne.
  - done.
  - done.
Qed.

(** ** Reading a block *)

(** [bget] returns a locked buffer for the block: the one that caches it or
    a recycled one. *)
Lemma wp_bget_rep n pid H V dirty Q s :
  brep s pid H V dirty -> n ∉ H.*2 -> n ∈ dirty \/ Z.of_nat (size dirty + length H) < NBUF ->
  (forall i b b1, k_buf s !! i = Some b -> i ∉ H.*1 ->
     b_lock b1 = mk_sleeplock 1 pid -> b_refcnt b1 = 1 -> caches n b1 = true ->
     (caches n b = true /\ b_flags b1 = b_flags b /\ b_data b1 = b_data b \/
      (forall j bj, k_buf s !! j = Some bj -> caches n bj = false) /\
      has (b_flags b) B_DIRTY = false /\ b_flags b1 = 0) ->
     Q i (set_k_buf (<[i := b1]> (k_buf s)) s)) ->
  wp (bget ROOTDEV n) Q s.
Proof.
  intros Hr Hn Hroom HQ. destruct (br_locks _ _ _ _ _ Hr) as (Hlb & Hlp & Hlbuf).
  pose proof (br_pid _ _ _ _ _ Hr) as Hpid. unfold bget.
  wp_step. apply wp_acquire; [done|]. wp_steps. apply wp_scan. ksimpl.
  destruct (snd <$> list_find _ _) as [i|] eqn:E.
  - apply scan_Some in E as (b & Hb & Hc). assert (i ∉ H.*1) as Hi by (by eapply brep_idle).
    destruct (bo_idle _ _ _ _ _ _ (br_buf _ _ _ _ _ Hr i b Hb) Hi) as [Hlk Hrc].
    wp_step. eapply wp_get_buf; [done|]. wp_steps. unfold put_buf. wp_steps.
    eapply wp_release; [done|]. wp_step.
    eapply wp_b_acquiresleep; [apply Hlbuf|lookup_put|done..|].
    wp_steps. ksimpl. rewrite list_insert_insert_eq.
    replace (set_k_buf _ _) with (set_k_buf (<[i := set_b_lock (mk_sleeplock 1 pid)
      (set_b_refcnt (u32 (b_refcnt b + 1)) b)]> (k_buf s)) s) by by destruct s.
    eapply HQ; try done; [by rewrite Hrc|left; done].
  - assert (forall j bj, k_buf s !! j = Some bj -> caches n bj = false) as Hmiss.
    { intros j bj Hj. eapply scan_None in E; [exact E|by eapply brep_lru|done]. }
    clear E. wp_step. apply wp_scan. ksimpl. destruct (snd <$> list_find _ _) as [i|] eqn:E.
    + apply scan_Some in E as (b & Hb & Hc). rewrite has_land in Hc. bool_prop.
      assert (i ∉ H.*1) as Hi.
      { intros [m Hm]%elem_of_fst. destruct (brep_held _ _ _ _ _ Hr i m Hm) as (b0 & Hb0 & _ & Href & _). congruence. }
      destruct (bo_idle _ _ _ _ _ _ (br_buf _ _ _ _ _ Hr i b Hb) Hi) as [Hlk Hrc].
      wp_step. eapply wp_get_buf; [done|]. wp_steps. unfold put_buf. wp_steps.
      eapply wp_release; [done|]. wp_step.
      eapply wp_b_acquiresleep; [apply Hlbuf|lookup_put|done..|].
      wp_steps. ksimpl. rewrite list_insert_insert_eq.
      replace (set_k_buf _ _) with (set_k_buf (<[i := set_b_lock (mk_sleeplock 1 pid)
        (set_b_refcnt 1 (set_b_flags 0 (set_b_blockno n (set_b_dev ROOTDEV b))))]> (k_buf s)) s)
        by by destruct s.
      eapply HQ; try done; [by apply caches_true|right; done].
    + destruct Hroom as [Hnd|Hroom].
      { destruct (br_dirty _ _ _ _ _ Hr n Hnd) as (j & bj & Hj & Hcj & _). by rewrite (Hmiss j bj Hj) in Hcj. }
      destruct (brep_available _ _ _ _ _ Hr Hroom) as (i & b & Hb & Hi & Hcl).
      eapply scan_None in E; [|by rewrite list_elem_of_In, <-in_rev, <-list_elem_of_In; eapply brep_lru|done].
      rewrite has_land, Hcl in E.
      by rewrite (proj2 (bo_idle _ _ _ _ _ _ (br_buf _ _ _ _ _ Hr i b Hb) Hi)) in E.
Qed.

(** A buffer other than [i] when [i] is taken. *)
Lemma buffer_ok_cons pid H V dirty i n j b : j <> i ->
  buffer_ok pid H V dirty j b -> buffer_ok pid ((i, n) :: H) V dirty j b.
Proof.
  intros Hj [Hh Hi Hd Hdt]. split; [|..|done|done].
  - intros m [[= -> ->]|Hm]%elem_of_cons; [done|]. by apply Hh.
  - cbn. rewrite not_elem_of_cons. intros [_ ?]. by apply Hi.
Qed.

Lemma wp_bread_rep n pid H V dirty Q s :
  brep s pid H V dirty -> n ∉ H.*2 -> n ∈ dirty \/ Z.of_nat (size dirty + length H) < NBUF ->
  n < k_disksize s ->
  (forall i bs, let s' := set_k_buf bs s in
     i ∉ H.*1 -> brep s' pid ((i, n) :: H) V dirty -> Q i s') ->
  wp (bread ROOTDEV n) Q s.
Proof.
  intros Hr Hn Hroom Hsz HQ. unfold bread. wp_step. eapply wp_bget_rep; [done..|].
  intros i b b1 Hb Hi Hlk Href Hc Hold. wp_step. eapply wp_get_buf; [lookup_put|].
  pose proof (br_buf _ _ _ _ _ Hr i b Hb) as Hbo. pose proof (br_pid _ _ _ _ _ Hr) as Hpid.
  destruct (proj1 (caches_true _ _) Hc) as [Hdev1 Hblk1].
  assert (forall b2, b_lock b2 = mk_sleeplock 1 pid -> b_refcnt b2 = 1 -> caches n b2 = true ->
    has (b_flags b2) B_VALID = true -> b_data b2 = V n ->
    (has (b_flags b2) B_DIRTY = true <-> caches n b = true /\ has (b_flags b) B_DIRTY = true) ->
    Q i (set_k_buf (<[i := b2]> (k_buf s)) s)) as Hfin.
  { intros b2 Hlk2 Href2 Hc2 Hv2 Hd2 Hdt2. apply HQ; [done|].
    destruct (proj1 (caches_true _ _) Hc2) as [Hdev2 Hblk2].
    eapply (brep_update s _ _ H V dirty _ _ _ i b b2); try done; [apply Hr|..].
    - split.
      + intros m [[= <-]|Hm]%elem_of_cons; [done|]. destruct Hi. apply elem_of_fst. by exists m.
      + cbn. rewrite not_elem_of_cons. by intros [? _].
      + intros _ _. by rewrite Hblk2.
      + intros [Hcb Hdb]%Hdt2. split; [done|]. split; [done|]. rewrite Hblk2.
        apply caches_true in Hcb as [_ <-]. by apply Hbo.
    - intros j bj Hj Hjb. apply buffer_ok_cons; [done|]. by apply (br_buf _ _ _ _ _ Hr).
    - intros j bj Hj Hjb _ Hdj E. assert (caches n bj = true) as Hcj by (apply caches_true; split; [done|congruence]).
      destruct Hold as [(Hcb & _)|(Hmiss & _)]; [|by rewrite (Hmiss j bj Hjb) in Hcj].
      apply Hj. by eapply brep_cached_uniq.
    - cbn. apply NoDup_cons. split; [done|apply Hr].
    - intros j m [[= -> ->]|Hm]%elem_of_cons; auto.
    - intros m Hm Hmh. cbn in Hmh. apply not_elem_of_cons in Hmh as [_ ?].
      by apply (br_clean _ _ _ _ _ Hr).
    - intros m Hm. destruct (br_dirty _ _ _ _ _ Hr m Hm) as (j & bj & Hjb & Hcj & Hdj).
      destruct (decide (j = i)) as [->|Hji]; [|right; by exists j, bj].
      assert (bj = b) as -> by congruence. left.
      destruct Hold as [(Hcb & _)|(_ & Hcl & _)]; [|congruence].
      assert (m = n) as ->. { apply caches_true in Hcb as [_ <-], Hcj as [_ <-]. done. }
      split; [done|]. by apply Hdt2. }
  assert (n ∉ dirty -> V n = disk_block s n) as Hclean by (intros; by apply (br_clean _ _ _ _ _ Hr)).
  rewrite has_land. wp_step. apply wp_when; intros Hv; bool_prop.
  - assert (has (b_flags b1) B_DIRTY = false) as Hd1.
    { destruct Hold as [(_ & Hf & _)|(_ & _ & ->)]; [|done]. rewrite Hf in *.
      destruct (has (b_flags b) B_DIRTY) eqn:E; [|done]. rewrite (proj1 (bo_dirty _ _ _ _ _ _ Hbo E)) in Hv. done. }
    assert (n ∉ dirty) as Hnd.
    { intros Hm. destruct (br_dirty _ _ _ _ _ Hr n Hm) as (j & bj & Hjb & Hcj & Hdj).
      destruct Hold as [(Hcb & Hf & _)|(Hmiss & _)]; [|by rewrite (Hmiss j bj Hjb) in Hcj].
      assert (j = i) as -> by (by eapply brep_cached_uniq). congruence. }
    eapply (wp_iderw_read _ _ n); [apply Hr|done|lookup_put|done..|]. wp_steps. ksimpl.
    rewrite list_insert_insert_eq.
    replace (set_k_buf _ _) with (set_k_buf (<[i := set_b_flags (Z.lor (b_flags b1) B_VALID)
      (set_b_data (disk_block s n) b1)]> (k_buf s)) s) by by destruct s.
    apply Hfin; try done; ksimpl.
    + change B_VALID with PTE_W. rewrite has_W, Z.lor_spec. by rewrite orb_true_r.
    + symmetry. by apply Hclean.
    + change B_DIRTY with PTE_U in *. rewrite has_U, Z.lor_spec, <-has_U, Hd1. split; [done|].
      intros [Hcb Hdb]. destruct Hold as [(_ & Hf & _)|(Hmiss & _)]; [congruence|].
      by rewrite (Hmiss i b Hb) in Hcb.
  - wp_steps. destruct Hold as [(Hcb & Hfl & Hdt)|(_ & _ & Hf0)]; [|by rewrite Hf0 in Hv].
    apply Hfin; try done.
    + rewrite Hdt. apply caches_true in Hcb as [Hdb <-]. apply Hbo; [done|]. congruence.
    + rewrite Hfl. tauto.
Qed.

(** ** Changing, writing and releasing a block *)

(** [V] with block [n] replaced. *)
Definition upd_block V (n : Z) (d : list Z) : Z -> list Z := fun k => if decide (k = n) then d else V k.

Section held.
Context s pid H V dirty (Hr : brep s pid H V dirty) (i : nat) (n : Z) (Hi : (i, n) ∈ H).

Lemma held_uniq m : (i, m) ∈ H -> m = n.
Proof.
  intros Hm. destruct (brep_held _ _ _ _ _ Hr i n Hi) as (b & Hb & _ & _ & Hc & _).
  destruct (brep_held _ _ _ _ _ Hr i m Hm) as (b' & Hb' & _ & _ & Hc' & _).
  assert (b' = b) as -> by congruence. apply caches_true in Hc as [_ <-], Hc' as [_ <-]. done.
Qed.

Lemma held_other j bj b : k_buf s !! i = Some b -> caches n b = true -> j <> i ->
  k_buf s !! j = Some bj -> b_dev bj = ROOTDEV -> b_blockno bj <> n.
Proof.
  intros Hb Hc Hj Hjb Hd E. apply Hj. eapply brep_cached_uniq; [exact Hr|exact Hjb|exact Hb| |exact Hc].
  by apply caches_true.
Qed.

Lemma wp_put_data (f : list Z -> list Z) Q :
  (forall bs, let s' := set_k_buf bs s in brep s' pid H (upd_block V n (f (V n))) dirty -> Q tt s') ->
  wp (b ← get_buf i; put_buf i (set_b_data (f (b_data b)) b)) Q s.
Proof.
  intros HQ. destruct (brep_held _ _ _ _ _ Hr i n Hi) as (b & Hb & Hlk & Href & Hc & Hv & Hd).
  wp_step. eapply wp_get_buf; [done|]. apply wp_modify, HQ. rewrite Hd. set (d := f (V n)).
  destruct (proj1 (caches_true _ _) Hc) as [Hdev Hblk].
  pose proof (br_buf _ _ _ _ _ Hr i b Hb) as Hbo.
  eapply (brep_update s _ _ H V dirty _ _ _ i b (set_b_data d b)); try done; try apply Hr.
  - split; ksimpl.
    + intros m Hm. rewrite (held_uniq m Hm). done.
    + intros Hni. destruct Hni. apply elem_of_fst. by exists n.
    + intros _ _. unfold upd_block. by rewrite decide_True.
    + apply Hbo.
  - intros j bj Hj Hjb. destruct (br_buf _ _ _ _ _ Hr j bj Hjb) as [Jh Ji Jd Jdt]. split; try done.
    intros Hdj Hvj. unfold upd_block. rewrite decide_False by (by eapply held_other). by apply Jd.
  - intros j bj Hj Hjb _ Hdj. ksimpl. rewrite Hblk. by eapply held_other.
  - auto.
  - intros m Hm Hmh. unfold upd_block. rewrite decide_False; [by apply (br_clean _ _ _ _ _ Hr)|].
    intros ->. apply Hmh, elem_of_snd. by exists i.
  - intros m Hm. destruct (br_dirty _ _ _ _ _ Hr m Hm) as (j & bj & Hjb & Hcj & Hdj).
    destruct (decide (j = i)) as [->|Hji]; [left|right; by exists j, bj].
    by assert (bj = b) as -> by congruence.
Qed.

(** Pinning a buffer in the cache, as [log_write] does. *)
Lemma wp_mark_dirty Q :
  (forall bs, let s' := set_k_buf bs s in brep s' pid H V ({[n]} ∪ dirty) -> Q tt s') ->
  wp (b ← get_buf i; put_buf i (set_b_flags (Z.lor (b_flags b) B_DIRTY) b)) Q s.
Proof.
  intros HQ. destruct (brep_held _ _ _ _ _ Hr i n Hi) as (b & Hb & Hlk & Href & Hc & Hv & Hd).
  wp_step. eapply wp_get_buf; [done|]. apply wp_modify, HQ.
  destruct (proj1 (caches_true _ _) Hc) as [Hdev Hblk].
  assert (has (Z.lor (b_flags b) B_DIRTY) B_VALID = true) as Hv'.
  { change B_VALID with PTE_W in *. rewrite has_W in *. rewrite Z.lor_spec, Hv. done. }
  assert (has (Z.lor (b_flags b) B_DIRTY) B_DIRTY = true) as Hd'.
  { change B_DIRTY with PTE_U. rewrite has_U, Z.lor_spec. apply orb_true_r. }
  eapply (brep_update s _ _ H V dirty _ _ _ i b); try done; try apply Hr.
  - split; ksimpl.
    + intros m Hm. rewrite (held_uniq m Hm). done.
    + intros Hni. destruct Hni. apply elem_of_fst. by exists n.
    + intros _ _. by rewrite Hblk.
    + intros _. split; [done|]. split; [done|]. rewrite Hblk. set_solver.
  - intros j bj Hj Hjb. destruct (br_buf _ _ _ _ _ Hr j bj Hjb) as [Jh Ji Jd Jdt]. split; try done.
    intros Hdj. destruct (Jdt Hdj) as (? & ? & ?). set_solver.
  - intros j bj Hj Hjb _ Hdj. ksimpl. rewrite Hblk. by eapply held_other.
  - auto.
  - intros m Hm Hmh. apply (br_clean _ _ _ _ _ Hr); [set_solver|done].
  - intros m [->%elem_of_singleton|Hm]%elem_of_union; [left; by ksimpl|].
    destruct (br_dirty _ _ _ _ _ Hr m Hm) as (j & bj & Hjb & Hcj & Hdj).
    destruct (decide (j = i)) as [->|Hji]; [left|right; by exists j, bj].
    by assert (bj = b) as -> by congruence.
Qed.

Lemma wp_bwrite_rep Q : n < k_disksize s ->
  (forall bs, let s' := set_k_buf bs (set_k_disk ((n, V n) :: k_disk s) s) in
     brep s' pid H V (dirty ∖ {[n]}) -> Q tt s') ->
  wp (bwrite i) Q s.
Proof.
  intros Hsz HQ. destruct (brep_held _ _ _ _ _ Hr i n Hi) as (b & Hb & Hlk & Href & Hc & Hv & Hd).
  destruct (proj1 (caches_true _ _) Hc) as [Hdev Hblk]. pose proof (br_locks _ _ _ _ _ Hr) as Hul.
  pose proof (br_pid _ _ _ _ _ Hr) as Hpid.
  unfold bwrite. wp_step. eapply wp_b_holdingsleep; [apply Hul|done..|]. cbn [negb].
  wp_step. eapply wp_get_buf; [done|]. unfold put_buf at 1. wp_steps. ksimpl.
  eapply (wp_iderw_write _ _ n); [apply Hul|done|lookup_put|done..| |].
  { ksimpl. change B_DIRTY with PTE_U. rewrite has_U, Z.lor_spec. by rewrite orb_true_r. }
  cbn [k_buf k_disk set_k_buf set_k_disk]. rewrite list_insert_insert_eq.
  change (b_data (set_b_flags (Z.lor (b_flags b) B_DIRTY) b)) with (b_data b). rewrite Hd.
  set (b' := set_b_flags (Z.lor (Z.land _ _) _) _).
  assert (has (b_flags b') B_VALID = true /\ has (b_flags b') B_DIRTY = false) as [Hv' Hd'].
  { change B_VALID with PTE_W. change B_DIRTY with PTE_U. subst b'. ksimpl.
    rewrite has_W, has_U, !Z.lor_spec, !Z.land_spec. change B_DIRTY with 4. change B_VALID with 2.
    cbn. by rewrite !orb_true_r, andb_false_r. }
  replace (set_k_buf _ _) with (set_k_buf (<[i := b']> (k_buf s)) (set_k_disk ((n, V n) :: k_disk s) s))
    by (by destruct s).
  apply HQ. eapply (brep_update s _ _ H V dirty _ _ _ i b b'); try done; try apply Hr.
  - split; ksimpl.
    + intros m Hm. rewrite (held_uniq m Hm). done.
    + intros Hni. destruct Hni. apply elem_of_fst. by exists n.
    + intros _ _. change (b_blockno b') with (b_blockno b). by rewrite Hblk.
    + by rewrite Hd'.
  - intros j bj Hj Hjb. destruct (br_buf _ _ _ _ _ Hr j bj Hjb) as [Jh Ji Jd Jdt]. split; try done.
    intros Hdj. destruct (Jdt Hdj) as (? & ? & ?). split; [done|]. split; [done|].
    assert (b_blockno bj <> n) by (by eapply held_other). set_solver.
  - intros j bj Hj Hjb _ Hdj. change (b_blockno b') with (b_blockno b). rewrite Hblk. by eapply held_other.
  - auto.
  - intros m Hm Hmh. unfold disk_block. cbn. case_decide as E; [by subst|].
    apply (br_clean _ _ _ _ _ Hr); [set_solver|done].
  - intros m [Hm Hmn]%elem_of_difference.
    destruct (br_dirty _ _ _ _ _ Hr m Hm) as (j & bj & Hjb & Hcj & Hdj).
    destruct (decide (j = i)) as [->|Hji]; [|right; by exists j, bj].
    assert (bj = b) as -> by congruence. apply caches_true in Hcj as [_ <-]. set_solver.
Qed.
End held.

(** [H] without the buffer [i]. *)
Definition drop_held (i : nat) H : list (nat * Z) := filter (fun x => fst x <> i) H.

Lemma elem_of_drop_held i H j n : (j, n) ∈ drop_held i H <-> j <> i /\ (j, n) ∈ H.
Proof. unfold drop_held. by rewrite list_elem_of_filter. Qed.

Lemma drop_held_fst i H j : j ∈ (drop_held i H).*1 <-> j <> i /\ j ∈ H.*1.
Proof.
  rewrite !elem_of_fst. setoid_rewrite elem_of_drop_held. naive_solver.
Qed.

Lemma drop_held_NoDup i H : NoDup H.*1 -> NoDup (drop_held i H).*1.
Proof.
  induction H as [|[j n] H IH]; [done|]. rewrite fmap_cons, NoDup_cons. intros [Hj Hnd].
  unfold drop_held. rewrite filter_cons. case_decide as E; [|by apply IH].
  rewrite fmap_cons. apply NoDup_cons. split; [|by apply IH]. by intros [_ ?]%drop_held_fst.
Qed.

Lemma wp_brelse_rep s pid H V dirty i n Q :
  brep s pid H V dirty -> (i, n) ∈ H -> n ∈ dirty \/ V n = disk_block s n ->
  (forall bs lru ps, procs_woken (k_proc s) ps ->
     let s' := set_k_lru lru (set_k_proc ps (set_k_buf bs s)) in
     brep s' pid (drop_held i H) V dirty -> Q tt s') ->
  wp (brelse i) Q s.
Proof.
  intros Hr Hi Hsafe HQ. destruct (brep_held _ _ _ _ _ Hr i n Hi) as (b & Hb & Hlk & Href & Hc & Hv & Hd).
  destruct (proj1 (caches_true _ _) Hc) as [Hdev Hblk]. pose proof (br_pid _ _ _ _ _ Hr) as Hpid.
  destruct (brep_lru _ _ _ _ _ Hr i b Hb) as [Hin Hnd].
  eapply wp_brelse; [apply Hr|done|done|done|done|done|done|]. intros ps lru Hps Hlru. apply HQ; [done|].
  set (b' := set_b_refcnt _ _). pose proof (br_buf _ _ _ _ _ Hr i b Hb) as Hbo.
  eapply (brep_update s _ _ H V dirty _ _ _ i b b'); try done; try apply Hr.
  - by eapply (cur_pid_woken s).
  - split.
    + by intros m [? _]%elem_of_drop_held.
    + done.
    + exact (bo_data _ _ _ _ _ _ Hbo).
    + exact (bo_dirty _ _ _ _ _ _ Hbo).
  - intros j bj Hj Hjb. destruct (br_buf _ _ _ _ _ Hr j bj Hjb) as [Jh Ji Jd Jdt]. split; try done.
    + intros m [_ Hm]%elem_of_drop_held. by apply Jh.
    + rewrite drop_held_fst. intros Hni. apply Ji. tauto.
  - intros j bj Hj Hjb _ Hdj. change (b_blockno b') with (b_blockno b). rewrite Hblk. exact (held_other _ _ _ _ _ Hr i n j bj b Hb Hc Hj Hjb Hdj).
  - apply drop_held_NoDup, Hr.
  - intros j m [_ ?]%elem_of_drop_held. auto.
  - intros m Hm Hmh. destruct (decide (m = n)) as [->|Hmn]; [by destruct Hsafe|].
    apply (br_clean _ _ _ _ _ Hr); [done|]. rewrite elem_of_snd. intros [j Hj]. apply Hmh, elem_of_snd.
    exists j. apply elem_of_drop_held. split; [|done]. intros ->. destruct Hmn. exact (held_uniq _ _ _ _ _ Hr i n Hi m Hj).
  - intros m Hm. destruct (br_dirty _ _ _ _ _ Hr m Hm) as (j & bj & Hjb & Hcj & Hdj).
    destruct (decide (j = i)) as [->|Hji]; [left|right; by exists j, bj].
    by assert (bj = b) as -> by congruence.
Qed.
