(* ===== verification/Ide.v ===== *)
(** * The IDE disk driver

    [ide.c]: requests wait in a queue that is linked through the buffers; the
    first one is with the disk; its interrupt completes it and starts the
    next.  The disk is modelled by its registers: the sector number and the
    drive in the task file, the command, the data that passes through the
    data port.  A call of [iderw] that has to wait ends asleep, and is
    continued by [iderw_resume].

    The theorem shows that the driver implements the contract of [memide.c],
    on which the rest of the development is built: whatever requests arrive
    and whatever the interrupts do in between, the requests are carried out
    one by one in the order of their arrival. *)

From Stdlib Require Import ZArith Lia.
From stdpp Require Import base strings numbers gmap list.
From S2P Require Import Prelude Mmu Memory Kernel Sleeplock Bio.

(** ** The disk *)

Definition IDE_BSY : Z := 0x80.
Definition IDE_DRDY : Z := 0x40.
Definition IDE_DF : Z := 0x20.
Definition IDE_ERR : Z := 0x01.
Definition IDE_CMD_READ : Z := 0x20.
Definition IDE_CMD_WRITE : Z := 0x30.
Definition IDE_CMD_RDMUL : Z := 0xc4.
Definition IDE_CMD_WRMUL : Z := 0xc5.
Definition SECTOR_SIZE : Z := 512.

(** What the disk is doing, on which drive and sector. *)
Inductive dop :=
  | Idle
  | Reading (drive lba : Z)
  | ReadReady (data : list Z)
  | Writing (drive lba : Z)
  | WriteData (drive lba : Z) (data : list Z).

(** The registers 0x1f2 to 0x1f6, how often the status will still read busy,
    the error bits of the status, the operation, and the writes to each
    drive, newest first. *)
Record device := mk_device {
  d_count : Z; d_lba0 : Z; d_lba1 : Z; d_lba2 : Z; d_head : Z;
  d_busy : nat; d_err : Z; d_op : dop; d_disk : Z -> list (Z * list Z) }.

(** The drive and the sector that the registers select. *)
Definition d_drive (d : device) : Z := Z.land (Z.shiftr (d_head d) 4) 1.
Definition d_lba (d : device) : Z :=
  d_lba0 d + 0x100 * d_lba1 d + 0x10000 * d_lba2 d + 0x1000000 * Z.land (d_head d) 0x0f.

Definition set_d_op (op : dop) (d : device) : device :=
  mk_device (d_count d) (d_lba0 d) (d_lba1 d) (d_lba2 d) (d_head d) (d_busy d) (d_err d) op (d_disk d).
Definition set_d_busy (n : nat) (d : device) : device :=
  mk_device (d_count d) (d_lba0 d) (d_lba1 d) (d_lba2 d) (d_head d) n (d_err d) (d_op d) (d_disk d).

Definition dev_outb (port v : Z) (d : device) : device :=
  let '(mk_device n a b c h k e op s) := d in
  if port =? 0x1f2 then mk_device v a b c h k e op s
  else if port =? 0x1f3 then mk_device n v b c h k e op s
  else if port =? 0x1f4 then mk_device n a v c h k e op s
  else if port =? 0x1f5 then mk_device n a b v h k e op s
  else if port =? 0x1f6 then mk_device n a b c v k e op s
  else if port =? 0x1f7 then
    if v =? IDE_CMD_READ then set_d_op (Reading (d_drive d) (d_lba d)) d
    else if v =? IDE_CMD_WRITE then set_d_op (Writing (d_drive d) (d_lba d)) d
    else d
  else d.

(** The disk finishes its operation and raises its interrupt; the status
    reads busy [k] more times. *)
Definition dev_finish (k : nat) (d : device) : device :=
  set_d_busy k
  match d_op d with
  | Reading u l => set_d_op (ReadReady (disk_at (d_disk d u) l)) d
  | WriteData u l data =>
      mk_device (d_count d) (d_lba0 d) (d_lba1 d) (d_lba2 d) (d_head d) (d_busy d) (d_err d) Idle
        (fun u' => if u' =? u then (l, data) :: d_disk d u else d_disk d u')
  | _ => d
  end.

(** ** The driver *)

(** The buffers with their [qnext], [idequeue], [havedisk1], [idelock], the
    buffers that [wakeup] was called for, newest first, and the disk. *)
Record ide := mk_ide {
  e_buf : list buf; e_qnext : list (option nat); e_queue : option nat;
  e_havedisk1 : bool; e_held : bool; e_woken : list nat; e_dev : device }.
Abbreviation D := (M ide).

Definition upd_dev (f : device -> device) : D unit :=
  modify (fun s => mk_ide (e_buf s) (e_qnext s) (e_queue s) (e_havedisk1 s) (e_held s) (e_woken s) (f (e_dev s))).
Definition set_queue (q : option nat) : D unit :=
  modify (fun s => mk_ide (e_buf s) (e_qnext s) q (e_havedisk1 s) (e_held s) (e_woken s) (e_dev s)).
Definition set_qnext (i : nat) (q : option nat) : D unit :=
  modify (fun s => mk_ide (e_buf s) (<[i := q]> (e_qnext s)) (e_queue s) (e_havedisk1 s) (e_held s) (e_woken s) (e_dev s)).
Definition set_havedisk1 (b : bool) : D unit :=
  modify (fun s => mk_ide (e_buf s) (e_qnext s) (e_queue s) b (e_held s) (e_woken s) (e_dev s)).
Definition get_ebuf (i : nat) : D buf := s ← gets (fun s => s); the (e_buf s !! i).
Definition put_ebuf (i : nat) (b : buf) : D unit :=
  modify (fun s => mk_ide (<[i := b]> (e_buf s)) (e_qnext s) (e_queue s) (e_havedisk1 s) (e_held s) (e_woken s) (e_dev s)).
Definition get_qnext (i : nat) : D (option nat) := s ← gets (fun s => s); the (e_qnext s !! i).
Definition set_held (b : bool) : D unit :=
  modify (fun s => mk_ide (e_buf s) (e_qnext s) (e_queue s) (e_havedisk1 s) b (e_woken s) (e_dev s)).
Definition acquire_ide : D unit :=
  h ← gets e_held; if (h : bool) then panic "acquire" else set_held true.
Definition release_ide : D unit :=
  h ← gets e_held; if negb (h : bool) then panic "release" else set_held false.
Definition wakeup_ide (i : nat) : D unit :=
  modify (fun s => mk_ide (e_buf s) (e_qnext s) (e_queue s) (e_havedisk1 s) (e_held s) (i :: e_woken s) (e_dev s)).

Definition outb (port v : Z) : D unit := upd_dev (dev_outb port v).
(** The status register. *)
Definition inb_status : D Z :=
  d ← gets e_dev;
  match d_busy d with
  | S k => upd_dev (set_d_busy k);; mret IDE_BSY
  | O => mret (Z.lor IDE_DRDY (d_err d))
  end.
(** The data port: there must be data to take or to expect. *)
Definition insl : D (list Z) :=
  d ← gets e_dev;
  match d_op d with ReadReady data => upd_dev (set_d_op Idle);; mret data | _ => fail Trap end.
Definition outsl (data : list Z) : D unit :=
  d ← gets e_dev;
  match d_op d with Writing u l => upd_dev (set_d_op (WriteData u l data)) | _ => fail Trap end.

Definition idewait (checkerr : bool) : D Z :=
  d ← gets e_dev;
  r ← while_ (S (d_busy d)) (fun _ : unit =>
        r ← inb_status;
        mret (if Z.land r (Z.lor IDE_BSY IDE_DRDY) =? IDE_DRDY then inr r else inl tt)) tt;
  mret (if checkerr && negb (Z.land r (Z.lor IDE_DF IDE_ERR) =? 0) then -1 else 0).

(** [present] is whether the status of the second drive reads other than 0. *)
Definition ideinit (present : bool) : D unit :=
  _ ← idewait false;
  outb 0x1f6 (Z.lor 0xe0 (Z.shiftl 1 4));;
  when present (set_havedisk1 true);;
  outb 0x1f6 (Z.lor 0xe0 (Z.shiftl 0 4)).

Definition idestart (o : option nat) : D unit :=
  match o with
  | None => panic "idestart"
  | Some i =>
      b ← get_ebuf i;
      if FSSIZE + SWAPBLOCKS <=? b_blockno b then panic "incorrect blockno"
      else
        let sector_per_block := BSIZE / SECTOR_SIZE in
        let sector := b_blockno b * sector_per_block in
        let read_cmd := if sector_per_block =? 1 then IDE_CMD_READ else IDE_CMD_RDMUL in
        let write_cmd := if sector_per_block =? 1 then IDE_CMD_WRITE else IDE_CMD_WRMUL in
        if 7 <? sector_per_block then panic "idestart"
        else
          _ ← idewait false;
          outb 0x3f6 0;;
          outb 0x1f2 sector_per_block;;
          outb 0x1f3 (Z.land sector 0xff);;
          outb 0x1f4 (Z.land (Z.shiftr sector 8) 0xff);;
          outb 0x1f5 (Z.land (Z.shiftr sector 16) 0xff);;
          outb 0x1f6 (Z.lor (Z.lor 0xe0 (Z.shiftl (Z.land (b_dev b) 1) 4)) (Z.land (Z.shiftr sector 24) 0x0f));;
          if negb (Z.land (b_flags b) B_DIRTY =? 0) then
            outb 0x1f7 write_cmd;;
            outsl (b_data b)
          else outb 0x1f7 read_cmd
  end.

(** What [ideintr] does to the buffer of the request. *)
Definition complete (i : nat) : D unit :=
  b ← get_ebuf i;
  (if Z.land (b_flags b) B_DIRTY =? 0 then
     r ← idewait true;
     if 0 <=? r then data ← insl; put_ebuf i (set_b_data data b) else mret tt
   else mret tt);;
  b ← get_ebuf i;
  put_ebuf i (set_b_flags (Z.land (Z.lor (b_flags b) B_VALID) (Z.lnot B_DIRTY)) b).

Definition ideintr : D unit :=
  acquire_ide;;
  q ← gets e_queue;
  match q with
  | None => release_ide
  | Some i =>
      n ← get_qnext i;
      set_queue n;;
      complete i;;
      wakeup_ide i;;
      q ← gets e_queue;
      (match q with Some _ => idestart q | None => mret tt end);;
      release_ide
  end.

(** [for(pp = &idequeue; *pp; pp = &( *pp)->qnext); *pp = b;], at most
    [fuel] steps: [p] is the buffer whose [qnext] [pp] points to. *)
Fixpoint append_at (fuel : nat) (p i : nat) : D unit :=
  match fuel with
  | O => fail Hang
  | S f =>
      n ← get_qnext p;
      match n with
      | Some p' => append_at f p' i
      | None => set_qnext p (Some i)
      end
  end.
Definition append (i : nat) : D unit :=
  s ← gets (fun s => s);
  match e_queue s with
  | None => set_queue (Some i)
  | Some p => append_at (length (e_buf s)) p i
  end.

(** [(b->flags & (B_VALID|B_DIRTY)) == B_VALID] *)
Definition synced (b : buf) : bool := Z.land (b_flags b) (Z.lor B_VALID B_DIRTY) =? B_VALID.

(** The loop [while(!synced) sleep(b, &idelock);] with the lock held: whether
    the process is done, or asleep with the lock released. *)
Definition iderw_wait (i : nat) : D bool :=
  b ← get_ebuf i;
  release_ide;;
  mret (synced b).
Definition iderw_resume (i : nat) : D bool := acquire_ide;; iderw_wait i.

(** [pid] is the process that calls. *)
Definition iderw_enter (pid : Z) (i : nat) : D bool :=
  b ← get_ebuf i;
  s ← gets (fun s => s);
  if negb (negb (sl_locked (b_lock b) =? 0) && (sl_pid (b_lock b) =? pid)) then panic "iderw: buf not locked"
  else if synced b then panic "iderw: nothing to do"
  else if negb (b_dev b =? 0) && negb (e_havedisk1 s) then panic "iderw: ide disk 1 not present"
  else
    acquire_ide;;
    set_qnext i None;;
    append i;;
    q ← gets e_queue;
    when (bool_decide (q = Some i)) (idestart (Some i));;
    iderw_wait i.

(** ** The contract *)

(** A request carried out at once, as [iderw] of [memide.c] does it: the
    buffer and the writes to the disk afterwards. *)
Definition sync (b : buf) (disk : list (Z * list Z)) : buf * list (Z * list Z) :=
  if has (b_flags b) B_DIRTY
  then (set_b_flags (Z.lor (Z.land (b_flags b) (Z.lnot B_DIRTY)) B_VALID) b, (b_blockno b, b_data b) :: disk)
  else (set_b_flags (Z.lor (b_flags b) B_VALID) (set_b_data (disk_at disk (b_blockno b)) b), disk).

(** Requests, interrupts of the disk, and changes of buffers by processes
    that hold them. *)
Inductive event :=
  | Request (pid : Z) (i : nat)
  | Interrupt (busy : nat)
  | Change (i : nat) (b : buf).

Definition handle (e : event) : D unit :=
  match e with
  | Request pid i => _ ← iderw_enter pid i; mret tt
  | Interrupt k => upd_dev (dev_finish k);; ideintr
  | Change i b => put_ebuf i b
  end.
Fixpoint handle_all (es : list event) : D unit :=
  match es with [] => mret tt | e :: es => handle e;; handle_all es end.

(** The abstract driver: the buffers, the requests that wait, oldest first,
    the writes to the disk, and the requests done, newest first. *)
Record queue := mk_queue { q_buf : list buf; q_wait : list nat; q_disk : list (Z * list Z); q_done : list nat }.
Definition serve (e : event) (a : queue) : queue :=
  match e with
  | Request _ i => mk_queue (q_buf a) (q_wait a ++ [i]) (q_disk a) (q_done a)
  | Interrupt _ =>
      match q_wait a with
      | [] => a
      | i :: w =>
          match q_buf a !! i with
          | Some b => mk_queue (<[i := (sync b (q_disk a)).1]> (q_buf a)) w (sync b (q_disk a)).2 (i :: q_done a)
          | None => a
          end
      end
  | Change i b => mk_queue (<[i := b]> (q_buf a)) (q_wait a) (q_disk a) (q_done a)
  end.

(** A buffer that needs a transfer, and when an event may happen: a process
    asks for a buffer that it holds and that nobody has asked for, and does
    not touch a buffer that waits. *)
Definition pending (b : buf) : Prop :=
  b_dev b = 1 /\ 0 <= b_blockno b < FSSIZE + SWAPBLOCKS /\ synced b = false.
Definition legal (e : event) (a : queue) : Prop :=
  match e with
  | Request pid i => i ∉ q_wait a /\ exists b, q_buf a !! i = Some b /\ pending b /\ b_lock b = mk_sleeplock 1 pid
  | Interrupt _ => True
  | Change i b => i ∉ q_wait a
  end.
Fixpoint legal_all (es : list event) (a : queue) : Prop :=
  match es with [] => True | e :: es => legal e a /\ legal_all es (serve e a) end.

(** The requests are linked in the order of the list. *)
Fixpoint linked (nx : list (option nat)) (q : list nat) : Prop :=
  match q with [] => True | i :: q' => nx !! i = Some (head q') /\ linked nx q' end.
(** The disk is busy with the request for [b]. *)
Definition op_for (b : buf) : dop :=
  if has (b_flags b) B_DIRTY then WriteData 1 (b_blockno b) (b_data b) else Reading 1 (b_blockno b).

Record ide_rep (s : ide) (a : queue) : Prop := {
  ir_buf : e_buf s = q_buf a;
  ir_len : length (e_qnext s) = length (e_buf s);
  ir_head : e_queue s = head (q_wait a);
  ir_linked : linked (e_qnext s) (q_wait a);
  ir_nodup : NoDup (q_wait a);
  ir_pending : Forall (fun i => exists b, q_buf a !! i = Some b /\ pending b) (q_wait a);
  ir_op : forall i b, head (q_wait a) = Some i -> q_buf a !! i = Some b -> d_op (e_dev s) = op_for b;
  ir_idle : q_wait a = [] -> d_op (e_dev s) = Idle;
  ir_disk : d_disk (e_dev s) 1 = q_disk a;
  ir_err : d_err (e_dev s) = 0;
  ir_have : e_havedisk1 s = true;
  ir_held : e_held s = false;
  ir_woken : e_woken s = q_done a }.

(** *** The registers *)

Lemma wp_idewait ck (Q : Z -> ide -> Prop) s : d_err (e_dev s) = 0 ->
  Q 0 (mk_ide (e_buf s) (e_qnext s) (e_queue s) (e_havedisk1 s) (e_held s) (e_woken s) (set_d_busy 0 (e_dev s))) ->
  wp (idewait ck) Q s.
Proof.
  intros He HQ. unfold idewait. wp_step. wp_step. wp_step.
  assert (forall k Q' s, d_busy (e_dev s) = k -> d_err (e_dev s) = 0 ->
    Q' IDE_DRDY (mk_ide (e_buf s) (e_qnext s) (e_queue s) (e_havedisk1 s) (e_held s) (e_woken s) (set_d_busy 0 (e_dev s))) ->
    wp (while_ (S k) (fun _ : unit => r ← inb_status;
      mret (if Z.land r (Z.lor IDE_BSY IDE_DRDY) =? IDE_DRDY then inr r else inl tt)) tt) Q' s) as Hloop.
  { clear. induction k as [|k IH]; intros Q' s Hk He HQ; apply wp_while_S; unfold inb_status; wp_step; wp_step; wp_step; rewrite Hk.
    - wp_step. rewrite He. apply wp_ret. change (Z.land (Z.lor IDE_DRDY 0) (Z.lor IDE_BSY IDE_DRDY) =? IDE_DRDY) with true.
      cbn iota. change (Z.lor IDE_DRDY 0) with IDE_DRDY. replace (set_d_busy 0 (e_dev s)) with (e_dev s) in HQ; [by destruct s|].
      destruct s as [? ? ? ? ? ? []]. cbn in *. by subst.
    - unfold upd_dev. wp_steps. change (Z.land IDE_BSY (Z.lor IDE_BSY IDE_DRDY) =? IDE_DRDY) with false. cbn iota.
      apply IH; [done|done|]. exact HQ. }
  apply (Hloop _ _ _ eq_refl He). wp_step. destruct ck; exact HQ.
Qed.

(** The registers hold the sector of the block and the second drive. *)
Lemma sector_registers n : 0 <= n < FSSIZE + SWAPBLOCKS ->
  let h := Z.lor (Z.lor 0xe0 (Z.shiftl (Z.land 1 1) 4)) (Z.land (Z.shiftr n 24) 0x0f) in
  Z.land (Z.shiftr h 4) 1 = 1 /\
  Z.land n 0xff + 0x100 * Z.land (Z.shiftr n 8) 0xff + 0x10000 * Z.land (Z.shiftr n 16) 0xff + 0x1000000 * Z.land h 0x0f = n.
Proof.
  intros Hn h. unfold FSSIZE, SWAPBLOCKS in Hn.
  assert (Z.shiftr n 24 = 0) as E24 by (rewrite Z.shiftr_div_pow2 by lia; change (2 ^ 24) with 16777216; zdiv).
  assert (Z.shiftr n 16 = 0) as E16 by (rewrite Z.shiftr_div_pow2 by lia; change (2 ^ 16) with 65536; zdiv).
  unfold h. rewrite E24, E16. split; [reflexivity|]. change (Z.land (Z.lor (Z.lor 0xe0 (Z.shiftl (Z.land 1 1) 4)) (Z.land 0 0x0f)) 0x0f) with 0.
  change 0xff with (Z.ones 8). rewrite !Z.land_ones, Z.shiftr_div_pow2 by lia. change (2 ^ 8) with 256. zdiv.
Qed.

Lemma wp_outb p v B X q hv hd w d (Q : unit -> ide -> Prop) : Q tt (mk_ide B X q hv hd w (dev_outb p v d)) ->
  wp (outb p v) Q (mk_ide B X q hv hd w d).
Proof. done. Qed.

Lemma wp_idestart i b (Q : unit -> ide -> Prop) s : e_buf s !! i = Some b -> pending b -> d_err (e_dev s) = 0 ->
  (forall d, d_op d = op_for b -> d_disk d = d_disk (e_dev s) -> d_err d = 0 ->
     Q tt (mk_ide (e_buf s) (e_qnext s) (e_queue s) (e_havedisk1 s) (e_held s) (e_woken s) d)) ->
  wp (idestart (Some i)) Q s.
Proof.
  intros Hb (Hdev & Hblk & _) He HQ. unfold idestart, get_ebuf. wp_step. wp_step. wp_step. eapply wp_the; [exact Hb|].
  rewrite (proj2 (Z.leb_gt _ _)) by lia. change (BSIZE / SECTOR_SIZE) with 1. cbn zeta. cbn [Z.ltb Z.compare Pos.compare Pos.compare_cont Z.eqb Pos.eqb].
  rewrite Z.mul_1_r, Hdev. destruct (sector_registers (b_blockno b) Hblk) as [Hdrive Hlba]. cbn zeta in Hdrive, Hlba.
  wp_step. apply wp_idewait; [done|]. rewrite has_land, negb_involutive. unfold op_for in HQ.
  destruct s as [? ? ? ? ? ? [n0 a0 b0 c0 h0 k0 e0 op0 dk0]]. cbn [e_dev e_buf e_qnext e_queue e_havedisk1 e_held e_woken] in *.
  do 6 (wp_step; apply wp_outb). cbn [dev_outb set_d_busy Z.eqb Pos.eqb d_count d_lba0 d_lba1 d_lba2 d_head d_busy d_err d_op d_disk].
  destruct (has (b_flags b) B_DIRTY).
  - wp_step. apply wp_outb. unfold outsl, upd_dev. wp_step. wp_step. cbn [e_dev].
    cbn [dev_outb set_d_op Z.eqb Pos.eqb IDE_CMD_WRITE IDE_CMD_READ d_op]. wp_step. apply HQ; [|done|done].
    cbn [set_d_op d_op]. f_equal; [exact Hdrive|exact Hlba].
  - apply wp_outb. apply HQ; [|done|done].
    cbn [dev_outb set_d_op Z.eqb Pos.eqb IDE_CMD_READ d_op]. f_equal; [exact Hdrive|exact Hlba].
Qed.

(** *** The queue *)

Lemma linked_ext X X' q : (forall j, j ∈ q -> X' !! j = X !! j) -> linked X q -> linked X' q.
Proof.
  induction q as [|i q IH]; [done|]. intros Hx [H1 H2]. split; [rewrite Hx by (by left); done|].
  apply IH; [|done]. intros j Hj. apply Hx. by right.
Qed.

Lemma wp_append_at i q : forall f p (Q : unit -> ide -> Prop) s,
  linked (e_qnext s) (p :: q) -> NoDup (p :: q) -> i ∉ p :: q -> e_qnext s !! i = Some None -> (length (p :: q) <= f)%nat ->
  (forall X', linked X' (p :: q ++ [i]) -> length X' = length (e_qnext s) -> (forall j, j ∉ p :: q -> X' !! j = e_qnext s !! j) ->
     Q tt (mk_ide (e_buf s) X' (e_queue s) (e_havedisk1 s) (e_held s) (e_woken s) (e_dev s))) ->
  wp (append_at f p i) Q s.
Proof.
  induction q as [|p' q IH]; intros [|f] p Q s [Hp Hl] Hnd Hi Hin Hf HQ; cbn [length] in Hf; try lia; cbn [append_at]; unfold get_qnext.
  - wp_step. wp_step. wp_step. eapply wp_the; [exact Hp|]. cbn [head]. unfold set_qnext. wp_step.
    apply HQ; [|by rewrite length_insert|].
    + cbn [app linked head]. pose proof (lookup_lt_Some _ _ _ Hp). rewrite list_lookup_insert_eq by done. split; [done|]. split; [|done].
      rewrite list_lookup_insert_ne by set_solver. done.
    + intros j Hj. apply list_lookup_insert_ne. set_solver.
  - wp_step. wp_step. wp_step. eapply wp_the; [exact Hp|]. cbn [head]. apply NoDup_cons in Hnd as [Hpq Hnd].
    apply IH; [done|done|set_solver|done|cbn; lia|]. intros X' HX' Hlen Hout. apply HQ; [|done|].
    + split; [|done]. rewrite Hout by done. exact Hp.
    + intros j Hj. apply Hout. set_solver.
Qed.

Lemma wait_bound s a : ide_rep s a -> (length (q_wait a) <= length (e_buf s))%nat.
Proof.
  intros H. rewrite <-(length_seq (length (e_buf s)) 0). apply submseteq_length, NoDup_submseteq; [apply H|].
  intros i Hi. pose proof (ir_pending _ _ H) as Hp. rewrite Forall_forall in Hp. destruct (Hp i Hi) as (b & Hb & _).
  rewrite (ir_buf _ _ H). apply elem_of_seq. apply lookup_lt_Some in Hb. lia.
Qed.

(** *** The events *)

Lemma wp_acquire_ide (Q : unit -> ide -> Prop) s : e_held s = false ->
  Q tt (mk_ide (e_buf s) (e_qnext s) (e_queue s) (e_havedisk1 s) true (e_woken s) (e_dev s)) -> wp acquire_ide Q s.
Proof. intros Hh HQ. unfold acquire_ide. wp_step. wp_step. by rewrite Hh. Qed.

Lemma wp_release_ide (Q : unit -> ide -> Prop) s : e_held s = true ->
  Q tt (mk_ide (e_buf s) (e_qnext s) (e_queue s) (e_havedisk1 s) false (e_woken s) (e_dev s)) -> wp release_ide Q s.
Proof. intros Hh HQ. unfold release_ide. wp_step. wp_step. by rewrite Hh. Qed.

Lemma wp_iderw_resume i b s (Q : bool -> ide -> Prop) : e_held s = false -> e_buf s !! i = Some b -> Q (synced b) s ->
  wp (iderw_resume i) Q s.
Proof.
  intros Hh Hb HQ. unfold iderw_resume, iderw_wait, get_ebuf. wp_step. apply wp_acquire_ide; [done|].
  wp_step. wp_step. wp_step. eapply wp_the; [exact Hb|]. wp_step. apply wp_release_ide; [done|]. wp_step.
  cbn [e_buf e_qnext e_queue e_havedisk1 e_held e_woken e_dev]. destruct s. cbn in *. by subst.
Qed.

Lemma wp_wait_asleep i b s (Q : bool -> ide -> Prop) : e_buf s !! i = Some b -> synced b = false -> e_held s = true ->
  Q false (mk_ide (e_buf s) (e_qnext s) (e_queue s) (e_havedisk1 s) false (e_woken s) (e_dev s)) -> wp (iderw_wait i) Q s.
Proof.
  intros Hb Hs Hh HQ. unfold iderw_wait, get_ebuf. wp_step. wp_step. wp_step. eapply wp_the; [exact Hb|].
  wp_step. apply wp_release_ide; [done|]. wp_step. by rewrite Hs.
Qed.

Lemma wp_request pid i s a (Q : bool -> ide -> Prop) : ide_rep s a -> legal (Request pid i) a ->
  (forall s', ide_rep s' (serve (Request pid i) a) -> Q false s') -> wp (iderw_enter pid i) Q s.
Proof.
  intros H [Hi (b & Hb & Hp & Hlk)] HQ. pose proof Hp as (Hdev & Hblk & Hsy).
  unfold iderw_enter, get_ebuf. wp_step. wp_step. wp_step. eapply wp_the; [rewrite (ir_buf _ _ H); exact Hb|].
  wp_step. wp_step. rewrite Hlk. cbn [sl_locked sl_pid Z.eqb negb andb]. rewrite Z.eqb_refl. cbn [negb].
  rewrite Hsy, (ir_have _ _ H), andb_false_r. wp_step. apply wp_acquire_ide; [apply H|]. unfold set_qnext. wp_step. wp_step.
  pose proof (wait_bound _ _ H) as Hbound. pose proof (lookup_lt_Some _ _ _ Hb) as Hlt.
  unfold append. wp_step. wp_step. wp_step. cbn [e_buf e_qnext e_queue e_havedisk1 e_held e_woken e_dev]. rewrite (ir_head _ _ H).
  pose proof H as [Hbuf Hlen Hhead Hlinked Hnd Hpend Hop Hidle Hdisk Herr Hhave Hheld Hwok].
  assert (linked (<[i := None]> (e_qnext s)) (q_wait a)) as Hlinked'.
  { eapply linked_ext; [|exact Hlinked]. intros j Hj. apply list_lookup_insert_ne. set_solver. }
  assert (<[i := None]> (e_qnext s) !! i = Some None) as Hnone by (apply list_lookup_insert_eq; rewrite Hlen, Hbuf; done).
  assert (Forall (fun i => exists b, q_buf a !! i = Some b /\ pending b) (q_wait a ++ [i])) as Hpend'.
  { apply Forall_app. split; [done|]. constructor; [by exists b|done]. }
  destruct (q_wait a) as [|p q] eqn:Eq; cbn [head].
  - unfold set_queue. wp_step. wp_step. wp_step. wp_step. cbn [e_queue]. rewrite bool_decide_eq_true_2 by done. cbn [when].
    apply (wp_idestart i b); cbn [e_buf e_qnext e_queue e_havedisk1 e_held e_woken e_dev]; [by rewrite Hbuf|done|done|].
    intros d Hd1 Hd2 Hd3. eapply (wp_wait_asleep i b); [by rewrite <-Hbuf in Hb|done|done|]. apply HQ.
    split; cbn [e_buf e_qnext e_queue e_havedisk1 e_held e_woken e_dev serve q_buf q_wait q_disk q_done]; rewrite ?Eq; try done.
    + by rewrite length_insert.
    + apply NoDup_singleton.
    + intros j b' [= <-] Hb'. by rewrite Hb in Hb'; injection Hb' as <-.
    + by rewrite Hd2.
  - eapply (wp_append_at i q); cbn [e_buf e_qnext e_queue e_havedisk1 e_held e_woken e_dev]; [exact Hlinked'|done|done|exact Hnone|exact Hbound|].
    intros X' HX' HlenX HoutX. wp_step. wp_step. cbn [e_queue].
    rewrite bool_decide_eq_false_2 by (cbn; set_solver). cbn [when]. wp_step. wp_step.
    eapply (wp_wait_asleep i b); [by rewrite <-Hbuf in Hb|done|done|]. apply HQ.
    split; cbn [e_buf e_qnext e_queue e_havedisk1 e_held e_woken e_dev serve q_buf q_wait q_disk q_done]; rewrite ?Eq; try done.
    + by rewrite HlenX, length_insert.
    + apply NoDup_app. split; [done|]. split; [set_solver|apply NoDup_singleton].
Qed.

Lemma sync_flags f : has f B_DIRTY = false -> Z.land (Z.lor f B_VALID) (Z.lnot B_DIRTY) = Z.lor f B_VALID.
Proof.
  intros Hf. apply Z.bits_inj'. intros k Hk. rewrite Z.land_spec, Z.lor_spec, Z.lnot_spec by done.
  change B_DIRTY with (2 ^ 2) in *. rewrite has_testbit in Hf by lia. rewrite Z.pow2_bits_eqb by lia.
  destruct (Z.eqb_spec 2 k) as [<-|]; [by rewrite Hf|]. by rewrite andb_true_r.
Qed.

Lemma sync_flags_dirty f : Z.land (Z.lor f B_VALID) (Z.lnot B_DIRTY) = Z.lor (Z.land f (Z.lnot B_DIRTY)) B_VALID.
Proof.
  apply Z.bits_inj'. intros k Hk. rewrite Z.land_spec, !Z.lor_spec, Z.land_spec, Z.lnot_spec by done.
  change B_DIRTY with (2 ^ 2). change B_VALID with (2 ^ 1). rewrite !Z.pow2_bits_eqb by lia.
  destruct (Z.eqb_spec 2 k) as [<-|]; [by rewrite !andb_false_r|]. by rewrite !andb_true_r.
Qed.

Lemma wp_complete i b k s (Q : unit -> ide -> Prop) : e_buf s !! i = Some b -> d_op (e_dev s) = op_for b ->
  d_err (e_dev s) = 0 ->
  (forall d, d_disk d 1 = (sync b (d_disk (e_dev s) 1)).2 -> d_err d = 0 -> d_op d = Idle ->
     Q tt (mk_ide (<[i := (sync b (d_disk (e_dev s) 1)).1]> (e_buf s)) (e_qnext s) (e_queue s) (e_havedisk1 s) (e_held s) (e_woken s) d)) ->
  wp (complete i) Q
    (mk_ide (e_buf s) (e_qnext s) (e_queue s) (e_havedisk1 s) (e_held s) (e_woken s) (dev_finish k (e_dev s))).
Proof.
  intros Hb Hop He HQ. unfold complete, get_ebuf, put_ebuf. wp_step. wp_step. wp_step. eapply wp_the; [exact Hb|].
  rewrite has_land. unfold sync, op_for in *. destruct (has (b_flags b) B_DIRTY) eqn:Hd; cbn [negb fst snd] in *.
  - wp_steps. eapply wp_the; [exact Hb|]. wp_step. rewrite sync_flags_dirty. apply HQ.
    + unfold dev_finish. rewrite Hop. cbn. done.
    + unfold dev_finish. by rewrite Hop.
    + unfold dev_finish. by rewrite Hop.
  - wp_step. wp_step. assert (d_err (dev_finish k (e_dev s)) = 0) as He' by (unfold dev_finish; by rewrite Hop).
    apply wp_idewait; [exact He'|]. cbn [e_buf e_qnext e_queue e_havedisk1 e_held e_woken e_dev Z.leb Z.compare].
    unfold insl. wp_step. wp_step. wp_step. cbn [e_dev].
    assert (d_op (set_d_busy 0 (dev_finish k (e_dev s))) = ReadReady (disk_at (d_disk (e_dev s) 1) (b_blockno b))) as ->
      by (unfold dev_finish; by rewrite Hop).
    unfold upd_dev. wp_steps. cbn [e_buf e_qnext e_queue e_havedisk1 e_held e_woken e_dev].
    eapply wp_the; [apply list_lookup_insert_eq; by eapply lookup_lt_Some|]. wp_step.
    cbn [e_buf e_qnext e_queue e_havedisk1 e_held e_woken e_dev set_b_data b_flags]. rewrite list_insert_insert_eq, sync_flags by done.
    apply HQ; [unfold dev_finish; by rewrite Hop|unfold dev_finish; by rewrite Hop|done].
Qed.

Lemma wp_interrupt k s a (Q : unit -> ide -> Prop) : ide_rep s a ->
  (forall s', ide_rep s' (serve (Interrupt k) a) -> Q tt s') -> wp (handle (Interrupt k)) Q s.
Proof.
  intros H HQ. pose proof H as [Hbuf Hlen Hhead Hlinked Hnd Hpend Hop Hidle Hdisk Herr Hhave Hheld Hwok].
  cbn [handle]. unfold upd_dev, ideintr. wp_step. wp_step. wp_step. apply wp_acquire_ide; [done|].
  cbn [e_buf e_qnext e_queue e_havedisk1 e_held e_woken e_dev]. wp_step. wp_step. cbn [e_queue]. rewrite Hhead.
  cbn [serve] in HQ. destruct (q_wait a) as [|i q] eqn:Eq; cbn [head] in *.
  { apply wp_release_ide; [done|]. apply HQ. cbn [e_buf e_qnext e_queue e_havedisk1 e_held e_woken e_dev].
    unfold dev_finish. rewrite (Hidle eq_refl).
    split; cbn [e_buf e_qnext e_queue e_havedisk1 e_held e_woken e_dev set_d_busy d_op d_disk d_err]; rewrite ?Eq; try done. }
  inversion_clear Hpend as [|?? (b & Hb & Hp) Hpend']. destruct Hlinked as [Hnext Hlinked'].
  apply NoDup_cons in Hnd as [Hiq Hnd']. rewrite Hb in HQ.
  unfold get_qnext. wp_step. wp_step. wp_step. eapply wp_the; [exact Hnext|]. unfold set_queue. wp_step. wp_step.
  wp_step. cbn [e_buf e_qnext e_queue e_havedisk1 e_held e_woken e_dev].
  apply (wp_complete i b k (mk_ide (e_buf s) (e_qnext s) (head q) (e_havedisk1 s) true (e_woken s) (e_dev s)));
    cbn [e_buf e_qnext e_queue e_havedisk1 e_held e_woken e_dev]; [by rewrite Hbuf|by apply (Hop i)|done|].
  intros d Hd1 Hd2 Hd3. unfold wakeup_ide. wp_step. wp_step. wp_step. wp_step.
  cbn [e_buf e_qnext e_queue e_havedisk1 e_held e_woken e_dev]. rewrite Hdisk in *.
  assert (Forall (fun j => exists b', <[i := (sync b (q_disk a)).1]> (q_buf a) !! j = Some b' /\ pending b') q) as Hpend2.
  { rewrite Forall_forall in Hpend' |- *. intros j Hj. destruct (Hpend' j Hj) as (b' & Hb' & Hp'). exists b'. split; [|done].
    rewrite list_lookup_insert_ne by set_solver. done. }
  wp_step. destruct q as [|j q]; cbn [head] in *.
  - wp_step. apply wp_release_ide; [done|]. apply HQ.
    split; cbn [e_buf e_qnext e_queue e_havedisk1 e_held e_woken e_dev q_buf q_wait q_disk q_done head]; rewrite ?length_insert; try done; [by rewrite Hbuf|by rewrite Hwok].
  - inversion_clear Hpend2 as [|?? (b' & Hb' & Hp') Hpend3].
    apply (wp_idestart j b'); cbn [e_buf e_qnext e_queue e_havedisk1 e_held e_woken e_dev]; [by rewrite Hbuf|done|done|].
    intros d' Hd1' Hd2' Hd3'. apply wp_release_ide; [done|]. apply HQ.
    split; cbn [e_buf e_qnext e_queue e_havedisk1 e_held e_woken e_dev q_buf q_wait q_disk q_done head]; rewrite ?length_insert; try done.
    + by rewrite Hbuf.
    + constructor; [by exists b'|done].
    + intros j' b'' [= <-] Hb''. rewrite Hb' in Hb''. by injection Hb'' as <-.
    + by rewrite Hd2'.
    + by rewrite Hwok.
Qed.

Lemma valid_synced b : has (b_flags b) B_VALID = true -> has (b_flags b) B_DIRTY = false -> synced b = true.
Proof.
  change B_VALID with (2 ^ 1). change B_DIRTY with (2 ^ 2). rewrite !has_testbit by lia. intros Hv Hd.
  apply Z.eqb_eq, Z.bits_inj'. intros k Hk. change B_VALID with (2 ^ 1). change B_DIRTY with (2 ^ 2).
  rewrite Z.land_spec, Z.lor_spec, !Z.pow2_bits_eqb by lia.
  destruct (Z.eqb_spec 1 k) as [<-|]; [by rewrite Hv|]. destruct (Z.eqb_spec 2 k) as [<-|]; [by rewrite Hd|apply andb_false_r].
Qed.

Lemma wp_handle e s a (Q : unit -> ide -> Prop) : ide_rep s a -> legal e a ->
  (forall s', ide_rep s' (serve e a) -> Q tt s') -> wp (handle e) Q s.
Proof.
  intros H Hl HQ. destruct e as [pid i|k|i b]; [|by apply (wp_interrupt k s a)|].
  - cbn [handle]. wp_step. eapply wp_request; [exact H|exact Hl|]. intros s' Hs'. wp_step. by apply HQ.
  - cbn [handle]. unfold put_ebuf. wp_step. apply HQ. destruct H as [Hbuf Hlen Hhead Hlinked Hnd Hpend Hop Hidle Hdisk Herr Hhave Hheld Hwok].
    cbn in Hl. split; cbn [e_buf e_qnext e_queue e_havedisk1 e_held e_woken e_dev serve q_buf q_wait q_disk q_done]; try done.
    + by rewrite Hbuf.
    + by rewrite length_insert.
    + rewrite Forall_forall in Hpend |- *. intros j Hj. rewrite list_lookup_insert_ne by set_solver. by apply Hpend.
    + intros j b' Hj Hb'. rewrite list_lookup_insert_ne in Hb'; [by apply (Hop j)|]. intros ->. apply Hl.
      destruct (q_wait a); [done|]. injection Hj as ->. by left.
Qed.

(** ** Properties *)

(** C20: the driver serves requests in order, each as [memide.c] would, on a
    disk that reports no error.  For every sequence of requests, interrupts and changes of other buffers, the
    driver returns, and its buffers, its disk and the processes it has woken
    are those of the abstract driver that completes one request per
    interrupt, oldest first; a process that wakes up goes on exactly when its
    buffer is done; and completing a request is what [iderw] of [memide.c]
    does in one step. *)
Theorem ide_serves_in_order s a es : ide_rep s a -> legal_all es a ->
  wp (handle_all es) (fun _ s' =>
    let a' := foldl (fun a e => serve e a) a es in
    ide_rep s' a' /\
    forall i b, q_buf a' !! i = Some b -> wp (iderw_resume i) (fun r s'' => r = synced b /\ s'' = s') s') s /\
  forall ks i b pid, L_buf i ∉ k_held ks -> cur_pid ks pid -> k_buf ks !! i = Some b ->
    b_lock b = mk_sleeplock 1 pid -> pending b -> b_blockno b < k_disksize ks ->
    wp (Bio.iderw i) (fun _ ks' => ks' =
      set_k_buf (<[i := (sync b (k_disk ks)).1]> (k_buf ks)) (set_k_disk (sync b (k_disk ks)).2 ks)) ks.
Proof.
  intros H Hl. split.
  - revert s a H Hl. induction es as [|e es IH]; intros s a H Hl; cbn [handle_all foldl].
    + wp_step. split; [done|]. intros i b Hb. apply (wp_iderw_resume i b); [apply H|by rewrite (ir_buf _ _ H)|done].
    + destruct Hl as [Hl1 Hl2]. wp_step. apply (wp_handle e s a); [done|done|]. intros s' Hs'. by apply IH.
  - intros ks i b pid Hh Hpid Hb Hlk (Hdev & Hblk & Hsy) Hsz. unfold sync.
    assert (caches (b_blockno b) b = true) as Hc by (unfold caches; rewrite Hdev; apply andb_true_iff; split; [done|apply Z.eqb_refl]).
    destruct (has (b_flags b) B_DIRTY) eqn:Hd.
    + eapply (wp_iderw_write i b (b_blockno b) pid); try done.
    + eapply (wp_iderw_read i b (b_blockno b) pid); try done.
      destruct (has (b_flags b) B_VALID) eqn:Hv; [|done]. by rewrite (valid_synced b Hv Hd) in Hsy.
Qed.

(** Two buffers, one to be written and one to be read. *)
Definition buf_out : buf := mk_buf B_DIRTY 1 7 (mk_sleeplock 1 3) 1 [1; 2; 3].
Definition buf_in : buf := mk_buf 0 1 7 (mk_sleeplock 1 4) 1 [].
Definition ide0 : ide := mk_ide [buf_out; buf_in] [None; None] None true false [] (mk_device 0 0 0 0 0 5 0 Idle (fun _ => [])).
Definition queue0 : queue := mk_queue [buf_out; buf_in] [] [] [].

(** The block that the first request writes is the block the second reads. *)
Lemma ide_serves_in_order_witness :
  wp (handle_all [Request 3 0; Request 4 1; Interrupt 2; Interrupt 0]) (fun _ s' =>
    (b_data <$> e_buf s') = [[1; 2; 3]; [1; 2; 3]] /\ e_woken s' = [1%nat; 0%nat]) ide0.
Proof.
  assert (ide_rep ide0 queue0) as H by (split; try done; constructor).
  assert (pending buf_out /\ pending buf_in) as [H1 H2].
  { split; (split; [reflexivity|split; [unfold FSSIZE, SWAPBLOCKS; cbn; lia|reflexivity]]). }
  eapply wp_mono; [apply (proj1 (ide_serves_in_order ide0 queue0 [Request 3 0; Request 4 1; Interrupt 2; Interrupt 0] H
    ltac:(cbn [legal_all legal serve q_wait q_buf q_disk q_done queue0 app]; split_and!;
      [intros Hx; inversion Hx|exists buf_out; split_and!; [reflexivity|exact H1|reflexivity]
      |intros Hx; apply list_elem_of_singleton in Hx; discriminate Hx
      |exists buf_in; split_and!; [reflexivity|exact H2|reflexivity]|exact I|exact I|exact I])))|].
  intros u s' [Hr _]. cbn in Hr. rewrite (ir_buf _ _ Hr), (ir_woken _ _ Hr). split; reflexivity.
Defined.
