(* ===== verification/Layout.v ===== *)
(** * The file system on disk

    The layout constants of [fs.h], integers and structures inside a block
    (a list of [BSIZE] bytes, little endian), and [readsb] of [fs.c]. *)

From Stdlib Require Import ZArith Lia.
From stdpp Require Import base strings numbers gmap list.
From S2P Require Import Prelude Mmu Memory Kernel Sleeplock Bio Block.

Definition ROOTINO : Z := 1.
Definition NDIRECT : Z := 12.
Definition NINDIRECT : Z := BSIZE / 4.
Definition MAXFILE : Z := NDIRECT + NINDIRECT.
Definition DINODESIZE : Z := 64. (* sizeof(struct dinode) *)
Definition IPB : Z := BSIZE / DINODESIZE.
Definition BPB : Z := BSIZE * 8.
Definition DIRSIZ : Z := 14.
Definition DIRENTSIZE : Z := 16. (* sizeof(struct dirent) *)

Definition IBLOCK (i : Z) (sb : superblock) : Z := u32 (i / IPB + sb_inodestart sb).
Definition BBLOCK (b : Z) (sb : superblock) : Z := u32 (b / BPB + sb_bmapstart sb).

(** ** Integers inside a block *)

Definition byte_at (l : list Z) (o : Z) : Z := nth (Z.to_nat o) l 0 mod 256.
Definition get16 (l : list Z) (o : Z) : Z := byte_at l o + 0x100 * byte_at l (o + 1).
Definition get32 (l : list Z) (o : Z) : Z :=
  byte_at l o + 0x100 * byte_at l (o + 1) + 0x10000 * byte_at l (o + 2) + 0x1000000 * byte_at l (o + 3).

Definition put8 (l : list Z) (o v : Z) : list Z := <[Z.to_nat o := v mod 256]> l.
Definition put16 (l : list Z) (o v : Z) : list Z := put8 (put8 l o v) (o + 1) (v / 0x100).
Definition put32 (l : list Z) (o v : Z) : list Z :=
  put8 (put8 (put8 (put8 l o v) (o + 1) (v / 0x100)) (o + 2) (v / 0x10000)) (o + 3) (v / 0x1000000).

(** An [int] or a [short] read as a signed number. *)
Definition s16 (v : Z) : Z := if v <? 0x8000 then v else v - 0x10000.

Lemma length_put8 l o v : length (put8 l o v) = length l.
Proof. apply length_insert. Qed.
Lemma length_put32 l o v : length (put32 l o v) = length l.
Proof. unfold put32. by rewrite !length_put8. Qed.
Lemma length_put16 l o v : length (put16 l o v) = length l.
Proof. unfold put16. by rewrite !length_put8. Qed.

Lemma byte_at_put8 l o v k : 0 <= o < Z.of_nat (length l) -> 0 <= k ->
  byte_at (put8 l o v) k = if decide (o = k) then v mod 256 else byte_at l k.
Proof.
  intros Ho Hk. unfold byte_at, put8. case_decide as E.
  - subst k. rewrite (nth_lookup_Some _ _ _ (v mod 256)); [apply Z.mod_mod; lia|].
    apply list_lookup_insert_eq. lia.
  - f_equal. rewrite !nth_lookup. by rewrite list_lookup_insert_ne by lia.
Qed.

Lemma byte_at_range l o : 0 <= byte_at l o < 256.
Proof. unfold byte_at. zdiv. Qed.

Lemma get32_range l o : 0 <= get32 l o < two32.
Proof.
  unfold get32, two32. pose proof (byte_at_range l o). pose proof (byte_at_range l (o + 1)).
  pose proof (byte_at_range l (o + 2)). pose proof (byte_at_range l (o + 3)). lia.
Qed.

Lemma get32_ext l l' o : (forall i, 0 <= i < 4 -> byte_at l (o + i) = byte_at l' (o + i)) -> get32 l o = get32 l' o.
Proof.
  intros H. unfold get32. pose proof (H 0) as H0. rewrite Z.add_0_r in H0. by rewrite H0, !H by lia.
Qed.

Lemma byte_at_put32_ne l o v k : 0 <= o -> o + 4 <= Z.of_nat (length l) -> 0 <= k -> k < o \/ o + 4 <= k ->
  byte_at (put32 l o v) k = byte_at l k.
Proof.
  intros Ho Hl Hk Hne. unfold put32.
  rewrite !byte_at_put8 by (rewrite ?length_put8; lia). by rewrite !decide_False by lia.
Qed.

Lemma get32_put32_eq l o v : 0 <= o -> o + 4 <= Z.of_nat (length l) -> get32 (put32 l o v) o = u32 v.
Proof.
  intros Ho Hl. unfold get32, put32. rewrite !byte_at_put8 by (rewrite ?length_put8; lia).
  repeat (case_decide; try lia). unfold u32, two32. zdiv.
Qed.

Lemma get32_put32_ne l o v k : 0 <= o -> o + 4 <= Z.of_nat (length l) -> 0 <= k -> k + 4 <= o \/ o + 4 <= k ->
  get32 (put32 l o v) k = get32 l k.
Proof. intros. apply get32_ext. intros. apply byte_at_put32_ne; lia. Qed.

(** ** The super block *)

Definition decode_sb (l : list Z) : superblock :=
  mk_sb (get32 l 0) (get32 l 4) (get32 l 8) (get32 l 12) (get32 l 16) (get32 l 20) (get32 l 24)
    (get32 l 28) (get32 l 32).

Definition readsb (dev : Z) : K superblock :=
  bp ← bread dev 1;
  b ← get_buf bp;
  let sb := decode_sb (b_data b) in
  brelse bp;;
  mret sb.
