(* ===== verification/Log.v ===== *)
(** * The log

    [log.c]: a redo log that makes the updates of the file-system calls
    atomic.  [log_write] pins a modified block in the buffer cache and
    records its number; [end_op] of the last active call writes the blocks
    to the log, then the header (the commit point), installs them and
    clears the header.  [initlog] repeats the installation after a crash. *)

From Stdlib Require Import ZArith Lia.
From stdpp Require Import base strings numbers gmap fin_sets list.
From S2P Require Import Prelude Mmu Memory Kernel Sample Sleeplock Bio Block Layout.

(** ** Operations *)

(** Copy committed blocks from log to their home location. *)
Definition install_one (tail : Z) : K unit :=
  lg ← gets k_log;
  lbuf ← bread (lg_dev lg) (u32 (lg_start lg + tail + 1));
  dst ← the (zlookup (lh_block lg) tail);
  dbuf ← bread (lg_dev lg) dst;
  l ← get_buf lbuf;
  (b ← get_buf dbuf; put_buf dbuf (set_b_data (b_data l) b));;
  bwrite dbuf;;
  brelse lbuf;;
  brelse dbuf.

Definition install_trans : K unit :=
  lg ← gets k_log;
  _ ← for_ (R := unit) (seqZ 0 (lh_n lg)) (fun tail (_ : unit) => install_one tail;; mret (Next tt)) tt;
  mret tt.

(** Read the log header from disk into the in-memory log header. *)
Definition read_head : K unit :=
  lg ← gets k_log;
  buf ← bread (lg_dev lg) (lg_start lg);
  b ← get_buf buf;
  let n := s32 (get32 (b_data b) 0) in
  upd_log (set_lh_n n);;
  _ ← for_ (R := unit) (seqZ 0 n) (fun i (_ : unit) =>
        if i <? LOGSIZE
        then upd_log (fun lg => set_lh_block (zinsert i (get32 (b_data b) (4 + 4 * i)) (lh_block lg)) lg);; mret (Next tt)
        else fail Trap) tt;
  brelse buf.

(** Write in-memory log header to disk: the point at which the current
    transaction commits. *)
Definition encode_head (n : Z) (block : list Z) (l : list Z) : list Z :=
  foldl (fun l '(i, x) => put32 l (4 + 4 * i) x) (put32 l 0 n) (zip (seqZ 0 n) block).

Definition write_head : K unit :=
  lg ← gets k_log;
  buf ← bread (lg_dev lg) (lg_start lg);
  (b ← get_buf buf; put_buf buf (set_b_data (encode_head (lh_n lg) (lh_block lg) (b_data b)) b));;
  bwrite buf;;
  brelse buf.

Definition recover_from_log : K unit :=
  read_head;;
  install_trans;; (* if committed, copy from log to disk *)
  upd_log (set_lh_n 0);;
  write_head. (* clear the log *)

Definition initlog (dev : Z) : K unit :=
  if BSIZE <=? 4 + 4 * LOGSIZE then panic "initlog: too big logheader"
  else
    sb ← readsb dev;
    upd_log (set_lg_start (sb_logstart sb));;
    upd_log (set_lg_size (sb_nlog sb));;
    upd_log (set_lg_dev dev);;
    recover_from_log.

(** Called at the start of each FS system call; it waits while a commit is
    in progress or the log might run out of space. *)
Definition begin_op : K unit :=
  acquire L_log;;
  lg ← gets k_log;
  if negb (lg_committing lg =? 0) then fail Blocked (* sleep(&log, &log.lock) *)
  else if LOGSIZE <? lh_n lg + (lg_outstanding lg + 1) * MAXOPBLOCKS then fail Blocked
  else
    upd_log (set_lg_outstanding (lg_outstanding lg + 1));;
    release L_log.

(** Copy modified blocks from cache to log. *)
Definition write_one (tail : Z) : K unit :=
  lg ← gets k_log;
  to ← bread (lg_dev lg) (u32 (lg_start lg + tail + 1));
  src ← the (zlookup (lh_block lg) tail);
  from ← bread (lg_dev lg) src;
  f ← get_buf from;
  (b ← get_buf to; put_buf to (set_b_data (b_data f) b));;
  bwrite to;;
  brelse from;;
  brelse to.

Definition write_log : K unit :=
  lg ← gets k_log;
  _ ← for_ (R := unit) (seqZ 0 (lh_n lg)) (fun tail (_ : unit) => write_one tail;; mret (Next tt)) tt;
  mret tt.

Definition commit : K unit :=
  lg ← gets k_log;
  when (0 <? lh_n lg)
    (write_log;; (* Write modified blocks from cache to log *)
     write_head;; (* Write header to disk -- the real commit *)
     install_trans;; (* Now install writes to home locations *)
     upd_log (set_lh_n 0);;
     write_head). (* Erase the transaction from the log *)

(** Called at the end of each FS system call; commits if this was the last
    outstanding operation. *)
Definition end_op : K unit :=
  acquire L_log;;
  upd_log (fun lg => set_lg_outstanding (lg_outstanding lg - 1) lg);;
  lg ← gets k_log;
  if negb (lg_committing lg =? 0) then panic "log.committing"
  else
    let do_commit := lg_outstanding lg =? 0 in
    (if do_commit then upd_log (set_lg_committing 1) else wakeup ChLog);;
    release L_log;;
    when do_commit
      (commit;;
       acquire L_log;;
       upd_log (set_lg_committing 0);;
       wakeup ChLog;;
       release L_log).

(** Caller has modified the data of buffer [bi] and is done with it. *)
Definition log_write (bi : nat) : K unit :=
  lg ← gets k_log;
  if (LOGSIZE <=? lh_n lg) || (lg_size lg - 1 <=? lh_n lg) then panic "too big a transaction"
  else if lg_outstanding lg <? 1 then panic "log_write outside of trans"
  else
    acquire L_log;;
    b ← get_buf bi;
    r ← for_ (seqZ 0 (lh_n lg)) (fun i (_ : unit) =>
          x ← the (zlookup (lh_block lg) i);
          mret (if x =? b_blockno b then Return i (* log absorbtion *) else Next tt)) tt;
    let i := loop_result r (lh_n lg) in
    upd_log (fun lg => set_lh_block (zinsert i (b_blockno b) (lh_block lg)) lg);;
    when (i =? lh_n lg) (upd_log (fun lg => set_lh_n (lh_n lg + 1) lg));;
    (b ← get_buf bi; put_buf bi (set_b_flags (Z.lor (b_flags b) B_DIRTY) b));; (* prevent eviction *)
    release L_log.

(** ** What recovery makes of a disk *)

(** Contents written in order to the blocks [ks]. *)
Definition write_all_blocks (ks : list Z) (cs : list (list Z)) (D : list (Z * list Z)) : list (Z * list Z) :=
  rev (zip ks cs) ++ D.

(** The header block [ls] of the disk [D]. *)
Definition head_n (D : list (Z * list Z)) (ls : Z) : Z := s32 (get32 (disk_at D ls) 0).
Definition head_blocks (D : list (Z * list Z)) (ls : Z) : list Z :=
  (fun i => get32 (disk_at D ls) (4 + 4 * i)) <$> seqZ 0 (head_n D ls).

(** Block [k] after recovery: the log's copy, if the header lists [k]. *)
Definition recovered (D : list (Z * list Z)) (ls k : Z) : list Z :=
  match list_find (fun b => b = k) (head_blocks D ls) with
  | Some (i, _) => disk_at D (ls + 1 + Z.of_nat i)
  | None => disk_at D k
  end.

(** The log is the blocks [ls] to [ls + lsz]. *)
Definition in_log (ls lsz k : Z) : Prop := ls <= k < ls + lsz.
#[global] Instance in_log_dec ls lsz k : Decision (in_log ls lsz k).
Proof. unfold in_log. apply _. Defined.

Section crash.
Context (ls lsz dsz : Z).
Implicit Types (D : list (Z * list Z)) (ks L : list Z) (cs : list (list Z)) (k : Z).

Lemma disk_at_app_ne W D k : k ∉ W.*1 -> disk_at (W ++ D) k = disk_at D k.
Proof.
  induction W as [|[j c] W IH]; [done|]. cbn. intros [Hk Hn]%not_elem_of_cons.
  by rewrite decide_False, IH by done.
Qed.

Lemma elem_of_take_sub {A} (x : A) j l : x ∈ take j l -> x ∈ l.
Proof. intros H. rewrite <-(take_drop j l), elem_of_app. by left. Qed.

Lemma write_all_snoc ks cs k c D : length ks = length cs ->
  write_all_blocks (ks ++ [k]) (cs ++ [c]) D = (k, c) :: write_all_blocks ks cs D.
Proof. intros Hl. unfold write_all_blocks. rewrite zip_with_app by done. cbn [zip_with]. by rewrite rev_unit. Qed.

Lemma disk_at_written ks cs D i k : NoDup ks -> length ks = length cs -> ks !! i = Some k ->
  disk_at (write_all_blocks ks cs D) k = nth i cs [].
Proof.
  revert cs i. induction ks as [|x ks IH] using rev_ind; intros cs i Hnd Hl Hi; [done|].
  destruct cs as [|c cs _] using rev_ind; [rewrite length_app in Hl; cbn in Hl; lia|].
  rewrite !length_app in Hl. cbn in Hl. rewrite write_all_snoc by lia.
  apply NoDup_app in Hnd as (Hnd & Hx & _). cbn.
  destruct (decide (i < length ks)%nat) as [Hlt|Hge].
  - rewrite lookup_app_l in Hi by lia. rewrite decide_False.
    + rewrite app_nth1 by lia. apply IH; [done|lia|done].
    + intros ->. apply (Hx k); [by eapply list_elem_of_lookup_2|by left].
  - assert (i = length ks) as ->.
    { apply lookup_lt_Some in Hi. rewrite length_app in Hi. cbn in Hi. lia. }
    rewrite list_lookup_middle in Hi by done. injection Hi as ->. rewrite decide_True by done.
    replace (length ks) with (length cs) by lia. by rewrite nth_middle.
Qed.

Lemma zip_fst ks cs : length ks = length cs -> (zip ks cs).*1 = ks.
Proof. intros. apply fst_zip. lia. Qed.

Lemma disk_at_unwritten ks cs D k : length ks = length cs -> k ∉ ks ->
  disk_at (write_all_blocks ks cs D) k = disk_at D k.
Proof.
  intros Hl Hk. apply disk_at_app_ne. intros Hin. apply Hk. rewrite <-(zip_fst ks cs Hl).
  revert Hin. rewrite !list_elem_of_fmap. intros (x & -> & Hx). exists x. split; [done|].
  by apply list_elem_of_In, in_rev, list_elem_of_In.
Qed.

(** The disks on the way: some of the blocks are written. *)
Lemma write_all_suffix ks cs D D' : D' `suffix_of` write_all_blocks ks cs D ->
  D' `suffix_of` D \/ exists j, D' = write_all_blocks (take j ks) (take j cs) D.
Proof.
  intros [W HW]. unfold write_all_blocks in HW.
  destruct (decide (length W <= length (rev (zip ks cs)))%nat) as [Hle|Hgt].
  - right. exists (length (zip ks cs) - length W)%nat. unfold write_all_blocks.
    apply (f_equal (drop (length W))) in HW. rewrite drop_app_length, drop_app_le in HW by done.
    rewrite <-HW. f_equal. rewrite <-zip_with_take. rewrite skipn_rev. done.
  - left. apply (f_equal (drop (length (rev (zip ks cs))))) in HW. rewrite drop_app_length in HW.
    rewrite HW. rewrite drop_app_le by lia. by eexists.
Qed.

(** Recovery depends on the header, the log and the blocks it does not
    list. *)
Lemma recovered_ext D D' k :
  disk_at D' ls = disk_at D ls ->
  (forall i, (i < length (head_blocks D ls))%nat -> disk_at D' (ls + 1 + Z.of_nat i) = disk_at D (ls + 1 + Z.of_nat i)) ->
  (k ∉ head_blocks D ls -> disk_at D' k = disk_at D k) -> recovered D' ls k = recovered D ls k.
Proof.
  intros Hh Hl Hk. assert (head_blocks D' ls = head_blocks D ls) as E.
  { unfold head_blocks, head_n. by rewrite Hh. }
  unfold recovered. rewrite E. destruct (list_find _ _) as [[i b]|] eqn:F.
  - apply list_find_Some in F as (Hi & _ & _). apply Hl. by eapply lookup_lt_Some.
  - apply list_find_None in F. apply Hk. intros Hin. rewrite Forall_forall in F. by apply (F k).
Qed.

(** The log as a well-formed list of updates. *)
Record head_ok D : Prop := {
  ho_n : 0 <= head_n D ls < lsz;
  ho_size : head_n D ls <= LOGSIZE;
  ho_nodup : NoDup (head_blocks D ls);
  ho_out : forall b, b ∈ head_blocks D ls -> ~ in_log ls lsz b /\ b < dsz;
  ho_len : length (disk_at D ls) = 512%nat;
}.

Lemma length_head_blocks D : 0 <= head_n D ls -> Z.of_nat (length (head_blocks D ls)) = head_n D ls.
Proof. intros. unfold head_blocks. rewrite length_fmap, length_seqZ. lia. Qed.

(** An interrupted installation changes nothing for recovery. *)
Lemma recovered_install D j k : head_ok D ->
  let L := head_blocks D ls in
  let cs := (fun i => disk_at D (ls + 1 + i)) <$> seqZ 0 (head_n D ls) in
  let D' := write_all_blocks (take j L) (take j cs) D in
  head_ok D' /\ recovered D' ls k = recovered D ls k.
Proof.
  intros [Hn Hs Hnd Ho Hlen] L cs D'. assert (length L = length cs) as Hl by (unfold L, head_blocks, cs; by rewrite !length_fmap).
  assert (length (take j L) = length (take j cs)) as Hlj by (by rewrite !length_take, Hl).
  assert (forall x, in_log ls lsz x -> disk_at D' x = disk_at D x) as Hlog.
  { intros x Hx. apply disk_at_unwritten; [done|]. intros Hin. apply (Ho x); [|done].
    by apply (elem_of_take_sub _ j). }
  assert (in_log ls lsz ls) as Hls by (unfold in_log; lia).
  assert (head_n D' ls = head_n D ls /\ head_blocks D' ls = head_blocks D ls) as [E1 E2].
  { unfold head_blocks, head_n. by rewrite (Hlog ls Hls). }
  split; [split; rewrite ?E1, ?E2, ?(Hlog ls Hls); done|].
  apply recovered_ext; [by apply Hlog| |].
  - intros i Hi. apply Hlog. unfold in_log. pose proof (length_head_blocks D ltac:(lia)). lia.
  - intros Hk. apply disk_at_unwritten; [done|]. intros Hin. apply Hk. by apply (elem_of_take_sub _ j).
Qed.
End crash.

(** ** The header block *)

Definition put_entry (l : list Z) (p : Z * Z) : list Z := put32 l (4 + 4 * p.1) p.2.

Lemma length_put_entries ps l : length (foldl put_entry l ps) = length l.
Proof. revert l. induction ps as [|p ps IH]; intros l; [done|]. cbn. rewrite IH. apply length_put32. Qed.

Lemma put_entries_ne ps l o : Forall (fun p => 0 <= p.1 /\ 4 + 4 * p.1 + 4 <= Z.of_nat (length l)) ps ->
  0 <= o -> Forall (fun p => o + 4 <= 4 + 4 * p.1 \/ 4 + 4 * p.1 + 4 <= o) ps ->
  get32 (foldl put_entry l ps) o = get32 l o.
Proof.
  revert l. induction ps as [|p ps IH]; intros l Hps Ho Hne; [done|]. cbn.
  apply Forall_cons in Hps as [Hp Hps], Hne as [Hn Hne].
  rewrite IH; [|by unfold put_entry; rewrite length_put32|done|done].
  unfold put_entry. apply get32_put32_ne; lia.
Qed.

Lemma put_entries_eq ps l i x : NoDup ps.*1 ->
  Forall (fun p => 0 <= p.1 /\ 4 + 4 * p.1 + 4 <= Z.of_nat (length l)) ps -> (i, x) ∈ ps ->
  get32 (foldl put_entry l ps) (4 + 4 * i) = u32 x.
Proof.
  revert l. induction ps as [|p ps IH]; intros l Hnd Hps Hi; [by apply elem_of_nil in Hi|].
  rewrite fmap_cons, NoDup_cons in Hnd. destruct Hnd as [Hp Hnd].
  apply Forall_cons in Hps as [Hp0 Hps]. cbn.
  assert (Forall (fun q => 0 <= q.1 /\ 4 + 4 * q.1 + 4 <= Z.of_nat (length (put_entry l p))) ps) as Hps'
    by (unfold put_entry; by rewrite length_put32).
  apply elem_of_cons in Hi as [<-|Hi]; [|by apply IH].
  rewrite put_entries_ne; [apply get32_put32_eq; cbn in Hp0; lia|done|cbn in Hp0; lia|].
  apply Forall_forall. intros q Hq. cbn in *.
  assert (i <> q.1) by (intros ->; apply Hp; by apply list_elem_of_fmap_2).
  rewrite Forall_forall in Hps. specialize (Hps q Hq). lia.
Qed.

Lemma encode_head_fold n block l : encode_head n block l = foldl put_entry (put32 l 0 n) (zip (seqZ 0 n) block).
Proof. unfold encode_head. generalize (put32 l 0 n). induction (zip (seqZ 0 n) block) as [|[i x] ps IH]; intros l'; [done|]. cbn. apply IH. Qed.

Lemma encode_head_spec n block l : length l = 512%nat -> 0 <= n <= LOGSIZE -> n <= Z.of_nat (length block) ->
  let h := encode_head n block l in
  length h = 512%nat /\ get32 h 0 = n /\
  forall i x, i < n -> zlookup block i = Some x -> get32 h (4 + 4 * i) = u32 x.
Proof.
  intros Hl Hn Hb h. unfold h. rewrite encode_head_fold.
  assert (LOGSIZE = 30) as E by done. set (ps := zip (seqZ 0 n) block).
  assert (forall p, p ∈ ps -> 0 <= p.1 < n) as Hr.
  { intros [i x] Hp. apply elem_of_zip_l, elem_of_seqZ in Hp. cbn. lia. }
  assert (length (put32 l 0 n) = 512%nat) as Hl' by (by rewrite length_put32).
  assert (Forall (fun p => 0 <= p.1 /\ 4 + 4 * p.1 + 4 <= Z.of_nat (length (put32 l 0 n))) ps) as Hps.
  { apply Forall_forall. intros p Hp%Hr. rewrite Hl'. lia. }
  split; [by rewrite length_put_entries|]. split.
  - rewrite put_entries_ne; [|done|lia|].
    + rewrite get32_put32_eq by lia. apply u32_small. unfold two32. lia.
    + apply Forall_forall. intros p Hp%Hr. lia.
  - intros i x Hi Hx. apply put_entries_eq; [|done|].
    + unfold ps. rewrite fst_zip; [apply NoDup_seqZ|]. rewrite length_seqZ. lia.
    + pose proof (zlookup_lt _ _ _ Hx). unfold zlookup in Hx. rewrite (proj2 (Z.ltb_ge _ _)) in Hx by lia.
      apply (list_elem_of_lookup_2 _ (Z.to_nat i)), lookup_zip_Some. split; [|done].
      rewrite lookup_seqZ_lt by lia. f_equal. lia.
Qed.

(** ** The loops *)

(** [s'] differs from [s] in the cache, processes woken up and the disk,
    which is now [D]. *)
Definition blk_step s s' (D : list (Z * list Z)) : Prop :=
  exists bs lru ps, s' = set_k_buf bs (set_k_lru lru (set_k_proc ps (set_k_disk D s))) /\
    procs_woken (k_proc s) ps.

Lemma blk_step_trans s1 s2 s3 D D' : blk_step s1 s2 D -> blk_step s2 s3 D' -> blk_step s1 s3 D'.
Proof.
  intros (?&?&?&->&?) (bs&lru&ps&->&?). exists bs, lru, ps. split; [done|]. by eapply procs_woken_trans.
Qed.

Lemma blk_step_refl s : blk_step s s (k_disk s).
Proof. exists (k_buf s), (k_lru s), (k_proc s). split; [by destruct s|apply procs_woken_refl]. Qed.

Lemma blk_step_log s s' D : blk_step s s' D -> k_log s' = k_log s /\ k_disksize s' = k_disksize s /\ k_disk s' = D.
Proof. by intros (?&?&?&->&?). Qed.

Section loops.
Implicit Types (s : kstate) (V : Z -> list Z) (dirty : gset Z).

(** Block [a] is copied to block [b], which is written. *)
Lemma wp_copy_block pid V dirty a b (x y : nat) H Q s :
  brep s pid H V dirty -> H ≡ₚ [(x, a); (y, b)] -> a <> b -> b < k_disksize s ->
  a ∈ dirty \/ V a = disk_block s a ->
  (forall s', blk_step s s' ((b, V a) :: k_disk s) ->
     brep s' pid [] (upd_block V b (V a)) (dirty ∖ {[b]}) -> Q tt s') ->
  wp (f ← get_buf x; (d ← get_buf y; put_buf y (set_b_data (b_data f) d));; bwrite y;; brelse x;; brelse y) Q s.
Proof.
  intros Hr HH Hab Hb Ha HQ.
  assert ((x, a) ∈ H) as Hx by (rewrite HH; by left).
  assert ((y, b) ∈ H) as Hy by (rewrite HH; right; by left).
  assert (x <> y) as Hxy.
  { intros ->. pose proof (held_uniq _ _ _ _ _ Hr y a Hx b Hy). done. }
  destruct (brep_held _ _ _ _ _ Hr x a Hx) as (bx & Hbx & _ & _ & _ & _ & Hdx).
  wp_step. eapply wp_get_buf; [done|]. rewrite Hdx. wp_step.
  apply (wp_put_data _ _ _ _ _ Hr y b Hy (fun _ => V a)). intros bs1 s1 Hr1.
  wp_step. eapply wp_bwrite_rep; [exact Hr1|exact Hy|exact Hb|]. intros bs2 s2 Hr2.
  assert (upd_block V b (V a) a = V a) as Ea by (unfold upd_block; by rewrite decide_False).
  assert (upd_block V b (V a) b = V a) as Eb by (unfold upd_block; by rewrite decide_True).
  wp_step. eapply wp_brelse_rep; [exact Hr2|exact Hx| |].
  { destruct Ha as [Ha|Ha]; [left; set_solver|right]. rewrite Ea, Ha. unfold s2, s1, disk_block. cbn.
    by rewrite decide_False by congruence. }
  intros bs3 lru3 ps3 Hps3 s3 Hr3.
  eapply wp_brelse_rep; [exact Hr3|by apply elem_of_drop_held| |].
  { right. unfold s3, s2, s1, disk_block. cbn. by rewrite decide_True. }
  intros bs4 lru4 ps4 Hps4 s4 Hr4. apply HQ.
  - exists bs4, lru4, ps4. split; [|by eapply procs_woken_trans].
    unfold s4, s3, s2, s1. cbn. rewrite Eb. by destruct s.
  - assert (drop_held y (drop_held x H) = []) as E.
    { apply elem_of_nil_inv. intros [j n]. rewrite !elem_of_drop_held, HH.
      rewrite !elem_of_cons, elem_of_nil. intros (? & ? & [[= -> ->]|[[= -> ->]|[]]]); done. }
    by rewrite <-E.
Qed.

(** The log in memory: blocks [L] are to be committed. *)
Record log_is s (ls lsz : Z) (L : list Z) : Prop := {
  li_dev : lg_dev (k_log s) = ROOTDEV;
  li_start : lg_start (k_log s) = ls;
  li_size : lg_size (k_log s) = lsz;
  li_n : lh_n (k_log s) = Z.of_nat (length L);
  li_block : forall i x, L !! i = Some x -> zlookup (lh_block (k_log s)) (Z.of_nat i) = Some x;
  li_len : length (lh_block (k_log s)) = Z.to_nat LOGSIZE;
  li_range : 0 <= ls /\ ls + lsz <= k_disksize s <= two32;
  li_fit : Z.of_nat (length L) < lsz;
  li_max : Z.of_nat (length L) < NBUF;
  li_nodup : NoDup L;
  li_out : forall b, b ∈ L -> ~ in_log ls lsz b /\ 0 <= b < k_disksize s;
}.

Lemma log_is_step s s' D ls lsz L : blk_step s s' D -> log_is s ls lsz L -> log_is s' ls lsz L.
Proof. intros (?&?&?&->&?) []. by split. Qed.

(** The blocks of the log after the header. *)
Definition log_blocks (ls : Z) (n : nat) : list Z := (fun i => ls + 1 + i) <$> seqZ 0 (Z.of_nat n).

Lemma log_blocks_lookup ls n i : (i < n)%nat -> log_blocks ls n !! i = Some (ls + 1 + Z.of_nat i).
Proof. intros. unfold log_blocks. rewrite list_lookup_fmap, lookup_seqZ_lt by lia. cbn. f_equal; lia. Qed.

Lemma take_S_lookup {A} (l : list A) t x : l !! t = Some x -> take (S t) l = take t l ++ [x].
Proof. intros. by apply take_S_r. Qed.

Lemma size_dirty L : NoDup L -> size (list_to_set (C := gset Z) L) = length L.
Proof. apply size_list_to_set. Qed.

Lemma wp_write_one pid V L ls lsz t src Q s :
  brep s pid [] V (list_to_set L) -> log_is s ls lsz L -> L !! t = Some src ->
  (forall s', let a := ls + 1 + Z.of_nat t in blk_step s s' ((a, V src) :: k_disk s) ->
     brep s' pid [] (upd_block V a (V src)) (list_to_set L) -> Q tt s') ->
  wp (write_one (Z.of_nat t)) Q s.
Proof.
  intros Hr [Hdev Hst Hsz Hn Hbl Hlen Hrg Hfit Hmax Hnd Hout] Ht HQ. unfold write_one.
  pose proof (lookup_lt_Some _ _ _ Ht) as Htl.
  assert (src ∈ L) as Hsrc by (by eapply list_elem_of_lookup_2). destruct (Hout src Hsrc) as [Hno Hsr].
  set (a := ls + 1 + Z.of_nat t) in *. assert (in_log ls lsz a) as Hal by (unfold in_log, a; lia).
  wp_step. apply wp_gets. wp_step. rewrite Hdev, Hst.
  assert (u32 (ls + Z.of_nat t + 1) = a) as -> by (rewrite u32_small; unfold a, in_log in *; lia).
  assert (a <> src) as Hne by (intros ->; done).
  apply (wp_bread_rep a pid [] V (list_to_set L)); [done|apply not_elem_of_nil| |unfold in_log in *; lia|].
  { right. rewrite size_dirty by done. cbn. klia. }
  intros x bs1 s1 _ Hr1. wp_step. eapply wp_the; [by apply Hbl|]. wp_step.
  apply (wp_bread_rep src pid [(x, a)] V (list_to_set L)); [done| | |cbn; lia|].
  { cbn. rewrite list_elem_of_singleton. congruence. }
  { left. by apply elem_of_list_to_set. }
  intros y bs2 s2 Hy Hr2.
  eapply (wp_copy_block pid V _ src a y x); [exact Hr2|done|done|cbn; unfold in_log in *; lia| |].
  { left. by apply elem_of_list_to_set. }
  intros s3 (bs3 & lru & ps & -> & Hps) Hr3. apply HQ; [by exists bs3, lru, ps|].
  assert (list_to_set (C := gset Z) L ∖ {[a]} = list_to_set L) as E; [|by rewrite E in Hr3].
  apply set_eq. intros z. rewrite elem_of_difference, elem_of_list_to_set, elem_of_singleton.
  split; [tauto|]. intros Hz. split; [done|]. intros ->. by destruct (Hout a Hz).
Qed.

Lemma wp_write_log pid V L ls lsz Q s :
  brep s pid [] V (list_to_set L) -> log_is s ls lsz L ->
  (forall s' V', blk_step s s' (write_all_blocks (log_blocks ls (length L)) (V <$> L) (k_disk s)) ->
     brep s' pid [] V' (list_to_set L) -> (forall k, ~ in_log ls lsz k -> V' k = V k) -> V' ls = V ls ->
     (forall i x, L !! i = Some x -> V' (ls + 1 + Z.of_nat i) = V x) -> Q tt s') ->
  wp write_log Q s.
Proof.
  intros Hr Hli HQ. unfold write_log. wp_step. apply wp_gets. wp_step. rewrite (li_n _ _ _ _ Hli).
  pose proof (li_fit _ _ _ _ Hli) as Hfit.
  apply (wp_for_seqZ _ _ (fun t _ s' => (t <= length L)%nat /\ exists V',
    blk_step s s' (write_all_blocks (take t (log_blocks ls (length L))) (take t (V <$> L)) (k_disk s)) /\
    brep s' pid [] V' (list_to_set L) /\ (forall k, ~ in_log ls lsz k -> V' k = V k) /\ V' ls = V ls /\
    (forall i x, (i < t)%nat -> L !! i = Some x -> V' (ls + 1 + Z.of_nat i) = V x))); [lia| | |].
  - intros t _ s1 Ht (_ & V1 & St & Hr1 & Hout & Hls & Hin).
    destruct (lookup_lt_is_Some_2 L t ltac:(lia)) as [src Hsrc].
    pose proof (log_is_step _ _ _ _ _ _ St Hli) as Hli1.
    assert (V1 src = V src) as Esrc.
    { apply Hout, (li_out _ _ _ _ Hli). by eapply list_elem_of_lookup_2. }
    wp_step. eapply wp_write_one; [done..|]. intros s2 a St2 Hr2. wp_steps. split; [lia|].
    exists (upd_block V1 a (V1 src)). rewrite Esrc in *. destruct (blk_step_log _ _ _ St) as (_ & _ & Ed).
    split; [|split; [done|split; [|split]]].
    + rewrite (take_S_lookup _ t (ls + 1 + Z.of_nat t)) by (apply log_blocks_lookup; lia).
      rewrite (take_S_lookup (V <$> L) t (V src)) by (by rewrite list_lookup_fmap, Hsrc).
      rewrite write_all_snoc.
      * rewrite Ed in St2. by eapply blk_step_trans.
      * rewrite !length_take, length_fmap. unfold log_blocks. rewrite length_fmap, length_seqZ. lia.
    + intros k Hk. unfold upd_block. rewrite decide_False; [by apply Hout|]. intros ->. apply Hk.
      unfold in_log, a. lia.
    + unfold upd_block, a. by rewrite decide_False by lia.
    + intros i x Hi Hx. unfold upd_block, a. case_decide as E.
      * assert (i = t) as -> by lia. congruence.
      * apply Hin; [lia|done].
  - intros _ s1 (_ & V1 & St & Hr1 & Hout & Hls & Hin). wp_steps. rewrite Nat2Z.id in *.
    eapply HQ; [|done|done|done|].
    + rewrite !take_ge in St; [done|by rewrite length_fmap|].
      unfold log_blocks. rewrite length_fmap, length_seqZ. lia.
    + intros i x Hx. apply Hin; [by eapply lookup_lt_Some|done].
  - split; [lia|]. exists V. split; [apply blk_step_refl|]. split; [done|]. split; [done|]. split; [done|]. lia.
Qed.

(** The blocks still to be installed: pinned in the cache during a commit,
    nothing is in the cache during recovery. *)
Definition to_install (pinned : bool) (L : list Z) : gset Z := if pinned then list_to_set L else ∅.

Lemma wp_install_one pinned pid V L ls lsz t dst Q s :
  brep s pid [] V (to_install pinned (drop t L)) -> log_is s ls lsz L -> L !! t = Some dst ->
  (forall s', let a := ls + 1 + Z.of_nat t in blk_step s s' ((dst, V a) :: k_disk s) ->
     brep s' pid [] (upd_block V dst (V a)) (to_install pinned (drop (S t) L)) -> Q tt s') ->
  wp (install_one (Z.of_nat t)) Q s.
Proof.
  intros Hr [Hdev Hst Hsz Hn Hbl Hlen Hrg Hfit Hmax Hnd Hout] Ht HQ. unfold install_one.
  pose proof (lookup_lt_Some _ _ _ Ht) as Htl.
  assert (dst ∈ L) as Hdst by (by eapply list_elem_of_lookup_2). destruct (Hout dst Hdst) as [Hno Hsr].
  set (a := ls + 1 + Z.of_nat t) in *. assert (in_log ls lsz a) as Hal by (unfold in_log, a; lia).
  assert (NoDup (drop t L)) as Hndt by (rewrite <-(take_drop t L) in Hnd; by apply NoDup_app in Hnd as (_ & _ & ?)).
  assert (drop t L = dst :: drop (S t) L) as Edrop by (by apply drop_S).
  assert (a ∉ to_install pinned (drop t L)) as Hna.
  { destruct pinned; cbn; [|set_solver]. rewrite elem_of_list_to_set. intros Hin.
    destruct (Hout a); [|done]. rewrite <-(take_drop t L), elem_of_app. by right. }
  assert (size (to_install pinned (drop t L)) <= length L)%nat as Hsize.
  { destruct pinned; cbn; [rewrite size_dirty by done; rewrite length_drop; lia|rewrite size_empty; lia]. }
  wp_step. apply wp_gets. wp_step. rewrite Hdev, Hst.
  assert (u32 (ls + Z.of_nat t + 1) = a) as -> by (rewrite u32_small; unfold a, in_log in *; lia).
  assert (a <> dst) as Hne by (intros ->; done).
  eapply (wp_bread_rep a); [exact Hr|apply not_elem_of_nil| |unfold in_log in *; lia|].
  { right. cbn. lia. }
  intros x bs1 s1 _ Hr1. wp_step. eapply wp_the; [by apply Hbl|]. wp_step.
  eapply (wp_bread_rep dst); [exact Hr1| | |cbn; lia|].
  { cbn. rewrite list_elem_of_singleton. congruence. }
  { destruct pinned; cbn; [left|right; rewrite size_empty; cbn; klia].
    rewrite elem_of_list_to_set, Edrop. by left. }
  intros y bs2 s2 Hy Hr2.
  eapply (wp_copy_block pid V _ a dst x y); [exact Hr2|by apply Permutation_swap|done|cbn; lia| |].
  { right. apply (br_clean _ _ _ _ _ Hr); [done|apply not_elem_of_nil]. }
  intros s3 (bs3 & lru & ps & -> & Hps) Hr3. apply HQ; [by exists bs3, lru, ps|].
  assert (to_install pinned (drop t L) ∖ {[dst]} = to_install pinned (drop (S t) L)) as E; [|by rewrite E in Hr3].
  rewrite Edrop in Hndt |- *. apply NoDup_cons in Hndt as [Hnot _].
  destruct pinned; cbn [to_install]; [|set_solver]. rewrite list_to_set_cons.
  apply set_eq. intros z. rewrite elem_of_difference, elem_of_union, elem_of_singleton, elem_of_list_to_set.
  split; [tauto|]. intros Hz. split; [by right|]. by intros ->.
Qed.

Definition log_contents V (ls : Z) (n : nat) : list (list Z) := V <$> log_blocks ls n.

Lemma length_log_blocks ls n : length (log_blocks ls n) = n.
Proof. unfold log_blocks. rewrite length_fmap, length_seqZ. lia. Qed.

Lemma wp_install_trans pinned pid V L ls lsz Q s :
  brep s pid [] V (to_install pinned L) -> log_is s ls lsz L ->
  (forall s' V', blk_step s s' (write_all_blocks L (log_contents V ls (length L)) (k_disk s)) ->
     brep s' pid [] V' ∅ -> (forall k, k ∉ L -> V' k = V k) ->
     (forall i x, L !! i = Some x -> V' x = V (ls + 1 + Z.of_nat i)) -> Q tt s') ->
  wp install_trans Q s.
Proof.
  intros Hr Hli HQ. unfold install_trans. wp_step. apply wp_gets. wp_step. rewrite (li_n _ _ _ _ Hli).
  pose proof (li_fit _ _ _ _ Hli) as Hfit. pose proof (li_nodup _ _ _ _ Hli) as Hnd.
  set (cs := log_contents V ls (length L)).
  assert (length cs = length L) as Hcs by (unfold cs, log_contents; by rewrite length_fmap, length_log_blocks).
  apply (wp_for_seqZ _ _ (fun t _ s' => (t <= length L)%nat /\ exists V',
    blk_step s s' (write_all_blocks (take t L) (take t cs) (k_disk s)) /\
    brep s' pid [] V' (to_install pinned (drop t L)) /\ (forall k, k ∉ L -> V' k = V k) /\
    (forall i x, (i < t)%nat -> L !! i = Some x -> V' x = V (ls + 1 + Z.of_nat i)))); [lia| | |].
  - intros t _ s1 Ht (_ & V1 & St & Hr1 & Hout & Hin).
    destruct (lookup_lt_is_Some_2 L t ltac:(lia)) as [dst Hdst].
    pose proof (log_is_step _ _ _ _ _ _ St Hli) as Hli1. destruct (blk_step_log _ _ _ St) as (_ & _ & Ed).
    assert (V1 (ls + 1 + Z.of_nat t) = V (ls + 1 + Z.of_nat t)) as Ea.
    { apply Hout. intros Hi. destruct (li_out _ _ _ _ Hli _ Hi) as [Hno _]. apply Hno. unfold in_log. lia. }
    wp_step. eapply wp_install_one; [done..|]. intros s2 a St2 Hr2. wp_steps. split; [lia|].
    exists (upd_block V1 dst (V1 a)). subst a. rewrite Ea in *. split; [|split; [done|split]].
    + rewrite (take_S_lookup L t dst) by done.
      rewrite (take_S_lookup cs t (V (ls + 1 + Z.of_nat t))).
      * rewrite write_all_snoc by (rewrite !length_take, Hcs; lia). rewrite Ed in St2. by eapply blk_step_trans.
      * unfold cs, log_contents. rewrite list_lookup_fmap, log_blocks_lookup by lia. done.
    + intros k Hk. unfold upd_block. rewrite decide_False; [by apply Hout|].
      intros ->. apply Hk. by eapply list_elem_of_lookup_2.
    + intros i x Hi Hx. unfold upd_block. destruct (decide (i = t)) as [->|Hit].
      * rewrite decide_True by congruence. done.
      * rewrite decide_False; [apply Hin; [lia|done]|]. intros ->. apply Hit. by eapply NoDup_lookup.
  - intros _ s1 (_ & V1 & St & Hr1 & Hout & Hin). wp_steps. rewrite Nat2Z.id in *.
    rewrite !take_ge in St by lia. rewrite drop_ge in Hr1 by lia.
    eapply HQ; [done| |done|intros i x Hx; apply Hin; [by eapply lookup_lt_Some|done]].
    by destruct pinned.
  - split; [lia|]. exists V. split; [apply blk_step_refl|]. split; [done|]. split; [done|]. lia.
Qed.

(** [write_head] writes the header of [L]. *)
Lemma wp_write_head pid V dirty L ls lsz Q s :
  brep s pid [] V dirty -> log_is s ls lsz L -> ls ∉ dirty -> Z.of_nat (size dirty) < NBUF ->
  0 < lsz ->
  (let h := encode_head (Z.of_nat (length L)) (lh_block (k_log s)) (V ls) in
   forall s', blk_step s s' ((ls, h) :: k_disk s) -> brep s' pid [] (upd_block V ls h) dirty -> Q tt s') ->
  wp write_head Q s.
Proof.
  intros Hr Hli Hls Hroom Hlsz HQ. pose proof (li_range _ _ _ _ Hli) as Hrg.
  unfold write_head. wp_step. apply wp_gets. rewrite (li_dev _ _ _ _ Hli), (li_start _ _ _ _ Hli), (li_n _ _ _ _ Hli).
  wp_step. eapply (wp_bread_rep ls); [exact Hr|apply not_elem_of_nil|right; cbn; lia|lia|].
  intros x bs1 s1 _ Hr1. set (h := encode_head _ _ _) in HQ.
  assert ((x, ls) ∈ [(x, ls)]) as Hx by (by left).
  wp_step. apply (wp_put_data _ _ _ _ _ Hr1 x ls Hx (encode_head (Z.of_nat (length L)) (lh_block (k_log s)))).
  fold h. intros bs2 s2 Hr2.
  wp_step. eapply wp_bwrite_rep; [exact Hr2|exact Hx|cbn; lia|]. intros bs3 s3 Hr3.
  assert (upd_block V ls h ls = h) as Eh by (unfold upd_block; by rewrite decide_True).
  eapply wp_brelse_rep; [exact Hr3|exact Hx| |].
  { right. unfold s3, s2, s1, disk_block. cbn. by rewrite decide_True. }
  intros bs4 lru ps Hps s4 Hr4. apply HQ.
  - exists bs4, lru, ps. split; [|done]. unfold s4, s3, s2, s1. cbn. rewrite Eh. by destruct s.
  - assert (drop_held x [(x, ls)] = []) as E.
    { apply elem_of_nil_inv. intros [j n]. rewrite elem_of_drop_held, list_elem_of_singleton.
      intros [? [= -> ->]]. done. }
    rewrite E in Hr4. assert (dirty ∖ {[ls]} = dirty) as E2 by set_solver. by rewrite E2 in Hr4.
Qed.
End loops.

(** ** Atomicity on the disk *)

Lemma head_zero ls lsz dsz D : get32 (disk_at D ls) 0 = 0 -> 0 < lsz -> length (disk_at D ls) = 512%nat ->
  head_ok ls lsz dsz D /\ head_blocks D ls = [].
Proof.
  intros H Hl Hlen. assert (head_n D ls = 0) as E by (unfold head_n; by rewrite H).
  assert (head_blocks D ls = []) as E2 by (unfold head_blocks; by rewrite E).
  split; [|done]. split; rewrite ?E, ?E2; [lia|done|apply NoDup_nil_2|by intros b ?%elem_of_nil|done].
Qed.

Lemma recovered_zero ls D k : head_blocks D ls = [] -> recovered D ls k = disk_at D k.
Proof. intros H. unfold recovered. by rewrite H. Qed.

Lemma head_n_zero ls D : head_n D ls = 0 -> get32 (disk_at D ls) 0 = 0.
Proof.
  unfold head_n, s32. pose proof (get32_range (disk_at D ls) 0). rewrite u32_small by done. cbn zeta.
  case_if; unfold two32 in *; lia.
Qed.

Section atomic.
Context (ls lsz dsz : Z) (L : list Z) (V : Z -> list Z) (D0 : list (Z * list Z)) (h h0 : list Z).
Context (Hnd : NoDup L) (Hfit : Z.of_nat (length L) < lsz) (Hmax : Z.of_nat (length L) <= LOGSIZE).
Context (Hout : forall b, b ∈ L -> ~ in_log ls lsz b /\ 0 <= b < dsz).
Context (Hold : head_n D0 ls = 0) (HV : forall k, ~ in_log ls lsz k -> k ∉ L -> V k = disk_at D0 k).
Context (Hh : get32 h 0 = Z.of_nat (length L)).
Context (HhL : forall i x, L !! i = Some x -> get32 h (4 + 4 * Z.of_nat i) = x).
Context (Hh0 : get32 h0 0 = 0).
Context (Hl0 : length (disk_at D0 ls) = 512%nat) (Hlh : length h = 512%nat) (Hlh0 : length h0 = 512%nat).

(** The disk with the log's copies written, and with the header on top. *)
Definition logd : list (Z * list Z) := write_all_blocks (log_blocks ls (length L)) (V <$> L) D0.
Definition committed : list (Z * list Z) := (ls, h) :: logd.

(** The disk after [commit], all writes included. *)
Definition commit_disk : list (Z * list Z) := (ls, h0) :: write_all_blocks L (V <$> L) committed.

(** Before the header is written. *)
Lemma crash_logging D j : D = write_all_blocks (take j (log_blocks ls (length L))) (take j (V <$> L)) D0 ->
  head_ok ls lsz dsz D /\ forall k, ~ in_log ls lsz k -> recovered D ls k = disk_at D0 k.
Proof.
  intros ->. set (D := write_all_blocks _ _ _).
  assert (length (take j (log_blocks ls (length L))) = length (take j (V <$> L))) as Hl
    by (by rewrite !length_take, length_log_blocks, length_fmap).
  assert (forall k, ~ (ls < k < ls + lsz) -> disk_at D k = disk_at D0 k) as Hd.
  { intros k Hk. apply disk_at_unwritten; [done|]. intros Hin%elem_of_take_sub.
    apply list_elem_of_fmap in Hin as (i & -> & Hi%elem_of_seqZ). lia. }
  destruct (head_zero ls lsz dsz D) as [Hok E]; [|lia|by rewrite Hd by lia|].
  { rewrite Hd by lia. by apply head_n_zero. }
  split; [done|]. intros k Hk. rewrite recovered_zero by done. apply Hd. unfold in_log in Hk. lia.
Qed.

Lemma committed_head : head_n committed ls = Z.of_nat (length L) /\ head_blocks committed ls = L.
Proof.
  assert (disk_at committed ls = h) as E by (cbn; by rewrite decide_True).
  assert (head_n committed ls = Z.of_nat (length L)) as En.
  { unfold head_n. rewrite E, Hh. apply s32_small. clear - Hmax. unfold LOGSIZE, MAXOPBLOCKS in Hmax. lia. }
  split; [done|]. apply list_eq. intros i. unfold head_blocks. rewrite En, E.
  destruct (decide (i < length L)%nat) as [Hi|Hi].
  - destruct (lookup_lt_is_Some_2 L i Hi) as [x Hx]. rewrite list_lookup_fmap, lookup_seqZ_lt by lia. cbn.
    rewrite Hx. f_equal. by apply HhL.
  - rewrite !lookup_ge_None_2; [done|lia|]. rewrite length_fmap, length_seqZ. lia.
Qed.

Lemma committed_ok : head_ok ls lsz dsz committed.
Proof.
  destruct committed_head as [En EL]. split; rewrite ?En, ?EL; [lia|done|done| |cbn; by rewrite decide_True].
  intros b Hb. destruct (Hout b Hb). split; [done|lia].
Qed.

(** From the header on, recovery gives the new contents. *)
Lemma committed_recovered k : ~ in_log ls lsz k -> recovered committed ls k = V k.
Proof.
  intros Hk. unfold recovered. destruct committed_head as [_ ->].
  assert (forall a, a <> ls -> disk_at committed a = disk_at logd a) as Hc
    by (intros a Ha; cbn; by rewrite decide_False by congruence).
  destruct (list_find _ L) as [[i b]|] eqn:F.
  - apply list_find_Some in F as (Hi & -> & _). rewrite Hc by lia.
    pose proof (lookup_lt_Some _ _ _ Hi) as Hlt. unfold logd.
    rewrite (disk_at_written _ _ _ i); [|..|by apply log_blocks_lookup].
    + apply nth_lookup_Some. by rewrite list_lookup_fmap, Hi.
    + apply NoDup_fmap_2; [intros ? ? ?; lia|apply NoDup_seqZ].
    + by rewrite length_log_blocks, length_fmap.
  - apply list_find_None in F. assert (k ∉ L) as HkL by (intros Hin; rewrite Forall_forall in F; by apply (F k)).
    rewrite Hc by (intros ->; apply Hk; unfold in_log; lia). unfold logd.
    rewrite disk_at_unwritten; [symmetry; by apply HV|by rewrite length_log_blocks, length_fmap|].
    intros (i & -> & Hi%elem_of_seqZ)%list_elem_of_fmap. apply Hk. unfold in_log. lia.
Qed.

(** The log's copies are the contents that are installed. *)
Lemma committed_log : (fun i => disk_at committed (ls + 1 + i)) <$> seqZ 0 (Z.of_nat (length L)) = V <$> L.
Proof.
  apply list_eq. intros i. rewrite !list_lookup_fmap. destruct (L !! i) as [x|] eqn:Hx; cbn.
  - pose proof (lookup_lt_Some _ _ _ Hx) as Hlt. rewrite lookup_seqZ_lt by lia. cbn.
    rewrite decide_False by lia. f_equal. unfold logd.
    rewrite (disk_at_written _ _ _ i); [| | |rewrite log_blocks_lookup by lia; f_equal; lia].
    + apply nth_lookup_Some. by rewrite list_lookup_fmap, Hx.
    + apply NoDup_fmap_2; [intros ? ? ?; lia|apply NoDup_seqZ].
    + by rewrite length_log_blocks, length_fmap.
  - apply lookup_ge_None in Hx. rewrite lookup_seqZ_ge by lia. done.
Qed.

(** While the blocks are installed. *)
Lemma crash_installing D j : D = write_all_blocks (take j L) (take j (V <$> L)) committed ->
  head_ok ls lsz dsz D /\ forall k, ~ in_log ls lsz k -> recovered D ls k = V k.
Proof.
  intros ->. pose proof (fun k => recovered_install ls lsz dsz committed j k committed_ok) as H.
  destruct committed_head as [En EL]. cbn zeta in H. rewrite EL, En, committed_log in H.
  split; [by apply (H 0)|]. intros k Hk. rewrite (proj2 (H k)). by apply committed_recovered.
Qed.

Lemma crash_done : head_ok ls lsz dsz commit_disk /\ forall k, ~ in_log ls lsz k -> disk_at commit_disk k = V k.
Proof.
  destruct (head_zero ls lsz dsz commit_disk) as [Hok E]; [cbn; by rewrite decide_True|lia|cbn; by rewrite decide_True|]. split; [done|].
  intros k Hk. cbn. rewrite decide_False by (intros ->; apply Hk; unfold in_log; lia).
  destruct (decide (k ∈ L)) as [Hin|Hin].
  - apply list_elem_of_lookup in Hin as [i Hi].
    rewrite (disk_at_written _ _ _ i); [|done|by rewrite length_fmap|done].
    apply nth_lookup_Some. by rewrite list_lookup_fmap, Hi.
  - rewrite disk_at_unwritten; [|by rewrite length_fmap|done].
    rewrite <-committed_recovered by done. unfold recovered. destruct committed_head as [_ ->].
    destruct (list_find _ L) as [[i b]|] eqn:F; [|done].
    apply list_find_Some in F as (Hi & -> & _). destruct Hin. by eapply list_elem_of_lookup_2.
Qed.

(** Whatever part of the writes has reached the disk, recovery gives the
    contents before or the contents after. *)
Lemma commit_atomic D : D0 `suffix_of` D -> D `suffix_of` commit_disk ->
  head_ok ls lsz dsz D /\
  ((forall k, ~ in_log ls lsz k -> recovered D ls k = disk_at D0 k) \/
   (forall k, ~ in_log ls lsz k -> recovered D ls k = V k)).
Proof.
  intros H0 [W HW]. destruct W as [|w W].
  - cbn in HW. rewrite <-HW. destruct crash_done as [Hok Hd]. split; [done|]. right. intros k Hk.
    rewrite recovered_zero; [by apply Hd|].
    apply (head_zero ls lsz dsz); [cbn; by rewrite decide_True|lia|cbn; by rewrite decide_True].
  - cbn in HW. injection HW as _ HW.
    assert (D `suffix_of` write_all_blocks L (V <$> L) committed) as Hs by (by exists W).
    apply write_all_suffix in Hs as [Hs|(j & ->)].
    + destruct Hs as [W' HW']. destruct W' as [|w' W'].
      * cbn in HW'. subst D. destruct (crash_installing committed 0 eq_refl) as [? ?]. auto.
      * cbn in HW'. injection HW' as _ HW'.
        assert (D `suffix_of` logd) as Hs by (by exists W').
        apply write_all_suffix in Hs as [Hs|(j & ->)].
        -- assert (D = D0) as -> by (by apply (anti_symm suffix)).
           destruct (crash_logging D0 0 eq_refl) as [? ?]. auto.
        -- destruct (crash_logging _ j eq_refl). auto.
    + destruct (crash_installing _ j eq_refl). auto.
Qed.
End atomic.

(** ** Commit *)

Lemma brep_ext s s' pid H V dirty : brep s pid H V dirty ->
  k_buf s' = k_buf s -> k_lru s' = k_lru s -> k_disk s' = k_disk s ->
  bio_unlocked s' -> cur_pid s' pid -> brep s' pid H V dirty.
Proof.
  intros [] Hb Hl Hd Hu Hp. split; rewrite ?Hb, ?Hl; try done.
  intros n ? ?. unfold disk_block. rewrite Hd. by apply br_clean.
Qed.

Lemma brep_set_log lg s pid H V dirty : brep s pid H V dirty -> brep (set_k_log lg s) pid H V dirty.
Proof. intros Hr. eapply brep_ext; try done; apply Hr. Qed.

(** Emptying the list of blocks in memory. *)
Lemma log_is_nil s ls lsz L : log_is s ls lsz L -> 0 < lsz ->
  log_is (set_k_log (set_lh_n 0 (k_log s)) s) ls lsz [].
Proof.
  intros [] ?. split; try done; [apply NoDup_nil_2|by intros ? ?%elem_of_nil].
Qed.

Lemma blk_step_set_log lg s s' D : blk_step s s' D -> blk_step (set_k_log lg s) (set_k_log lg s') D.
Proof. intros (bs & lru & ps & -> & Hps). by exists bs, lru, ps. Qed.

Lemma log_contents_eq V ls L (V' : Z -> list Z) :
  (forall i x, L !! i = Some x -> V (ls + 1 + Z.of_nat i) = V' x) ->
  log_contents V ls (length L) = V' <$> L.
Proof.
  intros H. apply list_eq. intros i. unfold log_contents. rewrite !list_lookup_fmap.
  destruct (L !! i) as [x|] eqn:Hx.
  - rewrite log_blocks_lookup by (by eapply lookup_lt_Some). cbn. f_equal. by apply H.
  - apply lookup_ge_None in Hx. by rewrite lookup_ge_None_2 by (by rewrite length_log_blocks).
Qed.

Lemma wp_commit pid V L ls lsz Q s :
  brep s pid [] V (list_to_set L) -> log_is s ls lsz L -> L <> [] ->
  (let h := encode_head (Z.of_nat (length L)) (lh_block (k_log s)) (V ls) in
   forall s' V', let h0 := encode_head 0 (lh_block (k_log s)) h in
     blk_step (set_k_log (set_lh_n 0 (k_log s)) s) s' (commit_disk ls L V (k_disk s) h h0) ->
     brep s' pid [] V' ∅ -> (forall k, ~ in_log ls lsz k -> V' k = V k) -> Q tt s') ->
  wp commit Q s.
Proof.
  intros Hr Hli Hne HQ. pose proof (li_fit _ _ _ _ Hli) as Hfit. set (h := encode_head _ _ _) in HQ.
  assert (ls ∉ L) as HlsL by (intros Hin; destruct (li_out _ _ _ _ Hli _ Hin) as [Hno _]; apply Hno; unfold in_log; lia).
  unfold commit. wp_step. apply wp_gets. rewrite (li_n _ _ _ _ Hli).
  assert (0 < Z.of_nat (length L)) as Hpos by (destruct L; [done|cbn; lia]).
  rewrite (proj2 (Z.ltb_lt _ _) Hpos). cbn [when].
  wp_step. eapply wp_write_log; [done..|]. intros s1 V1 St1 Hr1 Ho1 Hls1 Hin1.
  pose proof (log_is_step _ _ _ _ _ _ St1 Hli) as Hli1. destruct (blk_step_log _ _ _ St1) as (El1 & _ & Ed1).
  wp_step. eapply wp_write_head; [done..|by rewrite elem_of_list_to_set| |lia|].
  { rewrite size_dirty by apply Hli. apply Hli. }
  rewrite Hls1, El1, Ed1. fold h. cbn zeta. intros s2 St2 Hr2.
  pose proof (log_is_step _ _ _ _ _ _ St2 Hli1) as Hli2. destruct (blk_step_log _ _ _ St2) as (El2 & _ & Ed2).
  wp_step. eapply (wp_install_trans true); [exact Hr2|done|]. intros s3 V3 St3 Hr3 Ho3 Hin3.
  destruct (blk_step_log _ _ _ St3) as (El3 & _ & Ed3).
  rewrite (log_contents_eq _ _ _ V), Ed2 in St3, Ed3 by (intros i x Hx; unfold upd_block; rewrite decide_False by lia; by apply Hin1).
  wp_step. unfold upd_log. apply wp_modify. cbn beta.
  pose proof (log_is_step _ _ _ _ _ _ St3 Hli2) as Hli3. pose proof (log_is_nil _ _ _ _ Hli3 ltac:(lia)) as Hli4.
  eapply wp_write_head; [apply brep_set_log; exact Hr3|exact Hli4|set_solver|by rewrite size_empty|lia|].
  cbn zeta. intros s5 St5 Hr5. cbn [k_log lh_block set_k_log set_lh_n k_disk length] in St5, Hr5.
  rewrite Ho3 in St5, Hr5 by done. unfold upd_block at 1 in St5. rewrite decide_True in St5 by done.
  eapply (HQ s5); [|exact Hr5|].
  - unfold commit_disk, committed, logd. eapply blk_step_trans; [|rewrite <-Ed3, <-El1, <-El2, <-El3; exact St5].
    rewrite El3, El2, El1. apply blk_step_set_log.
    eapply blk_step_trans; [exact St1|]. eapply blk_step_trans; [exact St2|exact St3].
  - intros k Hk. unfold upd_block. rewrite decide_False by (intros ->; apply Hk; unfold in_log; lia).
    destruct (decide (k ∈ L)) as [Hin|Hin].
    + apply list_elem_of_lookup in Hin as [i Hi]. rewrite (Hin3 i k Hi). unfold upd_block.
      rewrite decide_False by lia. by apply Hin1.
    + rewrite Ho3 by done. unfold upd_block. rewrite decide_False by (intros ->; apply Hk; unfold in_log; lia).
      by apply Ho1.
Qed.

(** ** Transactions *)

(** Inside a transaction: the calls under way have modified the blocks [L],
    which are in the cache only, and hold the buffers [H]. *)
Record txn s (pid : Z) (H : list (nat * Z)) (V : Z -> list Z) (ls lsz : Z) (L : list Z) : Prop := {
  tx_rep : brep s pid H V (list_to_set L);
  tx_log : log_is s ls lsz L;
  tx_head : head_n (k_disk s) ls = 0;
  tx_len : length (disk_block s ls) = 512%nat;
  tx_lock : L_log ∉ k_held s;
  tx_calm : lg_committing (k_log s) = 0;
}.

Lemma head_written h D ls : get32 h 0 = 0 -> head_n ((ls, h) :: D) ls = 0.
Proof. intros H. unfold head_n. cbn. rewrite decide_True by done. by rewrite H. Qed.

(** What [end_op] achieves. *)
Record end_op_done s pid V ls lsz (s' : kstate) : Prop := {
  eo_txn : exists V', txn s' pid [] V' ls lsz [] /\ forall k, ~ in_log ls lsz k -> V' k = V k;
  eo_out : lg_outstanding (k_log s') = 0;
  eo_disk : forall k, ~ in_log ls lsz k -> disk_block s' k = V k;
  eo_crash : forall D, k_disk s `suffix_of` D -> D `suffix_of` k_disk s' ->
    head_ok ls lsz (k_disksize s) D /\
    ((forall k, ~ in_log ls lsz k -> recovered D ls k = disk_block s k) \/
     (forall k, ~ in_log ls lsz k -> recovered D ls k = V k));
}.

(** [commit] inside [end_op], whether or not there is something to do. *)
Lemma wp_commit_txn pid V L ls lsz Q s :
  brep s pid [] V (list_to_set L) -> log_is s ls lsz L ->
  head_n (k_disk s) ls = 0 -> length (disk_block s ls) = 512%nat ->
  (forall s' V' D, blk_step (set_k_log (set_lh_n 0 (k_log s)) s) s' D -> brep s' pid [] V' ∅ ->
     (forall k, ~ in_log ls lsz k -> V' k = V k) -> head_n D ls = 0 -> length (disk_at D ls) = 512%nat ->
     (forall D', k_disk s `suffix_of` D' -> D' `suffix_of` D -> head_ok ls lsz (k_disksize s) D' /\
       ((forall k, ~ in_log ls lsz k -> recovered D' ls k = disk_block s k) \/
        (forall k, ~ in_log ls lsz k -> recovered D' ls k = V k))) -> Q tt s') ->
  wp commit Q s.
Proof.
  intros Hr Hli Hh Hl HQ. pose proof (li_fit _ _ _ _ Hli) as Hfit.
  destruct (decide (L = [])) as [->|Hne].
  - unfold commit. wp_step. apply wp_gets. rewrite (li_n _ _ _ _ Hli).
    change (0 <? Z.of_nat (length (@nil Z))) with false. cbn [when]. wp_steps.
    apply (HQ s V (k_disk s)); [|done..|].
    + assert (set_k_log (set_lh_n 0 (k_log s)) s = s) as ->; [|apply blk_step_refl].
      pose proof (li_n _ _ _ _ Hli) as Hn. destruct s; cbn in *. f_equal. destruct k_log; cbn in *. by subst.
    + intros D' H1 H2. assert (D' = k_disk s) as -> by (by apply (anti_symm suffix)).
      destruct (head_zero ls lsz (k_disksize s) (k_disk s)) as [? E]; [by apply head_n_zero|cbn in Hfit; lia|done|].
      split; [done|]. left. intros. by rewrite recovered_zero.
  - assert (ls ∉ L) as HlsL.
    { intros Hin. destruct (li_out _ _ _ _ Hli _ Hin) as [Hno _]. apply Hno. unfold in_log. lia. }
    assert (V ls = disk_block s ls) as EV.
    { apply (br_clean _ _ _ _ _ Hr); [by rewrite elem_of_list_to_set|apply not_elem_of_nil]. }
    pose proof (li_max _ _ _ _ Hli) as Hmax. change NBUF with LOGSIZE in Hmax.
    assert (Z.of_nat (length L) <= Z.of_nat (length (lh_block (k_log s)))) as Hlen.
    { rewrite (li_len _ _ _ _ Hli). lia. }
    rewrite <-EV in Hl.
    destruct (encode_head_spec (Z.of_nat (length L)) (lh_block (k_log s)) (V ls)) as (Hhl & Hh0 & HhL);
      [done|lia|done|].
    destruct (encode_head_spec 0 (lh_block (k_log s)) _ Hhl) as (H0l & H00 & _); [by split|lia|].
    eapply wp_commit; [done..|]. cbn zeta. intros s' V' St Hr' HV'. eapply HQ; [exact St|done|done|..].
    + by apply head_written.
    + cbn. by rewrite decide_True.
    + intros D' Hs1 Hs2. eapply (commit_atomic ls lsz (k_disksize s) L V (k_disk s)); [..|exact Hs1|exact Hs2];
        [apply Hli|apply Hli|lia|apply Hli|done| |done| |done|by rewrite EV in Hl|done|done].
      * intros k Hk HkL. apply (br_clean _ _ _ _ _ Hr); [by rewrite elem_of_list_to_set|apply not_elem_of_nil].
      * intros i x Hx. rewrite (HhL (Z.of_nat i) x); [|apply lookup_lt_Some in Hx; lia|by apply (li_block _ _ _ _ Hli)].
        apply u32_small. destruct (li_out _ _ _ _ Hli x) as [_ ?]; [by eapply list_elem_of_lookup_2|].
        pose proof (li_range _ _ _ _ Hli). lia.
Qed.

Lemma wp_end_op pid V L ls lsz s :
  txn s pid [] V ls lsz L -> lg_outstanding (k_log s) = 1 ->
  wp end_op (fun _ s' => end_op_done s pid V ls lsz s') s.
Proof.
  intros [Hr Hli Hh Hlen Hlk Hcalm] Hout. destruct (br_locks _ _ _ _ _ Hr) as (Hub & Hup & Hubuf).
  pose proof (li_fit _ _ _ _ Hli) as Hfit.
  unfold end_op. wp_step. apply wp_acquire; [done|]. wp_step. unfold upd_log at 1. apply wp_modify. wp_step. apply wp_gets.
  ksimpl. rewrite Hcalm, Hout. cbn [Z.eqb negb Z.sub Z.add Z.opp Pos.add Z.pos_sub when].
  change (1 - 1 =? 0) with true. cbn [when]. wp_step. unfold upd_log at 1. apply wp_modify. ksimpl.
  wp_step. eapply wp_release; [done|]. wp_step. set (s1 := set_k_held _ _).
  assert (s1 = set_k_log (set_lg_committing 1 (set_lg_outstanding 0 (k_log s))) s) as E1
    by (unfold s1; by destruct s).
  rewrite E1. clear s1 E1. set (s1 := set_k_log _ s).
  apply (wp_commit_txn pid V L ls lsz); [by apply brep_set_log|by destruct Hli; split|done|done|].
  intros s2 V2 D (bs & lru & ps & -> & Hps) Hr2 HV2 Hh2 Hl2 Hcr.
  wp_step. apply wp_acquire; [done|]. wp_steps. unfold upd_log. wp_steps.
  eapply wp_wakeup; [by intros [?|?]%elem_of_cons|]. eapply wp_release; [done|].
  set (s3 := set_k_held _ _).
  assert (bio_unlocked s3) as Hu by done.
  assert (exists ps', procs_woken (k_proc s) ps' /\
    s3 = set_k_buf bs (set_k_lru lru (set_k_proc ps' (set_k_disk D
           (set_k_log (set_lh_n 0 (set_lg_committing 0 (set_lg_outstanding 0 (k_log s)))) s))))) as (ps' & Hps' & E3).
  { exists (wake_proc ChLog <$> ps). split; [|unfold s3, s1; ksimpl; by destruct s].
    eapply procs_woken_trans; [exact Hps|]. apply Forall2_fmap_r, Forall_Forall2_diag, Forall_forall.
    intros. apply wake_proc_woken. }
  assert (brep s3 pid [] V2 ∅) as Hr3.
  { eapply brep_ext; [exact Hr2|done..|]. eapply (cur_pid_woken s); [done|by rewrite E3|apply Hr]. }
  clearbody s3. split.
  - exists V2. split; [|done]. split; rewrite ?E3; try done; [|].
    + by rewrite <-E3.
    + destruct Hli. split; try done; [cbn in *; lia|apply NoDup_nil_2|by intros ? ?%elem_of_nil].
  - by rewrite E3.
  - intros k Hk. rewrite <-HV2 by done. symmetry. apply (br_clean _ _ _ _ _ Hr3); [set_solver|apply not_elem_of_nil].
  - rewrite E3. exact Hcr.
Qed.

(** ** Recovery *)

Lemma wp_read_one (n : Z) {A} (f : list Z -> A) pid V Q s :
  brep s pid [] V ∅ -> n < k_disksize s ->
  (forall s', blk_step s s' (k_disk s) -> brep s' pid [] V ∅ -> Q (f (V n)) s') ->
  wp (bp ← bread ROOTDEV n; b ← get_buf bp; let x := f (b_data b) in brelse bp;; mret x) Q s.
Proof.
  intros Hr Hn HQ. wp_step. eapply (wp_bread_rep n); [exact Hr|apply not_elem_of_nil| |done|].
  { right. rewrite size_empty. cbn. unfold NBUF, MAXOPBLOCKS. lia. }
  intros i bs s1 _ Hr1. assert ((i, n) ∈ [(i, n)]) as Hi by (by left).
  destruct (brep_held _ _ _ _ _ Hr1 i n Hi) as (b & Hb & _ & _ & _ & _ & Hd).
  wp_step. eapply wp_get_buf; [done|]. rewrite Hd. cbn zeta. wp_step.
  eapply wp_brelse_rep; [exact Hr1|exact Hi|right|].
  { symmetry. transitivity (disk_block s n); [done|]. symmetry.
    apply (br_clean _ _ _ _ _ Hr); [set_solver|apply not_elem_of_nil]. }
  intros bs2 lru ps Hps s2 Hr2. wp_steps. apply HQ.
  - exists bs2, lru, ps. split; [|done]. unfold s2, s1. by destruct s.
  - assert (drop_held i [(i, n)] = []) as E; [|by rewrite E in Hr2].
    apply elem_of_nil_inv. intros [j m]. rewrite elem_of_drop_held, list_elem_of_singleton.
    intros [? [= -> ->]]. done.
Qed.

(** All the blocks installed: the home locations hold what recovery gives. *)
Lemma disk_installed ls lsz dsz D k : head_ok ls lsz dsz D ->
  let cs := (fun i => disk_at D (ls + 1 + i)) <$> seqZ 0 (head_n D ls) in
  disk_at (write_all_blocks (head_blocks D ls) cs D) k = recovered D ls k.
Proof.
  intros [Hn Hs Hnd Ho _] cs. assert (length (head_blocks D ls) = length cs) as Hl
    by (unfold head_blocks, cs; by rewrite !length_fmap).
  unfold recovered. destruct (list_find _ _) as [[i b]|] eqn:F.
  - apply list_find_Some in F as (Hi & -> & _). rewrite (disk_at_written _ _ _ i); [|done..].
    apply nth_lookup_Some. pose proof (lookup_lt_Some _ _ _ Hi) as Hlt.
    unfold cs. rewrite list_lookup_fmap, lookup_seqZ_lt; [done|].
    rewrite <-length_head_blocks by lia. lia.
  - apply disk_at_unwritten; [done|]. intros Hin. apply list_find_None in F. rewrite Forall_forall in F. by apply (F k).
Qed.

Lemma wp_read_head pid V ls Q s :
  let D := k_disk s in
  brep s pid [] V ∅ -> lg_dev (k_log s) = ROOTDEV -> lg_start (k_log s) = ls -> ls < k_disksize s ->
  0 <= head_n D ls <= LOGSIZE -> length (lh_block (k_log s)) = Z.to_nat LOGSIZE ->
  (forall bl s', length bl = Z.to_nat LOGSIZE ->
     (forall i x, head_blocks D ls !! i = Some x -> zlookup bl (Z.of_nat i) = Some x) ->
     blk_step (set_k_log (set_lh_block bl (set_lh_n (head_n D ls) (k_log s))) s) s' D ->
     brep s' pid [] V ∅ -> Q tt s') ->
  wp read_head Q s.
Proof.
  intros D Hr Hdev Hst Hsz Hn Hlen HQ. unfold read_head. wp_step. apply wp_gets. rewrite Hdev, Hst.
  assert (V ls = disk_at D ls) as EV by (apply (br_clean _ _ _ _ _ Hr); [set_solver|apply not_elem_of_nil]).
  wp_step. eapply (wp_bread_rep ls); [exact Hr|apply not_elem_of_nil| |done|].
  { right. rewrite size_empty. cbn. unfold NBUF, MAXOPBLOCKS. lia. }
  intros i bs s1 _ Hr1. assert ((i, ls) ∈ [(i, ls)]) as Hi by (by left).
  destruct (brep_held _ _ _ _ _ Hr1 i ls Hi) as (b & Hb & _ & _ & _ & _ & Hd).
  wp_step. eapply wp_get_buf; [done|]. rewrite Hd, EV. cbn zeta.
  change (s32 (get32 (disk_at D ls) 0)) with (head_n D ls).
  wp_step. unfold upd_log at 1. apply wp_modify. wp_step.
  apply (wp_for_seqZ _ _ (fun t _ s' => exists bl, s' = set_k_log (set_lh_block bl (set_lh_n (head_n D ls) (k_log s))) s1 /\
    length bl = Z.to_nat LOGSIZE /\
    forall j x, (j < t)%nat -> head_blocks D ls !! j = Some x -> zlookup bl (Z.of_nat j) = Some x)); [lia| | |].
  - intros t _ s2 Ht (bl & -> & Hbl & Hin). rewrite (proj2 (Z.ltb_lt _ _)) by lia.
    wp_step. unfold upd_log. apply wp_modify. wp_steps. ksimpl. cbn [lh_block set_lh_block set_lh_n].
    eexists. split; [reflexivity|]. split; [by rewrite length_zinsert|].
    intros j x Hj Hx. rewrite zlookup_zinsert by lia. case_decide as E; [|apply Hin; [lia|done]].
    unfold head_blocks in Hx. rewrite list_lookup_fmap, lookup_seqZ_lt in Hx by lia. cbn in Hx.
    injection Hx as <-. do 2 f_equal. lia.
  - intros _ s2 (bl & -> & Hbl & Hin).
    assert (brep (set_k_log (set_lh_block bl (set_lh_n (head_n D ls) (k_log s))) s1) pid [(i, ls)] V ∅) as Hr2
      by (by apply brep_set_log).
    eapply wp_brelse_rep; [exact Hr2|exact Hi|right; exact EV|].
    intros bs2 lru ps Hps s3 Hr3. apply (HQ bl); [done| | |].
    + intros j x Hx. apply Hin; [|done]. apply lookup_lt_Some in Hx.
      unfold head_blocks in Hx. by rewrite length_fmap, length_seqZ in Hx.
    + exists bs2, lru, ps. split; [|done]. unfold s3, s1. by destruct s.
    + assert (drop_held i [(i, ls)] = []) as E; [|by rewrite E in Hr3].
      apply elem_of_nil_inv. intros [j m]. rewrite elem_of_drop_held, list_elem_of_singleton.
      intros [? [= -> ->]]. done.
  - exists (lh_block (k_log s)). split; [|split; [done|lia]]. unfold s1. ksimpl. by destruct s as []; destruct k_log.
Qed.

(** A machine that has just booted from a disk with a log at [ls]. *)
Record booted s (pid ls lsz : Z) : Prop := {
  bt_rep : exists V, brep s pid [] V ∅;
  bt_sb : sb_logstart (decode_sb (disk_block s 1)) = ls /\ sb_nlog (decode_sb (disk_block s 1)) = lsz;
  bt_range : 0 <= ls /\ ls + lsz <= k_disksize s <= two32 /\ 1 < k_disksize s;
  bt_small : lsz <= NBUF;
  bt_len : length (lh_block (k_log s)) = Z.to_nat LOGSIZE;
  bt_head : head_ok ls lsz (k_disksize s) (k_disk s);
}.

(** What [initlog] achieves. *)
Record recovery_done s pid ls lsz (s' : kstate) : Prop := {
  rd_rep : exists V, brep s' pid [] V ∅;
  rd_log : log_is s' ls lsz [];
  rd_head : head_n (k_disk s') ls = 0;
  rd_disk : forall k, ~ in_log ls lsz k -> disk_block s' k = recovered (k_disk s) ls k;
  rd_crash : forall D, k_disk s `suffix_of` D -> D `suffix_of` k_disk s' ->
    head_ok ls lsz (k_disksize s) D /\ forall k, ~ in_log ls lsz k -> recovered D ls k = recovered (k_disk s) ls k;
}.

(** The disks on the way to the end of recovery. *)
Lemma recovery_crash ls lsz dsz D0 h0 : head_ok ls lsz dsz D0 -> get32 h0 0 = 0 -> length h0 = 512%nat ->
  let cs := (fun i => disk_at D0 (ls + 1 + i)) <$> seqZ 0 (head_n D0 ls) in
  let D1 := (ls, h0) :: write_all_blocks (head_blocks D0 ls) cs D0 in
  (forall k, ~ in_log ls lsz k -> disk_at D1 k = recovered D0 ls k) /\
  forall D, D0 `suffix_of` D -> D `suffix_of` D1 ->
    head_ok ls lsz dsz D /\ forall k, ~ in_log ls lsz k -> recovered D ls k = recovered D0 ls k.
Proof.
  intros Hok Hh0 Hlh0 cs D1. pose proof (ho_n _ _ _ _ Hok) as Hn.
  assert (forall k, ~ in_log ls lsz k -> disk_at D1 k = recovered D0 ls k) as H1.
  { intros k Hk. unfold D1. cbn. rewrite decide_False by (intros ->; apply Hk; unfold in_log; lia).
    by apply (disk_installed ls lsz dsz). }
  split; [done|]. intros D Hs0 [[|w W] HW]; cbn in HW.
  - subst D. destruct (head_zero ls lsz dsz D1) as [Hk E]; [cbn; by rewrite decide_True|lia|cbn; by rewrite decide_True|].
    split; [done|]. intros k ?. rewrite recovered_zero by done. by apply H1.
  - injection HW as _ HW. destruct (write_all_suffix (head_blocks D0 ls) cs D0 D) as [Hs|(j & ->)]; [by exists W| |].
    + assert (D = D0) as -> by (by apply (anti_symm suffix)). done.
    + split; [by apply (recovered_install ls lsz dsz D0 j 0)|]. intros k _. by apply (recovered_install ls lsz dsz).
Qed.

Lemma booted_log_is s s' pid ls lsz bl : booted s pid ls lsz ->
  k_log s' = set_lh_block bl (set_lh_n (head_n (k_disk s) ls)
               (set_lg_dev ROOTDEV (set_lg_size lsz (set_lg_start ls (k_log s))))) ->
  k_disksize s' = k_disksize s -> length bl = Z.to_nat LOGSIZE ->
  (forall i x, head_blocks (k_disk s) ls !! i = Some x -> zlookup bl (Z.of_nat i) = Some x) ->
  log_is s' ls lsz (head_blocks (k_disk s) ls).
Proof.
  intros [_ _ Hrg Hsm _ [Hn Hs Hnd Ho _]] El Ez Hlen Hbl.
  pose proof (length_head_blocks ls (k_disk s) ltac:(lia)) as Hhl.
  split; rewrite ?El, ?Ez; cbn [lg_dev lg_start lg_size lh_n lh_block set_lh_block set_lh_n set_lg_dev set_lg_size set_lg_start];
    try done; try lia.
  intros b Hin. destruct (Ho b Hin) as [? ?]. split; [done|]. split; [|done].
  unfold head_blocks in Hin. apply list_elem_of_fmap in Hin as (i & -> & _). apply get32_range.
Qed.

Lemma wp_initlog pid ls lsz s : booted s pid ls lsz ->
  wp (initlog ROOTDEV) (fun _ s' => recovery_done s pid ls lsz s') s.
Proof.
  intros Hbt. destruct (bt_rep _ _ _ _ Hbt) as [V Hr]. destruct (bt_range _ _ _ _ Hbt) as (Hls & Hsz & H1).
  destruct (bt_sb _ _ _ _ Hbt) as [Esb1 Esb2]. pose proof (bt_head _ _ _ _ Hbt) as Hok.
  pose proof (ho_n _ _ _ _ Hok) as Hn. pose proof (ho_size _ _ _ _ Hok) as Hn2. set (D0 := k_disk s) in *.
  assert (forall k, V k = disk_at D0 k) as EV
    by (intros; apply (br_clean _ _ _ _ _ Hr); [set_solver|apply not_elem_of_nil]).
  unfold initlog. change (BSIZE <=? 4 + 4 * LOGSIZE) with false. cbn [andb].
  wp_step. unfold readsb. eapply (wp_read_one 1); [exact Hr|done|]. rewrite EV.
  change (disk_at D0 1) with (disk_block s 1). rewrite Esb1, Esb2.
  intros s1 (bs1 & lru1 & ps1 & -> & Hps1) Hr1. wp_step. unfold upd_log. apply wp_modify. wp_step. apply wp_modify.
  wp_step. apply wp_modify. ksimpl. unfold recover_from_log. wp_step.
  set (s2 := set_k_log _ _). assert (k_disk s2 = D0) as Ed2 by done.
  eapply (wp_read_head pid V ls); rewrite ?Ed2;
    [by do 3 apply brep_set_log|done..|cbn; lia|lia|apply (bt_len _ _ _ _ Hbt)|].
  intros bl s3 Hbl Hin (bs3 & lru3 & ps3 & -> & Hps3) Hr3.
  set (s3 := set_k_buf bs3 _). pose proof (booted_log_is s s3 pid ls lsz bl Hbt eq_refl eq_refl Hbl Hin) as Hli.
  fold s3 in Hr3. fold D0 in Hli. assert (k_disk s3 = D0) as Ed3 by done. clearbody s3.
  wp_step. eapply (wp_install_trans false); [exact Hr3|exact Hli|]. rewrite Ed3.
  intros s4 V4 St4 Hr4 Ho4 _. wp_step. unfold upd_log. apply wp_modify. cbn beta.
  pose proof (log_is_step _ _ _ _ _ _ St4 Hli) as Hli4. destruct (blk_step_log _ _ _ St4) as (_ & _ & Ed4).
  assert (log_contents V ls (length (head_blocks D0 ls)) =
    ((fun i => disk_at D0 (ls + 1 + i)) <$> seqZ 0 (head_n D0 ls))) as Ecs.
  { unfold log_contents, log_blocks. rewrite length_head_blocks, <-list_fmap_compose by lia.
    apply list_fmap_ext. intros i x _. apply EV. }
  rewrite Ecs in Ed4. pose proof (log_is_nil _ _ _ _ Hli4 ltac:(lia)) as Hli5.
  eapply wp_write_head; [apply brep_set_log; exact Hr4|exact Hli5|set_solver|by rewrite size_empty|lia|].
  cbn zeta. intros s5 St5 Hr5. cbn [k_log lh_block set_k_log set_lh_n k_disk length] in St5, Hr5.
  set (h0 := encode_head _ _ _) in *.
  destruct (encode_head_spec 0 (lh_block (k_log s4)) (V4 ls)) as (Hlh0 & Hh0 & _); [|by split|lia|].
  { rewrite Ho4; [rewrite EV; apply (ho_len _ _ _ _ Hok)|].
    intros Hi. apply (ho_out _ _ _ _ Hok _ Hi). unfold in_log. lia. }
  destruct (recovery_crash ls lsz (k_disksize s) D0 h0 Hok Hh0 Hlh0) as [Hd Hc]. rewrite <-Ed4 in Hd, Hc.
  destruct (blk_step_log _ _ _ St5) as (_ & _ & Ed5).
  split; [by eexists|by eapply log_is_step|rewrite Ed5; by apply head_written| |by rewrite Ed5].
  intros k Hk. unfold disk_block. rewrite Ed5. by apply Hd.
Qed.

(** C10: Recovery always succeeds and can itself be interrupted.  [initlog] on
    a booted machine whose disk carries a well-formed log terminates with
    every block as [recovered] says and an empty log; and if the machine
    stops again during recovery, the disk it leaves carries a well-formed
    log that recovers to the same contents. *)
Theorem initlog_recovers pid ls lsz s : booted s pid ls lsz ->
  wp (initlog ROOTDEV) (fun _ s' => recovery_done s pid ls lsz s') s.
Proof. apply wp_initlog. Qed.

(** The machine [b] started from the disk [D]; no transaction writes the
    super block. *)
Record rebooted s (D : list (Z * list Z)) (ls lsz : Z) (pid : Z) b : Prop := {
  rb_rep : exists V, brep b pid [] V ∅;
  rb_disk : k_disk b = D;
  rb_size : k_disksize b = k_disksize s;
  rb_sb : sb_logstart (decode_sb (disk_at D 1)) = ls /\ sb_nlog (decode_sb (disk_at D 1)) = lsz;
  rb_len : length (lh_block (k_log b)) = Z.to_nat LOGSIZE;
}.

(** C3: Transactions are atomic.  [end_op] of the last outstanding call
    terminates with the new contents of every block on the disk; and if the
    machine stops at any point of it, the reboot's [initlog] terminates with
    a disk that holds all the old contents or all the new ones. *)
Theorem end_op_crash_safe pid V L ls lsz s :
  txn s pid [] V ls lsz L -> lg_outstanding (k_log s) = 1 -> lsz <= NBUF -> 1 < k_disksize s ->
  wp end_op (fun _ s' => end_op_done s pid V ls lsz s' /\
    forall D b pid', k_disk s `suffix_of` D -> D `suffix_of` k_disk s' -> rebooted s D ls lsz pid' b ->
      wp (initlog ROOTDEV) (fun _ b' =>
        (forall k, ~ in_log ls lsz k -> disk_block b' k = disk_block s k) \/
        (forall k, ~ in_log ls lsz k -> disk_block b' k = V k)) b) s.
Proof.
  intros Htx Hout Hsm H1. eapply wp_mono; [by eapply wp_end_op|]. cbn beta. intros _ s' Hdone.
  split; [done|]. intros D b pid' Hs1 Hs2 [Hrep Hd Hsz Hsb Hlen].
  destruct (eo_crash _ _ _ _ _ _ Hdone D Hs1 Hs2) as [Hok Hor].
  pose proof (li_range _ _ _ _ (tx_log _ _ _ _ _ _ _ Htx)) as Hrg.
  eapply wp_mono; [apply (wp_initlog pid' ls lsz)|].
  - split; unfold disk_block; rewrite ?Hd, ?Hsz; try done; lia.
  - cbn beta. intros _ b' Hrd. destruct Hor as [Ho|Hn]; [left|right]; intros k Hk;
      rewrite (rd_disk _ _ _ _ _ Hrd k Hk), Hd; auto.
Qed.

(** ** Recording a block *)

Lemma brep_set_held h s pid H V dirty : brep s pid H V dirty ->
  L_bcache ∉ h -> L_ptable ∉ h -> (forall i, L_buf i ∉ h) -> brep (set_k_held h s) pid H V dirty.
Proof. intros Hr ? ? ?. by eapply brep_ext; try done; apply Hr. Qed.

(** The blocks of the transaction after [log_write]. *)
Definition logged (n : Z) (L : list Z) : list Z := if decide (n ∈ L) then L else L ++ [n].

(** The search for the block number in the header. *)
Lemma wp_log_search (n : Z) L ls lsz (Q : unit + Z -> kstate -> Prop) s s0 : log_is s0 ls lsz L ->
  (forall i, L !! i = Some n -> Q (inr (Z.of_nat i)) s) -> (n ∉ L -> Q (inl tt) s) ->
  wp (for_ (seqZ 0 (lh_n (k_log s0))) (fun i (_ : unit) =>
        x ← the (zlookup (lh_block (k_log s0)) i);
        mret (if x =? n then Return i else Next tt)) tt) Q s.
Proof.
  intros Hli Hin Hout. rewrite (li_n _ _ _ _ Hli).
  apply (wp_for_seqZ _ _ (fun t _ s' => s' = s /\ n ∉ take t L)); [lia| | |].
  - intros t _ s1 Ht [-> Hn]. destruct (lookup_lt_is_Some_2 L t ltac:(lia)) as [x Hx].
    wp_step. eapply wp_the; [by apply (li_block _ _ _ _ Hli)|]. wp_steps.
    destruct (Z.eqb_spec x n) as [->|Hne]; [by apply Hin|]. split; [done|].
    rewrite (take_S_lookup _ _ _ Hx), elem_of_app, list_elem_of_singleton. intros [?|?]; [done|congruence].
  - intros [] s1 [-> Hn]. rewrite Nat2Z.id, take_ge in Hn by lia. by apply Hout.
  - split; [done|]. apply not_elem_of_nil.
Qed.

Lemma log_is_logged s ls lsz L n (i : nat) : log_is s ls lsz L -> Z.of_nat (length L) < lsz - 1 -> lsz <= NBUF ->
  ~ in_log ls lsz n -> 0 <= n < k_disksize s -> L !! i = Some n \/ n ∉ L /\ i = length L ->
  log_is (set_k_log (set_lh_n (Z.of_nat (length (logged n L)))
           (set_lh_block (zinsert (Z.of_nat i) n (lh_block (k_log s))) (k_log s))) s) ls lsz (logged n L).
Proof.
  intros [Hdev Hst Hsz Hn Hbl Hlen Hrg Hfit Hmax Hnd Hout] Hroom Hsm Hno Hr Hi.
  assert (0 <= Z.of_nat i < Z.of_nat (length (lh_block (k_log s)))) as Hil.
  { rewrite Hlen. unfold NBUF, LOGSIZE in *. destruct Hi as [Hi%lookup_lt_Some|[_ ->]]; lia. }
  split; cbn [lg_dev lg_start lg_size lh_n lh_block set_lh_block set_lh_n k_log set_k_log k_disksize]; try done.
  - intros j x Hx. rewrite zlookup_zinsert by done. unfold logged in Hx. destruct Hi as [Hi|[Hni ->]].
    + rewrite decide_True in Hx by (by eapply list_elem_of_lookup_2). case_decide as E; [|by apply Hbl].
      assert (i = j) as -> by lia. congruence.
    + rewrite decide_False in Hx by done. apply lookup_app_Some in Hx as [Hx|[? Hx]].
      * rewrite decide_False; [by apply Hbl|]. apply lookup_lt_Some in Hx. lia.
      * apply list_lookup_singleton_Some in Hx as [? <-]. by rewrite decide_True by lia.
  - by rewrite length_zinsert.
  - unfold logged. case_decide; rewrite ?length_app; cbn; lia.
  - unfold logged. case_decide; rewrite ?length_app; cbn; lia.
  - unfold logged. case_decide; [done|]. apply NoDup_app. split_and!; [done| |apply NoDup_singleton].
    intros x Hx ->%list_elem_of_singleton. done.
  - intros b Hb. unfold logged in Hb. case_decide; [by apply Hout|].
    apply elem_of_app in Hb as [Hb| ->%list_elem_of_singleton]; [by apply Hout|done].
Qed.

Lemma wp_log_write pid H V ls lsz L (bi : nat) n Q s :
  txn s pid H V ls lsz L -> (bi, n) ∈ H -> 1 <= lg_outstanding (k_log s) ->
  Z.of_nat (length L) < lsz - 1 -> lsz <= NBUF -> ~ in_log ls lsz n -> 0 <= n < k_disksize s ->
  (forall bs lg, let s' := set_k_buf bs (set_k_log lg s) in
     txn s' pid H V ls lsz (logged n L) -> lg_outstanding lg = lg_outstanding (k_log s) -> Q tt s') ->
  wp (log_write bi) Q s.
Proof.
  intros [Hr Hli Hh Hlen Hlk Hcalm] Hbi Hout Hroom Hsm Hno Hn HQ.
  destruct (br_locks _ _ _ _ _ Hr) as (Hub & Hup & Hubuf).
  destruct (brep_held _ _ _ _ _ Hr bi n Hbi) as (b & Hb & _ & _ & Hc & _ & _).
  apply caches_true in Hc as [_ Hbn].
  unfold log_write. wp_step. apply wp_gets. rewrite (li_n _ _ _ _ Hli), (li_size _ _ _ _ Hli).
  rewrite (proj2 (Z.leb_gt LOGSIZE _)) by (unfold NBUF, LOGSIZE in *; lia).
  rewrite (proj2 (Z.leb_gt (lsz - 1) _)) by lia. cbn [orb]. rewrite (proj2 (Z.ltb_ge _ _)) by lia.
  wp_step. apply wp_acquire; [done|]. wp_step. eapply wp_get_buf; [done|]. rewrite Hbn.
  wp_step. rewrite <-(li_n _ _ _ _ Hli). set (s1 := set_k_held _ s).
  match goal with |- wp (for_ _ _ _) (fun r s' => wp (@?k r) Q s') _ =>
    assert (forall i, L !! i = Some n \/ n ∉ L /\ i = length L -> forall r : unit + Z,
      loop_result r (lh_n (k_log s)) = Z.of_nat i -> wp (k r) Q s1) as Hrec end.
  { intros i Hi r Er. cbv beta. cbn zeta. rewrite Er. set (L' := logged n L).
    wp_step. unfold upd_log at 1. apply wp_modify. wp_step.
    set (lg' := set_lh_n (Z.of_nat (length L')) (set_lh_block (zinsert (Z.of_nat i) n (lh_block (k_log s))) (k_log s))).
    assert (forall (Q' : unit -> kstate -> Prop), Q' tt (set_k_log lg' s1) ->
      wp (when (Z.of_nat i =? lh_n (k_log s)) (upd_log (fun lg => set_lh_n (lh_n lg + 1) lg))) Q'
        (set_k_log (set_lh_block (zinsert (Z.of_nat i) n (lh_block (k_log s1))) (k_log s1)) s1)) as Hcount.
    { intros Q' HQ'. rewrite (li_n _ _ _ _ Hli). unfold lg', L', logged in HQ'. destruct Hi as [Hi|[Hni ->]].
      - rewrite (proj2 (Z.eqb_neq _ _)) by (apply lookup_lt_Some in Hi; lia). cbn [when]. apply wp_ret.
        rewrite decide_True in HQ' by (by eapply list_elem_of_lookup_2). rewrite <-(li_n _ _ _ _ Hli) in HQ'.
        destruct s as []; by destruct k_log.
      - rewrite Z.eqb_refl. cbn [when]. unfold upd_log. apply wp_modify. cbn.
        rewrite decide_False, length_app in HQ' by done. rewrite (li_n _ _ _ _ Hli).
        by replace (Z.of_nat (length L) + 1) with (Z.of_nat (length L + length [n])) by (cbn; lia). }
    apply Hcount. wp_step.
    assert (brep (set_k_log lg' s1) pid H V (list_to_set L)) as Hr1.
    { apply brep_set_log, brep_set_held; [done|..]; intros; rewrite not_elem_of_cons; done. }
    eapply wp_mark_dirty; [exact Hr1|exact Hbi|]. intros bs s2 Hr2. eapply wp_release; [done|].
    specialize (HQ bs lg'). cbn zeta in HQ. assert (set_k_held (k_held s) s2 = set_k_buf bs (set_k_log lg' s)) as ->
      by (unfold s2, s1; by destruct s).
    apply HQ; [|done]. split; try done; [|by destruct (log_is_logged s ls lsz L n i); try done; split].
    fold L'. assert (list_to_set (C := gset Z) L' = {[n]} ∪ list_to_set L) as ->.
    { unfold L', logged. case_decide; [|rewrite list_to_set_app_L]; set_solver. }
    eapply brep_ext; [exact Hr2|done..|apply Hr]. }
  eapply wp_log_search; [exact Hli|..].
  - intros i Hi. eapply (Hrec i); [by left|done].
  - intros Hni. eapply (Hrec (length L)); [by right|]. apply Hli.
Qed.

(** A block is recorded once.  Inside a transaction with room in the log
    [log_write] of a held buffer terminates, adds the block's number to the
    transaction unless it is there already (absorption), pins the buffer in
    the cache and changes no contents; without room, or outside of a
    transaction, it panics. *)
Theorem log_write_records pid H V ls lsz L (bi : nat) n s :
  txn s pid H V ls lsz L -> (bi, n) ∈ H -> lsz <= NBUF -> ~ in_log ls lsz n -> 0 <= n < k_disksize s ->
  (1 <= lg_outstanding (k_log s) -> Z.of_nat (length L) < lsz - 1 ->
     wp (log_write bi) (fun _ s' => txn s' pid H V ls lsz (if decide (n ∈ L) then L else L ++ [n]) /\
       lg_outstanding (k_log s') = lg_outstanding (k_log s)) s) /\
  (lsz - 1 <= Z.of_nat (length L) -> log_write bi s = Err (Panic "too big a transaction")) /\
  (lg_outstanding (k_log s) < 1 -> Z.of_nat (length L) < lsz - 1 ->
     log_write bi s = Err (Panic "log_write outside of trans")).
Proof.
  intros Htx Hbi Hsm Hno Hn. pose proof (tx_log _ _ _ _ _ _ _ Htx) as Hli. split_and!.
  - intros Hout Hroom. eapply wp_log_write; [done..|]. by intros bs lg s' ? ?.
  - intros Hfull. unfold log_write, mbind, M_bind, gets. rewrite (li_n _ _ _ _ Hli), (li_size _ _ _ _ Hli).
    by rewrite (proj2 (Z.leb_le (lsz - 1) _)), orb_true_r by lia.
  - intros Hout Hroom. unfold log_write, mbind, M_bind, gets. rewrite (li_n _ _ _ _ Hli), (li_size _ _ _ _ Hli).
    rewrite (proj2 (Z.leb_gt LOGSIZE _)) by (unfold NBUF, LOGSIZE in *; lia).
    rewrite (proj2 (Z.leb_gt (lsz - 1) _)) by lia. cbn [orb]. by rewrite (proj2 (Z.ltb_lt _ _)) by lia.
Qed.

(** ** The reservation of a call *)

(** How the file system modifies a block inside a transaction ([bzero] and
    [writei] of [fs.c], for example). *)
Definition update_block (n : Z) (f : list Z -> list Z) : K unit :=
  bi ← bread ROOTDEV n;
  (b ← get_buf bi; put_buf bi (set_b_data (f (b_data b)) b));;
  log_write bi;;
  brelse bi.

Section reservation.
Context (pid ls lsz : Z) (Hsm : lsz <= NBUF).

(** The block is read and modified, with the buffer locked. *)
Lemma wp_modify_block {A} (k : nat -> K A) V L n f Q s : txn s pid [] V ls lsz L -> n < k_disksize s ->
  (forall bi s', txn s' pid [(bi, n)] (upd_block V n (f (V n))) ls lsz L -> k_log s' = k_log s -> k_disksize s' = k_disksize s ->
     wp (k bi) Q s') ->
  wp (bi ← bread ROOTDEV n; (b ← get_buf bi; put_buf bi (set_b_data (f (b_data b)) b));; k bi) Q s.
Proof.
  intros [Hr Hli Hh Hlen Hlk Hc] Hn HQ. wp_step. eapply (wp_bread_rep n); [exact Hr|apply not_elem_of_nil| |done|].
  { right. rewrite size_dirty by apply Hli. pose proof (li_max _ _ _ _ Hli). cbn. lia. }
  intros bi bs s1 _ Hr1. wp_step. apply (wp_put_data _ _ _ _ _ Hr1 bi n ltac:(by left) f). intros bs2 s2 Hr2.
  apply HQ; [|done..]. split; try done. by destruct Hli; split.
Qed.

Lemma wp_update_block V L n f Q s : txn s pid [] V ls lsz L -> 1 <= lg_outstanding (k_log s) ->
  Z.of_nat (length L) < lsz - 1 -> ~ in_log ls lsz n -> 0 <= n < k_disksize s ->
  (forall s', txn s' pid [] (upd_block V n (f (V n))) ls lsz (logged n L) ->
     lg_outstanding (k_log s') = lg_outstanding (k_log s) -> k_disksize s' = k_disksize s -> Q tt s') ->
  wp (update_block n f) Q s.
Proof.
  intros Htx Hout Hroom Hno Hn HQ. unfold update_block. eapply wp_modify_block; [done|lia|]. intros bi s1 Htx1 El Ed.
  wp_step. eapply wp_log_write; [exact Htx1|by left|by rewrite El|done|done|done|by rewrite Ed|]. intros bs lg s2 Htx2 Hlg.
  destruct Htx2 as [Hr2 Hli2 Hh2 Hlen2 Hlk2 Hc2]. eapply wp_brelse_rep; [exact Hr2|by left| |].
  { left. apply elem_of_list_to_set. unfold logged. case_decide; [done|]. apply elem_of_app. right. by left. }
  intros bs3 lru ps Hps s3 Hr3. apply HQ; [|by rewrite <-El|done].
  unfold drop_held in Hr3. rewrite filter_cons_False in Hr3 by (cbn; intros E; by apply E).
  split; try done. by destruct Hli2; split.
Qed.

(** A full log. *)
Lemma log_write_full s H V L bi : txn s pid H V ls lsz L -> lsz - 1 <= Z.of_nat (length L) ->
  log_write bi s = Err (Panic "too big a transaction").
Proof.
  intros Htx Hfull. pose proof (tx_log _ _ _ _ _ _ _ Htx) as Hli. unfold log_write, mbind, M_bind, gets.
  rewrite (li_n _ _ _ _ Hli), (li_size _ _ _ _ Hli). by rewrite (proj2 (Z.leb_le (lsz - 1) _)), orb_true_r by lia.
Qed.

Lemma update_block_full V L n f s : txn s pid [] V ls lsz L -> lsz - 1 <= Z.of_nat (length L) -> n < k_disksize s ->
  update_block n f s = Err (Panic "too big a transaction").
Proof.
  intros Htx Hfull Hn. assert (wp (bi ← bread ROOTDEV n; (b ← get_buf bi; put_buf bi (set_b_data (f (b_data b)) b));; mret bi)
    (fun bi s' => log_write bi s' = Err (Panic "too big a transaction")) s) as H.
  { eapply (wp_modify_block mret); [done|done|]. intros bi s1 Htx1 _ _. apply wp_ret. by eapply log_write_full. }
  unfold wp in H. unfold update_block. unfold mbind, M_bind in *. destruct (bread ROOTDEV n s) as [[bi s1]|]; [|done].
  destruct (get_buf bi s1) as [[b s2]|]; [|done]. destruct (put_buf bi _ s2) as [[[] s3]|]; [|done]. cbn in H. by rewrite H.
Qed.

(** New blocks are logged one after the other. *)
Lemma wp_update_blocks (f : Z -> list Z -> list Z) ms : forall V L s, txn s pid [] V ls lsz L -> 1 <= lg_outstanding (k_log s) ->
  Z.of_nat (length L + length ms) <= lsz - 1 -> NoDup (L ++ ms) -> Forall (fun n => ~ in_log ls lsz n /\ 0 <= n < k_disksize s) ms ->
  wp (for_ (R := unit) ms (fun n (_ : unit) => update_block n (f n);; mret (Next tt)) tt) (fun _ s' =>
    exists V', txn s' pid [] V' ls lsz (L ++ ms) /\ k_disksize s' = k_disksize s) s.
Proof.
  induction ms as [|n ms IH]; intros V L s Htx Hout Hroom Hnd Hms; cbn [for_].
  { apply wp_ret. exists V. by rewrite app_nil_r. }
  cbn [length] in Hroom. apply Forall_cons in Hms as [[Hno Hn] Hms]. wp_step. wp_step. eapply wp_update_block; [done|done|lia|done|done|].
  intros s1 Htx1 Ho1 Hd1. wp_step. assert (n ∉ L) as HnL.
  { intros Hin. apply NoDup_app in Hnd as (_ & Hx & _). apply (Hx n Hin). by left. }
  unfold logged in Htx1. rewrite decide_False in Htx1 by done. eapply wp_mono; [eapply IH; [exact Htx1|by rewrite Ho1|..]|].
  - rewrite length_app. cbn. lia.
  - by rewrite <-app_assoc.
  - by rewrite Hd1.
  - intros _ s' (V' & Htx' & Hd'). exists V'. rewrite <-app_assoc in Htx'. split; [done|congruence].
Qed.

Lemma wp_begin_op V L Q s : txn s pid [] V ls lsz L ->
  Z.of_nat (length L) + (lg_outstanding (k_log s) + 1) * MAXOPBLOCKS <= LOGSIZE ->
  (forall s', txn s' pid [] V ls lsz L -> lg_outstanding (k_log s') = lg_outstanding (k_log s) + 1 -> k_disksize s' = k_disksize s -> Q tt s') ->
  wp begin_op Q s.
Proof.
  intros [Hr Hli Hh Hlen Hlk Hc] Hfit HQ. unfold begin_op. wp_step. apply wp_acquire; [done|]. wp_step. apply wp_gets.
  cbn [k_log set_k_held]. rewrite Hc. change (negb (0 =? 0)) with false. cbv iota. rewrite (li_n _ _ _ _ Hli).
  rewrite (proj2 (Z.ltb_ge _ _)) by lia. wp_step. unfold upd_log. apply wp_modify. eapply wp_release; [done|].
  destruct (br_locks _ _ _ _ _ Hr) as (? & ? & ?). apply HQ; [|done..]. split; ksimpl; try done.
  - by destruct Hr; split.
  - by destruct Hli; split.
Qed.
End reservation.

(** C40: The reservation of [begin_op] is one block too generous.  Take a log
    of [LOGSIZE] blocks, as [mkfs] makes it, and a call that [begin_op] admits
    because the blocks logged and [MAXOPBLOCKS] for each active call make
    exactly [LOGSIZE] (for example the third call on an empty log).  If the
    active calls then write [MAXOPBLOCKS] new blocks each, which the
    reservation allows, then whatever the blocks, their contents and their
    order, all writes succeed but the last: there [log_write] panics, since
    one block of the log is its header. *)
Theorem reservation_overflows pid V ls L ns (f : Z -> list Z -> list Z) s :
  let o := lg_outstanding (k_log s) in
  txn s pid [] V ls LOGSIZE L -> 0 <= o -> Z.of_nat (length L) + (o + 1) * MAXOPBLOCKS = LOGSIZE ->
  Z.of_nat (length ns) = (o + 1) * MAXOPBLOCKS -> NoDup (L ++ ns) ->
  Forall (fun n => ~ in_log ls LOGSIZE n /\ 0 <= n < k_disksize s) ns ->
  wp begin_op (fun _ s1 => lg_outstanding (k_log s1) = o + 1 /\ exists ms n, ns = ms ++ [n] /\
    wp (for_ (R := unit) ms (fun n (_ : unit) => update_block n (f n);; mret (Next tt)) tt)
      (fun _ s2 => lh_n (k_log s2) = LOGSIZE - 1 /\ update_block n (f n) s2 = Err (Panic "too big a transaction")) s1) s.
Proof.
  intros o Htx Ho Hfull Hlen Hnd Hns. eapply wp_begin_op; [done|fold o; lia|]. intros s1 Htx1 Ho1 Hd1. split; [done|].
  unfold MAXOPBLOCKS in Hlen. destruct ns as [|n ms _] using rev_ind; [cbn in Hlen; lia|]. exists ms, n. split; [done|].
  rewrite length_app in Hlen. cbn [length] in Hlen. apply Forall_app in Hns as [Hms Hn]. apply Forall_inv in Hn as [_ Hn].
  rewrite app_assoc in Hnd. apply NoDup_app in Hnd as (Hnd & _ & _). unfold MAXOPBLOCKS in Hfull.
  eapply wp_mono; [eapply (wp_update_blocks pid ls LOGSIZE); [done|exact Htx1|lia|lia|done|by rewrite Hd1]|].
  intros _ s2 (V2 & Htx2 & Hd2). split.
  - rewrite (li_n _ _ _ _ (tx_log _ _ _ _ _ _ _ Htx2)), length_app. lia.
  - eapply update_block_full; [exact Htx2|rewrite length_app; lia|rewrite Hd2, Hd1; lia].
Qed.

(** ** Samples *)

(** One buffer of the cache is in use. *)
Definition state_buf (D : list (Z * list Z)) (b : buf) (lg : log) : kstate :=
  set_k_log lg (set_k_disk D (set_k_buf (b :: replicate 29 buf0) state0)).
Definition zeros : list Z := replicate (Z.to_nat BSIZE) 0.
Definition ones : list Z := replicate (Z.to_nat BSIZE) 1.

Lemma state_buf_brep D b lg H V dirty : buffer_ok 1 H V dirty 0 b ->
  (forall p, p ∈ H -> p.1 = 0%nat) -> NoDup H.*1 ->
  (forall n, n ∉ dirty -> n ∉ H.*2 -> V n = disk_at D n) ->
  (forall n, n ∈ dirty -> caches n b = true /\ has (b_flags b) B_DIRTY = true) ->
  brep (state_buf D b lg) 1 H V dirty.
Proof.
  intros Hb HH Hnd Hv Hd. unfold state_buf.
  assert (forall i bi, (b :: replicate 29 buf0) !! i = Some bi -> i = 0%nat /\ bi = b \/ i <> 0%nat /\ bi = buf0) as Hlk.
  { intros [|i] bi Hi; [left; injection Hi as <-; done|right].
    change (replicate 29 buf0 !! i = Some bi) in Hi. by apply lookup_replicate in Hi as [-> _]. }
  split; cbn [k_buf k_lru k_disk k_held set_k_buf set_k_log set_k_disk]; try done.
  - intros i bi Hi. destruct (Hlk i bi Hi) as [[-> ->]|[Hne ->]]; [done|].
    split; cbn; try done. intros n Hin%HH. done.
  - intros i j bi bj Hi Hj. destruct (Hlk i bi Hi) as [[-> ->]|[? ->]], (Hlk j bj Hj) as [[-> ->]|[? ->]]; done.
  - intros i n Hin%HH. cbn in Hin. subst i. by eexists.
  - intros n Hin. exists 0%nat, b. split; [done|]. by apply Hd.
  - split; [|split]; [..|intros i]; apply not_elem_of_nil.
  - by exists 0%nat, proc0.
Qed.

(** A held buffer, and a dirty one at the end of a transaction. *)
Definition state_held : kstate :=
  state_buf [] (mk_buf B_VALID 1 100 (mk_sleeplock 1 1) 1 zeros) (mk_log 2002 30 1 0 1 0 (replicate 30 0)).
Definition state_dirty : kstate :=
  state_buf [] (mk_buf 6 1 100 (mk_sleeplock 0 0) 0 ones) (mk_log 2002 30 1 0 1 1 (100 :: replicate 29 0)).

Lemma sample_log_is D b lg L : lg_dev lg = ROOTDEV -> lg_start lg = 2002 -> lg_size lg = 30 ->
  lh_n lg = Z.of_nat (length L) -> (forall i x, L !! i = Some x -> zlookup (lh_block lg) (Z.of_nat i) = Some x) ->
  length (lh_block lg) = 30%nat -> L = [] \/ L = [100] -> log_is (state_buf D b lg) 2002 30 L.
Proof.
  intros ?????? HL. split; try done; try (by destruct HL as [-> | ->]).
  - destruct HL as [-> | ->]; [apply NoDup_nil_2|apply NoDup_singleton].
  - intros x Hx. destruct HL as [-> | ->]; [by apply elem_of_nil in Hx|].
    apply list_elem_of_singleton in Hx as ->. unfold in_log. cbn. lia.
Qed.

Lemma state_held_txn : txn state_held 1 [(0%nat, 100)] (fun _ => zeros) 2002 30 [].
Proof.
  split; try done; [|by apply sample_log_is; try done; left|apply not_elem_of_nil].
  apply state_buf_brep.
  - split; cbn; try done; [|intros Hn; destruct Hn; by left].
    by intros n [= ->]%list_elem_of_singleton.
  - by intros p ->%list_elem_of_singleton.
  - apply NoDup_singleton.
  - done.
  - intros n Hn. set_solver.
Qed.

Lemma state_dirty_txn : txn state_dirty 1 [] (upd_block (fun _ => zeros) 100 ones) 2002 30 [100].
Proof.
  split; try done; [|apply sample_log_is; try done; [|by right]|apply not_elem_of_nil].
  - apply state_buf_brep.
    + split; cbn; try done; try (by intros ? ?%elem_of_nil).
    + by intros p ?%elem_of_nil.
    + apply NoDup_nil_2.
    + intros n Hn _. unfold upd_block. rewrite decide_False; [done|]. intros ->. set_solver.
    + intros n Hn. assert (n = 100) as -> by set_solver. done.
  - intros i x Hi. by apply list_lookup_singleton_Some in Hi as [-> <-].
Qed.

Lemma log_write_records_witness :
  wp (log_write 0) (fun _ s' => txn s' 1 [(0%nat, 100)] (fun _ => zeros) 2002 30 [100] /\
    lg_outstanding (k_log s') = 1) state_held.
Proof.
  destruct (log_write_records 1 [(0%nat, 100)] (fun _ => zeros) 2002 30 [] 0 100 state_held) as (H & _ & _).
  - exact state_held_txn.
  - by left.
  - done.
  - unfold in_log. lia.
  - cbn. lia.
  - by apply H.
Defined.

Lemma end_op_crash_safe_witness :
  wp end_op (fun _ s' => disk_block s' 100 = upd_block (fun _ => zeros) 100 ones 100) state_dirty.
Proof.
  eapply wp_mono.
  - apply (end_op_crash_safe 1 _ [100] 2002 30 state_dirty state_dirty_txn); [reflexivity|done|done].
  - intros u s' H. apply proj1 in H. apply (eo_disk _ _ _ _ _ _ H). unfold in_log. lia.
Defined.

(** A disk with a committed transaction: block 100 is to be overwritten. *)
Definition disk_committed : list (Z * list Z) :=
  [(2002, put32 (put32 zeros 0 1) 4 100); (2003, ones); (1, put32 (put32 zeros 12 30) 16 2002)].
Definition state_boot : kstate := state_buf disk_committed buf0 log0.

Lemma state_boot_booted : booted state_boot 1 2002 30.
Proof.
  assert (head_blocks disk_committed 2002 = [100]) as Eb by (by vm_compute).
  split; try done.
  - exists (disk_at disk_committed). apply state_buf_brep; try done; [|by intros p ?%elem_of_nil|apply NoDup_nil_2].
    split; cbn; try done. by intros n ?%elem_of_nil.
  - assert (head_n disk_committed 2002 = 1) as En by (by vm_compute).
    split; change (k_disk state_boot) with disk_committed; rewrite ?Eb, ?En; try done; [apply NoDup_singleton|].
    intros b ->%list_elem_of_singleton. unfold in_log. cbn. lia.
Qed.

Lemma initlog_recovers_witness :
  wp (initlog ROOTDEV) (fun _ s' => disk_block s' 100 = recovered disk_committed 2002 100) state_boot /\
  recovered disk_committed 2002 100 = ones.
Proof.
  split; [|by vm_compute]. eapply wp_mono.
  - exact (initlog_recovers 1 2002 30 state_boot state_boot_booted).
  - intros u s' H. apply (rd_disk _ _ _ _ _ H). unfold in_log. lia.
Defined.

(** Two calls are active, nothing is logged. *)
Definition state_two : kstate := state_buf [] buf0 (mk_log 2002 30 2 0 1 0 (replicate 30 0)).

Lemma state_two_txn : txn state_two 1 [] (fun _ => zeros) 2002 30 [].
Proof.
  split; try done; [|by apply sample_log_is; try done; left|apply not_elem_of_nil].
  apply state_buf_brep; try done; [|by intros p ?%elem_of_nil|apply NoDup_nil_2].
  split; cbn; try done. by intros n ?%elem_of_nil.
Qed.

Lemma reservation_overflows_witness :
  wp begin_op (fun _ s1 => lg_outstanding (k_log s1) = 3 /\ exists ms n, seqZ 100 30 = ms ++ [n] /\
    wp (for_ (R := unit) ms (fun n (_ : unit) => update_block n (fun l => put8 l 0 1);; mret (Next tt)) tt)
      (fun _ s2 => lh_n (k_log s2) = 29 /\ update_block n (fun l => put8 l 0 1) s2 = Err (Panic "too big a transaction")) s1) state_two.
Proof.
  apply (reservation_overflows 1 (fun _ => zeros) 2002 [] (seqZ 100 30) (fun _ l => put8 l 0 1) state_two).
  - exact state_two_txn.
  - discriminate.
  - reflexivity.
  - reflexivity.
  - apply NoDup_seqZ.
  - apply Forall_seqZ. intros n Hn. unfold in_log. cbn. lia.
Defined.
