(* ===== verification/Kmem.v ===== *)
(** * The physical page allocator: the free list

    [kfree], [freerange], [kinit1], [kinit2] and [num_of_FreePages] of
    [kalloc.c].  The free list is the linked list the code keeps inside the
    free pages themselves; [free_ok] relates it to the abstract list of free
    pages.  [kalloc] itself is in Kalloc.v, since it calls the swapper. *)

From Stdlib Require Import ZArith Lia.
From stdpp Require Import base strings numbers gmap list.
From S2P Require Import Prelude Mmu Memory Kernel Sample.

Section kmem.
Context {I : KernelImage}.

(** ** Operations *)

Definition kfree (v : Z) : K unit :=
  if negb (v mod PGSIZE =? 0) || (v <? sym_end) || (PHYSTOP <=? V2P v)
  then panic "kfree"
  else
    (* Fill with junk to catch dangling refs. *)
    modify_mem (fun m => memset m v 1 PGSIZE);;
    ul ← gets k_use_lock;
    when ul (acquire L_kmem);;
    next ← gets k_freelist;
    store v next;;
    modify (fun s => set_k_nfree (u32 (k_nfree s + 1)) s);;
    modify (set_k_freelist v);;
    when ul (release L_kmem).

Definition freerange (vstart vend : Z) : K unit :=
  let p := PGROUNDUP vstart in
  while_ (S (Z.to_nat ((vend - p) / PGSIZE)))
    (fun p =>
       if u32 (p + PGSIZE) <=? vend then
         kfree p;;
         mret (inl (u32 (p + PGSIZE)))
       else mret (inr tt)) p.

Definition kinit1 (vstart vend : Z) : K unit :=
  modify (set_k_use_lock false);;
  freerange vstart vend.

Definition kinit2 (vstart vend : Z) : K unit :=
  freerange vstart vend;;
  modify (set_k_use_lock true).

Definition num_of_FreePages : K Z :=
  acquire L_kmem;;
  n ← gets k_nfree;
  release L_kmem;;
  mret n.

(** ** The abstract free list *)

(** The pages the allocator hands out. *)
Definition page_ok (v : Z) : Prop :=
  v mod PGSIZE = 0 /\ sym_end <= v < KERNBASE + PHYSTOP.

(** [h] heads the linked list of the pages [l]. *)
Fixpoint chain (m : mem) (h : Z) (l : list Z) : Prop :=
  match l with
  | [] => h = 0
  | p :: l' => h = p /\ chain m (ld m p) l'
  end.

Record free_ok (s : kstate) (l : list Z) : Prop := {
  free_chain : chain (k_mem s) (k_freelist s) l;
  free_count : k_nfree s = u32 (Z.of_nat (length l));
  free_nodup : NoDup l;
  free_pages : Forall page_ok l;
}.

(** The spin lock of the allocator is free, if it is in use. *)
Definition kmem_unlocked (s : kstate) : Prop :=
  k_use_lock s = true -> L_kmem ∉ k_held s.

(** The state after [kfree(v)]. *)
Definition kfree_state (v : Z) (s : kstate) : kstate :=
  set_k_freelist v (set_k_nfree (u32 (k_nfree s + 1))
    (set_k_mem (st (memset (k_mem s) v 1 PGSIZE) v (k_freelist s)) s)).

(** [s'] differs from [s] in memory and in the allocator's variables at most. *)
Definition kmem_step (s s' : kstate) : Prop :=
  exists f n m g, s' = set_k_freelist f (set_k_nfree n (set_k_mem m (set_k_global_var g s))).

(** The [n] pages from [p] on. *)
Definition pages_from (p : Z) (n : nat) : list Z :=
  (fun i => p + Z.of_nat i * PGSIZE) <$> seq 0 n.

(** ** Lemmas *)

Lemma page_disjoint p q : p mod PGSIZE = 0 -> q mod PGSIZE = 0 -> p <> q ->
  p + PGSIZE <= q \/ q + PGSIZE <= p.
Proof. intros. klia. Qed.

Lemma chain_frame m m' h l : (forall p, p ∈ l -> ld m' p = ld m p) ->
  chain m h l -> chain m' h l.
Proof.
  revert h. induction l as [|p l IH]; intros h Hm; cbn; [done|].
  intros [-> ?]. split; [done|]. rewrite Hm by set_solver. apply IH; [set_solver|done].
Qed.

Lemma kmem_step_refl s : kmem_step s s.
Proof. exists (k_freelist s), (k_nfree s), (k_mem s), (k_global_var s). by destruct s. Qed.

Lemma kmem_step_trans s1 s2 s3 : kmem_step s1 s2 -> kmem_step s2 s3 -> kmem_step s1 s3.
Proof. intros (?&?&?&?&->) (f&n&m&g&->). by exists f, n, m, g. Qed.

Lemma kmem_step_free_ok_mem s l m :
  (forall p, p ∈ l -> ld m p = ld (k_mem s) p) ->
  free_ok s l -> free_ok (set_k_mem m s) l.
Proof. intros Hm []. split; ksimpl; try done. by eapply chain_frame. Qed.

Context {Iok : KernelImageOk I}.

Lemma page_ok_range v : page_ok v -> KERNBASE + EXTMEM <= v /\ v + PGSIZE <= KERNBASE + PHYSTOP.
Proof.
  intros [??]. pose proof (end_range). unfold KERNLINK in *. klia.
Qed.

Lemma page_ok_test v : 0 <= v < two32 ->
  negb (v mod PGSIZE =? 0) || (v <? sym_end) || (PHYSTOP <=? V2P v) = false <-> page_ok v.
Proof.
  intros Hv. pose proof (end_range). unfold KERNLINK in *.
  unfold page_ok. rewrite !orb_false_iff, negb_false_iff, Z.eqb_eq, Z.ltb_ge, Z.leb_gt.
  split.
  - intros [[??]?]. rewrite V2P_high in * by klia. lia.
  - intros [??]. rewrite V2P_high by klia. lia.
Qed.

Lemma kfree_run v s : page_ok v -> kmem_unlocked s ->
  kfree v s = Ok (tt, kfree_state v s).
Proof.
  intros Hv Hl. unfold kfree. rewrite (proj2 (page_ok_test v ltac:(apply page_ok_range in Hv; klia))) by done.
  unfold mbind, M_bind, modify_mem, gets, modify, when, store. cbn.
  destruct (k_use_lock s) eqn:E; cbn.
  - unfold acquire, mbind, M_bind, gets, modify. cbn.
    rewrite bool_decide_false by auto. cbn. unfold release, mbind, M_bind, gets, modify. cbn.
    unfold kfree_state. by destruct s.
  - done.
Qed.

(** Whatever the locks, a [kfree] that returns has pushed its page. *)
Lemma wlp_kfree v s : wlp (kfree v) (fun _ s' => k_freelist s' = v /\ sym_end <= v) s.
Proof.
  unfold kfree. case_if; [apply wlp_fail|].
  do 5 (apply wlp_skip; intros ? ?).
  repeat (apply wlp_bind; apply wp_wlp; apply wp_modify).
  unfold when. case_if; [|apply wlp_ret; ksimpl; split; [done|lia]].
  intros [] s2. unfold release, mbind, M_bind, gets. cbn.
  destruct (remove_lock _ _); [|done]. unfold modify. intros [= <-]. ksimpl. split; [done|lia].
Qed.

Lemma wp_kfree v Q s : page_ok v -> kmem_unlocked s -> Q tt (kfree_state v s) -> wp (kfree v) Q s.
Proof. intros. unfold wp. by rewrite kfree_run. Qed.

Lemma kmem_step_kfree v s : kmem_step s (kfree_state v s).
Proof. eexists _, _, _, (k_global_var s). unfold kfree_state. by destruct s. Qed.

Lemma kfree_state_mem_out v s a : page_ok v -> a < v \/ v + PGSIZE <= a ->
  ldb (k_mem (kfree_state v s)) a = ldb (k_mem s) a.
Proof.
  intros Hv Ha. unfold kfree_state. ksimpl.
  rewrite ldb_st_ne by klia. by rewrite ldb_memset_out by klia.
Qed.

Lemma kfree_state_ld_out v s a : page_ok v -> a + 4 <= v \/ v + PGSIZE <= a ->
  ld (k_mem (kfree_state v s)) a = ld (k_mem s) a.
Proof. intros. apply ld_ext. intros. apply kfree_state_mem_out; [done|lia]. Qed.

(** Pointers of the list are words. *)
Lemma chain_head_u32 m h l : Forall page_ok l -> chain m h l -> u32 h = h.
Proof.
  intros Hl. destruct l as [|p l]; cbn; [by intros ->|].
  intros [-> _]. apply u32_small. pose proof (page_ok_range p (Forall_inv Hl)). klia.
Qed.

Lemma kfree_state_free_ok v s l : page_ok v -> v ∉ l ->
  free_ok s l -> free_ok (kfree_state v s) (v :: l).
Proof.
  intros Hv Hl [Hc Hn Hd Hp]. split.
  - split; [done|].
    assert (ld (k_mem (kfree_state v s)) v = k_freelist s) as ->.
    { unfold kfree_state. ksimpl. rewrite ld_st_eq. by eapply chain_head_u32. }
    eapply chain_frame; [|done]. intros p Hpl. apply kfree_state_ld_out; [done|].
    assert (page_ok p) as Hpp by (rewrite Forall_forall in Hp; by apply Hp).
    destruct (page_disjoint v p); [apply Hv|apply Hpp|intros ->; exact (Hl Hpl)|..]; klia.
  - unfold kfree_state. ksimpl. rewrite Hn. unfold u32. cbn [length].
    rewrite Zplus_mod_idemp_l. f_equal. lia.
  - by constructor.
  - by constructor.
Qed.
(** The free list holds at most the pages of physical memory. *)
Lemma free_ok_length s l : free_ok s l -> Z.of_nat (length l) <= PHYSTOP / PGSIZE.
Proof.
  intros [_ _ Hd Hp].
  assert ((fun p => p / PGSIZE) <$> l ⊆+ seqZ (KERNBASE / PGSIZE) (PHYSTOP / PGSIZE)) as Hsub.
  { apply NoDup_submseteq.
    - apply NoDup_fmap_2_strong; [|done]. intros x y Hx Hy Hxy.
      pose proof (proj1 (Forall_forall _ _) Hp x Hx) as [? _].
      pose proof (proj1 (Forall_forall _ _) Hp y Hy) as [? _]. klia.
    - intros q (p & -> & Hq)%list_elem_of_fmap. apply elem_of_seqZ.
      pose proof (proj1 (Forall_forall _ _) Hp p Hq) as Hok%page_ok_range. klia. }
  apply submseteq_length in Hsub. rewrite length_fmap, length_seqZ in Hsub. klia.
Qed.

Lemma pages_from_S p n : pages_from p (S n) = p :: pages_from (p + PGSIZE) n.
Proof.
  unfold pages_from. cbn [seq fmap list_fmap]. f_equal; [lia|].
  rewrite <-fmap_S_seq, <-list_fmap_compose. apply list_fmap_ext.
  intros _ i _. cbn. lia.
Qed.

Lemma elem_of_pages_from p n q : q ∈ pages_from p n -> p <= q < p + Z.of_nat n * PGSIZE.
Proof.
  unfold pages_from. rewrite list_elem_of_fmap. intros (i & -> & Hi%elem_of_seq). klia.
Qed.

(** Freeing a range pushes its whole pages, last page first. *)
Lemma wp_freerange_loop vend n p fuel l s :
  p mod PGSIZE = 0 -> sym_end <= p -> p + Z.of_nat n * PGSIZE <= vend < p + (Z.of_nat n + 1) * PGSIZE ->
  vend <= KERNBASE + PHYSTOP -> (n < fuel)%nat ->
  kmem_unlocked s -> free_ok s l -> (forall q, q ∈ pages_from p n -> q ∉ l) ->
  wp (while_ fuel (fun p => if u32 (p + PGSIZE) <=? vend
        then kfree p;; mret (inl (u32 (p + PGSIZE))) else mret (inr tt)) p)
    (fun _ s' => free_ok s' (rev (pages_from p n) ++ l) /\ kmem_step s s' /\
       forall a, a < p \/ p + Z.of_nat n * PGSIZE <= a -> ldb (k_mem s') a = ldb (k_mem s) a) s.
Proof.
  revert p fuel l s. induction n as [|n IH]; intros p fuel l s Hp He Hv Hvend Hf Hl Hfree Hfresh.
  - destruct fuel as [|fuel]; [lia|]. cbn [while_]. wp_step.
    pose proof end_range. unfold KERNLINK in *.
    rewrite u32_small by klia. rewrite (proj2 (Z.leb_gt _ _)) by klia. wp_steps.
    cbn. split; [done|]. split; [apply kmem_step_refl|done].
  - destruct fuel as [|fuel]; [lia|]. cbn [while_]. wp_step.
    pose proof end_range. unfold KERNLINK in *.
    rewrite u32_small by klia. rewrite (proj2 (Z.leb_le _ _)) by klia.
    rewrite pages_from_S in *.
    assert (page_ok p) as Hok by (split; [done|klia]).
    wp_step. apply wp_kfree; [done..|]. wp_steps.
    eapply wp_mono; [apply (IH (p + PGSIZE) fuel (p :: l))|].
    1-5: klia.
    + done.
    + apply kfree_state_free_ok; [done|by apply Hfresh; left|done].
    + intros q Hq [->|Hin]%elem_of_cons.
      * apply elem_of_pages_from in Hq. klia.
      * eapply Hfresh; [by right|done].
    + cbn. intros _ s' (Hfree' & Hstep & Hmem). split_and!.
      * cbn [rev]. by rewrite <-app_assoc.
      * eapply kmem_step_trans; [apply kmem_step_kfree|done].
      * intros a Ha. rewrite Hmem by klia. apply kfree_state_mem_out; [done|klia].
Qed.

Lemma wp_freerange vstart vend n l s :
  sym_end <= vstart -> 0 <= vend <= KERNBASE + PHYSTOP -> vstart <= vend ->
  n = Z.to_nat ((vend - PGROUNDUP vstart) / PGSIZE) ->
  kmem_unlocked s -> free_ok s l ->
  (forall q, q ∈ pages_from (PGROUNDUP vstart) n -> q ∉ l) ->
  wp (freerange vstart vend)
    (fun _ s' => free_ok s' (rev (pages_from (PGROUNDUP vstart) n) ++ l) /\ kmem_step s s' /\
       forall a, a < PGROUNDUP vstart \/ vend <= a -> ldb (k_mem s') a = ldb (k_mem s) a) s.
Proof.
  intros Hs He Hse -> Hl Hfree Hfresh. unfold freerange.
  pose proof end_range. unfold KERNLINK in *.
  assert (vstart <= PGROUNDUP vstart /\ PGROUNDUP vstart mod PGSIZE = 0 /\ PGROUNDUP vstart < vstart + PGSIZE)
    as (?&?&?) by (rewrite PGROUNDUP_eq by klia; klia).
  destruct (decide (PGROUNDUP vstart <= vend)).
  - eapply wp_mono; [eapply wp_freerange_loop; try done; klia|].
    cbn. intros _ s' (?&?&Hm). split_and!; [done..|]. intros a Ha. apply Hm. klia.
  - assert (Z.to_nat ((vend - PGROUNDUP vstart) / PGSIZE) = 0%nat) as -> by klia.
    cbn [while_]. wp_step. rewrite u32_small by klia.
    rewrite (proj2 (Z.leb_gt _ _)) by klia. wp_steps. cbn.
    split; [done|]. split; [apply kmem_step_refl|done].
Qed.
End kmem.

(** ** The sample state *)

#[local] Existing Instance img.

Lemma sample_page_ok i : 0 <= i < 256 -> page_ok (pgdir0 + i * PGSIZE).
Proof. unfold page_ok, pgdir0. cbn. klia. Qed.

Lemma sample_free p : p ∈ free0 -> exists i, 3 <= i < 15 /\ p = pgdir0 + i * PGSIZE.
Proof.
  unfold free0. intros (i & -> & Hi%elem_of_seqZ)%list_elem_of_fmap.
  exists (i + 3). unfold pgdir0. klia.
Qed.

Lemma sample_free_ok : free_ok state0 free0.
Proof.
  split.
  - cbn -[mem0 ld]. repeat split. all: by rewrite mem0_ld.
  - done.
  - apply NoDup_fmap_2_strong; [|apply NoDup_seqZ]. intros x y _ _. klia.
  - apply Forall_forall. intros p (i & Hi & ->)%sample_free. apply sample_page_ok. lia.
Qed.
