(* ===== verification/Rmap.v ===== *)
(** * The reverse map: who maps a physical page

    [initrmap], [check_rmap], [inc_sharing] and [dec_sharing] of [proc.c].
    A page's entry in [rmap] is a reference count and an array of [NPROC]
    slots that hold pointers to the page-table entries mapping the page.
    The abstract value of an entry is the multiset of those pointers, a
    list up to permutation ([owners]); [rmap_wf] says that the count agrees
    with the slots. *)

From Stdlib Require Import ZArith Lia.
From stdpp Require Import base strings numbers gmap list.
From S2P Require Import Prelude Mmu Memory Kernel Sample.

(** ** Operations *)

(** [for (j = 0; j < NPROC; j++) present_id[j] = 0] after [refcount = 0]. *)
Definition clear_rmap (r : rmap_struct) : rmap_struct :=
  set_present_id ((fun _ => 0) <$> present_id r) (set_refcount 0 r).
Definition initrmap : K unit :=
  modify (fun s => set_k_rmap (clear_rmap <$> k_rmap s) s).

Definition check_rmap (pgnum : Z) : K bool :=
  r ← get_rmap pgnum; mret (refcount r =? 1).

(** The scan of [inc_sharing]: store [pte] in the first slot not present. *)
Fixpoint claim_slot (pte : Z) (ids pres : list Z) : list Z * list Z :=
  match ids, pres with
  | id :: ids', b :: pres' =>
      if b =? 0 then (pte :: ids', 1 :: pres')
      else let '(i, p) := claim_slot pte ids' pres' in (id :: i, b :: p)
  | _, _ => (ids, pres)
  end.

Definition inc_sharing (pte page_num : Z) : K unit :=
  when (page_num =? 73) (_ ← deref pte; cprintf "Increasing %d %d %d\n");;
  r ← get_rmap page_num;
  let '(ids, pres) := claim_slot pte (pte_id r) (present_id r) in
  put_rmap page_num (mk_rmap (u32 (refcount r + 1)) ids pres).

(** The scan of [dec_sharing]: clear the first present slot that holds
    [pte]; [None] when there is none. *)
Fixpoint drop_slot (pte : Z) (ids pres : list Z) : option (list Z) :=
  match ids, pres with
  | id :: ids', b :: pres' =>
      if negb (b =? 0) && (id =? pte) then Some (0 :: pres')
      else cons b <$> drop_slot pte ids' pres'
  | _, _ => None
  end.

Definition dec_sharing (pte page_num : Z) : K bool :=
  when (page_num =? 73) (_ ← deref pte; cprintf "Decreasing %d %d %d\n");;
  r ← get_rmap page_num;
  let n := u32 (refcount r - 1) in
  match drop_slot pte (pte_id r) (present_id r) with
  | Some pres =>
      put_rmap page_num (mk_rmap n (pte_id r) pres);;
      mret (n =? 0)
  | None => panic "Trying to reduce refrence of page which is not refrenced"
  end.

(** ** The abstract value *)

Fixpoint owners_of (ids pres : list Z) : list Z :=
  match ids, pres with
  | id :: ids', b :: pres' =>
      if b =? 0 then owners_of ids' pres' else id :: owners_of ids' pres'
  | _, _ => []
  end.
Definition owners (r : rmap_struct) : list Z := owners_of (pte_id r) (present_id r).

Record rmap_wf (r : rmap_struct) : Prop := {
  wf_ids : length (pte_id r) = Z.to_nat NPROC;
  wf_present : length (present_id r) = Z.to_nat NPROC;
  wf_refcount : refcount r = Z.of_nat (length (owners r));
}.

(** Page [pg] is mapped by exactly the entries [l]. *)
Definition mapped_by (s : kstate) (pg : Z) (l : list Z) : Prop :=
  exists r, zlookup (k_rmap s) pg = Some r /\ rmap_wf r /\ owners r ≡ₚ l.

(** ** Lemmas on the scans *)

Lemma owners_of_length ids pres : (length (owners_of ids pres) <= length pres)%nat.
Proof.
  revert pres. induction ids as [|id ids IH]; intros [|b pres]; cbn; try lia.
  case_if; cbn; specialize (IH pres); lia.
Qed.

Lemma claim_slot_free pte ids pres : length ids = length pres ->
  (length (owners_of ids pres) < length pres)%nat ->
  let '(i, p) := claim_slot pte ids pres in
  length i = length ids /\ length p = length pres /\
  owners_of i p ≡ₚ pte :: owners_of ids pres.
Proof.
  revert pres. induction ids as [|id ids IH]; intros [|b pres] Hlen Hlt; cbn in *; try lia.
  destruct (b =? 0) eqn:E; [done|]. cbn in Hlt.
  specialize (IH pres ltac:(lia) ltac:(lia)).
  destruct (claim_slot pte ids pres) as [i p]. destruct IH as (?&?&Hp).
  cbn. rewrite E. split_and!; [lia..|]. rewrite Hp. apply Permutation_swap.
Qed.

Lemma claim_slot_full pte ids pres : length ids = length pres ->
  length (owners_of ids pres) = length pres -> claim_slot pte ids pres = (ids, pres).
Proof.
  revert pres. induction ids as [|id ids IH]; intros [|b pres] Hlen Hfull; cbn in *; try done.
  destruct (b =? 0) eqn:E.
  - pose proof (owners_of_length ids pres). lia.
  - cbn in Hfull. by rewrite IH by lia.
Qed.

Lemma drop_slot_Some pte ids pres : length ids = length pres -> pte ∈ owners_of ids pres ->
  exists pres', drop_slot pte ids pres = Some pres' /\ length pres' = length pres /\
    owners_of ids pres ≡ₚ pte :: owners_of ids pres'.
Proof.
  revert pres. induction ids as [|id ids IH]; intros [|b pres] Hlen Hin; cbn in *;
    try (by apply not_elem_of_nil in Hin); try lia.
  destruct (b =? 0) eqn:E; cbn.
  - destruct (IH pres) as (pres' & -> & ? & Hp); [lia|done|].
    exists (b :: pres'). cbn. rewrite E. split_and!; [done|lia|done].
  - destruct (Z.eqb_spec id pte) as [->|Hne].
    + exists (0 :: pres). cbn. by split_and!.
    + destruct (IH pres) as (pres' & -> & ? & Hp); [lia|by apply elem_of_cons in Hin as [?|?]; [congruence|]|].
      exists (b :: pres'). cbn. rewrite E. split_and!; [done|lia|].
      rewrite Hp. apply Permutation_swap.
Qed.

Lemma drop_slot_None pte ids pres : pte ∉ owners_of ids pres -> drop_slot pte ids pres = None.
Proof.
  revert pres. induction ids as [|id ids IH]; intros [|b pres] Hin; cbn in *; try done.
  destruct (b =? 0) eqn:E; cbn; [by rewrite IH|].
  rewrite (proj2 (Z.eqb_neq _ _)) by set_solver. by rewrite IH by set_solver.
Qed.

(** ** The operations on the abstract value *)

(** [s'] differs from [s] in the reverse map at most, and there only at [pg]. *)
Definition rmap_step (pg : Z) (s s' : kstate) : Prop :=
  exists r, s' = set_k_rmap r s /\ length r = length (k_rmap s) /\
    forall pg', pg' <> pg -> zlookup r pg' = zlookup (k_rmap s) pg'.

Lemma wp_put_rmap pg r Q s :
  is_Some (zlookup (k_rmap s) pg) ->
  (forall s', rmap_step pg s s' -> zlookup (k_rmap s') pg = Some r -> Q tt s') ->
  wp (put_rmap pg r) Q s.
Proof.
  intros [r0 H0] HQ. pose proof (zlookup_lt _ _ _ H0).
  apply wp_modify, HQ; ksimpl.
  - eexists. split_and!; [done|by rewrite length_zinsert|].
    intros. rewrite zlookup_zinsert by done. by rewrite decide_False.
  - rewrite zlookup_zinsert by done. by rewrite decide_True.
Qed.

Lemma wp_debug_print (b : bool) pte fmt Q s : pte <> 0 ->
  Q tt s -> wp (when b (_ ← deref pte; cprintf fmt)) Q s.
Proof.
  intros. apply wp_when; [|done]. intros _. apply wp_bind, wp_deref; [done|]. by apply wp_cprintf.
Qed.

Lemma wp_check_rmap pg l Q s : mapped_by s pg l ->
  Q (bool_decide (length l = 1%nat)) s -> wp (check_rmap pg) Q s.
Proof.
  intros (r & Hr & Hwf & Hp) HQ. unfold check_rmap. wp_step.
  eapply wp_get_rmap; [done|]. wp_steps.
  assert ((refcount r =? 1) = bool_decide (length l = 1%nat)) as ->; [|done].
  rewrite (wf_refcount _ Hwf), Hp. case_bool_decide; lia.
Qed.

Lemma wp_inc_sharing pte pg l Q s :
  pte <> 0 -> mapped_by s pg l -> Z.of_nat (length l) < NPROC ->
  (forall s', rmap_step pg s s' -> mapped_by s' pg (pte :: l) -> Q tt s') ->
  wp (inc_sharing pte pg) Q s.
Proof.
  intros Hpte (r & Hr & Hwf & Hp) Hl HQ. unfold inc_sharing.
  wp_step. apply wp_debug_print; [done|].
  wp_step. eapply wp_get_rmap; [done|].
  pose proof (claim_slot_free pte (pte_id r) (present_id r)) as Hc.
  destruct (claim_slot pte (pte_id r) (present_id r)) as [ids pres].
  destruct Hwf as [Hi Hpr Hrc]. pose proof (Permutation_length Hp) as Hlen.
  destruct Hc as (Hi' & Hp' & Ho); [lia|fold (owners r); klia|].
  apply wp_put_rmap; [by eexists|]. intros s' Hstep Hs'. apply HQ; [done|].
  assert (owners (mk_rmap (u32 (refcount r + 1)) ids pres) ≡ₚ pte :: owners r) as Hown by done.
  exists (mk_rmap (u32 (refcount r + 1)) ids pres). split_and!; [done|..].
  - split; ksimpl; [lia..|]. rewrite Hown, u32_small by klia. cbn. lia.
  - by rewrite Hown, Hp.
Qed.

(** With all [NPROC] slots of a page taken, [inc_sharing] still counts
    the new entry but does not record it: the count and the slots no longer
    agree. *)
Theorem inc_sharing_full pte pg r s :
  pte <> 0 -> zlookup (k_rmap s) pg = Some r -> rmap_wf r ->
  Z.of_nat (length (owners r)) = NPROC ->
  wp (inc_sharing pte pg) (fun _ s' =>
    zlookup (k_rmap s') pg = Some (set_refcount (NPROC + 1) r)) s.
Proof.
  intros Hpte Hr [Hi Hpr Hrc] Hfull. unfold inc_sharing.
  wp_step. apply wp_debug_print; [done|].
  wp_step. eapply wp_get_rmap; [done|].
  rewrite claim_slot_full; [|lia|fold (owners r); lia].
  apply wp_put_rmap; [by eexists|]. intros s' _ ->.
  rewrite u32_small by klia. unfold set_refcount. do 2 f_equal. lia.
Qed.

Lemma wp_dec_sharing pte pg l l' Q s :
  pte <> 0 -> mapped_by s pg l -> l ≡ₚ pte :: l' ->
  (forall s', rmap_step pg s s' -> mapped_by s' pg l' ->
     Q (bool_decide (l' = [])) s') ->
  wp (dec_sharing pte pg) Q s.
Proof.
  intros Hpte (r & Hr & Hwf & Hp) Hl HQ. unfold dec_sharing.
  wp_step. apply wp_debug_print; [done|].
  wp_step. eapply wp_get_rmap; [done|].
  destruct Hwf as [Hi Hpr Hrc].
  destruct (drop_slot_Some pte (pte_id r) (present_id r)) as (pres & -> & Hlen & Ho);
    [lia|fold (owners r); rewrite Hp, Hl; by left|].
  set (r' := mk_rmap (u32 (refcount r - 1)) (pte_id r) pres).
  assert (owners r' ≡ₚ l') as Ho'.
  { apply (Permutation_cons_inv (a := pte)). rewrite <-Hl, <-Hp. symmetry. exact Ho. }
  assert (refcount r' = Z.of_nat (length (owners r'))) as Hrc'.
  { unfold r' at 1. ksimpl. rewrite Ho', Hrc, Hp, Hl. cbn.
    pose proof (owners_of_length (pte_id r) (present_id r)). fold (owners r) in *.
    pose proof (Permutation_length Hp). pose proof (Permutation_length Hl). cbn in *.
    rewrite u32_small by klia. lia. }
  wp_step. apply wp_put_rmap; [by eexists|]. intros s' Hstep Hs'. wp_steps.
  assert ((u32 (refcount r - 1) =? 0) = bool_decide (l' = [])) as ->.
  { change (u32 (refcount r - 1)) with (refcount r'). rewrite Hrc', Ho'.
    destruct l'; [done|]. cbn [length]. rewrite bool_decide_false by done. apply Z.eqb_neq. lia. }
  apply HQ; [done|]. exists r'. split_and!; [done| |done].
  split; unfold r' in *; ksimpl; [done|lia|done].
Qed.

Lemma dec_sharing_not_owner pte pg l s :
  pte <> 0 -> mapped_by s pg l -> pte ∉ l ->
  dec_sharing pte pg s =
    Err (Panic "Trying to reduce refrence of page which is not refrenced").
Proof.
  intros Hpte (r & Hr & Hwf & Hp) Hl. unfold dec_sharing.
  assert (exists k, (when (pg =? 73) (_ ← deref pte; cprintf "Decreasing %d %d %d\n")) s = Ok (k, s)) as [k Hk].
  { unfold when, deref. rewrite (proj2 (Z.eqb_neq pte 0)) by done. case_if; by eexists. }
  unfold mbind at 1, M_bind at 1. rewrite Hk.
  unfold get_rmap, mbind, M_bind, gets. rewrite Hr. cbn.
  rewrite drop_slot_None; [done|]. fold (owners r). by rewrite Hp.
Qed.

(** A cleared reverse map records no owner. *)
Lemma owners_clear_rmap r : owners (clear_rmap r) = [].
Proof.
  unfold owners, clear_rmap. ksimpl.
  generalize (pte_id r), (present_id r). intros ids pres.
  revert ids. induction pres as [|b pres IH]; intros [|id ids]; cbn; done.
Qed.

Lemma rmap_wf_clear_rmap r : length (pte_id r) = Z.to_nat NPROC ->
  length (present_id r) = Z.to_nat NPROC -> rmap_wf (clear_rmap r).
Proof.
  intros. split; [done| |by rewrite owners_clear_rmap].
  unfold clear_rmap. ksimpl. by rewrite length_fmap.
Qed.

Lemma rmap_step_mapped pg pg' l s s' :
  rmap_step pg s s' -> pg' <> pg -> mapped_by s pg' l -> mapped_by s' pg' l.
Proof.
  intros (r & -> & _ & Hr) Hne (r0 & H0 & ?). exists r0. ksimpl. by rewrite Hr.
Qed.

Lemma mapped_by_perm s pg l l' : l ≡ₚ l' -> mapped_by s pg l -> mapped_by s pg l'.
Proof. intros Hl (r & ?&?& Hr). exists r. by rewrite <-Hl. Qed.

#[global] Instance mapped_by_proper s pg : Proper ((≡ₚ) ==> iff) (mapped_by s pg).
Proof. intros l l' Hl. split; by apply mapped_by_perm. Qed.

(** ** Refinement of a multiset *)

Inductive rmap_op := OpInc (pte : Z) | OpDec (pte : Z).

Fixpoint remove_one (x : Z) (l : list Z) : option (list Z) :=
  match l with
  | [] => None
  | y :: l => if decide (x = y) then Some l else cons y <$> remove_one x l
  end.

Lemma remove_one_Some x l l' : remove_one x l = Some l' -> l ≡ₚ x :: l'.
Proof.
  revert l'. induction l as [|y l IH]; intros l'; cbn; [done|].
  case_decide; [by intros [= <-]; subst|].
  destruct (remove_one x l) as [l0|]; [|done]. intros [= <-].
  rewrite (IH l0) by done. apply Permutation_swap.
Qed.

Lemma remove_one_None x l : remove_one x l = None <-> x ∉ l.
Proof.
  induction l as [|y l IH]; cbn; [set_solver|]. case_decide; [set_solver|].
  rewrite fmap_None, IH. set_solver.
Qed.

(** The specification: the owners of a page, of which there are at most
    [NPROC]; [dec] reports whether the last one left. *)
Fixpoint sharing_spec (ops : list rmap_op) (l : list Z) : option (list bool * list Z) :=
  match ops with
  | [] => Some ([], l)
  | OpInc pte :: ops =>
      if decide (Z.of_nat (length l) < NPROC) then sharing_spec ops (pte :: l) else None
  | OpDec pte :: ops =>
      l' ← remove_one pte l;
      prod_map (cons (bool_decide (l' = []))) id <$> sharing_spec ops l'
  end.

Fixpoint sharing_run (pg : Z) (ops : list rmap_op) : K (list bool) :=
  match ops with
  | [] => mret []
  | OpInc pte :: ops => inc_sharing pte pg;; sharing_run pg ops
  | OpDec pte :: ops => b ← dec_sharing pte pg; bs ← sharing_run pg ops; mret (b :: bs)
  end.

Definition op_pte (o : rmap_op) : Z := match o with OpInc p | OpDec p => p end.

(** C22: [inc_sharing] and [dec_sharing] keep the multiset of the entries that
    map a page: whatever sequence of calls on page [pg] the multiset allows,
    the code returns, [dec_sharing] returns 1 exactly when the last owner
    leaves, and the entries of all other pages are unchanged. *)
Theorem sharing_refines_multiset pg ops bs l l' s :
  mapped_by s pg l -> Forall (fun o => op_pte o <> 0) ops ->
  sharing_spec ops l = Some (bs, l') ->
  wp (sharing_run pg ops) (fun bs' s' => bs' = bs /\ mapped_by s' pg l' /\
    forall pg', pg' <> pg -> zlookup (k_rmap s') pg' = zlookup (k_rmap s) pg') s.
Proof.
  revert bs l s. induction ops as [|[pte|pte] ops IH]; intros bs l s Hm Hne Hspec;
    cbn [sharing_run sharing_spec] in *.
  - injection Hspec as <- <-. wp_steps. done.
  - apply Forall_cons in Hne as [Hpte Hne]. cbn in Hpte. case_decide; [|done].
    wp_step. apply (wp_inc_sharing _ _ l); [done..|]. intros s1 (r & -> & _ & Hr) Hm1.
    eapply wp_mono; [by eapply IH|]. intros bs' s' (-> & Hm' & Hfr). split; [done|]. split; [done|].
    intros pg' Hpg. rewrite Hfr by done. by apply Hr.
  - apply Forall_cons in Hne as [Hpte Hne]. cbn in Hpte.
    destruct (remove_one pte l) as [l0|] eqn:E; [|done]. cbn in Hspec.
    destruct (sharing_spec ops l0) as [[bs0 l1]|] eqn:E1; [|done]. injection Hspec as <- <-.
    wp_step. apply (wp_dec_sharing _ _ l l0); [done|done|by apply remove_one_Some|].
    intros s1 (r & -> & _ & Hr) Hm1. wp_step.
    eapply wp_mono; [by eapply IH|]. intros bs' s' (-> & Hm' & Hfr). wp_steps.
    split; [done|]. split; [done|]. intros pg' Hpg. rewrite Hfr by done. by apply Hr.
Qed.

(** [dec_sharing] panics exactly when the entry is not recorded as an
    owner of the page. *)
Theorem dec_sharing_panics pte pg l s : pte <> 0 -> mapped_by s pg l ->
  dec_sharing pte pg s = Err (Panic "Trying to reduce refrence of page which is not refrenced")
  <-> pte ∉ l.
Proof.
  intros Hpte Hm. split; [|by apply dec_sharing_not_owner].
  intros Herr Hin. apply elem_of_Permutation in Hin as [l' Hl'].
  assert (wp (dec_sharing pte pg) (fun _ _ => True) s) as Hwp by (by eapply wp_dec_sharing).
  unfold wp in Hwp. by rewrite Herr in Hwp.
Qed.

(** ** Instances *)

Lemma sample_mapped : mapped_by state0 (V2P frame0 / PGSIZE) [table0].
Proof.
  exists (one_owner table0). split; [done|]. split; [by split|done].
Qed.

Lemma sharing_refines_multiset_witness :
  wp (sharing_run (V2P frame0 / PGSIZE) [OpInc 16; OpDec table0; OpDec 16])
    (fun bs s' => bs = [false; true] /\ mapped_by s' (V2P frame0 / PGSIZE) []) state0.
Proof.
  eapply wp_mono.
  - apply (sharing_refines_multiset _ _ [false; true] [table0] []);
      [apply sample_mapped|by repeat constructor|done].
  - intros bs s' (-> & Hm & _). done.
Defined.

Lemma dec_sharing_panics_witness :
  dec_sharing 16 (V2P frame0 / PGSIZE) state0 =
    Err (Panic "Trying to reduce refrence of page which is not refrenced").
Proof.
  apply (dec_sharing_panics 16 _ [table0]); [done|apply sample_mapped|].
  by rewrite list_elem_of_singleton.
Defined.

Definition full_rmap : rmap_struct := mk_rmap 64 (replicate 64 table0) (replicate 64 1).
Definition state_full : kstate := set_k_rmap [full_rmap] state0.

Lemma inc_sharing_full_witness :
  wp (inc_sharing 16 0) (fun _ s' =>
    zlookup (k_rmap s') 0 = Some (set_refcount 65 full_rmap)) state_full.
Proof. apply (inc_sharing_full 16 0 full_rmap state_full); [done|done|by split|done]. Defined.
