(* ===== verification/PageTable.v ===== *)
(** * Page tables as maps

    A two-level page table in memory, read as a function from virtual
    addresses to page-table entries ([pte_of]).  [pt_wf] says that the pages
    of the table are allocator pages and all distinct; [owns] lists them.
    The lemmas say what the stores of [walkpgdir], [mappages] and the fault
    handler do to that function. *)

From Stdlib Require Import ZArith Lia.
From stdpp Require Import base strings numbers gmap list.
From S2P Require Import Prelude Mmu Memory Kernel Kmem.

Section pagetable.
Context {I : KernelImage}.
Implicit Types (m : mem) (pgdir va p t : Z).

(** The page table that directory entry [i] points to. *)
Definition table m pgdir (i : Z) : option Z :=
  let e := ld m (pgdir + 4 * i) in
  if has e PTE_P then Some (P2V (PTE_ADDR e)) else None.

(** Where the entry for [va] is, if its table exists. *)
Definition pt_addr m pgdir va : option Z :=
  t ← table m pgdir (PDX va); Some (t + 4 * PTX va).

(** The entry for [va]; 0 when there is no table. *)
Definition pte_of m pgdir va : Z :=
  match pt_addr m pgdir va with Some a => ld m a | None => 0 end.

(** The pages that make up the page table. *)
Definition owns m pgdir p : Prop :=
  p = pgdir \/ exists i, 0 <= i < NPDENTRIES /\ table m pgdir i = Some p.

Record pt_wf m pgdir : Prop := {
  wf_dir : page_ok pgdir;
  wf_table : forall i t, 0 <= i < NPDENTRIES -> table m pgdir i = Some t ->
    page_ok t /\ t <> pgdir;
  wf_inj : forall i j t, 0 <= i < NPDENTRIES -> 0 <= j < NPDENTRIES ->
    table m pgdir i = Some t -> table m pgdir j = Some t -> i = j;
}.

(** The two memories agree on page [p]. *)
Definition same_page m m' p : Prop :=
  forall a, p <= a < p + PGSIZE -> ldb m' a = ldb m a.

(** Two addresses on the same virtual page. *)
Definition same_vpage va va' : Prop := PDX va = PDX va' /\ PTX va = PTX va'.
#[global] Instance same_vpage_dec va va' : Decision (same_vpage va va').
Proof. unfold same_vpage. apply _. Defined.

(** ** Frame lemmas *)

Lemma same_page_ld m m' p i : same_page m m' p -> 0 <= i < 1024 ->
  ld m' (p + 4 * i) = ld m (p + 4 * i).
Proof. intros H ?. apply ld_ext. intros. apply H. klia. Qed.

Lemma same_page_refl m p : same_page m m p.
Proof. by intros ??. Qed.

Lemma same_page_trans m1 m2 m3 p : same_page m1 m2 p -> same_page m2 m3 p -> same_page m1 m3 p.
Proof. intros H1 H2 a Ha. by rewrite H2, H1. Qed.

Lemma table_frame m m' pgdir i : same_page m m' pgdir -> 0 <= i < NPDENTRIES ->
  table m' pgdir i = table m pgdir i.
Proof. intros H ?. unfold table. by rewrite (same_page_ld m m'). Qed.

Section frame.
Context m m' pgdir (Hsame : forall p, owns m pgdir p -> same_page m m' p).

Lemma frame_table i : 0 <= i < NPDENTRIES -> table m' pgdir i = table m pgdir i.
Proof. apply table_frame, Hsame. by left. Qed.

Lemma frame_owns p : owns m' pgdir p <-> owns m pgdir p.
Proof.
  unfold owns. split; (intros [->|(i & Hi & Ht)]; [by left|right; exists i]);
    rewrite frame_table in *; done.
Qed.

Lemma frame_pt_wf : pt_wf m pgdir -> pt_wf m' pgdir.
Proof.
  intros [Hd Ht Hi]. split; [done|..].
  - intros i t Hi'. rewrite frame_table by done. eauto.
  - intros i j t ??. rewrite !frame_table by done. eauto.
Qed.

Lemma frame_pt_addr va : pt_addr m' pgdir va = pt_addr m pgdir va.
Proof. unfold pt_addr. by rewrite frame_table by apply PDX_range. Qed.

Lemma frame_pte_of va : pte_of m' pgdir va = pte_of m pgdir va.
Proof.
  unfold pte_of. rewrite frame_pt_addr. unfold pt_addr.
  destruct (table m pgdir (PDX va)) as [t|] eqn:E; [|done]. cbn.
  apply same_page_ld; [|apply PTX_range]. apply Hsame. right.
  exists (PDX va). split; [apply PDX_range|done].
Qed.
End frame.

(** ** Ranges *)

Context {Iok : KernelImageOk I}.

Lemma page_ok_nonzero p : page_ok p -> p <> 0.
Proof. intros H%page_ok_range. klia. Qed.

Lemma owns_page_ok m pgdir p : pt_wf m pgdir -> owns m pgdir p -> page_ok p.
Proof. intros [Hd Ht _] [->|(i & Hi & Hi')]; [done|]. by eapply Ht. Qed.

Lemma pt_addr_Some m pgdir va a : pt_wf m pgdir -> pt_addr m pgdir va = Some a ->
  exists t, table m pgdir (PDX va) = Some t /\ page_ok t /\ t <> pgdir /\ a = t + 4 * PTX va.
Proof.
  intros Hwf. unfold pt_addr. destruct (table m pgdir (PDX va)) as [t|] eqn:E; [|done].
  intros [= <-]. exists t. destruct (wf_table _ _ Hwf _ t (PDX_range va) E). done.
Qed.

Lemma pt_addr_nonzero m pgdir va a : pt_wf m pgdir -> pt_addr m pgdir va = Some a -> a <> 0.
Proof.
  intros Hwf Ha. destruct (pt_addr_Some _ _ _ _ Hwf Ha) as (t & _ & Ht & _ & ->).
  apply page_ok_range in Ht. pose proof (PTX_range va). klia.
Qed.

(** The entries of one page table are at distinct addresses. *)
Lemma pt_addr_inj m pgdir va va' a : pt_wf m pgdir ->
  pt_addr m pgdir va = Some a -> pt_addr m pgdir va' = Some a -> same_vpage va va'.
Proof.
  intros Hwf Ha Ha'.
  destruct (pt_addr_Some _ _ _ _ Hwf Ha) as (t & Ht & Hok & _ & ->).
  destruct (pt_addr_Some _ _ _ _ Hwf Ha') as (t' & Ht' & Hok' & _ & Heq).
  pose proof (PTX_range va). pose proof (PTX_range va').
  assert (t = t') as <-.
  { destruct Hok as [? _], Hok' as [? _]. klia. }
  split; [|klia]. by eapply (wf_inj _ _ Hwf); eauto using PDX_range.
Qed.

Lemma page_word_disjoint p q i : p mod PGSIZE = 0 -> q mod PGSIZE = 0 -> p <> q -> 0 <= i < 1024 ->
  p + PGSIZE <= q + 4 * i \/ q + 4 * i + 4 <= p.
Proof. intros. klia. Qed.

(** ** Storing an entry *)

Section store.
Context m pgdir va (a v : Z) (Hwf : pt_wf m pgdir) (Ha : pt_addr m pgdir va = Some a).

(** Only the page of the entry's table changes. *)
Lemma store_pte_same_page p :
  page_ok p -> table m pgdir (PDX va) <> Some p -> same_page m (st m a v) p.
Proof.
  intros Hp Hne b Hb. destruct (pt_addr_Some _ _ _ _ Hwf Ha) as (t & Ht & Hok & _ & ->).
  apply ldb_st_ne. assert (p <> t) by congruence.
  pose proof (PTX_range va). destruct Hp, Hok.
  pose proof (page_word_disjoint p t (PTX va)). klia.
Qed.

Lemma store_pte_table i : 0 <= i < NPDENTRIES -> table (st m a v) pgdir i = table m pgdir i.
Proof.
  apply table_frame, store_pte_same_page; [apply Hwf|].
  intros E. by destruct (wf_table _ _ Hwf _ _ (PDX_range va) E).
Qed.

Lemma store_pte_pt_addr va' : pt_addr (st m a v) pgdir va' = pt_addr m pgdir va'.
Proof. unfold pt_addr. by rewrite store_pte_table by apply PDX_range. Qed.

Lemma store_pte_owns p : owns (st m a v) pgdir p <-> owns m pgdir p.
Proof.
  unfold owns. split; (intros [->|(i & Hi & Ht)]; [by left|right; exists i]);
    rewrite store_pte_table in *; done.
Qed.

Lemma store_pte_wf : pt_wf (st m a v) pgdir.
Proof.
  destruct Hwf as [Hd Ht Hi]. split; [done|..].
  - intros i t Hi'. rewrite store_pte_table by done. eauto.
  - intros i j t ??. rewrite !store_pte_table by done. eauto.
Qed.

Lemma store_pte_of va' : pte_of (st m a v) pgdir va' =
  if decide (same_vpage va va') then u32 v else pte_of m pgdir va'.
Proof.
  unfold pte_of. rewrite store_pte_pt_addr.
  destruct (pt_addr m pgdir va') as [a'|] eqn:Ha'.
  - destruct (decide (same_vpage va va')) as [[Hd Ht]|Hne].
    + assert (a' = a) as ->; [|apply ld_st_eq].
      unfold pt_addr in *. rewrite <-Hd, <-Ht in Ha'. congruence.
    + apply ld_st_ne.
      destruct (pt_addr_Some _ _ _ _ Hwf Ha) as (t & Ht & [Hok _] & _ & ->).
      destruct (pt_addr_Some _ _ _ _ Hwf Ha') as (t' & Ht' & [Hok' _] & _ & ->).
      pose proof (PTX_range va). pose proof (PTX_range va').
      destruct (decide (t = t')) as [<-|]; [|klia].
      assert (PDX va = PDX va') as Heq by (eapply (wf_inj _ _ Hwf); eauto using PDX_range).
      assert (PTX va <> PTX va') by (intros ?; by apply Hne). lia.
  - rewrite decide_False; [done|]. intros [Hd _]. unfold pt_addr in *. rewrite Hd in Ha.
    destruct (table m pgdir (PDX va')); done.
Qed.
End store.

(** ** Adding a table *)

(** The memory after [walkpgdir] has installed the zeroed page [v] as the
    table for [va]. *)
Definition add_table m pgdir va v : mem :=
  st (memset m v 0 PGSIZE) (pgdir + 4 * PDX va)
    (Z.lor (Z.lor (Z.lor (V2P v) PTE_P) PTE_W) PTE_U).

Lemma pde_word v : page_ok v ->
  let e := Z.lor (Z.lor (Z.lor (V2P v) PTE_P) PTE_W) PTE_U in
  0 <= e < two32 /\ has e PTE_P = true /\ PTE_ADDR e = V2P v.
Proof.
  intros Hv. cbn zeta. destruct (page_ok_range v Hv). destruct Hv as [Hal _].
  rewrite <-!Z.lor_assoc. assert (V2P v = v - KERNBASE) as E by (apply V2P_high; klia).
  split; [|split].
  - rewrite lor_aligned; [|apply V2P_aligned, Hal|done]. change (Z.lor PTE_P (Z.lor PTE_W PTE_U)) with 7. rewrite E. klia.
  - rewrite has_P, Z.lor_spec. apply orb_true_r.
  - apply PTE_ADDR_lor; [rewrite E; klia|apply V2P_aligned, Hal|done].
Qed.

Section alloc.
Context m pgdir va (v : Z) (Hwf : pt_wf m pgdir).
Context (Hnone : table m pgdir (PDX va) = None) (Hv : page_ok v) (Hfresh : ~ owns m pgdir v).

Lemma add_table_same_page p : p mod PGSIZE = 0 -> p <> v -> p <> pgdir ->
  same_page m (add_table m pgdir va v) p.
Proof.
  intros Hp Hpv Hpd a Ha. unfold add_table.
  pose proof (PDX_range va). destruct (wf_dir _ _ Hwf), Hv.
  rewrite ldb_st_ne by klia. apply ldb_memset_out; klia.
Qed.

Lemma add_table_table i : 0 <= i < NPDENTRIES ->
  table (add_table m pgdir va v) pgdir i =
    if decide (i = PDX va) then Some v else table m pgdir i.
Proof.
  intros Hi. unfold table, add_table. pose proof (PDX_range va).
  destruct (pde_word v Hv) as (Hr & HP & Hadr). case_decide as Hd.
  - subst i. rewrite ld_st_eq, u32_small, HP, Hadr by done.
    rewrite P2V_V2P; [done|]. apply page_ok_range in Hv. klia.
  - rewrite ld_st_ne by lia. rewrite ld_memset_out; [done|klia|].
    assert (v <> pgdir) by (intros ->; apply Hfresh; by left).
    destruct (wf_dir _ _ Hwf), Hv. klia.
Qed.

Lemma add_table_pt_addr : pt_addr (add_table m pgdir va v) pgdir va = Some (v + 4 * PTX va).
Proof.
  unfold pt_addr. rewrite add_table_table by apply PDX_range. by rewrite decide_True.
Qed.

Lemma add_table_owns p : owns (add_table m pgdir va v) pgdir p <-> owns m pgdir p \/ p = v.
Proof.
  unfold owns. split.
  - intros [->|(i & Hi & Ht)]; [by left; left|]. rewrite add_table_table in Ht by done.
    case_decide; [right; congruence|]. left. right. eauto.
  - intros [[->|(i & Hi & Ht)]| ->]; [by left|right..].
    + exists i. split; [done|]. rewrite add_table_table by done. by rewrite decide_False by congruence.
    + exists (PDX va). split; [apply PDX_range|]. rewrite add_table_table by apply PDX_range.
      by rewrite decide_True.
Qed.

Lemma add_table_wf : pt_wf (add_table m pgdir va v) pgdir.
Proof.
  destruct Hwf as [Hd Ht Hi]. split; [done|..].
  - intros i t Hi'. rewrite add_table_table by done. case_decide; [|by eauto].
    intros [= <-]. split; [done|]. intros ->. apply Hfresh. by left.
  - intros i j t Hi' Hj. rewrite !add_table_table by done.
    repeat case_decide; try congruence; try by eauto.
    + intros [= <-] Hj'. destruct Hfresh. right. eauto.
    + intros Hj' [= <-]. destruct Hfresh. right. eauto.
Qed.

Lemma add_table_pte_of va' : pte_of (add_table m pgdir va v) pgdir va' = pte_of m pgdir va'.
Proof.
  unfold pte_of, pt_addr. rewrite add_table_table by apply PDX_range.
  case_decide as Hd.
  - rewrite Hd, Hnone. cbn. pose proof (PTX_range va'). pose proof (PDX_range va).
    unfold add_table. assert (v <> pgdir) by (intros ->; apply Hfresh; by left).
    destruct (wf_dir _ _ Hwf), Hv. rewrite ld_st_ne by klia. apply ld_memset_0; klia.
  - destruct (table m pgdir (PDX va')) as [t|] eqn:E; [|done]. cbn.
    apply same_page_ld; [|apply PTX_range].
    destruct (wf_table _ _ Hwf _ _ (PDX_range va') E) as [[??] ?].
    apply add_table_same_page; [done| |done].
    intros ->. apply Hfresh. right. eauto using PDX_range.
Qed.
End alloc.

(** ** A fresh directory *)

Section fresh.
Context m v (Hv : page_ok v).

Lemma fresh_table i : 0 <= i < NPDENTRIES -> table (memset m v 0 PGSIZE) v i = None.
Proof. intros. unfold table. by rewrite ld_memset_0 by klia. Qed.

Lemma fresh_wf : pt_wf (memset m v 0 PGSIZE) v.
Proof.
  split; [done|..].
  - intros i t Hi. by rewrite fresh_table.
  - intros i j t Hi Hj. by rewrite fresh_table.
Qed.

Lemma fresh_owns p : owns (memset m v 0 PGSIZE) v p <-> p = v.
Proof.
  split; [|by left]. intros [->|(i & Hi & Ht)]; [done|]. by rewrite fresh_table in Ht.
Qed.

Lemma fresh_pte_of va : pte_of (memset m v 0 PGSIZE) v va = 0.
Proof. unfold pte_of, pt_addr. by rewrite fresh_table by apply PDX_range. Qed.

Lemma memset_same_page p c : p mod PGSIZE = 0 -> p <> v ->
  same_page m (memset m v c PGSIZE) p.
Proof. intros Hp Hne a Ha. destruct Hv. apply ldb_memset_out; klia. Qed.
End fresh.
End pagetable.
