(* ===== verification/Swap.v ===== *)
(** * Swapping pages out

    The swap part of [proc.c]: the choice of a victim process and of a
    victim page by the accessed bits, the swap slots, and
    [find_new_page_after_swapping], which [kalloc] calls when no page is
    free.  [kalloc] calls that function and it calls [walkpgdir], whose text
    calls [kalloc]; so everything here takes [kalloc] as a parameter, and
    Kalloc.v ties the knot. *)

From Stdlib Require Import ZArith Lia.
From stdpp Require Import base strings numbers gmap list.
From S2P Require Import Prelude Mmu Memory Kernel Sleeplock Bio Kmem Rmap.

Definition NSLOTS : Z := SWAPBLOCKS / 8.

(** [for (i = 0; i < sz; i += PGSIZE)] over an [uint]. *)
Definition for_pages {A R} (sz : Z) (body : Z -> A -> K (ctl A R)) (a : A) : K (A + R) :=
  while_ (S (Z.to_nat ((sz + PGSIZE - 1) / PGSIZE)))
    (fun '(i, a) =>
       if i <? sz then
         c ← body i a;
         match c with
         | Next a' => mret (inl (u32 (i + PGSIZE), a'))
         | Break a' => mret (inr (inl a'))
         | Return r => mret (inr (inr r))
         end
       else mret (inr (inl a))) (0, a).

(** Its number of iterations, and the loop rule. *)
Definition npages (sz : Z) : nat := Z.to_nat ((sz + PGSIZE - 1) / PGSIZE).

Lemma npages_range sz k : (k < npages sz)%nat <-> 0 <= Z.of_nat k * PGSIZE < sz.
Proof. unfold npages. klia. Qed.

Lemma wp_for_pages {A R} sz (body : Z -> A -> K (ctl A R)) (I : nat -> A -> kstate -> Prop) Q a s :
  sz <= two32 - PGSIZE ->
  (forall k a s, (k < npages sz)%nat -> I k a s ->
     wp (body (Z.of_nat k * PGSIZE) a) (fun c s' => match c with
       | Next a' => I (S k) a' s'
       | Break a' => Q (inl a') s'
       | Return r => Q (inr r) s'
       end) s) ->
  (forall a s, I (npages sz) a s -> Q (inl a) s) ->
  I 0%nat a s -> wp (for_pages sz body a) Q s.
Proof.
  intros Hsz Hbody Hend HI. unfold for_pages.
  apply (wp_while _ (fun '(i, a) s => exists k, i = Z.of_nat k * PGSIZE /\ (k <= npages sz)%nat /\ I k a s)
    (fun '(i, _) => npages sz - Z.to_nat (i / PGSIZE))%nat).
  - intros [i a0] s0 (k & -> & Hk & HIk). case_if.
    + assert (k < npages sz)%nat as Hlt by (apply npages_range; klia).
      wp_step. eapply wp_mono; [by apply Hbody|]. intros [a'|a'|r] s' H'; wp_steps; [|done..].
      rewrite u32_small by klia. split.
      * exists (S k). split_and!; [lia|lia|done].
      * rewrite (Z.div_mul (Z.of_nat k)) by done.
        replace (Z.of_nat k * PGSIZE + PGSIZE) with (Z.of_nat (S k) * PGSIZE) by lia.
        rewrite Z.div_mul by done. lia.
    + wp_steps. apply Hend. assert (k = npages sz) as <-; [|done].
      destruct (decide (k < npages sz)%nat) as [H%npages_range|]; lia.
  - unfold npages. rewrite Z.div_0_l by done. lia.
  - exists 0%nat. split_and!; [done|lia|done].
Qed.

(** A loop over pages that does nothing before page [k], where it leaves. *)
Lemma wp_for_pages_first {A R} sz k (body : Z -> A -> K (ctl A R)) Q a s :
  sz <= two32 - PGSIZE -> (k < npages sz)%nat ->
  (forall j, (j < k)%nat -> forall Q', Q' (Next a) s -> wp (body (Z.of_nat j * PGSIZE) a) Q' s) ->
  wp (body (Z.of_nat k * PGSIZE) a) (fun c s' => match c with
    | Next _ => False
    | Break a' => Q (inl a') s'
    | Return r => Q (inr r) s'
    end) s ->
  wp (for_pages sz body a) Q s.
Proof.
  intros Hsz Hk Hpre Hi.
  apply (wp_for_pages _ _ (fun j a' s' => (j <= k)%nat /\ a' = a /\ s' = s)); [done| | |].
  - intros j a' s' _ (Hj & -> & ->). destruct (decide (j = k)) as [->|Hne].
    + eapply wp_mono; [exact Hi|]. by intros [?|?|?] s''.
    + apply Hpre; [lia|]. split; [lia|done].
  - intros a' s' (? & _). lia.
  - split; [lia|done].
Qed.

Lemma wp_for_pages_none {A R} sz (body : Z -> A -> K (ctl A R)) Q a s :
  sz <= two32 - PGSIZE ->
  (forall j, (j < npages sz)%nat -> forall Q', Q' (Next a) s -> wp (body (Z.of_nat j * PGSIZE) a) Q' s) ->
  Q (inl a) s -> wp (for_pages sz body a) Q s.
Proof.
  intros Hsz Hpre HQ.
  apply (wp_for_pages _ _ (fun _ a' s' => a' = a /\ s' = s)); [done| | |done].
  - intros j a' s' Hj (-> & ->). by apply Hpre.
  - by intros a' s' (-> & ->).
Qed.

(** ** Slots *)

Definition xint (x : Z) : Z :=
  let a0 := x mod 0x100 in
  let a1 := Z.shiftr x 8 mod 0x100 in
  let a2 := Z.shiftr x 16 mod 0x100 in
  let a3 := Z.shiftr x 24 mod 0x100 in
  a0 + 0x100 * a1 + 0x10000 * a2 + 0x1000000 * a3.

(** [for (i = 0; i < SWAPBLOCKS; i += 8)] with [j] counting the slots. *)
Definition initswap : K unit :=
  _ ← for_ (R := unit) (seqZ 0 (SWAPBLOCKS / 8)) (fun j (_ : unit) =>
        w ← get_swap j;
        put_swap j (set_sw_cnt 0 (set_sw_start (u32 (xint 2 + 8 * j)) (set_is_free 1 w)));;
        mret (Next tt)) tt;
  mret tt.

(** The update of a slot when one of its sharers goes away. *)
Definition drop_sharer (w : swapslot) : swapslot :=
  if sw_cnt w =? 1 then set_sw_cnt 0 (set_is_free 1 w)
  else set_sw_cnt (u32 (sw_cnt w - 1)) w.

Definition clean_proc_data (pde : Z) : K unit :=
  _ ← for_ (R := unit) (seqZ 0 NPDENTRIES) (fun i (_ : unit) =>
        e ← load (pde + 4 * i);
        if has e PTE_P then
          let pte := P2V (PTE_ADDR e) in
          _ ← for_ (R := unit) (seqZ 0 NPTENTRIES) (fun j (_ : unit) =>
                f ← load (pte + 4 * j);
                if has f PTE_S then
                  let slot := Z.shiftr (PTE_ADDR f) 12 in
                  w ← get_swap slot;
                  put_swap slot (drop_sharer w);;
                  mret (Next tt)
                else mret (Next tt)) tt;
          mret (Next tt)
        else mret (Next tt)) tt;
  mret tt.

Definition clear_swapped_page (pte : Z) : K unit :=
  v ← deref pte;
  let slot := u32 (Z.shiftl v 12) in
  cprintf "More than one cnt\n";;
  w ← get_swap slot;
  put_swap slot (drop_sharer w).

(** ** Victim process *)

(** The scan of [select_victim_process]: [i] is the index of the head of
    [ps]; [victim], [maximum] and [id] are the variables of the loop. *)
Fixpoint scan_victim (i : nat) (ps : list proc) (victim : nat) (maximum id : Z) : nat :=
  match ps with
  | [] => victim
  | p :: ps' =>
      if maximum <? p_rss p then scan_victim (S i) ps' i (p_rss p) (p_pid p)
      else if maximum =? p_rss p then
        if p_pid p <? id then scan_victim (S i) ps' i maximum (p_pid p)
        else scan_victim (S i) ps' victim maximum id
      else scan_victim (S i) ps' victim maximum id
  end.

Definition select_victim_process : K nat :=
  c ← curproc;
  p ← get_proc c;
  ps ← gets k_proc;
  mret (scan_victim 0 ps c (p_rss p) (p_pid p)).

Section swap.
Context {I : KernelImage}.
Variable kalloc : K Z.

(** ** Page tables *)

Definition walkpgdir (pgdir va : Z) (alloc : bool) : K Z :=
  let pde := pgdir + 4 * PDX va in
  v ← load pde;
  if has v PTE_P then
    mret (P2V (PTE_ADDR v) + 4 * PTX va)
  else if negb alloc then mret 0
  else
    pgtab ← kalloc;
    if pgtab =? 0 then mret 0
    else
      (* Make sure all those PTE_P bits are zero. *)
      modify_mem (fun m => memset m pgtab 0 PGSIZE);;
      store pde (Z.lor (Z.lor (Z.lor (V2P pgtab) PTE_P) PTE_W) PTE_U);;
      mret (pgtab + 4 * PTX va).

(** ** Sharers of a page *)

Definition find_pte_swap_out (p : nat) (pte_orig idx : Z) : K unit :=
  pr ← get_proc p;
  _ ← for_pages (R := unit) (p_sz pr) (fun i (_ : unit) =>
        pte ← walkpgdir (p_pgdir pr) i false;
        if pte =? 0 then panic "find_pte_swap_out: pte should exist"
        else
          v ← load pte;
          o ← load pte_orig;
          if v =? o then
            w ← get_swap idx;
            (if sw_cnt w <? NPROC then
               put_swap idx
                 (set_sw_cnt (sw_cnt w + 1)
                   (set_sw_pte_id (zinsert (sw_cnt w) pte (sw_pte_id w))
                     (set_sw_proc_id (zinsert (sw_cnt w) (Some p) (sw_proc_id w)) w)))
             else fail Trap);;
            upd_proc p (fun pr => set_p_rss (u32 (p_rss pr - PGSIZE)) pr);;
            when (PTE_ADDR v / PGSIZE =? 73) (cprintf "In swap out %d %d\n");;
            _ ← dec_sharing pte (PTE_ADDR v / PGSIZE);
            mret (Return tt)
          else mret (Next tt)) tt;
  mret tt.

Definition find_pte_swap_in (p : nat) (pte_orig addr : Z) : K unit :=
  pr ← get_proc p;
  _ ← for_pages (R := unit) (p_sz pr) (fun i (_ : unit) =>
        pte ← walkpgdir (p_pgdir pr) i false;
        if pte =? 0 then panic "find_pte_swap_in: pte should exist"
        else
          v ← load pte;
          o ← load pte_orig;
          if v =? o then
            upd_proc p (fun pr => set_p_rss (u32 (p_rss pr + PGSIZE)) pr);;
            inc_sharing pte (V2P addr / PGSIZE);;
            mret (Return tt)
          else mret (Next tt)) tt;
  mret tt.

Definition make_other_pte_swapped_out (pte idx : Z) : K unit :=
  _ ← for_ (R := unit) (seq 0 (Z.to_nat NPROC)) (fun p (_ : unit) =>
        pr ← get_proc p;
        if bool_decide (p_state pr = UNUSED) then mret (Next tt)
        else find_pte_swap_out p pte idx;; mret (Next tt)) tt;
  mret tt.

Definition make_other_pte_swapped_in (pte addr : Z) : K unit :=
  _ ← for_ (R := unit) (seq 0 (Z.to_nat NPROC)) (fun p (_ : unit) =>
        find_pte_swap_in p pte addr;; mret (Next tt)) tt;
  mret tt.

Definition make_acces_bit_0 (pte_orig : Z) : K unit :=
  _ ← for_ (R := unit) (seq 0 (Z.to_nat NPROC)) (fun p (_ : unit) =>
        pr ← get_proc p;
        _ ← for_pages (R := unit) (p_sz pr) (fun i (_ : unit) =>
              pte ← walkpgdir (p_pgdir pr) i false;
              if pte =? 0 then panic "find_pte_swap_in: pte should exist"
              else
                v ← load pte;
                o ← load pte_orig;
                when (v =? o) (store pte (Z.land v (Z.lnot PTE_A)));;
                mret (Next tt)) tt;
        mret (Next tt)) tt;
  mret tt.

(** ** Victim page *)

(** The first and third loops of [select_a_victim]: return the first
    present page not accessed; [total] counts the accessed ones. *)
Definition find_unaccessed (pr : proc) : K (Z + Z) :=
  for_pages (p_sz pr) (fun i total =>
    pte ← walkpgdir (p_pgdir pr) i false;
    v ← deref pte;
    if has v PTE_P then
      if negb (has v PTE_A) then
        if p_rss pr <? PGSIZE then mret (Next total) else mret (Return pte)
      else mret (Next (total + 1))
    else mret (Next total)) 0.

(** The second loop: clear the accessed bit of [total] accessed pages. *)
Definition clear_accessed (pr : proc) (total : Z) : K unit :=
  _ ← for_pages (R := unit) (p_sz pr) (fun i cnt =>
        pte ← walkpgdir (p_pgdir pr) i false;
        v ← deref pte;
        cnt ← (if has v PTE_P && has v PTE_A
               then make_acces_bit_0 pte;; mret (cnt + 1) else mret cnt);
        mret (if total <=? cnt then Break cnt else Next cnt)) 0;
  mret tt.

Definition select_a_victim : K Z :=
  p ← select_victim_process;
  pr ← get_proc p;
  r ← find_unaccessed pr;
  match r with
  | inr pte => mret pte
  | inl total =>
      clear_accessed pr ((total + 9) / 10);;
      r ← find_unaccessed pr;
      mret (loop_result r 0)
  end.

(** [for (i = 0; i < NSLOTS; i++)] up to the first free slot; -1 if none. *)
Definition find_slot : K Z :=
  r ← for_ (seqZ 0 NSLOTS) (fun i (_ : unit) =>
        w ← get_swap i;
        mret (if negb (is_free w =? 0) then Return i else Next tt)) tt;
  mret (loop_result r (-1)).

Definition find_new_page_after_swapping : K unit :=
  pte ← select_a_victim;
  idx ← find_slot;
  if idx =? -1 then panic "No available slot\n"
  else if pte =? 0 then panic "Pte is 0\n"
  else
    let block_no := u32 (2 + 8 * idx) in
    v ← load pte;
    write_pag_to_disk ROOTDEV (P2V (PTE_ADDR v)) block_no;;
    make_other_pte_swapped_out pte idx;;
    v ← load pte;
    w ← get_swap idx;
    put_swap idx (set_is_free 0 (set_page_perm (PTE_FLAGS v) w));;
    kfree (P2V (PTE_ADDR v));;
    store pte (Z.lor (Z.shiftl idx 12) PTE_S);;
    v ← load pte;
    store pte (Z.land v (Z.lnot PTE_A));;
    w ← get_swap idx;
    put_swap idx (set_sw_pte_id
      ((fun x => if decide (fst x < sw_cnt w) then pte else snd x)
         <$> zip (seqZ 0 NPROC) (sw_pte_id w)) w).
End swap.
