(* ===== verification/Kalloc.v ===== *)
(** * Allocating a physical page

    [kalloc] of [kalloc.c].  When the free list is empty it swaps a page out
    and calls itself again; [kalloc_rec] counts these calls with fuel.  Two
    are enough: a swap-out that returns has freed a page. *)

From Stdlib Require Import ZArith Lia.
From stdpp Require Import base strings numbers gmap list.
From S2P Require Import Prelude Mmu Memory Kernel Sample Sleeplock Bio Kmem Rmap Swap.

Section kalloc.
Context {I : KernelImage}.

Fixpoint kalloc_rec (fuel : nat) : K Z :=
  match fuel with
  | O => fail Hang
  | S f =>
      ul ← gets k_use_lock;
      when ul (acquire L_kmem);;
      r ← gets k_freelist;
      when (negb (r =? 0))
        (next ← load r;
         modify (set_k_freelist next);;
         modify (fun s => set_k_nfree (u32 (k_nfree s - 1)) s));;
      when ul (release L_kmem);;
      modify (fun s => set_k_global_var (u32 (k_global_var s + 1)) s);;
      if negb (r =? 0) then mret r
      else
        find_new_page_after_swapping (kalloc_rec f);;
        kalloc_rec f
  end.

Definition kalloc : K Z := kalloc_rec 2.

(** The state after an allocation from the free list. *)
Definition kalloc_state (s : kstate) : kstate :=
  set_k_global_var (u32 (k_global_var s + 1))
    (set_k_nfree (u32 (k_nfree s - 1))
      (set_k_freelist (ld (k_mem s) (k_freelist s)) s)).

(** ** Allocation from the free list *)

Lemma kalloc_rec_run f s : k_freelist s <> 0 -> kmem_unlocked s ->
  kalloc_rec (S f) s = Ok (k_freelist s, kalloc_state s).
Proof.
  intros Hr Hl. cbn [kalloc_rec]. unfold mbind, M_bind, gets, when, kalloc_state.
  assert (negb (k_freelist s =? 0) = true) as Hn by (by apply negb_true_iff, Z.eqb_neq).
  destruct (k_use_lock s) eqn:E.
  - unfold acquire, mbind, M_bind, gets, modify. rewrite bool_decide_false by auto. ksimpl.
    rewrite Hn. unfold load, gets. ksimpl. unfold release, mbind, M_bind, gets, modify. ksimpl.
    cbn. by destruct s.
  - cbn [mret M_ret]. rewrite Hn. unfold load, gets, modify. ksimpl. done.
Qed.

Lemma wp_kalloc_free v l Q s :
  free_ok s (v :: l) -> v <> 0 -> kmem_unlocked s ->
  Q v (kalloc_state s) -> wp kalloc Q s.
Proof.
  intros Hf Hv Hl HQ. assert (k_freelist s = v) as Hv' by apply (free_chain _ _ Hf).
  unfold wp, kalloc. rewrite kalloc_rec_run by (done || congruence). by rewrite Hv'.
Qed.

Lemma kalloc_state_free_ok {Iok : KernelImageOk I} v l s :
  free_ok s (v :: l) -> free_ok (kalloc_state s) l.
Proof.
  intros Hf. pose proof (free_ok_length _ _ Hf) as Hlen.
  destruct Hf as [[Hh Hc] Hn Hd Hp]. unfold kalloc_state. split; ksimpl; try done.
  - by rewrite Hh.
  - rewrite Hn. unfold u32 in *. cbn [length] in *. rewrite Zminus_mod_idemp_l. f_equal. lia.
  - by apply NoDup_cons in Hd as [_ ?].
  - by apply Forall_cons in Hp as [_ ?].
Qed.

Lemma kmem_step_kalloc s : kmem_step s (kalloc_state s).
Proof. eexists _, _, (k_mem s), _. unfold kalloc_state. by destruct s. Qed.

(** ** The swapper does not use its parameter *)

Lemma find_new_page_irrel k1 k2 :
  find_new_page_after_swapping k1 = find_new_page_after_swapping k2.
Proof. reflexivity. Qed.

Lemma find_new_page_nonempty {Iok : KernelImageOk I} k s s' :
  find_new_page_after_swapping k s = Ok (tt, s') -> k_freelist s' <> 0.
Proof.
  intros H. revert s' H. enough (wlp (find_new_page_after_swapping k)
    (fun _ s' => k_freelist s' <> 0) s) by eauto.
  unfold find_new_page_after_swapping. do 2 (apply wlp_skip; intros ? ?).
  case_if; [apply wlp_fail|]. case_if; [apply wlp_fail|].
  do 6 (apply wlp_skip; intros ? ?). apply wlp_bind. intros [] s1 Hk.
  apply wlp_kfree in Hk as [Hf Hv].
  assert (k_freelist s1 <> 0) as Hne by (pose proof end_range; unfold KERNLINK in *; klia).
  intros [] s2. unfold load, store, modify_mem, put_swap, get_swap, mbind, M_bind, gets, modify, the.
  cbn. destruct (zlookup _ _); [|done]. intros [= <-]. done.
Qed.

Lemma acquire_freelist ul s s' :
  when ul (acquire L_kmem) s = Ok (tt, s') -> k_freelist s' = k_freelist s.
Proof.
  unfold when, acquire, mbind, M_bind, gets, modify. destruct ul; [|by intros [= <-]].
  case_bool_decide; [done|]. by intros [= <-].
Qed.

(** One more call does not matter when a page is free. *)
Lemma kalloc_rec_nonempty f s : k_freelist s <> 0 -> kalloc_rec (S f) s = kalloc_rec 1 s.
Proof.
  intros Hf. cbn [kalloc_rec]. unfold mbind, M_bind, gets.
  destruct (when _ (acquire L_kmem) s) as [[[] s1]|e] eqn:Ha; [|done].
  apply acquire_freelist in Ha. rewrite Ha.
  assert (negb (k_freelist s =? 0) = true) as -> by (by apply negb_true_iff, Z.eqb_neq).
  done.
Qed.
End kalloc.

(** ** Properties *)

Section properties.
Context {I : KernelImage} {Iok : KernelImageOk I}.

(** The body of [kalloc], with [rest] for what it does when no page is free. *)
Let kalloc_step (rest : K Z) : K Z :=
  ul ← gets k_use_lock;
  when ul (acquire L_kmem);;
  r ← gets k_freelist;
  when (negb (r =? 0))
    (next ← load r;
     modify (set_k_freelist next);;
     modify (fun s => set_k_nfree (u32 (k_nfree s - 1)) s));;
  when ul (release L_kmem);;
  modify (fun s => set_k_global_var (u32 (k_global_var s + 1)) s);;
  if negb (r =? 0) then mret r else rest.

Lemma kalloc_step_ext r1 r2 s : (forall s, r1 s = r2 s) -> kalloc_step r1 s = kalloc_step r2 s.
Proof.
  intros Hr. unfold kalloc_step, mbind, M_bind, gets.
  destruct (when _ (acquire _) s) as [[[] s1]|e]; [|done].
  destruct (when _ _ s1) as [[[] s2]|e]; [|done].
  destruct (when _ (release _) s2) as [[[] s3]|e]; [|done].
  destruct (modify _ s3) as [[[] s4]|e]; [|done].
  by destruct (negb _).
Qed.

Lemma kalloc_rec_S f :
  kalloc_rec (S f) = kalloc_step (find_new_page_after_swapping (kalloc_rec f);; kalloc_rec f).
Proof. reflexivity. Qed.

(** Two calls suffice: [kalloc] calls itself at most once, because a
    swap-out that returns leaves a free page; so the fuel of the model never
    runs out in the recursion. *)
Theorem kalloc_fuel_enough f s : kalloc_rec (2 + f) s = kalloc s.
Proof.
  unfold kalloc. change (2 + f)%nat with (S (S f)).
  rewrite (kalloc_rec_S (S f)), (kalloc_rec_S 1). apply kalloc_step_ext.
  clear s. intros s. rewrite (find_new_page_irrel (kalloc_rec (S f)) (kalloc_rec 1)).
  unfold mbind, M_bind.
  destruct (find_new_page_after_swapping (kalloc_rec 1) s) as [[[] s']|e] eqn:E; [|done].
  apply find_new_page_nonempty in E. by apply kalloc_rec_nonempty.
Qed.
End properties.

(** ** Refinement of a stack of pages *)

Section refinement.
Context {I : KernelImage} {Iok : KernelImageOk I}.

Inductive alloc_op := OpAlloc | OpFree (v : Z).

(** The specification: a stack of pages.  Allocation pops a page; freeing a
    page of the kernel's memory that is not on the stack pushes it. *)
Fixpoint spec_run (ops : list alloc_op) (l : list Z) : option (list Z * list Z) :=
  match ops with
  | [] => Some ([], l)
  | OpAlloc :: ops =>
      match l with
      | [] => None
      | v :: l => prod_map (cons v) id <$> spec_run ops l
      end
  | OpFree v :: ops =>
      if decide (v ∈ l) then None
      else if negb (v mod PGSIZE =? 0) || (v <? sym_end) || (KERNBASE + PHYSTOP <=? v) then None
      else spec_run ops (v :: l)
  end.

(** The code, with the pages that [kalloc] returned. *)
Fixpoint kmem_run (ops : list alloc_op) : K (list Z) :=
  match ops with
  | [] => mret []
  | OpAlloc :: ops => v ← kalloc; vs ← kmem_run ops; mret (v :: vs)
  | OpFree v :: ops => kfree v;; kmem_run ops
  end.

Lemma spec_free_page_ok v :
  negb (v mod PGSIZE =? 0) || (v <? sym_end) || (KERNBASE + PHYSTOP <=? v) = false <-> page_ok v.
Proof.
  unfold page_ok. rewrite !orb_false_iff, negb_false_iff, Z.eqb_eq, Z.ltb_ge, Z.leb_gt. lia.
Qed.

(** C21: [kalloc] and [kfree] implement a stack of pages: whatever sequence of
    calls the stack allows, the code returns, hands out the same pages in the
    same order, and ends with a free list that holds the stack. *)
Theorem kmem_refines_stack ops vs l l' s :
  free_ok s l -> kmem_unlocked s -> spec_run ops l = Some (vs, l') ->
  wp (kmem_run ops) (fun vs' s' => vs' = vs /\ free_ok s' l' /\ kmem_step s s') s.
Proof.
  revert vs l s. induction ops as [|[|v] ops IH]; intros vs l s Hf Hu Hspec; cbn [spec_run kmem_run] in *.
  - injection Hspec as <- <-. wp_steps. split; [done|]. split; [done|apply kmem_step_refl].
  - destruct l as [|v l]; [done|].
    destruct (spec_run ops l) as [[vs0 l0]|] eqn:E; [|done]. injection Hspec as <- <-.
    assert (page_ok v) as Hv by apply (Forall_inv (free_pages _ _ Hf)).
    wp_step. eapply wp_kalloc_free; [done|apply page_ok_range in Hv; klia|done|]. wp_step.
    eapply wp_mono; [eapply IH; [by apply (kalloc_state_free_ok v)|done|done]|].
    intros vs' s' (-> & ? & ?). wp_steps. split; [done|]. split; [done|].
    eapply kmem_step_trans; [apply kmem_step_kalloc|done].
  - destruct (decide (v ∈ l)); [done|].
    destruct (negb _ || _ || _) eqn:E; [done|]. apply spec_free_page_ok in E as Hv.
    wp_step. apply wp_kfree; [done..|].
    eapply wp_mono; [eapply IH; [by apply kfree_state_free_ok|done|done]|].
    intros vs' s' (-> & ? & ?). split; [done|]. split; [done|].
    eapply kmem_step_trans; [apply kmem_step_kfree|done].
Qed.

(** [kfree] panics exactly on a pointer that is not a page of the
    allocator's memory: misaligned, inside the kernel or beyond [PHYSTOP]. *)
Theorem kfree_panics v s : 0 <= v < two32 -> kmem_unlocked s ->
  kfree v s = Err (Panic "kfree") <-> ~ page_ok v.
Proof.
  intros Hv Hu. split.
  - intros Hk Hok. by rewrite kfree_run in Hk.
  - intros Hn. unfold kfree. rewrite <-page_ok_test in Hn by done.
    by destruct (negb _ || _ || _).
Qed.
End refinement.

(** ** Instances *)


Lemma kalloc_fuel_enough_witness : @kalloc_rec img 5 state0 = @kalloc img state0.
Proof. exact (@kalloc_fuel_enough img img_ok 3 state0). Defined.

Lemma kmem_refines_stack_witness :
  wp (@kmem_run img [OpAlloc; OpFree frame0; OpAlloc; OpAlloc])
    (fun vs _ => vs = [0x80303000; frame0; 0x80304000]) state0.
Proof.
  eapply wp_mono.
  - apply (@kmem_refines_stack img img_ok _ [0x80303000; frame0; 0x80304000] free0
      (drop 2 free0)); [apply sample_free_ok|intros _; apply not_elem_of_nil|by vm_compute].
  - by intros vs s' [-> _].
Defined.

Lemma kfree_panics_witness : @kfree img 5 state0 = Err (Panic "kfree").
Proof.
  apply (@kfree_panics img img_ok 5 state0); [done|intros _; apply not_elem_of_nil|].
  intros [H _]. done.
Defined.
