(* ===== verification/Vm.v ===== *)
(** * Virtual memory

    [vm.c]: building, growing, shrinking, copying and freeing page tables,
    and copying between address spaces. *)

From Stdlib Require Import ZArith Lia.
From stdpp Require Import base strings numbers gmap list.
From S2P Require Import Prelude Mmu Memory Kernel Sleeplock Bio Kmem Rmap Swap Kalloc.

Section vm.
Context {I : KernelImage}.

Definition walkpgdir (pgdir va : Z) (alloc : bool) : K Z :=
  Swap.walkpgdir kalloc pgdir va alloc.

(** ** Mapping *)

(** One iteration of the loop of [mappages], on the variables [a] and [pa]. *)
Definition mappages_step (pgdir last perm : Z) '(a, pa) : K (Z * Z + Z) :=
  pte ← walkpgdir pgdir a true;
  if pte =? 0 then mret (inr (-1))
  else
    v ← load pte;
    if has v PTE_P then panic "remap"
    else
      store pte (Z.lor (Z.lor pa perm) PTE_P);;
      if a =? last then mret (inr 0)
      else mret (inl (u32 (a + PGSIZE), u32 (pa + PGSIZE))).

Definition mappages (pgdir va size pa perm : Z) : K Z :=
  let a := PGROUNDDOWN va in
  let last := PGROUNDDOWN (u32 (va + size - 1)) in
  while_ (S (Z.to_nat (u32 (last - a) / PGSIZE))) (mappages_step pgdir last perm) (a, pa).

(** The kernel's mappings: virtual start, physical start and end, flags. *)
Definition kmap : list (Z * Z * Z * Z) :=
  [ (KERNBASE, 0, EXTMEM, PTE_W);
    (KERNLINK, V2P KERNLINK, V2P sym_data, 0);
    (sym_data, V2P sym_data, PHYSTOP, PTE_W);
    (DEVSPACE, DEVSPACE, 0, PTE_W) ].

(** ** Shrinking and freeing *)

(** The body of [deallocuvm] and [deallocuvm2]: [who] is the process whose
    resident set shrinks. *)
Definition shrink_rss (who : K nat) : K unit :=
  p ← who;
  pr ← get_proc p;
  when (0 <? p_rss pr)
    (p ← who; upd_proc p (fun pr => set_p_rss (u32 (p_rss pr - PGSIZE)) pr)).

Definition dealloc_page (who : K nat) (pte v : Z) : K unit :=
  let pa := PTE_ADDR v in
  if pa =? 0 then panic "kfree"
  else
    do_free ← dec_sharing pte (pa / PGSIZE);
    when do_free (kfree (P2V pa));;
    shrink_rss who;;
    store pte 0.

Definition dealloc_step (who : K nat) (pgdir oldsz newsz a : Z) : K (Z + Z) :=
  if a <? oldsz then
    pte ← walkpgdir pgdir a false;
    if pte =? 0 then
      mret (inl (u32 (u32 (PGADDR (PDX a + 1) 0 0 - PGSIZE) + PGSIZE)))
    else
      v ← load pte;
      when (has v PTE_P) (dealloc_page who pte v);;
      mret (inl (u32 (a + PGSIZE)))
  else mret (inr newsz).

Definition dealloc (who : K nat) (pgdir oldsz newsz : Z) : K Z :=
  if oldsz <=? newsz then mret oldsz
  else
    let a := PGROUNDUP newsz in
    while_ (S (Z.to_nat ((oldsz - a) / PGSIZE + 1))) (dealloc_step who pgdir oldsz newsz) a.

Definition deallocuvm (pgdir oldsz newsz : Z) : K Z := dealloc curproc pgdir oldsz newsz.
Definition deallocuvm2 (pgdir oldsz newsz : Z) (p : nat) : K Z :=
  dealloc (mret p) pgdir oldsz newsz.

(** The rest of [freevm] and [freevm2]: free the page tables and the
    directory. *)
Definition free_tables (pgdir : Z) : K unit :=
  _ ← for_ (R := unit) (seqZ 0 NPDENTRIES) (fun i (_ : unit) =>
        v ← load (pgdir + 4 * i);
        when (has v PTE_P) (kfree (P2V (PTE_ADDR v)));;
        mret (Next tt)) tt;
  kfree pgdir.

Definition freevm (pgdir : Z) : K unit :=
  if pgdir =? 0 then panic "freevm: no pgdir"
  else deallocuvm pgdir KERNBASE 0;; free_tables pgdir.

Definition freevm2 (pgdir : Z) (p : nat) : K unit :=
  if pgdir =? 0 then panic "freevm2: no pgdir"
  else deallocuvm2 pgdir KERNBASE 0 p;; free_tables pgdir.

(** ** The kernel part *)

Definition kmap_step (pgdir : Z) '(virt, phys_start, phys_end, perm) (_ : unit) : K (ctl unit Z) :=
  r ← mappages pgdir virt (u32 (phys_end - phys_start)) phys_start perm;
  if r <? 0 then freevm pgdir;; mret (Return 0) else mret (Next tt).

Definition setupkvm : K Z :=
  pgdir ← kalloc;
  if pgdir =? 0 then mret 0
  else
    modify_mem (fun m => memset m pgdir 0 PGSIZE);;
    if DEVSPACE <? P2V PHYSTOP then panic "PHYSTOP too high"
    else
      r ← for_ kmap (kmap_step pgdir) tt;
      mret (loop_result r pgdir).

Definition switchkvm : K unit :=
  d ← gets k_kpgdir; lcr3 (V2P d).

Definition kvmalloc : K unit :=
  d ← setupkvm;
  modify (set_k_kpgdir d);;
  switchkvm.

(** [p == 0] is [None]. *)
Definition switchuvm (p : option nat) : K unit :=
  match p with
  | None => panic "switchuvm: no process"
  | Some p =>
      pr ← get_proc p;
      if p_kstack pr =? 0 then panic "switchuvm: no kstack"
      else if p_pgdir pr =? 0 then panic "switchuvm: no pgdir"
      else
        modify (set_k_esp0 (u32 (p_kstack pr + KSTACKSIZE)));;
        lcr3 (V2P (p_pgdir pr))
  end.

(** ** The user part *)

Definition inituvm (pgdir init sz : Z) : K unit :=
  if PGSIZE <=? sz then panic "inituvm: more than a page"
  else
    addr ← kalloc;
    modify_mem (fun m => memset m addr 0 PGSIZE);;
    _ ← mappages pgdir 0 PGSIZE (V2P addr) (Z.lor PTE_W PTE_U);
    modify_mem (fun m => memmove m addr init sz);;
    pte ← walkpgdir pgdir 0 false;
    inc_sharing pte (V2P addr / PGSIZE).

(** One iteration of the loop of [allocuvm]. *)
Definition allocuvm_step (pgdir oldsz newsz a : Z) : K (Z + Z) :=
  if a <? newsz then
    addr ← kalloc;
    if addr =? 0 then
      cprintf "allocuvm out of memory\n";;
      deallocuvm pgdir newsz oldsz;;
      mret (inr 0)
    else
      modify_mem (fun m => memset m addr 0 PGSIZE);;
      r ← mappages pgdir a PGSIZE (V2P addr) (Z.lor PTE_W PTE_U);
      if r <? 0 then
        cprintf "allocuvm out of memory (2)\n";;
        deallocuvm pgdir newsz oldsz;;
        kfree addr;;
        mret (inr 0)
      else
        pte ← walkpgdir pgdir a false;
        inc_sharing pte (V2P addr / PGSIZE);;
        c ← curproc;
        upd_proc c (fun pr => set_p_rss (u32 (p_rss pr + PGSIZE)) pr);;
        mret (inl (u32 (a + PGSIZE)))
  else mret (inr newsz).

Definition allocuvm (pgdir oldsz newsz : Z) : K Z :=
  if KERNBASE <=? newsz then mret 0
  else if newsz <? oldsz then mret oldsz
  else
    let a := PGROUNDUP oldsz in
    while_ (S (Z.to_nat ((newsz - a) / PGSIZE + 1))) (allocuvm_step pgdir oldsz newsz) a.

Definition clearpteu (pgdir uva : Z) : K unit :=
  pte ← walkpgdir pgdir uva false;
  if pte =? 0 then panic "clearpteu"
  else v ← load pte; store pte (Z.land v (Z.lnot PTE_U)).

(** One iteration of [copyuvm]; [true] when it goes to [bad]. *)
Definition copyuvm_page (pgdir d i : Z) (child : nat) : K bool :=
  pte ← walkpgdir pgdir i false;
  if pte =? 0 then panic "copyuvm: pte should exist"
  else
    v ← load pte;
    if negb (has v PTE_P) then panic "copyuvm: page not present"
    else
      let pa := PTE_ADDR v in
      let flags := PTE_FLAGS v in
      r ← mappages d i PGSIZE pa flags;
      if negb (r =? 0) then mret true
      else
        new_pte ← walkpgdir d i false;
        if new_pte =? 0 then mret true
        else
          v ← load pte;
          store pte (Z.land v (Z.lnot PTE_W));;
          v ← load pte;
          store new_pte v;;
          inc_sharing new_pte (pa / PGSIZE);;
          upd_proc child (fun pr => set_p_rss (u32 (p_rss pr + PGSIZE)) pr);;
          mret false.

Definition copyuvm (pgdir sz : Z) (child : nat) : K Z :=
  d ← setupkvm;
  if d =? 0 then mret 0
  else
    r ← for_pages sz (fun i (_ : unit) =>
          bad ← copyuvm_page pgdir d i child;
          mret (if bad : bool then Return tt else Next tt)) tt;
    match r with
    | inl _ => lcr3 (V2P pgdir);; mret d
    | inr _ => freevm d;; mret 0
    end.

(** ** Copying to user memory *)

Definition uva2ka (pgdir uva : Z) : K Z :=
  pte ← walkpgdir pgdir uva false;
  v ← deref pte;
  if negb (has v PTE_P) then mret 0
  else if negb (has v PTE_U) then mret 0
  else mret (P2V (PTE_ADDR v)).

Definition copyout (pgdir va p len : Z) : K Z :=
  while_ (S (Z.to_nat (len / PGSIZE + 2)))
    (fun '(va, buf, len) =>
       if 0 <? len then
         let va0 := PGROUNDDOWN va in
         pa0 ← uva2ka pgdir va0;
         if pa0 =? 0 then mret (inr (-1))
         else
           let n := Z.min (PGSIZE - (va - va0)) len in
           modify_mem (fun m => memmove m (pa0 + (va - va0)) buf n);;
           mret (inl (u32 (va0 + PGSIZE), u32 (buf + n), len - n))
       else mret (inr 0)) (va, p, len).

(** [readi] of the file system is a parameter here. *)
Definition loaduvm (readi : Z -> Z -> Z -> Z -> K Z) (pgdir addr ip offset sz : Z) : K Z :=
  if negb (addr mod PGSIZE =? 0) then panic "loaduvm: addr must be page aligned"
  else
    r ← for_pages sz (fun i (_ : unit) =>
          pte ← walkpgdir pgdir (u32 (addr + i)) false;
          if pte =? 0 then panic "loaduvm: address should exist"
          else
            v ← load pte;
            let pa := PTE_ADDR v in
            let n := if sz - i <? PGSIZE then sz - i else PGSIZE in
            r ← readi ip (P2V pa) (u32 (offset + i)) n;
            mret (if negb (r =? n) then Return (-1) else Next tt)) tt;
    mret (loop_result r 0).
End vm.
