(* ===== verification/VmKernel.v ===== *)
(** * Mapping pages: [walkpgdir], [mappages] and [setupkvm]

    What the functions of [vm.c] that build page tables do, on the page
    table read as a function ([pte_of], PageTable.v). *)

From Stdlib Require Import ZArith Lia.
From stdpp Require Import base strings numbers gmap list.
From S2P Require Import Prelude Mmu Memory Kernel Sample Sleeplock Bio Kmem Rmap PageTable Swap Kalloc Vm.

Section mapping.
Context {I : KernelImage} {Iok : KernelImageOk I}.
Implicit Types (s : kstate) (pgdir va p : Z) (l used : list Z).

(** ** The state between operations on a page table *)

(** The page table [pgdir] is well formed, and the free pages [l] are not
    part of it. *)
Record pt_ready s pgdir l : Prop := {
  pr_free : free_ok s l;
  pr_unlocked : kmem_unlocked s;
  pr_wf : pt_wf (k_mem s) pgdir;
  pr_fresh : forall p, p ∈ l -> ~ owns (k_mem s) pgdir p;
}.

(** From [s] to [s'] only pages of the page table changed, and the pages
    [used] moved from the free list [l] into the table. *)
Record pt_step s s' pgdir l used l' : Prop := {
  ps_list : l = used ++ l';
  ps_ready : pt_ready s' pgdir l';
  ps_owns : forall p, owns (k_mem s') pgdir p <-> owns (k_mem s) pgdir p \/ p ∈ used;
  ps_frame : forall p, p mod PGSIZE = 0 -> ~ owns (k_mem s) pgdir p -> p ∉ used ->
    same_page (k_mem s) (k_mem s') p;
  ps_table : forall i t, 0 <= i < NPDENTRIES -> table (k_mem s) pgdir i = Some t ->
    table (k_mem s') pgdir i = Some t;
  ps_kmem : kmem_step s s';
}.

Lemma kmem_step_unlocked s s' : kmem_step s s' -> kmem_unlocked s -> kmem_unlocked s'.
Proof. by intros (?&?&?&?&->) ?. Qed.

Lemma pt_step_refl s pgdir l : pt_ready s pgdir l -> pt_step s s pgdir l [] l.
Proof.
  intros H. split; [done|done| | |done|apply kmem_step_refl].
  - intros p. split; [by left|]. intros [?|?%elem_of_nil]; done.
  - intros. apply same_page_refl.
Qed.

Lemma pt_step_trans s1 s2 s3 pgdir l1 u1 l2 u2 l3 :
  pt_step s1 s2 pgdir l1 u1 l2 -> pt_step s2 s3 pgdir l2 u2 l3 ->
  pt_step s1 s3 pgdir l1 (u1 ++ u2) l3.
Proof.
  intros [-> R1 O1 F1 T1 K1] [-> R2 O2 F2 T2 K2]. split; [by rewrite app_assoc|done| | |by auto|].
  - intros p. rewrite O2, O1, elem_of_app. tauto.
  - intros p Hp Ho [Hu1 Hu2]%not_elem_of_app.
    eapply same_page_trans; [by apply F1|]. apply F2; [done| |done]. rewrite O1. tauto.
  - by eapply kmem_step_trans.
Qed.

(** A write of an entry through its address. *)
Lemma pt_step_store s pgdir l va a v :
  pt_ready s pgdir l -> pt_addr (k_mem s) pgdir va = Some a ->
  pt_step s (set_k_mem (st (k_mem s) a v) s) pgdir l [] l.
Proof.
  intros [Hf Hu Hwf Hfr] Ha. pose proof (Forall_forall page_ok l) as [HF _].
  assert (forall p, p mod PGSIZE = 0 -> ~ owns (k_mem s) pgdir p ->
    same_page (k_mem s) (st (k_mem s) a v) p) as Hsame.
  { intros p Hp Ho b Hb.
    destruct (pt_addr_Some _ _ _ _ Hwf Ha) as (t & Ht & [Hok ?] & _ & ->).
    assert (p <> t) by (intros ->; apply Ho; right; eauto using PDX_range).
    pose proof (PTX_range va). apply ldb_st_ne. klia. }
  split; ksimpl; [done| | |by auto| |].
  - split; ksimpl; [|done| |].
    + eapply kmem_step_free_ok_mem; [|done]. intros p Hp.
      rewrite <-(Z.add_0_r p). apply (same_page_ld _ _ p 0); [|lia].
      apply Hsame; [|auto]. by apply (HF (free_pages _ _ Hf)).
    + by eapply store_pte_wf.
    + intros p Hp. rewrite store_pte_owns by done. auto.
  - intros p. rewrite store_pte_owns by done. rewrite elem_of_nil. tauto.
  - intros i t Hi. by rewrite (store_pte_table _ _ va) by done.
  - exists (k_freelist s), (k_nfree s), (st (k_mem s) a v), (k_global_var s). by destruct s.
Qed.


(** ** [walkpgdir] *)

Lemma wp_walkpgdir pgdir va Q s :
  Q (default 0 (pt_addr (k_mem s) pgdir va)) s -> wp (walkpgdir pgdir va false) Q s.
Proof.
  unfold walkpgdir, Swap.walkpgdir, pt_addr, table. intros HQ.
  apply wp_bind, wp_load. by destruct (has _ PTE_P).
Qed.

Lemma wp_walkpgdir_Some pgdir va a (alloc : bool) Q s :
  pt_addr (k_mem s) pgdir va = Some a -> Q a s -> wp (walkpgdir pgdir va alloc) Q s.
Proof.
  unfold walkpgdir, Swap.walkpgdir, pt_addr, table. intros Ha HQ.
  apply wp_bind, wp_load. destruct (has _ PTE_P); [|done].
  injection Ha as <-. done.
Qed.

Lemma pt_step_add_table s pgdir l va v :
  pt_ready s pgdir (v :: l) -> table (k_mem s) pgdir (PDX va) = None ->
  let s' := kalloc_state s in
  pt_step s (set_k_mem (add_table (k_mem s) pgdir va v) s') pgdir (v :: l) [v] l.
Proof.
  intros [Hf Hu Hwf Hfr] Hnone s'.
  assert (page_ok v) as Hv by apply (Forall_inv (free_pages _ _ Hf)).
  assert (~ owns (k_mem s) pgdir v) as Hnv by (apply Hfr; by left).
  assert (v ∉ l) as Hvl by (by apply (NoDup_cons_1_1 _ _ (free_nodup _ _ Hf))).
  assert (forall p, p mod PGSIZE = 0 -> ~ owns (k_mem s) pgdir p -> p <> v ->
    same_page (k_mem s) (add_table (k_mem s) pgdir va v) p) as Hsame.
  { intros p Hp Ho Hpv. apply add_table_same_page; try done. intros ->. apply Ho. by left. }
  split; ksimpl; [done| | | | |].
  - pose proof (kalloc_state_free_ok v l s Hf) as Hf'. split; ksimpl; [|done| |].
    + apply kmem_step_free_ok_mem; [|by apply Hf']. intros p Hp.
      pose proof (proj1 (Forall_forall page_ok l) (free_pages _ _ Hf') p Hp) as [Hpa _].
      rewrite <-(Z.add_0_r p). apply (same_page_ld _ _ p 0); [|lia]. apply Hsame; [done| |].
      * apply Hfr. by right.
      * by intros ->.
    + by apply add_table_wf.
    + intros p Hp. rewrite add_table_owns by done. intros [Ho| ->]; [|done].
      revert Ho. apply Hfr. by right.
  - intros p. rewrite add_table_owns by done. by rewrite list_elem_of_singleton.
  - intros p Hp Ho Hpv. apply Hsame; [done..|]. by rewrite list_elem_of_singleton in Hpv.
  - intros i t Hi Ht. rewrite add_table_table by done. rewrite decide_False; [done|].
    intros ->. congruence.
  - destruct (kmem_step_kalloc s) as (f & n & m & g & Hs). unfold s'. rewrite Hs.
    by exists f, n, (add_table (k_mem s) pgdir va v), g.
Qed.

(** 1 when the table for [va] is yet to be allocated. *)
Definition missing (m : mem) pgdir va : nat :=
  match table m pgdir (PDX va) with Some _ => 0 | None => 1 end.

(** [walkpgdir] with [alloc] set finds the entry or adds a table; either
    way no entry changes its value. *)
Lemma wp_walkpgdir_alloc pgdir va l Q s :
  pt_ready s pgdir l ->
  (table (k_mem s) pgdir (PDX va) = None -> l <> []) ->
  (forall a s' used l', pt_step s s' pgdir l used l' ->
     length used = missing (k_mem s) pgdir va ->
     pt_addr (k_mem s') pgdir va = Some a ->
     (forall va', pte_of (k_mem s') pgdir va' = pte_of (k_mem s) pgdir va') -> Q a s') ->
  wp (walkpgdir pgdir va true) Q s.
Proof.
  intros Hr Hl HQ. unfold missing in HQ.
  destruct (table (k_mem s) pgdir (PDX va)) as [t|] eqn:Ht.
  { assert (pt_addr (k_mem s) pgdir va = Some (t + 4 * PTX va)) as Ha
      by (unfold pt_addr; by rewrite Ht).
    eapply wp_walkpgdir_Some; [done|]. eapply HQ; [by apply pt_step_refl|done..]. }
  destruct l as [|v l]; [by destruct Hl|].
  unfold walkpgdir, Swap.walkpgdir. apply wp_bind, wp_load.
  unfold table in Ht. destruct (has _ PTE_P) eqn:HP; [done|]. cbn [negb].
  assert (page_ok v) as Hv by apply (Forall_inv (free_pages _ _ (pr_free _ _ _ Hr))).
  apply wp_bind. eapply wp_kalloc_free; [apply Hr|by apply page_ok_nonzero|apply Hr|].
  rewrite (proj2 (Z.eqb_neq _ _)) by (by apply page_ok_nonzero).
  wp_step. apply wp_modify_mem. wp_step. apply wp_store. wp_steps. ksimpl.
  assert (table (k_mem s) pgdir (PDX va) = None) as Ht' by (unfold table; by rewrite HP).
  assert (~ owns (k_mem s) pgdir v) as Hnv by (apply (pr_fresh _ _ _ Hr); by left).
  eapply (HQ _ _ [v] l).
  - exact (pt_step_add_table s pgdir l va v Hr Ht').
  - done.
  - ksimpl. apply add_table_pt_addr; [apply Hr|done..].
  - intros va'. ksimpl. apply (add_table_pte_of _ _ _ _ (pr_wf _ _ _ Hr)); done.
Qed.

(** ** [mappages] *)

Lemma same_vpage_aligned a va : a mod PGSIZE = 0 -> 0 <= a < two32 -> 0 <= va < two32 ->
  same_vpage a va <-> a <= va < a + PGSIZE.
Proof.
  intros. unfold same_vpage. rewrite !PDX_eq, !PTX_eq, !u32_small by done. klia.
Qed.

(** The entry written for a page at physical address [pa]. *)
Definition entry (pa perm : Z) : Z := Z.lor (Z.lor pa perm) PTE_P.

Lemma entry_range pa perm : pa mod PGSIZE = 0 -> 0 <= pa < two32 -> 0 <= perm < 4096 ->
  0 <= entry pa perm < two32.
Proof.
  intros. unfold entry. rewrite <-Z.lor_assoc.
  assert (0 <= Z.lor perm PTE_P < 4096) by (by apply lor_flags_range).
  rewrite lor_aligned by done. klia.
Qed.

Lemma has_P_entry pa perm : has (entry pa perm) PTE_P = true.
Proof. unfold entry. rewrite has_P, Z.lor_spec. apply orb_true_r. Qed.

(** The tables that mapping [n] pages from [va] on may need. *)
Definition need (m : mem) pgdir va (n : nat) : Z :=
  PDX (va + (Z.of_nat n - 1) * PGSIZE) - PDX va + Z.of_nat (missing m pgdir va).

Lemma missing_Some m pgdir va a : pt_addr m pgdir va = Some a -> missing m pgdir va = 0%nat.
Proof. unfold pt_addr, missing. by destruct (table _ _ _). Qed.

Lemma need_next m m' pgdir va (n : nat) : va mod PGSIZE = 0 -> 0 <= va ->
  va + Z.of_nat (S (S n)) * PGSIZE <= two32 -> missing m' pgdir va = 0%nat ->
  need m' pgdir (va + PGSIZE) (S n) + Z.of_nat (missing m pgdir va) <= need m pgdir va (S (S n)).
Proof.
  intros Hal Hva Hn Hm. unfold need.
  replace (va + PGSIZE + (Z.of_nat (S n) - 1) * PGSIZE)
    with (va + (Z.of_nat (S (S n)) - 1) * PGSIZE) by lia.
  assert (PDX (va + PGSIZE) = PDX va \/ PDX (va + PGSIZE) = PDX va + 1) as [E|E].
  { rewrite !PDX_eq, !u32_small by klia. klia. }
  - assert (missing m' pgdir (va + PGSIZE) = 0%nat) as ->
      by (unfold missing in *; by rewrite E). lia.
  - rewrite E. assert (missing m' pgdir (va + PGSIZE) <= 1)%nat
      by (unfold missing; destruct (table _ _ _); lia). lia.
Qed.

(** The effect of mapping [n] pages from [va] on to [pa]. *)
Definition maps (m m' : mem) pgdir va (n : nat) (pa perm : Z) : Prop :=
  forall va', 0 <= va' < two32 -> pte_of m' pgdir va' =
    if decide (va <= va' < va + Z.of_nat n * PGSIZE)
    then entry (pa + (va' - va) / PGSIZE * PGSIZE) perm else pte_of m pgdir va'.

Lemma maps_S m m1 m2 pgdir va n pa perm : va mod PGSIZE = 0 ->
  maps m m1 pgdir va 1 pa perm -> maps m1 m2 pgdir (va + PGSIZE) n (pa + PGSIZE) perm ->
  maps m m2 pgdir va (S n) pa perm.
Proof.
  intros Hal H1 H2 va' Hva'. rewrite H2, H1 by done.
  destruct (decide (va + PGSIZE <= va' < _)).
  - rewrite decide_True by klia. f_equal. klia.
  - destruct (decide (va <= va' < va + Z.of_nat 1 * PGSIZE)).
    + rewrite decide_True by klia. done.
    + by rewrite decide_False by klia.
Qed.

(** One iteration of the loop of [mappages]. *)
Lemma wp_map_page {A} (k0 k : K A) pgdir va pa perm l Q s :
  pt_ready s pgdir l -> va mod PGSIZE = 0 -> 0 <= va < two32 ->
  pa mod PGSIZE = 0 -> 0 <= pa < two32 -> 0 <= perm < 4096 ->
  has (pte_of (k_mem s) pgdir va) PTE_P = false ->
  (missing (k_mem s) pgdir va <= length l)%nat ->
  (forall s' used l', pt_step s s' pgdir l used l' ->
     length used = missing (k_mem s) pgdir va ->
     missing (k_mem s') pgdir va = 0%nat ->
     maps (k_mem s) (k_mem s') pgdir va 1 pa perm -> wp k Q s') ->
  wp (pte ← walkpgdir pgdir va true;
      if pte =? 0 then k0
      else v ← load pte;
           if has v PTE_P then panic "remap" else store pte (entry pa perm);; k) Q s.
Proof.
  intros Hr Hva Hva' Hpa Hpa' Hperm HP Hl HQ. wp_step.
  apply (wp_walkpgdir_alloc _ _ l); [done| |].
  { unfold missing in Hl. intros E ->. rewrite E in Hl. cbn in Hl. lia. }
  intros a s1 used l1 Hstep Hused Ha Hpte.
  pose proof (ps_ready _ _ _ _ _ _ Hstep) as Hr1. pose proof (pr_wf _ _ _ Hr1) as Hwf1.
  rewrite (proj2 (Z.eqb_neq _ _)) by (by apply (pt_addr_nonzero (k_mem s1) pgdir va)).
  wp_step. apply wp_load.
  assert (ld (k_mem s1) a = pte_of (k_mem s) pgdir va) as ->
    by (rewrite <-Hpte; unfold pte_of; by rewrite Ha).
  rewrite HP. wp_step. apply wp_store.
  pose proof (pt_step_store _ _ _ _ _ (entry pa perm) Hr1 Ha) as Hstep2.
  eapply (HQ _ (used ++ [])); [by eapply pt_step_trans|by rewrite app_nil_r|ksimpl..].
  - apply (missing_Some _ _ _ a). by rewrite (store_pte_pt_addr _ _ va) by done.
  - intros va0 Hva0. rewrite (store_pte_of _ _ va) by done. rewrite Hpte.
    rewrite u32_small by (by apply entry_range).
    rewrite (decide_ext _ _ _ _ (same_vpage_aligned va va0 Hva Hva' Hva0)).
    destruct (decide (va <= va0 < va + PGSIZE)).
    + rewrite decide_True by klia. f_equal. klia.
    + by rewrite decide_False by klia.
Qed.

(** What mapping [n] pages requires of the state. *)
Record map_pre s pgdir va (n : nat) (pa : Z) l : Prop := {
  mp_ready : pt_ready s pgdir l;
  mp_va : va mod PGSIZE = 0 /\ 0 <= va /\ va + Z.of_nat n * PGSIZE <= two32;
  mp_pa : pa mod PGSIZE = 0 /\ 0 <= pa /\ pa + Z.of_nat n * PGSIZE <= two32;
  mp_absent : forall va', va <= va' < va + Z.of_nat n * PGSIZE ->
    has (pte_of (k_mem s) pgdir va') PTE_P = false;
  mp_need : need (k_mem s) pgdir va n <= Z.of_nat (length l);
}.

Lemma missing_need m pgdir va n : va mod PGSIZE = 0 -> 0 <= va -> (0 < n)%nat ->
  va + Z.of_nat n * PGSIZE <= two32 ->
  Z.of_nat (missing m pgdir va) <= need m pgdir va n.
Proof.
  intros. unfold need. rewrite !PDX_eq, !u32_small by klia. klia.
Qed.

Lemma wp_mappages_loop pgdir perm (n : nat) va pa l Q s :
  0 <= perm < 4096 -> map_pre s pgdir va (S n) pa l ->
  (forall s' used l', pt_step s s' pgdir l used l' ->
     Z.of_nat (length used) <= need (k_mem s) pgdir va (S n) ->
     maps (k_mem s) (k_mem s') pgdir va (S n) pa perm -> Q 0 s') ->
  wp (while_ (S n) (mappages_step pgdir (va + Z.of_nat n * PGSIZE) perm) (va, pa)) Q s.
Proof.
  intros Hperm. revert s va pa l.
  induction n as [|n IH]; intros s va pa l [Hr (Hva & Hva0 & Hvan) (Hpa & Hpa0 & Hpan) Habs Hl] HQ;
    apply wp_while_S; unfold mappages_step at 1;
    pose proof (missing_need (k_mem s) pgdir va _ Hva Hva0 (Nat.lt_0_succ _) Hvan) as Hmiss;
    (apply (wp_map_page _ _ pgdir va pa perm l);
      [done|done|klia|done|klia|done|apply Habs; klia|lia|]);
    intros s1 used l1 Hstep Hused Hm1 Hmaps.
  - rewrite (proj2 (Z.eqb_eq _ _)) by lia. wp_steps. eapply HQ; [done|lia|done].
  - rewrite (proj2 (Z.eqb_neq _ _)) by klia. wp_steps.
    rewrite !u32_small by klia.
    pose proof (need_next (k_mem s) (k_mem s1) pgdir va n Hva Hva0 Hvan Hm1) as Hneed.
    pose proof (f_equal length (ps_list _ _ _ _ _ _ Hstep)) as Hlen. rewrite length_app in Hlen.
    replace (va + Z.of_nat (S n) * PGSIZE) with (va + PGSIZE + Z.of_nat n * PGSIZE) by lia.
    apply (IH _ _ _ l1).
    + split; [apply Hstep|klia..| |lia]. intros va' Hva'.
      rewrite Hmaps by klia. rewrite decide_False by klia. apply Habs. klia.
    + intros s2 used2 l2 Hstep2 Hused2 Hmaps2. eapply HQ.
      * by eapply pt_step_trans.
      * rewrite length_app. lia.
      * by eapply maps_S.
Qed.

Lemma wp_mappages pgdir va size pa perm (n : nat) l Q s :
  0 <= perm < 4096 -> (Z.of_nat n - 1) * PGSIZE < size <= Z.of_nat n * PGSIZE -> 0 < size ->
  map_pre s pgdir va n pa l ->
  (forall s' used l', pt_step s s' pgdir l used l' ->
     Z.of_nat (length used) <= need (k_mem s) pgdir va n ->
     maps (k_mem s) (k_mem s') pgdir va n pa perm -> Q 0 s') ->
  wp (mappages pgdir va size pa perm) Q s.
Proof.
  intros Hperm Hsize Hpos Hpre HQ. destruct n as [|n]; [klia|]. unfold mappages.
  destruct (mp_va _ _ _ _ _ _ Hpre) as (Hva & Hva0 & Hvan).
  assert (PGROUNDDOWN va = va) as -> by (rewrite PGROUNDDOWN_eq, u32_small by klia; klia).
  assert (PGROUNDDOWN (u32 (va + size - 1)) = va + Z.of_nat n * PGSIZE) as ->.
  { rewrite PGROUNDDOWN_eq, u32_idem, u32_small by klia. klia. }
  replace (Z.to_nat (u32 (va + Z.of_nat n * PGSIZE - va) / PGSIZE)) with n.
  { by apply (wp_mappages_loop _ _ _ _ _ l). }
  rewrite u32_small by klia.
  replace (va + Z.of_nat n * PGSIZE - va) with (Z.of_nat n * PGSIZE) by lia.
  rewrite Z.div_mul by done. lia.
Qed.

(** ** [setupkvm] *)

(** The kernel's part of every page table. *)
Definition kernel_pte va : Z :=
  let page := va - va mod PGSIZE in
  if decide (KERNBASE <= va < KERNLINK) then entry (page - KERNBASE) PTE_W
  else if decide (KERNLINK <= va < sym_data) then entry (page - KERNBASE) 0
  else if decide (sym_data <= va < KERNBASE + PHYSTOP) then entry (page - KERNBASE) PTE_W
  else if decide (DEVSPACE <= va) then entry page PTE_W
  else 0.

(** A page table built from the first pages [d :: used] of the free list. *)
Record pt_new s s' (d : Z) l used l' : Prop := {
  pn_list : l = d :: used ++ l';
  pn_ready : pt_ready s' d l';
  pn_owns : forall p, owns (k_mem s') d p <-> p = d \/ p ∈ used;
  pn_frame : forall p, p mod PGSIZE = 0 -> p <> d -> p ∉ used -> same_page (k_mem s) (k_mem s') p;
  pn_kmem : kmem_step s s';
}.

(** The zeroed directory. *)
Lemma pt_new_dir s d l : free_ok s (d :: l) -> kmem_unlocked s ->
  let s' := set_k_mem (memset (k_mem s) d 0 PGSIZE) (kalloc_state s) in
  pt_new s s' d (d :: l) [] l.
Proof.
  intros Hf Hu s'. assert (page_ok d) as Hd by apply (Forall_inv (free_pages _ _ Hf)).
  assert (d ∉ l) as Hdl by (by apply (NoDup_cons_1_1 _ _ (free_nodup _ _ Hf))).
  pose proof (kalloc_state_free_ok d l s Hf) as Hf'.
  split; unfold s'; ksimpl; [done| | | |].
  - split; ksimpl; [|done|by apply fresh_wf|].
    + apply kmem_step_free_ok_mem; [|done]. intros p Hp.
      pose proof (proj1 (Forall_forall page_ok l) (free_pages _ _ Hf') p Hp) as [Hpa _].
      rewrite <-(Z.add_0_r p). apply (same_page_ld _ _ p 0); [|lia].
      apply memset_same_page; [done..|]. by intros ->.
    + intros p Hp. rewrite fresh_owns by done. by intros ->.
  - intros p. rewrite fresh_owns, elem_of_nil by done. tauto.
  - intros p Hp Hne _. by apply memset_same_page.
  - destruct (kmem_step_kalloc s) as (f & n & m & g & Hs). rewrite Hs.
    by exists f, n, (memset (k_mem s) d 0 PGSIZE), g.
Qed.

Lemma pt_new_step s1 s2 s3 d l1 u1 l2 u2 l3 :
  pt_new s1 s2 d l1 u1 l2 -> pt_step s2 s3 d l2 u2 l3 -> pt_new s1 s3 d l1 (u1 ++ u2) l3.
Proof.
  intros [-> R1 O1 F1 K1] [-> R2 O2 F2 T2 K2]. split; [by rewrite app_assoc|done| | |].
  - intros p. rewrite O2, O1, elem_of_app. tauto.
  - intros p Hp Hne [Hu1 Hu2]%not_elem_of_app.
    eapply same_page_trans; [by apply F1|]. apply F2; [done| |done]. rewrite O1. tauto.
  - by eapply kmem_step_trans.
Qed.

Lemma entry_nonzero pa perm : entry pa perm <> 0.
Proof. intros E. pose proof (has_P_entry pa perm) as H. rewrite E in H. done. Qed.

Lemma missing_pte m pgdir va va' : pte_of m pgdir va <> 0 -> PDX va = PDX va' ->
  missing m pgdir va' = 0%nat.
Proof.
  unfold pte_of, pt_addr, missing. intros Hne <-. by destruct (table _ _ _).
Qed.

Lemma missing_le m pgdir va : (missing m pgdir va <= 1)%nat.
Proof. unfold missing. destruct (table _ _ _); lia. Qed.

(** One entry of [kmap], of [n] pages. *)
Lemma wp_kmap_entry d virt phys_start phys_end perm (n : nat) l Q s :
  0 <= perm < 4096 -> (0 < n)%nat -> u32 (phys_end - phys_start) = Z.of_nat n * PGSIZE ->
  map_pre s d virt n phys_start l ->
  (forall s' used l', pt_step s s' d l used l' ->
     Z.of_nat (length used) <= need (k_mem s) d virt n ->
     maps (k_mem s) (k_mem s') d virt n phys_start perm -> Q (Next tt) s') ->
  wp (kmap_step d (virt, phys_start, phys_end, perm) tt) Q s.
Proof.
  intros Hperm Hn Hsz Hpre HQ. unfold kmap_step. wp_step. rewrite Hsz.
  apply (wp_mappages _ _ _ _ _ n l); [done|klia|klia|done|].
  intros s' used l' ???. wp_steps. by eapply HQ.
Qed.

Lemma need_1 m d va n : (0 < n)%nat -> PDX (va + (Z.of_nat n - 1) * PGSIZE) = PDX va ->
  need m d va n = Z.of_nat (missing m d va).
Proof. intros ? E. unfold need. rewrite E. lia. Qed.

Lemma pages_exact a : a mod PGSIZE = 0 -> 0 <= a -> Z.of_nat (Z.to_nat (a / PGSIZE)) * PGSIZE = a.
Proof. intros. klia. Qed.

(** The kernel's mappings are in place below [hi], and there are no others. *)
Definition kmapped (m : mem) d (hi : Z) : Prop :=
  forall va, 0 <= va < two32 -> pte_of m d va = if decide (va < hi) then kernel_pte va else 0.

Lemma kmapped_weaken m d hi hi' : kmapped m d hi -> hi <= hi' ->
  (forall va, hi <= va < hi' -> kernel_pte va = 0) -> kmapped m d hi'.
Proof.
  intros H Hle Hz va Hva. rewrite H by done. destruct (decide (va < hi)).
  - by rewrite decide_True by lia.
  - destruct (decide (va < hi')); [|done]. symmetry. apply Hz. lia.
Qed.

(** One entry of [kmap] extends the mapped part; [nd] bounds the tables it
    allocates. *)
Lemma wp_kmap_cons d virt pa pend perm rest (n : nat) l (nd : Z) Q s :
  pt_ready s d l -> 0 <= perm < 4096 -> (0 < n)%nat ->
  u32 (pend - pa) = Z.of_nat n * PGSIZE ->
  virt mod PGSIZE = 0 -> 0 <= virt -> virt + Z.of_nat n * PGSIZE <= two32 ->
  pa mod PGSIZE = 0 -> 0 <= pa -> pa + Z.of_nat n * PGSIZE <= two32 ->
  kmapped (k_mem s) d virt ->
  (forall va, virt <= va < virt + Z.of_nat n * PGSIZE ->
     kernel_pte va = entry (pa + (va - virt) / PGSIZE * PGSIZE) perm) ->
  need (k_mem s) d virt n <= nd -> nd <= Z.of_nat (length l) ->
  (forall s' used l', pt_step s s' d l used l' -> Z.of_nat (length used) <= nd ->
     kmapped (k_mem s') d (virt + Z.of_nat n * PGSIZE) -> wp (for_ rest (kmap_step d) tt) Q s') ->
  wp (for_ ((virt, pa, pend, perm) :: rest) (kmap_step d) tt) Q s.
Proof.
  intros Hr Hperm Hn Hsz ?????? Hk Hspec Hnd Hl HQ. cbn [for_]. wp_step.
  apply (wp_kmap_entry _ _ _ _ _ n l); [done..| |].
  - split; [done..| |lia]. intros va' Hva'. by rewrite Hk, decide_False by klia.
  - intros s' used l' Hst Hus Hm. eapply HQ; [done|lia|].
    intros va Hva. rewrite Hm, Hk by done.
    destruct (decide (virt <= va < _)); [rewrite decide_True, Hspec by lia; done|].
    destruct (decide (va < virt)); [by rewrite decide_True by klia|by rewrite decide_False by lia].
Qed.

Lemma need_range m d va (n : nat) nd : (0 < n)%nat -> va mod PGSIZE = 0 -> 0 <= va ->
  va + Z.of_nat n * PGSIZE <= two32 ->
  (va + (Z.of_nat n - 1) * PGSIZE) / 0x400000 - va / 0x400000 + Z.of_nat (missing m d va) <= nd ->
  need m d va n <= nd.
Proof. intros. unfold need. by rewrite !PDX_eq, !u32_small by klia. Qed.

Lemma kmapped_missing m d hi va : kmapped m d hi -> KERNBASE < hi ->
  KERNBASE <= va < KERNBASE + 0x400000 -> missing m d va = 0%nat.
Proof.
  intros Hk Hhi Hva. apply (missing_pte _ _ KERNBASE).
  - rewrite Hk, decide_True by done. apply entry_nonzero.
  - rewrite !PDX_eq, !u32_small by klia. klia.
Qed.

(** Evaluate [kernel_pte] where the region is known. *)
Ltac kernel_pte_cases :=
  unfold kernel_pte, KERNLINK in *;
  repeat first [rewrite decide_False by klia|rewrite decide_True by klia]; try (f_equal; klia).

Lemma kernel_pte_user va : 0 <= va < KERNBASE -> kernel_pte va = 0.
Proof. intros. pose proof data_range. by kernel_pte_cases. Qed.

Lemma entry_U pa perm : pa mod PGSIZE = 0 -> has (entry pa perm) PTE_U = has perm PTE_U.
Proof.
  intros Hpa. unfold entry. rewrite !has_U, !Z.lor_spec, (testbit_aligned pa) by (done || lia).
  cbn. apply orb_false_r.
Qed.

(** The kernel's pages are not accessible to user programs. *)
Lemma kernel_pte_U va : has (kernel_pte va) PTE_U = false.
Proof.
  assert (forall x, (va - va mod PGSIZE - x * PGSIZE) mod PGSIZE = 0) as Hal by (intros; klia).
  unfold kernel_pte. change KERNBASE with (0x80000 * PGSIZE) at 1 2 3.
  repeat case_decide; rewrite ?entry_U; try done;
    first [apply (Hal 0x80000)|rewrite <-(Z.sub_0_r (_ - _)); apply (Hal 0)].
Qed.

Lemma wp_kmap_loop d l Q s :
  pt_ready s d l -> (9 <= length l)%nat -> sym_data < KERNBASE + PHYSTOP ->
  (forall va, pte_of (k_mem s) d va = 0) ->
  (forall s' used l', pt_step s s' d l used l' -> (length used <= 9)%nat ->
     (forall va, 0 <= va < two32 -> pte_of (k_mem s') d va = kernel_pte va) -> Q (inl tt) s') ->
  wp (for_ kmap (kmap_step d) tt) Q s.
Proof.
  intros Hr Hlen Hdp Hz HQ. pose proof data_range as Hdr. pose proof data_aligned as Hda.
  assert (kmapped (k_mem s) d KERNBASE) as K0.
  { intros va Hva. rewrite Hz. destruct (decide (va < KERNBASE)); [|done]. by kernel_pte_cases. }
  unfold kmap, KERNLINK in *. change (V2P (KERNBASE + EXTMEM)) with EXTMEM.
  rewrite (V2P_high sym_data) by klia.
  apply (wp_kmap_cons _ _ _ _ _ _ 256 l 1); [done|done|lia|done..| | |lia|].
  { intros. by kernel_pte_cases. }
  { apply need_range; [lia|done..|]. pose proof (missing_le (k_mem s) d KERNBASE). klia. }
  change (KERNBASE + Z.of_nat 256 * PGSIZE) with (KERNBASE + EXTMEM).
  intros s1 u1 l1 St1 Hu1 K1.
  pose proof (f_equal length (ps_list _ _ _ _ _ _ St1)) as L1. rewrite length_app in L1.
  apply (wp_kmap_cons _ _ _ _ _ _ (Z.to_nat ((sym_data - KERNBASE - EXTMEM) / PGSIZE)) l1 0);
    [apply St1|done|klia|rewrite u32_small by klia; klia|done|done|klia|done|done|klia|done| | |lia|].
  { intros. by kernel_pte_cases. }
  { apply need_range; [klia|done|done|klia|]. rewrite (kmapped_missing _ _ _ _ K1) by done. klia. }
  rewrite pages_exact by klia. replace (_ + _) with sym_data by lia.
  intros s2 u2 l2 St2 Hu2 K2.
  pose proof (f_equal length (ps_list _ _ _ _ _ _ St2)) as L2. rewrite length_app in L2.
  apply (wp_kmap_cons _ _ _ _ _ _ (Z.to_nat ((PHYSTOP + KERNBASE - sym_data) / PGSIZE)) l2 0);
    [apply St2|done|klia|rewrite u32_small by klia; klia|done|klia|klia|klia|klia|klia|done| | |lia|].
  { intros. by kernel_pte_cases. }
  { apply need_range; [klia|done|klia|klia|]. rewrite (kmapped_missing _ _ _ _ K2) by klia. klia. }
  rewrite pages_exact by klia. replace (_ + _) with (KERNBASE + PHYSTOP) by lia.
  intros s3 u3 l3 St3 Hu3 K3.
  pose proof (f_equal length (ps_list _ _ _ _ _ _ St3)) as L3. rewrite length_app in L3.
  assert (Z.of_nat (Z.to_nat 8192) = 8192) as E8 by lia.
  apply (wp_kmap_cons _ _ _ _ _ _ (Z.to_nat 8192) l3 8); rewrite ?E8;
    [apply St3|done|lia|done..| | | |lia|].
  { apply (kmapped_weaken _ _ _ _ K3); [done|]. intros. by kernel_pte_cases. }
  { intros. by kernel_pte_cases. }
  { apply need_range; rewrite ?E8; [lia|done..|].
    pose proof (missing_le (k_mem s3) d DEVSPACE). klia. }
  intros s4 u4 l4 St4 Hu4 K4. wp_steps.
  apply (HQ _ (u1 ++ (u2 ++ (u3 ++ u4))) l4).
  - repeat (eapply pt_step_trans; [done|]). done.
  - rewrite !length_app. lia.
  - intros va Hva. by rewrite K4, decide_True by klia.
Qed.

Lemma wp_setupkvm l Q s :
  free_ok s l -> kmem_unlocked s -> (10 <= length l)%nat ->
  (forall d s' used l', pt_new s s' d l used l' -> (length used <= 9)%nat ->
     (forall va, 0 <= va < two32 -> pte_of (k_mem s') d va = kernel_pte va) -> Q d s') ->
  wp setupkvm Q s.
Proof.
  intros Hf Hu Hlen HQ. destruct l as [|d l]; [cbn in Hlen; lia|].
  assert (page_ok d) as Hd by apply (Forall_inv (free_pages _ _ Hf)).
  pose proof data_range as Hdr. cbn [length] in Hlen.
  assert (sym_data < KERNBASE + PHYSTOP) as Hdp by (destruct Hd; lia).
  unfold setupkvm. wp_step. eapply wp_kalloc_free; [done|by apply page_ok_nonzero|done|].
  rewrite (proj2 (Z.eqb_neq _ _)) by (by apply page_ok_nonzero).
  wp_step. apply wp_modify_mem.
  replace (DEVSPACE <? P2V PHYSTOP) with false by done.
  pose proof (pt_new_dir s d l Hf Hu) as Hnew.
  wp_step. apply (wp_kmap_loop _ l); [apply Hnew|lia|done| |].
  { intros va. ksimpl. by apply fresh_pte_of. }
  intros s' used l' Hst Hused Hk. wp_steps. cbn.
  eapply (HQ d _ ([] ++ used)); [by eapply pt_new_step|done|done].
Qed.
End mapping.

(** ** Properties *)

Section properties.
Context {I : KernelImage} {Iok : KernelImageOk I}.

Lemma entry_addr pa perm : pa mod PGSIZE = 0 -> 0 <= pa < two32 -> 0 <= perm < 4096 ->
  PTE_ADDR (entry pa perm) = pa.
Proof.
  intros. unfold entry. rewrite <-Z.lor_assoc. apply PTE_ADDR_lor; [done|done|].
  by apply lor_flags_range.
Qed.

Lemma entry_W pa perm : pa mod PGSIZE = 0 -> has (entry pa perm) PTE_W = has perm PTE_W.
Proof.
  intros Hpa. unfold entry. rewrite !has_W, !Z.lor_spec, (testbit_aligned pa) by (done || lia).
  cbn. apply orb_false_r.
Qed.

(** The kernel's window on physical memory. *)
Lemma kernel_pte_window va : KERNBASE <= va < KERNBASE + PHYSTOP ->
  has (kernel_pte va) PTE_P = true /\ has (kernel_pte va) PTE_U = false /\
  PTE_ADDR (kernel_pte va) = V2P (PGROUNDDOWN va) /\
  has (kernel_pte va) PTE_W = negb (bool_decide (KERNLINK <= va < sym_data)).
Proof.
  intros Hva. pose proof data_range as Hdr.
  set (pa := va - va mod PGSIZE - KERNBASE).
  assert (pa mod PGSIZE = 0) as Hpa by (unfold pa; klia).
  assert (0 <= pa < two32) as Hpa' by (unfold pa; klia).
  assert (V2P (PGROUNDDOWN va) = pa) as Hv.
  { rewrite PGROUNDDOWN_eq, u32_small by klia. rewrite V2P_high by klia. done. }
  rewrite Hv, kernel_pte_U. unfold kernel_pte. fold pa.
  assert (KERNLINK = KERNBASE + EXTMEM) as EK by done.
  destruct (decide (KERNBASE <= va < KERNLINK)); [|destruct (decide (KERNLINK <= va < sym_data))].
  - rewrite bool_decide_false by lia. rewrite has_P_entry, entry_addr, entry_W by done. done.
  - rewrite bool_decide_true by lia. rewrite has_P_entry, entry_addr, entry_W by done. done.
  - rewrite bool_decide_false by lia. rewrite decide_True by lia.
    rewrite has_P_entry, entry_addr, entry_W by done. done.
Qed.

(** [setupkvm] returns a page table that shows all of physical memory at
    [KERNBASE], page by page, to the kernel only, with the kernel's text and
    read-only data (from [KERNLINK] to [data]) not writable, the devices at
    their own addresses, and nothing in the user half.  It uses at most ten
    pages of the free list and changes no other page of memory. *)
Theorem setupkvm_maps_kernel l s :
  free_ok s l -> kmem_unlocked s -> (10 <= length l)%nat ->
  wp setupkvm (fun d s' => d <> 0 /\ pt_wf (k_mem s') d /\
    (forall va, 0 <= va < KERNBASE -> pte_of (k_mem s') d va = 0) /\
    (forall va, KERNBASE <= va < KERNBASE + PHYSTOP ->
       let e := pte_of (k_mem s') d va in
       has e PTE_P = true /\ has e PTE_U = false /\ PTE_ADDR e = V2P (PGROUNDDOWN va) /\
       has e PTE_W = negb (bool_decide (KERNLINK <= va < sym_data))) /\
    (forall va, DEVSPACE <= va < two32 ->
       pte_of (k_mem s') d va = entry (PGROUNDDOWN va) PTE_W) /\
    exists used l', l = used ++ l' /\ (length used <= 10)%nat /\ free_ok s' l' /\
      forall p, p mod PGSIZE = 0 -> p ∉ used -> same_page (k_mem s) (k_mem s') p) s.
Proof.
  intros Hf Hu Hlen. apply (wp_setupkvm l); [done..|].
  intros d s' used l' Hnew Hused Hk. pose proof (pr_wf _ _ _ (pn_ready _ _ _ _ _ _ Hnew)) as Hwf.
  split; [apply page_ok_nonzero, Hwf|]. split; [done|]. split; [|split; [|split]].
  - intros va Hva. rewrite Hk by klia. by apply kernel_pte_user.
  - intros va Hva. cbn zeta. rewrite Hk by klia. by apply kernel_pte_window.
  - intros va Hva. rewrite Hk by klia. pose proof data_range as Hdr. pose proof end_range as Her.
    unfold kernel_pte. rewrite !decide_False by (unfold KERNLINK in *; klia).
    rewrite decide_True by lia. rewrite PGROUNDDOWN_eq, u32_small by klia. done.
  - exists (d :: used), l'. split; [apply (pn_list _ _ _ _ _ _ Hnew)|]. split; [cbn; lia|].
    split; [apply (pr_free _ _ _ (pn_ready _ _ _ _ _ _ Hnew))|].
    intros p Hp Hn. apply not_elem_of_cons in Hn as [??]. by apply (pn_frame _ _ _ _ _ _ Hnew).
Qed.
End properties.

(** ** Instances *)

Lemma setupkvm_maps_kernel_witness :
  wp (@setupkvm img) (fun d s' => d <> 0 /\ pte_of (k_mem s') d 0x1000 = 0) state0.
Proof.
  eapply wp_mono.
  - apply (@setupkvm_maps_kernel img img_ok free0).
    + apply sample_free_ok.
    + intros _. apply not_elem_of_nil.
    + apply Nat.leb_le. reflexivity.
  - intros d s' (Hd & _ & Hu & _). split; [exact Hd|]. apply Hu. split; [discriminate|reflexivity].
Defined.
