(* ===== verification/SampleTables.v ===== *)
(** * The page table of the sample state

    The state of Sample.v satisfies the invariants that the theorems on page
    tables ask for. *)

From Stdlib Require Import ZArith Lia.
From stdpp Require Import base strings numbers gmap list.
From S2P Require Import Prelude Mmu Memory Kernel Sample Kmem Rmap PageTable VmKernel.

#[local] Existing Instance img.

Definition entry0 : Z := Z.lor (V2P frame0) 7.

Lemma sample_table i : 0 <= i < NPDENTRIES ->
  table mem0 pgdir0 i = if decide (i = 0) then Some table0 else None.
Proof. intros. unfold table. rewrite mem0_dir by done. by case_decide. Qed.

Lemma sample_wf : pt_wf mem0 pgdir0.
Proof.
  split; [apply (sample_page_ok 0); lia|..].
  - intros i t Hi. rewrite sample_table by done. case_decide; [|done]. intros [= <-].
    split; [apply (sample_page_ok 1); lia|done].
  - intros i j t Hi Hj. rewrite !sample_table by done. by repeat case_decide; subst.
Qed.

Lemma sample_owns p : owns mem0 pgdir0 p -> p = pgdir0 \/ p = table0.
Proof.
  intros [->|(i & Hi & Ht)]; [by left|right]. rewrite sample_table in Ht by done.
  case_decide; congruence.
Qed.

Lemma sample_pte va : 0 <= va < two32 ->
  pte_of mem0 pgdir0 va = if decide (va < PGSIZE) then entry0 else 0.
Proof.
  intros Hva. unfold pte_of, pt_addr. rewrite sample_table by apply PDX_range.
  rewrite PDX_eq, u32_small by done. case_decide as Hd; cbn.
  - rewrite mem0_table by apply PTX_range. rewrite PTX_eq, u32_small by done.
    destruct (decide (va < PGSIZE)).
    + by rewrite decide_True by klia.
    + by rewrite decide_False by klia.
  - by rewrite decide_False by klia.
Qed.

Lemma sample_ready : pt_ready state0 pgdir0 free0.
Proof.
  split; [apply sample_free_ok|intros _; apply not_elem_of_nil|apply sample_wf|].
  intros p (i & Hi & ->)%sample_free Ho%sample_owns. unfold pgdir0, table0 in *. klia.
Qed.

(** No entry maps a free page. *)
Lemma sample_unowned p : p ∈ free0 -> mapped_by state0 (V2P p / PGSIZE) [].
Proof.
  intros (i & Hi & ->)%sample_free. exists no_owner. split; [|by split; [split|]].
  rewrite V2P_high by (unfold pgdir0; klia). unfold zlookup, state0. ksimpl.
  rewrite (proj2 (Z.ltb_ge _ _)) by (unfold pgdir0; klia).
  rewrite list_lookup_insert_ne.
  - apply lookup_replicate_2. unfold pgdir0. klia.
  - change (Z.to_nat (V2P frame0 / PGSIZE)) with (Z.to_nat 0x302). unfold pgdir0. klia.
Qed.

(** The frame of the user page is not used for anything else. *)
Lemma sample_frame0 : page_ok frame0 /\ ~ owns mem0 pgdir0 frame0 /\ frame0 ∉ free0.
Proof.
  split; [apply (sample_page_ok 2); lia|]. split.
  - intros Ho%sample_owns. unfold frame0, pgdir0, table0 in Ho. lia.
  - intros (i & Hi & E)%sample_free. unfold frame0, pgdir0 in E. klia.
Qed.

(** A state in which the user page has a second owner, after a fault at
    address 5. *)
Definition state_shared : kstate :=
  set_k_cr2 5 (set_k_rmap (<[Z.to_nat (V2P frame0 / PGSIZE) := two_owners table0 0x80200000]>
    (k_rmap state0)) state0).

Lemma sample_shared_ready : pt_ready state_shared pgdir0 free0.
Proof. destruct sample_ready as [[] ???]. by split; [split|..]. Qed.

Lemma sample_shared_mapped : mapped_by state_shared (V2P frame0 / PGSIZE) [table0; 0x80200000].
Proof. exists (two_owners table0 0x80200000). split; [done|]. split; [by split|done]. Qed.

Lemma sample_shared_unowned : mapped_by state_shared (V2P 0x80303000 / PGSIZE) [].
Proof.
  exists no_owner. split; [|by split; [split|]].
  unfold state_shared, state0, zlookup. ksimpl.
  change (V2P 2150641664 / PGSIZE) with 0x303. change (V2P frame0 / PGSIZE) with 0x302.
  rewrite (proj2 (Z.ltb_ge _ _)) by lia. rewrite !list_lookup_insert_ne by lia.
  apply lookup_replicate_2. lia.
Qed.
