(* ===== verification/VmUser.v ===== *)
(** * User address spaces

    [copyuvm], [allocuvm], [deallocuvm] and [copyout] of [vm.c] on the page
    table read as a function. *)

From Stdlib Require Import ZArith Lia.
From stdpp Require Import base strings numbers gmap list.
From S2P Require Import Prelude Mmu Memory Kernel Sample Sleeplock Bio Kmem Rmap PageTable Swap.
From S2P Require Import Kalloc Vm VmKernel SampleTables.

Section user.
Context {I : KernelImage} {Iok : KernelImageOk I}.
Implicit Types (s : kstate) (pgdir va p : Z) (l used : list Z).

(** ** Two page tables *)

(** [P] and [d] are page tables without common pages. *)
Record two_tables s (P d : Z) l : Prop := {
  tt_l : pt_ready s P l;
  tt_r : pt_ready s d l;
  tt_disj : forall p, owns (k_mem s) P p -> owns (k_mem s) d p -> False;
}.

Lemma two_tables_sym s P d l : two_tables s P d l -> two_tables s d P l.
Proof. intros [Hl Hr Hd]. split; [done|done|eauto]. Qed.

(** Work on one of them does not touch the other. *)
Record untouched (m m' : mem) P : Prop := {
  ut_table : forall i, 0 <= i < NPDENTRIES -> table m' P i = table m P i;
  ut_addr : forall va, pt_addr m' P va = pt_addr m P va;
  ut_pte : forall va, pte_of m' P va = pte_of m P va;
  ut_owns : forall p, owns m' P p <-> owns m P p;
}.

Lemma untouched_frame m m' P : (forall p, owns m P p -> same_page m m' p) -> untouched m m' P.
Proof.
  intros H. split; intros.
  - by apply frame_table.
  - by apply frame_pt_addr.
  - by apply frame_pte_of.
  - by apply frame_owns.
Qed.

Lemma two_tables_frame s s' P d l used l' :
  two_tables s P d l -> pt_step s s' d l used l' ->
  forall p, owns (k_mem s) P p -> same_page (k_mem s) (k_mem s') p.
Proof.
  intros [Hl Hr Hd] Hst p Hp.
  assert (page_ok p) as [Hpa _] by (eapply owns_page_ok; [apply Hl|done]).
  apply (ps_frame _ _ _ _ _ _ Hst); [done|by eauto|].
  intros Hu. apply (pr_fresh _ _ _ Hl p); [|done].
  rewrite (ps_list _ _ _ _ _ _ Hst). apply elem_of_app. by left.
Qed.

Lemma two_tables_step s s' P d l used l' :
  two_tables s P d l -> pt_step s s' d l used l' ->
  two_tables s' P d l' /\ untouched (k_mem s) (k_mem s') P.
Proof.
  intros Htt Hst. pose proof (two_tables_frame _ _ _ _ _ _ _ Htt Hst) as Hsame.
  pose proof (untouched_frame _ _ _ Hsame) as Hut. split; [|done].
  destruct Htt as [Hl Hr Hd]. pose proof (ps_ready _ _ _ _ _ _ Hst) as Hr'. split; [|done|].
  - split; [apply Hr'|apply Hr'| |].
    + eapply frame_pt_wf; [done|apply Hl].
    + intros p Hp. rewrite (ut_owns _ _ _ Hut). apply (pr_fresh _ _ _ Hl).
      rewrite (ps_list _ _ _ _ _ _ Hst). apply elem_of_app. by right.
  - intros p. rewrite (ut_owns _ _ _ Hut), (ps_owns _ _ _ _ _ _ Hst). intros HP [Hd'|Hu]; [by eauto|].
    apply (pr_fresh _ _ _ Hl p); [|done]. rewrite (ps_list _ _ _ _ _ _ Hst). apply elem_of_app. by left.
Qed.

(** Taking the page [v] off the free list and filling it. *)
Lemma pt_take_page s P v l m1 : pt_ready s P (v :: l) ->
  (forall p, p mod PGSIZE = 0 -> p <> v -> same_page (k_mem s) m1 p) ->
  pt_ready (set_k_mem m1 (kalloc_state s)) P l /\ untouched (k_mem s) m1 P.
Proof.
  intros [Hf Hu Hwf Hfr] Hsame.
  assert (v ∉ l) as Hvl by (by apply (NoDup_cons_1_1 _ _ (free_nodup _ _ Hf))).
  assert (forall p, owns (k_mem s) P p -> same_page (k_mem s) m1 p) as Hown.
  { intros p Hp. apply Hsame; [by destruct (owns_page_ok _ _ _ Hwf Hp)|].
    intros ->. revert Hp. apply Hfr. by left. }
  pose proof (untouched_frame _ _ _ Hown) as Hut. split; [|done].
  pose proof (kalloc_state_free_ok v l s Hf) as Hf'. split; ksimpl; [|done| |].
  - apply kmem_step_free_ok_mem; [|done]. intros p Hp.
    pose proof (proj1 (Forall_forall page_ok l) (free_pages _ _ Hf') p Hp) as [Hpa _].
    rewrite <-(Z.add_0_r p). apply (same_page_ld _ _ p 0); [|lia]. apply Hsame; [done|by intros ->].
  - by eapply frame_pt_wf.
  - intros p Hp. rewrite (ut_owns _ _ _ Hut). apply Hfr. by right.
Qed.

(** ** Entries *)

Lemma pte_present_addr m pgdir va : has (pte_of m pgdir va) PTE_P = true ->
  exists a, pt_addr m pgdir va = Some a /\ ld m a = pte_of m pgdir va.
Proof. unfold pte_of. destruct (pt_addr m pgdir va); [by eauto|done]. Qed.

Lemma pt_step_addr s s' pgdir l used l' va a : pt_step s s' pgdir l used l' ->
  pt_addr (k_mem s) pgdir va = Some a -> pt_addr (k_mem s') pgdir va = Some a.
Proof.
  intros Hst. unfold pt_addr. destruct (table (k_mem s) pgdir (PDX va)) eqn:E; [|done].
  by rewrite (ps_table _ _ _ _ _ _ Hst _ _ (PDX_range va) E).
Qed.

Lemma pte_of_range m pgdir va : 0 <= pte_of m pgdir va < two32.
Proof. unfold pte_of. destruct (pt_addr _ _ _); [apply ld_range|done]. Qed.

(** The entry with the write permission taken away. *)
Definition readonly (e : Z) : Z := Z.land e (Z.lnot PTE_W).

Lemma readonly_range e : 0 <= e < two32 -> 0 <= readonly e < two32.
Proof. apply land_u32_range. Qed.
Lemma readonly_W e : has (readonly e) PTE_W = false.
Proof. unfold readonly. flags. apply andb_false_r. Qed.
Lemma readonly_P e : has (readonly e) PTE_P = has e PTE_P.
Proof. unfold readonly. flags. apply andb_true_r. Qed.
Lemma readonly_U e : has (readonly e) PTE_U = has e PTE_U.
Proof. unfold readonly. flags. apply andb_true_r. Qed.
Lemma readonly_addr e : 0 <= e < two32 -> PTE_ADDR (readonly e) = PTE_ADDR e.
Proof. intros. by apply PTE_ADDR_ldiff. Qed.

(** [s'] differs from [s] in memory, the allocator, the reverse map and the
    process table at most. *)
Definition vm_step s s' : Prop :=
  exists f n m g r ps, s' = set_k_freelist f (set_k_nfree n (set_k_mem m (set_k_global_var g
    (set_k_rmap r (set_k_proc ps s))))).

Lemma vm_step_kmem s s' : kmem_step s s' -> vm_step s s'.
Proof. intros (f & n & m & g & ->). exists f, n, m, g, (k_rmap s), (k_proc s). by destruct s. Qed.
Lemma vm_step_rmap pg s s' : rmap_step pg s s' -> vm_step s s'.
Proof.
  intros (r & -> & _). exists (k_freelist s), (k_nfree s), (k_mem s), (k_global_var s), r, (k_proc s).
  by destruct s.
Qed.
Lemma vm_step_proc ps s : vm_step s (set_k_proc ps s).
Proof.
  exists (k_freelist s), (k_nfree s), (k_mem s), (k_global_var s), (k_rmap s), ps. by destruct s.
Qed.
Lemma vm_step_trans s1 s2 s3 : vm_step s1 s2 -> vm_step s2 s3 -> vm_step s1 s3.
Proof. intros (?&?&?&?&?&?&->) (f&n&m&g&r&ps&->). by exists f, n, m, g, r, ps. Qed.
Lemma vm_step_unlocked s s' : vm_step s s' -> kmem_unlocked s -> kmem_unlocked s'.
Proof. by intros (?&?&?&?&?&?&->) ?. Qed.

(** ** Steps on two page tables *)

(** The table [d] grew by the pages [used]; [P] has the same pages; apart
    from these pages memory is unchanged. *)
Record tt_step s s' (P d : Z) l used l' : Prop := {
  ts_list : l = used ++ l';
  ts_tables : two_tables s' P d l';
  ts_owns_l : forall p, owns (k_mem s') P p <-> owns (k_mem s) P p;
  ts_owns_r : forall p, owns (k_mem s') d p <-> owns (k_mem s) d p \/ p ∈ used;
  ts_frame : forall p, p mod PGSIZE = 0 -> ~ owns (k_mem s) P p -> ~ owns (k_mem s) d p ->
    p ∉ used -> same_page (k_mem s) (k_mem s') p;
  ts_addr_l : forall va, pt_addr (k_mem s') P va = pt_addr (k_mem s) P va;
  ts_addr_r : forall va a, pt_addr (k_mem s) d va = Some a -> pt_addr (k_mem s') d va = Some a;
  ts_vm : vm_step s s';
}.

Lemma vm_step_refl s : vm_step s s.
Proof. apply vm_step_kmem, kmem_step_refl. Qed.

Lemma tt_step_refl s P d l : two_tables s P d l -> tt_step s s P d l [] l.
Proof.
  intros Htt. split; [done..| | |done|done|apply vm_step_refl].
  - intros p. rewrite elem_of_nil. tauto.
  - intros. apply same_page_refl.
Qed.

Lemma tt_step_trans s1 s2 s3 P d l1 u1 l2 u2 l3 :
  tt_step s1 s2 P d l1 u1 l2 -> tt_step s2 s3 P d l2 u2 l3 ->
  tt_step s1 s3 P d l1 (u1 ++ u2) l3.
Proof.
  intros [-> T1 P1 D1 F1 A1 B1 V1] [-> T2 P2 D2 F2 A2 B2 V2].
  split; [by rewrite app_assoc|done| | | | |by auto|by eapply vm_step_trans].
  - intros p. by rewrite P2, P1.
  - intros p. rewrite D2, D1, elem_of_app. tauto.
  - intros p Hp HoP Hod [Hu1 Hu2]%not_elem_of_app.
    eapply same_page_trans; [by apply F1|]. apply F2; [done| | |done].
    + by rewrite P1.
    + rewrite D1. tauto.
  - intros va. by rewrite A2, A1.
Qed.

Lemma tt_step_r s s' P d l used l' :
  two_tables s P d l -> pt_step s s' d l used l' -> tt_step s s' P d l used l'.
Proof.
  intros Htt Hst. destruct (two_tables_step _ _ _ _ _ _ _ Htt Hst) as [Htt' Hut].
  split; [apply Hst|done|apply Hut|apply Hst| |apply Hut| |by apply vm_step_kmem, Hst].
  - intros p Hp _ Hd Hu. by apply (ps_frame _ _ _ _ _ _ Hst).
  - intros va a. by eapply pt_step_addr.
Qed.

(** Storing an entry of the left table. *)
Lemma tt_step_store_l s P d l va a v :
  two_tables s P d l -> pt_addr (k_mem s) P va = Some a ->
  let s' := set_k_mem (st (k_mem s) a v) s in
  tt_step s s' P d l [] l /\ untouched (k_mem s) (k_mem s') d.
Proof.
  intros Htt Ha s'. pose proof (pt_step_store s P l va a v (tt_l _ _ _ _ Htt) Ha) as Hst.
  destruct (two_tables_step _ _ _ _ _ _ _ (two_tables_sym _ _ _ _ Htt) Hst) as [Htt' Hut].
  split; [|done]. split; [done|by apply two_tables_sym| | | | | |by apply vm_step_kmem, Hst].
  - intros p. pose proof (ps_owns _ _ _ _ _ _ Hst p) as Ho. rewrite elem_of_nil in Ho.
    fold s' in Ho. tauto.
  - intros p. pose proof (ut_owns _ _ _ Hut p) as Ho. fold s' in Ho. rewrite elem_of_nil. tauto.
  - intros p Hp HP _ Hu. by apply (ps_frame _ _ _ _ _ _ Hst).
  - intros va'. unfold s'. ksimpl. apply (store_pte_pt_addr _ _ va); [apply Htt|done].
  - intros va' a' Ha'. pose proof (ut_addr _ _ _ Hut va') as E. fold s' in E. by rewrite E.
Qed.

(** Steps that leave memory and the allocator alone. *)
Lemma pt_ready_vm r ps s pgdir l : pt_ready s pgdir l ->
  pt_ready (set_k_rmap r (set_k_proc ps s)) pgdir l.
Proof. intros [[] ???]. by split; [split|..]. Qed.

Lemma tt_step_vm r ps s P d l : two_tables s P d l ->
  tt_step s (set_k_rmap r (set_k_proc ps s)) P d l [] l.
Proof.
  intros [Hl Hr Hd]. split; [done| |done| | |done|done|].
  - split; [by apply pt_ready_vm..|done].
  - intros p. rewrite elem_of_nil. done || (ksimpl; tauto).
  - intros. apply same_page_refl.
  - exists (k_freelist s), (k_nfree s), (k_mem s), (k_global_var s), r, ps. by destruct s.
Qed.

(** ** One page of [copyuvm] *)

Lemma pte_of_vpage m pgdir va va' : same_vpage va va' -> pte_of m pgdir va = pte_of m pgdir va'.
Proof. intros [H1 H2]. unfold pte_of, pt_addr. by rewrite H1, H2. Qed.

(** [r'] is [r] except at [pg]. *)
Definition rmap_frame (pg : Z) s s' : Prop :=
  forall pg', pg' <> pg -> zlookup (k_rmap s') pg' = zlookup (k_rmap s) pg'.

Definition add_rss (delta : Z) (pr : proc) : proc := set_p_rss (u32 (p_rss pr + delta)) pr.

Lemma add_rss_add x y pr : add_rss x (add_rss y pr) = add_rss (y + x) pr.
Proof.
  unfold add_rss, u32. cbn [p_rss set_p_rss]. rewrite Zplus_mod_idemp_l, Z.add_assoc. done.
Qed.

Lemma add_rss_0 pr : 0 <= p_rss pr < two32 -> add_rss 0 pr = pr.
Proof. intros. unfold add_rss. rewrite Z.add_0_r, u32_small by done. by destruct pr. Qed.

(** Both tables map page [va] by the entry [e], and nothing else changed. *)
Definition set_both (m m' : mem) (P d va e : Z) : Prop :=
  forall va', 0 <= va' < two32 ->
    pte_of m' P va' = (if decide (same_vpage va va') then e else pte_of m P va') /\
    pte_of m' d va' = (if decide (same_vpage va va') then e else pte_of m d va').

Record page_shared s s' (P d va e : Z) (own : list Z) (child : nat) pr l used l' : Prop := {
  sh_step : tt_step s s' P d l used l';
  sh_used : (length used <= missing (k_mem s) d va)%nat;
  sh_missing : missing (k_mem s') d va = 0%nat;
  sh_ptes : set_both (k_mem s) (k_mem s') P d va (readonly e);
  sh_owner : exists a, pt_addr (k_mem s') d va = Some a /\
    mapped_by s' (PTE_ADDR e / PGSIZE) (a :: own);
  sh_rmap : rmap_frame (PTE_ADDR e / PGSIZE) s s';
  sh_proc : k_proc s' = <[child := add_rss PGSIZE pr]> (k_proc s);
}.

Lemma kmem_step_rmap s s' : kmem_step s s' -> k_rmap s' = k_rmap s /\ k_proc s' = k_proc s.
Proof. by intros (?&?&?&?&->). Qed.

(** Its second half, once the child has an entry at [b] for the page: the
    parent's entry loses the write permission and is copied, and the child's
    is recorded in the reverse map. *)
Definition share_pte (pte new_pte pa : Z) (child : nat) : K bool :=
  v ← load pte;
  store pte (Z.land v (Z.lnot PTE_W));;
  v ← load pte;
  store new_pte v;;
  inc_sharing new_pte (pa / PGSIZE);;
  upd_proc child (fun pr => set_p_rss (u32 (p_rss pr + PGSIZE)) pr);;
  mret false.

Lemma wp_share_pte P d va a b child own pr l Q s :
  let e := pte_of (k_mem s) P va in
  two_tables s P d l -> pt_addr (k_mem s) P va = Some a -> pt_addr (k_mem s) d va = Some b ->
  mapped_by s (PTE_ADDR e / PGSIZE) own -> Z.of_nat (length own) < NPROC ->
  k_proc s !! child = Some pr ->
  (forall s', tt_step s s' P d l [] l -> set_both (k_mem s) (k_mem s') P d va (readonly e) ->
     pt_addr (k_mem s') d va = Some b ->
     mapped_by s' (PTE_ADDR e / PGSIZE) (b :: own) -> rmap_frame (PTE_ADDR e / PGSIZE) s s' ->
     k_proc s' = <[child := add_rss PGSIZE pr]> (k_proc s) -> Q false s') ->
  wp (share_pte a b (PTE_ADDR e) child) Q s.
Proof.
  intros e Htt Ha Hb Hown Hlen Hpr HQ. unfold share_pte.
  assert (ld (k_mem s) a = e) as Hld by (unfold e, pte_of; by rewrite Ha).
  assert (b <> 0) as Hb0 by (apply (pt_addr_nonzero (k_mem s) d va); [apply Htt|done]).
  pose proof (pte_of_range (k_mem s) P va) as He. fold e in He.
  wp_step. apply wp_load. rewrite Hld. fold (readonly e). wp_step. apply wp_store.
  wp_step. apply wp_load. ksimpl. rewrite ld_st_eq, u32_small by (by apply readonly_range).
  wp_step. apply wp_store. ksimpl.
  destruct (tt_step_store_l _ _ _ _ _ _ (readonly e) Htt Ha) as [Ts1 Ut1].
  set (s1 := set_k_mem (st (k_mem s) a (readonly e)) s) in *.
  assert (pt_addr (k_mem s1) d va = Some b) as Hb1 by (by rewrite (ut_addr _ _ _ Ut1)).
  pose proof (ts_tables _ _ _ _ _ _ _ Ts1) as Htt1.
  pose proof (pt_step_store s1 d l va b (readonly e) (tt_r _ _ _ _ Htt1) Hb1) as St2.
  pose proof (tt_step_r _ _ _ _ _ _ _ Htt1 St2) as Ts2.
  destruct (two_tables_step _ _ _ _ _ _ _ Htt1 St2) as [_ Ut2].
  set (s2 := set_k_mem (st (k_mem s1) b (readonly e)) s1) in *.
  change (set_k_mem (st (k_mem s1) b (readonly e)) (set_k_mem (k_mem s1) s)) with s2.
  assert (set_both (k_mem s) (k_mem s2) P d va (readonly e)) as Hboth.
  { intros va' _. rewrite (ut_pte _ _ _ Ut2). split.
    - unfold s1. ksimpl. rewrite (store_pte_of _ _ va) by (apply Htt || done).
      by rewrite u32_small by (by apply readonly_range).
    - unfold s2. ksimpl. rewrite (store_pte_of _ _ va) by (apply Htt1 || done).
      rewrite u32_small by (by apply readonly_range). by rewrite (ut_pte _ _ _ Ut1). }
  wp_step. apply (wp_inc_sharing _ _ own); [done|done|done|].
  intros s3 (r & -> & Hlenr & Hr) Hmb. wp_step. apply (wp_upd_proc _ _ pr); [done|]. wp_steps.
  set (ps := <[child := _]> _).
  apply HQ; [|done| |done|done|done].
  - apply (tt_step_trans _ _ _ _ _ _ [] l [] _ Ts1). apply (tt_step_trans _ _ _ _ _ _ [] l [] _ Ts2).
    exact (tt_step_vm r ps s2 P d l (ts_tables _ _ _ _ _ _ _ Ts2)).
  - ksimpl. apply (ts_addr_r _ _ _ _ _ _ _ Ts2). done.
Qed.

Lemma wp_copyuvm_page P d va child own pr l Q s :
  let e := pte_of (k_mem s) P va in
  two_tables s P d l -> va mod PGSIZE = 0 -> 0 <= va < KERNBASE ->
  has e PTE_P = true -> has (pte_of (k_mem s) d va) PTE_P = false ->
  (missing (k_mem s) d va <= length l)%nat ->
  mapped_by s (PTE_ADDR e / PGSIZE) own -> Z.of_nat (length own) < NPROC ->
  k_proc s !! child = Some pr ->
  (forall s' used l', page_shared s s' P d va e own child pr l used l' -> Q false s') ->
  wp (copyuvm_page P d va child) Q s.
Proof.
  intros e Htt Hva Hva' HP Habs Hmiss Hown Hlen Hpr HQ.
  destruct (pte_present_addr _ _ _ HP) as (a & Ha & Hld).
  unfold copyuvm_page. wp_step. eapply wp_walkpgdir_Some; [done|].
  rewrite (proj2 (Z.eqb_neq _ _)) by (apply (pt_addr_nonzero (k_mem s) P va); [apply Htt|done]).
  wp_step. apply wp_load. rewrite Hld. fold e. rewrite HP. cbn [negb]. cbn zeta.
  pose proof (PTE_ADDR_range e). pose proof (PTE_ADDR_aligned e).
  wp_step. apply (wp_mappages _ _ _ _ _ 1 l); [apply PTE_FLAGS_range|done|done| |].
  { split; [apply Htt|klia|klia| |rewrite need_1 by (lia || f_equal; lia); lia].
    intros va0 Hva0. rewrite <-Habs. f_equal. symmetry. apply pte_of_vpage, same_vpage_aligned; klia. }
  intros s1 used l1 St1 Hused M1. rewrite need_1 in Hused by (lia || f_equal; lia).
  rewrite Z.eqb_refl. cbn [negb].
  destruct (two_tables_step _ _ _ _ _ _ _ Htt St1) as [Htt1 Ut1].
  assert (has (pte_of (k_mem s1) d va) PTE_P = true) as HP1.
  { rewrite M1 by klia. rewrite decide_True by klia. apply has_P_entry. }
  destruct (pte_present_addr _ _ _ HP1) as (b & Hb & _).
  wp_step. eapply wp_walkpgdir_Some; [done|].
  rewrite (proj2 (Z.eqb_neq _ _)) by (apply (pt_addr_nonzero (k_mem s1) d va); [apply Htt1|done]).
  assert (pte_of (k_mem s1) P va = e) as He1 by apply (ut_pte _ _ _ Ut1).
  destruct (kmem_step_rmap _ _ (ps_kmem _ _ _ _ _ _ St1)) as [Hrm Hps].
  fold (share_pte a b (PTE_ADDR e) child).
  lazymatch goal with |- wp (share_pte _ _ _ _) _ _ => rewrite <-He1 end.
  apply (wp_share_pte P d va a b child own pr l1); rewrite ?He1, ?Hps;
    [done|by rewrite (ut_addr _ _ _ Ut1)|done|by unfold mapped_by; rewrite Hrm|done|done|].
  intros s2 Ts2 Hboth Hb2 Hmb Hrf Hps2.
  apply (HQ _ (used ++ []) l1). split.
  - eapply tt_step_trans; [by eapply tt_step_r|done].
  - rewrite app_nil_r. lia.
  - by eapply missing_Some.
  - intros va0 Hva0. destruct (Hboth va0 Hva0) as [-> ->]. rewrite (ut_pte _ _ _ Ut1), M1 by done.
    split; [done|]. destruct (decide (same_vpage va va0)) as [|Hne]; [done|].
    rewrite decide_False; [done|]. rewrite same_vpage_aligned in Hne by klia. klia.
  - by exists b.
  - intros pg' Hpg. rewrite Hrf by done. by rewrite Hrm.
  - done.
Qed.

(** ** [copyuvm] *)

Section copy.
(** The pages of the parent: [n] of them, the frames they are in, and the
    entries that map these frames before the copy. *)
Context (P d : Z) (child : nat) (pr0 : proc) (own : nat -> list Z) (n : nat).
Context (s0 : kstate) (l0 : list Z) (tables : nat).
Let vpage (k : nat) : Z := Z.of_nat k * PGSIZE.
Let pte0 (k : nat) : Z := pte_of (k_mem s0) P (vpage k).
Let frame (k : nat) : Z := PTE_ADDR (pte0 k) / PGSIZE.

(** After the first [k] pages. *)
Record copy_inv (k : nat) s used l : Prop := {
  ci_step : tt_step s0 s P d l0 used l;
  ci_used : (length used <= tables)%nat;
  ci_need : (k < n)%nat ->
    Z.of_nat (length used) + need (k_mem s) d (vpage k) (n - k) <= Z.of_nat tables;
  ci_pte_l : forall va, 0 <= va < two32 -> pte_of (k_mem s) P va =
    if decide (va < vpage k) then readonly (pte_of (k_mem s0) P va) else pte_of (k_mem s0) P va;
  ci_pte_r : forall va, 0 <= va < two32 -> pte_of (k_mem s) d va =
    if decide (va < vpage k) then readonly (pte_of (k_mem s0) P va) else pte_of (k_mem s0) d va;
  ci_done : forall j, (j < k)%nat -> exists a, pt_addr (k_mem s) d (vpage j) = Some a /\
    mapped_by s (frame j) (a :: own j);
  ci_rmap : forall pg, (forall j, (j < k)%nat -> frame j <> pg) ->
    zlookup (k_rmap s) pg = zlookup (k_rmap s0) pg;
  ci_proc : k_proc s = <[child := add_rss (vpage k) pr0]> (k_proc s0);
}.

Hypothesis Hn : Z.of_nat n * PGSIZE <= KERNBASE.
Hypothesis Htables : (tables <= length l0)%nat.
Hypothesis Hpresent : forall k, (k < n)%nat -> has (pte0 k) PTE_P = true.
Hypothesis Hinj : forall j k, (j < k < n)%nat -> frame j <> frame k.
Hypothesis Hown : forall k, (k < n)%nat ->
  mapped_by s0 (frame k) (own k) /\ Z.of_nat (length (own k)) < NPROC.
Hypothesis Hchild : k_proc s0 !! child = Some pr0.
Hypothesis Hkern : forall va, 0 <= va < KERNBASE -> pte_of (k_mem s0) d va = 0.

Lemma copy_inv_next k used l s used' l' s' : (k < n)%nat -> copy_inv k s used l ->
  page_shared s s' P d (vpage k) (pte0 k) (own k) child (add_rss (vpage k) pr0) l used' l' ->
  copy_inv (S k) s' (used ++ used') l'.
Proof.
  intros Hk [Hst Hused Hneed Hl Hr Hdone Hrm Hpr] [Sst Sused Smiss Sptes (a & Ha & Hma) Srm Spr].
  assert (forall va, 0 <= va < two32 ->
    same_vpage (vpage k) va <-> vpage k <= va < vpage (S k)) as Hsame.
  { intros va Hva. rewrite same_vpage_aligned by (unfold vpage; klia). unfold vpage. klia. }
  assert (forall va, vpage k <= va < vpage (S k) -> pte_of (k_mem s0) P va = pte0 k) as Hpage.
  { intros va Hva. unfold pte0. symmetry. apply pte_of_vpage, Hsame; [unfold vpage in *; klia|done]. }
  assert (forall va x, 0 <= va < two32 ->
    (if decide (same_vpage (vpage k) va) then readonly (pte0 k)
     else if decide (va < vpage k) then readonly (pte_of (k_mem s0) P va) else x) =
    if decide (va < vpage (S k)) then readonly (pte_of (k_mem s0) P va) else x) as Hcases.
  { intros va x Hva. rewrite (decide_ext _ _ _ _ (Hsame va Hva)).
    assert (vpage k < vpage (S k)) by (unfold vpage; klia).
    repeat case_decide; rewrite ?Hpage by lia; done || lia. }
  split.
  - by eapply tt_step_trans.
  - rewrite length_app. specialize (Hneed Hk).
    pose proof (missing_need (k_mem s) d (vpage k) (n - k)
      ltac:(unfold vpage; klia) ltac:(unfold vpage; klia) ltac:(lia) ltac:(unfold vpage; klia)). lia.
  - intros Hk'. specialize (Hneed Hk). replace (n - k)%nat with (S (S (n - k - 2))) in Hneed by lia.
    pose proof (need_next (k_mem s) (k_mem s') d (vpage k) (n - k - 2)) as Hnext.
    replace (vpage k + PGSIZE) with (vpage (S k)) in Hnext by (unfold vpage; lia).
    replace (n - S k)%nat with (S (n - k - 2)) by lia.
    rewrite length_app. specialize (Hnext ltac:(unfold vpage; klia) ltac:(unfold vpage; klia)
      ltac:(unfold vpage; klia) Smiss). lia.
  - intros va Hva. destruct (Sptes va Hva) as [-> _]. rewrite Hl by done. by apply Hcases.
  - intros va Hva. destruct (Sptes va Hva) as [_ ->]. rewrite Hr by done. by apply Hcases.
  - intros j Hj. destruct (decide (j = k)) as [->|]; [by exists a|].
    destruct (Hdone j) as (b & Hb & Hmb); [lia|]. exists b. split.
    + by apply (ts_addr_r _ _ _ _ _ _ _ Sst).
    + unfold mapped_by in *. rewrite Srm; [done|]. apply Hinj. lia.
  - intros pg Hpg. rewrite Srm, Hrm; [done|..].
    + intros j Hj. apply Hpg. lia.
    + intros ->. by apply (Hpg k); [lia|].
  - rewrite Spr, Hpr, list_insert_insert_eq. rewrite add_rss_add. do 2 f_equal. unfold vpage. lia.
Qed.

Lemma copy_inv_step k used l Q s : (k < n)%nat -> copy_inv k s used l ->
  (forall s' used' l', copy_inv (S k) s' used' l' -> Q false s') ->
  wp (copyuvm_page P d (vpage k) child) Q s.
Proof.
  intros Hk [Hst Hused Hneed Hl Hr Hdone Hrm Hpr] HQ.
  pose proof (f_equal length (ts_list _ _ _ _ _ _ _ Hst)) as Hlen. rewrite length_app in Hlen.
  assert (0 <= vpage k < KERNBASE) as Hvk by (unfold vpage; klia).
  assert (vpage k mod PGSIZE = 0) as Hvm by (unfold vpage; klia).
  assert (pte_of (k_mem s) P (vpage k) = pte0 k) as He.
  { rewrite Hl, decide_False by klia. done. }
  specialize (Hneed Hk).
  pose proof (missing_need (k_mem s) d (vpage k) (n - k) Hvm ltac:(lia) ltac:(lia)
    ltac:(unfold vpage in *; klia)) as Hmiss.
  destruct (Hown k Hk) as [Hownk Hlenk].
  apply (wp_copyuvm_page _ _ _ _ (own k) (add_rss (vpage k) pr0) l).
  - apply Hst.
  - done.
  - done.
  - rewrite He. by apply Hpresent.
  - by rewrite Hr, decide_False, Hkern by klia.
  - lia.
  - rewrite He. fold (frame k). unfold mapped_by in *. rewrite Hrm; [done|].
    intros j Hj. apply Hinj. lia.
  - done.
  - rewrite Hpr. rewrite list_lookup_insert_eq; [done|]. by eapply lookup_lt_Some.
  - rewrite He. intros s' used' l' Hsh. apply (HQ _ (used ++ used') l').
    by apply (copy_inv_next k used l s).
Qed.
End copy.

(** What [copyuvm] has done when it returns the directory [d]: [n] pages are
    shared read-only by [P] and [d]. *)
Record cow_fork s s' (P d : Z) (child : nat) (pr0 : proc) (own : nat -> list Z) (n : nat)
    l used l' : Prop := {
  cf_list : l = used ++ l';
  cf_used : (length used <= 10 + (n + 1023) / 1024)%nat;
  cf_tables : two_tables s' P d l';
  cf_owns_l : forall p, owns (k_mem s') P p <-> owns (k_mem s) P p;
  cf_owns_r : forall p, owns (k_mem s') d p <-> p ∈ used;
  cf_addr_l : forall va, pt_addr (k_mem s') P va = pt_addr (k_mem s) P va;
  cf_frame : forall p, p mod PGSIZE = 0 -> ~ owns (k_mem s) P p -> p ∉ used ->
    same_page (k_mem s) (k_mem s') p;
  cf_pte_l : forall va, 0 <= va < two32 -> pte_of (k_mem s') P va =
    if decide (va < Z.of_nat n * PGSIZE)
    then readonly (pte_of (k_mem s) P va) else pte_of (k_mem s) P va;
  cf_pte_r : forall va, 0 <= va < two32 -> pte_of (k_mem s') d va =
    if decide (va < Z.of_nat n * PGSIZE)
    then readonly (pte_of (k_mem s) P va) else kernel_pte va;
  cf_owners : forall k, (k < n)%nat ->
    exists a, pt_addr (k_mem s') d (Z.of_nat k * PGSIZE) = Some a /\
      mapped_by s' (PTE_ADDR (pte_of (k_mem s) P (Z.of_nat k * PGSIZE)) / PGSIZE) (a :: own k);
  cf_rmap : forall pg,
    (forall k, (k < n)%nat -> PTE_ADDR (pte_of (k_mem s) P (Z.of_nat k * PGSIZE)) / PGSIZE <> pg) ->
    zlookup (k_rmap s') pg = zlookup (k_rmap s) pg;
  cf_proc : k_proc s' = <[child := add_rss (Z.of_nat n * PGSIZE) pr0]> (k_proc s);
  cf_rest : exists s1, vm_step s s1 /\ s' = set_k_cr3 (V2P P) s1;
}.

(** What it needs: the pages of the parent are present, in different frames,
    with room in the reverse map. *)
Record cow_pre s (P : Z) (child : nat) pr0 (own : nat -> list Z) (n : nat) l : Prop := {
  cp_ready : pt_ready s P l;
  cp_n : Z.of_nat n * PGSIZE <= KERNBASE;
  cp_present : forall k, (k < n)%nat ->
    has (pte_of (k_mem s) P (Z.of_nat k * PGSIZE)) PTE_P = true;
  cp_inj : forall j k, (j < k < n)%nat ->
    PTE_ADDR (pte_of (k_mem s) P (Z.of_nat j * PGSIZE)) / PGSIZE <>
    PTE_ADDR (pte_of (k_mem s) P (Z.of_nat k * PGSIZE)) / PGSIZE;
  cp_own : forall k, (k < n)%nat ->
    mapped_by s (PTE_ADDR (pte_of (k_mem s) P (Z.of_nat k * PGSIZE)) / PGSIZE) (own k) /\
    Z.of_nat (length (own k)) < NPROC;
  cp_child : k_proc s !! child = Some pr0;
  cp_rss : 0 <= p_rss pr0 < two32;
  cp_free : (10 + (n + 1023) / 1024 <= length l)%nat;
}.

(** A new page table next to [P]. *)
Lemma pt_new_tables s s' P d l used l' : pt_ready s P l -> pt_new s s' d l used l' ->
  two_tables s' P d l' /\ untouched (k_mem s) (k_mem s') P.
Proof.
  intros HP Hnew. assert (forall p, owns (k_mem s) P p -> p <> d /\ p ∉ used) as Hfresh.
  { intros p Hp. pose proof (pr_fresh _ _ _ HP p) as Hf. rewrite (pn_list _ _ _ _ _ _ Hnew) in Hf.
    set_solver. }
  assert (forall p, owns (k_mem s) P p -> same_page (k_mem s) (k_mem s') p) as Hsame.
  { intros p Hp. destruct (Hfresh p Hp). apply (pn_frame _ _ _ _ _ _ Hnew); [|done..].
    by destruct (owns_page_ok _ _ _ (pr_wf _ _ _ HP) Hp). }
  pose proof (untouched_frame _ _ _ Hsame) as Hut. split; [|done].
  pose proof (pn_ready _ _ _ _ _ _ Hnew) as Hd. split; [|done|].
  - split; [apply Hd|apply Hd|eapply frame_pt_wf; [done|apply HP]|].
    intros p Hp. rewrite (ut_owns _ _ _ Hut). apply (pr_fresh _ _ _ HP).
    rewrite (pn_list _ _ _ _ _ _ Hnew). set_solver.
  - intros p. rewrite (ut_owns _ _ _ Hut), (pn_owns _ _ _ _ _ _ Hnew).
    intros Hp. destruct (Hfresh p Hp). tauto.
Qed.

Lemma two_tables_cr3 v s P d l : two_tables s P d l -> two_tables (set_k_cr3 v s) P d l.
Proof. intros [[[] ???] [[] ???] ?]. by split; [split; [split|..]|split; [split|..]|]. Qed.

Lemma need_user m d n : (0 < n)%nat -> Z.of_nat n * PGSIZE <= KERNBASE ->
  need m d 0 n <= Z.of_nat ((n + 1023) / 1024).
Proof.
  intros Hn Hk. apply need_range; [done|done|done|klia|].
  pose proof (missing_le m d 0). rewrite Nat2Z.inj_div. klia.
Qed.

Lemma copy_inv_fork s s1 s2 P d child pr0 own n l used1 l1 used2 l2 :
  pt_ready s P l -> pt_new s s1 d l used1 l1 -> (length used1 <= 9)%nat ->
  (forall va, 0 <= va < two32 -> pte_of (k_mem s1) d va = kernel_pte va) ->
  copy_inv P d child pr0 own n s1 l1 ((n + 1023) / 1024) n s2 used2 l2 ->
  cow_fork s (set_k_cr3 (V2P P) s2) P d child pr0 own n l (d :: used1 ++ used2) l2.
Proof.
  intros HP Hnew Hused1 Hk [Hst Hused _ Hl Hr Hdone Hrm Hpr].
  destruct (pt_new_tables _ _ _ _ _ _ _ HP Hnew) as [Htt Hut].
  destruct (kmem_step_rmap _ _ (pn_kmem _ _ _ _ _ _ Hnew)) as [Erm Eps].
  split; ksimpl.
  - rewrite (pn_list _ _ _ _ _ _ Hnew), (ts_list _ _ _ _ _ _ _ Hst). cbn. by rewrite app_assoc.
  - cbn [length]. rewrite length_app. lia.
  - apply two_tables_cr3, Hst.
  - intros p. by rewrite (ts_owns_l _ _ _ _ _ _ _ Hst), (ut_owns _ _ _ Hut).
  - intros p. rewrite (ts_owns_r _ _ _ _ _ _ _ Hst), (pn_owns _ _ _ _ _ _ Hnew). set_solver.
  - intros va. by rewrite (ts_addr_l _ _ _ _ _ _ _ Hst), (ut_addr _ _ _ Hut).
  - intros p Hp Ho Hu. eapply same_page_trans.
    + apply (pn_frame _ _ _ _ _ _ Hnew); [done|set_solver..].
    + apply (ts_frame _ _ _ _ _ _ _ Hst); [done| | |set_solver].
      * by rewrite (ut_owns _ _ _ Hut).
      * rewrite (pn_owns _ _ _ _ _ _ Hnew). set_solver.
  - intros va Hva. by rewrite Hl, (ut_pte _ _ _ Hut).
  - intros va Hva. by rewrite Hr, (ut_pte _ _ _ Hut), Hk.
  - intros k Hkn. rewrite <-(ut_pte _ _ _ Hut). by apply Hdone.
  - intros pg Hpg. rewrite <-Erm. apply Hrm. intros j Hj. rewrite (ut_pte _ _ _ Hut). by apply Hpg.
  - by rewrite Hpr, Eps.
  - exists s2. split; [|done]. eapply vm_step_trans; [by apply vm_step_kmem, Hnew|apply Hst].
Qed.

Lemma wp_copyuvm P sz child pr0 own l Q s :
  sz <= KERNBASE -> cow_pre s P child pr0 own (npages sz) l ->
  (forall d s' used l', cow_fork s s' P d child pr0 own (npages sz) l used l' -> d <> 0 -> Q d s') ->
  wp (copyuvm P sz child) Q s.
Proof.
  intros Hsz [HP Hn Hpres Hinj Hown Hch Hrss Hfree] HQ. unfold copyuvm. wp_step.
  apply (wp_setupkvm l); [apply HP|apply HP|lia|].
  intros d s1 used1 l1 Hnew Hused1 Hk.
  assert (d <> 0) as Hd by (apply page_ok_nonzero, (wf_dir _ _ (pr_wf _ _ _ (pn_ready _ _ _ _ _ _ Hnew)))).
  rewrite (proj2 (Z.eqb_neq _ _)) by done.
  destruct (pt_new_tables _ _ _ _ _ _ _ HP Hnew) as [Htt Hut].
  destruct (kmem_step_rmap _ _ (pn_kmem _ _ _ _ _ _ Hnew)) as [Erm Eps].
  pose proof (f_equal length (pn_list _ _ _ _ _ _ Hnew)) as Hlen. cbn in Hlen. rewrite length_app in Hlen.
  set (n := npages sz) in *. wp_step.
  apply (wp_for_pages _ _ (fun k _ s => exists used l,
    copy_inv P d child pr0 own n s1 l1 ((n + 1023) / 1024) k s used l)).
  - klia.
  - fold n. intros k [] s2 Hkn (used & l2 & Hci). wp_step.
    apply (copy_inv_step P d child pr0 own n s1 l1 ((n + 1023) / 1024)) with (used := used) (l := l2);
      rewrite ?Eps; try setoid_rewrite (ut_pte _ _ _ Hut); try done.
    + lia.
    + intros k' Hk'. unfold mapped_by. rewrite Erm. by apply Hown.
    + intros va Hva. rewrite Hk by klia. by apply kernel_pte_user.
    + intros s' used' l' Hci'. wp_steps. eauto.
  - fold n. intros [] s2 (used2 & l2 & Hci). wp_step. unfold lcr3. wp_steps.
    eapply HQ; [by eapply copy_inv_fork|done].
  - exists [], l1. split; [by apply tt_step_refl|cbn; lia| | | | | |].
    + intros Hn0. rewrite Nat.sub_0_r. pose proof (need_user (k_mem s1) d n Hn0 Hn). cbn [length]. change (Z.of_nat 0 * PGSIZE) with 0. lia.
    + intros va Hva. by rewrite decide_False by klia.
    + intros va Hva. by rewrite decide_False by klia.
    + lia.
    + done.
    + symmetry. apply list_insert_id. rewrite Eps, Hch. f_equal. symmetry. by apply add_rss_0.
Qed.

(** ** Memory as a user program sees it *)

(** The byte at [va], if the program may read it. *)
Definition uread (m : mem) pgdir va : option Z :=
  let e := pte_of m pgdir va in
  if has e PTE_P && has e PTE_U then Some (ldb m (P2V (PTE_ADDR e) + va mod PGSIZE)) else None.

(** Memory after a write at [va]; [None] when the write faults. *)
Definition uwrite (m : mem) pgdir va (b : Z) : option mem :=
  let e := pte_of m pgdir va in
  if has e PTE_P && has e PTE_U && has e PTE_W
  then Some (stb m (P2V (PTE_ADDR e) + va mod PGSIZE) b) else None.

(** The user half of [pgdir] is in frames for which [ok] holds. *)
Definition frames (m : mem) pgdir (ok : Z -> Prop) : Prop :=
  forall va, 0 <= va < KERNBASE -> has (pte_of m pgdir va) PTE_P = true ->
    ok (P2V (PTE_ADDR (pte_of m pgdir va))).

Lemma frame_aligned e : P2V (PTE_ADDR e) mod PGSIZE = 0.
Proof. apply P2V_aligned, PTE_ADDR_aligned. Qed.

(** The view through [pgdir'] in [m'] is the view through [pgdir] in [m]. *)
Lemma uread_same m m' pgdir pgdir' va (ok : Z -> Prop) : 0 <= va < KERNBASE ->
  let e := pte_of m pgdir va in let e' := pte_of m' pgdir' va in
  has e' PTE_P = has e PTE_P -> has e' PTE_U = has e PTE_U -> PTE_ADDR e' = PTE_ADDR e ->
  frames m pgdir ok ->
  (forall p, p mod PGSIZE = 0 -> ok p -> same_page m m' p) ->
  uread m' pgdir' va = uread m pgdir va.
Proof.
  intros Hva e e' HP HU HA Hfr Hsame. unfold uread. fold e e'. rewrite HP, HU, HA.
  destruct (has e PTE_P) eqn:EP; [|done]. destruct (has e PTE_U) eqn:EU; [|done]. cbn.
  f_equal. apply (Hsame (P2V (PTE_ADDR e))); [apply frame_aligned|by apply Hfr|klia].
Qed.
End user.

(** ** The two views after a fork *)

Section fork_views.
Context {I : KernelImage} {Iok : KernelImageOk I}.
Context (s s1 : kstate) (P d : Z) (child : nat) (pr0 : proc) (own : nat -> list Z) (n : nat).
Context (l used l' : list Z).
Context (Hcf : cow_fork s s1 P d child pr0 own n l used l').
Context (Hfr : frames (k_mem s) P (fun f => page_ok f /\ ~ owns (k_mem s) P f /\ f ∉ l)).

(** After the fork the frames of both page tables are frames of the parent. *)
Lemma fork_frames_l : frames (k_mem s1) P (fun f => page_ok f /\ ~ owns (k_mem s1) P f /\ f ∉ l).
Proof.
  intros va Hva. rewrite (cf_pte_l _ _ _ _ _ _ _ _ _ _ _ Hcf va) by klia.
  pose proof (pte_of_range (k_mem s) P va).
  rewrite (cf_owns_l _ _ _ _ _ _ _ _ _ _ _ Hcf).
  case_decide; rewrite ?readonly_P, ?readonly_addr by done; apply (Hfr va Hva).
Qed.

Lemma fork_frames_r : frames (k_mem s1) d (fun f => page_ok f /\ ~ owns (k_mem s1) P f /\ f ∉ l).
Proof.
  intros va Hva. rewrite (cf_pte_r _ _ _ _ _ _ _ _ _ _ _ Hcf va) by klia.
  pose proof (pte_of_range (k_mem s) P va).
  rewrite (cf_owns_l _ _ _ _ _ _ _ _ _ _ _ Hcf).
  case_decide; [|by rewrite kernel_pte_user].
  rewrite readonly_P, readonly_addr by done. apply (Hfr va Hva).
Qed.

(** Both read what the parent read before. *)
Lemma fork_views va : 0 <= va < Z.of_nat n * PGSIZE -> Z.of_nat n * PGSIZE <= KERNBASE ->
  uread (k_mem s1) P va = uread (k_mem s) P va /\ uread (k_mem s1) d va = uread (k_mem s) P va.
Proof.
  intros Hva Hn. assert (0 <= va < two32) as Hva' by klia. assert (0 <= va < KERNBASE) by klia.
  pose proof (cf_pte_l _ _ _ _ _ _ _ _ _ _ _ Hcf va Hva') as Hl.
  pose proof (cf_pte_r _ _ _ _ _ _ _ _ _ _ _ Hcf va Hva') as Hr.
  rewrite decide_True in Hl, Hr by lia. pose proof (pte_of_range (k_mem s) P va).
  assert (forall p, p mod PGSIZE = 0 -> page_ok p /\ ~ owns (k_mem s) P p /\ p ∉ l ->
    same_page (k_mem s) (k_mem s1) p) as Hsame.
  { intros p Hp (_ & Ho & Hpl). apply (cf_frame _ _ _ _ _ _ _ _ _ _ _ Hcf); [done|done|].
    rewrite (cf_list _ _ _ _ _ _ _ _ _ _ _ Hcf), elem_of_app in Hpl. tauto. }
  split; (eapply uread_same; try done); rewrite ?Hl, ?Hr;
    auto using readonly_P, readonly_U, readonly_addr.
Qed.
End fork_views.

(** ** Properties *)

Section properties.
Context {I : KernelImage} {Iok : KernelImageOk I}.

(** C1: [copyuvm] of an address space of [sz] bytes returns a new page table
    through which the child reads exactly what the parent read, the parent's
    view is unchanged, neither can write to a shared page without a fault,
    the kernel half is that of [setupkvm], and the reverse map records the
    child's entry of every shared page. *)
Theorem copyuvm_shares_read_only P sz child pr0 own l s :
  sz <= KERNBASE -> cow_pre s P child pr0 own (npages sz) l ->
  frames (k_mem s) P (fun f => page_ok f /\ ~ owns (k_mem s) P f /\ f ∉ l) ->
  wp (copyuvm P sz child) (fun d s' =>
    d <> 0 /\ pt_wf (k_mem s') d /\ pt_wf (k_mem s') P /\
    (forall va, 0 <= va < Z.of_nat (npages sz) * PGSIZE ->
       uread (k_mem s') d va = uread (k_mem s) P va /\
       uread (k_mem s') P va = uread (k_mem s) P va /\
       forall b, uwrite (k_mem s') d va b = None /\ uwrite (k_mem s') P va b = None) /\
    (forall va, KERNBASE <= va < two32 -> pte_of (k_mem s') d va = kernel_pte va) /\
    (forall k, (k < npages sz)%nat ->
       exists a, pt_addr (k_mem s') d (Z.of_nat k * PGSIZE) = Some a /\
         mapped_by s' (PTE_ADDR (pte_of (k_mem s) P (Z.of_nat k * PGSIZE)) / PGSIZE) (a :: own k))) s.
Proof.
  intros Hsz Hpre Hfr. pose proof (cp_n _ _ _ _ _ _ _ Hpre) as Hn.
  apply (wp_copyuvm _ _ _ pr0 own l); [done|done|].
  intros d s' used l' Hcf Hd. pose proof (cf_tables _ _ _ _ _ _ _ _ _ _ _ Hcf) as Htt.
  split; [done|]. split; [apply Htt|]. split; [apply Htt|]. split; [|split; [|apply Hcf]].
  - intros va Hva. assert (0 <= va < two32) as Hva' by klia.
    destruct (fork_views _ _ _ _ _ _ _ _ _ _ _ Hcf Hfr va Hva Hn) as [-> ->].
    split; [done|]. split; [done|]. intros b. unfold uwrite.
    rewrite (cf_pte_l _ _ _ _ _ _ _ _ _ _ _ Hcf), (cf_pte_r _ _ _ _ _ _ _ _ _ _ _ Hcf) by done.
    rewrite !decide_True, readonly_W, !andb_false_r by lia. done.
  - intros va Hva. rewrite (cf_pte_r _ _ _ _ _ _ _ _ _ _ _ Hcf), decide_False by klia. done.
Qed.
End properties.

(** ** Instances *)

#[local] Existing Instance img.

Lemma sample_cow_pre :
  cow_pre state0 pgdir0 1 unused_proc (fun _ => [table0]) (npages PGSIZE) free0.
Proof.
  assert (forall k, (k < npages PGSIZE)%nat -> k = 0%nat) as Hk.
  { intros k Hk%npages_range. klia. }
  split; [apply sample_ready|done|..|done|done|apply Nat.leb_le; reflexivity].
  - by intros k ->%Hk; rewrite sample_pte.
  - intros j k [Hj ?]. specialize (Hk k). lia.
  - intros k ->%Hk. rewrite sample_pte by done. split; [apply sample_mapped|done].
Qed.

Lemma sample_frames (ok : Z -> Prop) : ok frame0 -> frames mem0 pgdir0 ok.
Proof. intros Hok va Hva. rewrite sample_pte by klia. by case_decide. Qed.

Lemma copyuvm_shares_read_only_witness :
  wp (copyuvm pgdir0 PGSIZE 1) (fun d s' => d <> 0 /\
    (forall va, 0 <= va < PGSIZE -> uread (k_mem s') d va = uread mem0 pgdir0 va) /\
    forall va b, 0 <= va < PGSIZE -> uwrite (k_mem s') pgdir0 va b = None) state0.
Proof.
  eapply wp_mono.
  - apply (copyuvm_shares_read_only pgdir0 PGSIZE 1 unused_proc (fun _ => [table0]) free0).
    + done.
    + apply sample_cow_pre.
    + apply sample_frames, sample_frame0.
  - intros d s' (Hd & _ & _ & Hv & _). split; [done|]. split.
    + intros va Hva. exact (proj1 (Hv va Hva)).
    + intros va b Hva. exact (proj2 (proj2 (proj2 (Hv va Hva)) b)).
Defined.
