(* ===== verification/VmGrow.v ===== *)
(** * Growing an address space

    [allocuvm] of [vm.c]. *)

From Stdlib Require Import ZArith Lia.
From stdpp Require Import base strings numbers gmap list.
From S2P Require Import Prelude Mmu Memory Kernel Sample Sleeplock Bio Kmem Rmap PageTable Swap.
From S2P Require Import Kalloc Vm VmKernel SampleTables VmUser.

Section grow.
Context {I : KernelImage} {Iok : KernelImageOk I}.
Implicit Types (s : kstate) (P va p v : Z) (l used : list Z).

(** ** One page of [allocuvm] *)

Definition user_entry v : Z := entry (V2P v) (Z.lor PTE_W PTE_U).

(** The page [v] is now the user page at [va], zeroed, with one owner; the
    pages [used] became page tables. *)
Record page_added s s' P va v (c : nat) pr l used l' : Prop := {
  pa_list : l = used ++ l';
  pa_used : (length used <= missing (k_mem s) P va)%nat;
  pa_missing : missing (k_mem s') P va = 0%nat;
  pa_ready : pt_ready s' P l';
  pa_owns : forall p, owns (k_mem s') P p <-> owns (k_mem s) P p \/ p ∈ used;
  pa_frame : forall p, p mod PGSIZE = 0 -> ~ owns (k_mem s) P p -> p ∉ used -> p <> v ->
    same_page (k_mem s) (k_mem s') p;
  pa_addr : forall va' a, pt_addr (k_mem s) P va' = Some a -> pt_addr (k_mem s') P va' = Some a;
  pa_pte : forall va', 0 <= va' < two32 -> pte_of (k_mem s') P va' =
    if decide (va <= va' < va + PGSIZE) then user_entry v else pte_of (k_mem s) P va';
  pa_zero : forall o, 0 <= o < PGSIZE -> ldb (k_mem s') (v + o) = 0;
  pa_owner : exists a, pt_addr (k_mem s') P va = Some a /\ mapped_by s' (V2P v / PGSIZE) [a];
  pa_rmap : rmap_frame (V2P v / PGSIZE) s s';
  pa_proc : k_proc s' = <[c := add_rss PGSIZE pr]> (k_proc s);
  pa_vm : vm_step s s';
}.

(** The state after [mappages] with the new page. *)
Lemma wp_alloc_map P va v l Q s :
  pt_ready s P (v :: l) -> va mod PGSIZE = 0 -> 0 <= va < KERNBASE ->
  has (pte_of (k_mem s) P va) PTE_P = false -> (missing (k_mem s) P va <= length l)%nat ->
  let s1 := set_k_mem (memset (k_mem s) v 0 PGSIZE) (kalloc_state s) in
  (forall s' used l', untouched (k_mem s) (k_mem s1) P -> pt_step s1 s' P l used l' ->
     (length used <= missing (k_mem s) P va)%nat ->
     maps (k_mem s) (k_mem s') P va 1 (V2P v) (Z.lor PTE_W PTE_U) -> Q 0 s') ->
  wp (mappages P va PGSIZE (V2P v) (Z.lor PTE_W PTE_U)) Q s1.
Proof.
  intros Hr Hva Hva' Habs Hmiss s1 HQ.
  assert (page_ok v) as Hv by apply (Forall_inv (free_pages _ _ (pr_free _ _ _ Hr))).
  assert (0 <= V2P v <= two32 - PGSIZE /\ V2P v mod PGSIZE = 0) as [HvP Hvm].
  { split; [|by apply V2P_aligned; destruct Hv]. apply page_ok_range in Hv.
    rewrite V2P_high by klia. klia. }
  destruct (pt_take_page s P v l (memset (k_mem s) v 0 PGSIZE) Hr) as [Hr1 Hut].
  { intros p Hp Hpv. by apply memset_same_page. }
  assert (missing (k_mem s1) P va = missing (k_mem s) P va) as Em.
  { unfold missing, s1. ksimpl. by rewrite (ut_table _ _ _ Hut) by apply PDX_range. }
  apply (wp_mappages _ _ _ _ _ 1 l); [done|done|done| |].
  - split; [done|klia|klia| |rewrite need_1 by (lia || f_equal; lia); lia].
    intros va0 Hva0. unfold s1. ksimpl. rewrite (ut_pte _ _ _ Hut), <-Habs. f_equal. symmetry.
    apply pte_of_vpage, same_vpage_aligned; klia.
  - intros s' used l' Hst Hused Hm. rewrite need_1 in Hused by (lia || f_equal; lia).
    apply (HQ s' used l'); [done|done|lia|].
    intros va0 Hva0. rewrite Hm by done. unfold s1. ksimpl. by rewrite (ut_pte _ _ _ Hut).
Qed.

Lemma wp_allocuvm_step P oldsz newsz va v c pr l Q s :
  pt_ready s P (v :: l) -> va mod PGSIZE = 0 -> 0 <= va < newsz -> newsz < KERNBASE ->
  has (pte_of (k_mem s) P va) PTE_P = false -> (missing (k_mem s) P va <= length l)%nat ->
  mapped_by s (V2P v / PGSIZE) [] -> k_cur s = Some c -> k_proc s !! c = Some pr ->
  (forall s' used l', page_added s s' P va v c pr l used l' -> Q (inl (va + PGSIZE)) s') ->
  wp (allocuvm_step P oldsz newsz va) Q s.
Proof.
  intros Hr Hva Hva' Hnew Habs Hmiss Hun Hc Hpr HQ.
  assert (page_ok v) as Hv by apply (Forall_inv (free_pages _ _ (pr_free _ _ _ Hr))).
  assert (~ owns (k_mem s) P v) as Hnv by (apply (pr_fresh _ _ _ Hr); by left).
  unfold allocuvm_step. rewrite (proj2 (Z.ltb_lt _ _)) by lia.
  wp_step. eapply wp_kalloc_free; [apply Hr|by apply page_ok_nonzero|apply Hr|].
  rewrite (proj2 (Z.eqb_neq _ _)) by (by apply page_ok_nonzero).
  wp_step. apply wp_modify_mem. change (k_mem (kalloc_state s)) with (k_mem s).
  wp_step. apply wp_alloc_map with (l := l); [done|done|klia|done|done|].
  intros s1 used l1 Hut Hst Hused Hm. rewrite (proj2 (Z.ltb_ge _ _)) by lia.
  set (s0 := set_k_mem (memset (k_mem s) v 0 PGSIZE) (kalloc_state s)) in *.
  pose proof (ps_ready _ _ _ _ _ _ Hst) as Hr1.
  assert (has (pte_of (k_mem s1) P va) PTE_P = true) as HP.
  { rewrite Hm, decide_True by klia. apply has_P_entry. }
  destruct (pte_present_addr _ _ _ HP) as (a & Ha & _).
  wp_step. eapply wp_walkpgdir_Some; [done|].
  destruct (kmem_step_rmap _ _ (ps_kmem _ _ _ _ _ _ Hst)) as [Erm Eps].
  assert (k_cur s1 = Some c) as Hc1 by (destruct (ps_kmem _ _ _ _ _ _ Hst) as (?&?&?&?&->); done).
  wp_step. apply (wp_inc_sharing _ _ []).
  { apply (pt_addr_nonzero (k_mem s1) P va); [apply Hr1|done]. }
  { unfold mapped_by. rewrite Erm. exact Hun. }
  { done. }
  intros s2 (r & -> & Hrl & Hrm) Hmb. wp_step. apply (wp_curproc c); [done|].
  wp_step. apply (wp_upd_proc _ _ pr); [by rewrite <-Hpr; f_equal|]. wp_steps.
  rewrite u32_small by klia.
  set (ps := <[c := _]> _).
  change (set_k_proc ps (set_k_rmap r s1)) with (set_k_rmap r (set_k_proc ps s1)).
  apply (HQ _ used l1). split; ksimpl.
  - apply Hst.
  - done.
  - by eapply missing_Some.
  - by apply pt_ready_vm.
  - intros p. by rewrite (ps_owns _ _ _ _ _ _ Hst), (ut_owns _ _ _ Hut).
  - intros p Hp Ho Hu Hpv. apply (same_page_trans _ (k_mem s0)); [by apply memset_same_page|].
    apply (ps_frame _ _ _ _ _ _ Hst); [done| |done]. by rewrite (ut_owns _ _ _ Hut).
  - intros va' a' Ha'. apply (pt_step_addr _ _ _ _ _ _ _ _ Hst).
    by rewrite (ut_addr _ _ _ Hut).
  - intros va0 Hva0. rewrite Hm by done. destruct (decide (va <= va0 < va + PGSIZE)).
    + rewrite decide_True by klia. unfold user_entry. f_equal. klia.
    + by rewrite decide_False by klia.
  - intros o Ho. transitivity (ldb (k_mem s0) (v + o)).
    + apply (ps_frame _ _ _ _ _ _ Hst v); [by destruct Hv| | |lia].
      * by rewrite (ut_owns _ _ _ Hut).
      * intros Hin. apply (NoDup_cons_1_1 _ _ (free_nodup _ _ (pr_free _ _ _ Hr))).
        rewrite (ps_list _ _ _ _ _ _ Hst). apply elem_of_app. by left.
    + unfold s0. ksimpl. by rewrite ldb_memset, decide_True by klia.
  - by exists a.
  - intros pg' Hpg. ksimpl. rewrite Hrm by done. by rewrite Erm.
  - unfold ps. ksimpl. by rewrite Eps.
  - destruct (ps_kmem _ _ _ _ _ _ Hst) as (f & n & m & g & ->).
    by eexists f, n, m, g, r, ps.
Qed.

(** ** [allocuvm] *)

Lemma frame_num_inj p q : page_ok p -> page_ok q -> V2P p / PGSIZE = V2P q / PGSIZE -> p = q.
Proof.
  intros Hp Hq. pose proof (page_ok_range p Hp). pose proof (page_ok_range q Hq).
  rewrite !V2P_high by klia. destruct Hp, Hq. klia.
Qed.

(** Page [j] of [P] is the fresh zeroed page [f], owned by [P] alone. *)
Definition fresh_page s P (j : nat) (f : Z) : Prop :=
  ~ owns (k_mem s) P f /\
  (forall va, Z.of_nat j * PGSIZE <= va < Z.of_nat (S j) * PGSIZE -> pte_of (k_mem s) P va = user_entry f) /\
  (forall o, 0 <= o < PGSIZE -> ldb (k_mem s) (f + o) = 0) /\
  exists a, pt_addr (k_mem s) P (Z.of_nat j * PGSIZE) = Some a /\ mapped_by s (V2P f / PGSIZE) [a].

(** Pages [k0] to [k] have been added. *)
Record grown s0 l0 P (c : nat) pr0 (k0 k : nat) s used l : Prop := {
  gr_list : l0 = used ++ l;
  gr_ready : pt_ready s P l;
  gr_owns : forall p, owns (k_mem s) P p -> owns (k_mem s0) P p \/ p ∈ used;
  gr_frame : forall p, p mod PGSIZE = 0 -> ~ owns (k_mem s0) P p -> p ∉ used ->
    same_page (k_mem s0) (k_mem s) p;
  gr_old : forall va, 0 <= va < two32 -> va < Z.of_nat k0 * PGSIZE \/ Z.of_nat k * PGSIZE <= va ->
    pte_of (k_mem s) P va = pte_of (k_mem s0) P va;
  gr_new : forall j, (k0 <= j < k)%nat -> exists f, f ∈ used /\ fresh_page s P j f;
  gr_free : forall p, p ∈ l -> mapped_by s (V2P p / PGSIZE) [];
  gr_rmap : forall pg, (forall p, p ∈ used -> V2P p / PGSIZE <> pg) ->
    zlookup (k_rmap s) pg = zlookup (k_rmap s0) pg;
  gr_proc : k_proc s = <[c := add_rss (Z.of_nat (k - k0) * PGSIZE) pr0]> (k_proc s0);
  gr_vm : vm_step s0 s;
}.

Section grown.
Context (s0 : kstate) (l0 : list Z) (P : Z) (c : nat) (pr0 : proc) (k0 : nat).
Context (Hl0 : Forall page_ok l0) (Hd0 : NoDup l0).

Lemma grown_next k s used v l s' used' l' :
  (k0 <= k)%nat -> Z.of_nat (S k) * PGSIZE <= KERNBASE ->
  grown s0 l0 P c pr0 k0 k s used (v :: l) ->
  page_added s s' P (Z.of_nat k * PGSIZE) v c (add_rss (Z.of_nat (k - k0) * PGSIZE) pr0) l used' l' ->
  grown s0 l0 P c pr0 k0 (S k) s' (used ++ v :: used') l'.
Proof.
  intros Hk Hkb [Gl Gr Go Gf Gold Gnew Gfree Grm Gpr Gvm] [Pl Pu Pm Pr Po Pf Pa Ppte Pz Pown Prm Ppr Pvm].
  assert (v ∈ l0) as Hv by (rewrite Gl; set_solver +).
  assert (forall p, p ∈ l0 -> page_ok p) as Hok by (by apply Forall_forall).
  assert (~ owns (k_mem s) P v) as Hnv by (apply (pr_fresh _ _ _ Gr); by left).
  assert (used ## v :: l /\ NoDup (v :: l)) as [Hdis Hdl].
  { rewrite Gl in Hd0. apply NoDup_app in Hd0 as (_ & Hx & Hy). split; [|done].
    intros p Hp Hp'. by apply (Hx p). }
  assert (forall f, f ∈ used -> f ∈ l0 /\ f ∉ used' /\ f <> v) as Hold.
  { intros f Hf. split; [rewrite Gl; set_solver|]. rewrite Pl in Hdis. set_solver. }
  split.
  - rewrite Gl, Pl. by rewrite <-app_assoc.
  - done.
  - intros p. rewrite Po. intros [Hp|Hp]; [destruct (Go p Hp); set_solver|set_solver].
  - intros p Hp Ho Hu. apply (same_page_trans _ (k_mem s)); [apply Gf; set_solver|].
    apply Pf; [done| |set_solver..]. intros [?|?]%Go; set_solver.
  - intros va Hva Hout. rewrite Ppte, decide_False by klia. apply Gold; [done|klia].
  - intros j Hj. destruct (decide (j = k)) as [->|Hne].
    + exists v. split; [set_solver|]. split; [|split; [|split; [done|done]]].
      * rewrite Po. intros [?|Hin]; [done|]. apply NoDup_cons in Hdl as [Hn _]. apply Hn.
        rewrite Pl. set_solver.
      * intros va Hva. rewrite Ppte, decide_True by klia. done.
    + destruct (Gnew j) as (f & Hf & Fo & Fp & Fz & a & Fa & Fm); [lia|].
      destruct (Hold f Hf) as (Hfl & Hfu & Hfv). exists f. split; [set_solver|].
      split; [rewrite Po; tauto|]. split; [|split].
      * intros va Hva. rewrite Ppte, decide_False by klia. by apply Fp.
      * intros o Ho. rewrite <-(Fz o Ho). apply (Pf f); [|done..|lia]. by destruct (Hok f Hfl).
      * exists a. split; [by apply Pa|]. unfold mapped_by. rewrite Prm; [done|].
        intros E. apply Hfv. symmetry. apply frame_num_inj; auto.
  - intros p Hp. unfold mapped_by. rewrite Prm.
    + apply Gfree. rewrite Pl. set_solver.
    + intros E. apply NoDup_cons in Hdl as [Hn _]. apply Hn. rewrite Pl.
      rewrite <-(frame_num_inj p v); [set_solver| |by apply Hok|done].
      apply Hok. rewrite Gl, Pl. set_solver.
  - intros pg Hpg. rewrite Prm; [apply Grm; set_solver|]. intros ->. by apply (Hpg v); [set_solver|].
  - rewrite Ppr, Gpr, list_insert_insert_eq, add_rss_add. do 2 f_equal. klia.
  - by eapply vm_step_trans.
Qed.

Lemma grown_step n k s used l Q oldsz newsz :
  (k0 <= k < n)%nat -> n = npages newsz -> newsz < KERNBASE ->
  k_cur s0 = Some c -> k_proc s0 !! c = Some pr0 ->
  (forall va, Z.of_nat k0 * PGSIZE <= va < Z.of_nat n * PGSIZE ->
     has (pte_of (k_mem s0) P va) PTE_P = false) ->
  grown s0 l0 P c pr0 k0 k s used l ->
  need (k_mem s) P (Z.of_nat k * PGSIZE) (n - k) + Z.of_nat (n - k) <= Z.of_nat (length l) ->
  (forall s' used' l', grown s0 l0 P c pr0 k0 (S k) s' used' l' ->
     ((S k < n)%nat -> need (k_mem s') P (Z.of_nat (S k) * PGSIZE) (n - S k) + Z.of_nat (n - S k)
        <= Z.of_nat (length l')) -> Q (inl (Z.of_nat (S k) * PGSIZE)) s') ->
  wp (allocuvm_step P oldsz newsz (Z.of_nat k * PGSIZE)) Q s.
Proof.
  intros Hk -> Hnew Hc Hpr Habs HG Hneed HQ.
  assert (0 <= Z.of_nat k * PGSIZE < newsz) as Hva by (apply npages_range; lia).
  assert (Z.of_nat (npages newsz) * PGSIZE < KERNBASE + PGSIZE) as Hn by (unfold npages; klia).
  set (n := npages newsz) in *. set (va := Z.of_nat k * PGSIZE) in *.
  assert (Z.of_nat n * PGSIZE <= KERNBASE) as Hn' by klia.
  assert (va mod PGSIZE = 0) as Hvm by (unfold va; klia).
  pose proof (missing_need (k_mem s) P va (n - k) Hvm ltac:(lia) ltac:(lia)
    ltac:(unfold va; klia)) as Hmiss.
  destruct l as [|v l]; [cbn in Hneed; lia|]. cbn [length] in Hneed.
  apply (wp_allocuvm_step P oldsz newsz va v c (add_rss (Z.of_nat (k - k0) * PGSIZE) pr0) l).
  - apply HG.
  - done.
  - done.
  - done.
  - rewrite (gr_old _ _ _ _ _ _ _ _ _ _ HG) by klia. apply Habs. unfold va. klia.
  - lia.
  - apply (gr_free _ _ _ _ _ _ _ _ _ _ HG). by left.
  - destruct (gr_vm _ _ _ _ _ _ _ _ _ _ HG) as (?&?&?&?&?&?&->). done.
  - rewrite (gr_proc _ _ _ _ _ _ _ _ _ _ HG). apply list_lookup_insert_eq. by eapply lookup_lt_Some.
  - intros s' used' l' Hadd. replace (va + PGSIZE) with (Z.of_nat (S k) * PGSIZE) by (unfold va; lia).
    eapply HQ; [eapply grown_next; [lia|klia|done|done]|].
    intros Hk'. pose proof (pa_used _ _ _ _ _ _ _ _ _ _ Hadd) as Hu.
    pose proof (f_equal length (pa_list _ _ _ _ _ _ _ _ _ _ Hadd)) as El. rewrite length_app in El.
    pose proof (need_next (k_mem s) (k_mem s') P va (n - k - 2) Hvm ltac:(lia) ltac:(unfold va; klia)
      (pa_missing _ _ _ _ _ _ _ _ _ _ Hadd)) as Hnext.
    replace (S (S (n - k - 2))) with (n - k)%nat in Hnext by lia.
    replace (S (n - k - 2)) with (n - S k)%nat in Hnext by lia.
    replace (va + PGSIZE) with (Z.of_nat (S k) * PGSIZE) in Hnext by (unfold va; lia). lia.
Qed.
End grown.

Lemma need_span m P va (n : nat) : (0 < n)%nat -> va mod PGSIZE = 0 -> 0 <= va ->
  va + Z.of_nat n * PGSIZE <= two32 -> need m P va n <= Z.of_nat ((n + 2047) / 1024).
Proof.
  intros. apply need_range; [done..|]. pose proof (missing_le m P va).
  rewrite Nat2Z.inj_div. klia.
Qed.

Lemma PGROUNDUP_npages sz : 0 <= sz <= KERNBASE -> PGROUNDUP sz = Z.of_nat (npages sz) * PGSIZE.
Proof. intros. rewrite PGROUNDUP_eq by klia. unfold npages. klia. Qed.

Lemma wp_allocuvm P oldsz newsz c pr0 l Q s :
  pt_ready s P l -> 0 <= oldsz <= newsz -> newsz < KERNBASE ->
  k_cur s = Some c -> k_proc s !! c = Some pr0 -> 0 <= p_rss pr0 < two32 ->
  (forall va, Z.of_nat (npages oldsz) * PGSIZE <= va < Z.of_nat (npages newsz) * PGSIZE ->
     has (pte_of (k_mem s) P va) PTE_P = false) ->
  (forall p, p ∈ l -> mapped_by s (V2P p / PGSIZE) []) ->
  ((npages newsz - npages oldsz) + (npages newsz - npages oldsz + 2047) / 1024 <= length l)%nat ->
  (forall s' used l', grown s l P c pr0 (npages oldsz) (npages newsz) s' used l' -> Q newsz s') ->
  wp (allocuvm P oldsz newsz) Q s.
Proof.
  intros Hr Hsz Hnew Hc Hpr Hrss Habs Hfree Hlen HQ. unfold allocuvm.
  rewrite (proj2 (Z.leb_gt _ _)) by lia. rewrite (proj2 (Z.ltb_ge _ _)) by lia.
  rewrite PGROUNDUP_npages by lia. set (k0 := npages oldsz) in *. set (n := npages newsz) in *.
  assert (k0 <= n)%nat as Hk0 by (unfold k0, n, npages; klia).
  assert (Z.of_nat n * PGSIZE <= KERNBASE) as Hn by (unfold n, npages; klia).
  destruct (pr_free _ _ _ Hr) as [_ _ Hd Hok].
  apply (wp_while _ (fun a s' => exists k used l', a = Z.of_nat k * PGSIZE /\ (k0 <= k <= n)%nat /\
    grown s l P c pr0 k0 k s' used l' /\
    ((k < n)%nat -> need (k_mem s') P (Z.of_nat k * PGSIZE) (n - k) + Z.of_nat (n - k) <= Z.of_nat (length l')))
    (fun a => n - Z.to_nat (a / PGSIZE))%nat).
  - intros a s1 (k & used & l1 & -> & Hk & HG & Hneed).
    destruct (decide (k < n)%nat) as [Hlt|Hge].
    + eapply (grown_step s l P c pr0 k0 Hok Hd n k); [lia|done|done|done|done|done|done|by apply Hneed|].
      intros s2 used2 l2 HG2 Hneed2. split.
      * exists (S k), used2, l2. split; [done|]. split; [lia|done].
      * rewrite !Z.div_mul by done. lia.
    + unfold allocuvm_step. assert (k = n) as -> by lia.
      rewrite (proj2 (Z.ltb_ge _ _)) by (unfold n, npages; klia). wp_steps. by eapply HQ.
  - rewrite Z.div_mul by done. rewrite Nat2Z.id. unfold n, npages in *. klia.
  - exists k0, [], l. split; [done|]. split; [lia|]. split.
    + split; [done|done|by left|intros; apply same_page_refl|done|lia|done|done| |apply vm_step_refl].
      rewrite Nat.sub_diag, add_rss_0 by done. symmetry. by apply list_insert_id.
    + intros Hlt. pose proof (need_span (k_mem s) P (Z.of_nat k0 * PGSIZE) (n - k0)
        ltac:(lia) ltac:(klia) ltac:(klia) ltac:(klia)). lia.
Qed.
End grow.

(** ** Properties *)

Section properties.
Context {I : KernelImage} {Iok : KernelImageOk I}.

Lemma user_entry_facts f : page_ok f ->
  has (user_entry f) PTE_P = true /\ has (user_entry f) PTE_U = true /\
  has (user_entry f) PTE_W = true /\ P2V (PTE_ADDR (user_entry f)) = f.
Proof.
  intros Hf. assert (V2P f mod PGSIZE = 0) as Hal by (apply V2P_aligned; by destruct Hf).
  unfold user_entry. rewrite has_P_entry, entry_U, entry_W, entry_addr;
    [|done|apply u32_range|done|done|done].
  split; [done|]. split; [done|]. split; [done|]. apply page_ok_range in Hf. apply P2V_V2P. klia.
Qed.

(** C29: [allocuvm] from [oldsz] to [newsz] returns the new size; the pages it
    adds read as zero and can be written, each is in a frame of its own that
    only this address space maps; the pages below the old size read as
    before; and the resident set grows by the number of pages added. *)
Theorem allocuvm_adds_zero_pages P oldsz newsz c pr0 l s :
  pt_ready s P l -> 0 <= oldsz <= newsz -> newsz < KERNBASE ->
  k_cur s = Some c -> k_proc s !! c = Some pr0 -> 0 <= p_rss pr0 < two32 ->
  (forall va, Z.of_nat (npages oldsz) * PGSIZE <= va < Z.of_nat (npages newsz) * PGSIZE ->
     has (pte_of (k_mem s) P va) PTE_P = false) ->
  (forall p, p ∈ l -> mapped_by s (V2P p / PGSIZE) []) ->
  ((npages newsz - npages oldsz) + (npages newsz - npages oldsz + 2047) / 1024 <= length l)%nat ->
  frames (k_mem s) P (fun f => ~ owns (k_mem s) P f /\ f ∉ l) ->
  wp (allocuvm P oldsz newsz) (fun r s' => r = newsz /\
    (forall va, 0 <= va < Z.of_nat (npages oldsz) * PGSIZE ->
       uread (k_mem s') P va = uread (k_mem s) P va) /\
    (forall va, Z.of_nat (npages oldsz) * PGSIZE <= va < Z.of_nat (npages newsz) * PGSIZE ->
       uread (k_mem s') P va = Some 0 /\ forall b, is_Some (uwrite (k_mem s') P va b)) /\
    (forall k, (npages oldsz <= k < npages newsz)%nat -> exists a,
       pt_addr (k_mem s') P (Z.of_nat k * PGSIZE) = Some a /\
       mapped_by s' (PTE_ADDR (pte_of (k_mem s') P (Z.of_nat k * PGSIZE)) / PGSIZE) [a]) /\
    k_proc s' = <[c := add_rss (Z.of_nat (npages newsz - npages oldsz) * PGSIZE) pr0]> (k_proc s)) s.
Proof.
  intros Hr Hsz Hnew Hc Hpr Hrss Habs Hfree Hlen Hfr.
  assert (Z.of_nat (npages newsz) * PGSIZE <= KERNBASE) as Hn by (unfold npages; klia).
  assert (npages oldsz <= npages newsz)%nat as Hk0 by (unfold npages; klia).
  assert (forall p, p ∈ l -> page_ok p) as Hok by (apply Forall_forall, (pr_free _ _ _ Hr)).
  apply (wp_allocuvm _ _ _ c pr0 l); [done..|].
  intros s' used l' [Gl Gr Go Gf Gold Gnew Gfree Grm Gpr Gvm].
  set (k0 := npages oldsz) in *. set (n := npages newsz) in *.
  assert (forall p, p ∈ used -> page_ok p) as Hoku by (intros p Hp; apply Hok; rewrite Gl; set_solver).
  split; [done|]. split; [|split; [|split; [|done]]].
  - intros va Hva. assert (pte_of (k_mem s') P va = pte_of (k_mem s) P va) as E by (apply Gold; klia).
    eapply uread_same; [klia|by rewrite E..|done|].
    intros p Hp [Ho Hpl]. apply Gf; [done|done|]. intros Hu. apply Hpl. rewrite Gl. set_solver.
  - intros va Hva. assert (Z.of_nat (Z.to_nat (va / PGSIZE)) = va / PGSIZE) as E by klia.
    destruct (Gnew (Z.to_nat (va / PGSIZE))) as (f & Hf & _ & Fp & Fz & _); [klia|].
    destruct (user_entry_facts f) as (FP & FU & FW & FA); [by apply Hoku|].
    assert (pte_of (k_mem s') P va = user_entry f) as Epte by (apply Fp; klia).
    unfold uread, uwrite. rewrite Epte, FP, FU, FW, FA. cbn [andb].
    split; [rewrite Fz by klia; done|by eexists].
  - intros k Hk. destruct (Gnew k Hk) as (f & Hf & _ & Fp & _ & a & Fa & Fm).
    exists a. split; [done|]. rewrite Fp by klia.
    unfold user_entry. rewrite entry_addr; [done| |apply u32_range|done].
    apply V2P_aligned. by destruct (Hoku f Hf).
Qed.
End properties.

(** ** Instances *)

#[local] Existing Instance img.

Lemma allocuvm_adds_zero_pages_witness :
  wp (allocuvm pgdir0 PGSIZE (2 * PGSIZE)) (fun r s' => r = 2 * PGSIZE /\
    uread (k_mem s') pgdir0 (PGSIZE + 5) = Some 0 /\
    uread (k_mem s') pgdir0 5 = uread mem0 pgdir0 5) state0.
Proof.
  destruct sample_frame0 as (_ & Ho & Hl).
  eapply wp_mono.
  - apply (allocuvm_adds_zero_pages pgdir0 PGSIZE (2 * PGSIZE) 0 proc0 free0).
    + apply sample_ready.
    + done.
    + done.
    + done.
    + done.
    + done.
    + intros va Hva. change (Z.of_nat (npages PGSIZE) * PGSIZE) with PGSIZE in Hva.
      change (Z.of_nat (npages (2 * PGSIZE)) * PGSIZE) with (2 * PGSIZE) in Hva.
      rewrite sample_pte by klia. by rewrite decide_False by lia.
    + apply sample_unowned.
    + apply Nat.leb_le. reflexivity.
    + by apply sample_frames.
  - intros r s' (-> & Hv & Hz & _). split; [done|]. split.
    + apply Hz. split; [discriminate|reflexivity].
    + apply Hv. split; [discriminate|reflexivity].
Defined.
