(* ===== verification/VmShrink.v ===== *)
(** * Shrinking an address space

    [deallocuvm] and [deallocuvm2] of [vm.c]. *)

From Stdlib Require Import ZArith Lia.
From stdpp Require Import base strings numbers gmap list.
From S2P Require Import Prelude Mmu Memory Kernel Sample Sleeplock Bio Kmem Rmap PageTable Swap.
From S2P Require Import Kalloc Vm VmKernel SampleTables VmUser VmGrow.

Section shrinking.
Context {I : KernelImage} {Iok : KernelImageOk I}.
Implicit Types (s : kstate) (P va p v : Z) (l used : list Z).

(** ** One page of [deallocuvm] *)

Lemma pt_ready_kfree s P f l : pt_ready s P l -> page_ok f -> f ∉ l -> ~ owns (k_mem s) P f ->
  pt_ready (kfree_state f s) P (f :: l) /\ untouched (k_mem s) (k_mem (kfree_state f s)) P.
Proof.
  intros [Hf Hu Hwf Hfr] Hok Hfl Hno.
  assert (untouched (k_mem s) (k_mem (kfree_state f s)) P) as Hut.
  { apply untouched_frame. intros p Hp b Hb. apply kfree_state_mem_out; [done|].
    assert (p <> f) by (by intros ->). destruct (owns_page_ok _ _ _ Hwf Hp), Hok. klia. }
  split; [|done]. split; [by apply kfree_state_free_ok|done| |].
  - eapply frame_pt_wf; [|done]. intros p Hp b Hb. apply kfree_state_mem_out; [done|].
    assert (p <> f) by (by intros ->). destruct (owns_page_ok _ _ _ Hwf Hp), Hok. klia.
  - intros p Hp. rewrite (ut_owns _ _ _ Hut). apply elem_of_cons in Hp as [->|]; auto.
Qed.

(** The entry at [va] is gone; its page [f] is free if that was its last
    owner. *)
Record page_removed s s' P va (own : list Z) (c : nat) pr l : Prop := {
  rm_ready : pt_ready s' P (match own with [] => [P2V (PTE_ADDR (pte_of (k_mem s) P va))] | _ => [] end ++ l);
  rm_owns : forall p, owns (k_mem s') P p <-> owns (k_mem s) P p;
  rm_addr : forall va', pt_addr (k_mem s') P va' = pt_addr (k_mem s) P va';
  rm_table : forall i, 0 <= i < NPDENTRIES -> table (k_mem s') P i = table (k_mem s) P i;
  rm_pte : forall va', pte_of (k_mem s') P va' =
    if decide (same_vpage va va') then 0 else pte_of (k_mem s) P va';
  rm_frame : forall p, p mod PGSIZE = 0 -> ~ owns (k_mem s) P p ->
    (own = [] -> p <> P2V (PTE_ADDR (pte_of (k_mem s) P va))) -> same_page (k_mem s) (k_mem s') p;
  rm_owner : mapped_by s' (PTE_ADDR (pte_of (k_mem s) P va) / PGSIZE) own;
  rm_rmap : rmap_frame (PTE_ADDR (pte_of (k_mem s) P va) / PGSIZE) s s';
  rm_proc : k_proc s' = <[c := if 0 <? p_rss pr then add_rss (- PGSIZE) pr else pr]> (k_proc s);
  rm_vm : vm_step s s';
}.

(** [kfree] of the page when its last owner left. *)
Lemma wp_maybe_free f own P l Q s :
  pt_ready s P l -> page_ok f -> f ∉ l -> ~ owns (k_mem s) P f ->
  (forall s', pt_ready s' P (match own with [] => [f] | _ => [] end ++ l) ->
     untouched (k_mem s) (k_mem s') P ->
     (forall p, p mod PGSIZE = 0 -> (own = [] -> p <> f) -> same_page (k_mem s) (k_mem s') p) ->
     kmem_step s s' -> Q tt s') ->
  wp (when (bool_decide (own = @nil Z)) (kfree f)) Q s.
Proof.
  intros Hr Hok Hfl Hno HQ. destruct own as [|x own].
  - rewrite bool_decide_true by done. apply wp_kfree; [done|apply Hr|].
    destruct (pt_ready_kfree _ _ _ _ Hr Hok Hfl Hno) as [Hr' Hut].
    apply HQ; [done|done| |apply kmem_step_kfree].
    intros p Hp Hpf b Hb. apply kfree_state_mem_out; [done|]. specialize (Hpf eq_refl).
    destruct Hok. klia.
  - rewrite bool_decide_false by done. apply HQ; [done| |intros; apply same_page_refl|apply kmem_step_refl].
    apply untouched_frame. intros. apply same_page_refl.
Qed.

(** The update of the resident set. *)
Lemma wp_shrink_rss who (c : nat) pr Q s : k_proc s !! c = Some pr ->
  (forall Q', Q' c s -> wp who Q' s) ->
  Q tt (set_k_proc (<[c := if 0 <? p_rss pr then add_rss (- PGSIZE) pr else pr]> (k_proc s)) s) ->
  wp (shrink_rss who) Q s.
Proof.
  intros Hpr Hwho HQ. unfold shrink_rss. wp_step. apply Hwho. wp_step. apply (wp_get_proc _ pr); [done|].
  apply wp_when; intros E; rewrite E in HQ.
  - wp_step. apply Hwho. apply (wp_upd_proc _ _ pr); done.
  - rewrite list_insert_id in HQ by done. by destruct s.
Qed.

Lemma wp_dealloc_page who P va a own c pr l Q s :
  let e := pte_of (k_mem s) P va in
  pt_ready s P l -> pt_addr (k_mem s) P va = Some a ->
  page_ok (P2V (PTE_ADDR e)) -> P2V (PTE_ADDR e) ∉ l -> ~ owns (k_mem s) P (P2V (PTE_ADDR e)) ->
  mapped_by s (PTE_ADDR e / PGSIZE) (a :: own) -> k_proc s !! c = Some pr ->
  (forall Q' s', k_cur s' = k_cur s -> Q' c s' -> wp who Q' s') ->
  (forall s', page_removed s s' P va own c pr l -> Q tt s') ->
  wp (dealloc_page who a e) Q s.
Proof.
  intros e Hr Ha Hok Hfl Hno Hm Hpr Hwho HQ. unfold dealloc_page.
  assert (PTE_ADDR e <> 0) as Hne.
  { intros E. rewrite E, P2V_small in Hok by klia. apply page_ok_range in Hok. klia. }
  rewrite (proj2 (Z.eqb_neq _ _)) by done.
  wp_step. apply (wp_dec_sharing _ _ (a :: own) own); [|done|done|].
  { apply (pt_addr_nonzero (k_mem s) P va); [apply Hr|done]. }
  intros s1 (r & -> & Hrl & Hrm) Hm1. set (s1 := set_k_rmap r s) in *.
  assert (pt_ready s1 P l) as Hr1 by (exact (pt_ready_vm r (k_proc s) s P l Hr)).
  wp_step. apply (wp_maybe_free _ _ P l); [done..|]. intros s2 Hr2 Hut Hsame Hk2.
  destruct (kmem_step_rmap _ _ Hk2) as [Erm Eps].
  assert (k_cur s2 = k_cur s) as Ec by (destruct Hk2 as (?&?&?&?&->); done).
  wp_step. apply (wp_shrink_rss _ c pr); [by rewrite Eps|intros; by apply Hwho|].
  apply wp_store. rewrite Eps. set (ps := <[c := _]> (k_proc s1)).
  assert (pt_addr (k_mem s2) P va = Some a) as Ha2 by (by rewrite (ut_addr _ _ _ Hut)).
  assert (pt_ready (set_k_proc ps s2) P (match own with [] => [P2V (PTE_ADDR e)] | _ => [] end ++ l)) as Hr3
    by (exact (pt_ready_vm (k_rmap s2) ps s2 P _ Hr2)).
  pose proof (pt_step_store (set_k_proc ps s2) P _ va a 0 Hr3 Ha2) as St.
  apply HQ. split.
  - apply St.
  - intros p. rewrite (ps_owns _ _ _ _ _ _ St), elem_of_nil. cbn. rewrite (ut_owns _ _ _ Hut). cbn. tauto.
  - intros va'. cbn. rewrite (store_pte_pt_addr _ _ va) by (apply Hr2 || done). apply (ut_addr _ _ _ Hut).
  - intros i Hi. cbn. rewrite (store_pte_table _ _ va) by (apply Hr2 || done). by apply (ut_table _ _ _ Hut).
  - intros va'. cbn. rewrite (store_pte_of _ _ va) by (apply Hr2 || done). rewrite (ut_pte _ _ _ Hut). done.
  - intros p Hp Ho Hpf. apply (same_page_trans _ (k_mem s2)); [by apply Hsame|].
    apply (ps_frame _ _ _ _ _ _ St); [done| |by apply not_elem_of_nil]. cbn. by rewrite (ut_owns _ _ _ Hut).
  - unfold mapped_by in *. cbn. by rewrite Erm.
  - intros pg Hpg. cbn. rewrite Erm. by apply Hrm.
  - done.
  - destruct Hk2 as (f & n & m & g & ->). by eexists f, n, _, g, r, ps.
Qed.

(** ** [deallocuvm] *)

Section shrink.
(** The pages to remove, the entries that share them, and the process whose
    resident set shrinks. *)
Context (who : K nat) (s0 : kstate) (l0 : list Z) (P : Z) (c : nat) (pr0 : proc).
Context (own : nat -> list Z) (k0 n : nat).
Let vpage (k : nat) : Z := Z.of_nat k * PGSIZE.
Let pte0 (k : nat) : Z := pte_of (k_mem s0) P (vpage k).
Let present (k : nat) : Prop := has (pte0 k) PTE_P = true.
Let frame (k : nat) : Z := P2V (PTE_ADDR (pte0 k)).

Record shrunk (k : nat) s freed : Prop := {
  sk_ready : pt_ready s P (freed ++ l0);
  sk_owns : forall p, owns (k_mem s) P p <-> owns (k_mem s0) P p;
  sk_addr : forall va, pt_addr (k_mem s) P va = pt_addr (k_mem s0) P va;
  sk_table : forall i, 0 <= i < NPDENTRIES -> table (k_mem s) P i = table (k_mem s0) P i;
  sk_pte : forall va, 0 <= va < two32 -> pte_of (k_mem s) P va =
    if decide (vpage k0 <= va < vpage k /\ has (pte_of (k_mem s0) P va) PTE_P = true)
    then 0 else pte_of (k_mem s0) P va;
  sk_freed : forall f, f ∈ freed <-> exists j, (k0 <= j < k)%nat /\ present j /\ own j = [] /\ f = frame j;
  sk_frame : forall p, p mod PGSIZE = 0 -> ~ owns (k_mem s0) P p -> p ∉ freed ->
    same_page (k_mem s0) (k_mem s) p;
  sk_done : forall j, (k0 <= j < k)%nat -> present j -> mapped_by s (PTE_ADDR (pte0 j) / PGSIZE) (own j);
  sk_rmap : forall pg, (forall j, (k0 <= j < k)%nat -> present j -> PTE_ADDR (pte0 j) / PGSIZE <> pg) ->
    zlookup (k_rmap s) pg = zlookup (k_rmap s0) pg;
  sk_proc : exists r, k_proc s = <[c := set_p_rss r pr0]> (k_proc s0);
  sk_vm : vm_step s0 s;
}.

Hypothesis Hn : Z.of_nat n * PGSIZE <= KERNBASE.
Hypothesis Hpage : forall k, (k0 <= k < n)%nat -> present k ->
  page_ok (frame k) /\ frame k ∉ l0 /\ ~ owns (k_mem s0) P (frame k).
Hypothesis Hinj : forall j k, (k0 <= j < k)%nat -> (k < n)%nat -> present j -> present k -> frame j <> frame k.
Hypothesis Hown : forall k, (k0 <= k < n)%nat -> present k -> exists a,
  pt_addr (k_mem s0) P (vpage k) = Some a /\ mapped_by s0 (PTE_ADDR (pte0 k) / PGSIZE) (a :: own k).

(** Pages without a present entry do not matter. *)
Lemma shrunk_skip k k' s freed : shrunk k s freed ->
  (forall va, vpage k <= va < vpage k' \/ vpage k' <= va < vpage k ->
     has (pte_of (k_mem s0) P va) PTE_P = false) ->
  shrunk k' s freed.
Proof.
  intros [R O A T Pt F Fr D Rm Pr V] Habs.
  assert (forall j, present j -> (k0 <= j < k')%nat <-> (k0 <= j < k)%nat) as Hj.
  { intros j Hp. assert (~ (k <= j < k' \/ k' <= j < k)%nat) as Hno; [|lia]. intros Hj.
    assert (has (pte0 j) PTE_P = false) as E by (apply Habs; unfold vpage; klia).
    unfold present in Hp. congruence. }
  split; [done..| | |done| | |done|done].
  - intros va Hva. rewrite Pt by done. apply decide_ext.
    destruct (has (pte_of (k_mem s0) P va) PTE_P) eqn:E; [|by split; intros [_ ?]].
    assert (~ (vpage k <= va < vpage k' \/ vpage k' <= va < vpage k)).
    { intros H%Habs. congruence. }
    split; intros [Hr _]; (split; [lia|done]).
  - intros f. rewrite F. split; intros (j & Hr & Hp & E); exists j; (split; [by apply (Hj j Hp)|done]).
  - intros j Hr Hp. apply D; [by apply Hj|done].
  - intros pg Hpg. apply Rm. intros j Hr Hp. apply Hpg; [by apply Hj|done].
Qed.

Lemma vpage_S k : vpage (S k) = vpage k + PGSIZE.
Proof. unfold vpage. lia. Qed.
Lemma vpage_le j k : (j <= k)%nat -> vpage j <= vpage k.
Proof. unfold vpage. klia. Qed.
Lemma vpage_page k va : (k < n)%nat -> 0 <= va < two32 ->
  same_vpage (vpage k) va <-> vpage k <= va < vpage (S k).
Proof. intros. rewrite vpage_S. apply same_vpage_aligned; [unfold vpage; klia..|done]. Qed.

Lemma present_range k va : (k < n)%nat -> vpage k <= va < vpage (S k) ->
  pte_of (k_mem s0) P va = pte0 k /\ same_vpage (vpage k) va.
Proof.
  intros Hk Hva. assert (same_vpage (vpage k) va) as Hs
    by (apply same_vpage_aligned; unfold vpage in *; klia).
  split; [|done]. symmetry. by apply pte_of_vpage.
Qed.

(** Frames of different pages have different numbers. *)
Lemma frame_num j k : (k0 <= j < n)%nat -> (k0 <= k < n)%nat -> present j -> present k -> j <> k ->
  PTE_ADDR (pte0 j) / PGSIZE <> PTE_ADDR (pte0 k) / PGSIZE.
Proof.
  intros Hj Hk Pj Pk Hne E. pose proof (PTE_ADDR_aligned (pte0 j)). pose proof (PTE_ADDR_aligned (pte0 k)).
  assert (PTE_ADDR (pte0 j) = PTE_ADDR (pte0 k)) as E' by klia.
  assert (frame j = frame k) as Ef by (unfold frame; by rewrite E').
  destruct (decide (j < k)%nat).
  - apply (Hinj j k); [lia|lia|done..].
  - apply (Hinj k j); [lia|lia|done..].
Qed.

(** Page [k] is removed. *)
Lemma shrunk_remove k s freed s' r : (k0 <= k < n)%nat -> present k -> shrunk k s freed ->
  k_proc s = <[c := set_p_rss r pr0]> (k_proc s0) -> pte_of (k_mem s) P (vpage k) = pte0 k ->
  page_removed s s' P (vpage k) (own k) c (set_p_rss r pr0) (freed ++ l0) ->
  exists freed', shrunk (S k) s' freed'.
Proof.
  intros Hk Hp [R O A T Pt F Fr D Rm _ V] Hpr Epte [Rr Ro Ra Rt Rp Rf Rown Rrm Rpr Rvm].
  rewrite Epte in *. fold (frame k) in *.
  exists (match own k with [] => [frame k] | _ => [] end ++ freed).
  assert (forall f, f ∈ match own k with [] => [frame k] | _ => [] end ++ freed <->
    (own k = [] /\ f = frame k) \/ f ∈ freed) as Hfr.
  { intros f. rewrite elem_of_app. destruct (own k).
    - rewrite list_elem_of_singleton. tauto.
    - rewrite elem_of_nil. split; [by intros [?|?]; [|right]|by intros [[? _]|?]; [|right]]. }
  assert (forall j, (k0 <= j < S k)%nat -> j <> k -> (k0 <= j < k)%nat) as Hj by lia.
  split.
  - by rewrite <-app_assoc.
  - intros p. by rewrite Ro.
  - intros va. by rewrite Ra.
  - intros i Hi. by rewrite Rt, T.
  - intros va Hva. rewrite Rp. pose proof (vpage_le k0 k ltac:(lia)). pose proof (vpage_le k (S k) ltac:(lia)).
    destruct (decide (same_vpage (vpage k) va)) as [Hs|Hs]; rewrite vpage_page in Hs by (lia || done).
    + rewrite decide_True; [done|]. split; [lia|].
      destruct (present_range k va) as [E _]; [lia|lia|]. by rewrite E.
    + rewrite Pt by done. apply decide_ext. split; intros [Hr He]; (split; [lia|done]).
  - intros f. rewrite Hfr, F. split.
    + intros [[Ho ->]|(j & Hr & Hj')]; [by exists k; split_and!; [lia|lia|..]|exists j; split; [lia|done]].
    + intros (j & Hr & Pj & Oj & ->). destruct (decide (j = k)) as [->|Hne]; [by left|right].
      exists j. split; [by apply Hj|done].
  - intros p Hpa Ho Hnf. rewrite Hfr in Hnf. apply (same_page_trans _ (k_mem s)); [apply Fr; tauto|].
    apply Rf; [done|by rewrite O|]. intros Eo ->. apply Hnf. by left.
  - intros j Hr Pj. destruct (decide (j = k)) as [->|Hne]; [done|].
    unfold mapped_by. rewrite Rrm; [apply D; [by apply Hj|done]|]. apply frame_num; [lia|lia|done..].
  - intros pg Hpg. rewrite Rrm; [apply Rm; intros; apply Hpg; [lia|done]|].
    intros ->. by apply (Hpg k); [lia|..].
  - rewrite Rpr, Hpr, list_insert_insert_eq. destruct (0 <? p_rss (set_p_rss r pr0)).
    + by exists (u32 (r + - PGSIZE)).
    + by exists r.
  - by eapply vm_step_trans.
Qed.

Hypothesis Hc : k_proc s0 !! c = Some pr0.
Hypothesis Hwho : forall Q' s', k_cur s' = k_cur s0 -> Q' c s' -> wp who Q' s'.

(** The next page the loop looks at: the start of the next table when the
    table of page [k] does not exist. *)
Definition next_page (k : nat) : nat :=
  match table (k_mem s0) P (PDX (vpage k)) with Some _ => S k | None => (k / 1024 + 1) * 1024 end.

Lemma next_page_lt k : (k < next_page k)%nat.
Proof.
  unfold next_page. destruct (table _ _ _); [lia|].
  pose proof (Nat.div_mod_eq k 1024). pose proof (Nat.mod_upper_bound k 1024 ltac:(lia)). lia.
Qed.

Lemma no_table k va : (k < n)%nat -> table (k_mem s0) P (PDX (vpage k)) = None ->
  vpage k <= va < vpage ((k / 1024 + 1) * 1024) -> pte_of (k_mem s0) P va = 0.
Proof.
  intros Hk Ht Hva. unfold pte_of, pt_addr.
  assert (PDX va = PDX (vpage k)) as E.
  { pose proof (Nat.div_mod_eq k 1024). pose proof (Nat.mod_upper_bound k 1024 ltac:(lia)).
    unfold vpage in *. rewrite !PDX_eq, !u32_small by klia. klia. }
  by rewrite E, Ht.
Qed.

Lemma shrunk_step k s freed Q oldsz newsz :
  (k0 <= k < n)%nat -> oldsz <= KERNBASE -> vpage k < oldsz -> shrunk k s freed ->
  (forall s' freed', shrunk (next_page k) s' freed' -> Q (inl (vpage (next_page k))) s') ->
  wp (dealloc_step who P oldsz newsz (vpage k)) Q s.
Proof.
  intros Hk Hold Hva Hsk HQ. unfold dealloc_step. rewrite (proj2 (Z.ltb_lt _ _)) by done.
  assert (0 <= vpage k < KERNBASE) as Hvk by (unfold vpage in *; klia).
  wp_step. destruct (table (k_mem s0) P (PDX (vpage k))) as [t|] eqn:Ht.
  - assert (next_page k = S k) as En by (unfold next_page; by rewrite Ht). rewrite En in HQ.
    assert (pt_addr (k_mem s0) P (vpage k) = Some (t + 4 * PTX (vpage k))) as Ha
      by (unfold pt_addr; by rewrite Ht).
    pose proof (sk_ready _ _ _ Hsk) as Hr. rewrite <-(sk_addr _ _ _ Hsk) in Ha.
    assert (pte_of (k_mem s) P (vpage k) = pte0 k) as Epte.
    { rewrite (sk_pte _ _ _ Hsk) by klia. by rewrite decide_False by lia. }
    eapply wp_walkpgdir_Some; [done|].
    rewrite (proj2 (Z.eqb_neq _ _)) by (apply (pt_addr_nonzero (k_mem s) P (vpage k)); [apply Hr|done]).
    wp_step. apply wp_load.
    assert (ld (k_mem s) (t + 4 * PTX (vpage k)) = pte0 k) as Hld.
    { rewrite <-Epte. unfold pte_of. by rewrite Ha. }
    rewrite Hld. wp_step. apply wp_when; intros Hp.
    + destruct (sk_proc _ _ _ Hsk) as (r & Hpr).
      destruct (Hown k) as (a & Ha0 & Hmb); [lia|done|].
      destruct (Hpage k) as (Fok & Fl & Fo); [lia|done|].
      rewrite <-Epte. apply (wp_dealloc_page who P (vpage k) _ (own k) c (set_p_rss r pr0) (freed ++ l0)).
      all: rewrite ?Epte; fold (frame k).
      * done.
      * done.
      * done.
      * rewrite not_elem_of_app, (sk_freed _ _ _ Hsk). split; [|done].
        intros (j & Hj & Pj & _ & E). by apply (Hinj j k); [lia|lia|..].
      * by rewrite (sk_owns _ _ _ Hsk).
      * rewrite (sk_addr _ _ _ Hsk), Ha0 in Ha. injection Ha as <-.
        unfold mapped_by. rewrite (sk_rmap _ _ _ Hsk); [exact Hmb|].
        intros j Hj Pj. apply frame_num; [lia|lia|done|done|lia].
      * rewrite Hpr. apply list_lookup_insert_eq. by eapply lookup_lt_Some.
      * intros Q' s' Hcur. apply Hwho. rewrite Hcur.
        destruct (sk_vm _ _ _ Hsk) as (?&?&?&?&?&?&->). done.
      * intros s' Hrem. wp_steps. rewrite u32_small by klia. rewrite <-vpage_S.
        destruct (shrunk_remove k s freed s' r) as (freed' & Hsk'); [lia|done|done|done|done|done|].
        by eapply HQ.
    + wp_steps. rewrite u32_small by klia. rewrite <-vpage_S. eapply HQ, shrunk_skip; [done|].
      pose proof (vpage_le k (S k) ltac:(lia)).
      intros va' Hva'. destruct (present_range k va') as [E _]; [lia|lia|]. by rewrite E.
  - assert (next_page k = (k / 1024 + 1) * 1024)%nat as En by (unfold next_page; by rewrite Ht).
    assert (pt_addr (k_mem s0) P (vpage k) = None) as Ha by (unfold pt_addr; by rewrite Ht).
    apply wp_walkpgdir. rewrite (sk_addr _ _ _ Hsk), Ha. change (default 0 None =? 0) with true.
    cbn iota. wp_steps.
    replace (u32 _) with (vpage (next_page k)).
    + eapply HQ, shrunk_skip; [done|].
      pose proof (next_page_lt k). pose proof (vpage_le k (next_page k) ltac:(lia)).
      rewrite En in *. intros va' Hva'. by rewrite (no_table k va') by (lia || done).
    + rewrite En. assert (0 <= PDX (vpage k) < 512) as Hpd.
      { rewrite PDX_eq, u32_small by klia. klia. }
      rewrite PGADDR_eq by klia. rewrite PDX_eq, (u32_small (vpage k)) by klia.
      pose proof (Nat.div_mod_eq k 1024). pose proof (Nat.mod_upper_bound k 1024 ltac:(lia)).
      assert (vpage k / 0x400000 = Z.of_nat (k / 1024)) as E.
      { rewrite Nat2Z.inj_div. change 0x400000 with (1024 * PGSIZE). by apply Z.div_mul_cancel_r. }
      assert (vpage k < 0x80000000) as Hvk2 by klia.
      rewrite E, (u32_small (_ - _)), u32_small by (unfold vpage in *; klia). unfold vpage. klia.
Qed.

Hypothesis Hr0 : pt_ready s0 P l0.
Hypothesis Hk0n : (k0 <= n)%nat.

Lemma shrunk_0 : shrunk k0 s0 [].
Proof.
  split; [done|done|done|done| | |intros; apply same_page_refl|lia|done| |apply vm_step_refl].
  - intros va Hva. by rewrite decide_False by lia.
  - intros f. split; [by intros ?%elem_of_nil|]. intros (j & Hj & _). lia.
  - exists (p_rss pr0). rewrite list_insert_id; [done|]. rewrite Hc. by destruct pr0.
Qed.

Lemma wp_dealloc oldsz newsz Q :
  n = npages oldsz -> k0 = npages newsz -> 0 <= newsz < oldsz -> oldsz <= KERNBASE ->
  (forall s' freed, shrunk n s' freed -> Q newsz s') ->
  wp (dealloc who P oldsz newsz) Q s0.
Proof.
  intros En Ek Hsz Hold HQ. unfold dealloc. rewrite (proj2 (Z.leb_gt _ _)) by lia.
  rewrite PGROUNDUP_npages, <-Ek by lia. fold (vpage k0).
  apply (wp_while _ (fun a s => exists k freed, a = vpage k /\ (k0 <= k)%nat /\ shrunk k s freed /\
    forall va, vpage n <= va < vpage k -> has (pte_of (k_mem s0) P va) PTE_P = false)
    (fun a => n - Z.to_nat (a / PGSIZE))%nat).
  - intros a s (k & freed & -> & Hk & Hsk & Habs). destruct (decide (k < n)%nat) as [Hlt|Hge].
    + apply (shrunk_step k s freed); [lia|done| |done|].
      { rewrite En in Hlt. apply npages_range in Hlt. apply Hlt. }
      intros s' freed' Hsk'. pose proof (next_page_lt k). split.
      * exists (next_page k), freed'. split; [done|]. split; [lia|]. split; [done|].
        intros va Hva. unfold next_page in Hva. destruct (table _ _ (PDX (vpage k))) eqn:Ht.
        -- pose proof (vpage_le (S k) n ltac:(lia)). lia.
        -- pose proof (vpage_le k n ltac:(lia)). by rewrite (no_table k va) by (lia || done).
      * unfold vpage. rewrite !Z.div_mul by done. lia.
    + unfold dealloc_step. rewrite (proj2 (Z.ltb_ge _ _)).
      * wp_steps. eapply HQ, shrunk_skip; [done|]. pose proof (vpage_le n k ltac:(lia)).
        intros va Hva. apply Habs. lia.
      * destruct (decide (vpage k < oldsz)) as [Hlt|]; [|lia]. exfalso. apply Hge. rewrite En.
        apply npages_range. unfold vpage in Hlt. klia.
  - unfold vpage. rewrite Z.div_mul by done. rewrite Nat2Z.id. unfold npages in *. klia.
  - exists k0, []. split; [done|]. split; [done|]. split; [apply shrunk_0|].
    pose proof (vpage_le k0 n Hk0n). lia.
Qed.
End shrink.
End shrinking.

(** ** Properties *)

(** What [deallocuvm] needs to know of the pages [k0] to [n] of [P]: those
    present are allocator pages in different frames, outside the page table
    and the free list, and the reverse map records [P]'s entry for each next
    to those of the other sharers, [own]. *)
Record shrink_pre {I : KernelImage} s P (c : nat) pr0 (own : nat -> list Z) (k0 n : nat) l : Prop := {
  sp_ready : pt_ready s P l;
  sp_page : forall k, (k0 <= k < n)%nat -> let e := pte_of (k_mem s) P (Z.of_nat k * PGSIZE) in
    has e PTE_P = true ->
    page_ok (P2V (PTE_ADDR e)) /\ P2V (PTE_ADDR e) ∉ l /\ ~ owns (k_mem s) P (P2V (PTE_ADDR e));
  sp_inj : forall j k, (k0 <= j < k)%nat -> (k < n)%nat ->
    let e k := pte_of (k_mem s) P (Z.of_nat k * PGSIZE) in
    has (e j) PTE_P = true -> has (e k) PTE_P = true -> P2V (PTE_ADDR (e j)) <> P2V (PTE_ADDR (e k));
  sp_own : forall k, (k0 <= k < n)%nat -> let e := pte_of (k_mem s) P (Z.of_nat k * PGSIZE) in
    has e PTE_P = true -> exists a,
    pt_addr (k_mem s) P (Z.of_nat k * PGSIZE) = Some a /\
    mapped_by s (PTE_ADDR e / PGSIZE) (a :: own k);
  sp_cur : k_cur s = Some c;
  sp_proc : k_proc s !! c = Some pr0;
}.

Lemma P2V_inj x y : 0 <= x < two32 -> 0 <= y < two32 -> P2V x = P2V y -> x = y.
Proof. intros Hx Hy E. by rewrite <-(V2P_P2V x), <-(V2P_P2V y), E. Qed.

Lemma PTE_ADDR_u32 e : 0 <= PTE_ADDR e < two32.
Proof. pose proof (PTE_ADDR_range e). klia. Qed.

Section properties.
Context {I : KernelImage} {Iok : KernelImageOk I}.

(** [deallocuvm] returns the new size; no page between the sizes can be
    read any more and every page below the new size is read as before; the
    pages that go to the free list are exactly those that nobody shares; a
    page that is still shared keeps its contents and its other owners. *)
Theorem deallocuvm_removes_pages P oldsz newsz c pr0 own l s :
  0 <= newsz < oldsz -> oldsz <= KERNBASE ->
  shrink_pre s P c pr0 own (npages newsz) (npages oldsz) l ->
  frames (k_mem s) P (fun f => ~ owns (k_mem s) P f) ->
  (forall va k, 0 <= va < Z.of_nat (npages newsz) * PGSIZE -> (npages newsz <= k < npages oldsz)%nat ->
     has (pte_of (k_mem s) P va) PTE_P = true ->
     PTE_ADDR (pte_of (k_mem s) P va) <> PTE_ADDR (pte_of (k_mem s) P (Z.of_nat k * PGSIZE))) ->
  wp (deallocuvm P oldsz newsz) (fun r s' => r = newsz /\
    (forall va, Z.of_nat (npages newsz) * PGSIZE <= va < Z.of_nat (npages oldsz) * PGSIZE ->
       uread (k_mem s') P va = None) /\
    (forall va, 0 <= va < Z.of_nat (npages newsz) * PGSIZE ->
       uread (k_mem s') P va = uread (k_mem s) P va) /\
    (exists freed, free_ok s' (freed ++ l) /\ forall f, f ∈ freed <->
       exists k, (npages newsz <= k < npages oldsz)%nat /\ own k = [] /\
         has (pte_of (k_mem s) P (Z.of_nat k * PGSIZE)) PTE_P = true /\
         f = P2V (PTE_ADDR (pte_of (k_mem s) P (Z.of_nat k * PGSIZE)))) /\
    (forall k, (npages newsz <= k < npages oldsz)%nat ->
       let e := pte_of (k_mem s) P (Z.of_nat k * PGSIZE) in has e PTE_P = true ->
       mapped_by s' (PTE_ADDR e / PGSIZE) (own k) /\
       (own k <> [] -> same_page (k_mem s) (k_mem s') (P2V (PTE_ADDR e))))) s.
Proof.
  intros Hsz Hold [Hr Hpage Hinj Hown Hcur Hproc] Hfr Hdisj.
  set (k0 := npages newsz) in *. set (n := npages oldsz) in *.
  assert (Z.of_nat n * PGSIZE <= KERNBASE) as Hn by (unfold n, npages; klia).
  assert (k0 <= n)%nat as Hk0 by (unfold k0, n, npages; klia).
  apply (wp_dealloc curproc s l P c pr0 own k0 n); try done.
  { intros Q' s' E. apply wp_curproc. by rewrite E. }
  intros s' freed [R O A T Pt F Fr D Rm Pr V]. split; [done|]. split; [|split; [|split]].
  - intros va Hva. unfold uread. rewrite Pt by klia. case_decide as Hd; [done|].
    destruct (has (pte_of (k_mem s) P va) PTE_P) eqn:E; [|done]. destruct Hd. done.
  - intros va Hva. assert (pte_of (k_mem s') P va = pte_of (k_mem s) P va) as E.
    { rewrite Pt by klia. by rewrite decide_False by lia. }
    unfold uread. rewrite E. destruct (has (pte_of (k_mem s) P va) PTE_P) eqn:EP; [|done].
    destruct (has _ PTE_U); [|done]. cbn. f_equal.
    apply (Fr (P2V (PTE_ADDR (pte_of (k_mem s) P va)))); [apply frame_aligned| | |klia].
    + apply Hfr; [klia|done].
    + rewrite F. intros (k & Hk & Pk & _ & Ef).
      apply (Hdisj va k Hva Hk EP). by apply P2V_inj in Ef; [|apply PTE_ADDR_u32..].
  - exists freed. split; [apply R|]. intros f. rewrite F. split; intros (k & ?&?&?&?); by exists k.
  - intros k Hk e He. split; [by apply D|]. intros Hne. apply Fr; [apply frame_aligned| |].
    + apply Hpage; done.
    + rewrite F. intros (j & Hj & Pj & Oj & Ef). destruct (decide (j = k)) as [->|Hjk]; [done|].
      destruct (decide (j < k)%nat); [apply (Hinj j k); [lia|lia|done..]|].
      apply (Hinj k j); [lia|lia|done..].
Qed.
End properties.

(** ** Instances *)

#[local] Existing Instance img.

Lemma deallocuvm_removes_pages_witness :
  wp (deallocuvm pgdir0 PGSIZE 0) (fun r s' => r = 0 /\ uread (k_mem s') pgdir0 5 = None /\
    exists freed, frame0 ∈ freed /\ free_ok s' (freed ++ free0)) state0.
Proof.
  assert (forall k, (npages 0 <= k < npages PGSIZE)%nat -> k = 0%nat) as Hk.
  { intros k [_ Hk%npages_range]. klia. }
  destruct sample_frame0 as (Hok & Ho & Hl).
  eapply wp_mono.
  - apply (deallocuvm_removes_pages pgdir0 PGSIZE 0 0 proc0 (fun _ => []) free0).
    + done.
    + done.
    + split; [apply sample_ready|..|done|done].
      * intros k ->%Hk. cbn zeta. by rewrite sample_pte.
      * intros j k [Hj1 Hj2] Hj3. pose proof (Hk k ltac:(lia)). lia.
      * intros k ->%Hk. cbn zeta. rewrite sample_pte by done. intros _. exists table0.
        split; [|apply sample_mapped]. unfold pt_addr. rewrite sample_table by apply PDX_range. reflexivity.
    + by apply sample_frames.
    + intros va k Hva. exfalso. change (Z.of_nat (npages 0) * PGSIZE) with 0 in Hva. lia.
  - intros r s' (-> & Hn & _ & (freed & Hf & Hi) & _). split; [done|]. split.
    + apply Hn. split; [discriminate|reflexivity].
    + exists freed. split; [|exact Hf]. apply Hi. exists 0%nat.
      split; [split; [apply Nat.le_refl|apply Nat.ltb_lt; reflexivity]|].
      split; [done|]. by rewrite sample_pte.
Defined.
