(* ===== verification/VmFree.v ===== *)
(** * Freeing an address space

    [freevm] and [freevm2] of [vm.c]: the user pages that nobody shares, the
    page tables and the directory go back to the free list. *)

From Stdlib Require Import ZArith Lia.
From stdpp Require Import base strings numbers gmap list.
From S2P Require Import Prelude Mmu Memory Kernel Sample Sleeplock Bio Kmem Rmap PageTable Swap.
From S2P Require Import Kalloc Vm VmKernel SampleTables VmUser VmGrow VmShrink.

Section freeing.
Context {I : KernelImage} {Iok : KernelImageOk I}.
Implicit Types (s : kstate) (P p v : Z) (l freed : list Z).

(** ** The page tables *)

(** The first [t] tables of [P] are free. *)
Record tables_freed s P l (t : Z) s' freed : Prop := {
  tf_free : free_ok s' (freed ++ l);
  tf_in : forall p, p ∈ freed <-> exists i, 0 <= i < t /\ table (k_mem s) P i = Some p;
  tf_same : forall p, p mod PGSIZE = 0 -> p ∉ freed -> same_page (k_mem s) (k_mem s') p;
  tf_step : kmem_step s s';
}.

Lemma tables_freed_next s P l t s' freed p : pt_ready s P l -> 0 <= t < NPDENTRIES -> tables_freed s P l t s' freed ->
  table (k_mem s) P t = Some p -> tables_freed s P l (t + 1) (kfree_state p s') (p :: freed).
Proof.
  intros Hr Ht [Hf Hin Hsame Hk] Hp. destruct Hr as [_ Hu Hwf Hfresh]. destruct (wf_table _ _ Hwf t p Ht Hp) as [Hok Hpd].
  assert (p ∉ freed) as Hnf.
  { intros (i & Hi & Hi')%Hin. pose proof (wf_inj _ _ Hwf i t p ltac:(lia) Ht Hi' Hp). lia. }
  assert (p ∉ l) as Hnl. { intros Hl. apply (Hfresh p Hl). right. by exists t. }
  split.
  - apply kfree_state_free_ok; [done|rewrite elem_of_app; tauto|done].
  - intros q. rewrite elem_of_cons, Hin. split.
    + intros [->|(i & Hi & Hi')]; [exists t|exists i]; (split; [lia|done]).
    + intros (i & Hi & Hi'). destruct (decide (i = t)) as [->|]; [left; congruence|right]. exists i. split; [lia|done].
  - intros q Hq [Hqp Hqf]%not_elem_of_cons. eapply same_page_trans; [by apply Hsame|].
    intros a Ha. apply kfree_state_mem_out; [done|]. destruct Hok as [Hp0 _]. destruct (page_disjoint p q Hp0 Hq); [congruence|klia..].
  - eapply kmem_step_trans; [done|apply kmem_step_kfree].
Qed.

Lemma wp_free_tables P l Q s : pt_ready s P l ->
  (forall s' freed, free_ok s' (freed ++ l) -> (forall p, p ∈ freed <-> owns (k_mem s) P p) ->
     (forall p, p mod PGSIZE = 0 -> ~ owns (k_mem s) P p -> same_page (k_mem s) (k_mem s') p) -> kmem_step s s' -> Q tt s') ->
  wp (free_tables P) Q s.
Proof.
  intros Hr HQ. unfold free_tables. wp_step.
  assert (P mod PGSIZE = 0) as HP0 by apply (wf_dir _ _ (pr_wf _ _ _ Hr)).
  assert (forall t s' freed, t <= NPDENTRIES -> tables_freed s P l t s' freed -> P ∉ freed) as HPf.
  { intros t s' freed Ht Htf (i & Hi & Hi')%(tf_in _ _ _ _ _ _ Htf). by destruct (wf_table _ _ (pr_wf _ _ _ Hr) i P ltac:(lia) Hi'). }
  apply (wp_for_seqZ _ _ (fun t _ s' => exists freed, tables_freed s P l (Z.of_nat t) s' freed)); [done| | |].
  - intros t [] s' Ht [freed Htf]. wp_step. apply wp_load.
    assert (ld (k_mem s') (P + 4 * Z.of_nat t) = ld (k_mem s) (P + 4 * Z.of_nat t)) as ->.
    { apply same_page_ld; [|unfold NPDENTRIES in Ht; lia]. apply (tf_same _ _ _ _ _ _ Htf); [done|]. eapply HPf; [|done]. lia. }
    set (v := ld _ _). assert (table (k_mem s) P (Z.of_nat t) = if has v PTE_P then Some (P2V (PTE_ADDR v)) else None) as Hv by reflexivity.
    rewrite Nat2Z.inj_succ. wp_step. destruct (has v PTE_P); cbn [when].
    + apply wp_kfree.
      * by apply (wf_table _ _ (pr_wf _ _ _ Hr) (Z.of_nat t)) in Hv as [? _]; [|lia].
      * eapply kmem_step_unlocked; [apply (tf_step _ _ _ _ _ _ Htf)|apply Hr].
      * wp_step. eexists. eapply tables_freed_next; [done|lia|done|done].
    + wp_steps. exists freed. destruct Htf as [H1 H2 H3 H4]. split; [done| |done|done].
      intros p. rewrite H2. split; intros (i & Hi & Hi'); exists i; (split; [|done]); [lia|].
      destruct (decide (i = Z.of_nat t)) as [->|]; [congruence|lia].
  - intros [] s' [freed Htf]. change (Z.of_nat (Z.to_nat NPDENTRIES)) with NPDENTRIES in Htf.
    pose proof (HPf _ _ _ ltac:(done) Htf) as HPn. destruct Htf as [H1 H2 H3 H4].
    assert (page_ok P) as HPok by apply (wf_dir _ _ (pr_wf _ _ _ Hr)).
    assert (P ∉ l) as HPl by (intros Hl; apply (pr_fresh _ _ _ Hr P Hl); by left).
    apply wp_kfree; [done|eapply kmem_step_unlocked; [done|apply Hr]|].
    apply (HQ _ (P :: freed)).
    + apply kfree_state_free_ok; [done|rewrite elem_of_app; tauto|done].
    + intros p. rewrite elem_of_cons, H2. unfold owns. done.
    + intros p Hp Ho. eapply same_page_trans; [apply H3; [done|]|].
      * rewrite H2. intros Hi. apply Ho. by right.
      * intros a Ha. apply kfree_state_mem_out; [done|]. destruct (page_disjoint P p HP0 Hp); [intros ->; apply Ho; by left|klia..].
    + eapply kmem_step_trans; [done|apply kmem_step_kfree].
  - exists []. split; [apply Hr| |intros; apply same_page_refl|apply kmem_step_refl].
    intros p. split; [by intros ?%elem_of_nil|]. intros (i & Hi & _). lia.
Qed.

(** ** The whole address space *)

Definition NPAGES : nat := npages KERNBASE.
Definition upte s P (k : nat) : Z := pte_of (k_mem s) P (Z.of_nat k * PGSIZE).

(** The user pages of [P] that are present are allocator pages in different
    frames, outside the page table and the free list [l], and the reverse map
    records for page [k] the entry of [P] next to the entries [own k]. *)
Record space s P (own : nat -> list Z) l : Prop := {
  sc_ready : pt_ready s P l;
  sc_page : forall k, (k < NPAGES)%nat -> has (upte s P k) PTE_P = true ->
    page_ok (P2V (PTE_ADDR (upte s P k))) /\ P2V (PTE_ADDR (upte s P k)) ∉ l /\ ~ owns (k_mem s) P (P2V (PTE_ADDR (upte s P k)));
  sc_inj : forall j k, (j < k < NPAGES)%nat -> has (upte s P j) PTE_P = true -> has (upte s P k) PTE_P = true ->
    P2V (PTE_ADDR (upte s P j)) <> P2V (PTE_ADDR (upte s P k));
  sc_own : forall k, (k < NPAGES)%nat -> has (upte s P k) PTE_P = true ->
    exists a, pt_addr (k_mem s) P (Z.of_nat k * PGSIZE) = Some a /\ mapped_by s (PTE_ADDR (upte s P k) / PGSIZE) (a :: own k);
}.

(** The pages that only [P] uses: its tables and the frames without another
    owner. *)
Definition private s P (own : nat -> list Z) (p : Z) : Prop :=
  owns (k_mem s) P p \/ exists k, (k < NPAGES)%nat /\ has (upte s P k) PTE_P = true /\ own k = [] /\ p = P2V (PTE_ADDR (upte s P k)).

Record space_freed s s' P own l freed (c : nat) pr0 : Prop := {
  sf_free : free_ok s' (freed ++ l);
  sf_in : forall p, p ∈ freed <-> private s P own p;
  sf_same : forall p, p mod PGSIZE = 0 -> ~ private s P own p -> same_page (k_mem s) (k_mem s') p;
  sf_owner : forall k, (k < NPAGES)%nat -> has (upte s P k) PTE_P = true -> mapped_by s' (PTE_ADDR (upte s P k) / PGSIZE) (own k);
  sf_rmap : forall pg, (forall k, (k < NPAGES)%nat -> has (upte s P k) PTE_P = true -> PTE_ADDR (upte s P k) / PGSIZE <> pg) ->
    zlookup (k_rmap s') pg = zlookup (k_rmap s) pg;
  sf_proc : exists r, k_proc s' = <[c := set_p_rss r pr0]> (k_proc s);
  sf_vm : vm_step s s';
}.

Lemma wp_free_space who P own l c pr0 Q s : space s P own l -> k_proc s !! c = Some pr0 ->
  (forall Q' s', k_cur s' = k_cur s -> Q' c s' -> wp who Q' s') ->
  (forall s' freed, space_freed s s' P own l freed c pr0 -> Q tt s') ->
  wp (dealloc who P KERNBASE 0;; free_tables P) Q s.
Proof.
  intros [Hr Hpage Hinj Hown] Hc Hwho HQ. wp_step.
  apply (wp_dealloc who s l P c pr0 own 0 NPAGES); [vm_compute; discriminate|by intros k [_ Hk]; apply Hpage|
    |by intros k [_ Hk]; apply Hown|done|done|done|lia|reflexivity|reflexivity|vm_compute; split; [discriminate|reflexivity]|done|].
  { intros j k Hj Hk. apply Hinj. lia. }
  intros s1 freed1 [R O _ T _ F Fr D Rm Pr V].
  apply (wp_free_tables P (freed1 ++ l)); [done|]. intros s2 freed2 Hf2 Hin2 Hsame2 Hk2.
  assert (forall p, p ∈ freed2 ++ freed1 <-> private s P own p) as Hin.
  { intros p. rewrite elem_of_app, Hin2, O, F. unfold private, upte. split; intros [?|(k & H)]; auto; right; exists k; destruct_and?; split_and!; try done; lia. }
  apply (HQ s2 (freed2 ++ freed1)). destruct (kmem_step_rmap _ _ Hk2) as [Erm Eps]. split.
  - by rewrite <-app_assoc.
  - done.
  - intros p Hp Hno. rewrite <-Hin, elem_of_app, Hin2 in Hno. eapply same_page_trans; [apply Fr|apply Hsame2]; try done.
    + intros Ho. apply Hno. left. by apply O.
    + intros Hf. apply Hno. by right.
    + intros Ho. apply Hno. by left.
  - intros k Hk Hpk. unfold mapped_by. rewrite Erm. apply D; [lia|done].
  - intros pg Hpg. rewrite Erm. apply Rm. intros j Hj. apply Hpg. lia.
  - destruct Pr as (r & ->) in Eps. by exists r.
  - eapply vm_step_trans; [done|]. by apply vm_step_kmem.
Qed.

(** [freevm], on behalf of the running process, and [freevm2]. *)
Lemma wp_freevm P own l c pr0 Q s : space s P own l -> k_cur s = Some c -> k_proc s !! c = Some pr0 ->
  (forall s' freed, space_freed s s' P own l freed c pr0 -> Q tt s') -> wp (freevm P) Q s.
Proof.
  intros Hs Hcur Hc HQ. unfold freevm. rewrite (proj2 (Z.eqb_neq _ _)) by (apply page_ok_nonzero, (wf_dir _ _ (pr_wf _ _ _ (sc_ready _ _ _ _ Hs)))).
  eapply wp_free_space; [done|done| |done]. intros Q' s' E. apply wp_curproc. congruence.
Qed.
Lemma wp_freevm2 P own l c pr0 Q s : space s P own l -> k_proc s !! c = Some pr0 ->
  (forall s' freed, space_freed s s' P own l freed c pr0 -> Q tt s') -> wp (freevm2 P c) Q s.
Proof.
  intros Hs Hc HQ. unfold freevm2. rewrite (proj2 (Z.eqb_neq _ _)) by (apply page_ok_nonzero, (wf_dir _ _ (pr_wf _ _ _ (sc_ready _ _ _ _ Hs)))).
  eapply wp_free_space; [done|done| |done]. intros Q' s' _ H. by apply wp_ret.
Qed.
End freeing.
