(* ===== verification/SwapOut.v ===== *)
(** * Swapping a page out

    [select_victim_process], [select_a_victim] and
    [find_new_page_after_swapping] of [proc.c] on the page tables read as
    functions. *)

From Stdlib Require Import ZArith Lia.
From stdpp Require Import base strings numbers gmap list.
From S2P Require Import Prelude Mmu Memory Kernel Sample Sleeplock Bio Kmem Rmap PageTable Swap.
From S2P Require Import Kalloc Vm VmKernel SampleTables VmUser VmGrow VmShrink.

(** ** The victim process *)

(** [p] is to be preferred to [q]: more resident memory, or as much and an
    older or equal pid. *)
Definition preferred (p q : proc) : Prop :=
  p_rss q < p_rss p \/ (p_rss q = p_rss p /\ p_pid p <= p_pid q).

Lemma scan_victim_spec ps pre (v : nat) pv :
  (pre ++ ps) !! v = Some pv -> Forall (preferred pv) pre ->
  exists pw, (pre ++ ps) !! scan_victim (length pre) ps v (p_rss pv) (p_pid pv) = Some pw /\
    Forall (preferred pw) (pre ++ ps) /\ preferred pw pv.
Proof.
  revert pre v pv. induction ps as [|q ps IH]; intros pre v pv Hv Hpre; cbn [scan_victim].
  - rewrite app_nil_r in *. exists pv. split; [done|]. split; [done|]. right. lia.
  - assert ((pre ++ q :: ps) !! length pre = Some q) as Hq by (by rewrite list_lookup_middle).
    assert (forall w pw, (pre ++ q :: ps) !! w = Some pw -> Forall (preferred pw) pre -> preferred pw q ->
      exists pw', (pre ++ q :: ps) !! scan_victim (S (length pre)) ps w (p_rss pw) (p_pid pw) = Some pw' /\
        Forall (preferred pw') (pre ++ q :: ps) /\ preferred pw' pw) as Hrec.
    { intros w pw Hw Hf Hpq. specialize (IH (pre ++ [q]) w pw).
      rewrite <-app_assoc, length_app, Nat.add_1_r in IH. apply IH; [done|].
      apply Forall_app. split; [done|]. by apply Forall_singleton. }
    assert (forall a b c, preferred a b -> preferred b c -> preferred a c) as Htrans
      by (unfold preferred; lia).
    destruct (Z.ltb_spec (p_rss pv) (p_rss q)) as [Hlt|Hge]; [|destruct (Z.eqb_spec (p_rss pv) (p_rss q)) as [E|Hne]].
    + destruct (Hrec (length pre) q Hq) as (pw & ? & ? & ?); [|right; lia|].
      { eapply Forall_impl; [exact Hpre|]. intros x Hx. apply (Htrans _ pv); [by left|done]. }
      exists pw. split; [done|]. split; [done|]. apply (Htrans _ q); [done|by left].
    + destruct (Z.ltb_spec (p_pid q) (p_pid pv)).
      * destruct (Hrec (length pre) q Hq) as (pw & Hs & ? & ?); [|right; lia|].
        { eapply Forall_impl; [exact Hpre|]. intros x Hx. apply (Htrans _ pv); [right; lia|done]. }
        rewrite E. exists pw. split; [done|]. split; [done|]. apply (Htrans _ q); [done|right; lia].
      * apply Hrec; [done|done|right; lia].
    + apply Hrec; [done|done|left; lia].
Qed.

Lemma wp_select_victim_process c pc Q s :
  k_cur s = Some c -> k_proc s !! c = Some pc ->
  (forall v pv, k_proc s !! v = Some pv -> Forall (preferred pv) (k_proc s) -> Q v s) ->
  wp select_victim_process Q s.
Proof.
  intros Hc Hpc HQ. unfold select_victim_process. wp_step. apply (wp_curproc c); [done|].
  wp_step. apply (wp_get_proc _ pc); [done|]. wp_steps.
  destruct (scan_victim_spec (k_proc s) [] c pc) as (pw & Hw & Hf & _); [done|done|].
  by eapply HQ.
Qed.

(** The victim process is one with the largest resident set, and among
    those the one with the smallest pid; nothing changes. *)
Theorem select_victim_process_max c pc s :
  k_cur s = Some c -> k_proc s !! c = Some pc ->
  wp select_victim_process (fun v s' => s' = s /\ exists pv, k_proc s !! v = Some pv /\
    forall q pq, k_proc s !! q = Some pq ->
      p_rss pq < p_rss pv \/ (p_rss pq = p_rss pv /\ p_pid pv <= p_pid pq)) s.
Proof.
  intros Hc Hpc. apply (wp_select_victim_process c pc); [done|done|].
  intros v pv Hv Hf. split; [done|]. exists pv. split; [done|].
  intros q pq Hq. rewrite Forall_lookup in Hf. exact (Hf q pq Hq).
Qed.

Lemma select_victim_process_max_witness :
  wp select_victim_process (fun v s' => s' = state0 /\ exists pv, k_proc state0 !! v = Some pv) state0.
Proof.
  eapply wp_mono.
  - apply (select_victim_process_max 0 proc0 state0); done.
  - intros v s' (-> & pv & Hv & _). split; [done|]. by exists pv.
Defined.

(** ** The sharers of the victim page *)

(** The slot after sharer [x], a process and the address of its entry, is
    recorded. *)
Definition record_sharer (w : swapslot) (x : nat * Z) : swapslot :=
  set_sw_cnt (sw_cnt w + 1)
    (set_sw_pte_id (zinsert (sw_cnt w) (snd x) (sw_pte_id w))
      (set_sw_proc_id (zinsert (sw_cnt w) (Some (fst x)) (sw_proc_id w)) w)).

(** Process [pr] has tables for all its pages, and [h] is the address of
    its first entry equal to [e]. *)
Definition first_sharer {I : KernelImage} (m : mem) (pr : proc) (e : Z) (h : option Z) : Prop :=
  p_sz pr <= KERNBASE /\ pt_wf m (p_pgdir pr) /\
  (forall j, (j < npages (p_sz pr))%nat -> is_Some (pt_addr m (p_pgdir pr) (Z.of_nat j * PGSIZE))) /\
  match h with
  | Some a => exists j, (j < npages (p_sz pr))%nat /\
      pt_addr m (p_pgdir pr) (Z.of_nat j * PGSIZE) = Some a /\ ld m a = e /\
      forall i, (i < j)%nat -> pte_of m (p_pgdir pr) (Z.of_nat i * PGSIZE) <> e
  | None => forall j, (j < npages (p_sz pr))%nat -> pte_of m (p_pgdir pr) (Z.of_nat j * PGSIZE) <> e
  end.

(** The sharers among the processes [ps], and the process table after
    their resident sets shrank. *)
Definition hits (hit : nat -> option Z) (ps : list nat) : list (nat * Z) :=
  omap (fun p => pair p <$> hit p) ps.
Definition unmapped (hit : nat -> option Z) (ps : list nat) (l : list proc) : list proc :=
  imap (fun p pr => if decide (p ∈ ps /\ is_Some (hit p)) then add_rss (- PGSIZE) pr else pr) l.

Lemma hits_app hit ps qs : hits hit (ps ++ qs) = hits hit ps ++ hits hit qs.
Proof. apply omap_app. Qed.

Lemma hits_snd hit ps : snd <$> hits hit ps = omap hit ps.
Proof.
  induction ps as [|p ps IH]; [done|]. unfold hits in *. cbn. destruct (hit p); cbn; by rewrite IH.
Qed.

Lemma length_hits hit ps : (length (hits hit ps) <= length ps)%nat.
Proof.
  induction ps as [|p ps IH]; [done|]. unfold hits in *. cbn. destruct (hit p); cbn; lia.
Qed.

Lemma sw_cnt_hits w xs : sw_cnt (foldl record_sharer w xs) = sw_cnt w + Z.of_nat (length xs).
Proof.
  revert w. induction xs as [|x xs IH]; intros w; cbn; [lia|]. rewrite IH. cbn. lia.
Qed.

Lemma record_sharers w xs : 0 <= sw_cnt w ->
  sw_cnt w + Z.of_nat (length xs) <= Z.of_nat (length (sw_proc_id w)) ->
  let w' := foldl record_sharer w xs in
  length (sw_pte_id w') = length (sw_pte_id w) /\ length (sw_proc_id w') = length (sw_proc_id w) /\
  (forall i, i < sw_cnt w -> zlookup (sw_proc_id w') i = zlookup (sw_proc_id w) i) /\
  (forall i x, xs !! i = Some x -> zlookup (sw_proc_id w') (sw_cnt w + Z.of_nat i) = Some (Some (fst x))).
Proof.
  revert w. induction xs as [|x xs IH]; intros w Hc Hlen; [by split_and!|].
  cbn [length] in Hlen. destruct (IH (record_sharer w x)) as (IH1 & IH2 & IH3 & IH4).
  { cbn. lia. }
  { cbn. rewrite length_zinsert. lia. }
  cbn [foldl]. cbn zeta. rewrite IH1, IH2. cbn. rewrite !length_zinsert. split; [done|]. split; [done|].
  cbn in IH3, IH4. split.
  - intros i Hi. rewrite IH3 by lia. rewrite zlookup_zinsert by lia. by rewrite decide_False by lia.
  - intros [|i] y Hy.
    + injection Hy as <-. rewrite IH3 by lia. rewrite zlookup_zinsert by lia. by rewrite decide_True by lia.
    + specialize (IH4 i y Hy). rewrite <-IH4. f_equal. lia.
Qed.

Lemma unmapped_lookup hit ps l (p : nat) : p ∉ ps -> unmapped hit ps l !! p = l !! p.
Proof.
  intros Hp. unfold unmapped. rewrite list_lookup_imap. destruct (l !! p); [|done]. cbn.
  by rewrite decide_False by tauto.
Qed.

Lemma unmapped_None hit ps l (p : nat) : hit p = None -> unmapped hit (ps ++ [p]) l = unmapped hit ps l.
Proof.
  intros Hn. apply imap_ext. intros q pr _. apply decide_ext. rewrite elem_of_app, list_elem_of_singleton.
  split; [|tauto]. intros [[?| ->] [a Ha]]; [eauto|congruence].
Qed.

Lemma unmapped_Some hit ps l (p : nat) a pr : hit p = Some a -> p ∉ ps -> l !! p = Some pr ->
  <[p := add_rss (- PGSIZE) pr]> (unmapped hit ps l) = unmapped hit (ps ++ [p]) l.
Proof.
  intros Ha Hp Hpr. apply list_eq. intros q. unfold unmapped.
  assert (p < length l)%nat by (by eapply lookup_lt_Some).
  rewrite list_lookup_insert, !list_lookup_imap, length_imap.
  case_decide as Hq; [destruct Hq as [-> _]|].
  - rewrite Hpr. cbn. rewrite decide_True; [done|]. rewrite elem_of_app, list_elem_of_singleton. eauto.
  - destruct (l !! q) eqn:E; [|done]. cbn. f_equal. apply decide_ext.
    rewrite elem_of_app, list_elem_of_singleton. split; [tauto|]. intros [[?| ->] ?]; [done|].
    destruct Hq. done.
Qed.

Section sharers.
Context {I : KernelImage} {Iok : KernelImageOk I} (ka : K Z).
Implicit Types (s : kstate) (P va e pg idx : Z) (l : list Z).

(** A lookup in an existing table does not allocate. *)
Lemma wp_walk P va a Q s : pt_addr (k_mem s) P va = Some a -> Q a s ->
  wp (Swap.walkpgdir ka P va false) Q s.
Proof.
  unfold pt_addr, table. intros Ha HQ. unfold Swap.walkpgdir. wp_step. apply wp_load.
  destruct (has _ PTE_P); [|done]. wp_steps. cbn in Ha. injection Ha as <-. done.
Qed.

Lemma wp_find_pte_swap_out (p : nat) pr o e idx w h l l' Q s :
  k_proc s !! p = Some pr -> first_sharer (k_mem s) pr e h -> ld (k_mem s) o = e ->
  zlookup (k_swap s) idx = Some w -> sw_cnt w < NPROC ->
  mapped_by s (PTE_ADDR e / PGSIZE) l -> l ≡ₚ option_list h ++ l' ->
  (h = None -> Q tt s) ->
  (forall a r, h = Some a ->
     let s' := set_k_rmap r (set_k_proc (<[p := add_rss (- PGSIZE) pr]> (k_proc s))
                 (set_k_swap (zinsert idx (record_sharer w (p, a)) (k_swap s)) s)) in
     mapped_by s' (PTE_ADDR e / PGSIZE) l' -> rmap_frame (PTE_ADDR e / PGSIZE) s s' -> Q tt s') ->
  wp (find_pte_swap_out ka p o idx) Q s.
Proof.
  intros Hp (Hsz & Hwf & Htab & Hh) Ho Hw Hcnt Hm Hl HN HS. unfold find_pte_swap_out.
  wp_step. apply (wp_get_proc _ pr); [done|]. wp_step.
  assert (forall j, (j < npages (p_sz pr))%nat ->
    pte_of (k_mem s) (p_pgdir pr) (Z.of_nat j * PGSIZE) <> e -> forall B (f : Z -> Z -> K (ctl unit B)) Q',
    Q' (Next tt) s -> wp (pte ← Swap.walkpgdir ka (p_pgdir pr) (Z.of_nat j * PGSIZE) false;
      if pte =? 0 then panic "find_pte_swap_out: pte should exist"
      else v ← load pte; o ← load o; if v =? o then f pte v else mret (Next tt)) Q' s) as Hskip.
  { intros j Hj Hne B f Q' HQ'. destruct (Htab j Hj) as [a Ha].
    wp_step. apply (wp_walk _ _ a); [done|].
    rewrite (proj2 (Z.eqb_neq _ _)) by (by eapply pt_addr_nonzero).
    wp_step. apply wp_load. wp_step. apply wp_load.
    assert (ld (k_mem s) a = pte_of (k_mem s) (p_pgdir pr) (Z.of_nat j * PGSIZE)) as E
      by (unfold pte_of; by rewrite Ha).
    rewrite (proj2 (Z.eqb_neq _ _)); [done|]. congruence. }
  destruct h as [a|].
  - destruct Hh as (j & Hj & Ha & He & Hbefore).
    apply (wp_for_pages_first _ j); [klia|done| |].
    { intros i Hi Q' HQ'. pose proof (Hbefore i Hi). apply Hskip; [lia|congruence|done]. }
    wp_step. apply (wp_walk _ _ a); [done|].
    assert (a <> 0) as Ha0 by (by eapply pt_addr_nonzero).
    rewrite (proj2 (Z.eqb_neq _ _)) by done.
    wp_step. apply wp_load. wp_step. apply wp_load. rewrite He, Ho, Z.eqb_refl.
    wp_step. apply (wp_get_swap _ w); [done|].
    rewrite (proj2 (Z.ltb_lt _ _)) by done. wp_step. apply wp_modify.
    wp_step. apply (wp_upd_proc _ _ pr); [done|].
    wp_step. apply wp_when; [intros _; apply wp_cprintf|intros _].
    all: wp_step; apply (wp_dec_sharing _ _ l l'); [done|exact Hm|exact Hl|].
    all: intros s' (r & -> & _ & Hr) Hm'; wp_steps; by apply (HS a r).
  - apply wp_for_pages_none; [klia| |by wp_steps; apply HN].
    intros j Hj Q' HQ'. apply Hskip; [done| |done]. by apply Hh.
Qed.

(** The state after the sharers [ps] are recorded in slot [idx]. *)
Definition sharers_out (hit : nat -> option Z) (ps : list nat) idx w r s : kstate :=
  set_k_rmap r (set_k_proc (unmapped hit ps (k_proc s))
    (set_k_swap (zinsert idx (foldl record_sharer w (hits hit ps)) (k_swap s)) s)).

Lemma zinsert_id {A} idx (x : A) (l : list A) : zlookup l idx = Some x -> zinsert idx x l = l.
Proof. unfold zlookup, zinsert. case_if; [done|apply list_insert_id]. Qed.

Lemma wp_make_other_pte_swapped_out (hit : nat -> option Z) o e idx w rest Q s :
  length (k_proc s) = Z.to_nat NPROC ->
  (forall (p : nat) pr, k_proc s !! p = Some pr ->
     if decide (p_state pr = UNUSED) then hit p = None else first_sharer (k_mem s) pr e (hit p)) ->
  ld (k_mem s) o = e -> zlookup (k_swap s) idx = Some w -> sw_cnt w = 0 ->
  mapped_by s (PTE_ADDR e / PGSIZE) (omap hit (seq 0 (Z.to_nat NPROC)) ++ rest) ->
  (forall r, let s' := sharers_out hit (seq 0 (Z.to_nat NPROC)) idx w r s in
     mapped_by s' (PTE_ADDR e / PGSIZE) rest -> rmap_frame (PTE_ADDR e / PGSIZE) s s' -> Q tt s') ->
  wp (make_other_pte_swapped_out ka o idx) Q s.
Proof.
  intros Hlen Hhit Ho Hw Hcnt Hm HQ. unfold make_other_pte_swapped_out. wp_step.
  assert (length (seq 0 (Z.to_nat NPROC)) = Z.to_nat NPROC) as Hall by apply length_seq.
  assert (forall p : nat, p ∈ seq 0 (Z.to_nat NPROC) -> p < Z.to_nat NPROC)%nat as Hlt
    by (intros p ?%elem_of_seq; lia).
  pose proof (NoDup_seq 0 (Z.to_nat NPROC)) as Hnd.
  revert Hall Hlt Hnd Hm HQ. generalize (seq 0 (Z.to_nat NPROC)) as all. intros all Hall Hlt Hnd Hm HQ.
  apply (wp_for _ _ (fun pre _ s' => exists r, s' = sharers_out hit pre idx w r s /\
    (forall suf, all = pre ++ suf -> mapped_by s' (PTE_ADDR e / PGSIZE) (omap hit suf ++ rest)) /\
    rmap_frame (PTE_ADDR e / PGSIZE) s s')).
  - intros pre p suf _ s1 Hpre (r & -> & Hm1 & Hrm).
    assert (p < Z.to_nat NPROC)%nat as Hp.
    { apply Hlt. rewrite Hpre, elem_of_app. right. by left. }
    assert (p ∉ pre) as Hnp.
    { rewrite Hpre in Hnd. apply NoDup_app in Hnd as (_ & Hd & _). intros Hi. by apply (Hd p Hi); left. }
    destruct (lookup_lt_is_Some_2 (k_proc s) p ltac:(lia)) as [pr Hpr].
    specialize (Hhit p pr Hpr). set (s1 := sharers_out hit pre idx w r s) in *.
    assert (k_proc s1 !! p = Some pr) as Hpr1 by (unfold s1; cbn; by rewrite unmapped_lookup).
    assert (hit p = None -> s1 = sharers_out hit (pre ++ [p]) idx w r s) as Hnone.
    { intros Hn. unfold s1, sharers_out. rewrite unmapped_None, hits_app by done.
      unfold hits at 3. cbn. rewrite Hn. cbn. by rewrite app_nil_r. }
    assert (hit p = None -> forall suf0, all = (pre ++ [p]) ++ suf0 ->
      mapped_by s1 (PTE_ADDR e / PGSIZE) (omap hit suf0 ++ rest)) as Hnone2.
    { intros Hn suf0 E. rewrite <-app_assoc in E. specialize (Hm1 _ E). cbn in Hm1. by rewrite Hn in Hm1. }
    wp_step. apply (wp_get_proc _ pr); [done|].
    destruct (decide (p_state pr = UNUSED)) as [Hun|Hun].
    { rewrite bool_decide_true by done. wp_steps. exists r. split; [by apply Hnone|]. by split; [apply Hnone2|]. }
    rewrite bool_decide_false by done. wp_step.
    apply (wp_find_pte_swap_out p pr o e idx (foldl record_sharer w (hits hit pre)) (hit p)
      (omap hit (p :: suf) ++ rest) (omap hit suf ++ rest)).
    + done.
    + done.
    + done.
    + unfold s1. cbn. rewrite zlookup_zinsert by (by eapply zlookup_lt). by rewrite decide_True.
    + rewrite sw_cnt_hits, Hcnt. pose proof (length_hits hit pre).
      pose proof (f_equal length Hpre) as E. rewrite Hall, length_app in E. cbn [length] in E. klia.
    + by apply Hm1.
    + cbn. by destruct (hit p).
    + intros Hn. wp_steps. exists r. split; [by apply Hnone|]. by split; [apply Hnone2|].
    + intros a r' Ha s2 Hm2 Hrm2. wp_steps. exists r'. split; [|split].
      * unfold s2, s1, sharers_out. cbn [k_proc k_swap set_k_rmap set_k_proc set_k_swap].
        rewrite zinsert_zinsert, (unmapped_Some _ _ _ _ a) by done.
        rewrite hits_app, foldl_app. unfold hits at 3. cbn. by rewrite Ha.
      * intros suf0 E. rewrite Hpre, <-app_assoc in E. apply app_inv_head in E as [= <-]. done.
      * intros q Hq. rewrite Hrm2 by done. by apply Hrm.
  - intros _ s1 (r & -> & Hm1 & Hrm). wp_steps. apply HQ; [|done]. apply (Hm1 []). by rewrite app_nil_r.
  - exists (k_rmap s). assert (sharers_out hit [] idx w (k_rmap s) s = s) as ->.
    { unfold sharers_out, unmapped. cbn. rewrite zinsert_id by done.
      replace (imap _ _) with (k_proc s); [by destruct s|]. apply list_eq. intros q.
      rewrite list_lookup_imap. destruct (k_proc s !! q); [|done]. cbn.
      rewrite decide_False; [done|]. intros [[]%elem_of_nil _]. }
    split; [done|]. split; [|done]. intros suf E. cbn in E. by subst.
Qed.
End sharers.

(** ** The victim page and its slot *)

(** Page [k] of [pr] is the first that is present and not accessed; its
    entry is at [a]. *)
Definition victim_page {I : KernelImage} (m : mem) (pr : proc) (k : nat) (a : Z) : Prop :=
  p_sz pr <= KERNBASE /\ pt_wf m (p_pgdir pr) /\ PGSIZE <= p_rss pr /\ (k < npages (p_sz pr))%nat /\
  pt_addr m (p_pgdir pr) (Z.of_nat k * PGSIZE) = Some a /\
  has (ld m a) PTE_P = true /\ has (ld m a) PTE_A = false /\
  forall j, (j < k)%nat -> exists b, pt_addr m (p_pgdir pr) (Z.of_nat j * PGSIZE) = Some b /\
    (has (ld m b) PTE_P = true -> has (ld m b) PTE_A = true).

(** Slot [idx] is the first one free. *)
Definition first_free (sw : list swapslot) (idx : Z) (w : swapslot) : Prop :=
  0 <= idx < NSLOTS /\ zlookup sw idx = Some w /\ is_free w <> 0 /\
  forall j, 0 <= j < idx -> exists w', zlookup sw j = Some w' /\ is_free w' = 0.

Section victim.
Context {I : KernelImage} {Iok : KernelImageOk I} (ka : K Z).

Lemma wp_find_unaccessed pr k a Q s : victim_page (k_mem s) pr k a -> Q (inr a) s ->
  wp (find_unaccessed ka pr) Q s.
Proof.
  intros (Hsz & Hwf & Hrss & Hk & Ha & HP & HA & Hpre) HQ. unfold find_unaccessed.
  apply (wp_for_pages _ _ (fun j _ s' => (j <= k)%nat /\ s' = s)); [klia| | |split; [lia|done]].
  - intros j tot s' Hj (Hjk & ->). destruct (decide (j = k)) as [->|Hne].
    + wp_step. apply (wp_walk ka _ _ a); [done|]. wp_step. apply wp_deref; [by eapply pt_addr_nonzero|].
      rewrite HP, HA. cbn [negb]. rewrite (proj2 (Z.ltb_ge _ _)) by done. by wp_steps.
    + destruct (Hpre j) as (b & Hb & HbA); [lia|].
      wp_step. apply (wp_walk ka _ _ b); [done|]. wp_step. apply wp_deref; [by eapply pt_addr_nonzero|].
      destruct (has (ld (k_mem s) b) PTE_P); [rewrite HbA by done|]; wp_steps; (split; [lia|done]).
  - intros tot s' (Hjk & ->). lia.
Qed.

Lemma wp_find_slot idx w Q s : first_free (k_swap s) idx w -> Q idx s -> wp find_slot Q s.
Proof.
  intros (Hr & Hw & Hf & Hpre) HQ. unfold find_slot. wp_step.
  assert (seqZ 0 NSLOTS = seqZ 0 idx ++ idx :: seqZ (idx + 1) (NSLOTS - idx - 1)) as ->.
  { transitivity (seqZ 0 (idx + (NSLOTS - idx))); [f_equal; lia|]. rewrite seqZ_app by lia. f_equal.
    by rewrite seqZ_cons by lia. }
  apply wp_for_first.
  - intros j Hj%elem_of_seqZ Q' HQ'. destruct (Hpre j) as (w' & Hw' & E); [lia|].
    wp_step. apply (wp_get_swap _ w'); [done|]. rewrite E. by wp_steps.
  - wp_step. apply (wp_get_swap _ w); [done|].
    rewrite (proj2 (Z.eqb_neq _ _)) by done. by wp_steps.
Qed.
End victim.

(** ** Swapping out *)

Definition all_procs : list nat := seq 0 (Z.to_nat NPROC).

(** What [find_new_page_after_swapping] needs to know: the victim process
    [v] is strictly preferred, page [k] of it, whose entry is at [a], is
    the victim page, slot [idx] is free and unused, [hit] gives the entries
    equal to the victim's and the reverse map records them. *)
Record swap_pre {I : KernelImage} (s : kstate) (v : nat) (pv : proc) (k : nat) (a : Z) (hit : nat -> option Z)
    (rest : list Z) (idx : Z) (w : swapslot) (l : list Z) : Prop := {
  wo_procs : length (k_proc s) = Z.to_nat NPROC;
  wo_victim : k_proc s !! v = Some pv;
  wo_best : forall q pq, q <> v -> k_proc s !! q = Some pq -> ~ preferred pq pv;
  wo_page : victim_page (k_mem s) pv k a;
  wo_hit : forall p pr, k_proc s !! p = Some pr -> if decide (p_state pr = UNUSED) then hit p = None
    else first_sharer (k_mem s) pr (ld (k_mem s) a) (hit p);
  wo_owners : mapped_by s (PTE_ADDR (ld (k_mem s) a) / PGSIZE) (omap hit all_procs ++ rest);
  wo_slot : first_free (k_swap s) idx w;
  wo_cnt : sw_cnt w = 0;
  wo_lens : length (sw_pte_id w) = Z.to_nat NPROC /\ length (sw_proc_id w) = Z.to_nat NPROC;
  wo_ready : pt_ready s (p_pgdir pv) l;
  wo_frame : page_ok (P2V (PTE_ADDR (ld (k_mem s) a)));
  wo_fresh : P2V (PTE_ADDR (ld (k_mem s) a)) ∉ l;
  wo_apart : ~ owns (k_mem s) (p_pgdir pv) (P2V (PTE_ADDR (ld (k_mem s) a)));
  wo_cache : cache_ok s;
  wo_locks : bio_unlocked s;
  wo_cur : exists c pc, k_cur s = Some c /\ k_proc s !! c = Some pc;
  wo_disk : 2 + 8 * NSLOTS <= k_disksize s <= two32;
}.

(** The entry of a page in slot [idx]. *)
Definition swapped_pte (idx : Z) : Z := Z.lor (Z.shiftl idx 12) PTE_S.

Record swapped_out {I : KernelImage} (s s' : kstate) (v : nat) (pv : proc) (k : nat) (a : Z) (hit : nat -> option Z)
    (rest : list Z) (idx : Z) (l : list Z) : Prop := {
  so_ready : pt_ready s' (p_pgdir pv) (P2V (PTE_ADDR (ld (k_mem s) a)) :: l);
  so_owns : forall p, owns (k_mem s') (p_pgdir pv) p <-> owns (k_mem s) (p_pgdir pv) p;
  so_addr : forall va, pt_addr (k_mem s') (p_pgdir pv) va = pt_addr (k_mem s) (p_pgdir pv) va;
  so_pte : forall va, pte_of (k_mem s') (p_pgdir pv) va =
    if decide (same_vpage (Z.of_nat k * PGSIZE) va) then swapped_pte idx else pte_of (k_mem s) (p_pgdir pv) va;
  so_same : forall p, p mod PGSIZE = 0 -> ~ owns (k_mem s) (p_pgdir pv) p ->
    p <> P2V (PTE_ADDR (ld (k_mem s) a)) -> same_page (k_mem s) (k_mem s') p;
  so_junk : forall o, 4 <= o < PGSIZE -> ldb (k_mem s') (P2V (PTE_ADDR (ld (k_mem s) a)) + o) = 1;
  so_disk : forall i, 0 <= i < 8 -> block_view s' (2 + 8 * idx + i) =
    bytes (k_mem s) (P2V (PTE_ADDR (ld (k_mem s) a)) + i * 512) 512;
  so_cache : cache_ok s';
  so_slot : exists w', k_swap s' = zinsert idx w' (k_swap s) /\ is_free w' = 0 /\
    page_perm w' = PTE_FLAGS (ld (k_mem s) a) /\ sw_cnt w' = Z.of_nat (length (hits hit all_procs)) /\
    (forall i, 0 <= i < sw_cnt w' -> zlookup (sw_pte_id w') i = Some a) /\
    forall i x, hits hit all_procs !! i = Some x -> zlookup (sw_proc_id w') (Z.of_nat i) = Some (Some (fst x));
  so_procs : exists ps, procs_woken (k_proc s) ps /\ k_proc s' = unmapped hit all_procs ps;
  so_owners : mapped_by s' (PTE_ADDR (ld (k_mem s) a) / PGSIZE) rest;
  so_rmap : rmap_frame (PTE_ADDR (ld (k_mem s) a) / PGSIZE) s s';
  so_held : k_held s' = k_held s /\ k_cur s' = k_cur s /\ k_disksize s' = k_disksize s;
}.

Section out.
Context {I : KernelImage} {Iok : KernelImageOk I} (ka : K Z).

Lemma first_sharer_woken m pr pr' e h : woken pr pr' -> first_sharer m pr e h -> first_sharer m pr' e h.
Proof. by intros [->|[_ ->]]. Qed.

Lemma woken_unused pr pr' : woken pr pr' -> p_state pr' = UNUSED <-> p_state pr = UNUSED.
Proof. intros [->|[E ->]]; [done|]. by rewrite E. Qed.

Lemma hit_woken m hit e ps ps' : procs_woken ps ps' ->
  (forall p pr, ps !! p = Some pr -> if decide (p_state pr = UNUSED) then hit p = None else first_sharer m pr e (hit p)) ->
  forall p pr, ps' !! p = Some pr -> if decide (p_state pr = UNUSED) then hit p = None else first_sharer m pr e (hit p).
Proof.
  intros Hw Hps p pr' Hp'. destruct (Forall2_lookup_r _ _ _ _ _ Hw Hp') as (pr & Hp & Hpp).
  specialize (Hps p pr Hp). pose proof (woken_unused _ _ Hpp).
  repeat case_decide; try tauto. by eapply first_sharer_woken.
Qed.

(** Only [v] can be chosen. *)
Lemma wp_select_a_victim s v pv k a hit rest idx w l Q :
  swap_pre s v pv k a hit rest idx w l -> Q a s -> wp (select_a_victim ka) Q s.
Proof.
  intros H HQ. destruct (wo_cur _ _ _ _ _ _ _ _ _ _ H) as (c & pc & Hc & Hpc).
  pose proof (wo_victim _ _ _ _ _ _ _ _ _ _ H) as Hv.
  unfold select_a_victim. wp_step. apply (wp_select_victim_process c pc); [done|done|].
  intros u pu Hu Hbest. destruct (decide (u = v)) as [->|Hne].
  - wp_step. apply (wp_get_proc _ pv); [done|]. wp_step.
    apply (wp_find_unaccessed ka _ k a); [apply H|]. by wp_steps.
  - exfalso. apply (wo_best _ _ _ _ _ _ _ _ _ _ H u pu Hne Hu).
    rewrite Forall_lookup in Hbest. by eapply Hbest.
Qed.

Lemma st_st m b x y : st (st m b x) b y = st m b y.
Proof.
  apply map_eq. intros i. unfold st, stb. rewrite !lookup_insert. repeat case_decide; done.
Qed.

Lemma swapped_pte_bits idx : 0 <= idx < NSLOTS ->
  0 <= swapped_pte idx < two32 /\ Z.land (swapped_pte idx) (Z.lnot PTE_A) = swapped_pte idx /\
  has (swapped_pte idx) PTE_P = false /\ Z.shiftr (swapped_pte idx) 12 = idx.
Proof.
  intros Hi. unfold swapped_pte. rewrite Z.shiftl_mul_pow2 by lia.
  assert (NSLOTS = 250) as En by done.
  assert (Z.lor (idx * 2 ^ 12) PTE_S = idx * 4096 + 128) as E.
  { change (idx * 2 ^ 12) with (idx * 4096). rewrite lor_aligned; [done|by apply Z.mod_mul|done]. }
  rewrite E. split; [unfold two32; lia|]. split; [|split].
  - assert (Z.land (idx * 4096 + 128) PTE_A = 0) as E'.
    { rewrite <-E. rewrite Z.land_lor_distr_l. change (Z.land PTE_S PTE_A) with 0. rewrite Z.lor_0_r.
      change PTE_A with (2 ^ 5). apply Z.bits_inj'. intros n Hn. rewrite Z.land_spec, Z.bits_0.
      destruct (Z.eq_dec n 5) as [->|Hne].
      - change (idx * 2 ^ 12) with (idx * 2 ^ 12). by rewrite Z.mul_pow2_bits_low by lia.
      - rewrite (Z.pow2_bits_false 5 n) by lia. apply andb_false_r. }
    rewrite <-Z.ldiff_land. symmetry. apply Z.bits_inj'. intros n Hn. rewrite Z.ldiff_spec.
    pose proof (f_equal (fun z => Z.testbit z n) E') as Eb. cbn beta in Eb. rewrite Z.land_spec, Z.bits_0 in Eb.
    destruct (Z.testbit (idx * 4096 + 128) n), (Z.testbit PTE_A n); done.
  - unfold has. rewrite <-E, Z.land_lor_distr_l. change (Z.land PTE_S PTE_P) with 0. rewrite Z.lor_0_r.
    rewrite Z.land_comm. change PTE_P with (Z.ones 1). rewrite Z.land_comm, Z.land_ones by lia.
    change (idx * 2 ^ 12) with (idx * (2 ^ 11 * 2 ^ 1)). rewrite Z.mul_assoc, Z.mod_mul by done. done.
  - rewrite Z.shiftr_div_pow2 by lia. change (2 ^ 12) with 4096. zdiv.
Qed.

Lemma kfree_state_junk f s o : page_ok f -> 4 <= o < PGSIZE -> ldb (k_mem (kfree_state f s)) (f + o) = 1.
Proof.
  intros Hf Ho. unfold kfree_state. ksimpl. rewrite ldb_st_ne by lia. rewrite ldb_memset, decide_True by klia. done.
Qed.

(** The page at [f], whose entry is at [a], goes to the free list and its
    entry points to slot [idx]. *)
Definition retire (a f idx : Z) (s : kstate) : kstate :=
  set_k_mem (st (k_mem (kfree_state f s)) a (swapped_pte idx)) (kfree_state f s).

Section retire.
Context (s : kstate) (P va a f idx : Z) (l : list Z).
Context (Hr : pt_ready s P l) (Ha : pt_addr (k_mem s) P va = Some a).
Context (Hf : page_ok f) (Hfl : f ∉ l) (Hfo : ~ owns (k_mem s) P f).

Lemma retire_step : pt_step (kfree_state f s) (retire a f idx s) P (f :: l) [] (f :: l) /\
  untouched (k_mem s) (k_mem (kfree_state f s)) P.
Proof.
  destruct (pt_ready_kfree s P f l Hr Hf Hfl Hfo) as [Hr1 Hut]. split; [|done].
  eapply pt_step_store; [done|]. by rewrite (ut_addr _ _ _ Hut).
Qed.

Lemma retire_pte va' : 0 <= idx < NSLOTS -> pte_of (k_mem (retire a f idx s)) P va' =
  if decide (same_vpage va va') then swapped_pte idx else pte_of (k_mem s) P va'.
Proof.
  intros Hidx. destruct (pt_ready_kfree s P f l Hr Hf Hfl Hfo) as [Hr1 Hut]. unfold retire. cbn [k_mem set_k_mem].
  rewrite (store_pte_of _ _ va) by (apply Hr1 || by rewrite (ut_addr _ _ _ Hut)).
  rewrite (ut_pte _ _ _ Hut). rewrite u32_small; [done|]. by apply swapped_pte_bits.
Qed.

Lemma retire_addr va' : pt_addr (k_mem (retire a f idx s)) P va' = pt_addr (k_mem s) P va'.
Proof.
  destruct (pt_ready_kfree s P f l Hr Hf Hfl Hfo) as [Hr1 Hut]. unfold retire. cbn [k_mem set_k_mem].
  rewrite (store_pte_pt_addr _ _ va) by (apply Hr1 || by rewrite (ut_addr _ _ _ Hut)).
  apply (ut_addr _ _ _ Hut).
Qed.

Lemma retire_owns p : owns (k_mem (retire a f idx s)) P p <-> owns (k_mem s) P p.
Proof.
  destruct retire_step as [St Hut]. rewrite (ps_owns _ _ _ _ _ _ St), (ut_owns _ _ _ Hut), elem_of_nil. tauto.
Qed.

Lemma retire_same p : p mod PGSIZE = 0 -> ~ owns (k_mem s) P p -> p <> f ->
  same_page (k_mem s) (k_mem (retire a f idx s)) p.
Proof.
  intros Hp Ho Hne. destruct retire_step as [St Hut].
  apply (same_page_trans _ (k_mem (kfree_state f s))).
  - intros b Hb. apply kfree_state_mem_out; [done|]. destruct Hf. klia.
  - apply (ps_frame _ _ _ _ _ _ St); [done|by rewrite (ut_owns _ _ _ Hut)|by apply not_elem_of_nil].
Qed.

Lemma retire_junk o : 4 <= o < PGSIZE -> ldb (k_mem (retire a f idx s)) (f + o) = 1.
Proof.
  intros Ho. destruct retire_step as [St Hut].
  rewrite <-(kfree_state_junk f s o) by done.
  apply (ps_frame _ _ _ _ _ _ St f); [apply Hf|by rewrite (ut_owns _ _ _ Hut)|by apply not_elem_of_nil|lia].
Qed.
End retire.

(** The slot as the code leaves it. *)
Lemma filled_slot w xs a e :
  sw_cnt w = 0 -> length (sw_pte_id w) = Z.to_nat NPROC -> length (sw_proc_id w) = Z.to_nat NPROC ->
  (length xs <= Z.to_nat NPROC)%nat ->
  let w1 := foldl record_sharer w xs in
  let w' := set_sw_pte_id
    ((fun x => if decide (fst x < sw_cnt w1) then a else snd x) <$> zip (seqZ 0 NPROC) (sw_pte_id w1))
    (set_is_free 0 (set_page_perm (PTE_FLAGS e) w1)) in
  is_free w' = 0 /\ page_perm w' = PTE_FLAGS e /\ sw_cnt w' = Z.of_nat (length xs) /\
  (forall i, 0 <= i < sw_cnt w' -> zlookup (sw_pte_id w') i = Some a) /\
  forall i x, xs !! i = Some x -> zlookup (sw_proc_id w') (Z.of_nat i) = Some (Some (fst x)).
Proof.
  intros Hc Hl1 Hl2 Hxs w1 w'. assert (sw_cnt w1 = Z.of_nat (length xs)) as Hc1.
  { unfold w1. rewrite sw_cnt_hits. lia. }
  destruct (record_sharers w xs) as (E1 & _ & _ & E4); [lia|rewrite Hl2; lia|]. fold w1 in E1, E4.
  split; [done|]. split; [done|]. split; [done|]. split.
  - intros i Hi. cbn [sw_cnt w' set_sw_pte_id set_is_free set_page_perm] in Hi. cbn [w' sw_pte_id set_sw_pte_id].
    assert (NPROC = 64) as En by done.
    unfold zlookup. rewrite (proj2 (Z.ltb_ge _ _)) by lia. rewrite list_lookup_fmap.
    destruct (lookup_lt_is_Some_2 (sw_pte_id w1) (Z.to_nat i)) as [y Hy]; [lia|].
    assert (zip (seqZ 0 NPROC) (sw_pte_id w1) !! Z.to_nat i = Some (i, y)) as ->.
    { apply lookup_zip_Some. split; [|done]. rewrite lookup_seqZ_lt by lia. f_equal. lia. }
    cbn. by rewrite decide_True by lia.
  - intros i x Hx. specialize (E4 i x Hx). rewrite Hc in E4. exact E4.
Qed.

(** The last part: the victim page is freed and the slot filled in. *)
Lemma wp_fill_slot a e idx w P k l Q s :
  ld (k_mem s) a = e -> zlookup (k_swap s) idx = Some w -> 0 <= idx < NSLOTS ->
  pt_ready s P l -> pt_addr (k_mem s) P (Z.of_nat k * PGSIZE) = Some a ->
  page_ok (P2V (PTE_ADDR e)) -> P2V (PTE_ADDR e) ∉ l -> ~ owns (k_mem s) P (P2V (PTE_ADDR e)) ->
  (forall w', w' = set_sw_pte_id
       ((fun x => if decide (fst x < sw_cnt w) then a else snd x) <$> zip (seqZ 0 NPROC) (sw_pte_id w))
       (set_is_free 0 (set_page_perm (PTE_FLAGS e) w)) ->
     Q tt (set_k_swap (zinsert idx w' (k_swap s)) (retire a (P2V (PTE_ADDR e)) idx s))) ->
  wp (v ← load a; w ← get_swap idx;
      put_swap idx (set_is_free 0 (set_page_perm (PTE_FLAGS v) w));;
      kfree (P2V (PTE_ADDR v));;
      store a (Z.lor (Z.shiftl idx 12) PTE_S);;
      v ← load a;
      store a (Z.land v (Z.lnot PTE_A));;
      w ← get_swap idx;
      put_swap idx (set_sw_pte_id
        ((fun x => if decide (fst x < sw_cnt w) then a else snd x)
           <$> zip (seqZ 0 NPROC) (sw_pte_id w)) w)) Q s.
Proof.
  intros He Hw Hidx Hr Ha Hf Hfl Hfo HQ. wp_step. apply wp_load. rewrite He.
  wp_step. apply (wp_get_swap _ w); [done|]. wp_step. apply wp_modify.
  set (w1 := set_is_free 0 (set_page_perm (PTE_FLAGS e) w)) in *.
  set (s1 := set_k_swap (zinsert idx w1 (k_swap s)) s).
  wp_step. apply wp_kfree; [done|exact (pr_unlocked _ _ _ Hr)|].
  wp_step. apply wp_store. wp_step. apply wp_load. cbn [k_mem set_k_mem].
  fold (swapped_pte idx). destruct (swapped_pte_bits idx Hidx) as (Hrg & Hnoa & _).
  rewrite ld_st_eq, u32_small, Hnoa by done. wp_step. apply wp_store. cbn [k_mem set_k_mem]. rewrite st_st.
  wp_step. apply (wp_get_swap _ w1).
  { cbn. rewrite zlookup_zinsert by (by eapply zlookup_lt). by rewrite decide_True. }
  apply wp_modify. cbn [k_swap set_k_mem set_k_freelist set_k_nfree kfree_state s1 set_k_swap].
  rewrite zinsert_zinsert. exact (HQ _ eq_refl).
Qed.

(** The state the steps lead to, [s1] being the one after the write to the
    disk. *)
Lemma swapped_out_intro s s1 v pv k a hit rest idx w l bufs lru disk ps r w' :
  let e := ld (k_mem s) a in
  let f := P2V (PTE_ADDR e) in
  let s2 := sharers_out hit all_procs idx w r s1 in
  swap_pre s v pv k a hit rest idx w l ->
  s1 = set_k_buf bufs (set_k_lru lru (set_k_disk disk (set_k_proc ps (set_k_mem (k_mem s) s)))) ->
  procs_woken (k_proc s) ps -> cache_ok s1 ->
  (forall i, 0 <= i < 8 -> block_view s1 (2 + 8 * idx + i) = bytes (k_mem s) (f + i * 512) 512) ->
  mapped_by s2 (PTE_ADDR e / PGSIZE) rest -> rmap_frame (PTE_ADDR e / PGSIZE) s1 s2 ->
  w' = set_sw_pte_id
    ((fun x => if decide (fst x < sw_cnt (foldl record_sharer w (hits hit all_procs))) then a else snd x)
       <$> zip (seqZ 0 NPROC) (sw_pte_id (foldl record_sharer w (hits hit all_procs))))
    (set_is_free 0 (set_page_perm (PTE_FLAGS e) (foldl record_sharer w (hits hit all_procs)))) ->
  pt_ready s2 (p_pgdir pv) l ->
  swapped_out s (set_k_swap (zinsert idx w' (k_swap s2)) (retire a f idx s2)) v pv k a hit rest idx l.
Proof.
  intros e f s2 H E1 Hwk Hcache Hblk Hown Hrm Ew' Hr2.
  destruct (wo_slot _ _ _ _ _ _ _ _ _ _ H) as (Hidx & _).
  destruct (wo_page _ _ _ _ _ _ _ _ _ _ H) as (_ & _ & _ & _ & Ha & _).
  assert (k_mem s2 = k_mem s) as Em2 by (unfold s2; by rewrite E1).
  assert (pt_addr (k_mem s2) (p_pgdir pv) (Z.of_nat k * PGSIZE) = Some a) as Ha2 by (by rewrite Em2).
  assert (page_ok f) as Hf by exact (wo_frame _ _ _ _ _ _ _ _ _ _ H).
  assert (f ∉ l) as Hfl by exact (wo_fresh _ _ _ _ _ _ _ _ _ _ H).
  assert (~ owns (k_mem s2) (p_pgdir pv) f) as Hfo by (rewrite Em2; exact (wo_apart _ _ _ _ _ _ _ _ _ _ H)).
  split; cbn [k_mem set_k_swap]; fold e; fold f.
  - destruct (retire_step s2 _ _ a f idx l Hr2 Ha2 Hf Hfl Hfo) as [St _].
    destruct (ps_ready _ _ _ _ _ _ St) as [[] ???]. by split; [split|..].
  - intros p. rewrite (retire_owns s2 _ _ a f idx l Hr2 Ha2 Hf Hfl Hfo). by rewrite Em2.
  - intros va. rewrite (retire_addr s2 _ _ a f idx l Hr2 Ha2 Hf Hfl Hfo). by rewrite Em2.
  - intros va. rewrite (retire_pte s2 _ _ a f idx l Hr2 Ha2 Hf Hfl Hfo) by done. by rewrite Em2.
  - intros p Hp Ho Hne. rewrite <-Em2. apply (retire_same s2 _ _ a f idx l Hr2 Ha2 Hf Hfl Hfo); [done| |done].
    by rewrite Em2.
  - intros o Ho. by apply (retire_junk s2 _ _ a f idx l Hr2 Ha2 Hf Hfl Hfo).
  - intros i Hi. rewrite <-(Hblk i Hi). unfold s2. done.
  - destruct Hcache. by split.
  - exists w'. split; [|].
    + unfold s2, sharers_out. cbn. rewrite E1. cbn. apply zinsert_zinsert.
    + destruct (wo_lens _ _ _ _ _ _ _ _ _ _ H) as [Hl1 Hl2]. rewrite Ew'.
      apply filled_slot; [exact (wo_cnt _ _ _ _ _ _ _ _ _ _ H)|done|done|].
      etransitivity; [apply length_hits|]. unfold all_procs. by rewrite length_seq.
  - exists ps. split; [done|]. unfold s2, sharers_out. cbn. by rewrite E1.
  - exact Hown.
  - intros q Hq. etransitivity; [exact (Hrm q Hq)|]. by rewrite E1.
  - unfold s2. cbn. by rewrite E1.
Qed.

Lemma wp_swap_out s v pv k a hit rest idx w l Q :
  swap_pre s v pv k a hit rest idx w l ->
  (forall s', swapped_out s s' v pv k a hit rest idx l -> Q tt s') ->
  wp (find_new_page_after_swapping ka) Q s.
Proof.
  intros H HQ. destruct (wo_cur _ _ _ _ _ _ _ _ _ _ H) as (c & pc & Hc & Hpc).
  pose proof (wo_slot _ _ _ _ _ _ _ _ _ _ H) as Hslot. destruct Hslot as (Hidx & Hw & _ & _).
  destruct (wo_page _ _ _ _ _ _ _ _ _ _ H) as (_ & Hwf & _ & _ & Ha & _).
  pose proof (wo_disk _ _ _ _ _ _ _ _ _ _ H) as Hdisk.
  assert (NSLOTS = 250) as En by done.
  unfold find_new_page_after_swapping. wp_step. eapply wp_select_a_victim; [done|].
  wp_step. eapply wp_find_slot; [apply H|].
  rewrite (proj2 (Z.eqb_neq _ _)) by lia. rewrite (proj2 (Z.eqb_neq _ _)) by (by eapply pt_addr_nonzero).
  rewrite u32_small by (unfold two32; lia). wp_step. apply wp_load.
  set (e := ld (k_mem s) a). set (f := P2V (PTE_ADDR e)).
  wp_step. eapply wp_mono.
  { apply (wp_write_pag_to_disk _ _ _ (p_pid pc)); [apply H|apply H|by exists c, pc|lia|lia|lia]. }
  intros _ s1 (Hcache & Hst & Hm1 & Hblk & _).
  destruct Hst as (bufs & lru & disk & ps & m & E1 & Hwk). assert (m = k_mem s) as -> by (by rewrite E1 in Hm1).
  wp_step. apply (wp_make_other_pte_swapped_out ka hit a e idx w rest).
  { rewrite E1. cbn. rewrite <-(Forall2_length _ _ _ Hwk). apply H. }
  { rewrite Hm1. eapply hit_woken; [|apply H]. by rewrite E1. }
  { by rewrite Hm1. }
  { by rewrite E1. }
  { exact (wo_cnt _ _ _ _ _ _ _ _ _ _ H). }
  { rewrite E1. exact (wo_owners _ _ _ _ _ _ _ _ _ _ H). }
  fold all_procs. intros r s2 Hown Hrm.
  assert (pt_ready s2 (p_pgdir pv) l) as Hr2.
  { unfold s2. rewrite E1. destruct (wo_ready _ _ _ _ _ _ _ _ _ _ H) as [[] ???]. by split; [split|..]. }
  assert (k_mem s2 = k_mem s) as Em2 by (unfold s2; by rewrite E1).
  apply (wp_fill_slot a e idx (foldl record_sharer w (hits hit all_procs)) (p_pgdir pv) k l).
  { by rewrite Em2. }
  { unfold s2, sharers_out. cbn. rewrite E1. cbn. rewrite zlookup_zinsert by (by eapply zlookup_lt).
    by rewrite decide_True. }
  { done. }
  { done. }
  { by rewrite Em2. }
  { exact (wo_frame _ _ _ _ _ _ _ _ _ _ H). }
  { exact (wo_fresh _ _ _ _ _ _ _ _ _ _ H). }
  { rewrite Em2. exact (wo_apart _ _ _ _ _ _ _ _ _ _ H). }
  intros w' Ew'. apply HQ. by eapply swapped_out_intro.
Qed.
End out.

(** ** Properties *)

Section properties.
Context {I : KernelImage} {Iok : KernelImageOk I}.

Lemma swap_pre_global_var g s v pv k a hit rest idx w l :
  swap_pre s v pv k a hit rest idx w l -> swap_pre (set_k_global_var g s) v pv k a hit rest idx w l.
Proof.
  intros [? ? ? ? ? ? ? ? ? [[] ? ? ?] ? ? ? [] ? ? ?].
  by split.
Qed.

Lemma kalloc_rec_empty f s : k_freelist s = 0 -> kmem_unlocked s ->
  kalloc_rec (S f) s = (find_new_page_after_swapping (kalloc_rec f);; kalloc_rec f)
    (set_k_global_var (u32 (k_global_var s + 1)) s).
Proof.
  intros Hf Hl. cbn [kalloc_rec]. unfold mbind at 1, M_bind at 1, gets. cbn beta iota.
  destruct (k_use_lock s) eqn:E.
  - unfold acquire, mbind, M_bind, gets, modify. cbn [when]. rewrite bool_decide_false by auto. ksimpl.
    rewrite Hf. cbn [Z.eqb negb when mret M_ret]. unfold release, mbind, M_bind, gets, modify. ksimpl.
    cbn [remove_lock]. rewrite decide_True by done. by destruct s.
  - unfold mbind, M_bind, gets, modify. cbn [when mret M_ret]. rewrite Hf. done.
Qed.

Lemma wp_kalloc_empty Q s :
  k_freelist s = 0 -> kmem_unlocked s ->
  wp (find_new_page_after_swapping (kalloc_rec 1)) (fun _ s' => wp (kalloc_rec 1) Q s')
    (set_k_global_var (u32 (k_global_var s + 1)) s) ->
  wp kalloc Q s.
Proof.
  intros Hf Hl HQ. apply wp_bind in HQ. unfold wp, kalloc in *. by rewrite kalloc_rec_empty.
Qed.

(** C9: memory pressure.  With no free page, [kalloc] takes the first page of
    the victim whose accessed bit is clear (there is one, so the bits are not
    cleared for a second scan), all of whose owners have the same entry as the
    victim: it returns that frame; the contents are in the eight blocks of
    the first free slot; the victim's entry holds the slot number and is
    not present; the slot keeps the flags of the entry and its sharers; the
    frame has no owner left, and every other entry of the victim and every
    other page outside its page table are as before. *)
Theorem kalloc_swaps_out s v pv k a hit idx w :
  swap_pre s v pv k a hit [] idx w [] ->
  let e := ld (k_mem s) a in
  let P := p_pgdir pv in
  wp kalloc (fun r s' => r = P2V (PTE_ADDR e) /\ free_ok s' [] /\ cache_ok s' /\
    (forall i, 0 <= i < 8 -> block_view s' (2 + 8 * idx + i) = bytes (k_mem s) (r + i * 512) 512) /\
    (forall va, pte_of (k_mem s') P va = if decide (same_vpage (Z.of_nat k * PGSIZE) va)
       then Z.lor (Z.shiftl idx 12) PTE_S else pte_of (k_mem s) P va) /\
    (forall p, p mod PGSIZE = 0 -> ~ owns (k_mem s) P p -> p <> r -> same_page (k_mem s) (k_mem s') p) /\
    (exists w', zlookup (k_swap s') idx = Some w' /\ is_free w' = 0 /\ page_perm w' = PTE_FLAGS e /\
       sw_cnt w' = Z.of_nat (length (hits hit all_procs))) /\
    mapped_by s' (PTE_ADDR e / PGSIZE) []) s.
Proof.
  intros H e P. pose proof (wo_ready _ _ _ _ _ _ _ _ _ _ H) as Hr.
  apply wp_kalloc_empty; [apply (free_chain _ _ (pr_free _ _ _ Hr))|apply Hr|].
  eapply wp_swap_out; [by apply swap_pre_global_var|]. intros s' Hso.
  pose proof (so_ready _ _ _ _ _ _ _ _ _ _ Hso) as Hr'. fold e in Hr'.
  change (ld (k_mem (set_k_global_var (u32 (k_global_var s + 1)) s)) a) with e in Hr'.
  unfold wp. assert (k_freelist s' = P2V (PTE_ADDR e)) as Ef by apply (free_chain _ _ (pr_free _ _ _ Hr')).
  rewrite kalloc_rec_run; [|rewrite Ef; apply page_ok_nonzero, (wo_frame _ _ _ _ _ _ _ _ _ _ H)|apply Hr'].
  split; [done|]. split; [by eapply kalloc_state_free_ok, Hr'|].
  destruct Hso as [_ _ _ Hpte Hsame _ Hblk [] (w' & Esw & Hfr & Hpp & Hcnt & _) _ Hown _ _].
  split; [by split|]. rewrite Ef. split; [exact Hblk|]. split; [exact Hpte|]. split; [exact Hsame|].
  split; [|exact Hown]. exists w'. split; [|done]. cbn. rewrite Esw. cbn.
  destruct (wo_slot _ _ _ _ _ _ _ _ _ _ H) as (_ & Hw & _).
  rewrite zlookup_zinsert by (by eapply zlookup_lt). by rewrite decide_True.
Qed.

(** C36: a page that several processes share is taken from all of them but
    only the victim's entry is updated.  The entry of another page table [D]
    still maps the frame, which is on the free list, and the process reads
    the filler that [kfree] wrote there instead of its data. *)
Theorem swap_out_strands_sharers s v pv k a hit rest idx w l D va :
  swap_pre s v pv k a hit rest idx w l ->
  let e := ld (k_mem s) a in
  0 <= va < KERNBASE -> 4 <= va mod PGSIZE ->
  pte_of (k_mem s) D va = e -> has e PTE_U = true ->
  pt_wf (k_mem s) D ->
  (forall p, owns (k_mem s) D p -> ~ owns (k_mem s) (p_pgdir pv) p /\ p <> P2V (PTE_ADDR e)) ->
  forall ka, wp (find_new_page_after_swapping ka) (fun _ s' =>
    free_ok s' (P2V (PTE_ADDR e) :: l) /\ mapped_by s' (PTE_ADDR e / PGSIZE) rest /\
    pte_of (k_mem s') D va = e /\ uread (k_mem s') D va = Some 1) s.
Proof.
  intros H e Hva Hoff Hpte HU Hwf Hap ka. eapply wp_swap_out; [done|]. intros s' Hso.
  pose proof (so_ready _ _ _ _ _ _ _ _ _ _ Hso) as Hr'. fold e in Hr'.
  assert (untouched (k_mem s) (k_mem s') D) as Hut.
  { apply untouched_frame. intros p Hp. destruct (Hap p Hp).
    apply (so_same _ _ _ _ _ _ _ _ _ _ Hso); [by destruct (owns_page_ok _ _ _ Hwf Hp)|done..]. }
  split; [apply Hr'|]. split; [apply Hso|]. rewrite (ut_pte _ _ _ Hut). split; [done|].
  unfold uread. rewrite (ut_pte _ _ _ Hut), Hpte, HU.
  destruct (wo_page _ _ _ _ _ _ _ _ _ _ H) as (_ & _ & _ & _ & _ & HP & _). fold e in HP. rewrite HP. cbn [andb].
  f_equal. apply (so_junk _ _ _ _ _ _ _ _ _ _ Hso). klia.
Qed.
End properties.

(** ** Instances *)

#[local] Existing Instance img.

(** The sample state with no free page. *)
Definition state_full : kstate := set_k_freelist 0 (set_k_nfree 0 state0).
Definition hit0 (p : nat) : option Z := match p with O => Some table0 | _ => None end.

Lemma sample_proc p pr : k_proc state0 !! p = Some pr -> p = 0%nat /\ pr = proc0 \/ p <> 0%nat /\ pr = unused_proc.
Proof.
  destruct p as [|p]; [left; by split; [|injection H]|]. intros [-> _]%lookup_replicate. by right.
Qed.

Lemma sample_entry_addr : pt_addr mem0 pgdir0 0 = Some table0 /\ ld mem0 table0 = entry0.
Proof.
  split.
  - unfold pt_addr. rewrite sample_table by apply PDX_range. reflexivity.
  - exact (mem0_table 0 ltac:(lia)).
Qed.

Lemma sample_swap_pre : swap_pre state_full 0 proc0 0 table0 hit0 [] 0 slot0 [].
Proof.
  destruct sample_entry_addr as [Ha He]. destruct sample_frame0 as (Hok & Ho & Hl).
  assert (npages PGSIZE = 1%nat) as En by done.
  split; change (k_mem state_full) with mem0; change (k_proc state_full) with (k_proc state0); rewrite ?He.
  - clear. done.
  - clear. done.
  - intros q pq Hq [[-> _]|[_ ->]]%sample_proc; [by destruct Hq|]. unfold preferred. change (p_rss unused_proc) with 0. change (p_rss proc0) with PGSIZE. klia.
  - split; [done|]. split; [apply sample_wf|]. split; [done|]. split; [apply Nat.ltb_lt; reflexivity|].
    split; [exact Ha|]. rewrite He. split; [done|]. split; [done|]. intros j Hj. lia.
  - intros p pr [[-> ->]|[Hp ->]]%sample_proc.
    + rewrite decide_False by done. unfold first_sharer. change (p_sz proc0) with PGSIZE.
      change (p_pgdir proc0) with pgdir0. rewrite En.
      split; [done|]. split; [apply sample_wf|]. split.
      * intros j Hj. assert (j = 0%nat) as -> by lia. by exists table0.
      * exists 0%nat. split; [lia|]. split; [exact Ha|]. split; [exact He|]. lia.
    + rewrite decide_True by done. destruct p; [by destruct Hp|reflexivity].
  - assert (omap hit0 all_procs ++ [] = [table0]) as -> by (vm_compute; reflexivity).
    exact sample_mapped.
  - clear. split; [done|]. split; [done|]. split; [done|]. lia.
  - clear. done.
  - clear. done.
  - destruct sample_ready as [_ ? ? _]. split; [|done|done|].
    + clear. split; [done|done|apply NoDup_nil_2|apply Forall_nil_2].
    + clear. by intros p ?%elem_of_nil.
  - exact Hok.
  - apply not_elem_of_nil.
  - exact Ho.
  - destruct sample_cache_ok. by split.
  - apply sample_bio.
  - clear. by exists 0%nat, proc0.
  - clear. by vm_compute.
Qed.

Lemma kalloc_swaps_out_witness :
  wp kalloc (fun r s' => r = frame0 /\ pte_of (k_mem s') pgdir0 5 = PTE_S /\
    block_view s' 2 = bytes mem0 frame0 512) state_full.
Proof.
  pose proof (kalloc_swaps_out state_full 0 proc0 0 table0 hit0 0 slot0 sample_swap_pre) as H.
  cbv zeta in H. eapply wp_mono; [exact H|]. clear H.
  change (k_mem state_full) with mem0. rewrite (proj2 sample_entry_addr).
  intros r s' (-> & _ & _ & Hb & Hp & _). split; [reflexivity|]. split.
  - rewrite Hp. rewrite decide_True by done. reflexivity.
  - specialize (Hb 0 ltac:(lia)). exact Hb.
Defined.

(** Two processes that share the user page. *)
Definition pgdir1 : Z := 0x80310000.
Definition table1 : Z := 0x80311000.
Definition mem1 : mem := st (st mem0 table1 entry0) pgdir1 (Z.lor (V2P table1) 7).
Definition proc1 : proc :=
  mk_proc PGSIZE PGSIZE pgdir1 0 RUNNABLE 2 (Some 0%nat) 0 0 NoChan 0 (replicate 16 None) None [].
Definition state1 : kstate :=
  set_k_mem mem1 (set_k_proc (proc0 :: proc1 :: replicate 62 unused_proc)
    (set_k_rmap (<[Z.to_nat (V2P frame0 / PGSIZE) := two_owners table0 table1]> (k_rmap state0)) state0)).
Definition hit1 (p : nat) : option Z :=
  match p with O => Some table0 | 1%nat => Some table1 | _ => None end.

Lemma sample1_same p : p mod PGSIZE = 0 -> p <> pgdir1 -> p <> table1 -> same_page mem0 mem1 p.
Proof.
  intros Hp H1 H2 b Hb. unfold mem1. unfold pgdir1, table1 in *. by rewrite !ldb_st_ne by klia.
Qed.

Lemma sample1_untouched : untouched mem0 mem1 pgdir0 /\ pt_wf mem1 pgdir0.
Proof.
  assert (forall p, owns mem0 pgdir0 p -> same_page mem0 mem1 p) as Hs.
  { intros p [->| ->]%sample_owns; by apply sample1_same. }
  split; [by apply untouched_frame|]. eapply frame_pt_wf; [exact Hs|apply sample_wf].
Qed.

Lemma mem0_other a : 0x80310000 <= a < 0x80312000 -> a mod 4 = 0 -> ld mem0 a = 0.
Proof. intros Ha Ha'. rewrite mem0_ld by done. apply written_none. sample_words. Qed.

Lemma sample1_table i : 0 <= i < NPDENTRIES ->
  table mem1 pgdir1 i = if decide (i = 0) then Some table1 else None.
Proof.
  intros Hi. unfold table, mem1. rewrite ld_st_aligned by (unfold pgdir1; klia).
  destruct (decide (i = 0)) as [->|Hne].
  - rewrite decide_True by (unfold pgdir1; lia). reflexivity.
  - rewrite decide_False by (unfold pgdir1; lia). rewrite ld_st_ne by (unfold pgdir1, table1; klia).
    by rewrite mem0_other by (unfold pgdir1; klia).
Qed.

Lemma sample1_wf : pt_wf mem1 pgdir1 /\ forall p, owns mem1 pgdir1 p -> p = pgdir1 \/ p = table1.
Proof.
  split; [split; [apply (sample_page_ok 16); lia|..]|].
  - intros i t Hi. rewrite sample1_table by done. case_decide; [|done]. intros [= <-].
    split; [apply (sample_page_ok 17); lia|done].
  - intros i j t Hi Hj. rewrite !sample1_table by done. by repeat case_decide; subst.
  - intros p [->|(i & Hi & Ht)]; [by left|right]. rewrite sample1_table in Ht by done.
    case_decide; congruence.
Qed.

Lemma sample1_pte : pt_addr mem1 pgdir1 0 = Some table1 /\ ld mem1 table1 = entry0.
Proof.
  split.
  - unfold pt_addr. rewrite sample1_table by apply PDX_range. reflexivity.
  - unfold mem1. rewrite ld_st_ne by (unfold pgdir1, table1; lia). rewrite ld_st_eq. reflexivity.
Qed.

Lemma sample1_ready : pt_ready state1 pgdir0 free0.
Proof.
  destruct sample_ready as [[Hc Hn Hd Hp] Hu Hwf Hfr]. destruct sample1_untouched as [Hut Hwf1].
  split; [|exact Hu|exact Hwf1|].
  - split; [|exact Hn|exact Hd|exact Hp]. eapply chain_frame; [|exact Hc].
    intros p (i & Hi & ->)%sample_free. rewrite <-(Z.add_0_r (pgdir0 + i * PGSIZE)).
    apply (same_page_ld _ _ _ 0); [|lia]. apply sample1_same; unfold pgdir0, pgdir1, table1; klia.
  - intros p Hpl. change (k_mem state1) with mem1. rewrite (ut_owns _ _ _ Hut). by apply Hfr.
Qed.

Lemma sample1_proc p pr : k_proc state1 !! p = Some pr ->
  p = 0%nat /\ pr = proc0 \/ p = 1%nat /\ pr = proc1 \/ (1 < p)%nat /\ pr = unused_proc.
Proof.
  destruct p as [|[|p]]; [intros [= <-]; auto|intros [= <-]; auto|].
  intros [-> _]%lookup_replicate. right. right. split; [lia|done].
Qed.

Lemma sample1_sharer pgdir tab pr : p_sz pr = PGSIZE -> p_pgdir pr = pgdir -> pt_wf mem1 pgdir ->
  pt_addr mem1 pgdir 0 = Some tab -> ld mem1 tab = entry0 -> first_sharer mem1 pr entry0 (Some tab).
Proof.
  intros Hsz HP Hwf Ha He. unfold first_sharer. rewrite Hsz, HP.
  assert (npages PGSIZE = 1%nat) as -> by reflexivity.
  split; [unfold PGSIZE, KERNBASE; lia|]. split; [exact Hwf|]. split.
  - intros j Hj. assert (j = 0%nat) as -> by lia. by exists tab.
  - exists 0%nat. split; [lia|]. split; [exact Ha|]. split; [exact He|]. lia.
Qed.

Lemma sample1_entry : pt_addr mem1 pgdir0 0 = Some table0 /\ ld mem1 table0 = entry0.
Proof.
  destruct sample1_untouched as [Hut _]. destruct sample_entry_addr as [Ha He]. split.
  - rewrite (ut_addr _ _ _ Hut). exact Ha.
  - rewrite <-He. unfold mem1. by rewrite !ld_st_ne by (unfold pgdir1, table0, table1; lia).
Qed.

Lemma sample1_swap_pre : swap_pre state1 0 proc0 0 table0 hit1 [] 0 slot0 free0.
Proof.
  destruct sample1_entry as [Ha He]. destruct sample_frame0 as (Hok & Ho & Hl).
  destruct sample1_untouched as [Hut Hwf]. destruct sample1_wf as [Hwf1 _]. destruct sample1_pte as [Ha1 He1].
  split; change (k_mem state1) with mem1; rewrite ?He.
  - clear. done.
  - clear. done.
  - clear. intros q pq Hq [[-> _]|[[_ ->]|[_ ->]]]%sample1_proc; [by destruct Hq|..]; unfold preferred;
      change (p_rss unused_proc) with 0; change (p_rss proc0) with PGSIZE; change (p_rss proc1) with PGSIZE;
      change (p_pid proc1) with 2; change (p_pid proc0) with 1; klia.
  - split; [clear; done|]. split; [exact Hwf|]. split; [clear; done|]. split; [apply Nat.ltb_lt; reflexivity|].
    split; [exact Ha|]. rewrite He. split; [reflexivity|]. split; [reflexivity|]. clear. intros j Hj. lia.
  - intros p pr [[-> ->]|[[-> ->]|[Hp ->]]]%sample1_proc.
    + rewrite decide_False by (clear; done). by apply (sample1_sharer pgdir0).
    + rewrite decide_False by (clear; done). by apply (sample1_sharer pgdir1).
    + rewrite decide_True by (clear; done). clear -Hp. destruct p as [|[|p]]; [lia|lia|reflexivity].
  - assert (omap hit1 all_procs ++ [] = [table0; table1]) as -> by (vm_compute; reflexivity).
    exists (two_owners table0 table1). clear. split; [done|]. split; [by split|done].
  - clear. split; [done|]. split; [done|]. split; [done|]. lia.
  - clear. done.
  - clear. done.
  - exact sample1_ready.
  - exact Hok.
  - exact Hl.
  - rewrite (ut_owns _ _ _ Hut). exact Ho.
  - clear. destruct sample_cache_ok. by split.
  - apply sample_bio.
  - clear. by exists 0%nat, proc0.
  - clear. by vm_compute.
Qed.

Lemma swap_out_strands_sharers_witness :
  wp (find_new_page_after_swapping (fail Trap)) (fun _ s' =>
    free_ok s' (frame0 :: free0) /\ uread (k_mem s') pgdir1 5 = Some 1) state1.
Proof.
  destruct sample1_entry as [_ He]. destruct sample1_pte as [Ha1 He1]. destruct sample1_wf as [Hwf Ho].
  destruct sample1_untouched as [Hut _].
  pose proof (swap_out_strands_sharers state1 0 proc0 0 table0 hit1 [] 0 slot0 free0 pgdir1 5 sample1_swap_pre) as H.
  cbv zeta in H. change (k_mem state1) with mem1 in H. rewrite He in H. eapply wp_mono.
  - apply H; clear H.
    + split; [discriminate|reflexivity].
    + discriminate.
    + unfold pte_of. change (pt_addr mem1 pgdir1 5) with (pt_addr mem1 pgdir1 0). rewrite Ha1. exact He1.
    + reflexivity.
    + exact Hwf.
    + intros p Hp%Ho. rewrite (ut_owns _ _ _ Hut). split.
      * intros Hq%sample_owns. unfold pgdir0, table0, pgdir1, table1 in *. lia.
      * intros ->. change (P2V (PTE_ADDR entry0)) with frame0 in Hp. unfold frame0, pgdir1, table1 in Hp. lia.
  - intros _ s' (Hf & _ & _ & Hr). split; [exact Hf|exact Hr].
Defined.
