(* ===== verification/Fault.v ===== *)
(** * Page faults

    [handle_fage_fault] of [proc.c]: a write to a page that is shared
    read-only (copy on write), or an access to a page that is swapped out. *)

From Stdlib Require Import ZArith Lia.
From stdpp Require Import base strings numbers gmap list.
From S2P Require Import Prelude Mmu Memory Kernel Sleeplock Bio Kmem Rmap PageTable Swap Kalloc Vm.
From S2P Require Import VmKernel VmUser Sample SampleTables.

Section fault.
Context {I : KernelImage}.

(** The page is present: the last sharer may write to it, any other gets a
    copy. *)
Definition break_cow (pte pa pgnum : Z) : K unit :=
  b ← check_rmap pgnum;
  if b : bool then
    v ← load pte;
    store pte (Z.lor v PTE_W)
  else
    addr ← kalloc;
    modify_mem (fun m => memmove m addr (P2V pa) PGSIZE);;
    v ← load pte;
    store pte (Z.lor (Z.lor (V2P addr) (PTE_FLAGS v)) PTE_W);;
    _ ← dec_sharing pte pgnum;
    inc_sharing pte (V2P addr / PGSIZE).

(** The entry [*proc_id[i]] of slot [block_no] is given the page at [addr]. *)
Definition restore_sharer (pte block_no addr i : Z) : K unit :=
  when (V2P addr / PGSIZE =? 73) (cprintf "In incr %d\n");;
  w ← get_swap block_no;
  p ← the (zlookup (sw_proc_id w) i);
  p ← the p;
  pr ← get_proc p;
  if bool_decide (p_state pr = UNUSED) then mret tt
  else
    q ← the (zlookup (sw_pte_id w) i);
    inc_sharing q (V2P addr / PGSIZE);;
    upd_proc p (fun pr => set_p_rss (u32 (p_rss pr + PGSIZE)) pr);;
    v ← load pte;
    store q v.

(** The page is in slot [*pte >> 12]. *)
Definition swap_in (pte : Z) : K unit :=
  v ← load pte;
  let block_no := Z.shiftr v 12 in
  addr ← kalloc;
  read_page_from_disk (u32 (8 * block_no + 2)) addr;;
  w ← get_swap block_no;
  let permissions := page_perm w in
  put_swap block_no (set_is_free 1 w);;
  store pte (Z.lor (PTE_ADDR (V2P addr)) (PTE_FLAGS permissions));;
  v ← load pte;
  store pte (Z.lor v PTE_A);;
  v ← load pte;
  store pte (Z.land v (Z.lnot PTE_W));;
  v ← load pte;
  store pte (Z.land v (Z.lnot PTE_S));;
  w ← get_swap block_no;
  _ ← for_ (R := unit) (seqZ 0 (sw_cnt w)) (fun i (_ : unit) =>
        restore_sharer pte block_no addr i;; mret (Next tt)) tt;
  w ← get_swap block_no;
  put_swap block_no (set_sw_cnt 0 w).

Definition handle_fage_fault : K unit :=
  p ← curproc;
  pr ← get_proc p;
  cr2 ← rcr2;
  let va := PGROUNDDOWN cr2 in
  let pg_dir := p_pgdir pr in
  pte ← walkpgdir pg_dir va false;
  v ← deref pte;
  let pa := PTE_ADDR v in
  let pgnum := pa / PGSIZE in
  (if has v PTE_P then break_cow pte pa pgnum else swap_in pte);;
  lcr3 (V2P pg_dir).

(** [illop] only prints. *)
Definition illop : K unit :=
  p ← curproc;
  pr ← get_proc p;
  cr2 ← rcr2;
  pte ← walkpgdir (p_pgdir pr) (PGROUNDDOWN cr2) false;
  _ ← deref pte;
  cprintf "In illop p->pid %d va %d *pte %d pte %d pa %d pgnum %d \n".
End fault.

(** ** Copy on write *)

Section cow.
Context {I : KernelImage} {Iok : KernelImageOk I}.
Implicit Types (s : kstate) (P va p : Z) (l : list Z).

(** The last sharer: only the write permission of the entry changes. *)
Lemma wp_break_cow_sole P va a l Q s :
  let e := pte_of (k_mem s) P va in
  pt_ready s P l -> pt_addr (k_mem s) P va = Some a -> mapped_by s (PTE_ADDR e / PGSIZE) [a] ->
  (forall s', pt_step s s' P l [] l -> k_rmap s' = k_rmap s ->
     (forall va', pte_of (k_mem s') P va' =
        if decide (same_vpage va va') then Z.lor e PTE_W else pte_of (k_mem s) P va') -> Q tt s') ->
  wp (break_cow a (PTE_ADDR e) (PTE_ADDR e / PGSIZE)) Q s.
Proof.
  intros e Hr Ha Hm HQ. unfold break_cow. wp_step. eapply wp_check_rmap; [done|].
  rewrite bool_decide_true by done. wp_step. apply wp_load.
  assert (ld (k_mem s) a = e) as -> by (unfold e, pte_of; by rewrite Ha).
  apply wp_store. apply HQ; [by eapply pt_step_store|done|].
  intros va'. ksimpl. rewrite (store_pte_of _ _ va) by (apply Hr || done).
  by rewrite u32_small by (apply lor_u32_range; [apply pte_of_range|done]).
Qed.

(** The entry that a sharer gets for its copy at [v]. *)
Definition private_entry (v e : Z) : Z := Z.lor (Z.lor (V2P v) (PTE_FLAGS e)) PTE_W.

Lemma private_entry_range v e : page_ok v -> 0 <= private_entry v e < two32.
Proof.
  intros Hv%page_ok_range. unfold private_entry. pose proof (PTE_FLAGS_range e).
  apply lor_u32_range; [apply lor_u32_range|done]; [unfold V2P; apply u32_range|klia].
Qed.
Lemma private_entry_addr v e : page_ok v -> PTE_ADDR (private_entry v e) = V2P v.
Proof.
  intros Hv. unfold private_entry. rewrite <-Z.lor_assoc. destruct Hv as [Hal _].
  apply PTE_ADDR_lor; [unfold V2P; apply u32_range|by apply V2P_aligned|].
  apply lor_flags_range; [apply PTE_FLAGS_range|done].
Qed.

(** The other sharers keep the page; the faulting process gets a copy. *)
Record unshared s s' P va (a v : Z) (own : list Z) l : Prop := {
  us_ready : pt_ready s' P l;
  us_pte : forall va', pte_of (k_mem s') P va' =
    if decide (same_vpage va va') then private_entry v (pte_of (k_mem s) P va)
    else pte_of (k_mem s) P va';
  us_copy : forall o, 0 <= o < PGSIZE ->
    ldb (k_mem s') (v + o) = ldb (k_mem s) (P2V (PTE_ADDR (pte_of (k_mem s) P va)) + o);
  us_frame : forall p, p mod PGSIZE = 0 -> ~ owns (k_mem s) P p -> p <> v ->
    same_page (k_mem s) (k_mem s') p;
  us_owns : forall p, owns (k_mem s') P p <-> owns (k_mem s) P p;
  us_old : mapped_by s' (PTE_ADDR (pte_of (k_mem s) P va) / PGSIZE) own;
  us_new : mapped_by s' (V2P v / PGSIZE) [a];
  us_vm : vm_step s s';
}.

Lemma rmap_step_sub pg s s' : rmap_step pg s s' -> exists r, s' = set_k_rmap r s.
Proof. intros (r & -> & _). by exists r. Qed.

Lemma mapped_by_ext s s' pg l : k_rmap s' = k_rmap s -> mapped_by s pg l -> mapped_by s' pg l.
Proof. unfold mapped_by. by intros ->. Qed.

Lemma mapped_by_ext_at s s' pg l : zlookup (k_rmap s') pg = zlookup (k_rmap s) pg ->
  mapped_by s pg l -> mapped_by s' pg l.
Proof. unfold mapped_by. by intros ->. Qed.

(** The two updates of the reverse map. *)
Lemma wp_move_owner a old new own Q s :
  a <> 0 -> old <> new -> own <> [] ->
  mapped_by s old (a :: own) -> mapped_by s new [] ->
  (forall r, mapped_by (set_k_rmap r s) old own -> mapped_by (set_k_rmap r s) new [a] ->
     Q tt (set_k_rmap r s)) ->
  wp (_ ← dec_sharing a old; inc_sharing a new) Q s.
Proof.
  intros Ha Hne Hown Hold Hnew HQ. wp_step.
  eapply (wp_dec_sharing _ _ _ own); [done|done|done|]. intros s1 St1 Hm1.
  pose proof (rmap_step_mapped _ _ _ _ _ St1 (not_eq_sym Hne) Hnew) as Hnew1.
  apply (wp_inc_sharing _ _ []); [done|done|done|]. intros s2 St2 Hm2.
  pose proof (rmap_step_mapped _ _ _ _ _ St2 Hne Hm1) as Hold2.
  destruct (rmap_step_sub _ _ _ St1) as [r1 ->]. destruct (rmap_step_sub _ _ _ St2) as [r2 ->].
  by apply HQ.
Qed.

Lemma wp_break_cow_shared P va a v own l Q s :
  let e := pte_of (k_mem s) P va in
  pt_ready s P (v :: l) -> pt_addr (k_mem s) P va = Some a ->
  page_ok (P2V (PTE_ADDR e)) -> P2V (PTE_ADDR e) <> v ->
  mapped_by s (PTE_ADDR e / PGSIZE) (a :: own) -> own <> [] ->
  mapped_by s (V2P v / PGSIZE) [] ->
  (forall s', unshared s s' P va a v own l -> Q tt s') ->
  wp (break_cow a (PTE_ADDR e) (PTE_ADDR e / PGSIZE)) Q s.
Proof.
  intros e Hr Ha Hf Hfv Hold Hown Hnew HQ. unfold break_cow.
  wp_step. eapply wp_check_rmap; [done|].
  rewrite bool_decide_false by (destruct own; [done|]; cbn; lia).
  assert (page_ok v) as Hv by apply (Forall_inv (free_pages _ _ (pr_free _ _ _ Hr))).
  wp_step. eapply wp_kalloc_free; [apply Hr|by apply page_ok_nonzero|apply Hr|].
  wp_step. apply wp_modify_mem. ksimpl.
  set (m1 := memmove (k_mem (kalloc_state s)) v (P2V (PTE_ADDR e)) PGSIZE).
  assert (forall p, p mod PGSIZE = 0 -> p <> v -> same_page (k_mem s) m1 p) as Hsame.
  { intros p Hp Hpv b Hb. unfold m1. destruct Hv. rewrite ldb_memmove_out by klia. done. }
  destruct (pt_take_page s P v l m1 Hr Hsame) as [Hr1 Ut1].
  assert (pt_addr m1 P va = Some a) as Ha1 by (by rewrite (ut_addr _ _ _ Ut1)).
  assert (ld m1 a = e) as Hld.
  { unfold e. rewrite <-(ut_pte _ _ _ Ut1). unfold pte_of. by rewrite Ha1. }
  wp_step. apply wp_load. ksimpl. rewrite Hld. wp_step. apply wp_store. ksimpl.
  fold (private_entry v e).
  pose proof (pt_step_store _ _ _ va a (private_entry v e) Hr1 Ha1) as St2.
  set (s1 := set_k_mem m1 (kalloc_state s)) in *.
  set (s2 := set_k_mem (st (k_mem s1) a (private_entry v e)) s1) in *.
  assert (~ owns (k_mem s) P v) as Hnv by (apply (pr_fresh _ _ _ Hr); by left).
  apply (wp_move_owner _ _ _ own); [| |done|by eapply mapped_by_ext|by eapply mapped_by_ext|].
  { by apply (pt_addr_nonzero (k_mem s) P va); [apply Hr|]. }
  { pose proof (V2P_aligned v (proj1 Hv)). pose proof (PTE_ADDR_aligned e).
    apply page_ok_range in Hv. intros E. apply Hfv.
    transitivity (P2V (V2P v)); [f_equal; klia|apply P2V_V2P; klia]. }
  intros r Hm1 Hm2. apply HQ. split; [|..|done|done|].
  - exact (pt_ready_vm r (k_proc s2) s2 P l (ps_ready _ _ _ _ _ _ St2)).
  - intros va'. unfold s2. ksimpl. rewrite (store_pte_of _ _ va) by (apply Hr1 || done).
    rewrite u32_small by (by apply private_entry_range). by rewrite (ut_pte _ _ _ Ut1).
  - intros o Ho. transitivity (ldb m1 (v + o)).
    + apply (ps_frame _ _ _ _ _ _ St2 v); [by destruct Hv| |by apply not_elem_of_nil|lia].
      unfold s1. ksimpl. by rewrite (ut_owns _ _ _ Ut1).
    + unfold m1. rewrite ldb_memmove, decide_True by klia. by replace (v + o - v) with o by lia.
  - intros p Hp Ho Hpv. apply (same_page_trans _ m1); [by apply Hsame|].
    apply (ps_frame _ _ _ _ _ _ St2); [done| |by apply not_elem_of_nil].
    unfold s1. ksimpl. by rewrite (ut_owns _ _ _ Ut1).
  - intros p. pose proof (ps_owns _ _ _ _ _ _ St2 p) as Ho. rewrite elem_of_nil in Ho.
    pose proof (ut_owns _ _ _ Ut1 p) as Ho1. cbn in Ho, Ho1 |- *. tauto.
  - destruct (kmem_step_kalloc s) as (f & n & m & g & E). unfold s2, s1. rewrite E.
    by eexists f, n, _, g, r, (k_proc s).
Qed.

(** ** The handler on a present page *)

(** The running process has the page table [P] and faulted at [va]. *)
Definition faulting s P va : Prop :=
  0 <= va < two32 /\ PGROUNDDOWN (k_cr2 s) = PGROUNDDOWN va /\
  exists c pr, k_cur s = Some c /\ k_proc s !! c = Some pr /\ p_pgdir pr = P.

Lemma same_vpage_down va : 0 <= va < two32 -> same_vpage (PGROUNDDOWN va) va.
Proof.
  intros Hva. rewrite PGROUNDDOWN_eq, u32_small by done.
  apply same_vpage_aligned; klia.
Qed.

Lemma pt_addr_vpage m P va va' : same_vpage va va' -> pt_addr m P va = pt_addr m P va'.
Proof. intros [H1 H2]. unfold pt_addr. by rewrite H1, H2. Qed.

Lemma wp_fault_present P va a Q s :
  let e := pte_of (k_mem s) P va in
  pt_wf (k_mem s) P -> faulting s P va -> pt_addr (k_mem s) P va = Some a -> has e PTE_P = true ->
  wp (break_cow a (PTE_ADDR e) (PTE_ADDR e / PGSIZE)) (fun _ s' => Q tt (set_k_cr3 (V2P P) s')) s ->
  wp handle_fage_fault Q s.
Proof.
  intros e Hwf (Hva & Hcr2 & c & pr & Hc & Hpr & HP) Ha He Hwp. unfold handle_fage_fault.
  wp_step. eapply wp_curproc; [done|]. wp_step. eapply wp_get_proc; [done|].
  wp_step. unfold rcr2. apply wp_gets. rewrite HP, Hcr2. wp_step. eapply wp_walkpgdir_Some.
  { by rewrite (pt_addr_vpage _ _ _ va) by (by apply same_vpage_down). }
  wp_step. apply wp_deref; [by apply (pt_addr_nonzero (k_mem s) P va)|].
  assert (ld (k_mem s) a = e) as -> by (unfold e, pte_of; by rewrite Ha).
  wp_step. rewrite He. eapply wp_mono; [done|]. intros [] s' HQ. by apply wp_modify.
Qed.

(** ** The views after the copy *)

Lemma private_entry_flags v e : page_ok v ->
  has (private_entry v e) PTE_P = has e PTE_P /\ has (private_entry v e) PTE_U = has e PTE_U /\
  has (private_entry v e) PTE_W = true.
Proof.
  intros [Hv _]. assert (V2P v mod 4096 = 0) as Hv' by (by apply V2P_aligned).
  assert (forall k, 0 <= k < 12 -> k < 3 -> Z.testbit (PTE_FLAGS e) k = Z.testbit e k) as Hf.
  { intros k Hk Hk'. unfold PTE_FLAGS. rewrite Z.land_spec. unfold u32, two32.
    change 4294967296 with (2 ^ 32). rewrite Z.mod_pow2_bits_low by lia.
    change 4095 with (Z.ones 12). rewrite Z.ones_spec_low by lia. apply andb_true_r. }
  unfold private_entry. rewrite !has_P, !has_U, !has_W, !Z.lor_spec, !Hf by lia.
  rewrite !(testbit_aligned (V2P v)) by (done || lia). cbn.
  rewrite !orb_false_r, orb_true_r. done.
Qed.

(** A write of a byte to page [v]. *)
Section byte.
Context (m : mem) P v (o b : Z) (Hv : page_ok v) (Ho : 0 <= o < PGSIZE).
Context (Hwf : pt_wf m P) (Hnv : ~ owns m P v).

Lemma stb_same_page p : p mod PGSIZE = 0 -> p <> v -> same_page m (stb m (v + o) b) p.
Proof. destruct Hv as [Hv' _]. intros Hp Hpv c Hc. apply ldb_stb_ne. klia. Qed.

Lemma stb_untouched : untouched m (stb m (v + o) b) P.
Proof.
  apply untouched_frame. intros p Hp. apply stb_same_page; [|by intros ->].
  by destruct (owns_page_ok _ _ _ Hwf Hp).
Qed.

(** It is not seen at addresses whose frame is another. *)
Lemma uread_stb va : 0 <= va < KERNBASE ->
  (has (pte_of m P va) PTE_P = true ->
   P2V (PTE_ADDR (pte_of m P va)) <> v) ->
  uread (stb m (v + o) b) P va = uread m P va.
Proof.
  intros Hva Hne. unfold uread. rewrite (ut_pte _ _ _ stb_untouched).
  destruct (has _ PTE_P); [|done]. destruct (has _ PTE_U); [|done]. cbn. f_equal.
  apply (stb_same_page (P2V (PTE_ADDR (pte_of m P va)))); [apply frame_aligned|auto|klia].
Qed.
End byte.

Section unshared.
Context s s' P va a v own l (Hus : unshared s s' P va a v own l).
Context (Hva : 0 <= va < KERNBASE) (Hv : page_ok v) (Hnv : ~ owns (k_mem s) P v).
Context (Hfr : frames (k_mem s) P (fun f => ~ owns (k_mem s) P f /\ f <> v)).

(** The faulting process sees what it saw before. *)
Lemma unshared_view va' : 0 <= va' < KERNBASE -> uread (k_mem s') P va' = uread (k_mem s) P va'.
Proof.
  intros Hva'. pose proof (us_pte _ _ _ _ _ _ _ _ Hus va') as Hpte.
  destruct (decide (same_vpage va va')) as [Hsv|].
  - assert (pte_of (k_mem s) P va' = pte_of (k_mem s) P va) as E by (symmetry; by apply pte_of_vpage).
    unfold uread. rewrite Hpte, E.
    destruct (private_entry_flags v (pte_of (k_mem s) P va) Hv) as (-> & -> & _).
    destruct (has _ PTE_P && has _ PTE_U); [|done]. f_equal.
    rewrite private_entry_addr by done. apply page_ok_range in Hv. rewrite P2V_V2P by klia.
    apply (us_copy _ _ _ _ _ _ _ _ Hus). klia.
  - eapply uread_same; [done|rewrite Hpte; done..|done|].
    intros p Hp [Ho Hpv]. by apply (us_frame _ _ _ _ _ _ _ _ Hus).
Qed.

(** The pages of another page table do not change. *)
Lemma unshared_same D p : two_tables s P D (v :: l) -> owns (k_mem s) D p ->
  same_page (k_mem s) (k_mem s') p.
Proof.
  intros Htt Hp. pose proof (tt_r _ _ _ _ Htt) as HD. apply (us_frame _ _ _ _ _ _ _ _ Hus).
  - by destruct (owns_page_ok _ _ _ (pr_wf _ _ _ HD) Hp).
  - intros Ho. by apply (tt_disj _ _ _ _ Htt p).
  - intros ->. revert Hp. apply (pr_fresh _ _ _ HD). by left.
Qed.

(** A process with another page table sees what it saw before. *)
Lemma unshared_other D : two_tables s P D (v :: l) ->
  frames (k_mem s) D (fun f => ~ owns (k_mem s) P f /\ f <> v) ->
  untouched (k_mem s) (k_mem s') D /\
  forall va', 0 <= va' < KERNBASE -> uread (k_mem s') D va' = uread (k_mem s) D va'.
Proof.
  intros Htt HfD. assert (untouched (k_mem s) (k_mem s') D) as Hut.
  { apply untouched_frame. intros p. by apply unshared_same. }
  split; [done|]. intros va' Hva'.
  eapply uread_same; [done|rewrite (ut_pte _ _ _ Hut); done..|done|].
  intros p Hp [Ho Hpv]. by apply (us_frame _ _ _ _ _ _ _ _ Hus).
Qed.

(** A write to the copy is not seen through another page table. *)
Lemma unshared_write_other D b : two_tables s P D (v :: l) ->
  frames (k_mem s) D (fun f => ~ owns (k_mem s) P f /\ f <> v) ->
  forall va', 0 <= va' < KERNBASE ->
    uread (stb (k_mem s') (v + va mod PGSIZE) b) D va' = uread (k_mem s) D va'.
Proof.
  intros Htt HfD va' Hva'. destruct (unshared_other D Htt HfD) as [Hut Hview].
  rewrite <-Hview by done. pose proof (tt_r _ _ _ _ Htt) as HD.
  apply uread_stb; [done|klia| | |done|].
  - apply (frame_pt_wf (k_mem s)); [|apply HD]. intros p. by apply unshared_same.
  - rewrite (ut_owns _ _ _ Hut). apply (pr_fresh _ _ _ HD). by left.
  - rewrite (ut_pte _ _ _ Hut). intros HP'. by destruct (HfD va' Hva' HP').
Qed.

(** It can now write, and its write changes its own view at [va] only. *)
Lemma unshared_write b :
  has (pte_of (k_mem s) P va) PTE_P = true -> has (pte_of (k_mem s) P va) PTE_U = true ->
  exists m, uwrite (k_mem s') P va b = Some m /\
    m = stb (k_mem s') (v + va mod PGSIZE) b /\
    forall va', 0 <= va' < KERNBASE ->
      uread m P va' = if decide (va' = va) then Some (b mod 256) else uread (k_mem s) P va'.
Proof.
  intros HP HU. assert (0 <= va < two32) as Hva2 by klia.
  pose proof (us_pte _ _ _ _ _ _ _ _ Hus va) as Hpte.
  rewrite decide_True in Hpte by done.
  destruct (private_entry_flags v (pte_of (k_mem s) P va) Hv) as (FP & FU & FW).
  assert (P2V (V2P v) = v) as Ev by (apply page_ok_range in Hv; apply P2V_V2P; klia).
  exists (stb (k_mem s') (v + va mod PGSIZE) b). unfold uwrite.
  rewrite Hpte, FP, FU, FW, HP, HU. cbn [andb]. rewrite private_entry_addr, Ev by done.
  split; [done|]. split; [done|]. intros va' Hva'.
  assert (0 <= va mod PGSIZE < PGSIZE) as Hoff by klia.
  assert (pt_wf (k_mem s') P) as Hwf' by apply Hus.
  assert (~ owns (k_mem s') P v) as Hnv' by (by rewrite (us_owns _ _ _ _ _ _ _ _ Hus)).
  destruct (decide (same_vpage va va')) as [Hsv|Hsv].
  - rewrite <-unshared_view by done. unfold uread.
    rewrite (ut_pte _ _ _ (stb_untouched _ _ v _ b Hv Hoff Hwf' Hnv')).
    rewrite (us_pte _ _ _ _ _ _ _ _ Hus), decide_True, FP, FU, HP, HU by done. cbn [andb].
    rewrite private_entry_addr, Ev, ldb_stb by done.
    destruct (decide (va' = va)) as [->|Hne]; [by rewrite decide_True|].
    rewrite decide_False; [done|]. intros E. apply Hne.
    destruct Hsv as [H1 H2]. rewrite !PDX_eq, !PTX_eq, !u32_small in * by klia. klia.
  - rewrite decide_False by (intros ->; by apply Hsv). rewrite <-unshared_view by done.
    apply uread_stb; try done. rewrite (us_pte _ _ _ _ _ _ _ _ Hus), decide_False by done.
    intros HP'. by destruct (Hfr va' Hva' HP').
Qed.
End unshared.

Lemma wp_write_fault P va a v own l Q s :
  let e := pte_of (k_mem s) P va in
  pt_ready s P (v :: l) -> faulting s P va -> pt_addr (k_mem s) P va = Some a ->
  has e PTE_P = true -> page_ok (P2V (PTE_ADDR e)) -> P2V (PTE_ADDR e) <> v ->
  mapped_by s (PTE_ADDR e / PGSIZE) (a :: own) -> own <> [] -> mapped_by s (V2P v / PGSIZE) [] ->
  (forall s', unshared s s' P va a v own l -> Q tt (set_k_cr3 (V2P P) s')) ->
  wp handle_fage_fault Q s.
Proof.
  intros e Hr Hf Ha He Hok Hne Hold Hown Hnew HQ.
  eapply wp_fault_present; [apply Hr|done..|].
  by eapply wp_break_cow_shared.
Qed.
End cow.

(** ** Fork, then write *)

Lemma two_tables_cr2 {I : KernelImage} v s P d l :
  two_tables s P d l -> two_tables (set_k_cr2 v s) P d l.
Proof. intros [[[] ???] [[] ???] ?]. by split; [split; [split|..]|split; [split|..]|]. Qed.

Section fork_write.
Context {I : KernelImage} {Iok : KernelImageOk I}.
Context (s s1 : kstate) (P d : Z) (child : nat) (pr0 : proc) (own : nat -> list Z) (n : nat).
Context (l used l2 : list Z) (v va a : Z).
Context (Hcf : cow_fork s s1 P d child pr0 own n l used (v :: l2)).
Context (Hpre : cow_pre s P child pr0 own n l).
Context (Hfr : frames (k_mem s) P (fun f => page_ok f /\ ~ owns (k_mem s) P f /\ f ∉ l)).
Context (Hfree : forall p, p ∈ l -> mapped_by s (V2P p / PGSIZE) []).
Context (Hva : 0 <= va < Z.of_nat n * PGSIZE).

Let k : nat := Z.to_nat (va / PGSIZE).

Lemma fork_write_page : (k < n)%nat /\ same_vpage (Z.of_nat k * PGSIZE) va.
Proof.
  pose proof (cp_n _ _ _ _ _ _ _ Hpre). unfold k.
  assert (Z.of_nat (Z.to_nat (va / PGSIZE)) = va / PGSIZE) as E by klia.
  split; [klia|]. rewrite E. apply same_vpage_aligned; klia.
Qed.

Lemma fork_write_free : v ∈ l.
Proof. rewrite (cf_list _ _ _ _ _ _ _ _ _ _ _ Hcf). set_solver. Qed.

(** The next free page still has no owner. *)
Lemma fork_write_unowned : mapped_by s1 (V2P v / PGSIZE) [].
Proof.
  pose proof (cp_n _ _ _ _ _ _ _ Hpre) as Hn.
  apply (mapped_by_ext_at s); [|by apply Hfree, fork_write_free].
  apply (cf_rmap _ _ _ _ _ _ _ _ _ _ _ Hcf). intros j Hj E.
  destruct (Hfr (Z.of_nat j * PGSIZE)) as (Hok & _ & Hnl);
    [klia|by apply (cp_present _ _ _ _ _ _ _ Hpre)|].
  apply Hnl. pose proof fork_write_free as Hv.
  assert (page_ok v) as Hvok
    by (by apply (proj1 (Forall_forall page_ok l) (free_pages _ _ (pr_free _ _ _ (cp_ready _ _ _ _ _ _ _ Hpre))))).
  set (f := PTE_ADDR _) in *. pose proof (PTE_ADDR_aligned (pte_of (k_mem s) P (Z.of_nat j * PGSIZE))) as Hal.
  fold f in Hal. pose proof (V2P_aligned v (proj1 Hvok)). apply page_ok_range in Hvok.
  replace (P2V f) with v; [done|]. rewrite <-(P2V_V2P v) by klia. f_equal. klia.
Qed.

Context (c : nat) (pr : proc) (Hc : k_cur s = Some c) (Hcc : c <> child).
Context (Hpr : k_proc s !! c = Some pr) (HP : p_pgdir pr = P).
Context (Hu : has (pte_of (k_mem s) P va) PTE_U = true).
Context (Ha : pt_addr (k_mem s) P va = Some a) (Hown : own k = [a]).

Lemma fork_write_faulting : faulting (set_k_cr2 va s1) P va.
Proof.
  pose proof (cp_n _ _ _ _ _ _ _ Hpre). split; [klia|]. split; [done|].
  destruct (cf_rest _ _ _ _ _ _ _ _ _ _ _ Hcf) as (s0 & (?&?&?&?&?&?&E) & E2).
  exists c, pr. split; [by rewrite E2, E|]. split; [|done].
  change (k_proc s1 !! c = Some pr).
  by rewrite (cf_proc _ _ _ _ _ _ _ _ _ _ _ Hcf), list_lookup_insert_ne by done.
Qed.

Lemma fork_write_present : has (pte_of (k_mem s) P va) PTE_P = true.
Proof.
  destruct fork_write_page as [Hk Hsv]. rewrite <-(pte_of_vpage _ _ _ _ Hsv).
  by apply (cp_present _ _ _ _ _ _ _ Hpre).
Qed.

(** The parent's fault after the fork. *)
Lemma wp_fork_write Q :
  (forall b s', unshared (set_k_cr2 va s1) s' P va a v [b] l2 -> Q tt (set_k_cr3 (V2P P) s')) ->
  wp handle_fage_fault Q (set_k_cr2 va s1).
Proof.
  intros HQ. pose proof (cp_n _ _ _ _ _ _ _ Hpre) as Hn. destruct fork_write_page as [Hk Hsv].
  assert (0 <= va < two32) as Hva' by klia.
  pose proof (cf_pte_l _ _ _ _ _ _ _ _ _ _ _ Hcf va Hva') as Hpte. rewrite decide_True in Hpte by lia.
  pose proof (pte_of_range (k_mem s) P va) as Hr.
  assert (pte_of (k_mem s) P (Z.of_nat k * PGSIZE) = pte_of (k_mem s) P va) as Ek by (by apply pte_of_vpage).
  pose proof fork_write_present as HPa.
  destruct (Hfr va) as (Hfok & _ & Hnl); [klia|done|].
  destruct (cf_owners _ _ _ _ _ _ _ _ _ _ _ Hcf k Hk) as (b & _ & Hmb). rewrite Ek, Hown in Hmb.
  pose proof (two_tables_cr2 va _ _ _ _ (cf_tables _ _ _ _ _ _ _ _ _ _ _ Hcf)) as Htt.
  apply (wp_write_fault P va a v [b] l2); change (k_mem (set_k_cr2 va s1)) with (k_mem s1);
    rewrite ?Hpte, ?readonly_addr, ?readonly_P by done.
  - apply Htt.
  - apply fork_write_faulting.
  - by rewrite (cf_addr_l _ _ _ _ _ _ _ _ _ _ _ Hcf).
  - done.
  - done.
  - intros E. apply Hnl. rewrite E. apply fork_write_free.
  - eapply mapped_by_perm; [|exact Hmb]. apply Permutation_swap.
  - done.
  - exact fork_write_unowned.
  - intros s'. apply HQ.
Qed.
End fork_write.

(** ** Properties *)

Section properties.
Context {I : KernelImage} {Iok : KernelImageOk I}.
Implicit Types (s : kstate) (P va : Z).

(** C6: a write fault on a page that others share.  The handler returns; the
    process reads what it read before; the other sharers keep the old page
    and the copy has the process as its only owner; the write now succeeds,
    changes the byte at [va] in the view of the writer and nothing else, and
    nothing at all in the view through any other page table. *)
Theorem write_fault_isolates P va a v own l s :
  let e := pte_of (k_mem s) P va in
  0 <= va < KERNBASE ->
  pt_ready s P (v :: l) -> faulting s P va -> pt_addr (k_mem s) P va = Some a ->
  has e PTE_P = true -> has e PTE_U = true -> page_ok (P2V (PTE_ADDR e)) ->
  mapped_by s (PTE_ADDR e / PGSIZE) (a :: own) -> own <> [] -> mapped_by s (V2P v / PGSIZE) [] ->
  frames (k_mem s) P (fun f => ~ owns (k_mem s) P f /\ f <> v) ->
  wp handle_fage_fault (fun _ s' =>
    (forall va', 0 <= va' < KERNBASE -> uread (k_mem s') P va' = uread (k_mem s) P va') /\
    mapped_by s' (PTE_ADDR e / PGSIZE) own /\ mapped_by s' (V2P v / PGSIZE) [a] /\
    forall b, exists m, uwrite (k_mem s') P va b = Some m /\
      (forall va', 0 <= va' < KERNBASE ->
         uread m P va' = if decide (va' = va) then Some (b mod 256) else uread (k_mem s) P va') /\
      forall D, two_tables s P D (v :: l) ->
        frames (k_mem s) D (fun f => ~ owns (k_mem s) P f /\ f <> v) ->
        forall va', 0 <= va' < KERNBASE -> uread m D va' = uread (k_mem s) D va') s.
Proof.
  intros e Hva Hr Hf Ha He Hu Hok Hold Hown Hnew Hfr.
  assert (page_ok v) as Hv by apply (Forall_inv (free_pages _ _ (pr_free _ _ _ Hr))).
  assert (~ owns (k_mem s) P v) as Hnv by (apply (pr_fresh _ _ _ Hr); by left).
  destruct (Hfr va Hva He) as [_ Hne].
  apply (wp_write_fault P va a v own l); [done..|].
  intros s' Hus. change (k_mem (set_k_cr3 (V2P P) s')) with (k_mem s').
  split; [by eapply unshared_view|]. split; [apply Hus|]. split; [apply Hus|].
  intros b. destruct (unshared_write _ _ _ _ _ _ _ _ Hus Hva Hv Hnv Hfr b He Hu) as (m & Hm & -> & Hview).
  eexists. split; [done|]. split; [done|]. intros D Htt HfD.
  by eapply unshared_write_other.
Qed.

(** C2: fork, then a write by the parent to a page that only it mapped before
    the fork.  After [copyuvm] and a page fault of the parent at [va], the
    parent's write succeeds and changes exactly
    the byte at [va] in its own view, while the child still reads, at every
    address below the size, what the parent read before the fork. *)
Theorem fork_then_write P sz child pr0 own l va a c pr s :
  let e := pte_of (k_mem s) P va in
  sz <= KERNBASE -> cow_pre s P child pr0 own (npages sz) l ->
  (10 + (npages sz + 1023) / 1024 < length l)%nat ->
  frames (k_mem s) P (fun f => page_ok f /\ ~ owns (k_mem s) P f /\ f ∉ l) ->
  (forall p, p ∈ l -> mapped_by s (V2P p / PGSIZE) []) ->
  k_cur s = Some c -> c <> child -> k_proc s !! c = Some pr -> p_pgdir pr = P ->
  0 <= va < Z.of_nat (npages sz) * PGSIZE -> has e PTE_U = true ->
  pt_addr (k_mem s) P va = Some a -> own (Z.to_nat (va / PGSIZE)) = [a] ->
  wp (d ← copyuvm P sz child; modify (set_k_cr2 va);; handle_fage_fault;; mret d)
    (fun d s' => forall b, exists m, uwrite (k_mem s') P va b = Some m /\
       forall va', 0 <= va' < Z.of_nat (npages sz) * PGSIZE ->
         uread m P va' = (if decide (va' = va) then Some (b mod 256) else uread (k_mem s) P va') /\
         uread m d va' = uread (k_mem s) P va') s.
Proof.
  intros e Hsz Hpre Hlen Hfr Hfree Hc Hcc Hpr HP Hva Hu Ha Hown.
  pose proof (cp_n _ _ _ _ _ _ _ Hpre) as Hn. assert (0 <= va < two32) as Hva' by klia.
  wp_step. apply (wp_copyuvm _ _ _ pr0 own l); [done|done|].
  intros d s1 used l1 Hcf Hd. wp_step. apply wp_modify. wp_step.
  assert (exists v l2, l1 = v :: l2) as (v & l2 & ->).
  { pose proof (f_equal length (cf_list _ _ _ _ _ _ _ _ _ _ _ Hcf)) as E. rewrite length_app in E.
    pose proof (cf_used _ _ _ _ _ _ _ _ _ _ _ Hcf). destruct l1 as [|v l2]; [cbn in E; lia|eauto]. }
  eapply wp_fork_write; [done..|]. intros b0 s' Hus. wp_steps.
  change (k_mem (set_k_cr3 (V2P P) s')) with (k_mem s').
  pose proof (two_tables_cr2 va _ _ _ _ (cf_tables _ _ _ _ _ _ _ _ _ _ _ Hcf)) as Htt.
  assert (page_ok v) as Hv by apply (Forall_inv (free_pages _ _ (pr_free _ _ _ (tt_l _ _ _ _ Htt)))).
  assert (~ owns (k_mem s1) P v) as Hnv by (apply (pr_fresh _ _ _ (tt_l _ _ _ _ Htt)); by left).
  assert (forall D, frames (k_mem s1) D (fun f => page_ok f /\ ~ owns (k_mem s1) P f /\ f ∉ l) ->
    frames (k_mem s1) D (fun f => ~ owns (k_mem s1) P f /\ f <> v)) as Hweak.
  { intros D HD x Hx Hxp. destruct (HD x Hx Hxp) as (_ & ? & Hnl). split; [done|]. intros E. apply Hnl.
    rewrite E. by eapply fork_write_free. }
  pose proof (Hweak _ (fork_frames_l _ _ _ _ _ _ _ _ _ _ _ Hcf Hfr)) as HfP.
  pose proof (Hweak _ (fork_frames_r _ _ _ _ _ _ _ _ _ _ _ Hcf Hfr)) as Hfd.
  pose proof (cf_pte_l _ _ _ _ _ _ _ _ _ _ _ Hcf va Hva') as Hpte. rewrite decide_True in Hpte by lia.
  assert (has e PTE_P = true) as HPe by (by eapply fork_write_present).
  intros b.
  destruct (unshared_write (set_k_cr2 va s1) s' P va a v [b0] l2 Hus ltac:(klia) Hv Hnv HfP b)
    as (m & Hm & -> & Hview); [ksimpl; by rewrite Hpte, ?readonly_P, ?readonly_U..|].
  eexists. split; [done|]. intros va' Hva2.
  destruct (fork_views _ _ _ _ _ _ _ _ _ _ _ Hcf Hfr va' Hva2 Hn) as [E1 E2].
  split; [by rewrite Hview, <-E1 by klia|].
  rewrite <-E2. eapply (unshared_write_other (set_k_cr2 va s1) s' P va a v [b0] l2); try done; klia.
Qed.

(** A write fault on a page with a single owner costs nothing: the
    handler returns, the reverse map and the free list are as before, no
    byte outside the page table changes, the view of the process is the
    same, and the write succeeds. *)
Theorem write_fault_sole_owner P va a l s :
  let e := pte_of (k_mem s) P va in
  0 <= va < KERNBASE ->
  pt_ready s P l -> faulting s P va -> pt_addr (k_mem s) P va = Some a ->
  has e PTE_P = true -> has e PTE_U = true ->
  mapped_by s (PTE_ADDR e / PGSIZE) [a] ->
  frames (k_mem s) P (fun f => ~ owns (k_mem s) P f) ->
  wp handle_fage_fault (fun _ s' =>
    k_rmap s' = k_rmap s /\ pt_ready s' P l /\
    (forall p, p mod PGSIZE = 0 -> ~ owns (k_mem s) P p -> same_page (k_mem s) (k_mem s') p) /\
    (forall va', 0 <= va' < KERNBASE -> uread (k_mem s') P va' = uread (k_mem s) P va') /\
    forall b, is_Some (uwrite (k_mem s') P va b)) s.
Proof.
  intros e Hva Hr Hf Ha He Hu Hm Hfr.
  eapply wp_fault_present; [apply Hr|done..|].
  apply (wp_break_cow_sole P va a l); [done..|].
  intros s' Hst Hrm Hpte. change (k_mem (set_k_cr3 (V2P P) s')) with (k_mem s').
  pose proof (ps_ready _ _ _ _ _ _ Hst) as Hr'. fold e in Hpte.
  assert (0 <= e < two32) as Her by apply pte_of_range.
  assert (has (Z.lor e PTE_W) PTE_P = has e PTE_P) as HfP by (rewrite !has_P, Z.lor_spec; apply orb_false_r).
  assert (has (Z.lor e PTE_W) PTE_U = has e PTE_U) as HfU by (rewrite !has_U, Z.lor_spec; apply orb_false_r).
  split; [done|]. split; [destruct Hr' as [[] ???]; by split; [split|..]|]. split; [|split].
  - intros p Hp Ho. by apply (ps_frame _ _ _ _ _ _ Hst); [..|apply not_elem_of_nil].
  - intros va' Hva'. eapply uread_same; [done| | | |done|].
    1-3: rewrite Hpte; case_decide as Hsv; [|done];
      rewrite <-(pte_of_vpage _ _ _ _ Hsv); fold e.
    + done.
    + done.
    + by apply PTE_ADDR_lor_flags.
    + intros p Hp Ho. by apply (ps_frame _ _ _ _ _ _ Hst); [..|apply not_elem_of_nil].
  - intros b. unfold uwrite. rewrite Hpte, decide_True by done.
    rewrite HfP, HfU, He, Hu. rewrite has_W, Z.lor_spec, orb_true_r. by eexists.
Qed.
End properties.

(** ** Instances *)

#[local] Existing Instance img.

Lemma sample_addr va : 0 <= va < PGSIZE -> pt_addr mem0 pgdir0 va = Some table0.
Proof.
  intros Hva. unfold pt_addr. rewrite sample_table by apply PDX_range.
  rewrite PDX_eq, u32_small, decide_True by klia. cbn. f_equal.
  rewrite PTX_eq, u32_small by klia. unfold table0. klia.
Qed.

Lemma fork_then_write_witness :
  wp (d ← copyuvm pgdir0 PGSIZE 1; modify (set_k_cr2 5);; handle_fage_fault;; mret d)
    (fun d s' => forall b, exists m, uwrite (k_mem s') pgdir0 5 b = Some m /\
       uread m pgdir0 5 = Some (b mod 256) /\ uread m d 5 = uread mem0 pgdir0 5) state0.
Proof.
  eapply wp_mono.
  - apply (fork_then_write pgdir0 PGSIZE 1 unused_proc (fun _ => [table0]) free0 5 table0 0 proc0).
    + done.
    + apply sample_cow_pre.
    + apply Nat.ltb_lt. reflexivity.
    + apply sample_frames, sample_frame0.
    + apply sample_unowned.
    + done.
    + done.
    + done.
    + done.
    + done.
    + by rewrite sample_pte.
    + by apply sample_addr.
    + done.
  - intros d s' H b. destruct (H b) as (m & Hm & Hv). exists m. split; [done|].
    destruct (Hv 5 ltac:(split; [discriminate|reflexivity])) as [H1 H2].
    rewrite decide_True in H1 by reflexivity. split; [exact H1|exact H2].
Defined.

Lemma write_fault_isolates_witness :
  wp handle_fage_fault (fun _ s' =>
    uread (k_mem s') pgdir0 5 = uread mem0 pgdir0 5 /\
    mapped_by s' (V2P frame0 / PGSIZE) [0x80200000] /\
    exists m, uwrite (k_mem s') pgdir0 5 7 = Some m /\ uread m pgdir0 5 = Some 7) state_shared.
Proof.
  eapply wp_mono.
  - apply (write_fault_isolates pgdir0 5 table0 0x80303000 [0x80200000] (tail free0)).
    + done.
    + apply sample_shared_ready.
    + split; [done|]. split; [done|]. by exists 0%nat, proc0.
    + by apply sample_addr.
    + by rewrite sample_pte.
    + by rewrite sample_pte.
    + rewrite sample_pte by done. apply sample_frame0.
    + rewrite sample_pte by done. apply sample_shared_mapped.
    + done.
    + apply sample_shared_unowned.
    + apply sample_frames. destruct sample_frame0 as (_ & ? & _). done.
  - intros _ s' (Hv & Hm & _ & Hw). split; [by apply Hv|]. split.
    + revert Hm. by rewrite sample_pte by done.
    + destruct (Hw 7) as (m & ? & Hm' & _). exists m. split; [done|]. by rewrite Hm'.
Defined.

Lemma write_fault_sole_owner_witness :
  wp handle_fage_fault (fun _ s' => k_rmap s' = k_rmap state0 /\
    is_Some (uwrite (k_mem s') pgdir0 5 7)) (set_k_cr2 5 state0).
Proof.
  eapply wp_mono.
  - apply (write_fault_sole_owner pgdir0 5 table0 free0).
    + done.
    + destruct sample_ready as [[] ???]. by split; [split|..].
    + split; [done|]. split; [done|]. by exists 0%nat, proc0.
    + by apply sample_addr.
    + by rewrite sample_pte.
    + by rewrite sample_pte.
    + rewrite sample_pte by done. apply sample_mapped.
    + apply sample_frames, sample_frame0.
  - intros _ s' (Hrm & _ & _ & _ & Hw). split; [done|apply Hw].
Defined.
