(* ===== verification/SwapIn.v ===== *)
(** * Swapping a page back in

    The other half of [handle_fage_fault] of [proc.c]: an access to a page
    that [find_new_page_after_swapping] has moved to a slot, and the two
    halves together. *)

From Stdlib Require Import ZArith Lia.
From stdpp Require Import base strings numbers gmap list.
From S2P Require Import Prelude Mmu Memory Kernel Sample Sleeplock Bio Kmem Rmap PageTable Swap.
From S2P Require Import Kalloc Vm VmKernel SampleTables VmUser VmGrow VmShrink SwapOut Fault.

(** The entry that a page brought back to [v] gets: the flags [perm] of
    before, accessed, not writable. *)
Definition restored_entry (v perm : Z) : Z :=
  Z.land (Z.land (Z.lor (Z.lor (PTE_ADDR (V2P v)) (PTE_FLAGS perm)) PTE_A) (Z.lnot PTE_W)) (Z.lnot PTE_S).

Section restored.
Context {I : KernelImage} {Iok : KernelImageOk I} (v perm : Z) (Hv : page_ok v).

Lemma PTE_ADDR_page : PTE_ADDR (V2P v) = V2P v.
Proof.
  destruct Hv as [Hal _]. rewrite PTE_ADDR_eq. pose proof (V2P_aligned v Hal) as Ha.
  rewrite u32_small by (unfold V2P; apply u32_range). klia.
Qed.

Lemma restored_steps :
  let e1 := Z.lor (PTE_ADDR (V2P v)) (PTE_FLAGS perm) in
  0 <= e1 < two32 /\ 0 <= Z.lor e1 PTE_A < two32 /\ 0 <= Z.land (Z.lor e1 PTE_A) (Z.lnot PTE_W) < two32 /\
  0 <= restored_entry v perm < two32.
Proof.
  cbn zeta. pose proof (PTE_ADDR_range (V2P v)). pose proof (PTE_FLAGS_range perm).
  assert (0 <= Z.lor (PTE_ADDR (V2P v)) (PTE_FLAGS perm) < two32) as H1 by (apply lor_u32_range; klia).
  assert (0 <= Z.lor (Z.lor (PTE_ADDR (V2P v)) (PTE_FLAGS perm)) PTE_A < two32) as H2
    by (apply lor_u32_range; [done|done]).
  split; [done|]. split; [done|]. split; [by apply land_u32_range|].
  unfold restored_entry. by do 2 apply land_u32_range.
Qed.

Lemma restored_addr : PTE_ADDR (restored_entry v perm) = V2P v.
Proof.
  destruct restored_steps as (H1 & H2 & H3 & _). pose proof (PTE_FLAGS_range perm).
  unfold restored_entry. rewrite !PTE_ADDR_ldiff, PTE_ADDR_lor_flags by done.
  rewrite PTE_ADDR_page. destruct Hv as [Hal _].
  apply PTE_ADDR_lor; [unfold V2P; apply u32_range|by apply V2P_aligned|done].
Qed.

Lemma restored_flags : 0 <= perm < two32 ->
  has (restored_entry v perm) PTE_P = has perm PTE_P /\ has (restored_entry v perm) PTE_U = has perm PTE_U /\
  has (restored_entry v perm) PTE_W = false.
Proof.
  intros Hp. destruct Hv as [Hal _]. pose proof (V2P_aligned v Hal) as Ha.
  assert (forall k, 0 <= k < 3 -> Z.testbit (PTE_FLAGS perm) k = Z.testbit perm k) as Hf.
  { intros k Hk. unfold PTE_FLAGS. rewrite Z.land_spec, u32_small by done.
    change 4095 with (Z.ones 12). rewrite Z.ones_spec_low by lia. apply andb_true_r. }
  unfold restored_entry. rewrite !has_P, !has_U, !has_W, PTE_ADDR_page, !Z.land_spec, !Z.lor_spec, !Hf by lia.
  rewrite !(testbit_aligned (V2P v)) by (done || lia).
  change (Z.testbit PTE_A 0) with false. change (Z.testbit PTE_A 1) with false. change (Z.testbit PTE_A 2) with false.
  change (Z.testbit (Z.lnot PTE_W) 0) with true. change (Z.testbit (Z.lnot PTE_S) 0) with true.
  change (Z.testbit (Z.lnot PTE_W) 2) with true. change (Z.testbit (Z.lnot PTE_S) 2) with true.
  change (Z.testbit (Z.lnot PTE_W) 1) with false. cbn [orb].
  by rewrite !orb_false_r, !andb_true_r, !andb_false_r.
Qed.
End restored.

(** ** The handler on a page in a slot *)

(** The page at [va] of [P] is in slot [idx], for the process [q] alone;
    the slot's blocks hold the bytes [f]. *)
Record swapped {I : KernelImage} (s : kstate) (P va a idx : Z) (w : swapslot) (q : nat) (pq : proc)
    (f : Z -> Z) (v : Z) (l : list Z) : Prop := {
  sd_ready : pt_ready s P (v :: l);
  sd_addr : pt_addr (k_mem s) P va = Some a;
  sd_pte : pte_of (k_mem s) P va = swapped_pte idx;
  sd_idx : 0 <= idx < NSLOTS;
  sd_slot : zlookup (k_swap s) idx = Some w;
  sd_cnt : sw_cnt w = 1;
  sd_entry : zlookup (sw_pte_id w) 0 = Some a;
  sd_owner : zlookup (sw_proc_id w) 0 = Some (Some q);
  sd_proc : k_proc s !! q = Some pq;
  sd_used : p_state pq <> UNUSED;
  sd_free : mapped_by s (V2P v / PGSIZE) [];
  sd_cache : cache_ok s;
  sd_locks : bio_unlocked s;
  sd_fault : faulting s P va;
  sd_disk : 2 + 8 * NSLOTS <= k_disksize s <= two32;
  sd_blocks : forall i, 0 <= i < 8 -> length (block_view s (2 + 8 * idx + i)) = 512%nat /\
    forall o, 0 <= o < 512 -> nth (Z.to_nat o) (block_view s (2 + 8 * idx + i)) 0 mod 256 = f (512 * i + o);
}.

Record brought_in {I : KernelImage} (s s' : kstate) (P va a idx : Z) (w : swapslot) (q : nat) (pq : proc)
    (f : Z -> Z) (v : Z) (l : list Z) : Prop := {
  bi_ready : pt_ready s' P l;
  bi_owns : forall p, owns (k_mem s') P p <-> owns (k_mem s) P p;
  bi_pte : forall va', pte_of (k_mem s') P va' =
    if decide (same_vpage va va') then restored_entry v (page_perm w) else pte_of (k_mem s) P va';
  bi_page : forall o, 0 <= o < PGSIZE -> ldb (k_mem s') (v + o) = f o;
  bi_same : forall p, p mod PGSIZE = 0 -> ~ owns (k_mem s) P p -> p <> v -> same_page (k_mem s) (k_mem s') p;
  bi_slot : k_swap s' = zinsert idx (set_sw_cnt 0 (set_is_free 1 w)) (k_swap s);
  bi_owner : mapped_by s' (V2P v / PGSIZE) [a];
  bi_rmap : rmap_frame (V2P v / PGSIZE) s s';
  bi_proc : exists ps pq', procs_woken (k_proc s) ps /\ ps !! q = Some pq' /\ woken pq pq' /\
    k_proc s' = <[q := add_rss PGSIZE pq']> ps;
  bi_cache : cache_ok s';
}.

Section swap_in.
Context {I : KernelImage} {Iok : KernelImageOk I}.

(** The four stores that build the entry. *)
Lemma wp_store_entry {A} a v perm (m : K A) Q s : page_ok v ->
  wp m Q (set_k_mem (st (k_mem s) a (restored_entry v perm)) s) ->
  wp (store a (Z.lor (PTE_ADDR (V2P v)) (PTE_FLAGS perm));;
      v ← load a; store a (Z.lor v PTE_A);;
      v ← load a; store a (Z.land v (Z.lnot PTE_W));;
      v ← load a; store a (Z.land v (Z.lnot PTE_S));; m) Q s.
Proof.
  intros Hv HQ. destruct (restored_steps v perm) as (H1 & H2 & H3 & _).
  wp_step. apply wp_store. wp_step. apply wp_load. cbn [k_mem set_k_mem]. rewrite ld_st_eq, u32_small by done.
  wp_step. apply wp_store. wp_step. apply wp_load. cbn [k_mem set_k_mem]. rewrite st_st, ld_st_eq, u32_small by done.
  wp_step. apply wp_store. wp_step. apply wp_load. cbn [k_mem set_k_mem]. rewrite st_st, ld_st_eq, u32_small by done.
  wp_step. apply wp_store. cbn [k_mem set_k_mem]. rewrite st_st. exact HQ.
Qed.

(** The sharer recorded in the slot is given the page. *)
Lemma wp_restore_sharer a idx v w (q : nat) pq e Q s :
  a <> 0 -> zlookup (k_swap s) idx = Some w -> zlookup (sw_pte_id w) 0 = Some a ->
  zlookup (sw_proc_id w) 0 = Some (Some q) -> k_proc s !! q = Some pq -> p_state pq <> UNUSED ->
  mapped_by s (V2P v / PGSIZE) [] -> ld (k_mem s) a = e -> 0 <= e < two32 ->
  (forall r, let s' := set_k_mem (st (k_mem s) a e) (set_k_proc (<[q := add_rss PGSIZE pq]> (k_proc s)) (set_k_rmap r s)) in
     mapped_by s' (V2P v / PGSIZE) [a] -> rmap_frame (V2P v / PGSIZE) s s' -> Q tt s') ->
  wp (restore_sharer a idx v 0) Q s.
Proof.
  intros Ha Hw Hp Hq Hpq Hus Hm He Her HQ. unfold restore_sharer.
  wp_step. apply wp_when; [intros _; apply wp_cprintf|intros _].
  all: wp_step; apply (wp_get_swap _ w); [done|]; wp_step; eapply wp_the; [exact Hq|];
    wp_step; eapply wp_the; [done|]; wp_step; apply (wp_get_proc _ pq); [done|];
    rewrite bool_decide_false by done; wp_step; eapply wp_the; [exact Hp|];
    wp_step; apply (wp_inc_sharing _ _ []); [done|done|done|];
    intros s1 (r & -> & _ & Hr) Hm1;
    wp_step; apply (wp_upd_proc _ _ pq); [done|];
    wp_step; apply wp_load; cbn [k_mem set_k_proc set_k_rmap]; rewrite He; apply wp_store; by apply (HQ r).
Qed.

Section fault.
Context (s : kstate) (P va a idx : Z) (w : swapslot) (q : nat) (pq : proc) (f : Z -> Z) (v : Z) (l : list Z).
Context (H : swapped s P va a idx w q pq f v l).

Lemma swapped_page_ok : page_ok v /\ ~ owns (k_mem s) P v /\ a <> 0 /\ ld (k_mem s) a = swapped_pte idx.
Proof.
  pose proof (sd_ready _ _ _ _ _ _ _ _ _ _ _ H) as Hr. split; [apply (Forall_inv (free_pages _ _ (pr_free _ _ _ Hr)))|].
  split; [apply (pr_fresh _ _ _ Hr); by left|]. pose proof (sd_addr _ _ _ _ _ _ _ _ _ _ _ H) as Ha.
  split; [apply (pt_addr_nonzero (k_mem s) P va); [apply Hr|exact Ha]|].
  rewrite <-(sd_pte _ _ _ _ _ _ _ _ _ _ _ H). unfold pte_of. by rewrite Ha.
Qed.

(** The state after the page is read, the entry written and its sharer
    restored. *)
Lemma brought_in_intro s2 ps pq' r :
  bio_step (kalloc_state s) s2 -> cache_ok s2 -> k_proc s2 = ps -> procs_woken (k_proc s) ps ->
  ps !! q = Some pq' -> woken pq pq' ->
  (forall b, ldb (k_mem s2) b = if decide (v <= b < v + 4096) then f (b - v) else ldb (k_mem s) b) ->
  let e := restored_entry v (page_perm w) in
  let s3 := set_k_swap (zinsert idx (set_sw_cnt 0 (set_is_free 1 w)) (k_swap s))
    (set_k_proc (<[q := add_rss PGSIZE pq']> ps) (set_k_rmap r (set_k_mem (st (k_mem s2) a e) s2))) in
  mapped_by s3 (V2P v / PGSIZE) [a] -> rmap_frame (V2P v / PGSIZE) s s3 ->
  brought_in s (set_k_cr3 (V2P P) s3) P va a idx w q pq f v l.
Proof.
  intros Hb Hcache Eps Hwk Hq Hpq Hmem e s3 Hown Hrm. destruct swapped_page_ok as (Hv & Hnv & _ & _).
  pose proof (sd_addr _ _ _ _ _ _ _ _ _ _ _ H) as Ha.
  assert (forall p, p mod PGSIZE = 0 -> p <> v -> same_page (k_mem s) (k_mem s2) p) as Hsame.
  { intros p Hp Hne b Hb'. rewrite Hmem, decide_False; [done|]. destruct Hv. klia. }
  destruct (pt_take_page s P v l (k_mem s2) (sd_ready _ _ _ _ _ _ _ _ _ _ _ H) Hsame) as [Hr1 Hut].
  assert (pt_addr (k_mem s2) P va = Some a) as Ha2 by (by rewrite (ut_addr _ _ _ Hut)).
  pose proof (pt_step_store _ _ _ va a e Hr1 Ha2) as St.
  assert (0 <= e < two32) as He by apply restored_steps.
  assert (forall p, owns (st (k_mem s2) a e) P p <-> owns (k_mem s) P p) as Ho.
  { intros p. pose proof (ps_owns _ _ _ _ _ _ St p) as Ho. cbn [k_mem set_k_mem] in Ho.
    rewrite Ho, elem_of_nil, (ut_owns _ _ _ Hut). tauto. }
  split; cbn [k_mem set_k_cr3]; change (k_mem s3) with (st (k_mem s2) a e).
  - destruct (ps_ready _ _ _ _ _ _ St) as [[] ? ? ?]. destruct Hb as (bufs & lru & disk & ps0 & m & E & _).
    unfold s3. rewrite E in *. by split; [split|..].
  - exact Ho.
  - intros va'. rewrite (store_pte_of _ _ va) by (apply Hr1 || done). rewrite u32_small by done.
    by rewrite (ut_pte _ _ _ Hut).
  - intros o Ho'. transitivity (ldb (k_mem s2) (v + o)).
    + apply (ps_frame _ _ _ _ _ _ St v); [by destruct Hv| |by apply not_elem_of_nil|lia].
      cbn [k_mem set_k_mem]. by rewrite (ut_owns _ _ _ Hut).
    + rewrite Hmem, decide_True by klia. f_equal. lia.
  - intros p Hp Hno Hne. apply (same_page_trans _ (k_mem s2)); [by apply Hsame|].
    apply (ps_frame _ _ _ _ _ _ St); [done| |by apply not_elem_of_nil].
    cbn [k_mem set_k_mem]. by rewrite (ut_owns _ _ _ Hut).
  - done.
  - exact Hown.
  - exact Hrm.
  - exists ps, pq'. by split_and!.
  - destruct Hcache. by split.
Qed.

Lemma wp_swap_in Q :
  (forall s', brought_in s (set_k_cr3 (V2P P) s') P va a idx w q pq f v l -> Q tt s') ->
  wp (swap_in a) Q s.
Proof.
  intros HQ. destruct swapped_page_ok as (Hv & Hnv & Ha0 & Hld).
  pose proof (sd_idx _ _ _ _ _ _ _ _ _ _ _ H) as Hidx. assert (NSLOTS = 250) as En by done.
  pose proof (sd_disk _ _ _ _ _ _ _ _ _ _ _ H) as Hd. pose proof (sd_ready _ _ _ _ _ _ _ _ _ _ _ H) as Hr.
  pose proof (sd_slot _ _ _ _ _ _ _ _ _ _ _ H) as Hw. pose proof (zlookup_lt _ _ _ Hw) as Hwl.
  destruct (swapped_pte_bits idx Hidx) as (_ & _ & _ & Hsh).
  unfold swap_in. wp_step. apply wp_load. rewrite Hld, Hsh. wp_step.
  apply (wp_kalloc_free v l); [apply Hr|by apply page_ok_nonzero|apply Hr|].
  destruct (sd_fault _ _ _ _ _ _ _ _ _ _ _ H) as (_ & _ & c & pc & Hc & Hpc & _).
  wp_step. rewrite u32_small by (unfold two32; lia). replace (8 * idx + 2) with (2 + 8 * idx) by lia.
  eapply wp_mono.
  { apply (wp_read_page_from_disk _ v f (p_pid pc));
      [destruct (sd_cache _ _ _ _ _ _ _ _ _ _ _ H); by split|exact (sd_locks _ _ _ _ _ _ _ _ _ _ _ H)|by exists c, pc|lia|
       change (k_disksize (kalloc_state s)) with (k_disksize s); lia..|exact (sd_blocks _ _ _ _ _ _ _ _ _ _ _ H)]. }
  intros _ s2 (Hcache & Hb & Hmem & _). pose proof Hb as (bufs & lru & disk & ps & m & E & Hwk).
  assert (k_swap s2 = k_swap s) as Esw by (by rewrite E).
  assert (k_rmap s2 = k_rmap s) as Erm by (by rewrite E).
  destruct (Forall2_lookup_l _ _ _ _ _ Hwk (sd_proc _ _ _ _ _ _ _ _ _ _ _ H)) as (pq' & Hpq' & Hww).
  assert (k_proc s2 = ps) as Eps by (by rewrite E).
  wp_step. apply (wp_get_swap _ w); [by rewrite Esw|]. wp_step. apply wp_modify.
  apply wp_store_entry; [done|]. cbn [k_mem set_k_swap]. set (e := restored_entry v (page_perm w)).
  wp_step. apply (wp_get_swap _ (set_is_free 1 w)).
  { cbn. rewrite Esw, zlookup_zinsert, decide_True by done. done. }
  change (sw_cnt (set_is_free 1 w)) with (sw_cnt w). rewrite (sd_cnt _ _ _ _ _ _ _ _ _ _ _ H).
  change (seqZ 0 1) with [0]. cbn [for_]. wp_step. wp_step. wp_step.
  apply (wp_restore_sharer a idx v (set_is_free 1 w) q pq' e).
  - done.
  - cbn. by rewrite Esw, zlookup_zinsert, decide_True by done.
  - exact (sd_entry _ _ _ _ _ _ _ _ _ _ _ H).
  - exact (sd_owner _ _ _ _ _ _ _ _ _ _ _ H).
  - cbn. by rewrite Eps.
  - rewrite (woken_unused _ _ Hww). exact (sd_used _ _ _ _ _ _ _ _ _ _ _ H).
  - apply (mapped_by_ext s); [exact Erm|exact (sd_free _ _ _ _ _ _ _ _ _ _ _ H)].
  - cbn [k_mem set_k_mem]. rewrite ld_st_eq. apply u32_small, restored_steps.
  - apply restored_steps.
  - intros r s3 Hown Hrm. wp_steps. eapply (wp_get_swap _ (set_is_free 1 w)).
    { cbn. by rewrite Esw, zlookup_zinsert, decide_True by done. }
    apply wp_modify. apply HQ. unfold s3 in *.
    cbn [k_mem k_swap set_k_mem set_k_swap set_k_proc set_k_rmap k_proc] in *. rewrite st_st, zinsert_zinsert, Esw.
    rewrite Eps in *.
    apply (brought_in_intro s2 ps pq' r); [done..| |].
    + exact Hown.
    + intros pg Hpg. etransitivity; [exact (Hrm pg Hpg)|]. cbn. by rewrite Erm.
Qed.

Lemma wp_fault_swapped Q :
  (forall s', brought_in s s' P va a idx w q pq f v l -> Q tt s') -> wp handle_fage_fault Q s.
Proof.
  intros HQ. destruct swapped_page_ok as (_ & _ & Ha0 & Hld).
  destruct (sd_fault _ _ _ _ _ _ _ _ _ _ _ H) as (Hva & Hcr2 & c & pc & Hc & Hpc & HP).
  destruct (swapped_pte_bits idx (sd_idx _ _ _ _ _ _ _ _ _ _ _ H)) as (_ & _ & HnP & _).
  unfold handle_fage_fault. wp_step. eapply wp_curproc; [done|]. wp_step. eapply wp_get_proc; [done|].
  wp_step. unfold rcr2. apply wp_gets. rewrite HP, Hcr2. wp_step. eapply wp_walkpgdir_Some.
  { rewrite (pt_addr_vpage _ _ _ va) by (by apply same_vpage_down). exact (sd_addr _ _ _ _ _ _ _ _ _ _ _ H). }
  wp_step. apply wp_deref; [done|]. rewrite Hld, HnP. wp_step.
  apply wp_swap_in. intros s' Hbi. apply wp_modify. by apply HQ.
Qed.
End fault.
End swap_in.

(** ** Out and in again *)

Section roundtrip.
Context {I : KernelImage} {Iok : KernelImageOk I}.

Lemma has_flags e f : 0 <= e < two32 -> f = PTE_P \/ f = PTE_U -> has (PTE_FLAGS e) f = has e f.
Proof.
  intros He Hf. assert (forall k, 0 <= k < 3 -> Z.testbit (PTE_FLAGS e) k = Z.testbit e k) as Hb.
  { intros k Hk. unfold PTE_FLAGS. rewrite Z.land_spec, u32_small by done.
    change 4095 with (Z.ones 12). rewrite Z.ones_spec_low by lia. apply andb_true_r. }
  destruct Hf as [-> | ->]; rewrite ?has_P, ?has_U; apply Hb; lia.
Qed.

Lemma elem_of_hits hit ps (p : nat) a : (p, a) ∈ hits hit ps -> p ∈ ps /\ hit p = Some a.
Proof.
  unfold hits. intros (q & Hq & E)%list_elem_of_omap. destruct (hit q) as [b|] eqn:Eh; [|done].
  by injection E as -> ->.
Qed.

Lemma unmapped_hit hit ps l (p : nat) pr a : l !! p = Some pr -> hit p = Some a -> p ∈ ps ->
  unmapped hit ps l !! p = Some (add_rss (- PGSIZE) pr).
Proof.
  intros Hp Hh Ha. unfold unmapped. rewrite list_lookup_imap, Hp. cbn.
  rewrite decide_True; [done|]. by rewrite Hh.
Qed.

(** ** The page in between *)

(** The page of the victim [v] goes to a slot, its frame [fr] is handed out
    and written by its new owner, the page [u] becomes free, and the victim
    runs again and touches the page at [va]. *)
Section between.
Context (s s1 : kstate) (v : nat) (pv : proc) (k : nat) (a : Z) (hit : nat -> option Z) (idx : Z) (w : swapslot).
Context (va u : Z) (data : list Z).
Let e := ld (k_mem s) a.
Let P := p_pgdir pv.
Let fr := P2V (PTE_ADDR e).
Context (H : swap_pre s v pv k a hit [] idx w []) (Hso : swapped_out s s1 v pv k a hit [] idx []).
Context (Hu : page_ok u) (Huo : ~ owns (k_mem s) P u) (Hlen : Z.of_nat (length data) <= PGSIZE).
Context (Hud : u = fr \/ mapped_by s (V2P u / PGSIZE) [] /\ frames (k_mem s) P (fun f => f <> u)).
Context (Hva : 0 <= va < KERNBASE) (Hsv : same_vpage (Z.of_nat k * PGSIZE) va).

(** The state with the frame in use, with [u] free, and at the fault. *)
Let s3 := set_k_mem (put_bytes (k_mem s1) fr data) (kalloc_state s1).
Let s4 := kfree_state u s3.
Let s5 := set_k_cur (Some v) (set_k_cr2 va s4).

Lemma between_frame : page_ok fr /\ V2P fr = PTE_ADDR e.
Proof. split; [exact (wo_frame _ _ _ _ _ _ _ _ _ _ H)|apply V2P_P2V, PTE_ADDR_u32]. Qed.

Lemma between_same p : p mod PGSIZE = 0 -> p <> fr -> same_page (k_mem s1) (k_mem s3) p.
Proof.
  intros Hp Hne b Hb. unfold s3. cbn [k_mem set_k_mem]. rewrite ldb_put_bytes, decide_False; [done|].
  destruct between_frame as [[Hf _] _]. klia.
Qed.
Lemma between_same_free p : p mod PGSIZE = 0 -> p <> fr -> p <> u -> same_page (k_mem s1) (k_mem s4) p.
Proof.
  intros Hp Hne Hnu. eapply same_page_trans; [by apply between_same|]. intros b Hb. apply kfree_state_mem_out; [done|].
  destruct Hu. klia.
Qed.

Lemma between_ready : pt_ready s4 P [u] /\ untouched (k_mem s1) (k_mem s4) P.
Proof.
  destruct (pt_take_page s1 P fr [] (k_mem s3) (so_ready _ _ _ _ _ _ _ _ _ _ Hso) between_same) as [Hr3 Hut3].
  destruct (pt_ready_kfree s3 P u [] Hr3 Hu) as [Hr4 Hut4]; [apply not_elem_of_nil| |].
  - rewrite (ut_owns _ _ _ Hut3). unfold P. rewrite (so_owns _ _ _ _ _ _ _ _ _ _ Hso). exact Huo.
  - split; [exact Hr4|]. destruct Hut3 as [A1 A2 A3 A4], Hut4 as [B1 B2 B3 B4].
    split.
    + intros i Hi. etransitivity; [by apply B1|by apply A1].
    + intros va'. etransitivity; [apply B2|apply A2].
    + intros va'. etransitivity; [apply B3|apply A3].
    + intros p. etransitivity; [apply B4|apply A4].
Qed.

Lemma between_unmapped : mapped_by s5 (V2P u / PGSIZE) [].
Proof.
  apply (mapped_by_ext s1); [done|]. destruct between_frame as [Hok Ef].
  destruct (decide (u = fr)) as [->|Hne]; [rewrite Ef; exact (so_owners _ _ _ _ _ _ _ _ _ _ Hso)|].
  destruct Hud as [?|[Hm _]]; [done|]. unfold mapped_by. rewrite (so_rmap _ _ _ _ _ _ _ _ _ _ Hso); [exact Hm|].
  fold e. rewrite <-Ef. intros E. by apply Hne, frame_num_inj.
Qed.

(** The page is in the state that the fault handler expects. *)
Lemma between_swapped : hits hit all_procs = [(v, a)] -> p_state pv <> UNUSED ->
  exists w' pv', page_perm w' = PTE_FLAGS e /\ woken pv pv' /\
    swapped s5 P va a idx w' v (add_rss (- PGSIZE) pv') (fun o => ldb (k_mem s) (fr + o)) u [].
Proof.
  intros Hh Hus. destruct between_ready as [Hr4 Hut].
  destruct (so_slot _ _ _ _ _ _ _ _ _ _ Hso) as (w' & Esw & Hfree & Hperm & Hcnt & Hpt & Hpr).
  destruct (so_procs _ _ _ _ _ _ _ _ _ _ Hso) as (ps & Hwk & Eps).
  destruct (so_held _ _ _ _ _ _ _ _ _ _ Hso) as (Hheld & Hcur & Hds).
  destruct (wo_slot _ _ _ _ _ _ _ _ _ _ H) as (Hidx & Hw & _).
  destruct (wo_page _ _ _ _ _ _ _ _ _ _ H) as (_ & _ & _ & _ & Ha & _).
  destruct (Forall2_lookup_l _ _ _ _ _ Hwk (wo_victim _ _ _ _ _ _ _ _ _ _ H)) as (pv' & Hpv' & Hww).
  destruct (elem_of_hits hit all_procs v a) as [Hv0 Eh]; [rewrite Hh; by left|]. rewrite Hh in Hcnt.
  assert (k_proc s1 !! v = Some (add_rss (- PGSIZE) pv')) as Hps'.
  { rewrite Eps. by eapply unmapped_hit. }
  exists w', pv'. split; [done|]. split; [done|]. split.
  - destruct Hr4 as [[] ? ? ?]. by split; [split|..].
  - change (k_mem s5) with (k_mem s4). rewrite (ut_addr _ _ _ Hut). unfold P. rewrite (so_addr _ _ _ _ _ _ _ _ _ _ Hso), <-Ha. symmetry. by apply pt_addr_vpage.
  - change (k_mem s5) with (k_mem s4). rewrite (ut_pte _ _ _ Hut). unfold P. by rewrite (so_pte _ _ _ _ _ _ _ _ _ _ Hso), decide_True.
  - done.
  - change (k_swap s5) with (k_swap s1). rewrite Esw. rewrite zlookup_zinsert by (by eapply zlookup_lt). by rewrite decide_True.
  - exact Hcnt.
  - apply Hpt. rewrite Hcnt. cbn. lia.
  - apply (Hpr 0%nat (v, a)). by rewrite Hh.
  - exact Hps'.
  - change (p_state (add_rss (- PGSIZE) pv')) with (p_state pv'). by rewrite (woken_unused _ _ Hww).
  - exact between_unmapped.
  - destruct (so_cache _ _ _ _ _ _ _ _ _ _ Hso). by split.
  - destruct (wo_locks _ _ _ _ _ _ _ _ _ _ H) as (? & ? & ?). unfold bio_unlocked. change (k_held s5) with (k_held s1). by rewrite Hheld.
  - split; [klia|]. split; [done|]. exists v, (add_rss (- PGSIZE) pv'). split; [done|]. split; [exact Hps'|]. by destruct Hww as [->|[_ ->]].
  - change (k_disksize s5) with (k_disksize s1). rewrite Hds. apply H.
  - intros i Hi. change (block_view s5) with (block_view s1).
    rewrite (so_disk _ _ _ _ _ _ _ _ _ _ Hso) by done. split; [by apply length_bytes|].
    intros o Ho. rewrite nth_bytes by done. rewrite Z.mod_small by apply ldb_range. f_equal. unfold fr, e. lia.
Qed.

(** The views before and after. *)
Lemma between_view w' pq s' : page_perm w' = PTE_FLAGS e ->
  brought_in s5 s' P va a idx w' v pq (fun o => ldb (k_mem s) (fr + o)) u [] ->
  frames (k_mem s) P (fun f => ~ owns (k_mem s) P f) ->
  (forall va', 0 <= va' < KERNBASE -> has (pte_of (k_mem s) P va') PTE_P = true ->
     PTE_ADDR (pte_of (k_mem s) P va') = PTE_ADDR e -> same_vpage va va') ->
  forall va', 0 <= va' < KERNBASE -> uread (k_mem s') P va' = uread (k_mem s) P va'.
Proof.
  intros Hperm Hbi Hfr Huniq va' Hva'. destruct between_ready as [_ Hut]. destruct between_frame as [Hok Efr].
  destruct (wo_page _ _ _ _ _ _ _ _ _ _ H) as (_ & _ & _ & _ & Ha & HP & _).
  assert (pte_of (k_mem s) P (Z.of_nat k * PGSIZE) = e) as Ek by (unfold pte_of, P; by rewrite Ha).
  pose proof (ld_range (k_mem s) a) as Her. fold e in Her, HP.
  assert (0 <= PTE_FLAGS e < two32) as Hfl by (pose proof (PTE_FLAGS_range e); klia).
  pose proof (bi_pte _ _ _ _ _ _ _ _ _ _ _ _ Hbi va') as Hp'. rewrite Hperm in Hp'.
  change (k_mem s5) with (k_mem s4) in Hp'. rewrite (ut_pte _ _ _ Hut) in Hp'. unfold P in Hp'. rewrite (so_pte _ _ _ _ _ _ _ _ _ _ Hso) in Hp'. fold P in Hp'.
  destruct (decide (same_vpage va va')) as [Hs|Hs].
  + assert (pte_of (k_mem s) P va' = e) as E'.
    { rewrite <-Ek. symmetry. apply pte_of_vpage. destruct Hsv, Hs. split; congruence. }
    unfold uread. rewrite Hp', E', restored_addr by done.
    destruct (restored_flags u (PTE_FLAGS e) Hu Hfl) as (-> & -> & _). rewrite !has_flags by auto.
    rewrite P2V_V2P by (apply page_ok_range in Hu; klia). destruct (has e PTE_P && has e PTE_U); [|done]. f_equal.
    rewrite (bi_page _ _ _ _ _ _ _ _ _ _ _ _ Hbi) by klia. done.
  + rewrite decide_False in Hp' by (intros [? ?]; apply Hs; destruct Hsv; split; congruence).
    unfold uread. rewrite Hp'. destruct (has (pte_of (k_mem s) P va') PTE_P) eqn:EP; [|done].
    destruct (has _ PTE_U); [|done]. cbn [andb]. f_equal. set (q := P2V (PTE_ADDR (pte_of (k_mem s) P va'))).
    assert (q <> fr) as Hne.
    { intros E. apply Hs, Huniq; [done|done|]. by apply P2V_inj in E; [|apply PTE_ADDR_u32..]. }
    assert (q <> u) as Hnu by (destruct Hud as [->|[_ Hx]]; [done|by apply Hx]).
    assert (~ owns (k_mem s) P q) as Hno by (by apply Hfr).
    assert (q mod PGSIZE = 0) as Hq by apply frame_aligned.
    transitivity (ldb (k_mem s4) (q + va' mod PGSIZE)).
    * apply (bi_same _ _ _ _ _ _ _ _ _ _ _ _ Hbi q); [done| |done|klia]. change (k_mem s5) with (k_mem s4).
      rewrite (ut_owns _ _ _ Hut). unfold P. rewrite (so_owns _ _ _ _ _ _ _ _ _ _ Hso). exact Hno.
    * transitivity (ldb (k_mem s1) (q + va' mod PGSIZE)); [apply (between_same_free q); [done..|klia]|].
      apply (so_same _ _ _ _ _ _ _ _ _ _ Hso q); [done|done|done|klia].
Qed.

(** The new owner of the frame keeps what it wrote. *)
Lemma between_data w' pq s' : brought_in s5 s' P va a idx w' v pq (fun o => ldb (k_mem s) (fr + o)) u [] ->
  Forall (fun b => 0 <= b < 256) data -> u <> fr -> bytes (k_mem s') fr (Z.of_nat (length data)) = data.
Proof.
  intros Hbi Hby Hne. destruct between_ready as [_ Hut]. destruct between_frame as [[Hal Hra] _].
  apply list_eq_same_length with (length data); [done|rewrite length_bytes; lia|]. intros i x y Hi Hx Hy.
  unfold bytes in Hx. apply list_lookup_fmap_Some in Hx as (j & -> & Hj). apply lookup_seqZ in Hj as [-> _]. rewrite Z.add_0_l.
  assert (fr <= fr + Z.of_nat i < fr + PGSIZE) as Hr by lia.
  rewrite (bi_same _ _ _ _ _ _ _ _ _ _ _ _ Hbi fr) by (done || (change (k_mem s5) with (k_mem s4); rewrite (ut_owns _ _ _ Hut); unfold P; rewrite (so_owns _ _ _ _ _ _ _ _ _ _ Hso); exact (wo_apart _ _ _ _ _ _ _ _ _ _ H))).
  change (k_mem s5) with (k_mem s4). unfold s4. rewrite kfree_state_mem_out by (done || (destruct Hu; klia)).
  unfold s3. cbn [k_mem set_k_mem]. rewrite ldb_put_bytes, decide_True by lia. replace (Z.to_nat (fr + Z.of_nat i - fr)) with i by lia.
  rewrite (nth_lookup_Some _ _ _ _ Hy). apply Z.mod_small. by apply (proj1 (Forall_lookup _ _) Hby i).
Qed.
End between.

(** C4: a page survives being swapped out and in.  With an empty free list
    [kalloc] takes the page of a victim that nobody shares, and returns its
    frame, which the new owner fills with [data]; then some page [u] (the
    same frame, or another that nothing maps) is freed, the victim runs and
    faults at an address of its page.  Afterwards the victim reads what it
    read before at every address, its resident set has its old size, the slot
    is free again, the page is in the frame [u] and owned by the same entry,
    the free list is empty, and the frame that was handed out still holds the
    data unless it is the one that was freed. *)
Theorem swap_roundtrip s v pv k a hit idx w va u data :
  let e := ld (k_mem s) a in
  let P := p_pgdir pv in
  let fr := P2V (PTE_ADDR e) in
  swap_pre s v pv k a hit [] idx w [] -> hits hit all_procs = [(v, a)] ->
  p_state pv <> UNUSED -> 0 <= p_rss pv < two32 ->
  0 <= va < KERNBASE -> same_vpage (Z.of_nat k * PGSIZE) va ->
  frames (k_mem s) P (fun f => ~ owns (k_mem s) P f) ->
  (forall va', 0 <= va' < KERNBASE -> has (pte_of (k_mem s) P va') PTE_P = true ->
     PTE_ADDR (pte_of (k_mem s) P va') = PTE_ADDR e -> same_vpage va va') ->
  Forall (fun b => 0 <= b < 256) data -> Z.of_nat (length data) <= PGSIZE ->
  page_ok u -> ~ owns (k_mem s) P u ->
  (u = fr \/ mapped_by s (V2P u / PGSIZE) [] /\ frames (k_mem s) P (fun f => f <> u)) ->
  wp (r ← kalloc; modify_mem (fun m => put_bytes m r data);; kfree u;;
      modify (fun s => set_k_cur (Some v) (set_k_cr2 va s));; handle_fage_fault;; mret r) (fun r s' => r = fr /\
    (forall va', 0 <= va' < KERNBASE -> uread (k_mem s') P va' = uread (k_mem s) P va') /\
    (u <> r -> bytes (k_mem s') r (Z.of_nat (length data)) = data) /\
    (exists pv', k_proc s' !! v = Some pv' /\ p_rss pv' = p_rss pv) /\
    (exists w', zlookup (k_swap s') idx = Some w' /\ is_free w' = 1 /\ sw_cnt w' = 0) /\
    mapped_by s' (V2P u / PGSIZE) [a] /\ free_ok s' [] /\ cache_ok s') s.
Proof.
  intros e P fr H Hh Hus Hrss Hva Hsv Hfr Huniq Hby Hlen Hu Huo Hud. wp_step.
  pose proof (wo_ready _ _ _ _ _ _ _ _ _ _ H) as Hr.
  apply wp_kalloc_empty; [apply (free_chain _ _ (pr_free _ _ _ Hr))|apply Hr|].
  pose proof (swap_pre_global_var (u32 (k_global_var s + 1)) _ _ _ _ _ _ _ _ _ _ H) as H0.
  set (s0 := set_k_global_var _ s) in *. change (k_mem s) with (k_mem s0) in *.
  eapply wp_swap_out; [exact H0|]. intros s1 Hso. pose proof (so_ready _ _ _ _ _ _ _ _ _ _ Hso) as Hr1.
  assert (k_freelist s1 = fr) as Ef by apply (free_chain _ _ (pr_free _ _ _ Hr1)).
  assert (page_ok fr) as Hok by apply (wo_frame _ _ _ _ _ _ _ _ _ _ H).
  unfold wp at 1. rewrite kalloc_rec_run; [|rewrite Ef; by apply page_ok_nonzero|apply Hr1]. rewrite Ef.
  wp_step. apply wp_modify_mem. change (k_mem (kalloc_state s1)) with (k_mem s1).
  wp_step. apply wp_kfree; [done|exact (pr_unlocked _ _ _ Hr1)|]. wp_step. apply wp_modify. wp_step.
  assert (u = fr \/ mapped_by s0 (V2P u / PGSIZE) [] /\ frames (k_mem s0) P (fun f => f <> u)) as Hud0 by exact Hud.
  destruct (between_swapped s0 s1 v pv k a hit idx w va u data H0 Hso Hu Huo Hlen Hud0 Hva Hsv Hh Hus) as (w' & pv' & Hperm & Hww & Hsw).
  eapply wp_fault_swapped; [exact Hsw|]. intros s' Hbi. wp_step.
  split; [done|]. split; [apply (between_view s0 s1 v pv k a hit idx w va u data) with w' (add_rss (- PGSIZE) pv'); assumption|].
  split; [apply (between_data s0 s1 v pv k a hit idx w va u data) with w' (add_rss (- PGSIZE) pv'); assumption|]. split; [|split; [|split; [|split]]].
  - destruct (bi_proc _ _ _ _ _ _ _ _ _ _ _ _ Hbi) as (ps & pq & _ & Hpq & Hw2 & Eps).
    exists (add_rss PGSIZE pq). rewrite Eps. split; [apply list_lookup_insert_eq; by eapply lookup_lt_Some|].
    assert (p_rss pq = p_rss (add_rss (- PGSIZE) pv')) as E1 by (by destruct Hw2 as [->|[_ ->]]).
    assert (p_rss pv' = p_rss pv) as E2 by (by destruct Hww as [->|[_ ->]]).
    cbn in E1 |- *. rewrite E1, E2. unfold u32. rewrite Zplus_mod_idemp_l.
    replace (p_rss pv + - PGSIZE + PGSIZE) with (p_rss pv) by lia. apply Z.mod_small. exact Hrss.
  - exists (set_sw_cnt 0 (set_is_free 1 w')). rewrite (bi_slot _ _ _ _ _ _ _ _ _ _ _ _ Hbi).
    rewrite zlookup_zinsert by (eapply zlookup_lt; exact (sd_slot _ _ _ _ _ _ _ _ _ _ _ Hsw)).
    by rewrite decide_True.
  - exact (bi_owner _ _ _ _ _ _ _ _ _ _ _ _ Hbi).
  - apply (bi_ready _ _ _ _ _ _ _ _ _ _ _ _ Hbi).
  - exact (bi_cache _ _ _ _ _ _ _ _ _ _ _ _ Hbi).
Qed.
End roundtrip.

(** ** Instances *)

#[local] Existing Instance img.

Lemma swap_roundtrip_witness :
  wp (r ← kalloc; modify_mem (fun m => put_bytes m r [1; 2]);; kfree frame0;;
      modify (fun s => set_k_cur (Some 0%nat) (set_k_cr2 5 s));; handle_fage_fault;; mret r)
    (fun r s' => r = frame0 /\ uread (k_mem s') pgdir0 5 = uread mem0 pgdir0 5 /\ free_ok s' []) state_full.
Proof.
  pose proof (swap_roundtrip state_full 0 proc0 0 table0 hit0 0 slot0 5 frame0 [1; 2]) as H.
  cbv zeta in H. change (k_mem state_full) with mem0 in H. change (p_pgdir proc0) with pgdir0 in H.
  rewrite (proj2 sample_entry_addr) in H. eapply wp_mono.
  - apply H; clear H.
    + exact sample_swap_pre.
    + vm_compute. reflexivity.
    + discriminate.
    + split; [discriminate|reflexivity].
    + split; [discriminate|reflexivity].
    + split; reflexivity.
    + apply sample_frames, sample_frame0.
    + intros va Hva. rewrite sample_pte by klia. case_decide as Hd; [|discriminate]. intros _ _.
      destruct (proj2 (same_vpage_aligned 0 va eq_refl ltac:(klia) ltac:(klia)) ltac:(klia)) as [Hd1 Hd2].
      split; [rewrite <-Hd1; reflexivity|rewrite <-Hd2; reflexivity].
    + repeat constructor; discriminate.
    + discriminate.
    + apply sample_frame0.
    + apply sample_frame0.
    + left. reflexivity.
  - intros r s' (Hr & Hv & _ & _ & _ & _ & Hf & _). split; [exact Hr|]. split; [apply Hv; split; [discriminate|reflexivity]|exact Hf].
Defined.
