(* ===== verification/Sched.v ===== *)
(** * Switching between processes

    [sched], [yield], [sleep] and [scheduler] of [proc.c].  A context switch
    leaves the middle of one of these functions and comes back to it later,
    so [sched] is modelled by the code before [swtch] ([sched_enter]), and a
    function that calls it is split in two: what it does until the switch
    ([_enter]) and what it does when the scheduler has switched back
    ([_resume]).  [scheduler_pass] is one round of the scheduler's endless
    loop; what happens from the switch to a process until it switches back
    is its argument [run], and [swtch] records each switch with the state of
    the machine before and after it. *)

From Stdlib Require Import ZArith Lia.
From stdpp Require Import base strings numbers gmap list sorting.
From S2P Require Import Prelude Mmu Memory Kernel Sample Sleeplock Rmap Swap Kmem Kalloc Vm.

(** ** Operations *)

(** [sched] up to [swtch].  Every [pushcli] outstanding here is that of a
    lock held, so [ncli] is the number of locks.  Interrupts are not part of
    the state: with [ptable.lock] held they are off (Spinlock.v), so the check
    of [FL_IF] passes, and saving [intena] across the switch has no effect
    here. *)
Definition sched_enter : K unit :=
  p ← curproc;
  b ← holding L_ptable;
  if negb b then panic "sched ptable.lock"
  else
    h ← gets k_held;
    if negb (length h =? 1)%nat then panic "sched locks"
    else
      pr ← get_proc p;
      if bool_decide (p_state pr = RUNNING) then panic "sched running" else mret tt.

Definition yield_enter : K unit :=
  acquire L_ptable;;
  p ← curproc;
  upd_proc p (set_p_state RUNNABLE);;
  sched_enter.
Definition yield_resume : K unit := release L_ptable.

Definition sleep_enter (ch : chan) (lk : lock) : K unit :=
  o ← myproc;
  match o with
  | None => panic "sleep"
  | Some p =>
      when (negb (bool_decide (lk = L_ptable))) (acquire L_ptable;; release lk);;
      upd_proc p (set_p_chan ch);;
      upd_proc p (set_p_state SLEEPING);;
      sched_enter
  end.
Definition sleep_resume (lk : lock) : K unit :=
  p ← curproc;
  upd_proc p (set_p_chan NoChan);;
  when (negb (bool_decide (lk = L_ptable))) (release L_ptable;; acquire lk).

(** A switch to a process: the state when the scheduler switches to it, and
    the state when it has switched back. *)
Record cswitch := mk_cswitch { cs_proc : nat; cs_at : kstate; cs_back : kstate }.

(** The scheduler's code, on the machine and the switches made so far. *)
Definition SC (A : Type) : Type := M (kstate * list cswitch) A.
Definition on_cpu {A} (m : K A) : SC A := fun '(s, tr) =>
  match m s with Ok (a, s') => Ok (a, (s', tr)) | Err e => Err e end.
(** [swtch(&(c->scheduler), p->context)]: [run] until the process comes back. *)
Definition swtch (run : nat -> K unit) (i : nat) : SC unit := fun '(s, tr) =>
  match run i s with Ok (_, s') => Ok (tt, (s', tr ++ [mk_cswitch i s s'])) | Err e => Err e end.

(** One process of the table. *)
Definition scheduler_step (run : nat -> K unit) (i : nat) (_ : unit) : SC (ctl unit unit) :=
  pr ← on_cpu (get_proc i);
  if negb (bool_decide (p_state pr = RUNNABLE)) then mret (Next tt)
  else
    on_cpu (modify (set_k_cur (Some i)));;
    on_cpu (switchuvm (Some i));;
    on_cpu (upd_proc i (set_p_state RUNNING));;
    swtch run i;;
    on_cpu switchkvm;;
    on_cpu (modify (set_k_cur None));;
    mret (Next tt).

Definition scheduler_pass (run : nat -> K unit) : SC unit :=
  on_cpu (acquire L_ptable);;
  _ ← for_ (seq 0 (Z.to_nat NPROC)) (scheduler_step run) tt;
  on_cpu (release L_ptable).

(** ** Lemmas *)

Lemma wp_holding l Q s : Q (bool_decide (l ∈ k_held s)) s -> wp (holding l) Q s.
Proof. intros. unfold holding. by wp_steps. Qed.

Lemma wp_sched_enter c p Q s : k_cur s = Some c -> k_proc s !! c = Some p ->
  k_held s = [L_ptable] -> p_state p <> RUNNING -> Q tt s -> wp sched_enter Q s.
Proof.
  intros Hc Hp Hh Hr HQ. unfold sched_enter. wp_steps. eapply wp_curproc; [done|].
  wp_steps. apply wp_holding. rewrite Hh, bool_decide_true by set_solver. cbn.
  wp_steps. rewrite Hh. cbn. wp_steps. eapply wp_get_proc; [done|].
  by rewrite bool_decide_false.
Qed.

(** The state of a process that has gone to sleep on [ch]. *)
Definition asleep (ch : chan) (p : proc) : proc := set_p_state SLEEPING (set_p_chan ch p).

Lemma wp_sleep_enter ch lk c p Q s : k_cur s = Some c -> k_proc s !! c = Some p ->
  k_held s = [lk] -> lk <> L_ptable ->
  Q tt (set_k_held [L_ptable] (set_k_proc (<[c := asleep ch p]> (k_proc s)) s)) ->
  wp (sleep_enter ch lk) Q s.
Proof.
  intros Hc Hp Hh Hl HQ. unfold sleep_enter. wp_steps. unfold myproc. apply wp_gets. rewrite Hc.
  rewrite bool_decide_false by done. cbn [negb when]. wp_steps.
  apply wp_acquire; [rewrite Hh; set_solver|]. wp_steps. unfold release. wp_steps. ksimpl.
  rewrite Hh. cbn. rewrite decide_False, decide_True by done. cbn. wp_steps.
  eapply wp_upd_proc; [exact Hp|]. wp_steps.
  eapply wp_upd_proc; [ksimpl; apply list_lookup_insert_eq, lookup_lt_is_Some; eauto|].
  ksimpl. rewrite list_insert_insert_eq.
  eapply (wp_sched_enter c (asleep ch p)); ksimpl; try done.
  apply list_lookup_insert_eq, lookup_lt_is_Some; eauto.
Qed.

Lemma wp_sleep_resume lk c p Q s : k_cur s = Some c -> k_proc s !! c = Some p ->
  k_held s = [L_ptable] -> lk <> L_ptable ->
  Q tt (set_k_held [lk] (set_k_proc (<[c := set_p_chan NoChan p]> (k_proc s)) s)) ->
  wp (sleep_resume lk) Q s.
Proof.
  intros Hc Hp Hh Hl HQ. unfold sleep_resume. wp_steps. eapply wp_curproc; [done|]. wp_steps.
  eapply wp_upd_proc; [exact Hp|]. rewrite bool_decide_false by done. cbn [negb when]. wp_steps.
  eapply wp_release; [exact Hh|]. apply wp_acquire; ksimpl; [set_solver|done].
Qed.

(** ** The scheduler *)

(** A process that the scheduler may run has a stack and a page table. *)
Definition runnable (p : proc) : Prop :=
  p_state p = RUNNABLE /\ p_kstack p <> 0 /\ p_pgdir p <> 0.
Definition procs_ok (s : kstate) : Prop :=
  length (k_proc s) = Z.to_nat NPROC /\
  forall i p, k_proc s !! i = Some p -> p_state p = RUNNABLE -> p_kstack p <> 0 /\ p_pgdir p <> 0.

(** What the scheduler expects of the code it switches to: it comes back
    holding only [ptable.lock], its own state changed, and every process that
    is ready then has a stack and a page table.  While it runs other CPUs run
    too, so the states of the other processes may be anything. *)
Definition run_returns (run : nat -> K unit) : Prop :=
  forall i s, k_held s = [L_ptable] -> k_cur s = Some i -> procs_ok s ->
    (exists p, k_proc s !! i = Some p /\ p_state p = RUNNING /\ p_kstack p <> 0 /\ p_pgdir p <> 0) ->
    wp (run i) (fun _ s' => k_held s' = [L_ptable] /\ procs_ok s' /\
      (exists p', k_proc s' !! i = Some p' /\ p_state p' <> RUNNING)) s.

Definition ready (s : kstate) (i : nat) : Prop :=
  exists p, k_proc s !! i = Some p /\ p_state p = RUNNABLE.
#[global] Instance ready_dec s i : Decision (ready s i).
Proof.
  destruct (k_proc s !! i) as [p|] eqn:E; [|right; intros (? & ? & _); congruence].
  destruct (decide (p_state p = RUNNABLE)); [left; by exists p|right; intros (? & ? & ?); congruence].
Defined.

(** The process is running when the scheduler switches to it: it is the
    current process of this CPU, its page table is loaded, the kernel enters
    from user mode on its stack, and [ptable.lock] is held. *)
Definition switched_to (e : cswitch) : Prop :=
  exists p, k_proc (cs_at e) !! cs_proc e = Some p /\ p_state p = RUNNING /\
    k_cur (cs_at e) = Some (cs_proc e) /\ k_cr3 (cs_at e) = V2P (p_pgdir p) /\
    k_esp0 (cs_at e) = u32 (p_kstack p + KSTACKSIZE) /\ k_held (cs_at e) = [L_ptable].

(** Process [j] was ready before the switch [e] and is not any more when it
    ends: another CPU has taken it, or it was changed otherwise. *)
Definition taken (e : cswitch) (j : nat) : Prop :=
  (cs_proc e < j)%nat /\ ready (cs_at e) j /\ ~ ready (cs_back e) j.
(** The switch was made by the code that [run] is. *)
Definition ran (run : nat -> K unit) (e : cswitch) : Prop := run (cs_proc e) (cs_at e) = Ok (tt, cs_back e).

Lemma wp_on_cpu {A} (m : K A) (Q : A -> kstate * list cswitch -> Prop) s tr :
  wp m (fun a s' => Q a (s', tr)) s -> wp (on_cpu m) Q (s, tr).
Proof. unfold wp, on_cpu. by destruct (m s) as [[a s']|e]. Qed.

Section scheduler.
Variable run : nat -> K unit.
Hypothesis Hrun : run_returns run.

Lemma procs_ok_proc s i p : procs_ok s -> (i < Z.to_nat NPROC)%nat -> p_state p <> RUNNABLE ->
  procs_ok (set_k_proc (<[i := p]> (k_proc s)) s).
Proof.
  intros [Hl Hp] Hi Hr. split; ksimpl; [by rewrite length_insert|].
  intros j q Hj Hq. apply list_lookup_insert_Some in Hj as [(<- & <- & _)|[_ Hj]]; [done|eauto].
Qed.

Lemma wp_swtch i tr (Q : unit -> kstate * list cswitch -> Prop) s : k_held s = [L_ptable] -> k_cur s = Some i -> procs_ok s ->
  (exists p, k_proc s !! i = Some p /\ p_state p = RUNNING /\ p_kstack p <> 0 /\ p_pgdir p <> 0) ->
  (forall s', k_held s' = [L_ptable] -> procs_ok s' -> run i s = Ok (tt, s') -> Q tt (s', tr ++ [mk_cswitch i s s'])) ->
  wp (swtch run i) Q (s, tr).
Proof.
  intros Hh Hc Hs Hp HQ. pose proof (Hrun i s Hh Hc Hs Hp) as H. unfold wp in *. unfold swtch.
  destruct (run i s) as [[[] s']|e] eqn:E; [|done]. destruct H as (Hh' & Hs' & _). by apply HQ.
Qed.

(** One process: if it was ready the scheduler switches to it; the others
    keep their states until then. *)
Lemma wp_scheduler_step i tr (Q : ctl unit unit -> kstate * list cswitch -> Prop) s :
  k_held s = [L_ptable] -> procs_ok s -> (i < Z.to_nat NPROC)%nat ->
  (~ ready s i -> Q (Next tt) (s, tr)) ->
  (forall e s', ready s i -> cs_proc e = i -> switched_to e -> ran run e ->
     (forall j, j <> i -> ready (cs_at e) j <-> ready s j) -> (forall j, ready s' j <-> ready (cs_back e) j) ->
     k_held s' = [L_ptable] -> procs_ok s' -> k_cur s' = None -> k_cr3 s' = V2P (k_kpgdir s') ->
     Q (Next tt) (s', tr ++ [e])) ->
  wp (scheduler_step run i tt) Q (s, tr).
Proof.
  intros Hh Hs Hi HN HQ. assert (is_Some (k_proc s !! i)) as [p Hp].
  { apply lookup_lt_is_Some. by rewrite (proj1 Hs). }
  unfold scheduler_step. wp_step. apply wp_on_cpu. eapply wp_get_proc; [exact Hp|].
  case_bool_decide as Hr; cbn [negb].
  2: { apply wp_ret, HN. intros (q & Hq & Hqr). congruence. }
  destruct (proj2 Hs _ _ Hp Hr) as [Hk Hd].
  wp_step. apply wp_on_cpu, wp_modify. wp_step. apply wp_on_cpu. unfold switchuvm. wp_step. eapply wp_get_proc; [exact Hp|].
  rewrite (proj2 (Z.eqb_neq _ _) Hk), (proj2 (Z.eqb_neq _ _) Hd). wp_step. apply wp_modify. unfold lcr3. apply wp_modify.
  wp_step. apply wp_on_cpu. eapply wp_upd_proc; [ksimpl; exact Hp|]. wp_step. ksimpl.
  assert (<[i := set_p_state RUNNING p]> (k_proc s) !! i = Some (set_p_state RUNNING p)) as Hi'
    by (apply list_lookup_insert_eq, lookup_lt_is_Some; eauto).
  apply wp_swtch; [done|done|by apply (procs_ok_proc s i (set_p_state RUNNING p))|by exists (set_p_state RUNNING p)|].
  intros s' Hh' Hs' Hran. wp_step. apply wp_on_cpu. unfold switchkvm. wp_step. apply wp_gets. unfold lcr3. apply wp_modify.
  wp_step. apply wp_on_cpu, wp_modify, wp_ret. apply HQ; try done.
  - by exists p.
  - by exists (set_p_state RUNNING p).
  - intros j Hj. unfold ready. cbn [cs_at]. ksimpl. by rewrite list_lookup_insert_ne.
Qed.

(** What holds of the switches [tr] of a round that began in [s0], when the
    scheduler has come to process [i] in the state [s]. *)
Record round_ok (s0 : kstate) (i : nat) (s : kstate) (tr : list cswitch) : Prop := {
  ro_held : k_held s = [L_ptable];
  ro_procs : procs_ok s;
  ro_cur : k_cur s = None;
  ro_cr3 : tr <> [] -> k_cr3 s = V2P (k_kpgdir s);
  ro_switch : Forall (fun e => switched_to e /\ ran run e) tr;
  ro_sorted : StronglySorted lt (cs_proc <$> tr);
  ro_below : Forall (fun e => cs_proc e < i)%nat tr;
  ro_done : forall j, ready s0 j -> (j < i)%nat -> j ∈ cs_proc <$> tr \/ Exists (fun e => taken e j) tr;
  ro_left : forall j, ready s0 j -> (i <= j)%nat -> ready s j \/ Exists (fun e => taken e j) tr;
}.

(** A process that is not ready is passed over. *)
Lemma round_skip s0 i s tr : round_ok s0 i s tr -> ~ ready s i -> round_ok s0 (S i) s tr.
Proof.
  intros [] Hn. split; try done.
  - eapply Forall_impl; [done|]. cbn. lia.
  - intros j Hj Hlt. destruct (decide (j = i)) as [->|]; [|apply ro_done0; [done|lia]].
    destruct (ro_left0 i Hj) as [|]; [lia|done|by right].
  - intros j Hj Hle. apply ro_left0; [done|lia].
Qed.

Lemma round_switch s0 i s tr e s' : round_ok s0 i s tr -> cs_proc e = i -> switched_to e -> ran run e ->
  (forall j, j <> i -> ready (cs_at e) j <-> ready s j) -> (forall j, ready s' j <-> ready (cs_back e) j) ->
  k_held s' = [L_ptable] -> procs_ok s' -> k_cur s' = None -> k_cr3 s' = V2P (k_kpgdir s') ->
  round_ok s0 (S i) s' (tr ++ [e]).
Proof.
  intros [] Ei Hsw Hran Hat Hback Hh Hs Hc Hcr. split; try done.
  - apply Forall_app. split; [done|]. by repeat constructor.
  - rewrite fmap_app. apply StronglySorted_app_2; [|done|repeat constructor].
    intros x y Hx Hy. apply list_elem_of_singleton in Hy as ->. apply list_elem_of_fmap in Hx as (e' & -> & He').
    rewrite Forall_forall in ro_below0. rewrite Ei. by apply ro_below0.
  - apply Forall_app. split; [eapply Forall_impl; [done|]; cbn; lia|]. apply Forall_singleton. lia.
  - intros j Hj Hlt. rewrite fmap_app, elem_of_app, Exists_app. destruct (decide (j = i)) as [->|].
    + left. right. apply list_elem_of_singleton. done.
    + destruct (ro_done0 j Hj) as [|]; [lia|by left; left|by right; left].
  - intros j Hj Hle. rewrite Exists_app. destruct (ro_left0 j Hj) as [Hr|]; [lia| |by right; left].
    destruct (decide (ready s' j)) as [|Hn]; [by left|]. right. right. apply Exists_cons_hd.
    split; [lia|]. split; [apply Hat; [lia|done]|]. by rewrite <-Hback.
Qed.

(** The loop over the processes from [i] on. *)
Lemma wp_scheduler_loop s0 n : forall i s tr, round_ok s0 i s tr -> (i + n = Z.to_nat NPROC)%nat ->
  wp (for_ (seq i n) (scheduler_step run) tt) (fun r '(s', tr') => round_ok s0 (Z.to_nat NPROC) s' tr') (s, tr).
Proof.
  induction n as [|n IH]; intros i s tr Hro Hi.
  - apply wp_ret. by replace (Z.to_nat NPROC) with i by lia.
  - cbn [seq for_]. wp_step. apply wp_scheduler_step; [apply Hro|apply Hro|lia|..].
    + intros Hn. apply IH; [|lia]. by apply round_skip.
    + intros e s' Hr He Hsw Hran Hat Hback Hh Hs Hc Hcr. apply IH; [|lia]. by eapply round_switch.
Qed.
End scheduler.

(** C24: one round of [scheduler] runs every process that was [RUNNABLE] when
    it began, each at most once and in the order of the process table,
    whatever the processes do until they switch back (wake others, exit,
    sleep or yield) and whatever other CPUs do meanwhile: a ready process is
    left out only if it stopped being ready while an earlier process of the
    table ran.  At each switch the process is [RUNNING] and the current
    process of the CPU, with its page table and its kernel stack loaded, and
    its code runs from there.  The round ends without a lock and, if it ran
    anything, on the kernel's page table. *)
Theorem scheduler_runs_every_ready (run : nat -> K unit) s :
  run_returns run -> k_held s = [] -> k_cur s = None -> procs_ok s ->
  wp (scheduler_pass run) (fun _ '(s', tr) =>
    (forall i, ready s i -> i ∈ cs_proc <$> tr \/ Exists (fun e => taken e i) tr) /\
    ((forall e j, ran run e -> ready (cs_at e) j -> j <> cs_proc e -> ready (cs_back e) j) ->
       forall i, ready s i -> i ∈ cs_proc <$> tr) /\
    StronglySorted lt (cs_proc <$> tr) /\ Forall (fun e => switched_to e /\ ran run e) tr /\
    k_held s' = [] /\ k_cur s' = None /\ procs_ok s' /\ (tr <> [] -> k_cr3 s' = V2P (k_kpgdir s'))) (s, []).
Proof.
  intros Hrun Hh Hcur Hs. unfold scheduler_pass. wp_step. apply wp_on_cpu.
  apply wp_acquire; [rewrite Hh; set_solver|]. wp_step.
  eapply wp_mono; [apply (wp_scheduler_loop run Hrun s); [|done]|].
  - split; ksimpl; cbn [fmap list_fmap]; try done; try by constructor.
    + by rewrite Hh.
    + intros; lia.
  - intros r [s' tr] [Hh' Hs' Hc' Hcr Hsw Hsort _ Hdone _]. apply wp_on_cpu. eapply wp_release; [exact Hh'|].
    assert (forall i, ready s i -> i ∈ cs_proc <$> tr \/ Exists (fun e => taken e i) tr) as Hall.
    { intros i Hr. apply Hdone; [done|]. destruct Hr as (p & Hp & _). rewrite <-(proj1 Hs). by apply lookup_lt_Some in Hp. }
    split_and!; try done. intros Hkeep i Hr. destruct (Hall i Hr) as [|He]; [done|]. exfalso.
    apply Exists_exists in He as (e & Hin & Hlt & Hat & Hback). rewrite Forall_forall in Hsw.
    apply Hback, Hkeep; [by apply Hsw|done|lia].
Qed.

(** ** An example: two processes that yield at once *)

(** A process that is resumed in [yield], or runs for the first time, and
    then yields. *)
Definition run_yield (i : nat) : K unit := yield_resume;; yield_enter.

Lemma run_yield_returns : run_returns run_yield.
Proof.
  intros i s Hh Hc [Hl Hp] (p & Hi & Hr & Hk & Hd). unfold run_yield, yield_resume, yield_enter.
  wp_steps. eapply wp_release; [exact Hh|]. wp_steps. apply wp_acquire; ksimpl; [set_solver|].
  wp_steps. eapply wp_curproc; [exact Hc|]. wp_steps. eapply wp_upd_proc; [exact Hi|].
  assert (<[i := set_p_state RUNNABLE p]> (k_proc s) !! i = Some (set_p_state RUNNABLE p)) as Hi'
    by (apply list_lookup_insert_eq, lookup_lt_is_Some; eauto).
  eapply (wp_sched_enter i (set_p_state RUNNABLE p)); ksimpl; try done.
  split; [done|]. repeat split.
  - ksimpl. by rewrite length_insert.
  - ksimpl. apply list_lookup_insert_Some in H as [(<- & <- & _)|[_ Hj]]; cbn; eauto.
    eapply Hp; eauto.
  - ksimpl. apply list_lookup_insert_Some in H as [(<- & <- & _)|[_ Hj]]; cbn; eauto.
    eapply Hp; eauto.
  - by exists (set_p_state RUNNABLE p).
Qed.

(** It leaves the processes that are ready as they are. *)
Lemma run_yield_keeps e j : ran run_yield e -> ready (cs_at e) j -> ready (cs_back e) j.
Proof.
  intros Hran Hr. enough (wlp (run_yield (cs_proc e)) (fun _ s' => ready s' j) (cs_at e)) as H by exact (H _ _ Hran).
  clear Hran. unfold run_yield, yield_resume, yield_enter.
  apply wlp_bind. intros [] s1 H1. assert (k_proc s1 = k_proc (cs_at e)) as E1.
  { unfold release, mbind, M_bind, gets in H1. destruct (remove_lock _ _); [|done]. by injection H1 as <-. }
  apply wlp_bind. intros [] s2 H2. assert (k_proc s2 = k_proc s1) as E2.
  { unfold acquire, mbind, M_bind, gets in H2. destruct (bool_decide _); [done|]. by injection H2 as <-. }
  apply wlp_bind. intros c s3 H3. assert (s3 = s2) as ->.
  { unfold curproc, myproc, mbind, M_bind, gets in H3. destruct (k_cur s2); [|done]. by injection H3 as <- <-. }
  apply wlp_bind. intros [] s4 H4. assert (ready s4 j) as H4'.
  { unfold upd_proc, get_proc, put_proc, mbind, M_bind, gets in H4. destruct (k_proc s2 !! c) as [p|] eqn:Ep; [|done]. injection H4 as <-.
    destruct Hr as (q & Hq & Hqr). unfold ready. ksimpl. destruct (decide (c = j)) as [->|Hne].
    - exists (set_p_state RUNNABLE p). split; [|done]. apply list_lookup_insert_eq. by eapply lookup_lt_Some.
    - exists q. split; [|done]. rewrite list_lookup_insert_ne by done. congruence. }
  intros [] s5 H5. assert (s5 = s4) as ->; [|done]. unfold sched_enter, curproc, myproc, holding, get_proc, mbind, M_bind, gets, the in H5.
  repeat (case_match; unfold mret, M_ret, fail, panic in *; simplify_eq; try done).
Qed.

Definition ready_proc (pid : Z) : proc :=
  mk_proc PGSIZE PGSIZE pgdir0 0x80310000 RUNNABLE pid None 0 0 NoChan 0 (replicate 16 None) None [].
Definition state_ready : kstate :=
  set_k_cur None (set_k_proc (ready_proc 1 :: unused_proc :: ready_proc 2 :: replicate 61 unused_proc) state0).

Lemma state_ready_ok : procs_ok state_ready.
Proof.
  split; [reflexivity|]. intros i p Hp Hr.
  assert (Forall (fun p => p_state p = RUNNABLE -> p_kstack p <> 0 /\ p_pgdir p <> 0)
    (k_proc state_ready)) as HF.
  { unfold state_ready. ksimpl. repeat (apply Forall_cons; split; [first [discriminate|intros _; split; discriminate]|]).
    apply Forall_nil_2. }
  rewrite Forall_lookup in HF. by apply (HF i p).
Qed.

Lemma scheduler_runs_every_ready_witness :
  wp (scheduler_pass run_yield) (fun _ '(s', tr) => 0%nat ∈ cs_proc <$> tr /\ 2%nat ∈ cs_proc <$> tr /\
    Forall switched_to tr /\ k_cur s' = None) (state_ready, []).
Proof.
  eapply wp_mono; [apply (scheduler_runs_every_ready run_yield state_ready)|].
  - apply run_yield_returns.
  - reflexivity.
  - reflexivity.
  - apply state_ready_ok.
  - intros [] [s' tr] (_ & Hall & _ & Hsw & _ & Hc & _).
    assert (forall i, ready state_ready i -> i ∈ cs_proc <$> tr) as Hin.
    { apply Hall. intros e j He Hj _. by apply run_yield_keeps. }
    split; [apply Hin; eexists; split; reflexivity|]. split; [apply Hin; eexists; split; reflexivity|].
    split; [|exact Hc]. eapply Forall_impl; [exact Hsw|]. intros e [He _]. exact He.
Defined.
