(* ===== verification/Pipe.v ===== *)
(** * Pipes

    [pipeclose], [pipewrite] and [piperead] of [pipe.c] ([pipealloc], which
    allocates files, is in File.v).  A pipe is a ring of [PIPESIZE] bytes with
    a counter of the bytes read and one of the bytes written, both 32 bits
    wide.  A call that has to wait ends [Asleep], with the process asleep and
    [ptable.lock] held, and is continued by [pipewrite_wake] or
    [piperead_wake] when the scheduler switches back to it.

    The theorems show that the ring implements a bounded queue and that
    whatever the writers, the readers and the rest of the kernel do in turn,
    the bytes read are the bytes written, in their order. *)

From Stdlib Require Import ZArith Lia.
From stdpp Require Import base strings numbers gmap list.
From S2P Require Import Prelude Mmu Memory Kernel Sample Sleeplock Kmem Sched.

Definition PIPESIZE : Z := 512.

Inductive outcome (A : Type) := Done (a : A) | Asleep.
Arguments Done {A} a.
Arguments Asleep {A}.

(** ** Operations *)

Definition pipeclose {I : KernelImage} (p writable : Z) : K unit :=
  acquire (L_pipe p);;
  (if negb (writable =? 0) then
     upd_pipe p (set_pi_writeopen 0);;
     wakeup (ChPipeRead p)
   else
     upd_pipe p (set_pi_readopen 0);;
     wakeup (ChPipeWrite p));;
  x ← get_pipe p;
  if (pi_readopen x =? 0) && (pi_writeopen x =? 0) then
    release (L_pipe p);;
    modify (fun s => set_k_pipe (delete p (k_pipe s)) s);;
    kfree p
  else release (L_pipe p).

(** [p->nwrite == p->nread + PIPESIZE] *)
Definition pipe_full (x : pipe) : bool := pi_nwrite x =? u32 (pi_nread x + PIPESIZE).
(** [p->data[p->nwrite++ % PIPESIZE] = b] *)
Definition pipe_put (b : Z) (x : pipe) : pipe :=
  set_pi_nwrite (u32 (pi_nwrite x + 1))
    (set_pi_data (zinsert (pi_nwrite x mod PIPESIZE) b (pi_data x)) x).

(** The loop of [pipewrite] of [n] bytes when [rest] of them are to be
    written; the second result is what is still unwritten at its end. *)
Fixpoint pipewrite_loop (p n : Z) (rest : list Z) : K (outcome Z * list Z) :=
  match rest with
  | [] =>
      wakeup (ChPipeRead p);;
      release (L_pipe p);;
      mret (Done n, [])
  | b :: rest' =>
      x ← get_pipe p;
      if pipe_full x then
        c ← curproc;
        pr ← get_proc c;
        if (pi_readopen x =? 0) || negb (p_killed pr =? 0) then
          release (L_pipe p);;
          mret (Done (-1), rest)
        else
          wakeup (ChPipeRead p);;
          sleep_enter (ChPipeWrite p) (L_pipe p);;
          mret (Asleep, rest)
      else
        upd_pipe p (pipe_put b);;
        pipewrite_loop p n rest'
  end.

(** [addr] are the bytes at the address that is written. *)
Definition pipewrite (p : Z) (addr : list Z) : K (outcome Z * list Z) :=
  acquire (L_pipe p);;
  pipewrite_loop p (Z.of_nat (length addr)) addr.
Definition pipewrite_wake (p n : Z) (rest : list Z) : K (outcome Z * list Z) :=
  sleep_resume (L_pipe p);;
  pipewrite_loop p n rest.

(** The copying loop of [piperead]. *)
Fixpoint piperead_copy (p : Z) (n : nat) : K (list Z) :=
  match n with
  | O => mret []
  | S n =>
      x ← get_pipe p;
      if pi_nread x =? pi_nwrite x then mret []
      else
        b ← the (zlookup (pi_data x) (pi_nread x mod PIPESIZE));
        put_pipe p (set_pi_nread (u32 (pi_nread x + 1)) x);;
        l ← piperead_copy p n;
        mret (b :: l)
  end.

(** [piperead] with the lock held; the result is its value and the bytes
    stored at [addr]. *)
Definition piperead_locked (p n : Z) : K (outcome (Z * list Z)) :=
  x ← get_pipe p;
  if (pi_nread x =? pi_nwrite x) && negb (pi_writeopen x =? 0) then
    c ← curproc;
    pr ← get_proc c;
    if negb (p_killed pr =? 0) then
      release (L_pipe p);;
      mret (Done (-1, []))
    else
      sleep_enter (ChPipeRead p) (L_pipe p);;
      mret Asleep
  else
    l ← piperead_copy p (Z.to_nat n);
    wakeup (ChPipeWrite p);;
    release (L_pipe p);;
    mret (Done (Z.of_nat (length l), l)).

Definition piperead (p n : Z) : K (outcome (Z * list Z)) :=
  acquire (L_pipe p);; piperead_locked p n.
Definition piperead_wake (p n : Z) : K (outcome (Z * list Z)) :=
  sleep_resume (L_pipe p);; piperead_locked p n.

(** ** The queue a pipe holds *)

Record pipe_rep (x : pipe) (q : list Z) : Prop := {
  pr_r : 0 <= pi_nread x < two32;
  pr_w : pi_nwrite x = u32 (pi_nread x + Z.of_nat (length q));
  pr_room : Z.of_nat (length q) <= PIPESIZE;
  pr_len : length (pi_data x) = Z.to_nat PIPESIZE;
  pr_data : forall i b, q !! i = Some b ->
    zlookup (pi_data x) ((pi_nread x + Z.of_nat i) mod PIPESIZE) = Some b;
}.

Lemma u32_mod_pipe x : u32 x mod PIPESIZE = x mod PIPESIZE.
Proof. unfold u32, two32, PIPESIZE. zdiv. Qed.

Lemma pipe_rep_full x q : pipe_rep x q -> pipe_full x = bool_decide (Z.of_nat (length q) = PIPESIZE).
Proof.
  intros [Hr Hw Hroom _ _]. unfold pipe_full. rewrite Hw.
  apply eq_bool_prop_intro. rewrite !Is_true_true, Z.eqb_eq, bool_decide_eq_true.
  unfold u32, two32, PIPESIZE in *. zdiv.
Qed.

Lemma pipe_rep_empty x q : pipe_rep x q -> (pi_nread x =? pi_nwrite x) = bool_decide (q = []).
Proof.
  intros [Hr Hw Hroom _ _]. apply eq_bool_prop_intro.
  rewrite !Is_true_true, Z.eqb_eq, bool_decide_eq_true, Hw.
  rewrite <-(length_zero_iff_nil q). unfold u32, two32, PIPESIZE in *. zdiv.
Qed.

Lemma pipe_rep_put x q b : pipe_rep x q -> Z.of_nat (length q) < PIPESIZE ->
  pipe_rep (pipe_put b x) (q ++ [b]).
Proof.
  intros [Hr Hw Hroom Hlen Hd] Hlt.
  assert (length (pi_data x) = 512%nat) as Hlen' by (rewrite Hlen; reflexivity).
  split; unfold pipe_put; ksimpl; rewrite ?length_app, ?length_zinsert; cbn [length]; try done.
  - rewrite Hw. unfold u32, two32. zdiv.
  - unfold PIPESIZE in *. lia.
  - intros i c Hi. rewrite Hw, u32_mod_pipe, zlookup_zinsert
      by (rewrite Hlen'; unfold PIPESIZE; zdiv).
    destruct (decide (i = length q)) as [->|Hne].
    + rewrite decide_True by done. by rewrite lookup_app_r, Nat.sub_diag in Hi by lia.
    + assert (i < length q)%nat.
      { apply lookup_lt_Some in Hi. rewrite length_app in Hi. cbn in Hi. lia. }
      rewrite lookup_app_l in Hi by done. rewrite decide_False; [by apply Hd|].
      unfold PIPESIZE in *. zdiv.
Qed.

Lemma pipe_rep_get x q b : pipe_rep x (b :: q) ->
  zlookup (pi_data x) (pi_nread x mod PIPESIZE) = Some b /\
  pipe_rep (set_pi_nread (u32 (pi_nread x + 1)) x) q.
Proof.
  intros [Hr Hw Hroom Hlen Hd]. cbn [length] in *. split.
  - rewrite <-(Hd 0%nat b) by done. f_equal. by rewrite Z.add_0_r.
  - split; ksimpl; try done; try lia.
    + apply u32_range.
    + rewrite Hw. unfold u32, two32. zdiv.
    + intros i c Hi. rewrite <-(Hd (S i) c Hi). f_equal. unfold u32, two32, PIPESIZE. zdiv.
Qed.

(** ** The operations on the queue *)

Definition noone_waits (ch : chan) (s : kstate) : Prop :=
  forall j pr, k_proc s !! j = Some pr -> p_state pr = SLEEPING -> p_chan pr <> ch.

Lemma wake_running ch pr : p_state pr = RUNNING -> wake_proc ch pr = pr.
Proof. intros H. unfold wake_proc. by rewrite H, bool_decide_false. Qed.

Lemma noone_waits_wake ch ps s : k_proc s = wake_proc ch <$> ps -> noone_waits ch s.
Proof.
  intros Hs j pr Hj Hst Hch. rewrite Hs, list_lookup_fmap_Some in Hj. destruct Hj as (pr0 & -> & _).
  unfold wake_proc in *. destruct (bool_decide _ && _) eqn:E; [by cbn in Hst|].
  by rewrite Hst, Hch, !bool_decide_true in E.
Qed.

(** The current process has the CPU and holds the locks [h]. *)
Record running (s : kstate) (c : nat) (pr : proc) (h : list lock) : Prop := {
  rn_cur : k_cur s = Some c;
  rn_proc : k_proc s !! c = Some pr;
  rn_state : p_state pr = RUNNING;
  rn_held : k_held s = h;
}.

(** The room that is left. *)
Definition room (q : list Z) : nat := Z.to_nat PIPESIZE - length q.

(** What a pipe operation leaves: the queue [q], the two ends as before, and
    the process at its end: asleep, or running without a lock. *)
Record pipe_post (p : Z) (c : nat) (s : kstate) (x : pipe) (q : list Z) (sleeps : bool) (s' : kstate) : Prop := {
  pp_pipe : exists x', k_pipe s' = <[p := x']> (k_pipe s) /\ pipe_rep x' q /\
    pi_readopen x' = pi_readopen x /\ pi_writeopen x' = pi_writeopen x;
  pp_cur : k_cur s' = k_cur s;
  pp_held : k_held s' = if sleeps then [L_ptable] else [];
  pp_state : exists pr', k_proc s' !! c = Some pr' /\
    p_state pr' = if sleeps then SLEEPING else RUNNING;
}.

Definition is_asleep {A} (o : outcome A) : bool := if o is Asleep then true else false.

Record write_post (p n : Z) (c : nat) (s : kstate) (x : pipe) (dead : bool) (q rest : list Z)
  (r : outcome Z * list Z) (s' : kstate) : Prop := {
  wr_result : r = (if bool_decide (length rest <= room q)%nat then Done n
                   else if dead then Done (-1) else Asleep, drop (room q) rest);
  wr_pipe : pipe_post p c s x (q ++ take (room q) rest) (is_asleep r.1) s';
  wr_woken : r.1 <> Done (-1) -> noone_waits (ChPipeRead p) s';
  wr_silent : dead = true -> (room q < length rest)%nat -> k_proc s' = k_proc s;
}.

Record read_post (p n : Z) (c : nat) (s : kstate) (x : pipe) (killed : bool) (q : list Z)
  (r : outcome (Z * list Z)) (s' : kstate) : Prop := {
  rd_result : r = if bool_decide (q = []) && negb (pi_writeopen x =? 0)
                  then if killed then Done (-1, []) else Asleep
                  else Done (Z.of_nat (length (take (Z.to_nat n) q)), take (Z.to_nat n) q);
  rd_pipe : pipe_post p c s x (match r with Done (_, l) => drop (length l) q | Asleep => q end) (is_asleep r) s';
  rd_woken : forall k l, r = Done (k, l) -> l <> [] -> noone_waits (ChPipeWrite p) s';
}.

Lemma insert_self (m : gmap Z pipe) p x : m !! p = Some x -> <[p := x]> m = m.
Proof. apply insert_id. Qed.

(** Waking the other side and sleeping on [ch]. *)
Lemma wp_wake_sleep {B} (k : K B) p c pr q x ch ch' Q s : running s c pr [L_pipe p] ->
  k_pipe s !! p = Some x -> pipe_rep x q -> ch <> ch' ->
  (forall s', pipe_post p c s x q true s' -> noone_waits ch s' -> wp k Q s') ->
  wp (wakeup ch;; sleep_enter ch' (L_pipe p);; k) Q s.
Proof.
  intros [Hc Hp Hr Hh] Hx Hrep Hne HQ. wp_steps.
  apply wp_wakeup; [rewrite Hh; set_solver|]. wp_steps. eapply wp_sleep_enter; ksimpl; [exact Hc|..]; try done.
  - rewrite list_lookup_fmap, Hp. cbn. by rewrite wake_running.
  - apply HQ.
    + split; ksimpl; try done.
      * exists x. by rewrite insert_self.
      * exists (asleep ch' pr). split; [|done].
        apply list_lookup_insert_eq. rewrite length_fmap. by eapply lookup_lt_Some.
    + intros j pj Hj Hst Hcj. ksimpl.
      apply list_lookup_insert_Some in Hj as [(<- & <- & _)|[_ Hj]]; [by cbn in Hcj|].
      by eapply (noone_waits_wake ch (k_proc s) (set_k_proc (wake_proc ch <$> k_proc s) s)).
Qed.

(** Waking the other side and returning. *)
Lemma wp_wake_return {B} (k : K B) p c pr q x x' ch Q s0 s : running s c pr [L_pipe p] ->
  k_pipe s = <[p := x']> (k_pipe s0) -> pipe_rep x' q -> k_cur s0 = k_cur s ->
  pi_readopen x' = pi_readopen x -> pi_writeopen x' = pi_writeopen x ->
  (forall s', pipe_post p c s0 x q false s' -> noone_waits ch s' -> wp k Q s') ->
  wp (wakeup ch;; release (L_pipe p);; k) Q s.
Proof.
  intros [Hc Hp Hr Hh] Hx Hrep Hcur Hro Hwo HQ. wp_steps.
  apply wp_wakeup; [rewrite Hh; set_solver|]. wp_steps. eapply wp_release; ksimpl; [exact Hh|].
  apply HQ; [|by eapply noone_waits_wake].
  split; ksimpl; try done.
  - by exists x'.
  - exists pr. by rewrite list_lookup_fmap, Hp; cbn; rewrite wake_running.
Qed.

Lemma wp_pipewrite_loop p n c rest : forall s x pr q, running s c pr [L_pipe p] ->
  k_pipe s !! p = Some x -> pipe_rep x q ->
  wp (pipewrite_loop p n rest)
    (write_post p n c s x ((pi_readopen x =? 0) || negb (p_killed pr =? 0)) q rest) s.
Proof.
  induction rest as [|b rest IH]; intros s x pr q Hrn Hx Hrep; cbn [pipewrite_loop].
  - eapply (wp_wake_return _ _ _ _ q x x); [done|by rewrite insert_self|done..|].
    intros s' Hs' Hw. wp_steps. split; cbn [length drop take fst is_asleep]; [|by rewrite take_nil, app_nil_r|done|lia].
    by rewrite bool_decide_true, drop_nil by lia.
  - wp_steps. eapply wp_get_pipe; [exact Hx|]. rewrite (pipe_rep_full _ _ Hrep).
    case_bool_decide as Hfull.
    + assert (room q = O) as Hroom by (unfold room; lia).
      pose proof Hrn as [Hc Hp Hr Hh]. wp_steps. eapply wp_curproc; [exact Hc|]. wp_steps.
      eapply wp_get_proc; [exact Hp|]. destruct (_ || _) eqn:Hdead.
      * wp_steps. eapply wp_release; [exact Hh|]. wp_steps. split; rewrite ?Hroom; cbn; try done.
        rewrite app_nil_r. split; ksimpl; eauto. exists x. by rewrite insert_self.
      * eapply (wp_wake_sleep _ _ _ _ q); [done..|].
        intros s' Hs' Hw. wp_steps. split; rewrite ?Hroom; cbn; [done|by rewrite app_nil_r|done|done].
    + pose proof (pr_room _ _ Hrep). wp_steps. eapply wp_upd_pipe; [exact Hx|].
      assert (room q = S (room (q ++ [b]))) as Hroom.
      { unfold room. rewrite length_app. cbn. unfold PIPESIZE in *. lia. }
      eapply wp_mono; [apply (IH _ (pipe_put b x) pr (q ++ [b])); ksimpl|].
      * by destruct Hrn.
      * apply lookup_insert_eq.
      * apply pipe_rep_put; [done|lia].
      * intros r s' [Hres [(x' & Hx' & Hrep' & Hro & Hwo) Hcur Hh Hst] Hw Hsil]. ksimpl.
        split; rewrite ?Hroom; cbn [length take drop]; [|split; try done|done|intros ? ?; apply Hsil; [done|lia]].
        -- rewrite Hres. f_equal. erewrite bool_decide_ext; [reflexivity|]. lia.
        -- exists x'. rewrite insert_insert_eq in Hx'. by rewrite <-app_assoc in Hrep'.
Qed.

Lemma wp_pipewrite p addr c s x pr q : running s c pr [] ->
  k_pipe s !! p = Some x -> pipe_rep x q ->
  wp (pipewrite p addr)
    (write_post p (Z.of_nat (length addr)) c s x ((pi_readopen x =? 0) || negb (p_killed pr =? 0)) q addr) s.
Proof.
  intros [Hc Hp Hr Hh] Hx Hrep. unfold pipewrite. wp_steps.
  apply wp_acquire; [rewrite Hh; set_solver|].
  eapply wp_mono; [eapply wp_pipewrite_loop; [|exact Hx|exact Hrep]; split; ksimpl; eauto; by rewrite Hh|].
  intros r s' [Hres [Hpipe Hcur Hheld Hst] Hw Hsil]. by split.
Qed.

Lemma wp_piperead_copy p n : forall s x q Q, k_pipe s !! p = Some x -> pipe_rep x q ->
  (forall x', pipe_rep x' (drop n q) -> pi_readopen x' = pi_readopen x -> pi_writeopen x' = pi_writeopen x ->
     Q (take n q) (set_k_pipe (<[p := x']> (k_pipe s)) s)) ->
  wp (piperead_copy p n) Q s.
Proof.
  induction n as [|n IH]; intros s x q Q Hx Hrep HQ; cbn [piperead_copy].
  { wp_steps. specialize (HQ x Hrep eq_refl eq_refl). rewrite insert_self in HQ by done.
    destruct s; exact HQ. }
  wp_steps. eapply wp_get_pipe; [exact Hx|]. rewrite (pipe_rep_empty _ _ Hrep).
  destruct q as [|b q].
  - rewrite bool_decide_true by done. wp_steps. specialize (HQ x Hrep eq_refl eq_refl).
    rewrite insert_self in HQ by done. destruct s; exact HQ.
  - rewrite bool_decide_false by done. destruct (pipe_rep_get _ _ _ Hrep) as [Hb Hrep'].
    wp_steps. eapply wp_the; [exact Hb|]. unfold put_pipe. wp_steps.
    eapply (IH _ (set_pi_nread (u32 (pi_nread x + 1)) x) q); [ksimpl; apply lookup_insert_eq|done|].
    intros x' Hx' Hro Hwo. wp_steps. ksimpl. rewrite insert_insert_eq.
    apply (HQ x' Hx' Hro Hwo).
Qed.

Lemma wp_piperead_locked p n c s x pr q : running s c pr [L_pipe p] ->
  k_pipe s !! p = Some x -> pipe_rep x q ->
  wp (piperead_locked p n) (read_post p n c s x (negb (p_killed pr =? 0)) q) s.
Proof.
  intros Hrn Hx Hrep. pose proof Hrn as [Hc Hp Hr Hh]. unfold piperead_locked. wp_steps.
  eapply wp_get_pipe; [exact Hx|]. rewrite (pipe_rep_empty _ _ Hrep).
  destruct (bool_decide (q = []) && negb (pi_writeopen x =? 0)) eqn:Hwait.
  - wp_steps. eapply wp_curproc; [exact Hc|]. wp_steps. eapply wp_get_proc; [exact Hp|].
    destruct (negb (p_killed pr =? 0)) eqn:Hk; wp_steps.
    + eapply wp_release; [exact Hh|]. wp_steps. split; rewrite ?Hwait; [done| |].
      * cbn. split; ksimpl; eauto. exists x. by rewrite insert_self.
      * intros k l [= <- <-]. done.
    + eapply wp_sleep_enter; [done..|]. wp_steps. split; rewrite ?Hwait; [done| |done].
      cbn. split; ksimpl; try done; [exists x; by rewrite insert_self|].
      exists (asleep (ChPipeRead p) pr). split; [|done].
      apply list_lookup_insert_eq. by eapply lookup_lt_Some.
  - wp_steps. eapply (wp_piperead_copy _ _ s x q); [done..|]. intros x' Hx' Hro Hwo.
    eapply (wp_wake_return _ _ c pr _ x x' _ _ s); ksimpl; try done.
    intros s' Hs' Hw. wp_steps. split; rewrite ?Hwait; [done| |by intros].
    rewrite length_take. destruct Hs' as [H1 H2 H3 H4]. split; try done.
    destruct (decide (length q <= Z.to_nat n)%nat).
    + rewrite Nat.min_r by lia. by rewrite !drop_ge in H1 |- * by lia.
    + by rewrite Nat.min_l by lia.
Qed.

Lemma wp_piperead p n c s x pr q : running s c pr [] ->
  k_pipe s !! p = Some x -> pipe_rep x q ->
  wp (piperead p n) (read_post p n c s x (negb (p_killed pr =? 0)) q) s.
Proof.
  intros [Hc Hp Hr Hh] Hx Hrep. unfold piperead. wp_steps.
  apply wp_acquire; [rewrite Hh; set_solver|].
  eapply wp_mono; [eapply wp_piperead_locked; [|exact Hx|exact Hrep]; split; ksimpl; eauto; by rewrite Hh|].
  intros r s' [Hres [Hpipe Hcur Hheld Hst] Hw]. by split.
Qed.

(** Coming back from [sleep]. *)
Lemma wp_pipe_resume {A} (m : K A) p c pr Q s : running s c pr [L_ptable] ->
  (forall s1, running s1 c (set_p_chan NoChan pr) [L_pipe p] -> k_pipe s1 = k_pipe s -> k_cur s1 = k_cur s -> wp m Q s1) ->
  wp (sleep_resume (L_pipe p);; m) Q s.
Proof.
  intros [Hc Hp Hr Hh] HQ. wp_steps. eapply wp_sleep_resume; [done..|]. apply HQ; [|done..].
  split; ksimpl; try done. apply list_lookup_insert_eq. by eapply lookup_lt_Some.
Qed.

(** ** The writers and the readers together *)

(** Everything that can happen to the pipe [p] from its creation on.  The
    first list is all that was written, the second all that was read; each
    call is made or resumed by the process that is running, and between two
    of them the rest of the kernel may do anything but change the pipe. *)
Inductive pipe_run (p : Z) : kstate -> list Z -> list Z -> Prop :=
  | run_new s x :
      k_pipe s !! p = Some x -> pi_nread x = 0 -> pi_nwrite x = 0 ->
      length (pi_data x) = Z.to_nat PIPESIZE -> pipe_run p s [] []
  | run_write s W R c pr addr r s' :
      pipe_run p s W R -> running s c pr [] -> pipewrite p addr s = Ok (r, s') ->
      pipe_run p s' (W ++ take (length addr - length r.2) addr) R
  | run_write_wake s W R c pr n rest r s' :
      pipe_run p s W R -> running s c pr [L_ptable] -> pipewrite_wake p n rest s = Ok (r, s') ->
      pipe_run p s' (W ++ take (length rest - length r.2) rest) R
  | run_read s W R c pr n r s' :
      pipe_run p s W R -> running s c pr [] -> piperead p n s = Ok (r, s') ->
      pipe_run p s' W (R ++ match r with Done (_, l) => l | Asleep => [] end)
  | run_read_wake s W R c pr n r s' :
      pipe_run p s W R -> running s c pr [L_ptable] -> piperead_wake p n s = Ok (r, s') ->
      pipe_run p s' W (R ++ match r with Done (_, l) => l | Asleep => [] end)
  | run_other s W R s' :
      pipe_run p s W R -> k_pipe s' !! p = k_pipe s !! p -> pipe_run p s' W R.

Definition pipe_inv (p : Z) (s : kstate) (W R : list Z) : Prop :=
  exists x q, k_pipe s !! p = Some x /\ pipe_rep x q /\ W = R ++ q.

Lemma write_post_inv p n c s x dead q rest W R r s' : k_pipe s !! p = Some x -> W = R ++ q ->
  write_post p n c s x dead q rest r s' ->
  pipe_inv p s' (W ++ take (length rest - length r.2) rest) R.
Proof.
  intros Hx -> [Hres [(x' & Hx' & Hrep & _) _ _ _] _ _]. exists x', (q ++ take (room q) rest).
  rewrite Hx', lookup_insert_eq. split; [done|]. split; [done|]. rewrite Hres, <-app_assoc. cbn. do 2 f_equal.
  rewrite length_drop. destruct (decide (room q <= length rest)%nat).
  - f_equal. lia.
  - rewrite !take_ge; [done|lia..].
Qed.

Lemma read_post_inv p n c s x killed q W R r s' : k_pipe s !! p = Some x -> W = R ++ q ->
  read_post p n c s x killed q r s' ->
  pipe_inv p s' W (R ++ match r with Done (_, l) => l | Asleep => [] end).
Proof.
  intros Hx -> [Hres [(x' & Hx' & Hrep & _) _ _ _] _].
  eexists x', _. rewrite Hx', lookup_insert_eq. split; [done|]. split; [exact Hrep|].
  rewrite <-app_assoc. f_equal. rewrite Hres. destruct (_ && _).
  - by destruct killed.
  - rewrite length_take. destruct (decide (length q <= Z.to_nat n)%nat).
    + rewrite take_ge, drop_ge, app_nil_r by lia. done.
    + rewrite Nat.min_l by lia. by rewrite take_drop.
Qed.

Lemma pipe_run_inv p s W R : pipe_run p s W R -> pipe_inv p s W R.
Proof.
  induction 1 as [s x Hx Hr Hw Hlen|s W R c pr addr r s' _ IH Hrn Hop|s W R c pr n rest r s' _ IH Hrn Hop
    |s W R c pr n r s' _ IH Hrn Hop|s W R c pr n r s' _ IH Hrn Hop|s W R s' _ IH Heq].
  - exists x, []. split; [done|]. split; [|done]. split; try done; [by rewrite Hr|by rewrite Hw, Hr].
  - destruct IH as (x & q & Hx & Hrep & HW).
    pose proof (wp_pipewrite p addr c s x pr q Hrn Hx Hrep) as Hwp. unfold wp in Hwp. rewrite Hop in Hwp.
    by eapply write_post_inv.
  - destruct IH as (x & q & Hx & Hrep & HW).
    assert (wp (pipewrite_wake p n rest) (fun r s' => pipe_inv p s' (W ++ take (length rest - length r.2) rest) R) s) as Hwp.
    { apply (wp_pipe_resume _ p c pr); [done|]. intros s1 Hrn1 Hp1 _.
      assert (k_pipe s1 !! p = Some x) as Hx1 by by rewrite Hp1.
      eapply wp_mono; [by eapply wp_pipewrite_loop|]. intros ??. by eapply write_post_inv. }
    unfold wp in Hwp. by rewrite Hop in Hwp.
  - destruct IH as (x & q & Hx & Hrep & HW).
    pose proof (wp_piperead p n c s x pr q Hrn Hx Hrep) as Hwp. unfold wp in Hwp. rewrite Hop in Hwp.
    by eapply read_post_inv.
  - destruct IH as (x & q & Hx & Hrep & HW).
    assert (wp (piperead_wake p n) (fun r s' => pipe_inv p s' W (R ++ match r with Done (_, l) => l | Asleep => [] end)) s) as Hwp.
    { apply (wp_pipe_resume _ p c pr); [done|]. intros s1 Hrn1 Hp1 _.
      assert (k_pipe s1 !! p = Some x) as Hx1 by by rewrite Hp1.
      eapply wp_mono; [by eapply wp_piperead_locked|]. intros ??. by eapply read_post_inv. }
    unfold wp in Hwp. by rewrite Hop in Hwp.
  - destruct IH as (x & q & Hx & Hrep & HW). exists x, q. by rewrite Heq.
Qed.

(** C25: a pipe is a queue of at most 512 bytes.  A write appends the bytes
    that fit; it returns their number when all fit, otherwise it sleeps with
    the rest to write, or returns -1 when the read end is closed or the
    process was killed.  A read of an empty pipe whose write end is open
    sleeps (or returns -1 when killed), any other takes the oldest bytes,
    at most as many as asked for.  A write that returns the number of its
    bytes or sleeps leaves no reader asleep, and a read that took bytes leaves
    no writer asleep.  A write that returns -1 wakes nobody although it has
    filled the queue: a reader that was asleep stays asleep beside a full
    queue (a lost wake-up when the writer was killed and the pipe has other
    writers). *)
Theorem pipe_refines_queue p addr n c s x pr q :
  let dead := (pi_readopen x =? 0) || negb (p_killed pr =? 0) in
  running s c pr [] -> k_pipe s !! p = Some x -> pipe_rep x q ->
  wp (pipewrite p addr) (write_post p (Z.of_nat (length addr)) c s x dead q addr) s /\
  wp (piperead p n) (read_post p n c s x (negb (p_killed pr =? 0)) q) s /\
  (dead = true -> (room q < length addr)%nat -> forall j rd,
   k_proc s !! j = Some rd -> p_state rd = SLEEPING -> p_chan rd = ChPipeRead p ->
   wp (pipewrite p addr) (fun r s' => r.1 = Done (-1) /\ k_proc s' !! j = Some rd /\
     exists x', k_pipe s' !! p = Some x' /\ pipe_rep x' (q ++ take (room q) addr) /\ pipe_full x' = true) s).
Proof.
  intros dead Hrn Hx Hrep. split_and!; [by apply wp_pipewrite|by apply wp_piperead|].
  intros Hd Hlt j rd Hj _ _. eapply wp_mono; [by apply wp_pipewrite|]. fold dead. rewrite Hd.
  intros r s' [Hres [(x' & Hx' & Hrep' & _) _ _ _] _ Hsil]. rewrite (Hsil eq_refl Hlt), Hres, bool_decide_false by lia.
  split; [done|]. split; [done|]. exists x'. rewrite Hx', lookup_insert_eq. split_and!; [done..|].
  rewrite (pipe_rep_full _ _ Hrep'). apply bool_decide_eq_true. rewrite length_app, length_take_le by lia.
  pose proof (pr_room _ _ Hrep). unfold room. unfold PIPESIZE in *. lia.
Qed.

(** C8: whatever the interleaving of writes, reads, sleeps and wake-ups on a
    pipe, the bytes read are a prefix of the bytes written, and the rest, at
    most 512 bytes, are those in the ring: no byte is lost, duplicated or
    reordered, also when the counters wrap around. *)
Theorem pipe_fifo p s W R : pipe_run p s W R ->
  exists x q, k_pipe s !! p = Some x /\ pipe_rep x q /\ W = R ++ q /\ Z.of_nat (length q) <= PIPESIZE.
Proof.
  intros (x & q & Hx & Hrep & HW)%pipe_run_inv. exists x, q. split_and!; try done. by apply (pr_room x).
Qed.

(** ** An example: a pipe about to wrap around *)

Definition pipe_a : Z := 0x80303000.
Definition pipe0 : pipe := mk_pipe (replicate 512 0) 0 0 1 1.
Definition pipe1 : pipe := mk_pipe (zinsert 511 7 (replicate 512 0)) 4294967295 0 1 1.
Definition state_pipe (x : pipe) : kstate := set_k_pipe {[ pipe_a := x ]} state0.

Lemma pipe0_rep : pipe_rep pipe0 [].
Proof.
  split; [by split|done|done|reflexivity|]. intros i b Hi. discriminate.
Qed.
Lemma pipe1_rep : pipe_rep pipe1 [7].
Proof.
  split; [by split|done|done|reflexivity|].
  intros i b Hi. destruct i as [|i]; [|discriminate]. injection Hi as <-. reflexivity.
Qed.

(** Two bytes are written and one is read. *)
Lemma sample_pipe_run : exists s, pipe_run pipe_a s [5; 6] [5].
Proof.
  destruct (proj1 (wp_run _ _ _) (wp_pipewrite pipe_a [5; 6] 0 (state_pipe pipe0) pipe0 proc0 []
    ltac:(split; reflexivity) eq_refl pipe0_rep)) as (r1 & s1 & E1 & [Hr1 [(x1 & Hx1 & Hrep1 & _) Hc1 Hh1 (pr1 & Hp1 & Hst1)] _ _]).
  rewrite Hr1 in *. cbn in Hc1, Hh1, Hst1, Hrep1.
  assert (running s1 0 pr1 []) as Hrn by by split.
  destruct (proj1 (wp_run _ _ _) (wp_piperead pipe_a 1 0 s1 x1 pr1 [5; 6] Hrn
    ltac:(rewrite Hx1; apply lookup_insert_eq) Hrep1)) as (r2 & s2 & E2 & [Hr2 _ _]).
  cbn in Hr2. subst r2. exists s2.
  refine (run_read _ s1 [5; 6] [] 0 pr1 1 _ s2 _ Hrn E2).
  refine (run_write _ (state_pipe pipe0) [] [] 0 proc0 [5; 6] _ s1 _ _ E1); [|by split].
  by eapply run_new.
Qed.

(** A killed writer, and a reader asleep. *)
Definition reader0 : proc := asleep (ChPipeRead pipe_a) proc0.
Definition state_killed : kstate :=
  set_k_proc (set_p_killed 1 proc0 :: reader0 :: replicate 62 unused_proc) (state_pipe pipe0).

Lemma pipe_refines_queue_witness :
  wp (pipewrite pipe_a [8; 9]) (fun r s' => r = (Done 2, [])) (state_pipe pipe1) /\
  wp (piperead pipe_a 5) (fun r s' => r = Done (1, [7])) (state_pipe pipe1) /\
  wp (pipewrite pipe_a (replicate 600 5)) (fun r s' => r.1 = Done (-1) /\ k_proc s' !! 1%nat = Some reader0) state_killed.
Proof.
  destruct (pipe_refines_queue pipe_a [8; 9] 5 0 (state_pipe pipe1) pipe1 proc0 [7]) as (Hw & Hr & _).
  - split; reflexivity.
  - reflexivity.
  - exact pipe1_rep.
  - split; [|split].
    + eapply wp_mono; [exact Hw|]. intros r s' [Hres _ _ _]. exact Hres.
    + eapply wp_mono; [exact Hr|]. intros r s' [Hres _ _]. exact Hres.
    + destruct (pipe_refines_queue pipe_a (replicate 600 5) 5 0 state_killed pipe0 (set_p_killed 1 proc0) []) as (_ & _ & Hk).
      * split; reflexivity.
      * reflexivity.
      * exact pipe0_rep.
      * eapply wp_mono; [apply (Hk eq_refl ltac:(vm_compute; lia) 1%nat reader0); reflexivity|].
        intros r s' (H1 & H2 & _). split; [exact H1|exact H2].
Defined.

Lemma pipe_fifo_witness : exists s x q, k_pipe s !! pipe_a = Some x /\ pipe_rep x q /\
  [5; 6] = [5] ++ q /\ Z.of_nat (length q) <= PIPESIZE.
Proof.
  destruct sample_pipe_run as [s Hs]. exists s. exact (pipe_fifo pipe_a s [5; 6] [5] Hs).
Defined.
