(* ===== verification/Fs.v ===== *)
(** * The file system

    [fs.c]: block allocation in the free map, the cache of inodes, the
    content of inodes, directories and path names.  An inode pointer is an
    index into [icache.inode]; the bytes that [readi] stores and [writei]
    takes are lists, so that they can be at a user address or in a variable
    of the caller.  Devices are behind the interface [Devsw]. *)

From Stdlib Require Import ZArith Lia.
From stdpp Require Import base strings numbers gmap list.
From S2P Require Import Prelude Mmu Memory Kernel Sleeplock Bio Block Layout Log Swap.

(** [struct devsw]: the read and write functions of a major number. *)
Class Devsw := {
  dev_read : Z -> option (nat -> Z -> K (Z * list Z));
  dev_write : Z -> option (nat -> list Z -> K Z);
}.

Definition T_DIR : Z := 1.
Definition T_FILE : Z := 2.
Definition T_DEV : Z := 3.

(** ** Blocks *)

(** The data of a buffer the caller has locked. *)
Definition upd_data (bp : nat) (f : list Z -> list Z) : K unit :=
  b ← get_buf bp; put_buf bp (set_b_data (f (b_data b)) b).

(** Zero a block. *)
Definition bzero (dev bno : Z) : K unit :=
  bp ← bread dev bno;
  upd_data bp (fun _ => replicate (Z.to_nat BSIZE) 0);;
  log_write bp;;
  brelse bp.

(** Bit [bi] of a free-map block: its byte and its mask. *)
Definition bit_mask (bi : Z) : Z := Z.shiftl 1 (bi mod 8).
Definition bit_set (l : list Z) (bi : Z) : bool := negb (Z.land (byte_at l (bi / 8)) (bit_mask bi) =? 0).
Definition mark_used (bi : Z) (l : list Z) : list Z := put8 l (bi / 8) (Z.lor (byte_at l (bi / 8)) (bit_mask bi)).
Definition mark_free (bi : Z) (l : list Z) : list Z := put8 l (bi / 8) (Z.land (byte_at l (bi / 8)) (Z.lnot (bit_mask bi))).

(** [for(bi = 0; bi < BPB && b + bi < sb.size; bi++)] in one block. *)
Definition find_free (size b : Z) (l : list Z) : option Z :=
  snd <$> list_find (fun bi => bit_set l bi = false) (seqZ 0 (Z.min BPB (size - b))).

(** One block of the free map. *)
Definition balloc_step (dev size b : Z) : K (ctl unit Z) :=
  sb ← gets k_sb;
  bp ← bread dev (BBLOCK b sb);
  buf ← get_buf bp;
  match find_free size b (b_data buf) with
  | Some bi => (* block is free *)
      upd_data bp (mark_used bi);; (* mark block in use *)
      log_write bp;;
      brelse bp;;
      bzero dev (b + bi);;
      mret (Return (b + bi))
  | None => brelse bp;; mret (Next tt)
  end.

(** Allocate a zeroed disk block. *)
Definition balloc (dev : Z) : K Z :=
  sb ← gets k_sb;
  r ← for_ ((fun k => k * BPB) <$> seqZ 0 ((sb_size sb + BPB - 1) / BPB)) (fun b (_ : unit) => balloc_step dev (sb_size sb) b) tt;
  match r with
  | inr b => mret b
  | inl _ => panic "balloc: out of blocks"
  end.

(** Free a disk block. *)
Definition bfree (dev b : Z) : K unit :=
  sb ← gets k_sb;
  bp ← bread dev (BBLOCK b sb);
  buf ← get_buf bp;
  let bi := b mod BPB in
  if negb (bit_set (b_data buf) bi) then panic "freeing free block"
  else
    upd_data bp (mark_free bi);;
    log_write bp;;
    brelse bp.

(** ** Inodes *)

Definition get_ilk (i : nat) : K sleeplock := x ← get_inode i; mret (i_lock x).
Definition put_ilk (i : nat) (l : sleeplock) : K unit := upd_inode i (set_i_lock l).
Definition i_acquiresleep (i : nat) : K unit := acquiresleep (get_ilk i) (put_ilk i) (L_inode i).
Definition i_releasesleep (i : nat) : K unit := releasesleep (put_ilk i) (L_inode i) (ChInode i).
Definition i_holdingsleep (i : nat) : K bool := holdingsleep (get_ilk i) (L_inode i).

Definition iinit (dev : Z) : K unit :=
  _ ← for_ (R := unit) (seq 0 (Z.to_nat NINODE)) (fun i (_ : unit) =>
        initsleeplock (put_ilk i);; mret (Next tt)) tt;
  sb ← readsb dev;
  modify (set_k_sb sb);;
  initswap.

(** [struct dinode] at offset [o] of a block. *)
Definition dinode_off (inum : Z) : Z := (inum mod IPB) * DINODESIZE.
Definition dinode_type (l : list Z) (o : Z) : Z := s16 (get16 l o).
Definition encode_addrs (addrs : list Z) (l : list Z) (o : Z) : list Z :=
  foldl (fun l '(i, a) => put32 l (o + 4 * i) a) l (zip (seqZ 0 (NDIRECT + 1)) addrs).
Definition decode_addrs (l : list Z) (o : Z) : list Z := (fun i => get32 l (o + 4 * i)) <$> seqZ 0 (NDIRECT + 1).
Definition encode_dinode (x : inode) (l : list Z) (o : Z) : list Z :=
  let l := put16 l o (i_type x) in
  let l := put16 l (o + 2) (i_major x) in
  let l := put16 l (o + 4) (i_minor x) in
  let l := put16 l (o + 6) (i_nlink x) in
  let l := put32 l (o + 8) (i_size x) in
  encode_addrs (i_addrs x) l (o + 12).
Definition decode_dinode (l : list Z) (o : Z) (x : inode) : inode :=
  mk_inode (i_dev x) (i_inum x) (i_ref x) (i_lock x) (i_valid x)
    (s16 (get16 l o)) (s16 (get16 l (o + 2))) (s16 (get16 l (o + 4))) (s16 (get16 l (o + 6)))
    (get32 l (o + 8)) (decode_addrs l (o + 12)).

(** Copy a modified in-memory inode to disk. *)
Definition iupdate (i : nat) : K unit :=
  ip ← get_inode i;
  sb ← gets k_sb;
  bp ← bread (i_dev ip) (IBLOCK (i_inum ip) sb);
  upd_data bp (fun l => encode_dinode ip l (dinode_off (i_inum ip)));;
  log_write bp;;
  brelse bp.

(** The scan of [iget]: an entry of the inode, or the first empty one. *)
Definition iget_hit (dev inum : Z) (x : inode) : bool := (0 <? i_ref x) && (i_dev x =? dev) && (i_inum x =? inum).
Definition iget (dev inum : Z) : K nat :=
  acquire L_icache;;
  l ← gets k_inode;
  match list_find (fun x => iget_hit dev inum x = true) l with
  | Some (i, x) => (* Is the inode already cached? *)
      put_inode i (set_i_ref (i_ref x + 1) x);;
      release L_icache;;
      mret i
  | None =>
      match list_find (fun x => i_ref x = 0) l with
      | None => panic "iget: no inodes"
      | Some (i, x) => (* Recycle an inode cache entry. *)
          put_inode i (set_i_valid 0 (set_i_ref 1 (set_i_inum inum (set_i_dev dev x))));;
          release L_icache;;
          mret i
      end
  end.

(** Allocate an inode on device [dev]. *)
Definition ialloc_step (dev type inum : Z) : K (ctl unit nat) :=
  sb ← gets k_sb;
  bp ← bread dev (IBLOCK inum sb);
  buf ← get_buf bp;
  let o := dinode_off inum in
  if dinode_type (b_data buf) o =? 0 then (* a free inode *)
    upd_data bp (fun l => put16 (take (Z.to_nat o) l ++ replicate 64 0 ++ drop (Z.to_nat o + 64) l) o type);;
    log_write bp;; (* mark it allocated on the disk *)
    brelse bp;;
    i ← iget dev inum;
    mret (Return i)
  else brelse bp;; mret (Next tt).
Definition ialloc (dev type : Z) : K nat :=
  sb ← gets k_sb;
  r ← for_ (seqZ 1 (sb_ninodes sb - 1)) (fun inum (_ : unit) => ialloc_step dev type inum) tt;
  match r with
  | inr i => mret i
  | inl _ => panic "ialloc: no inodes"
  end.

(** Increment reference count. *)
Definition idup (i : nat) : K nat :=
  acquire L_icache;;
  upd_inode i (fun x => set_i_ref (i_ref x + 1) x);;
  release L_icache;;
  mret i.

(** Lock the given inode; reads the inode from disk if necessary. *)
Definition ilock (i : nat) : K unit :=
  ip ← get_inode i;
  if i_ref ip <? 1 then panic "ilock"
  else
    i_acquiresleep i;;
    ip ← get_inode i;
    when (i_valid ip =? 0)
      (sb ← gets k_sb;
       bp ← bread (i_dev ip) (IBLOCK (i_inum ip) sb);
       buf ← get_buf bp;
       upd_inode i (decode_dinode (b_data buf) (dinode_off (i_inum ip)));;
       brelse bp;;
       upd_inode i (set_i_valid 1);;
       ip ← get_inode i;
       if i_type ip =? 0 then panic "ilock: no type" else mret tt).

(** Unlock the given inode. *)
Definition iunlock (i : nat) : K unit :=
  h ← i_holdingsleep i;
  ip ← get_inode i;
  if negb h || (i_ref ip <? 1) then panic "iunlock" else i_releasesleep i.

(** ** Inode content *)

(** The disk block address of the [bn]th block of the inode; [bmap]
    allocates one if there is none. *)
Definition bmap (i : nat) (bn : Z) : K Z :=
  ip ← get_inode i;
  if bn <? NDIRECT then
    addr ← the (zlookup (i_addrs ip) bn);
    if addr =? 0 then
      addr ← balloc (i_dev ip);
      upd_inode i (fun x => set_i_addrs (zinsert bn addr (i_addrs x)) x);;
      mret addr
    else mret addr
  else
    let bn := bn - NDIRECT in
    if bn <? NINDIRECT then
      (* Load indirect block, allocating if necessary. *)
      addr ← the (zlookup (i_addrs ip) NDIRECT);
      addr ← (if addr =? 0 then
                addr ← balloc (i_dev ip);
                upd_inode i (fun x => set_i_addrs (zinsert NDIRECT addr (i_addrs x)) x);;
                mret addr
              else mret addr);
      bp ← bread (i_dev ip) addr;
      buf ← get_buf bp;
      let addr := get32 (b_data buf) (4 * bn) in
      addr ← (if addr =? 0 then
                addr ← balloc (i_dev ip);
                upd_data bp (fun l => put32 l (4 * bn) addr);;
                log_write bp;;
                mret addr
              else mret addr);
      brelse bp;;
      mret addr
    else panic "bmap: out of range".

(** Truncate inode (discard contents). *)
Definition itrunc (i : nat) : K unit :=
  _ ← for_ (R := unit) (seqZ 0 NDIRECT) (fun k (_ : unit) =>
        ip ← get_inode i;
        a ← the (zlookup (i_addrs ip) k);
        when (negb (a =? 0))
          (bfree (i_dev ip) a;;
           upd_inode i (fun x => set_i_addrs (zinsert k 0 (i_addrs x)) x));;
        mret (Next tt)) tt;
  ip ← get_inode i;
  a ← the (zlookup (i_addrs ip) NDIRECT);
  when (negb (a =? 0))
    (bp ← bread (i_dev ip) a;
     buf ← get_buf bp;
     _ ← for_ (R := unit) (seqZ 0 NINDIRECT) (fun j (_ : unit) =>
           let b := get32 (b_data buf) (4 * j) in
           when (negb (b =? 0)) (bfree (i_dev ip) b);;
           mret (Next tt)) tt;
     brelse bp;;
     bfree (i_dev ip) a;;
     upd_inode i (fun x => set_i_addrs (zinsert NDIRECT 0 (i_addrs x)) x));;
  upd_inode i (set_i_size 0);;
  iupdate i.

(** Drop a reference to an in-memory inode; the last one to an inode
    without links frees it on disk. *)
Definition iput (i : nat) : K unit :=
  i_acquiresleep i;;
  ip ← get_inode i;
  when (negb (i_valid ip =? 0) && (i_nlink ip =? 0))
    (acquire L_icache;;
     ip ← get_inode i;
     let r := i_ref ip in
     release L_icache;;
     when (r =? 1)
       (itrunc i;;
        upd_inode i (set_i_type 0);;
        iupdate i;;
        upd_inode i (set_i_valid 0)));;
  i_releasesleep i;;
  acquire L_icache;;
  upd_inode i (fun x => set_i_ref (i_ref x - 1) x);;
  release L_icache.

Definition iunlockput (i : nat) : K unit := iunlock i;; iput i.

(** [struct stat]. *)
Record stat := mk_stat { st_type : Z; st_dev : Z; st_ino : Z; st_nlink : Z; st_size : Z }.
Definition stati (i : nat) : K stat :=
  ip ← get_inode i;
  mret (mk_stat (i_type ip) (i_dev ip) (i_inum ip) (i_nlink ip) (i_size ip)).

Section content.
Context {DV : Devsw}.

(** The piece of block [off / BSIZE] that a transfer of [left] bytes at
    [off] covers. *)
Definition piece (off left : Z) : Z := Z.min left (BSIZE - off mod BSIZE).

(** Read data from inode: the return value and the bytes stored at [dst].
    A transfer of [n] bytes touches at most [n / BSIZE + 2] blocks. *)
Definition readi (i : nat) (off n : Z) : K (Z * list Z) :=
  ip ← get_inode i;
  if i_type ip =? T_DEV then
    if (i_major ip <? 0) || (NDEV <=? i_major ip) then mret (-1, [])
    else match dev_read (i_major ip) with
         | None => mret (-1, [])
         | Some f => f i n
         end
  else if (i_size ip <? off) || (u32 (off + n) <? off) then mret (-1, [])
  else
    let n := if i_size ip <? u32 (off + n) then u32 (i_size ip - off) else n in
    l ← while_ (Z.to_nat (n / BSIZE + 3)) (fun '(tot, off, l) =>
          if tot <? n then
            a ← bmap i (off / BSIZE);
            bp ← bread (i_dev ip) a;
            buf ← get_buf bp;
            let m := piece off (n - tot) in
            let part := take (Z.to_nat m) (drop (Z.to_nat (off mod BSIZE)) (b_data buf)) in
            brelse bp;;
            mret (inl (tot + m, off + m, l ++ part))
          else mret (inr l)) (0, off, []);
    mret (n, l).

(** Write data to inode; [src] are the bytes at the source address. *)
Definition writei (i : nat) (src : list Z) (off : Z) : K Z :=
  let n := Z.of_nat (length src) in
  ip ← get_inode i;
  if i_type ip =? T_DEV then
    if (i_major ip <? 0) || (NDEV <=? i_major ip) then mret (-1)
    else match dev_write (i_major ip) with
         | None => mret (-1)
         | Some f => f i src
         end
  else if (i_size ip <? off) || (u32 (off + n) <? off) then mret (-1)
  else if MAXFILE * BSIZE <? u32 (off + n) then mret (-1)
  else
    off ← while_ (Z.to_nat (n / BSIZE + 3)) (fun '(tot, off) =>
          if tot <? n then
            a ← bmap i (off / BSIZE);
            bp ← bread (i_dev ip) a;
            let m := piece off (n - tot) in
            let o := Z.to_nat (off mod BSIZE) in
            let part := take (Z.to_nat m) (drop (Z.to_nat tot) src) in
            upd_data bp (fun l => take o l ++ part ++ drop (o + length part) l);;
            log_write bp;;
            brelse bp;;
            mret (inl (tot + m, off + m))
          else mret (inr off)) (0, off);
    ip ← get_inode i;
    when ((0 <? n) && (i_size ip <? off))
      (upd_inode i (set_i_size off);;
       iupdate i);;
    mret n.

(** ** Directories *)

(** [strncmp] on C strings: the bytes before the zero. *)
Fixpoint str_ncmp (n : nat) (s t : list Z) : Z :=
  match n with
  | O => 0
  | S n =>
      let a := hd 0 s in
      let b := hd 0 t in
      if negb (a =? 0) && (a =? b) then str_ncmp n (tail s) (tail t) else a - b
  end.
Definition namecmp (s t : list Z) : Z := str_ncmp (Z.to_nat DIRSIZ) s t.

(** [struct dirent]. *)
Definition de_inum (de : list Z) : Z := get16 de 0.
Definition de_name (de : list Z) : list Z := drop 2 de.
(** [strncpy(de.name, name, DIRSIZ); de.inum = inum;] *)
Definition mk_dirent (name : list Z) (inum : Z) : list Z :=
  [inum mod 256; (inum / 256) mod 256] ++ resize (Z.to_nat DIRSIZ) 0 (take (Z.to_nat DIRSIZ) name).

(** The directory entry at [off]. *)
Definition read_dirent (msg : string) (dp : nat) (off : Z) : K (list Z) :=
  '(r, de) ← readi dp off DIRENTSIZE;
  if negb (r =? DIRENTSIZE) then panic msg else mret de.

(** The offsets of the entries. *)
Definition dir_offsets (size : Z) : list Z := (fun k => k * DIRENTSIZE) <$> seqZ 0 ((size + DIRENTSIZE - 1) / DIRENTSIZE).

(** Look for a directory entry in a directory: the inode and the byte
    offset of the entry. *)
Definition dirlookup (dp : nat) (name : list Z) : K (option (nat * Z)) :=
  d ← get_inode dp;
  if negb (i_type d =? T_DIR) then panic "dirlookup not DIR"
  else
    r ← for_ (dir_offsets (i_size d)) (fun off (_ : unit) =>
          de ← read_dirent "dirlookup read" dp off;
          if de_inum de =? 0 then mret (Next tt)
          else if namecmp name (de_name de) =? 0 then (* entry matches path element *)
            i ← iget (i_dev d) (de_inum de);
            mret (Return (i, off))
          else mret (Next tt)) tt;
    mret (match r with inr x => Some x | inl _ => None end).

(** Write a new directory entry (name, inum) into the directory. *)
Definition dirlink (dp : nat) (name : list Z) (inum : Z) : K Z :=
  r ← dirlookup dp name;
  match r with
  | Some (i, _) => iput i;; mret (-1)
  | None =>
      d ← get_inode dp;
      (* Look for an empty dirent. *)
      r ← for_ (dir_offsets (i_size d)) (fun off (_ : Z) =>
            de ← read_dirent "dirlink read" dp off;
            if de_inum de =? 0 then mret (Break off) else mret (Next (off + DIRENTSIZE))) 0;
      let off := match r with inl off => off | inr (tt) => 0 end in
      w ← writei dp (mk_dirent name inum) off;
      if negb (w =? DIRENTSIZE) then panic "dirlink" else mret 0
  end.

(** ** Paths *)

Definition SLASH : Z := 47.
Fixpoint skip_slashes (path : list Z) : list Z :=
  match path with c :: path' => if c =? SLASH then skip_slashes path' else path | [] => [] end.
(** [while( *path != '/' && *path != 0) path++;] the element and the rest. *)
Fixpoint take_elem (path : list Z) : list Z * list Z :=
  match path with
  | [] => ([], [])
  | c :: path' => if c =? SLASH then ([], path) else let '(e, rest) := take_elem path' in (c :: e, rest)
  end.

(** Copy the next path element from [path] into [name] (at most [DIRSIZ]
    bytes); the path that follows it, or [None] if there is no element. *)
Definition skipelem (path : list Z) : option (list Z * list Z) :=
  let path := skip_slashes path in
  match path with
  | [] => None
  | _ =>
      let '(e, rest) := take_elem path in
      Some (take (Z.to_nat DIRSIZ) e, skip_slashes rest)
  end.

(** Look up the inode of a path name, or of its parent with the final path
    element. *)
Definition namex (path : list Z) (nameiparent : bool) : K (option (nat * list Z)) :=
  ip ← (if bool_decide (head path = Some SLASH) then iget ROOTDEV ROOTINO
        else c ← curproc; p ← get_proc c; cwd ← the (p_cwd p); idup cwd);
  while_ (S (length path)) (fun '(ip, path, name) =>
    match skipelem path with
    | None =>
        if nameiparent : bool then iput ip;; mret (inr None) else mret (inr (Some (ip, name)))
    | Some (name, path) =>
        ilock ip;;
        x ← get_inode ip;
        if negb (i_type x =? T_DIR) then iunlockput ip;; mret (inr None)
        else if nameiparent && bool_decide (path = []) then
          (* Stop one level early. *)
          iunlock ip;; mret (inr (Some (ip, name)))
        else
          next ← dirlookup ip name;
          match next with
          | None => iunlockput ip;; mret (inr None)
          | Some (next, _) => iunlockput ip;; mret (inl (next, path, name))
          end
    end) (ip, path, []).

Definition namei (path : list Z) : K (option nat) := r ← namex path false; mret (fst <$> r).
Definition nameiparent (path : list Z) : K (option (nat * list Z)) := namex path true.
End content.
