(* ===== verification/FsBlock.v ===== *)
(** * Blocks of the file system

    The steps of the file system inside a transaction: reading a block,
    updating a block, and on top of them the free map ([balloc], [bfree],
    [bzero] of [fs.c]).  The transaction is described by the contents [V] of
    every block, as Log.v does. *)

From Stdlib Require Import ZArith Lia.
From stdpp Require Import base strings numbers gmap fin_sets list.
From S2P Require Import Prelude Mmu Memory Kernel Sample Sleeplock Bio Block Layout Log Fs.

(** ** Steps of a transaction *)

(** What the operations on blocks may change: the cache, the log in memory
    and the processes woken up. *)
Definition fs_step s s' : Prop :=
  exists bs lru ps lg, s' = set_k_buf bs (set_k_lru lru (set_k_proc ps (set_k_log lg s))) /\
    procs_woken (k_proc s) ps /\ lg_outstanding lg = lg_outstanding (k_log s).

Lemma fs_step_refl s : fs_step s s.
Proof.
  exists (k_buf s), (k_lru s), (k_proc s), (k_log s). split; [by destruct s|]. split; [apply procs_woken_refl|done].
Qed.

Lemma fs_step_trans s1 s2 s3 : fs_step s1 s2 -> fs_step s2 s3 -> fs_step s1 s3.
Proof.
  intros (?&?&?&?&->&?&H1) (bs&lru&ps&lg&->&?&H2). exists bs, lru, ps, lg. split; [done|].
  split; [by eapply procs_woken_trans|]. by rewrite H2.
Qed.

Lemma fs_step_sb s s' : fs_step s s' -> k_sb s' = k_sb s.
Proof. by intros (?&?&?&?&->&?&?). Qed.
Lemma fs_step_inode s s' : fs_step s s' -> k_inode s' = k_inode s.
Proof. by intros (?&?&?&?&->&?&?). Qed.
Lemma fs_step_disksize s s' : fs_step s s' -> k_disksize s' = k_disksize s.
Proof. by intros (?&?&?&?&->&?&?). Qed.
Lemma fs_step_outstanding s s' : fs_step s s' -> lg_outstanding (k_log s') = lg_outstanding (k_log s).
Proof. by intros (?&?&?&?&->&?&?). Qed.

(** The numbers of the log and its place, fixed for a transaction. *)
Record logdev := mk_logdev { ld_start : Z; ld_size : Z }.

(** Inside a transaction with room for [k] more blocks in the log, and at
    least three buffers that the log does not pin. *)
Record tx s (pid : Z) (H : list (nat * Z)) (V : Z -> list Z) (d : logdev) (L : list Z) (k : nat) : Prop := {
  t_txn : txn s pid H V (ld_start d) (ld_size d) L;
  t_room : Z.of_nat (length L + k) < ld_size d;
  t_buf : Z.of_nat (length L + k) + 3 <= NBUF;
  t_small : ld_size d <= NBUF;
  t_out : 1 <= lg_outstanding (k_log s);
}.

(** A block the file system may write: on the disk and not in the log. *)
Definition home (d : logdev) s (n : Z) : Prop :=
  ~ in_log (ld_start d) (ld_size d) n /\ 0 <= n < k_disksize s.

(** A buffer read and not modified can be released. *)
Definition settled s (V : Z -> list Z) (L : list Z) (n : Z) : Prop := n ∈ L \/ V n = disk_block s n.

Lemma settled_step s s' V L n : fs_step s s' -> settled s V L n -> settled s' V L n.
Proof. by intros (?&?&?&?&->&?&?). Qed.

Section tx.
Context (pid : Z) (d : logdev).
Implicit Types (s : kstate) (V : Z -> list Z) (H : list (nat * Z)) (L : list Z).

Lemma tx_le s H V L k k' : tx s pid H V d L k -> (k' <= k)%nat -> tx s pid H V d L k'.
Proof. intros [] ?. split; try done; lia. Qed.

Lemma wp_tx_bread n H V L k Q s : tx s pid H V d L k -> n ∉ H.*2 -> (length H <= 2)%nat -> n < k_disksize s ->
  (forall bp s', tx s' pid ((bp, n) :: H) V d L k -> fs_step s s' -> bp ∉ H.*1 -> settled s' V L n -> Q bp s') ->
  wp (bread ROOTDEV n) Q s.
Proof.
  intros [[Hr Hli Hh Hlen Hlk Hc] Hroom Hbuf Hsm Hout] Hn Hl Hsz HQ.
  eapply (wp_bread_rep n); [exact Hr|done| |done|].
  { right. rewrite size_dirty by apply Hli. lia. }
  intros bp bs s' Hbp Hr'. apply HQ.
  - split; [|done..]. split; try done. by destruct Hli; split.
  - exists bs, (k_lru s), (k_proc s), (k_log s). split; [by destruct s|]. split; [apply procs_woken_refl|done].
  - done.
  - destruct (decide (n ∈ L)); [by left|right]. change (disk_block s' n) with (disk_block s n).
    apply (br_clean _ _ _ _ _ Hr); [by rewrite elem_of_list_to_set|done].
Qed.

Lemma wp_tx_get n bp H V L k Q s : tx s pid H V d L k -> (bp, n) ∈ H ->
  (forall b, b_data b = V n -> Q b s) -> wp (get_buf bp) Q s.
Proof.
  intros Ht Hb HQ. destruct (brep_held _ _ _ _ _ (tx_rep _ _ _ _ _ _ _ (t_txn _ _ _ _ _ _ _ Ht)) bp n Hb) as (b & Hbb & _ & _ & _ & _ & Hd).
  eapply wp_get_buf; [done|]. by apply HQ.
Qed.

Lemma wp_tx_upd n bp f H V L k Q s : tx s pid H V d L k -> (bp, n) ∈ H -> n <> ld_start d ->
  (forall s', tx s' pid H (upd_block V n (f (V n))) d L k -> fs_step s s' -> Q tt s') ->
  wp (upd_data bp f) Q s.
Proof.
  intros [[Hr Hli Hh Hlen Hlk Hc] Hroom Hbuf Hsm Hout] Hb Hls HQ.
  apply (wp_put_data _ _ _ _ _ Hr bp n Hb f). intros bs s' Hr'. apply HQ.
  - split; [|done..]. split; try done. by destruct Hli; split.
  - exists bs, (k_lru s), (k_proc s), (k_log s). split; [by destruct s|]. split; [apply procs_woken_refl|done].
Qed.

Lemma wp_tx_log_write n bp H V L k Q s : tx s pid H V d L (S k) -> (bp, n) ∈ H -> home d s n ->
  (forall s', tx s' pid H V d (logged n L) k -> fs_step s s' -> Q tt s') ->
  wp (log_write bp) Q s.
Proof.
  intros [Ht Hroom Hbuf Hsm Hout] Hb [Hno Hsz] HQ.
  eapply wp_log_write; [exact Ht|exact Hb|done|lia|done|done|done|]. intros bs lg s' Ht' Hlg. apply HQ.
  - assert (length (logged n L) <= S (length L))%nat by (unfold logged; case_decide; rewrite ?length_app; cbn; lia).
    split; try done; try lia. cbn. lia.
  - exists bs, (k_lru s), (k_proc s), lg. split; [by destruct s|]. split; [apply procs_woken_refl|done].
Qed.

Lemma wp_tx_brelse n bp H V L k Q s : tx s pid H V d L k -> (bp, n) ∈ H -> settled s V L n ->
  (forall s', tx s' pid (drop_held bp H) V d L k -> fs_step s s' -> Q tt s') ->
  wp (brelse bp) Q s.
Proof.
  intros [[Hr Hli Hh Hlen Hlk Hc] Hroom Hbuf Hsm Hout] Hb Hs HQ.
  eapply wp_brelse_rep; [exact Hr|exact Hb| |].
  { destruct Hs as [?|?]; [left; by apply elem_of_list_to_set|by right]. }
  intros bs lru ps Hps s' Hr'. apply HQ.
  - split; [|done..]. split; try done. by destruct Hli; split.
  - exists bs, lru, ps, (k_log s). split; [by destruct s|done].
Qed.

Lemma drop_held_cons bp n H : bp ∉ H.*1 -> drop_held bp ((bp, n) :: H) = H.
Proof.
  intros Hb. unfold drop_held. rewrite filter_cons_False by (cbn; intros E; by apply E).
  induction H as [|[j m] H IH]; [done|]. cbn [fmap list_fmap fst] in Hb. apply not_elem_of_cons in Hb as [? ?].
  rewrite filter_cons_True by (cbn; congruence). by rewrite IH.
Qed.
End tx.

(** ** Updating a block *)

(** [bread], change the data, [log_write], [brelse]. *)
Lemma wp_tx_update pid d n f H V L k Q s : tx s pid H V d L (S k) -> n ∉ H.*2 -> (length H <= 2)%nat -> home d s n ->
  0 < ld_size d ->
  (forall s', tx s' pid H (upd_block V n (f (V n))) d (logged n L) k -> fs_step s s' -> Q tt s') ->
  wp (bp ← bread ROOTDEV n; upd_data bp f;; log_write bp;; brelse bp) Q s.
Proof.
  intros Ht Hn Hl Hhome Hd HQ. assert (n <> ld_start d) as Hls by (intros ->; apply (proj1 Hhome); unfold in_log; lia).
  wp_step. eapply wp_tx_bread; [done..|apply Hhome|]. intros bp s1 Ht1 St1 Hbp _.
  assert ((bp, n) ∈ (bp, n) :: H) as Hin by (by left).
  wp_step. eapply wp_tx_upd; [exact Ht1|exact Hin|done|]. intros s2 Ht2 St2.
  assert (fs_step s s2) as St by (by eapply fs_step_trans).
  wp_step. eapply wp_tx_log_write; [exact Ht2|exact Hin| |].
  { destruct Hhome. split; [done|]. by rewrite (fs_step_disksize _ _ St). }
  intros s3 Ht3 St3. eapply wp_tx_brelse; [exact Ht3|exact Hin|left|].
  { unfold logged. case_decide; [done|]. apply elem_of_app. right. by left. }
  intros s4 Ht4 St4. rewrite drop_held_cons in Ht4 by done. apply HQ; [done|].
  eapply fs_step_trans; [exact St|]. by eapply fs_step_trans.
Qed.

(** ** The free map *)

(** The bit of block [b]. *)
Definition used (sb : superblock) (V : Z -> list Z) (b : Z) : bool := bit_set (V (BBLOCK b sb)) (b mod BPB).

Lemma bit_mask_testbit bi k : 0 <= k -> Z.testbit (bit_mask bi) k = bool_decide (k = bi mod 8).
Proof.
  intros Hk. unfold bit_mask. pose proof (Z.mod_pos_bound bi 8 ltac:(lia)).
  rewrite Z.shiftl_spec by done. case_bool_decide as E.
  - subst. by rewrite Z.sub_diag.
  - destruct (decide (k < bi mod 8)) as [Hlt|Hge]; [by rewrite Z.testbit_neg_r by lia|].
    destruct (k - bi mod 8) as [|p|] eqn:Ep; try lia. by destruct p.
Qed.

Lemma bit_set_testbit l bi : bit_set l bi = Z.testbit (byte_at l (bi / 8)) (bi mod 8).
Proof.
  unfold bit_set. pose proof (Z.mod_pos_bound bi 8 ltac:(lia)).
  destruct (Z.testbit (byte_at l (bi / 8)) (bi mod 8)) eqn:E.
  - apply negb_true_iff, Z.eqb_neq. intros E0. apply (f_equal (fun z => Z.testbit z (bi mod 8))) in E0.
    rewrite Z.land_spec, E, bit_mask_testbit, bool_decide_true, Z.bits_0 in E0 by lia. done.
  - apply negb_false_iff, Z.eqb_eq. apply Z.bits_inj'. intros k Hk.
    rewrite Z.land_spec, bit_mask_testbit, Z.bits_0 by done. case_bool_decide as Ek; [subst; by rewrite E|apply andb_false_r].
Qed.

Lemma bit_mask_range bi : 0 <= bit_mask bi < 256.
Proof.
  unfold bit_mask. pose proof (Z.mod_pos_bound bi 8 ltac:(lia)).
  assert (bi mod 8 ∈ seqZ 0 8) as Hin by (apply elem_of_seqZ; lia). revert Hin. generalize (bi mod 8) as k. clear.
  intros k Hk. change (seqZ 0 8) with [0; 1; 2; 3; 4; 5; 6; 7] in Hk.
  rewrite !elem_of_cons, elem_of_nil in Hk. destruct_or! Hk; subst; cbn; lia || done.
Qed.

Lemma byte_testbit_ext v k : 0 <= k < 8 -> Z.testbit (v mod 256) k = Z.testbit v k.
Proof. intros. change 256 with (2 ^ 8). apply Z.mod_pow2_bits_low. lia. Qed.

Lemma bit_split bi bj : bi / 8 = bj / 8 -> bi mod 8 = bj mod 8 -> bi = bj.
Proof. intros. zdiv. Qed.

Lemma bit_set_mark_used l bi bj : 0 <= bi -> bi / 8 < Z.of_nat (length l) -> 0 <= bj ->
  bit_set (mark_used bi l) bj = bool_decide (bi = bj) || bit_set l bj.
Proof.
  intros Hi Hl Hj. rewrite !bit_set_testbit. unfold mark_used. pose proof (Z.mod_pos_bound bj 8 ltac:(lia)).
  rewrite byte_at_put8 by zdiv. case_decide as E.
  - rewrite byte_testbit_ext, Z.lor_spec, bit_mask_testbit, <-E by lia. rewrite orb_comm. f_equal.
    apply bool_decide_ext. split; [|by intros ->]. intros. apply bit_split; [done|congruence].
  - rewrite bool_decide_false by (intros ->; done). done.
Qed.

Lemma bit_set_mark_free l bi bj : 0 <= bi -> bi / 8 < Z.of_nat (length l) -> 0 <= bj ->
  bit_set (mark_free bi l) bj = negb (bool_decide (bi = bj)) && bit_set l bj.
Proof.
  intros Hi Hl Hj. rewrite !bit_set_testbit. unfold mark_free. pose proof (Z.mod_pos_bound bj 8 ltac:(lia)).
  rewrite byte_at_put8 by zdiv. case_decide as E.
  - rewrite byte_testbit_ext, Z.land_spec, Z.lnot_spec, bit_mask_testbit, <-E by lia. rewrite andb_comm. do 2 f_equal.
    apply bool_decide_ext. split; [|by intros ->]. intros. apply bit_split; [done|congruence].
  - rewrite bool_decide_false by (intros ->; done). done.
Qed.

Lemma length_mark_used bi l : length (mark_used bi l) = length l.
Proof. apply length_put8. Qed.
Lemma length_mark_free bi l : length (mark_free bi l) = length l.
Proof. apply length_put8. Qed.

(** The free map covers the disk: its blocks can be written, and a block
    that is free is a data block. *)
Record map_ok s (d : logdev) (V : Z -> list Z) : Prop := {
  mo_size : 0 <= sb_size (k_sb s) < two32 /\ 0 <= sb_bmapstart (k_sb s) /\
    sb_bmapstart (k_sb s) + sb_size (k_sb s) / BPB < two32;
  mo_home : forall b, 0 <= b < sb_size (k_sb s) -> home d s (BBLOCK b (k_sb s));
  mo_len : forall b, 0 <= b < sb_size (k_sb s) -> length (V (BBLOCK b (k_sb s))) = Z.to_nat BSIZE;
  mo_data : forall b, 0 <= b < sb_size (k_sb s) -> used (k_sb s) V b = false ->
    home d s b /\ forall b', 0 <= b' < sb_size (k_sb s) -> BBLOCK b' (k_sb s) <> b;
  mo_log : 0 < ld_size d;
  mo_boot : 0 < sb_size (k_sb s) -> used (k_sb s) V 0 = true; (* the boot block *)
}.

Section map.
Context (pid : Z) (d : logdev).
Implicit Types (s : kstate) (V : Z -> list Z) (H : list (nat * Z)) (L : list Z).

(** The buffers held are of blocks in use, outside of the map. *)
Definition held_ok s V H : Prop :=
  (length H <= 1)%nat /\ forall n, n ∈ H.*2 ->
    (0 <= n < sb_size (k_sb s) -> used (k_sb s) V n = true) /\
    forall b, 0 <= b < sb_size (k_sb s) -> BBLOCK b (k_sb s) <> n.

Lemma BBLOCK_eq s V b : map_ok s d V -> 0 <= b < sb_size (k_sb s) -> BBLOCK b (k_sb s) = b / BPB + sb_bmapstart (k_sb s).
Proof.
  intros [Hs _ _ _ _ _] Hb. unfold BBLOCK. apply u32_small. change BPB with 4096 in *. zdiv.
Qed.

(** Other blocks keep their contents. *)
Lemma upd_block_eq V n x : upd_block V n x n = x.
Proof. unfold upd_block. by rewrite decide_True. Qed.
Lemma upd_block_ne V n x k : k <> n -> upd_block V n x k = V k.
Proof. intros. unfold upd_block. by rewrite decide_False. Qed.

(** The contents after block [b] is allocated, or freed. *)
Definition alloc_block (sb : superblock) (b : Z) V : Z -> list Z :=
  upd_block (upd_block V (BBLOCK b sb) (mark_used (b mod BPB) (V (BBLOCK b sb)))) b (replicate (Z.to_nat BSIZE) 0).
Definition free_block (sb : superblock) (b : Z) V : Z -> list Z :=
  upd_block V (BBLOCK b sb) (mark_free (b mod BPB) (V (BBLOCK b sb))).

Lemma used_alloc s V b b' : map_ok s d V -> 0 <= b < sb_size (k_sb s) -> 0 <= b' < sb_size (k_sb s) ->
  used (k_sb s) V b = false ->
  used (k_sb s) (alloc_block (k_sb s) b V) b' = bool_decide (b = b') || used (k_sb s) V b'.
Proof.
  intros Hm Hb Hb' Hu. destruct (mo_data _ _ _ Hm b Hb Hu) as [_ Hnb]. unfold used, alloc_block.
  rewrite upd_block_ne by (by apply Hnb). pose proof (Z.mod_pos_bound b BPB ltac:(done)). pose proof (Z.mod_pos_bound b' BPB ltac:(done)).
  destruct (decide (BBLOCK b' (k_sb s) = BBLOCK b (k_sb s))) as [E|E].
  - rewrite E, upd_block_eq. rewrite bit_set_mark_used; [f_equal; apply bool_decide_ext|lia| |lia].
    + rewrite !(BBLOCK_eq s V) in E by done. change BPB with 4096 in *. split; [zdiv|by intros ->].
    + rewrite (mo_len _ _ _ Hm b Hb). change BPB with 4096 in *. change BSIZE with 512. zdiv.
  - rewrite upd_block_ne by done. rewrite bool_decide_false; [done|]. by intros ->.
Qed.

Lemma used_free s V b b' : map_ok s d V -> 0 <= b < sb_size (k_sb s) -> 0 <= b' < sb_size (k_sb s) ->
  used (k_sb s) (free_block (k_sb s) b V) b' = negb (bool_decide (b = b')) && used (k_sb s) V b'.
Proof.
  intros Hm Hb Hb'. unfold used, free_block.
  pose proof (Z.mod_pos_bound b BPB ltac:(done)). pose proof (Z.mod_pos_bound b' BPB ltac:(done)).
  destruct (decide (BBLOCK b' (k_sb s) = BBLOCK b (k_sb s))) as [E|E].
  - rewrite E, upd_block_eq. rewrite bit_set_mark_free; [do 2 f_equal; apply bool_decide_ext|lia| |lia].
    + rewrite !(BBLOCK_eq s V) in E by done. change BPB with 4096 in *. split; [zdiv|by intros ->].
    + rewrite (mo_len _ _ _ Hm b Hb). change BPB with 4096 in *. change BSIZE with 512. zdiv.
  - rewrite upd_block_ne by done. rewrite bool_decide_false; [done|]. by intros ->.
Qed.
Lemma wp_bzero n H V L k Q s : tx s pid H V d L (S k) -> n ∉ H.*2 -> (length H <= 2)%nat -> home d s n -> 0 < ld_size d ->
  (forall s', tx s' pid H (upd_block V n (replicate (Z.to_nat BSIZE) 0)) d (logged n L) k -> fs_step s s' -> Q tt s') ->
  wp (bzero ROOTDEV n) Q s.
Proof. intros. by apply (wp_tx_update pid d n (fun _ => replicate (Z.to_nat BSIZE) 0) H V L k). Qed.

Lemma wp_bfree b H V L k Q s : tx s pid H V d L (S k) -> map_ok s d V -> held_ok s V H ->
  0 <= b < sb_size (k_sb s) -> used (k_sb s) V b = true ->
  (forall s', tx s' pid H (free_block (k_sb s) b V) d (logged (BBLOCK b (k_sb s)) L) k -> fs_step s s' -> Q tt s') ->
  wp (bfree ROOTDEV b) Q s.
Proof.
  intros Ht Hm [Hl Hh] Hb Hu HQ. pose proof (mo_home _ _ _ Hm b Hb) as Hhome. set (n := BBLOCK b (k_sb s)) in *.
  assert (n ∉ H.*2) as Hn by (intros Hin; by apply (proj2 (Hh n Hin) b)).
  unfold bfree. wp_step. apply wp_gets. fold n. wp_step.
  eapply wp_tx_bread; [exact Ht|done|lia|apply Hhome|]. intros bp s1 Ht1 St1 Hbp _.
  assert ((bp, n) ∈ (bp, n) :: H) as Hin by (by left).
  wp_step. eapply wp_tx_get; [exact Ht1|exact Hin|]. intros buf Hbuf. cbn zeta. rewrite Hbuf.
  change (bit_set (V n) (b mod BPB)) with (used (k_sb s) V b). rewrite Hu. cbn [negb].
  wp_step. eapply wp_tx_upd; [exact Ht1|exact Hin| |].
  { intros E. apply (proj1 Hhome). rewrite E. pose proof (mo_log _ _ _ Hm). unfold in_log. lia. }
  intros s2 Ht2 St2. assert (fs_step s s2) as St by (by eapply fs_step_trans).
  wp_step. eapply wp_tx_log_write; [exact Ht2|exact Hin| |].
  { destruct Hhome. split; [done|]. by rewrite (fs_step_disksize _ _ St). }
  intros s3 Ht3 St3. eapply wp_tx_brelse; [exact Ht3|exact Hin|left|].
  { unfold logged. case_decide; [done|]. apply elem_of_app. right. by left. }
  intros s4 Ht4 St4. rewrite drop_held_cons in Ht4 by done. apply HQ; [done|].
  eapply fs_step_trans; [exact St|]. by eapply fs_step_trans.
Qed.

Lemma find_free_Some size b l bi : find_free size b l = Some bi ->
  0 <= bi < BPB /\ b + bi < size /\ bit_set l bi = false /\ forall bj, 0 <= bj < bi -> bit_set l bj = true.
Proof.
  unfold find_free. destruct (list_find _ _) as [[i x]|] eqn:F; [|done]. cbn. intros [= ->].
  apply list_find_Some in F as (Hi & Hx & Hmin). apply lookup_seqZ in Hi as [-> Hi]. split_and!; try done; try lia.
  intros bj Hbj. apply not_false_iff_true. apply (Hmin (Z.to_nat bj)); [|lia]. apply lookup_seqZ. lia.
Qed.

Lemma find_free_None size b l bi : find_free size b l = None -> 0 <= bi < BPB -> b + bi < size -> bit_set l bi = true.
Proof.
  unfold find_free. destruct (list_find _ _) as [[i x]|] eqn:F; [done|]. intros _ Hbi Hlt.
  apply list_find_None in F. rewrite Forall_forall in F. specialize (F bi). rewrite elem_of_seqZ in F.
  destruct (bit_set l bi); [done|]. destruct F; [lia|done].
Qed.

Lemma step_home s s' n : fs_step s s' -> home d s n -> home d s' n.
Proof. intros St [? ?]. split; [done|]. by rewrite (fs_step_disksize _ _ St). Qed.

Lemma map_ok_step s s' V : fs_step s s' -> map_ok s d V -> map_ok s' d V.
Proof.
  intros St [H1 H2 H3 H4 H5 H6]. pose proof (fs_step_sb _ _ St) as E. split; rewrite ?E; try done.
  - intros b Hb. eapply step_home; [done|]. by apply H2.
  - intros b Hb Hu. destruct (H4 b Hb Hu). split; [|done]. by eapply step_home.
Qed.

(** The result of the search of one map block. *)
Lemma wp_balloc_step q H V L k Q s : tx s pid H V d L (S (S k)) -> map_ok s d V -> held_ok s V H ->
  0 <= q * BPB < sb_size (k_sb s) -> 0 <= q ->
  (forall b s', q * BPB <= b < (q + 1) * BPB -> 0 <= b < sb_size (k_sb s) -> used (k_sb s) V b = false ->
     (forall b', q * BPB <= b' < b -> used (k_sb s) V b' = true) ->
     tx s' pid H (alloc_block (k_sb s) b V) d (logged b (logged (BBLOCK b (k_sb s)) L)) k -> fs_step s s' ->
     Q (Return b) s') ->
  (forall s', (forall b, q * BPB <= b < (q + 1) * BPB -> b < sb_size (k_sb s) -> used (k_sb s) V b = true) ->
     tx s' pid H V d L (S (S k)) -> fs_step s s' -> Q (Next tt) s') ->
  wp (balloc_step ROOTDEV (sb_size (k_sb s)) (q * BPB)) Q s.
Proof.
  intros Ht Hm [Hl Hh] Hb Hq HR HN. pose proof (mo_home _ _ _ Hm _ Hb) as Hhome. set (n := BBLOCK (q * BPB) (k_sb s)) in *.
  assert (forall b, q * BPB <= b < (q + 1) * BPB -> b < sb_size (k_sb s) -> BBLOCK b (k_sb s) = n) as Hsame.
  { intros b Hb1 Hb2. unfold n. rewrite !(BBLOCK_eq s V) by (done || lia). f_equal. change BPB with 4096 in *. zdiv. }
  assert (n ∉ H.*2) as Hn by (intros Hin; by apply (proj2 (Hh n Hin) (q * BPB))).
  unfold balloc_step. wp_step. apply wp_gets. fold n. wp_step.
  eapply wp_tx_bread; [exact Ht|done|lia|apply Hhome|]. intros bp s1 Ht1 St1 Hbp Hset.
  assert ((bp, n) ∈ (bp, n) :: H) as Hin by (by left).
  wp_step. eapply wp_tx_get; [exact Ht1|exact Hin|]. intros buf Hbuf. rewrite Hbuf.
  destruct (find_free _ _ (V n)) as [bi|] eqn:F.
  - apply find_free_Some in F as (Hbi & Hlt & Hfree & Hmin). set (b := q * BPB + bi).
    assert (b mod BPB = bi) as Emod by (unfold b; change BPB with 4096 in *; zdiv).
    assert (BBLOCK b (k_sb s) = n) as En by (apply Hsame; unfold b; lia).
    assert (used (k_sb s) V b = false) as Hu by (unfold used; by rewrite En, Emod).
    destruct (mo_data _ _ _ Hm b ltac:(unfold b; lia) Hu) as [Hhb Hnb].
    wp_step. eapply wp_tx_upd; [exact Ht1|exact Hin| |].
    { intros E. apply (proj1 Hhome). rewrite E. pose proof (mo_log _ _ _ Hm). unfold in_log. lia. }
    intros s2 Ht2 St2. assert (fs_step s s2) as St by (by eapply fs_step_trans).
    wp_step. eapply wp_tx_log_write; [exact Ht2|exact Hin|by eapply step_home|].
    intros s3 Ht3 St3. wp_step. eapply wp_tx_brelse; [exact Ht3|exact Hin|left|].
    { unfold logged. case_decide; [done|]. apply elem_of_app. right. by left. }
    intros s4 Ht4 St4. rewrite drop_held_cons in Ht4 by done.
    assert (fs_step s s4) as St' by (eapply fs_step_trans; [exact St|]; by eapply fs_step_trans).
    wp_step. eapply wp_bzero; [exact Ht4| |lia|by eapply step_home|apply (mo_log _ _ _ Hm)|].
    { intros Hinb. destruct (Hh b Hinb) as [Hub _]. rewrite Hub in Hu by (unfold b; lia). done. }
    intros s5 Ht5 St5. wp_steps. apply HR; [unfold b; lia|unfold b; lia|done| | |by eapply fs_step_trans].
    + intros b' Hb'. unfold used. rewrite (Hsame b') by (unfold b in Hb'; lia). apply Hmin. unfold b in Hb'. change BPB with 4096 in *. zdiv.
    + unfold alloc_block. by rewrite En, Emod.
  - wp_step. eapply wp_tx_brelse; [exact Ht1|exact Hin|exact Hset|]. intros s2 Ht2 St2.
    rewrite drop_held_cons in Ht2 by done. wp_steps. apply HN; [|done|by eapply fs_step_trans].
    intros b Hb1 Hb2. unfold used. rewrite (Hsame b Hb1 Hb2).
    apply (find_free_None _ _ _ _ F); change BPB with 4096 in *; zdiv.
Qed.

Lemma held_ok_step s s' V H : fs_step s s' -> held_ok s V H -> held_ok s' V H.
Proof. intros St. unfold held_ok. by rewrite (fs_step_sb _ _ St). Qed.

(** The block that [balloc] returns is the first free one. *)
Lemma wp_balloc_first H V L k Q s : tx s pid H V d L (S (S k)) -> map_ok s d V -> held_ok s V H ->
  (exists b, 0 <= b < sb_size (k_sb s) /\ used (k_sb s) V b = false) ->
  (forall b s', 0 <= b < sb_size (k_sb s) -> used (k_sb s) V b = false ->
     (forall b', 0 <= b' < b -> used (k_sb s) V b' = true) ->
     tx s' pid H (alloc_block (k_sb s) b V) d (logged b (logged (BBLOCK b (k_sb s)) L)) k -> fs_step s s' ->
     Q b s') ->
  wp (balloc ROOTDEV) Q s.
Proof.
  intros Ht Hm Hh (b0 & Hb0 & Hu0) HQ. destruct (mo_size _ _ _ Hm) as [Hsz _].
  unfold balloc. wp_step. apply wp_gets. wp_step. apply wp_for_fmap.
  apply (wp_for_seqZ _ _ (fun t _ s' => fs_step s s' /\ tx s' pid H V d L (S (S k)) /\
    forall b, 0 <= b < Z.of_nat t * BPB -> b < sb_size (k_sb s) -> used (k_sb s) V b = true)).
  - apply Z.div_pos; [|done]. change BPB with 4096. lia.
  - intros t _ s1 Ht1 (St1 & Htx1 & Hall). pose proof (fs_step_sb _ _ St1) as Esb.
    rewrite <-Esb. eapply wp_balloc_step; [exact Htx1|by eapply map_ok_step|by eapply held_ok_step| |lia|..]; rewrite ?Esb.
    + change BPB with 4096 in *. zdiv.
    + intros b s2 Hb1 Hb2 Hu Hfirst Htx2 St2. wp_steps. apply HQ; [done|done| |done|by eapply fs_step_trans].
      intros b' Hb'. destruct (decide (b' < Z.of_nat t * BPB)); [apply Hall; lia|]. apply Hfirst; lia.
    + intros s2 Hb Htx2 St2. split; [by eapply fs_step_trans|]. split; [done|]. intros b Hb1 Hb2.
      destruct (decide (b < Z.of_nat t * BPB)); [apply Hall; lia|]. apply Hb; lia.
  - intros _ s1 (St1 & Htx1 & Hall). rewrite Hall in Hu0; [done| |lia].
    split; [lia|]. rewrite Z2Nat.id by (apply Z.div_pos; [change BPB with 4096; lia|done]). change BPB with 4096. zdiv.
  - split; [apply fs_step_refl|]. split; [done|]. lia.
Qed.
Lemma wp_balloc H V L k Q s : tx s pid H V d L (S (S k)) -> map_ok s d V -> held_ok s V H ->
  (exists b, 0 <= b < sb_size (k_sb s) /\ used (k_sb s) V b = false) ->
  (forall b s', 0 <= b < sb_size (k_sb s) -> used (k_sb s) V b = false ->
     tx s' pid H (alloc_block (k_sb s) b V) d (logged b (logged (BBLOCK b (k_sb s)) L)) k -> fs_step s s' ->
     Q b s') ->
  wp (balloc ROOTDEV) Q s.
Proof. intros Ht Hm Hh Hf HQ. eapply wp_balloc_first; [done..|]. eauto. Qed.

Lemma map_ok_alloc s V b : map_ok s d V -> 0 <= b < sb_size (k_sb s) -> used (k_sb s) V b = false ->
  map_ok s d (alloc_block (k_sb s) b V).
Proof.
  intros Hm Hb Hu. pose proof (fun b' Hb' => used_alloc s V b b' Hm Hb Hb' Hu) as Hua. destruct (mo_data _ _ _ Hm b Hb Hu) as [_ Hnb].
  destruct Hm as [H1 H2 H3 H4 H5 H6]. split; try done.
  - intros b' Hb'. unfold alloc_block. rewrite upd_block_ne by (by apply Hnb).
    unfold upd_block. case_decide as Eb; [|by apply H3]. rewrite length_mark_used. by apply H3.
  - intros b' Hb' Hu'. rewrite Hua in Hu' by done. apply orb_false_iff in Hu' as [_ Hu']. by apply H4.
  - intros H0. rewrite Hua by (done || lia). by rewrite H6, orb_true_r.
Qed.

Lemma map_ok_free s V b : map_ok s d V -> 0 < b < sb_size (k_sb s) -> home d s b ->
  (forall b', 0 <= b' < sb_size (k_sb s) -> BBLOCK b' (k_sb s) <> b) -> map_ok s d (free_block (k_sb s) b V).
Proof.
  intros Hm Hb Hhome Hnb. pose proof (fun b' => used_free s V b b' Hm ltac:(lia)) as Hua. destruct Hm as [H1 H2 H3 H4 H5 H6]. split; try done.
  - intros b' Hb'. unfold free_block, upd_block. case_decide as Eb; [|by apply H3]. rewrite length_mark_free. apply H3; lia.
  - intros b' Hb' Hu'. rewrite Hua in Hu' by (done || lia). apply andb_false_iff in Hu' as [Hu'|Hu']; [|by apply H4].
    apply negb_false_iff, bool_decide_eq_true in Hu' as <-. done.
  - intros H0. rewrite Hua by (done || lia). rewrite H6, bool_decide_false by lia. done.
Qed.
End map.

(** C14: Block allocation.  With a free block on the disk, [balloc] terminates
    and returns the first free block, which is zeroed and marked in the free
    map, while no other bit and no block outside of the map changes; [bfree]
    of that block then restores every bit.  Freeing any block in use clears
    its bit and no other, and leaves every block but that of the map that
    holds the bit as it was. *)
Theorem balloc_bfree pid d V L k s : tx s pid [] V d L (3 + k) -> map_ok s d V ->
  ((exists b, 0 <= b < sb_size (k_sb s) /\ used (k_sb s) V b = false) ->
   wp (balloc ROOTDEV) (fun b s1 => exists V1 L1,
     tx s1 pid [] V1 d L1 (1 + k) /\ map_ok s1 d V1 /\
     0 <= b < sb_size (k_sb s) /\ used (k_sb s) V b = false /\
     (forall b', 0 <= b' < b -> used (k_sb s) V b' = true) /\ V1 b = replicate (Z.to_nat BSIZE) 0 /\
     (forall b', 0 <= b' < sb_size (k_sb s) -> used (k_sb s) V1 b' = bool_decide (b = b') || used (k_sb s) V b') /\
     (forall n, n <> b -> (forall b', 0 <= b' < sb_size (k_sb s) -> BBLOCK b' (k_sb s) <> n) -> V1 n = V n) /\
     wp (bfree ROOTDEV b) (fun _ s2 => exists V2 L2, tx s2 pid [] V2 d L2 k /\ map_ok s2 d V2 /\
       (forall b', 0 <= b' < sb_size (k_sb s) -> used (k_sb s) V2 b' = used (k_sb s) V b') /\
       (forall n, n <> BBLOCK b (k_sb s) -> V2 n = V1 n)) s1) s) /\
  (forall b, 0 <= b < sb_size (k_sb s) -> used (k_sb s) V b = true ->
   wp (bfree ROOTDEV b) (fun _ s1 => exists V1 L1, tx s1 pid [] V1 d L1 (2 + k) /\
     (forall b', 0 <= b' < sb_size (k_sb s) -> used (k_sb s) V1 b' = negb (bool_decide (b = b')) && used (k_sb s) V b') /\
     (forall n, n <> BBLOCK b (k_sb s) -> V1 n = V n)) s).
Proof.
  intros Ht Hm. assert (forall s V, held_ok s V []) as Hnil by (intros; split; [cbn; lia|by intros ? ?%elem_of_nil]).
  split; [intros Hfree|intros b Hb Hu].
  2: { eapply wp_bfree; [exact Ht|done|apply Hnil|done|done|]. intros s1 Ht1 St1. eexists _, _. split; [exact Ht1|].
       split; [intros b' Hb'; by apply (used_free d)|]. intros n Hn. by apply upd_block_ne. }
  eapply wp_balloc_first; [exact Ht|done|apply Hnil|done|]. intros b s1 Hb Hu Hfirst Ht1 St1.
  pose proof (map_ok_alloc d s V b Hm Hb Hu) as Hm1. pose proof (fun b' Hb' => used_alloc d s V b b' Hm Hb Hb' Hu) as Hu1.
  destruct (mo_data _ _ _ Hm b Hb Hu) as [Hhome Hnb]. pose proof (fs_step_sb _ _ St1) as Esb.
  pose proof (map_ok_step d s s1 _ St1 Hm1) as Hm1'.
  exists (alloc_block (k_sb s) b V), (logged b (logged (BBLOCK b (k_sb s)) L)). split_and!; try done; try lia.
  - apply upd_block_eq.
  - intros n Hn Hmap. unfold alloc_block. rewrite !upd_block_ne; [done|by apply not_eq_sym, Hmap|done].
  - eapply wp_bfree; [exact Ht1|done|apply Hnil|by rewrite Esb|by rewrite Esb, Hu1, bool_decide_true|].
    rewrite Esb. intros s2 Ht2 St2. eexists _, _. split; [exact Ht2|]. split; [|split].
    + eapply map_ok_step; [exact St2|]. rewrite <-Esb. apply map_ok_free; rewrite ?Esb; try done; [|by eapply step_home].
      assert (b <> 0); [|lia]. intros ->. rewrite (mo_boot _ _ _ Hm) in Hu by lia. done.
    + intros b' Hb'. rewrite <-Esb. rewrite (used_free d); rewrite ?Esb; try done. rewrite Hu1 by done.
      case_bool_decide as E; [subst; by rewrite Hu|done].
    + intros n Hn. by apply upd_block_ne.
Qed.
