(* ===== verification/FsData.v ===== *)
(** * The content of inodes

    The block map of an inode ([bmap] of [fs.c]) and the transfers [readi]
    and [writei], inside a transaction.  The content of a file is the
    function [fdata] from block numbers of the file to bytes, in which a
    block that is not allocated reads as zeroes. *)

From Stdlib Require Import ZArith Lia.
From stdpp Require Import base strings numbers gmap fin_sets list.
From S2P Require Import Prelude Mmu Memory Kernel Sample Sleeplock Bio Block Layout Log Fs FsBlock.

(** ** The block map *)

(** The address of block [bn] of the file, 0 if there is none. *)
Definition addr_of (x : inode) (bn : Z) : Z := default 0 (zlookup (i_addrs x) bn).
Definition fblock (x : inode) (V : Z -> list Z) (bn : Z) : Z :=
  if bn <? NDIRECT then addr_of x bn
  else if addr_of x NDIRECT =? 0 then 0
  else get32 (V (addr_of x NDIRECT)) (4 * (bn - NDIRECT)).
Definition fdata (x : inode) (V : Z -> list Z) (bn : Z) : list Z :=
  if fblock x V bn =? 0 then replicate (Z.to_nat BSIZE) 0 else V (fblock x V bn).

(** A block that a file uses: marked in the free map, not part of it. *)
Record data_block s (d : logdev) (V : Z -> list Z) (a : Z) : Prop := {
  db_range : 0 < a < sb_size (k_sb s);
  db_used : used (k_sb s) V a = true;
  db_home : home d s a;
  db_map : forall b, 0 <= b < sb_size (k_sb s) -> BBLOCK b (k_sb s) <> a;
  db_len : length (V a) = Z.to_nat BSIZE;
}.

(** The inode's blocks are data blocks, each used once. *)
Record file_ok s (d : logdev) (V : Z -> list Z) (x : inode) : Prop := {
  fo_dev : i_dev x = ROOTDEV;
  fo_len : length (i_addrs x) = Z.to_nat (NDIRECT + 1);
  fo_block : forall bn, 0 <= bn < MAXFILE -> fblock x V bn <> 0 -> data_block s d V (fblock x V bn);
  fo_ind : addr_of x NDIRECT <> 0 -> data_block s d V (addr_of x NDIRECT);
  fo_inj : forall bn bn', 0 <= bn < MAXFILE -> 0 <= bn' < MAXFILE -> fblock x V bn <> 0 ->
    fblock x V bn = fblock x V bn' -> bn = bn';
  fo_ind_ne : forall bn, 0 <= bn < MAXFILE -> fblock x V bn <> 0 -> fblock x V bn <> addr_of x NDIRECT;
}.

Lemma fdata_len s d V x bn : file_ok s d V x -> 0 <= bn < MAXFILE -> length (fdata x V bn) = Z.to_nat BSIZE.
Proof.
  intros Hf Hbn. unfold fdata. destruct (Z.eqb_spec (fblock x V bn) 0) as [|Hne]; [apply length_replicate|].
  apply (db_len _ _ _ _ (fo_block _ _ _ _ Hf bn Hbn Hne)).
Qed.

(** ** Steps that change an inode *)

(** [s'] differs from [s] in what [fs_step] allows and in inode [i], which
    is now [x]. *)
Definition i_step s s' (i : nat) (x : inode) : Prop := fs_step (set_k_inode (<[i := x]> (k_inode s)) s) s'.

Lemma i_step_fs s s' i x : fs_step s s' -> k_inode s !! i = Some x -> i_step s s' i x.
Proof. intros St Hx. unfold i_step. rewrite list_insert_id by done. by destruct s. Qed.

Lemma i_step_trans s1 s2 s3 i x y : i_step s1 s2 i x -> i_step s2 s3 i y -> i_step s1 s3 i y.
Proof.
  intros (?&?&?&?&->&?&?) (bs&lru&ps&lg&->&?&H2). exists bs, lru, ps, lg. cbn in *. rewrite list_insert_insert_eq.
  split; [by destruct s1|]. split; [by eapply procs_woken_trans|]. congruence.
Qed.

Lemma i_step_fs_r s1 s2 s3 i x : i_step s1 s2 i x -> fs_step s2 s3 -> i_step s1 s3 i x.
Proof. intros H1 H2. by eapply fs_step_trans. Qed.

Lemma i_step_lookup s s' i x y : i_step s s' i x -> k_inode s !! i = Some y -> k_inode s' !! i = Some x.
Proof. intros St Hy. rewrite (fs_step_inode _ _ St). cbn. apply list_lookup_insert_eq. by eapply lookup_lt_Some. Qed.

Lemma i_step_same s s' i x : i_step s s' i x ->
  k_sb s' = k_sb s /\ k_disksize s' = k_disksize s /\ lg_outstanding (k_log s') = lg_outstanding (k_log s).
Proof. by intros (?&?&?&?&->&?&?). Qed.

Lemma tx_set_inode l s pid H V d L k : tx s pid H V d L k -> tx (set_k_inode l s) pid H V d L k.
Proof.
  intros [[Hr Hli Hh Hlen Hlk Hc] ? ? ? ?]. split; try done. split; try done.
  - eapply brep_ext; [exact Hr|done..|apply Hr|apply Hr].
  - by destruct Hli; split.
Qed.

Lemma map_ok_same s s' d V : k_sb s' = k_sb s -> k_disksize s' = k_disksize s -> map_ok s d V -> map_ok s' d V.
Proof. intros E1 E2 [H1 H2 H3 H4 H5 H6]. split; rewrite ?E1; unfold home in *; rewrite ?E2; done. Qed.

Lemma data_block_same s s' d V a : k_sb s' = k_sb s -> k_disksize s' = k_disksize s ->
  data_block s d V a -> data_block s' d V a.
Proof. intros E1 E2 [H1 H2 H3 H4 H5]. split; rewrite ?E1; unfold home in *; rewrite ?E2; done. Qed.

Lemma file_ok_same s s' d V x : k_sb s' = k_sb s -> k_disksize s' = k_disksize s -> file_ok s d V x -> file_ok s' d V x.
Proof.
  intros E1 E2 [H1 H2 H3 H4 H5 H6]. split; try done; intros; eapply data_block_same; try done; auto.
Qed.

(** ** Allocating a block keeps the file *)

Section alloc.
Context (s : kstate) (d : logdev) (V : Z -> list Z) (x : inode) (a : Z).
Context (Hm : map_ok s d V) (Hf : file_ok s d V x).
Context (Ha : 0 < a < sb_size (k_sb s)) (Hu : used (k_sb s) V a = false).

Let V' : Z -> list Z := alloc_block (k_sb s) a V.

(** A block in use keeps its contents. *)
Lemma alloc_keeps n : data_block s d V n -> V' n = V n.
Proof.
  intros [Hr Hus _ Hmap _]. unfold V', alloc_block. rewrite !upd_block_ne; [done| |].
  - intros E. by apply (Hmap a); [lia|].
  - intros ->. congruence.
Qed.

Lemma alloc_data_block n : data_block s d V n -> data_block s d V' n.
Proof.
  intros Hn. pose proof (alloc_keeps n Hn) as Ek. destruct Hn as [Hr Hus Hh Hmap Hl]. split; try done.
  - unfold V'. rewrite (used_alloc d) by (done || lia). by rewrite Hus, orb_true_r.
  - by rewrite Ek.
Qed.

Lemma alloc_new : data_block s d V' a /\ V' a = replicate (Z.to_nat BSIZE) 0.
Proof.
  destruct (mo_data _ _ _ Hm a ltac:(lia) Hu) as [Hh Hmap].
  assert (V' a = replicate (Z.to_nat BSIZE) 0) as E by apply upd_block_eq. split; [|done]. split; try done.
  - unfold V'. rewrite (used_alloc d) by (done || lia). by rewrite bool_decide_true.
  - rewrite E. apply length_replicate.
Qed.

Lemma alloc_ne n : data_block s d V n -> n <> a.
Proof. intros [_ Hus _ _ _] ->. congruence. Qed.

Lemma alloc_fblock bn : fblock x V' bn = fblock x V bn.
Proof.
  unfold fblock. case_if; [done|]. destruct (Z.eqb_spec (addr_of x NDIRECT) 0) as [|Hne]; [done|].
  by rewrite alloc_keeps by (by apply (fo_ind _ _ _ _ Hf)).
Qed.

Lemma alloc_fdata bn : 0 <= bn < MAXFILE -> fdata x V' bn = fdata x V bn.
Proof.
  intros Hbn. unfold fdata. rewrite alloc_fblock. destruct (Z.eqb_spec (fblock x V bn) 0) as [|Hne]; [done|].
  apply alloc_keeps. by apply (fo_block _ _ _ _ Hf).
Qed.

Lemma alloc_file_ok : file_ok s d V' x.
Proof.
  destruct Hf as [H1 H2 H3 H4 H5 H6]. split; try done; intros *; rewrite ?alloc_fblock; intros; auto using alloc_data_block.
Qed.
End alloc.

(** ** Adding a block to the file *)

(** [a] becomes block [bn] of the file. *)
Lemma file_ok_add s d V V' x x' bn a : file_ok s d V x -> i_dev x' = i_dev x -> length (i_addrs x') = length (i_addrs x) ->
  addr_of x' NDIRECT = addr_of x NDIRECT ->
  (forall k, 0 <= k < MAXFILE -> fblock x' V' k = if decide (k = bn) then a else fblock x V k) ->
  (forall n, data_block s d V n -> data_block s d V' n) -> data_block s d V' a ->
  (forall k, 0 <= k < MAXFILE -> fblock x V k <> a) -> addr_of x NDIRECT <> a ->
  file_ok s d V' x'.
Proof.
  intros [H1 H2 H3 H4 H5 H6] Hdev Hlen Hind Hblk Hdb Ha Hfresh Hfi. split; [congruence|congruence|..].
  - intros k Hk. rewrite Hblk by done. case_decide; [done|]. intros. by apply Hdb, H3.
  - rewrite Hind. intros. by apply Hdb, H4.
  - intros k k' Hk Hk'. rewrite !Hblk by done. intros Hne E. case_decide; case_decide; subst; try done.
    + by destruct (Hfresh k' Hk').
    + by destruct (Hfresh k Hk).
    + by eapply H5.
  - intros k Hk. rewrite Hblk, Hind by done. case_decide; [by intros _ ->|]. by apply H6.
Qed.

Lemma fdata_add s d V V' x x' bn a : file_ok s d V x ->
  (forall k, 0 <= k < MAXFILE -> fblock x' V' k = if decide (k = bn) then a else fblock x V k) ->
  0 <= bn < MAXFILE -> fblock x V bn = 0 -> V' a = replicate (Z.to_nat BSIZE) 0 ->
  (forall n, data_block s d V n -> n <> addr_of x NDIRECT -> V' n = V n) ->
  forall k, 0 <= k < MAXFILE -> fdata x' V' k = fdata x V k.
Proof.
  intros Hf Hblk Hbn H0 Ha Hk k Hr. unfold fdata. rewrite Hblk by done. case_decide as E.
  - subst. rewrite H0, Ha. by case_if.
  - destruct (Z.eqb_spec (fblock x V k) 0) as [|Hne]; [done|].
    apply Hk; [by apply (fo_block _ _ _ _ Hf)|by apply (fo_ind_ne _ _ _ _ Hf)].
Qed.

Lemma addr_of_insert x bn a k : 0 <= bn < Z.of_nat (length (i_addrs x)) ->
  addr_of (set_i_addrs (zinsert bn a (i_addrs x)) x) k = if decide (bn = k) then a else addr_of x k.
Proof. intros Hbn. unfold addr_of. cbn. rewrite zlookup_zinsert by done. by case_decide. Qed.

(** A direct block. *)
Lemma fblock_direct x V bn a k : length (i_addrs x) = Z.to_nat (NDIRECT + 1) -> 0 <= bn < NDIRECT ->
  fblock (set_i_addrs (zinsert bn a (i_addrs x)) x) V k = if decide (k = bn) then a else fblock x V k.
Proof.
  intros Hl Hbn. unfold fblock. rewrite !addr_of_insert by (rewrite Hl; unfold NDIRECT in *; lia).
  rewrite (decide_False (P := bn = NDIRECT)) by lia. case_if.
  - repeat case_decide; done || lia.
  - by rewrite decide_False by (unfold NDIRECT in *; lia).
Qed.

(** The indirect block, still empty. *)
Lemma fblock_indirect x V a k : length (i_addrs x) = Z.to_nat (NDIRECT + 1) -> addr_of x NDIRECT = 0 ->
  V a = replicate (Z.to_nat BSIZE) 0 ->
  fblock (set_i_addrs (zinsert NDIRECT a (i_addrs x)) x) V k = fblock x V k.
Proof.
  intros Hl H0 HV. unfold fblock. rewrite !addr_of_insert by (rewrite Hl; unfold NDIRECT; lia).
  rewrite (decide_True (P := NDIRECT = NDIRECT)) by done. case_if; [by rewrite decide_False by lia|]. rewrite H0. cbn [Z.eqb].
  case_if; [done|]. rewrite HV. unfold get32, byte_at.
  assert (forall o, nth o (replicate (Z.to_nat BSIZE) 0) 0 = 0) as E.
  { intros o. rewrite nth_lookup. destruct (_ !! o) as [y|] eqn:Ey; [|done]. by apply lookup_replicate in Ey as [-> _]. }
  by rewrite !E.
Qed.

(** An entry of the indirect block. *)
Lemma fblock_entry s d V x j a k : file_ok s d V x -> addr_of x NDIRECT <> 0 -> 0 <= j < NINDIRECT -> 0 <= k < MAXFILE ->
  0 <= a < two32 ->
  fblock x (upd_block V (addr_of x NDIRECT) (put32 (V (addr_of x NDIRECT)) (4 * j) a)) k =
  if decide (k = NDIRECT + j) then a else fblock x V k.
Proof.
  intros Hf Hne Hj Hk Ha. pose proof (db_len _ _ _ _ (fo_ind _ _ _ _ Hf Hne)) as Hl.
  change NINDIRECT with 128 in *. change BSIZE with 512 in *. change MAXFILE with 140 in *.
  unfold fblock. destruct (Z.ltb_spec k NDIRECT) as [Hlt|Hge]; [by rewrite decide_False by lia|].
  rewrite (proj2 (Z.eqb_neq _ 0)) by done. rewrite upd_block_eq. change NDIRECT with 12 in *. case_decide as E.
  - subst. replace (4 * (12 + j - 12)) with (4 * j) by lia. rewrite get32_put32_eq by lia. by apply u32_small.
  - apply get32_put32_ne; lia.
Qed.

(** ** Free blocks *)

(** At least [m] blocks are free. *)
Definition nfree s (V : Z -> list Z) (m : nat) : Prop :=
  exists fl, NoDup fl /\ (m <= length fl)%nat /\
    forall b, b ∈ fl -> 0 <= b < sb_size (k_sb s) /\ used (k_sb s) V b = false.

Lemma nfree_le s V m m' : nfree s V m -> (m' <= m)%nat -> nfree s V m'.
Proof. intros (fl & ? & ? & ?) ?. exists fl. split; [done|]. split; [lia|done]. Qed.

Lemma nfree_same s s' V m : k_sb s' = k_sb s -> nfree s V m -> nfree s' V m.
Proof. intros E. unfold nfree. by rewrite E. Qed.

Lemma nfree_alloc s d V a m : map_ok s d V -> 0 <= a < sb_size (k_sb s) -> used (k_sb s) V a = false ->
  nfree s V (S m) -> nfree s (alloc_block (k_sb s) a V) m.
Proof.
  intros Hm Ha Hu (fl & Hnd & Hl & Hfl). exists (filter (fun b => b <> a) fl). split; [by apply NoDup_filter|]. split.
  - assert (length fl <= S (length (filter (fun b => b <> a) fl)))%nat; [|lia]. clear Hfl Hl.
    induction fl as [|b fl IH]; [cbn; lia|]. apply NoDup_cons in Hnd as [Hb Hnd]. rewrite filter_cons. case_decide as E; cbn [length].
    + specialize (IH Hnd). lia.
    + subst b. assert (filter (fun b => b <> a) fl = fl) as ->; [|lia].
      clear IH Hnd. induction fl as [|c fl IH]; [done|]. apply not_elem_of_cons in Hb as [? ?].
      rewrite filter_cons_True by done. by rewrite IH.
  - intros b [Hne Hb]%list_elem_of_filter. destruct (Hfl b Hb) as [Hr Hub]. split; [done|].
    rewrite (used_alloc d) by done. rewrite bool_decide_false by done. done.
Qed.

(** What an operation on one file leaves alone: blocks in use stay in use,
    and keep their contents unless [own] says otherwise. *)
Definition keeps s (V V' : Z -> list Z) (own : Z -> Prop) : Prop :=
  (forall n, 0 <= n < sb_size (k_sb s) -> used (k_sb s) V n = true -> used (k_sb s) V' n = true) /\
  forall n, (0 <= n < sb_size (k_sb s) -> used (k_sb s) V n = true) ->
    (forall b, 0 <= b < sb_size (k_sb s) -> BBLOCK b (k_sb s) <> n) -> ~ own n -> V' n = V n.

Lemma keeps_refl s V own : keeps s V V own.
Proof. by split. Qed.

Lemma keeps_trans s V1 V2 V3 own : keeps s V1 V2 own -> keeps s V2 V3 own -> keeps s V1 V3 own.
Proof.
  intros [H1 H2] [H3 H4]. split; [by intros; apply H3, H1|]. intros n Hu Hm Ho. rewrite H4; [by apply H2| |done|done].
  intros. apply H1; auto.
Qed.

Lemma keeps_alloc s d V a own : map_ok s d V -> 0 <= a < sb_size (k_sb s) -> used (k_sb s) V a = false ->
  keeps s V (alloc_block (k_sb s) a V) own.
Proof.
  intros Hm Ha Hu. split.
  - intros n Hn Hun. rewrite (used_alloc d) by done. by rewrite Hun, orb_true_r.
  - intros n Hun Hmap _. unfold alloc_block. rewrite !upd_block_ne; [done|by apply not_eq_sym, Hmap|].
    intros ->. rewrite Hun in Hu by done. done.
Qed.

(** The blocks of a file; those of [x'] are of [x] or were free. *)
Definition own_of (x : inode) (V : Z -> list Z) (n : Z) : Prop :=
  n = addr_of x NDIRECT \/ exists bn, 0 <= bn < MAXFILE /\ n = fblock x V bn.
Definition grows s (V : Z -> list Z) (x : inode) (V' : Z -> list Z) (x' : inode) : Prop :=
  forall n, own_of x' V' n -> own_of x V n \/ 0 <= n < sb_size (k_sb s) /\ used (k_sb s) V n = false.

Lemma grows_refl s V x : grows s V x V x.
Proof. intros n. by left. Qed.

Lemma grows_trans s V1 x1 V2 x2 V3 x3 own : keeps s V1 V2 own -> grows s V1 x1 V2 x2 -> grows s V2 x2 V3 x3 ->
  grows s V1 x1 V3 x3.
Proof.
  intros [K _] H1 H2 n Hn. destruct (H2 n Hn) as [Ho|[Hr Hu]]; [by apply H1|]. right. split; [done|].
  destruct (used (k_sb s) V1 n) eqn:E; [|done]. rewrite (K n Hr E) in Hu. done.
Qed.

(** The blocks of [x'] in its own contents, with [own] of the old ones. *)
Lemma keeps_grows s V1 x1 V2 x2 V3 : keeps s V1 V2 (own_of x1 V1) -> grows s V1 x1 V2 x2 ->
  keeps s V2 V3 (own_of x2 V2) -> keeps s V1 V3 (own_of x1 V1).
Proof.
  intros [K1 K2] Hg [K3 K4]. split; [by intros; apply K3, K1|]. intros n Hu Hm Ho.
  rewrite K4; [by apply K2|intros; apply K1; auto|done|].
  intros Hn. destruct (Hg n Hn) as [?|[Hr Hfr]]; [done|]. rewrite Hu in Hfr by done. done.
Qed.

Lemma keeps_weaken s V V' (own own' : Z -> Prop) : keeps s V V' own -> (forall n, own n -> own' n) -> keeps s V V' own'.
Proof. intros [K1 K2] Ho. split; [done|]. intros n Hu Hm Hn. apply K2; auto. Qed.

Section bmap.
Context (pid : Z) (d : logdev).
Implicit Types (s : kstate) (V : Z -> list Z) (H : list (nat * Z)) (L : list Z) (x : inode).

Lemma wp_balloc_free H V L k m Q s : tx s pid H V d L (2 + k) -> map_ok s d V -> held_ok s V H -> nfree s V (S m) ->
  (forall a s' L', 0 < a < sb_size (k_sb s) -> used (k_sb s) V a = false ->
     tx s' pid H (alloc_block (k_sb s) a V) d L' k -> map_ok s d (alloc_block (k_sb s) a V) ->
     nfree s (alloc_block (k_sb s) a V) m -> fs_step s s' -> Q a s') ->
  wp (balloc ROOTDEV) Q s.
Proof.
  intros Ht Hm Hh Hfree HQ. eapply wp_balloc; [exact Ht|done|done| |].
  { destruct Hfree as (fl & _ & Hl & Hfl). destruct fl as [|b fl]; [cbn in Hl; lia|]. exists b. apply Hfl. by left. }
  intros a s' Ha Hu Ht' St. assert (a <> 0) by (intros ->; rewrite (mo_boot _ _ _ Hm) in Hu by lia; done).
  eapply HQ; [lia|done|exact Ht'|by apply map_ok_alloc|by eapply nfree_alloc|done].
Qed.

(** What [bmap] achieves. *)
Record bmap_post s V x (bn : Z) (k m : nat) (a : Z) s' V' L' x' : Prop := {
  bp_tx : tx s' pid [] V' d L' k;
  bp_map : map_ok s' d V';
  bp_file : file_ok s' d V' x';
  bp_free : nfree s' V' m;
  bp_block : fblock x' V' bn = a /\ a <> 0;
  bp_data : forall bn', 0 <= bn' < MAXFILE -> fdata x' V' bn' = fdata x V bn';
  bp_inode : x' = set_i_addrs (i_addrs x') x;
  bp_keeps : keeps s V V' (fun n => n = addr_of x NDIRECT);
  bp_mono : forall bn', 0 <= bn' < MAXFILE -> fblock x V bn' <> 0 -> fblock x' V' bn' = fblock x V bn';
  bp_own : grows s V x V' x';
}.

Lemma held_ok_nil s V : held_ok s V [].
Proof. split; [cbn; lia|]. by intros ? ?%elem_of_nil. Qed.

Lemma set_addrs_eta x : x = set_i_addrs (i_addrs x) x.
Proof. by destruct x. Qed.

(** The block is there. *)
Lemma bmap_post_same s V x bn k k' m m' a s' L : (k <= k')%nat -> (m <= m')%nat -> tx s' pid [] V d L k' -> map_ok s d V ->
  file_ok s d V x -> nfree s V m' -> fblock x V bn = a -> a <> 0 -> fs_step s s' -> bmap_post s V x bn k m a s' V L x.
Proof.
  intros Hk Hmm Ht Hm Hf Hfree Hb Ha St. pose proof (fs_step_sb _ _ St) as E1. pose proof (fs_step_disksize _ _ St) as E2.
  split; try done.
  - by eapply tx_le.
  - by eapply map_ok_same.
  - by eapply file_ok_same.
  - eapply nfree_same; [done|]. by eapply nfree_le.
  - apply set_addrs_eta.
  - apply grows_refl.
Qed.

Lemma fresh_in_file s V x a : map_ok s d V -> file_ok s d V x -> 0 < a -> used (k_sb s) V a = false ->
  (forall k, 0 <= k < MAXFILE -> fblock x V k <> a) /\ addr_of x NDIRECT <> a.
Proof.
  intros Hm Hf Ha Hu. split.
  - intros k Hk E. assert (fblock x V k <> 0) as Hne by lia.
    pose proof (db_used _ _ _ _ (fo_block _ _ _ _ Hf k Hk Hne)) as Hu'. congruence.
  - intros E. assert (addr_of x NDIRECT <> 0) as Hne by lia.
    pose proof (db_used _ _ _ _ (fo_ind _ _ _ _ Hf Hne)) as Hu'. congruence.
Qed.

Lemma zlookup_addr x bn : length (i_addrs x) = Z.to_nat (NDIRECT + 1) -> 0 <= bn <= NDIRECT ->
  zlookup (i_addrs x) bn = Some (addr_of x bn).
Proof.
  intros Hl Hb. unfold addr_of. destruct (zlookup_is_Some (i_addrs x) bn) as [a ->]; [|done].
  rewrite Hl. unfold NDIRECT in *. lia.
Qed.

(** A direct block. *)
Lemma wp_bmap_direct i bn x V L k m Q s : tx s pid [] V d L (2 + k) -> map_ok s d V -> k_inode s !! i = Some x ->
  file_ok s d V x -> 0 <= bn < NDIRECT -> nfree s V (S m) ->
  (forall a s' V' L' x', bmap_post s V x bn k m a s' V' L' x' -> i_step s s' i x' -> Q a s') ->
  wp (bmap i bn) Q s.
Proof.
  intros Ht Hm Hx Hf Hbn Hfree HQ. unfold bmap. wp_step. eapply wp_get_inode; [done|].
  rewrite (proj2 (Z.ltb_lt _ _)) by lia. wp_step. eapply wp_the; [apply zlookup_addr; [apply Hf|lia]|].
  assert (fblock x V bn = addr_of x bn) as Eb by (unfold fblock; by rewrite (proj2 (Z.ltb_lt _ _)) by lia).
  destruct (Z.eqb_spec (addr_of x bn) 0) as [E0|Hne].
  - rewrite (fo_dev _ _ _ _ Hf). wp_step. eapply wp_balloc_free; [exact Ht|done|apply held_ok_nil|exact Hfree|].
    intros a s1 L1 Ha Hu Ht1 Hm1 Hfree1 St1. wp_step.
    eapply wp_upd_inode; [by rewrite (fs_step_inode _ _ St1)|]. wp_steps.
    pose proof (fs_step_sb _ _ St1) as E1. pose proof (fs_step_disksize _ _ St1) as E2.
    set (V1 := alloc_block (k_sb s) a V) in *. set (x1 := set_i_addrs _ x). set (s2 := set_k_inode _ s1).
    destruct (fresh_in_file s V x a Hm Hf ltac:(lia) Hu) as [Hfr1 Hfr2].
    destruct (alloc_new s d V a Hm Ha Hu) as [Hnew Hz]. fold V1 in Hnew, Hz.
    pose proof (fo_len _ _ _ _ Hf) as Hlen. change MAXFILE with 140 in *. change NDIRECT with 12 in *.
    assert (forall k, 0 <= k < MAXFILE -> fblock x1 V1 k = if decide (k = bn) then a else fblock x V k) as Hblk.
    { intros k' Hk'. unfold x1. rewrite fblock_direct by done. case_decide; [done|]. by apply (alloc_fblock s d). }
    apply (HQ a s2 V1 L1 x1).
    + split.
      * by apply tx_set_inode.
      * by eapply map_ok_same.
      * eapply (file_ok_same s); [done|done|]. eapply (file_ok_add s d V V1 x x1 bn a); try done.
        -- unfold x1. cbn. by rewrite length_zinsert.
        -- unfold x1. rewrite addr_of_insert by (rewrite Hlen; lia). by rewrite decide_False by (unfold NDIRECT in *; lia).
        -- intros. by apply alloc_data_block.
      * by eapply nfree_same.
      * rewrite Hblk by (change MAXFILE with 140; lia). rewrite decide_True by done. split; [done|lia].
      * intros k' Hk'. eapply (fdata_add s d V V1 x x1 bn a); try done; [change MAXFILE with 140; lia|by rewrite Eb|].
        intros. by apply (alloc_keeps s d).
      * unfold x1. by destruct x.
      * apply (keeps_alloc s d); [done|lia|done].
      * intros k' Hk' Hne. rewrite Hblk by done. rewrite decide_False; [done|]. intros ->. by rewrite Eb in Hne.
      * intros n [->|(k' & Hk' & ->)].
        -- left. left. unfold x1. rewrite addr_of_insert by (rewrite Hlen; lia). by rewrite decide_False by (unfold NDIRECT in *; lia).
        -- rewrite Hblk by done. case_decide; [right; split; [lia|done]|left; right; by exists k'].
    + unfold i_step, s2. destruct St1 as (bs & lru & ps & lg & -> & Hw & Ho). by exists bs, lru, ps, lg.
  - wp_steps. eapply (HQ _ s V L x); [|by apply i_step_fs; [apply fs_step_refl|]].
    eapply bmap_post_same; [| |exact Ht|done|done|exact Hfree|done|done|apply fs_step_refl]; lia.
Qed.
(** The indirect block of the file. *)
Record ind_post s V x (k m : nat) (a : Z) s' V' L' x' : Prop := {
  ip_tx : tx s' pid [] V' d L' k;
  ip_map : map_ok s' d V';
  ip_file : file_ok s' d V' x';
  ip_free : nfree s' V' m;
  ip_ind : addr_of x' NDIRECT = a /\ a <> 0;
  ip_block : forall bn, 0 <= bn < MAXFILE -> fblock x' V' bn = fblock x V bn;
  ip_data : forall bn, 0 <= bn < MAXFILE -> fdata x' V' bn = fdata x V bn;
  ip_inode : x' = set_i_addrs (i_addrs x') x;
  ip_keeps : keeps s V V' (fun n => n = addr_of x NDIRECT);
  ip_old : addr_of x NDIRECT <> 0 -> a = addr_of x NDIRECT;
  ip_own : grows s V x V' x';
  ip_fresh : addr_of x NDIRECT = 0 -> 0 <= a < sb_size (k_sb s) /\ used (k_sb s) V a = false;
}.

Lemma wp_indirect i x V L k m Q s : tx s pid [] V d L (2 + k) -> map_ok s d V -> k_inode s !! i = Some x ->
  file_ok s d V x -> nfree s V (S m) ->
  (forall a s' V' L' x', ind_post s V x k m a s' V' L' x' -> i_step s s' i x' -> Q a s') ->
  wp (if addr_of x NDIRECT =? 0 then
        addr ← balloc (i_dev x);
        upd_inode i (fun x => set_i_addrs (zinsert NDIRECT addr (i_addrs x)) x);;
        mret addr
      else mret (addr_of x NDIRECT)) Q s.
Proof.
  intros Ht Hm Hx Hf Hfree HQ. destruct (Z.eqb_spec (addr_of x NDIRECT) 0) as [E0|Hne].
  - rewrite (fo_dev _ _ _ _ Hf). wp_step. eapply wp_balloc_free; [exact Ht|done|apply held_ok_nil|exact Hfree|].
    intros a s1 L1 Ha Hu Ht1 Hm1 Hfree1 St1. wp_step.
    eapply wp_upd_inode; [by rewrite (fs_step_inode _ _ St1)|]. wp_steps.
    pose proof (fs_step_sb _ _ St1) as E1. pose proof (fs_step_disksize _ _ St1) as E2.
    set (V1 := alloc_block (k_sb s) a V) in *. set (x1 := set_i_addrs _ x). set (s2 := set_k_inode _ s1).
    destruct (fresh_in_file s V x a Hm Hf ltac:(lia) Hu) as [Hfr1 Hfr2].
    destruct (alloc_new s d V a Hm Ha Hu) as [Hnew Hz]. fold V1 in Hnew, Hz.
    pose proof (fo_len _ _ _ _ Hf) as Hlen.
    assert (addr_of x1 NDIRECT = a) as Ei.
    { unfold x1. rewrite addr_of_insert by (rewrite Hlen; unfold NDIRECT; lia). by rewrite decide_True. }
    assert (forall k, fblock x1 V1 k = fblock x V k) as Hblk.
    { intros k'. unfold x1. rewrite fblock_indirect by done. by apply (alloc_fblock s d). }
    assert (file_ok s d V1 x1) as Hf1.
    { pose proof (alloc_file_ok s d V x a Hm Hf Ha Hu) as [H1 H2 H3 H4 H5 H6].
      pose proof (alloc_fblock s d V x a Hf Ha Hu) as Ef. fold V1 in H3, H4, H5, H6, Ef.
      split; rewrite ?Ei; [done|unfold x1; cbn [i_addrs set_i_addrs]; by rewrite length_zinsert|..]; intros *; rewrite ?Hblk, <-?Ef; auto.
      intros Hbn Hn. rewrite Ef. by apply Hfr1. }
    apply (HQ a s2 V1 L1 x1).
    + split; try done.
      * by apply tx_set_inode.
      * by eapply map_ok_same.
      * by eapply (file_ok_same s).
      * by eapply nfree_same.
      * split; [done|lia].
      * intros k' Hk'. unfold fdata. rewrite Hblk. destruct (Z.eqb_spec (fblock x V k') 0); [done|].
        apply (alloc_keeps s d); [done..|]. by apply (fo_block _ _ _ _ Hf).
      * apply (keeps_alloc s d); [done|lia|done].
      * intros n [->|(k' & Hk' & ->)]; [right; rewrite Ei; split; [lia|done]|].
        left. right. exists k'. by rewrite Hblk.
      * intros _. split; [lia|done].
    + unfold i_step, s2. destruct St1 as (bs & lru & ps & lg & -> & Hw & Ho). by exists bs, lru, ps, lg.
  - wp_steps. eapply (HQ _ s V L x); [|by apply i_step_fs; [apply fs_step_refl|]].
    split; try done.
    + eapply tx_le; [done|lia].
    + eapply nfree_le; [done|lia].
    + apply set_addrs_eta.
    + apply grows_refl.
Qed.
(** Writing an entry of the indirect block. *)
Lemma upd_ind_used s V x l n : map_ok s d V -> file_ok s d V x -> addr_of x NDIRECT <> 0 ->
  0 <= n < sb_size (k_sb s) -> used (k_sb s) (upd_block V (addr_of x NDIRECT) l) n = used (k_sb s) V n.
Proof.
  intros Hm Hf Hne Hn. unfold used. rewrite upd_block_ne; [done|].
  by apply (db_map _ _ _ _ (fo_ind _ _ _ _ Hf Hne)).
Qed.

Lemma upd_ind_data s V x l n : map_ok s d V -> file_ok s d V x -> addr_of x NDIRECT <> 0 ->
  length l = Z.to_nat BSIZE -> data_block s d V n -> data_block s d (upd_block V (addr_of x NDIRECT) l) n.
Proof.
  intros Hm Hf Hne Hl [H1 H2 H3 H4 H5]. split; try done.
  - rewrite upd_ind_used; [done..|lia].
  - unfold upd_block. by case_decide.
Qed.

Lemma upd_ind_map s V x l : map_ok s d V -> file_ok s d V x -> addr_of x NDIRECT <> 0 ->
  map_ok s d (upd_block V (addr_of x NDIRECT) l).
Proof.
  intros Hm Hf Hne. pose proof (fun n => upd_ind_used s V x l n Hm Hf Hne) as Hu.
  pose proof (db_map _ _ _ _ (fo_ind _ _ _ _ Hf Hne)) as Hmap. destruct Hm as [H1 H2 H3 H4 H5 H6]. split; try done.
  - intros b Hb. rewrite upd_block_ne by (by apply Hmap). by apply H3.
  - intros b Hb. rewrite Hu by done. by apply H4.
  - intros H0. rewrite Hu by lia. by apply H6.
Qed.

Lemma wp_bmap_entry x V L j k m Q s : tx s pid [] V d L (3 + k) -> map_ok s d V -> file_ok s d V x ->
  addr_of x NDIRECT <> 0 -> 0 <= j < NINDIRECT -> nfree s V (S m) ->
  (forall a s' V' L', bmap_post s V x (NDIRECT + j) k m a s' V' L' x -> fs_step s s' -> Q a s') ->
  wp (bp ← bread ROOTDEV (addr_of x NDIRECT);
      buf ← get_buf bp;
      let addr := get32 (b_data buf) (4 * j) in
      addr ← (if addr =? 0 then
                addr ← balloc ROOTDEV;
                upd_data bp (fun l => put32 l (4 * j) addr);;
                log_write bp;;
                mret addr
              else mret addr);
      brelse bp;;
      mret addr) Q s.
Proof.
  intros Ht Hm Hf Hne Hj Hfree HQ. set (ind := addr_of x NDIRECT) in *.
  pose proof (fo_ind _ _ _ _ Hf Hne) as Hdb. fold ind in Hdb.
  assert (fblock x V (NDIRECT + j) = get32 (V ind) (4 * j)) as Eb.
  { unfold fblock. fold ind. change NDIRECT with 12. rewrite (proj2 (Z.ltb_ge _ _)), (proj2 (Z.eqb_neq _ 0)) by lia || done.
    f_equal. lia. }
  wp_step. eapply (wp_tx_bread pid d ind); [exact Ht|apply not_elem_of_nil|cbn; lia|apply (db_home _ _ _ _ Hdb)|].
  intros bp s1 Ht1 St1 _ Hset. assert ((bp, ind) ∈ [(bp, ind)]) as Hin by (by left).
  wp_step. eapply wp_tx_get; [exact Ht1|exact Hin|]. intros buf Hbuf. rewrite Hbuf. cbn zeta. rewrite <-Eb.
  assert (drop_held bp [(bp, ind)] = []) as Ednil by (apply drop_held_cons, not_elem_of_nil).
  destruct (Z.eqb_spec (fblock x V (NDIRECT + j)) 0) as [E0|Hb].
  - pose proof (fs_step_sb _ _ St1) as Esb.
    assert (held_ok s1 V [(bp, ind)]) as Hh.
    { split; [cbn; lia|]. intros n Hn%list_elem_of_singleton. cbn in Hn. subst n. rewrite Esb.
      split; [intros _; apply Hdb|apply Hdb]. }
    wp_step. wp_step. eapply (wp_balloc_free _ _ _ (1 + k)); [exact Ht1|by eapply map_ok_step|done|by eapply nfree_same|].
    rewrite Esb. intros a s2 L2 Ha Hu Ht2 Hm2' Hfree2' St2. set (V2 := alloc_block (k_sb s) a V) in *.
    assert (fs_step s s2) as St12 by (by eapply fs_step_trans).
    pose proof (map_ok_alloc d s V a Hm ltac:(lia) Hu) as Hm2. fold V2 in Hm2. clear Hm2'.
    pose proof (nfree_alloc s d V a m Hm ltac:(lia) Hu Hfree) as Hfree2. fold V2 in Hfree2. clear Hfree2'.
    pose proof (alloc_file_ok s d V x a Hm Hf Ha Hu) as Hf2. fold V2 in Hf2.
    destruct (alloc_new s d V a Hm Ha Hu) as [Hnew Hz]. fold V2 in Hnew, Hz.
    destruct (fresh_in_file s V x a Hm Hf ltac:(lia) Hu) as [Hfr1 Hfr2]. fold ind in Hfr2.
    pose proof (alloc_fblock s d V x a Hf Ha Hu) as Ef2. fold V2 in Ef2.
    assert (V2 ind = V ind) as EVi by (by apply (alloc_keeps s d)).
    wp_step. eapply wp_tx_upd; [exact Ht2|exact Hin| |].
    { intros E. apply (proj1 (db_home _ _ _ _ Hdb)). rewrite E. pose proof (mo_log _ _ _ Hm). unfold in_log. lia. }
    intros s3 Ht3 St3. set (V3 := upd_block V2 ind (put32 (V2 ind) (4 * j) a)) in *.
    assert (fs_step s s3) as St13 by (by eapply fs_step_trans).
    wp_step. eapply wp_tx_log_write; [exact Ht3|exact Hin|by eapply step_home, Hdb|]. intros s4 Ht4 St4.
    assert (length (put32 (V2 ind) (4 * j) a) = Z.to_nat BSIZE) as Hl3 by (rewrite length_put32, EVi; apply Hdb).
    wp_steps. eapply wp_tx_brelse; [exact Ht4|exact Hin|left|].
    { unfold logged. case_decide; [done|]. apply elem_of_app. right. by left. }
    intros s5 Ht5 St5. rewrite Ednil in Ht5. wp_steps.
    assert (fs_step s s5) as St by (eapply fs_step_trans; [exact St13|]; by eapply fs_step_trans).
    pose proof (fs_step_sb _ _ St) as E1. pose proof (fs_step_disksize _ _ St) as E2.
    assert (forall k, 0 <= k < MAXFILE -> fblock x V3 k = if decide (k = NDIRECT + j) then a else fblock x V k) as Hblk.
    { intros k' Hk'. unfold V3, ind. rewrite (fblock_entry s d) by (done || (pose proof (mo_size _ _ _ Hm); lia)).
      case_decide; [done|]. apply Ef2. }
    eapply HQ; [|exact St]. split; try exact Ht5.
    + eapply map_ok_same; [done|done|]. by apply upd_ind_map.
    + eapply (file_ok_same s); [done|done|]. eapply (file_ok_add s d V V3 x x (NDIRECT + j) a); try done.
      * intros n Hn. apply upd_ind_data; try done. by apply alloc_data_block.
      * by apply upd_ind_data.
    + eapply nfree_same; [done|]. destruct Hfree2 as (fl & ? & ? & Hfl). exists fl. split; [done|]. split; [done|].
      intros b Hb. destruct (Hfl b Hb). split; [done|]. unfold V3, ind. by rewrite upd_ind_used.
    + rewrite Hblk by (change MAXFILE with 140; change NDIRECT with 12; change NINDIRECT with 128 in *; lia).
      rewrite decide_True by done. split; [done|lia].
    + intros k' Hk'. eapply (fdata_add s d V V3 x x (NDIRECT + j) a); try done.
      * change MAXFILE with 140; change NDIRECT with 12; change NINDIRECT with 128 in *; lia.
      * unfold V3. rewrite upd_block_ne by congruence. done.
      * intros n Hn Hni. unfold V3. rewrite upd_block_ne by done. by apply (alloc_keeps s d).
    + apply set_addrs_eta.
    + destruct (keeps_alloc s d V a (fun n => n = addr_of x NDIRECT) Hm ltac:(lia) Hu) as [K1 K2]. fold V2 in K1, K2. split.
      * intros n Hn Hun. unfold V3, ind. rewrite upd_ind_used by done. by apply K1.
      * intros n Hn Hmap Hown. unfold V3. rewrite upd_block_ne by done. by apply K2.
    + intros k' Hk' Hn. rewrite Hblk by done. rewrite decide_False; [done|]. by intros ->.
    + intros n [->|(k' & Hk' & ->)]; [by left; left|].
      rewrite Hblk by done. case_decide; [right; split; [lia|done]|left; right; by exists k'].
  - wp_steps. eapply wp_tx_brelse; [exact Ht1|exact Hin|exact Hset|]. intros s2 Ht2 St2. rewrite Ednil in Ht2. wp_steps.
    eapply HQ; [|by eapply fs_step_trans].
    eapply bmap_post_same; [| |exact Ht2|done|done|exact Hfree|done|done|by eapply fs_step_trans]; lia.
Qed.
Lemma wp_bmap i bn x V L k m Q s : tx s pid [] V d L (5 + k) -> map_ok s d V -> k_inode s !! i = Some x ->
  file_ok s d V x -> 0 <= bn < MAXFILE -> nfree s V (2 + m) ->
  (forall a s' V' L' x', bmap_post s V x bn k m a s' V' L' x' -> i_step s s' i x' -> Q a s') ->
  wp (bmap i bn) Q s.
Proof.
  intros Ht Hm Hx Hf Hbn Hfree HQ. destruct (decide (bn < NDIRECT)) as [Hlt|Hge].
  { eapply (wp_bmap_direct i bn x V L k m); try done; [eapply tx_le; [done|lia]|lia|eapply nfree_le; [done|lia]]. }
  assert (0 <= bn - NDIRECT < NINDIRECT) as Hj by (change MAXFILE with (NDIRECT + NINDIRECT) in Hbn; lia).
  unfold bmap. wp_step. eapply wp_get_inode; [done|]. rewrite (proj2 (Z.ltb_ge bn _)) by lia. cbn zeta.
  rewrite (proj2 (Z.ltb_lt _ NINDIRECT)) by lia. wp_step.
  eapply wp_the; [apply zlookup_addr; [apply Hf|unfold NDIRECT; lia]|]. wp_step.
  eapply (wp_indirect i x V L (3 + k) (S m)); [done..|]. intros a s1 V1 L1 x1 [H1 H2 H3 H4 [H5 Ha] H6 H7 H8 H9 H10 H12 H11] St1.
  destruct (i_step_same _ _ _ _ St1) as (Esb & Eds & _). rewrite (fo_dev _ _ _ _ Hf), <-H5.
  eapply (wp_bmap_entry x1 V1 L1 (bn - NDIRECT) k m); [done..|by rewrite H5|done|done|].
  intros a2 s2 V2 L2 [B1 B2 B3 B4 B5 B6 B7 B8 B9 B10] St2. replace (NDIRECT + (bn - NDIRECT)) with bn in B5 by lia.
  eapply (HQ a2 s2 V2 L2 x1); [|by eapply i_step_fs_r]. split; try done.
  - intros k' Hk'. rewrite B6 by done. by apply H7.
  - destruct H9 as [K1 K2], B8 as [K3 K4]. rewrite Esb in K3, K4. split; [by intros; apply K3, K1|].
    intros n Hu Hmap Hown. rewrite K4; [by apply K2| |done|].
    + intros. apply K1; auto.
    + rewrite H5. intros ->. destruct (decide (addr_of x NDIRECT = 0)) as [E|E]; [|by apply Hown, H10].
      destruct (H11 E) as [? Hfr]. rewrite Hu in Hfr by done. done.
  - intros k' Hk' Hn. rewrite B9 by (done || by rewrite H6). by apply H6.
  - eapply (grows_trans s V x V1 x1); [exact H9|exact H12|]. unfold grows in *. by rewrite Esb in B10.
Qed.
End bmap.

(** ** Bytes of a file *)

Definition fbyte (x : inode) (V : Z -> list Z) (off : Z) : Z := nth (Z.to_nat (off mod BSIZE)) (fdata x V (off / BSIZE)) 0.
Definition frange (x : inode) (V : Z -> list Z) (off n : Z) : list Z := (fun i => fbyte x V (off + i)) <$> seqZ 0 n.

Lemma length_frange x V off n : length (frange x V off n) = Z.to_nat n.
Proof. unfold frange. by rewrite length_fmap, length_seqZ. Qed.

Lemma seqZ_split n m : 0 <= n -> 0 <= m -> seqZ 0 (n + m) = seqZ 0 n ++ ((fun i => n + i) <$> seqZ 0 m).
Proof.
  intros Hn Hm. rewrite seqZ_app by done. f_equal. rewrite Z.add_0_l. apply list_eq. intros i.
  rewrite list_lookup_fmap. destruct (decide (Z.of_nat i < m)).
  - rewrite !lookup_seqZ_lt by lia. cbn. f_equal; lia.
  - rewrite !lookup_seqZ_ge by lia. done.
Qed.

Lemma frange_app x V off n m : 0 <= n -> 0 <= m -> frange x V off (n + m) = frange x V off n ++ frange x V (off + n) m.
Proof.
  intros Hn Hm. unfold frange. rewrite seqZ_split, fmap_app by done. f_equal. rewrite <-list_fmap_compose.
  apply list_fmap_ext. intros i y _. cbn. f_equal. lia.
Qed.

(** A piece inside one block. *)
Lemma frange_block x V off m l : 0 <= off -> 0 <= m -> off mod BSIZE + m <= BSIZE ->
  fdata x V (off / BSIZE) = l -> length l = Z.to_nat BSIZE ->
  frange x V off m = take (Z.to_nat m) (drop (Z.to_nat (off mod BSIZE)) l).
Proof.
  intros Ho Hm Hb Hl Hlen. apply list_eq. intros i. unfold frange. rewrite list_lookup_fmap.
  destruct (decide (Z.of_nat i < m)) as [Hi|Hi].
  - rewrite lookup_seqZ_lt by lia. cbn. rewrite lookup_take_lt, lookup_drop by lia. unfold fbyte.
    change BSIZE with 512 in *. replace ((off + (0 + Z.of_nat i)) / 512) with (off / 512) by zdiv. rewrite Hl.
    replace (Z.to_nat ((off + (0 + Z.of_nat i)) mod 512)) with (Z.to_nat (off mod 512) + i)%nat by zdiv.
    assert (Z.to_nat (off mod 512) + i < length l)%nat as Hlt by (rewrite Hlen; zdiv).
    destruct (lookup_lt_is_Some_2 l _ Hlt) as [y Hy]. rewrite Hy. f_equal. by apply nth_lookup_Some.
  - rewrite lookup_seqZ_ge by lia. rewrite lookup_ge_None_2; [done|]. rewrite length_take. lia.
Qed.

Section read.
Context (pid : Z) (d : logdev) {DV : Devsw}.
Implicit Types (s : kstate) (V : Z -> list Z) (L : list Z) (x : inode).

(** [bmap] of a block that is there changes nothing. *)
Lemma wp_bmap_read i bn x V L k Q s : tx s pid [] V d L k -> k_inode s !! i = Some x -> file_ok s d V x ->
  0 <= bn < MAXFILE -> fblock x V bn <> 0 ->
  (forall s', tx s' pid [] V d L k -> fs_step s s' -> Q (fblock x V bn) s') -> wp (bmap i bn) Q s.
Proof.
  intros Ht Hx Hf Hbn Hne HQ. unfold bmap. wp_step. eapply wp_get_inode; [done|].
  unfold fblock in Hne. destruct (Z.ltb_spec bn NDIRECT) as [Hlt|Hge].
  - wp_step. eapply wp_the; [apply zlookup_addr; [apply Hf|lia]|]. rewrite (proj2 (Z.eqb_neq _ 0)) by done. wp_steps.
    specialize (HQ s Ht (fs_step_refl s)). unfold fblock in HQ. by rewrite (proj2 (Z.ltb_lt _ _)) in HQ.
  - assert (bn - NDIRECT < NINDIRECT) as Hj by (change MAXFILE with (NDIRECT + NINDIRECT) in Hbn; lia). cbn zeta.
    rewrite (proj2 (Z.ltb_lt _ NINDIRECT)) by lia. wp_step.
    eapply wp_the; [apply zlookup_addr; [apply Hf|unfold NDIRECT; lia]|].
    destruct (Z.eqb_spec (addr_of x NDIRECT) 0) as [|Hi]; [done|]. wp_steps. rewrite (fo_dev _ _ _ _ Hf).
    pose proof (fo_ind _ _ _ _ Hf Hi) as Hdb.
    eapply wp_tx_bread; [exact Ht|apply not_elem_of_nil|cbn; lia|apply (db_home _ _ _ _ Hdb)|].
    intros bp s1 Ht1 St1 _ Hset. wp_step. eapply wp_tx_get; [exact Ht1|by left|]. intros buf ->. cbn zeta.
    rewrite (proj2 (Z.eqb_neq _ 0)) by done. wp_steps. eapply wp_tx_brelse; [exact Ht1|by left|exact Hset|].
    intros s2 Ht2 St2. rewrite drop_held_cons in Ht2 by apply not_elem_of_nil. wp_steps.
    specialize (HQ s2 Ht2 (fs_step_trans _ _ _ St1 St2)). unfold fblock in HQ.
    by rewrite (proj2 (Z.ltb_ge _ _)), (proj2 (Z.eqb_neq (addr_of x NDIRECT) 0)) in HQ.
Qed.

(** The iterations that are left at offset [off + tot] of a transfer. *)
Definition pieces_left (off n tot : Z) : nat :=
  if tot <? n then Z.to_nat ((off + n - 1) / BSIZE - (off + tot) / BSIZE + 1) else 0%nat.

Lemma pieces_left_dec off n tot : 0 <= off -> 0 <= tot < n ->
  let m := piece (off + tot) (n - tot) in
  0 < m /\ tot + m <= n /\ (off + tot) mod BSIZE + m <= BSIZE /\ (pieces_left off n (tot + m) < pieces_left off n tot)%nat.
Proof.
  intros Ho Ht m. unfold m, piece, pieces_left. change BSIZE with 512.
  rewrite (proj2 (Z.ltb_lt tot n)) by lia. destruct (Z.ltb_spec (tot + Z.min (n - tot) (512 - (off + tot) mod 512)) n);
    split_and!; zdiv.
Qed.

Lemma pieces_left_start off n : 0 <= off -> 0 <= n -> (pieces_left off n 0 < Z.to_nat (n / BSIZE + 3))%nat.
Proof. intros. unfold pieces_left. change BSIZE with 512. rewrite Z.add_0_r. case_if; zdiv. Qed.

(** [readi] of a range whose blocks are there. *)
Lemma wp_readi i off n x V L k Q s : tx s pid [] V d L k -> k_inode s !! i = Some x -> file_ok s d V x ->
  i_type x <> T_DEV -> 0 <= off <= i_size x -> 0 <= n -> off + n < two32 -> i_size x <= MAXFILE * BSIZE ->
  (forall bn, 0 <= bn < MAXFILE -> bn * BSIZE < i_size x -> fblock x V bn <> 0) ->
  (let n' := Z.min n (i_size x - off) in
   forall s', tx s' pid [] V d L k -> fs_step s s' -> Q (n', frange x V off n') s') ->
  wp (readi i off n) Q s.
Proof.
  intros Ht Hx Hf Hty Hoff Hn Hov Hmax Hall HQ. unfold readi. wp_step. eapply wp_get_inode; [done|].
  rewrite (proj2 (Z.eqb_neq _ _)) by done. rewrite (proj2 (Z.ltb_ge _ _)) by lia.
  rewrite u32_small by lia. rewrite (proj2 (Z.ltb_ge _ _)) by lia. cbn [orb].
  assert ((if i_size x <? off + n then u32 (i_size x - off) else n) = Z.min n (i_size x - off)) as ->.
  { case_if; [rewrite u32_small by (unfold two32 in *; lia)|]; lia. }
  set (n' := Z.min n (i_size x - off)) in *. cbn zeta. assert (0 <= n' /\ off + n' <= i_size x) as [Hn' Hend] by lia.
  wp_step. apply (wp_while _ (fun '(tot, o, l) s' => 0 <= tot <= n' /\ o = off + tot /\ l = frange x V off tot /\
    tx s' pid [] V d L k /\ fs_step s s') (fun '(tot, _, _) => pieces_left off n' tot)).
  - intros [[tot o] l] s1 (Htot & -> & -> & Ht1 & St1). destruct (Z.ltb_spec tot n') as [Hlt|Hge].
    + destruct (pieces_left_dec off n' tot ltac:(lia) ltac:(lia)) as (Hm0 & Hm1 & Hm2 & Hdec). cbn zeta.
      set (m := piece (off + tot) (n' - tot)) in *.
      assert (0 <= (off + tot) / BSIZE < MAXFILE) as Hbn by (change BSIZE with 512 in *; change MAXFILE with 140 in *; zdiv).
      assert (fblock x V ((off + tot) / BSIZE) <> 0) as Hne by (apply Hall; [done|]; change BSIZE with 512 in *; zdiv).
      pose proof (fs_step_sb _ _ St1) as E1. pose proof (fs_step_disksize _ _ St1) as E2.
      assert (file_ok s1 d V x) as Hf1 by (by eapply file_ok_same).
      wp_step. eapply wp_bmap_read; [exact Ht1|by rewrite (fs_step_inode _ _ St1)|exact Hf1|done|done|].
      intros s2 Ht2 St2. assert (fs_step s s2) as St12 by (by eapply fs_step_trans).
      pose proof (fo_block _ _ _ _ Hf _ Hbn Hne) as Hdb. rewrite (fo_dev _ _ _ _ Hf).
      wp_step. eapply wp_tx_bread; [exact Ht2|apply not_elem_of_nil|cbn; lia| |].
      { rewrite (fs_step_disksize _ _ St12). apply (db_home _ _ _ _ Hdb). }
      intros bp s3 Ht3 St3 _ Hset. wp_step. eapply wp_tx_get; [exact Ht3|by left|]. intros buf ->.
      wp_step. eapply wp_tx_brelse; [exact Ht3|by left|exact Hset|]. intros s4 Ht4 St4.
      rewrite drop_held_cons in Ht4 by apply not_elem_of_nil. wp_steps. split_and!; try done; try lia.
      * rewrite frange_app by lia. f_equal. symmetry. apply frange_block; [lia|lia|done| |apply Hdb].
        unfold fdata. by rewrite (proj2 (Z.eqb_neq _ 0)).
      * eapply fs_step_trans; [exact St12|]. by eapply fs_step_trans.
    + wp_steps. assert (tot = n') as -> by lia. by apply HQ.
  - by apply pieces_left_start; lia.
  - split_and!; try done; try lia. apply fs_step_refl.
Qed.
End read.

(** ** Writing to a block of the file *)

Section upd.
Context (s : kstate) (d : logdev) (V : Z -> list Z) (x : inode) (bn : Z) (l : list Z).
Context (Hm : map_ok s d V) (Hf : file_ok s d V x) (Hbn : 0 <= bn < MAXFILE) (Hne : fblock x V bn <> 0).
Context (Hl : length l = Z.to_nat BSIZE).

Let a : Z := fblock x V bn.
Let V' : Z -> list Z := upd_block V a l.

Lemma upd_file_used n : 0 <= n < sb_size (k_sb s) -> used (k_sb s) V' n = used (k_sb s) V n.
Proof.
  intros Hn. unfold used, V'. rewrite upd_block_ne; [done|].
  by apply (db_map _ _ _ _ (fo_block _ _ _ _ Hf bn Hbn Hne)).
Qed.

Lemma upd_file_map : map_ok s d V'.
Proof.
  pose proof upd_file_used as Hu. pose proof (db_map _ _ _ _ (fo_block _ _ _ _ Hf bn Hbn Hne)) as Hmap.
  destruct Hm as [H1 H2 H3 H4 H5 H6]. split; try done.
  - intros b Hb. unfold V'. rewrite upd_block_ne by (by apply Hmap). by apply H3.
  - intros b Hb. rewrite Hu by done. by apply H4.
  - intros H0. rewrite Hu by lia. by apply H6.
Qed.

Lemma upd_file_fblock k : fblock x V' k = fblock x V k.
Proof.
  unfold fblock. case_if; [done|]. case_if; [done|]. unfold V'. rewrite upd_block_ne; [done|].
  apply not_eq_sym. by apply (fo_ind_ne _ _ _ _ Hf bn).
Qed.

Lemma upd_file_data n : data_block s d V n -> data_block s d V' n.
Proof.
  intros [H1 H2 H3 H4 H5]. split; try done.
  - rewrite upd_file_used; [done|lia].
  - unfold V', upd_block. by case_decide.
Qed.

Lemma upd_file_ok : file_ok s d V' x.
Proof.
  destruct Hf as [H1 H2 H3 H4 H5 H6]. split; try done; intros *; rewrite ?upd_file_fblock; auto using upd_file_data.
Qed.

Lemma upd_file_fdata k : 0 <= k < MAXFILE -> fdata x V' k = if decide (k = bn) then l else fdata x V k.
Proof.
  intros Hk. unfold fdata. rewrite upd_file_fblock. case_decide as E.
  - subst k. rewrite (proj2 (Z.eqb_neq _ 0)) by done. apply upd_block_eq.
  - destruct (Z.eqb_spec (fblock x V k) 0); [done|]. unfold V'. rewrite upd_block_ne; [done|].
    intros Ek. apply E. by eapply (fo_inj _ _ _ _ Hf).
Qed.

Lemma upd_file_keeps : keeps s V V' (own_of x V) /\ grows s V x V' x.
Proof.
  split; [split|].
  - intros n Hn. by rewrite upd_file_used.
  - intros n _ _ Ho. unfold V'. rewrite upd_block_ne; [done|]. intros ->. apply Ho. right. by exists bn.
  - intros n [->|(k & Hk & ->)]; left; [by left|right]. exists k. by rewrite upd_file_fblock.
Qed.

Lemma upd_file_nfree m : nfree s V m -> nfree s V' m.
Proof.
  intros (fl & ? & ? & Hfl). exists fl. split; [done|]. split; [done|]. intros b Hb. destruct (Hfl b Hb).
  split; [done|]. by rewrite upd_file_used.
Qed.
End upd.

(** The bytes of the file when block [off / BSIZE] gets [part] at [off]. *)
Lemma fbyte_upd x V x' V' off part o : 0 <= off -> 0 <= o -> off mod BSIZE + Z.of_nat (length part) <= BSIZE ->
  0 <= off / BSIZE < MAXFILE -> 0 <= o / BSIZE < MAXFILE ->
  length (fdata x V (off / BSIZE)) = Z.to_nat BSIZE ->
  (forall k, 0 <= k < MAXFILE -> fdata x' V' k = if decide (k = off / BSIZE)
     then (let l := fdata x V (off / BSIZE) in let p := Z.to_nat (off mod BSIZE) in
           take p l ++ part ++ drop (p + length part) l)
     else fdata x V k) ->
  fbyte x' V' o = if decide (off <= o < off + Z.of_nat (length part)) then nth (Z.to_nat (o - off)) part 0 else fbyte x V o.
Proof.
  intros Ho Ho2 Hb Hbn Hbn2 Hlen Hd. unfold fbyte. rewrite Hd by done. cbn zeta.
  set (l := fdata x V (off / BSIZE)) in *. change BSIZE with 512 in *. case_decide as E.
  - assert (length (take (Z.to_nat (off mod 512)) l) = Z.to_nat (off mod 512)) as Ht by (rewrite length_take, Hlen; zdiv).
    destruct (decide (o mod 512 < off mod 512)) as [Hlt|Hge].
    + rewrite app_nth1 by (rewrite Ht; zdiv). rewrite decide_False by zdiv. rewrite E. fold l.
      rewrite !nth_lookup, lookup_take_lt by zdiv. done.
    + rewrite app_nth2 by (rewrite Ht; zdiv). rewrite Ht.
      destruct (decide (o mod 512 < off mod 512 + Z.of_nat (length part))) as [Hlt2|Hge2].
      * rewrite app_nth1 by zdiv. rewrite decide_True by zdiv. f_equal. zdiv.
      * rewrite app_nth2 by zdiv. rewrite decide_False by zdiv. rewrite E. fold l. rewrite !nth_lookup, lookup_drop.
        do 2 f_equal. zdiv.
  - rewrite decide_False; [done|]. zdiv.
Qed.

(** ** Writing the inode *)

Definition iblock s (x : inode) : Z := IBLOCK (i_inum x) (k_sb s).

(** The block of the inode on disk is in use, and not by the file itself. *)
Record iblock_ok s (d : logdev) (V : Z -> list Z) (x : inode) : Prop := {
  ib_home : home d s (iblock s x);
  ib_used : 0 <= iblock s x < sb_size (k_sb s) -> used (k_sb s) V (iblock s x) = true;
  ib_map : forall b, 0 <= b < sb_size (k_sb s) -> BBLOCK b (k_sb s) <> iblock s x;
  ib_own : ~ own_of x V (iblock s x);
}.

Lemma iblock_ok_grows s d V x V' x' own : iblock_ok s d V x -> i_inum x' = i_inum x ->
  keeps s V V' own -> grows s V x V' x' -> iblock_ok s d V' x'.
Proof.
  intros [H1 H2 H3 H4] E [K _] Hg. assert (iblock s x' = iblock s x) as Eb by (unfold iblock; by rewrite E).
  split; rewrite ?Eb; try done; [intros; auto|]. intros Hn. destruct (Hg _ Hn) as [?|[Hr Hu]]; [done|].
  rewrite H2 in Hu by done. done.
Qed.

Lemma iblock_ok_same s s' d V x : k_sb s' = k_sb s -> k_disksize s' = k_disksize s -> iblock_ok s d V x -> iblock_ok s' d V x.
Proof.
  intros E1 E2 [H1 H2 H3 H4]. unfold iblock in *. split; unfold iblock; rewrite ?E1; try done.
  unfold home in *. by rewrite E2.
Qed.

(** A block outside of the file and of the map changes. *)
Section other.
Context (s : kstate) (d : logdev) (V : Z -> list Z) (x : inode) (n : Z) (l : list Z).
Context (Hm : map_ok s d V) (Hf : file_ok s d V x).
Context (Hown : ~ own_of x V n) (Hmap : forall b, 0 <= b < sb_size (k_sb s) -> BBLOCK b (k_sb s) <> n).

Let V' : Z -> list Z := upd_block V n l.

Lemma other_used k : 0 <= k < sb_size (k_sb s) -> used (k_sb s) V' k = used (k_sb s) V k.
Proof. intros. unfold used, V'. by rewrite upd_block_ne by (by apply Hmap). Qed.

Lemma other_map : map_ok s d V'.
Proof.
  pose proof other_used as Hu. destruct Hm as [H1 H2 H3 H4 H5 H6]. split; try done.
  - intros b Hb. unfold V'. rewrite upd_block_ne by (by apply Hmap). by apply H3.
  - intros b Hb. rewrite Hu by done. by apply H4.
  - intros H0. rewrite Hu by lia. by apply H6.
Qed.

Lemma other_fblock k : fblock x V' k = fblock x V k.
Proof.
  unfold fblock. case_if; [done|]. case_if; [done|]. unfold V'. rewrite upd_block_ne; [done|].
  intros E. apply Hown. by left.
Qed.

Lemma other_fdata k : 0 <= k < MAXFILE -> fdata x V' k = fdata x V k.
Proof.
  intros Hk. unfold fdata. rewrite other_fblock. case_if; [done|]. unfold V'. rewrite upd_block_ne; [done|].
  intros E. apply Hown. right. by exists k.
Qed.

Lemma other_data a : a <> n -> data_block s d V a -> data_block s d V' a.
Proof.
  intros Hn [H1 H2 H3 H4 H5]. split; try done; [rewrite other_used; [done|lia]|]. unfold V'. by rewrite upd_block_ne.
Qed.

Lemma other_file : file_ok s d V' x.
Proof.
  destruct Hf as [H1 H2 H3 H4 H5 H6]. split; try done; intros *; rewrite ?other_fblock; eauto.
  - intros Hb Hn. apply other_data; [|by apply H3]. intros E. apply Hown. right. by exists bn.
  - intros Hn. apply other_data; [|by apply H4]. intros E. apply Hown. by left.
Qed.
End other.

Lemma wp_iupdate pid d i x V L k Q s : tx s pid [] V d L (S k) -> k_inode s !! i = Some x -> i_dev x = ROOTDEV ->
  home d s (iblock s x) -> 0 < ld_size d ->
  (forall s', tx s' pid [] (upd_block V (iblock s x) (encode_dinode x (V (iblock s x)) (dinode_off (i_inum x)))) d
     (logged (iblock s x) L) k -> fs_step s s' -> Q tt s') ->
  wp (iupdate i) Q s.
Proof.
  intros Ht Hx Hdev Hh Hd HQ. unfold iupdate. wp_step. eapply wp_get_inode; [done|]. wp_step. apply wp_gets. rewrite Hdev.
  change (IBLOCK (i_inum x) (k_sb s)) with (iblock s x).
  apply (wp_tx_update pid d (iblock s x) (fun l => encode_dinode x l (dinode_off (i_inum x))) [] V L k);
    [done|apply not_elem_of_nil|cbn; lia|done|done|done].
Qed.

Section write.
Context (pid : Z) (d : logdev) {DV : Devsw}.
Implicit Types (s : kstate) (V : Z -> list Z) (L : list Z) (x : inode).

(** The file after [tot] bytes of [src] are written at [off]. *)
Record written s V x (src : list Z) (off tot : Z) (k m : nat) (i : nat) s' V' L' x' : Prop := {
  w_tx : tx s' pid [] V' d L' k;
  w_map : map_ok s' d V';
  w_file : file_ok s' d V' x';
  w_free : nfree s' V' m;
  w_byte : forall o, 0 <= o < MAXFILE * BSIZE -> fbyte x' V' o =
    if decide (off <= o < off + tot) then nth (Z.to_nat (o - off)) src 0 else fbyte x V o;
  w_inode : x' = set_i_addrs (i_addrs x') x;
  w_keeps : keeps s V V' (own_of x V);
  w_own : grows s V x V' x';
  w_step : i_step s s' i x';
  w_alloc : forall bn, 0 <= bn < MAXFILE -> fblock x V bn <> 0 \/ off / BSIZE <= bn /\ bn * BSIZE < off + tot /\ 0 < tot ->
    fblock x' V' bn <> 0;
}.

(** One iteration of the loop of [writei]. *)
Lemma wp_write_piece i src off tot k m V x L Q s : let n := Z.of_nat (length src) in
  tx s pid [] V d L (6 + k) -> map_ok s d V -> k_inode s !! i = Some x -> file_ok s d V x -> nfree s V (2 + m) ->
  0 <= off -> 0 <= tot < n -> off + n <= MAXFILE * BSIZE ->
  let p := piece (off + tot) (n - tot) in
  let part := take (Z.to_nat p) (drop (Z.to_nat tot) src) in
  (forall s' V' L' x', tx s' pid [] V' d L' k -> map_ok s' d V' -> file_ok s' d V' x' -> nfree s' V' m ->
     (forall o, 0 <= o < MAXFILE * BSIZE -> fbyte x' V' o =
       if decide (off + tot <= o < off + tot + p) then nth (Z.to_nat (o - (off + tot))) part 0 else fbyte x V o) ->
     x' = set_i_addrs (i_addrs x') x -> keeps s V V' (own_of x V) -> grows s V x V' x' -> i_step s s' i x' ->
     (forall bn, 0 <= bn < MAXFILE -> fblock x V bn <> 0 \/ bn = (off + tot) / BSIZE -> fblock x' V' bn <> 0) ->
     Q (inl (tot + p, off + tot + p)) s') ->
  wp (a ← bmap i ((off + tot) / BSIZE);
      bp ← bread (i_dev x) a;
      let m := p in
      let o := Z.to_nat ((off + tot) mod BSIZE) in
      upd_data bp (fun l => take o l ++ part ++ drop (o + length part) l);;
      log_write bp;;
      brelse bp;;
      mret (inl (B := Z) (tot + m, off + tot + m))) Q s.
Proof.
  intros n Ht Hm Hx Hf Hfree Ho Htot Hmax p part HQ.
  destruct (pieces_left_dec off n tot Ho Htot) as (Hm0 & Hm1 & Hm2 & _). fold p in Hm0, Hm1, Hm2.
  assert (0 <= (off + tot) / BSIZE < MAXFILE) as Hbn by (change BSIZE with 512 in *; change MAXFILE with 140 in *; zdiv).
  set (bn := (off + tot) / BSIZE) in *.
  assert (Z.of_nat (length part) = p) as Hpart.
  { unfold part. rewrite length_take, length_drop. unfold n in *. lia. }
  wp_step. eapply (wp_bmap pid d i bn x V L (1 + k) m); try done.
  intros a s1 V1 L1 x1 [B1 B2 B3 B4 [B5 Ha] B6 B7 B8 B9 B10] St1.
  destruct (i_step_same _ _ _ _ St1) as (Esb & Eds & _). rewrite (fo_dev _ _ _ _ Hf).
  assert (fblock x1 V1 bn <> 0) as Hne by (by rewrite B5).
  pose proof (fo_block _ _ _ _ B3 bn Hbn Hne) as Hdb. rewrite B5 in Hdb.
  wp_step. eapply (wp_tx_bread pid d a); [exact B1|apply not_elem_of_nil|cbn; lia|apply (db_home _ _ _ _ Hdb)|].
  intros bp s2 Ht2 St2 _ _. cbn zeta. assert ((bp, a) ∈ [(bp, a)]) as Hin by (by left).
  wp_step. eapply wp_tx_upd; [exact Ht2|exact Hin| |].
  { intros E. apply (proj1 (db_home _ _ _ _ Hdb)). rewrite E. pose proof (mo_log _ _ _ Hm). unfold in_log. lia. }
  set (l := take _ (V1 a) ++ part ++ _). intros s3 Ht3 St3.
  assert (length l = Z.to_nat BSIZE) as Hl.
  { unfold l. rewrite !length_app, length_take, length_drop, (db_len _ _ _ _ Hdb). change BSIZE with 512 in *. zdiv. }
  wp_step. eapply wp_tx_log_write; [exact Ht3|exact Hin| |].
  { eapply step_home; [|apply Hdb]. by eapply fs_step_trans. }
  intros s4 Ht4 St4. wp_step. eapply wp_tx_brelse; [exact Ht4|exact Hin|left|].
  { unfold logged. case_decide; [done|]. apply elem_of_app. right. by left. }
  intros s5 Ht5 St5. rewrite drop_held_cons in Ht5 by apply not_elem_of_nil. wp_steps.
  assert (fs_step s1 s5) as St by (eapply fs_step_trans; [exact St2|]; eapply fs_step_trans; [exact St3|]; by eapply fs_step_trans).
  pose proof (fs_step_sb _ _ St) as E1. pose proof (fs_step_disksize _ _ St) as E2.
  rewrite <-B5 in Ht5. destruct (upd_file_keeps s1 d V1 x1 bn l B3 Hbn Hne) as [K1 G1].
  eapply HQ; [exact Ht5|..].
  - eapply map_ok_same; [done|done|]. by apply upd_file_map.
  - eapply (file_ok_same s1); [done|done|]. by apply upd_file_ok.
  - eapply nfree_same; [done|]. by apply (upd_file_nfree s1 d).
  - intros o Hor. rewrite <-Hpart. apply (fbyte_upd x V x1); try done; try lia.
    + change BSIZE with 512 in *. change MAXFILE with 140 in *. zdiv.
    + by apply (fdata_len s d).
    + intros k' Hk'. rewrite (upd_file_fdata s1 d) by done. fold bn. case_decide; [|by apply B6].
      cbn zeta. rewrite <-B6 by done. unfold fdata. rewrite B5, (proj2 (Z.eqb_neq a 0)) by done. done.
  - done.
  - eapply keeps_grows; [eapply keeps_weaken; [exact B8|]; intros ? ->; by left|exact B10|].
    unfold keeps in *. by rewrite Esb in K1.
  - eapply grows_trans; [exact B8|exact B10|]. unfold grows in *. by rewrite Esb in G1.
  - by eapply i_step_fs_r.
  - fold bn. intros k' Hk'. rewrite (upd_file_fblock s1 d) by done. intros [Hn| ->]; [|done]. by rewrite B9.
Qed.
Lemma written_step s V x src off tot p k m k' m' i s1 V1 L1 x1 s2 V2 L2 x2 :
  written s V x src off tot k m i s1 V1 L1 x1 -> 0 <= tot -> 0 <= p -> tot + p <= Z.of_nat (length src) -> (k' <= k)%nat ->
  let part := take (Z.to_nat p) (drop (Z.to_nat tot) src) in
  tx s2 pid [] V2 d L2 k' -> map_ok s2 d V2 -> file_ok s2 d V2 x2 -> nfree s2 V2 m' ->
  (forall o, 0 <= o < MAXFILE * BSIZE -> fbyte x2 V2 o =
     if decide (off + tot <= o < off + tot + p) then nth (Z.to_nat (o - (off + tot))) part 0 else fbyte x1 V1 o) ->
  x2 = set_i_addrs (i_addrs x2) x1 -> keeps s1 V1 V2 (own_of x1 V1) -> grows s1 V1 x1 V2 x2 -> i_step s1 s2 i x2 ->
  (forall bn, 0 <= bn < MAXFILE -> fblock x1 V1 bn <> 0 \/ bn = (off + tot) / BSIZE -> fblock x2 V2 bn <> 0) ->
  0 <= off -> (off + tot) mod BSIZE + p <= BSIZE ->
  written s V x src off (tot + p) k' m' i s2 V2 L2 x2.
Proof.
  intros [W1 W2 W3 W4 W5 W6 W7 W8 W9 W10] Ht Hp Hn Hk part T1 T2 T3 T4 T5 T6 T7 T8 T9 T10 Hoff Hpc.
  destruct (i_step_same _ _ _ _ W9) as (Esb & _ & _).
  split; try done.
  - intros o Ho. rewrite T5, W5 by done. case_decide as E1.
    + rewrite decide_True by lia. unfold part. rewrite !nth_lookup, lookup_take_lt, lookup_drop by lia. do 2 f_equal. lia.
    + case_decide; [by rewrite decide_True by lia|by rewrite decide_False by lia].
  - rewrite T6, W6. done.
  - eapply keeps_grows; [exact W7|exact W8|]. unfold keeps in *. by rewrite Esb in T7.
  - eapply grows_trans; [exact W7|exact W8|]. unfold grows in *. by rewrite Esb in T8.
  - by eapply i_step_trans.
  - intros bn Hbn Hor. apply T10; [done|]. destruct (decide (bn * BSIZE < off + tot /\ 0 < tot)) as [Hlt|Hge].
    + left. apply W10; [done|]. tauto.
    + destruct Hor as [Hor|(H1 & H2 & H3)]; [left; apply W10; auto|]. right. change BSIZE with 512 in *. zdiv.
Qed.

Lemma wp_writei i src off k m V x L Q s : let n := Z.of_nat (length src) in let P := pieces_left off n 0 in
  tx s pid [] V d L (6 * P + 1 + k) -> map_ok s d V -> k_inode s !! i = Some x -> file_ok s d V x ->
  iblock_ok s d V x -> nfree s V (2 * P + m) -> i_type x <> T_DEV ->
  0 <= off <= i_size x -> off + n <= MAXFILE * BSIZE ->
  (forall s' V' L' x',
     tx s' pid [] V' d L' k -> map_ok s' d V' -> file_ok s' d V' x' ->
     (forall o, 0 <= o < MAXFILE * BSIZE -> fbyte x' V' o =
       if decide (off <= o < off + n) then nth (Z.to_nat (o - off)) src 0 else fbyte x V o) ->
     x' = set_i_size (Z.max (i_size x) (off + n)) (set_i_addrs (i_addrs x') x) ->
     keeps s V V' (fun a => own_of x V a \/ a = iblock s x) -> i_step s s' i x' ->
     (forall bn, 0 <= bn < MAXFILE -> fblock x V bn <> 0 \/ off / BSIZE <= bn /\ bn * BSIZE < off + n /\ 0 < n -> fblock x' V' bn <> 0) ->
     Q n s') ->
  wp (writei i src off) Q s.
Proof.
  intros n P Ht Hm Hx Hf Hib Hfree Hty Hoff Hmax HQ. assert (two32 > MAXFILE * BSIZE) as Hbig by done.
  unfold writei. fold n. wp_step. eapply wp_get_inode; [done|].
  rewrite (proj2 (Z.eqb_neq _ _)) by done. rewrite (proj2 (Z.ltb_ge _ off)) by lia.
  rewrite u32_small by lia. rewrite (proj2 (Z.ltb_ge (off + n) off)) by lia. cbn [orb].
  rewrite (proj2 (Z.ltb_ge _ (off + n))) by lia. wp_step.
  apply (wp_while _ (fun '(tot, o) s' => 0 <= tot <= n /\ o = off + tot /\ exists V' L' x',
    written s V x src off tot (6 * pieces_left off n tot + 1 + k) (2 * pieces_left off n tot + m) i s' V' L' x')
    (fun '(tot, _) => pieces_left off n tot)).
  - intros [tot o] s1 (Htot & -> & V1 & L1 & x1 & W). destruct (Z.ltb_spec tot n) as [Hlt|Hge].
    + destruct (pieces_left_dec off n tot ltac:(lia) ltac:(lia)) as (Hm0 & Hm1 & Hm2 & Hdec). cbn zeta in Hdec.
      assert (i_dev x1 = i_dev x) as Edev by (rewrite (w_inode _ _ _ _ _ _ _ _ _ _ _ _ _ W); done). rewrite <-Edev.
      set (tot' := tot + piece (off + tot) (n - tot)) in *.
      eapply (wp_write_piece i src off tot (6 * pieces_left off n tot' + 1 + k) (2 * pieces_left off n tot' + m));
        [eapply tx_le; [apply W|lia]|apply W|eapply i_step_lookup; [apply W|done]|apply W|
         eapply nfree_le; [apply W|lia]|lia|lia|done|].
      fold n. intros s2 V2 L2 x2 T1 T2 T3 T4 T5 T6 T7 T8 T9 T10. split; [|done]. split; [unfold tot' in *; lia|]. split; [lia|].
      exists V2, L2, x2. eapply written_step; [exact W|lia|lia|exact Hm1|fold tot'; lia|done..|lia|done].
    + assert (tot = n) as -> by lia. wp_steps. destruct W as [W1 W2 W3 W4 W5 W6 W7 W8 W9 W10].
      assert (k_inode s1 !! i = Some x1) as Hx1 by (by eapply i_step_lookup).
      destruct (i_step_same _ _ _ _ W9) as (Esb & Eds & _).
      eapply wp_get_inode; [done|]. assert (i_size x1 = i_size x) as Esz by (by rewrite W6). rewrite Esz. wp_step.
      destruct ((0 <? n) && (i_size x <? off + n)) eqn:E; cbn [when].
      * apply andb_true_iff in E as [E1%Z.ltb_lt E2%Z.ltb_lt]. wp_step. eapply wp_upd_inode; [done|].
        set (x2 := set_i_size (off + n) x1). set (s2 := set_k_inode _ s1).
        assert (iblock_ok s1 d V1 x1) as Hib1.
        { eapply iblock_ok_same; [done|done|]. eapply (iblock_ok_grows s d V x); try done. by rewrite W6. }
        assert (iblock s2 x2 = iblock s1 x1) as Eib by done.
        eapply (wp_iupdate pid d i x2 V1 L1 k); rewrite ?Eib.
        -- apply tx_set_inode. eapply tx_le; [done|lia].
        -- cbn. apply list_lookup_insert_eq. by eapply lookup_lt_Some.
        -- apply (fo_dev _ _ _ _ W3).
        -- apply (ib_home _ _ _ _ Hib1).
        -- apply (mo_log _ _ _ Hm).
        -- intros s3 Ht3 St3. wp_steps. set (V3 := upd_block V1 _ _) in *.
           destruct Hib1 as [I1 I2 I3 I4]. pose proof (fs_step_sb _ _ St3) as F1. pose proof (fs_step_disksize _ _ St3) as F2.
           assert (own_of x2 V1 = own_of x1 V1) as Eo by done.
           apply (HQ s3 V3 (logged (iblock s1 x1) L1) x2); try done.
           ++ eapply (map_ok_same s1); [done|done|]. by apply (other_map s1).
           ++ eapply (file_ok_same s1); [done|done|]. assert (file_ok s1 d V3 x1) as [] by (by apply other_file). by split.
           ++ intros o Ho. rewrite <-W5 by done. unfold fbyte. f_equal. change (fdata x2 V3 (o / BSIZE)) with (fdata x1 V3 (o / BSIZE)).
              apply other_fdata; try done. change BSIZE with 512 in *. change MAXFILE with 140 in *. zdiv.
           ++ unfold x2. rewrite W6. cbn. rewrite Z.max_r by lia. done.
           ++ destruct W7 as [K1 K2]. split.
              ** intros a Ha Hu. unfold V3. rewrite <-Esb. rewrite (other_used s1) by (done || by rewrite Esb).
                 rewrite Esb. by apply K1.
              ** intros a Hu Hmap Ho. unfold V3. rewrite upd_block_ne; [apply K2; tauto|].
                 intros ->. apply Ho. right. unfold iblock. rewrite Esb. by rewrite W6.
           ++ eapply i_step_trans; [exact W9|]. unfold i_step. exact St3.
           ++ intros bn Hbn Hor. change (fblock x2 V3 bn) with (fblock x1 V3 bn). unfold V3; rewrite other_fblock by done. by apply W10.
      * apply andb_false_iff in E. wp_steps. eapply HQ; try done.
        -- eapply tx_le; [done|lia].
        -- rewrite W6. cbn. rewrite Z.max_l; [by destruct x|]. destruct E as [E%Z.ltb_ge|E%Z.ltb_ge]; lia.
        -- eapply keeps_weaken; [done|]. intros. by left.
  - apply pieces_left_start; lia.
  - split; [lia|]. split; [lia|]. exists V, L, x. split; try done.
    + intros o Ho. by rewrite decide_False by lia.
    + apply set_addrs_eta.
    + apply grows_refl.
    + apply i_step_fs; [apply fs_step_refl|done].
    + intros bn Hbn [Hor|(_ & _ & H0)]; [done|lia].
Qed.
End write.

(** ** Properties *)

(** A file that can be written: a transaction with room for [k] blocks, [m]
    free blocks, and inode [i] locked and valid. *)
Record writable s (pid : Z) (d : logdev) (V : Z -> list Z) (L : list Z) (k m : nat) (i : nat) (x : inode) : Prop := {
  wr_tx : tx s pid [] V d L k;
  wr_map : map_ok s d V;
  wr_inode : k_inode s !! i = Some x;
  wr_file : file_ok s d V x;
  wr_iblock : iblock_ok s d V x;
  wr_free : nfree s V m;
  wr_type : i_type x <> T_DEV;
  wr_size : 0 <= i_size x <= MAXFILE * BSIZE;
  wr_alloc : forall bn, 0 <= bn < MAXFILE -> bn * BSIZE < i_size x -> fblock x V bn <> 0;
}.

(** C5: Files keep what is written to them.  [writei] of [src] at an offset
    inside the file terminates with all bytes written, allocating blocks,
    direct or indirect, as needed; [readi] of the range then returns [src];
    the bytes of the file outside of the range, and all blocks in use that do
    not belong to the file, are unchanged. *)
Theorem writei_readi {DV : Devsw} pid d i src off k m V x L s :
  let n := Z.of_nat (length src) in let P := pieces_left off n 0 in
  writable s pid d V L (6 * P + 1 + k) (2 * P + m) i x ->
  0 <= off <= i_size x -> off + n <= MAXFILE * BSIZE ->
  wp (writei i src off) (fun r s1 => r = n /\ exists V1 L1 x1,
    tx s1 pid [] V1 d L1 k /\ k_inode s1 !! i = Some x1 /\ i_size x1 = Z.max (i_size x) (off + n) /\
    (forall o, 0 <= o < MAXFILE * BSIZE -> ~ (off <= o < off + n) -> fbyte x1 V1 o = fbyte x V o) /\
    keeps s V V1 (fun a => own_of x V a \/ a = iblock s x) /\
    wp (readi i off n) (fun l _ => l = (n, src)) s1) s.
Proof.
  intros n P [Ht Hm Hx Hf Hib Hfree Hty Hsz Hall] Hoff Hmax.
  eapply (wp_writei pid d i src off k m); [done..|]. fold n. intros s1 V1 L1 x1 T1 T2 T3 T4 T5 T6 T7 T8.
  split; [done|]. assert (k_inode s1 !! i = Some x1) as Hx1 by (by eapply i_step_lookup).
  assert (i_size x1 = Z.max (i_size x) (off + n)) as Es by (by rewrite T5).
  exists V1, L1, x1. split_and!; try done.
  - intros o Ho Hr. rewrite T4 by done. by rewrite decide_False by lia.
  - eapply (wp_readi pid d i off n x1 V1 L1 k); try done; rewrite ?Es.
    + rewrite T5. done.
    + lia.
    + lia.
    + assert (two32 > MAXFILE * BSIZE) by done. lia.
    + lia.
    + intros bn Hbn Hlt. apply T8; [done|]. destruct (decide (bn * BSIZE < i_size x)); [left; by apply Hall|right].
      change BSIZE with 512 in *. zdiv.
    + cbn zeta. intros s2 _ _. replace (Z.min n (Z.max (i_size x) (off + n) - off)) with n by lia. f_equal.
      apply list_eq. intros j. unfold frange. rewrite list_lookup_fmap. destruct (decide (Z.of_nat j < n)) as [Hj|Hj].
      * rewrite lookup_seqZ_lt by lia. cbn. destruct (lookup_lt_is_Some_2 src j ltac:(lia)) as [y Hy]. rewrite Hy. f_equal.
        rewrite T4 by lia. rewrite decide_True by lia. apply nth_lookup_Some. rewrite <-Hy. f_equal. lia.
      * rewrite lookup_seqZ_ge by lia. by rewrite lookup_ge_None_2 by lia.
Qed.

(** ** A sample file system *)

(** The blocks below 2064 are in use: the boot block, the super block, the
    swap area, the log, the inodes, the free map. *)
Definition bitmap0 : list Z := replicate 258 255 ++ replicate 254 0.
(** The root directory, block 2059, has an empty file [a], inode 2. *)
Definition root1 : inode := mk_inode 1 1 1 (mk_sleeplock 1 1) 1 T_DIR 0 0 1 48 (2059 :: replicate 12 0).
Definition file2 : inode := mk_inode 1 2 0 (mk_sleeplock 0 0) 0 T_FILE 0 0 1 0 (replicate 13 0).
Definition dirblk0 : list Z := mk_dirent [46] 1 ++ mk_dirent [46; 46] 1 ++ mk_dirent [97] 2 ++ replicate 464 0.
Definition iblk0 : list Z :=
  encode_dinode file2 (encode_dinode root1 (replicate 512 0) (dinode_off 1)) (dinode_off 2).
Definition disk_fs : list (Z * list Z) := [(2059, dirblk0); (2032, iblk0); (2058, bitmap0)].
Definition file5 : inode := mk_inode 1 5 1 (mk_sleeplock 1 1) 1 T_FILE 0 0 1 0 (replicate 13 0).
Definition state_fs : kstate :=
  set_k_inode (file5 :: replicate 49 inode0) (state_buf disk_fs buf0 (mk_log 2002 30 1 0 1 0 (replicate 30 0))).
Definition V_fs : Z -> list Z := disk_at disk_fs.
Definition logdev0 : logdev := mk_logdev 2002 30.

Lemma bitmap0_used : forallb (fun b => bit_set bitmap0 b) (seqZ 0 2064) = true.
Proof. by vm_compute. Qed.
Lemma bitmap0_free : forallb (fun b => negb (bit_set bitmap0 b)) (seqZ 2064 936) = true.
Proof. by vm_compute. Qed.

Lemma BBLOCK_fs b : 0 <= b < 3000 -> BBLOCK b (k_sb state_fs) = 2058.
Proof.
  intros Hb. unfold BBLOCK. cbn [k_sb state_fs set_k_inode state_buf set_k_log set_k_disk set_k_buf state0 sb0 sb_bmapstart].
  replace (b / BPB) with 0 by (change BPB with 4096; zdiv). done.
Qed.

Lemma used_fs b : 0 <= b < 3000 -> used (k_sb state_fs) V_fs b = bool_decide (b < 2064).
Proof.
  intros Hb. unfold used. rewrite BBLOCK_fs by done. change (V_fs 2058) with bitmap0.
  replace (b mod BPB) with b by (change BPB with 4096; zdiv). case_bool_decide as E.
  - pose proof bitmap0_used as H. rewrite forallb_forall in H. apply H, list_elem_of_In, elem_of_seqZ. lia.
  - pose proof bitmap0_free as H. rewrite forallb_forall in H. apply negb_true_iff, H, list_elem_of_In, elem_of_seqZ. lia.
Qed.

Lemma state_fs_tx k : (k <= 26)%nat -> tx state_fs 1 [] V_fs logdev0 [] k.
Proof.
  intros Hk. split; [|cbn; lia|unfold NBUF, MAXOPBLOCKS; cbn; lia|done|done].
  assert (log_is (state_buf disk_fs buf0 (mk_log 2002 30 1 0 1 0 (replicate 30 0))) 2002 30 []) as Hli
    by (apply sample_log_is; try done; by left).
  split; try done; [|by destruct Hli; split|apply not_elem_of_nil].
  eapply brep_ext; [apply (state_buf_brep disk_fs buf0 (mk_log 2002 30 1 0 1 0 (replicate 30 0)) [] V_fs ∅)|done..| |].
  - split; cbn; try done. by intros ? ?%elem_of_nil.
  - by intros ? ?%elem_of_nil.
  - apply NoDup_nil_2.
  - done.
  - done.
  - split; [|split]; [..|intros i]; apply not_elem_of_nil.
  - by exists 0%nat, proc0.
Qed.

Lemma home_fs b : 0 <= b < 3000 -> ~ (2002 <= b < 2032) -> home logdev0 state_fs b.
Proof. intros. split; [unfold in_log; cbn; lia|cbn; lia]. Qed.

Lemma state_fs_map : map_ok state_fs logdev0 V_fs.
Proof.
  split.
  - cbn. unfold two32. change (3000 / BPB) with 0. lia.
  - intros b Hb. rewrite BBLOCK_fs by done. apply home_fs; lia.
  - intros b Hb. by rewrite BBLOCK_fs.
  - intros b Hb. rewrite used_fs by done. intros E%bool_decide_eq_false. cbn in Hb. split; [apply home_fs; lia|].
    intros b' Hb'. rewrite BBLOCK_fs by done. lia.
  - done.
  - intros _. rewrite used_fs by lia. done.
Qed.

Lemma fblock_file5 bn : fblock file5 V_fs bn = 0.
Proof.
  unfold fblock. destruct (Z.ltb_spec bn NDIRECT); [|done]. unfold addr_of, zlookup. cbn [i_addrs file5].
  case_if; [done|]. destruct (replicate 13 0 !! Z.to_nat bn) as [a|] eqn:E; [|done]. by apply lookup_replicate in E as [-> _].
Qed.

Lemma state_fs_nfree m : (m <= 900)%nat -> nfree state_fs V_fs m.
Proof.
  intros Hm. exists (seqZ 2064 900). split; [apply NoDup_seqZ|]. split; [rewrite length_seqZ; lia|].
  intros b Hb%elem_of_seqZ. split; [cbn; lia|]. rewrite used_fs by lia. apply bool_decide_eq_false. lia.
Qed.

Lemma state_fs_writable k m : (k <= 26)%nat -> (m <= 900)%nat -> writable state_fs 1 logdev0 V_fs [] k m 0 file5.
Proof.
  intros Hk Hm. split; [by apply state_fs_tx|apply state_fs_map|done| | |by apply state_fs_nfree|done|done|].
  - split; try done; intros *; rewrite ?fblock_file5; done.
  - split.
    + change (iblock state_fs file5) with 2032. apply home_fs; lia.
    + intros Hr. change (iblock state_fs file5) with 2032. by rewrite used_fs.
    + intros b Hb. by rewrite BBLOCK_fs.
    + intros [E|(bn & _ & E)]; [done|]. by rewrite fblock_file5 in E.
  - cbn. change BSIZE with 512. lia.
Qed.

Definition no_devices : Devsw := Build_Devsw (fun _ => None) (fun _ => None).

Lemma writei_readi_witness :
  wp (writei (DV := no_devices) 0 [104; 105] 0) (fun r s1 => r = 2 /\
    wp (readi (DV := no_devices) 0 0 2) (fun l _ => l = (2, [104; 105])) s1) state_fs.
Proof.
  eapply wp_mono.
  - apply (@writei_readi no_devices 1 logdev0 0 [104; 105] 0 0 0 V_fs file5 [] state_fs).
    + apply state_fs_writable; vm_compute; lia.
    + cbn. lia.
    + vm_compute. discriminate.
  - intros r s1 (H1 & V1 & L1 & x1 & _ & _ & _ & _ & _ & H2). exact (conj H1 H2).
Defined.

Lemma balloc_bfree_witness :
  wp (balloc ROOTDEV) (fun b s1 => used (k_sb state_fs) V_fs b = false /\
    (forall b', 0 <= b' < b -> used (k_sb state_fs) V_fs b' = true) /\
    wp (bfree ROOTDEV b) (fun _ s2 => exists V2 L2, tx s2 1 [] V2 logdev0 L2 0 /\
      forall b', 0 <= b' < sb_size (k_sb state_fs) -> used (k_sb state_fs) V2 b' = used (k_sb state_fs) V_fs b') s1) state_fs.
Proof.
  eapply wp_mono.
  - refine (proj1 (balloc_bfree 1 logdev0 V_fs [] 0 state_fs _ state_fs_map) _); [apply state_fs_tx; lia|].
    exists 2100. split; [cbn; lia|]. rewrite used_fs by lia. reflexivity.
  - intros b s1 (V1 & L1 & _ & _ & _ & H1 & Hfirst & _ & _ & _ & H2). split; [exact H1|]. split; [exact Hfirst|].
    eapply wp_mono; [exact H2|]. intros u s2 (V2 & L2 & Ht2 & _ & Hu2 & _). exists V2, L2. split; [exact Ht2|exact Hu2].
Defined.
