(* ===== verification/FsDir.v ===== *)
(** * Directories and path names

    What [dirlookup], [dirlink] and [namex] of [fs.c] do, in terms of the
    contents of directories: a directory's entries are the 16-byte records
    of its file, its meaning is the inode number that it gives to a name.
    The file's contents are those of [FsData]. *)

From Stdlib Require Import ZArith Lia.
From stdpp Require Import base strings numbers gmap list.
From S2P Require Import Prelude Mmu Memory Kernel Sample Sleeplock Bio Block Layout Log Fs FsBlock FsData.

(** ** Names *)

(** The bytes of a name that count: the first [n], up to a zero. *)
Fixpoint cut (n : nat) (l : list Z) : list Z :=
  match n with
  | O => []
  | S n => let a := hd 0 l in if a =? 0 then [] else a :: cut n (tail l)
  end.
Definition same_name (s t : list Z) : Prop := cut (Z.to_nat DIRSIZ) s = cut (Z.to_nat DIRSIZ) t.
#[global] Instance same_name_dec s t : Decision (same_name s t).
Proof. unfold same_name. apply _. Defined.

Lemma str_ncmp_cut n s t : str_ncmp n s t = 0 <-> cut n s = cut n t.
Proof.
  revert s t. induction n as [|n IH]; intros s t; cbn [str_ncmp cut]; [done|]. cbn zeta.
  destruct (Z.eqb_spec (hd 0 s) 0) as [Es|Es]; cbn [negb andb].
  - rewrite Es. destruct (Z.eqb_spec (hd 0 t) 0) as [Et|Et]; split; intros H; try done; lia.
  - destruct (Z.eqb_spec (hd 0 s) (hd 0 t)) as [E|E].
    + rewrite <-E, (proj2 (Z.eqb_neq _ _) Es), IH. split; [by intros ->|by intros [=]].
    + split; [lia|]. case_match; [done|]. by intros [=].
Qed.

Lemma namecmp_same s t : namecmp s t = 0 <-> same_name s t.
Proof. apply str_ncmp_cut. Qed.

Lemma cut_padded n m l : (n <= m)%nat -> cut n (resize m 0 (take m l)) = cut n l.
Proof.
  revert m l. induction n as [|n IH]; intros m l Hm; [done|]. destruct m as [|m]; [lia|].
  destruct l as [|a l]; cbn [take].
  - by rewrite resize_nil.
  - cbn [resize cut hd tail]. by rewrite IH by lia.
Qed.

(** ** Entries *)

(** Entry [k] of the directory and all of them. *)
Definition entry (x : inode) (V : Z -> list Z) (k : Z) : list Z := frange x V (k * DIRENTSIZE) DIRENTSIZE.
Definition dir_ents (x : inode) (V : Z -> list Z) : list (list Z) := entry x V <$> seqZ 0 (i_size x / DIRENTSIZE).
(** The entry is in use and has the name. *)
Definition ent_is (name de : list Z) : Prop := de_inum de <> 0 /\ same_name name (de_name de).
#[global] Instance ent_is_dec name de : Decision (ent_is name de).
Proof. unfold ent_is. apply _. Defined.
Definition ents_inum (ents : list (list Z)) (name : list Z) : option Z := de_inum ∘ snd <$> list_find (ent_is name) ents.
(** The meaning of a directory: the inode number of a name. *)
Definition dir_inum (x : inode) (V : Z -> list Z) : list Z -> option Z := ents_inum (dir_ents x V).

Lemma ent_is_same name name' de : same_name name name' -> ent_is name de <-> ent_is name' de.
Proof. unfold ent_is, same_name. by intros ->. Qed.

Lemma ents_inum_same ents name name' : same_name name name' -> ents_inum ents name = ents_inum ents name'.
Proof. intros H. unfold ents_inum. f_equal. apply list_find_ext. intros de. by apply ent_is_same. Qed.

Lemma mk_dirent_inum name inum : 0 <= inum < 65536 -> de_inum (mk_dirent name inum) = inum.
Proof.
  intros. change (de_inum (mk_dirent name inum)) with ((inum mod 256) mod 256 + 256 * (((inum / 256) mod 256) mod 256)).
  rewrite !Zmod_mod. zdiv.
Qed.
Lemma mk_dirent_len name inum : length (mk_dirent name inum) = Z.to_nat DIRENTSIZE.
Proof. unfold mk_dirent. by rewrite length_app, length_resize. Qed.
Lemma mk_dirent_is name name' inum : 0 < inum < 65536 -> ent_is name' (mk_dirent name inum) <-> same_name name' name.
Proof.
  intros Hi. unfold ent_is, same_name. rewrite mk_dirent_inum by lia. unfold de_name, mk_dirent.
  rewrite drop_app_ge by done. cbn [length]. rewrite drop_0, cut_padded by done. split; [by intros []|]. intros H. split; [lia|done].
Qed.

(** Writing an entry over one that is not in use, or at the end, changes
    the meaning of its name and of no other. *)
Lemma ents_inum_write ents ents' k name inum : 0 < inum < 65536 ->
  (k <= length ents)%nat -> (forall de, ents !! k = Some de -> de_inum de = 0) ->
  (forall j, ents' !! j = if decide (j = k) then Some (mk_dirent name inum) else ents !! j) ->
  ents_inum ents name = None ->
  forall name', ents_inum ents' name' = if decide (same_name name' name) then Some inum else ents_inum ents name'.
Proof.
  intros Hi Hk Hfree Hw Habs name'. unfold ents_inum in *. apply fmap_None in Habs.
  assert (forall j de, ents !! j = Some de -> ~ ent_is name de) as Hno.
  { intros j de Hj. apply list_find_None in Habs. by eapply (Forall_lookup_1 _ _ _ _ Habs). }
  case_decide as E.
  - assert (list_find (ent_is name') ents' = Some (k, mk_dirent name inum)) as ->; [|by apply (f_equal Some), mk_dirent_inum; lia].
    apply list_find_Some. split_and!; [by rewrite Hw, decide_True|by apply mk_dirent_is|].
    intros j de Hj Hlt. rewrite Hw, decide_False in Hj by lia. rewrite ent_is_same by done. by eapply Hno.
  - assert (list_find (ent_is name') ents' = list_find (ent_is name') ents) as ->; [|done].
    assert (~ ent_is name' (mk_dirent name inum)) as Hnew by (by rewrite mk_dirent_is).
    destruct (list_find (ent_is name') ents) as [[j de]|] eqn:F.
    + apply list_find_Some in F as (Hj & His & Hfirst). apply list_find_Some.
      assert (j <> k) by (intros ->; destruct His as [Hnz _]; by apply Hnz, Hfree).
      split_and!; [by rewrite Hw, decide_False|done|]. intros j' de' Hj' Hlt. rewrite Hw in Hj'.
      case_decide; [by simplify_eq|by eapply Hfirst].
    + apply list_find_None. apply list_find_None in F. apply Forall_lookup_2. intros j de Hj. rewrite Hw in Hj.
      case_decide; [by simplify_eq|by eapply (Forall_lookup_1 _ _ _ _ F)].
Qed.

(** ** The inode cache *)

(** [iget] can find or make an entry for the inode. *)
Definition icache_room (T : list inode) (dev inum : Z) : Prop :=
  exists y, y ∈ T /\ (iget_hit dev inum y = true \/ i_ref y = 0).
(** The entry [i] that [iget] returns, before and after. *)
Definition igot (T : list inode) (dev inum : Z) (i : nat) (y y' : inode) : Prop :=
  T !! i = Some y /\
  (iget_hit dev inum y = true /\ y' = set_i_ref (i_ref y + 1) y \/
   Forall (fun z => iget_hit dev inum z <> true) T /\ i_ref y = 0 /\
     y' = set_i_valid 0 (set_i_ref 1 (set_i_inum inum (set_i_dev dev y)))).

Lemma igot_names T dev inum i y y' : igot T dev inum i y y' -> i_dev y' = dev /\ i_inum y' = inum /\ 1 <= i_ref y'.
Proof.
  intros [Hi [[Hh ->]|(_ & _ & ->)]]; [|done]. unfold iget_hit in Hh.
  apply andb_true_iff in Hh as [[H1%Z.ltb_lt H2%Z.eqb_eq]%andb_true_iff H3%Z.eqb_eq]. cbn. split_and!; [done..|lia].
Qed.

Lemma wp_iget dev inum Q s : L_icache ∉ k_held s -> icache_room (k_inode s) dev inum ->
  (forall i y y', igot (k_inode s) dev inum i y y' -> Q i (set_k_inode (<[i := y']> (k_inode s)) s)) ->
  wp (iget dev inum) Q s.
Proof.
  intros Hh (z & Hz & Hroom) HQ. unfold iget. wp_step. apply wp_acquire; [done|]. wp_step. apply wp_gets. ksimpl.
  destruct (list_find _ _) as [[i y]|] eqn:F.
  - apply list_find_Some in F as (Hi & Hhit & _). wp_step. unfold put_inode. apply wp_modify. wp_step.
    eapply wp_release; [done|]. wp_step. assert (igot (k_inode s) dev inum i y (set_i_ref (i_ref y + 1) y)) as Hg by (split; [done|by left]).
    specialize (HQ _ _ _ Hg). by destruct s.
  - apply list_find_None in F. destruct (list_find (fun x => i_ref x = 0) _) as [[i y]|] eqn:F2.
    + apply list_find_Some in F2 as (Hi & Hhit & _). wp_step. unfold put_inode. apply wp_modify. wp_step.
      eapply wp_release; [done|]. wp_step. assert (igot (k_inode s) dev inum i y (set_i_valid 0 (set_i_ref 1 (set_i_inum inum (set_i_dev dev y))))) as Hg
        by (split; [done|by right]).
      specialize (HQ _ _ _ Hg). by destruct s.
    + apply list_find_None in F2. rewrite Forall_forall in F, F2. destruct Hroom as [H|H]; [by apply F in Hz|by apply F2 in Hz].
Qed.

(** ** Directories *)

(** A directory: its size counts whole entries, and its blocks are there. *)
Record is_dir s (d : logdev) (V : Z -> list Z) (x : inode) : Prop := {
  id_file : file_ok s d V x;
  id_type : i_type x = T_DIR;
  id_size : 0 <= i_size x <= MAXFILE * BSIZE;
  id_whole : i_size x mod DIRENTSIZE = 0;
  id_alloc : forall bn, 0 <= bn < MAXFILE -> bn * BSIZE < i_size x -> fblock x V bn <> 0;
}.

Lemma is_dir_same s s' d V x : k_sb s' = k_sb s -> k_disksize s' = k_disksize s -> is_dir s d V x -> is_dir s' d V x.
Proof. intros E1 E2 []. split; try done. by eapply file_ok_same. Qed.

Lemma dir_offsets_eq s d V x : is_dir s d V x ->
  dir_offsets (i_size x) = (fun k => k * DIRENTSIZE) <$> seqZ 0 (i_size x / DIRENTSIZE).
Proof.
  intros [_ _ Hs Hw _]. unfold dir_offsets. do 2 f_equal. change DIRENTSIZE with 16 in *. zdiv.
Qed.

Lemma dir_ents_lookup x V j : 0 <= i_size x -> (j < Z.to_nat (i_size x / DIRENTSIZE))%nat ->
  dir_ents x V !! j = Some (entry x V (Z.of_nat j)).
Proof. intros H Hj. unfold dir_ents. by rewrite list_lookup_fmap, lookup_seqZ_lt by lia. Qed.
Lemma length_dir_ents x V : length (dir_ents x V) = Z.to_nat (i_size x / DIRENTSIZE).
Proof. unfold dir_ents. by rewrite length_fmap, length_seqZ. Qed.

Section lookup.
Context {DV : Devsw} (pid : Z) (d : logdev).

Lemma wp_read_dirent msg i j x V L k Q s : tx s pid [] V d L k -> k_inode s !! i = Some x -> is_dir s d V x ->
  Z.of_nat j < i_size x / DIRENTSIZE ->
  (forall s', tx s' pid [] V d L k -> fs_step s s' -> Q (entry x V (Z.of_nat j)) s') ->
  wp (read_dirent msg i (Z.of_nat j * DIRENTSIZE)) Q s.
Proof.
  intros Ht Hx [Hf Hty Hs Hw Ha] Hj HQ. unfold read_dirent. wp_step.
  assert (Z.of_nat j * DIRENTSIZE + DIRENTSIZE <= i_size x) as Hle by (change DIRENTSIZE with 16 in *; zdiv).
  assert (two32 > MAXFILE * BSIZE) by done. change DIRENTSIZE with 16 in *.
  eapply (wp_readi pid d); [done..|by rewrite Hty|lia|lia|lia|lia|done|]. cbn zeta. intros s' Ht' St.
  rewrite Z.min_l by lia. cbn [negb Z.eqb Pos.eqb]. wp_step. by apply HQ.
Qed.

Lemma wp_dirlookup i name x V L k Q s : tx s pid [] V d L k -> k_inode s !! i = Some x -> is_dir s d V x ->
  L_icache ∉ k_held s ->
  match list_find (ent_is name) (dir_ents x V) with
  | None => forall s', tx s' pid [] V d L k -> fs_step s s' -> Q None s'
  | Some (j, de) => icache_room (k_inode s) ROOTDEV (de_inum de) /\
      forall i' y y' s', igot (k_inode s) ROOTDEV (de_inum de) i' y y' -> tx s' pid [] V d L k -> i_step s s' i' y' ->
        Q (Some (i', Z.of_nat j * DIRENTSIZE)) s'
  end ->
  wp (dirlookup i name) Q s.
Proof.
  intros Ht Hx Hd Hh HQ. unfold dirlookup. wp_step. eapply wp_get_inode; [done|].
  rewrite (id_type _ _ _ _ Hd). cbn [negb Z.eqb Pos.eqb T_DIR]. wp_step. rewrite (dir_offsets_eq _ _ _ _ Hd).
  apply wp_for_fmap. pose proof (id_size _ _ _ _ Hd) as Hs. assert (0 <= i_size x / DIRENTSIZE) as Hn by (change DIRENTSIZE with 16; zdiv).
  apply (wp_for_seqZ _ _ (fun t _ s' => tx s' pid [] V d L k /\ fs_step s s' /\
    forall j de, (j < t)%nat -> dir_ents x V !! j = Some de -> ~ ent_is name de)).
  - done.
  - intros t [] s1 Htn (Ht1 & St1 & Hno). wp_step.
    eapply (wp_read_dirent _ _ _ x V L k); [done|by rewrite (fs_step_inode _ _ St1)| |done|].
    { eapply is_dir_same; [by apply fs_step_sb|by apply fs_step_disksize|done]. }
    intros s2 Ht2 St2. assert (fs_step s s2) as St by (by eapply fs_step_trans).
    pose proof (dir_ents_lookup x V t ltac:(lia) ltac:(lia)) as Hde. set (de := entry x V (Z.of_nat t)) in *.
    assert (~ ent_is name de -> tx s2 pid [] V d L k /\ fs_step s s2 /\
      forall j de', (j < S t)%nat -> dir_ents x V !! j = Some de' -> ~ ent_is name de') as Hnext.
    { intros Hn'. split_and!; [done..|]. intros j de' Hj Hl. destruct (decide (j = t)) as [->|]; [by simplify_eq|]. apply (Hno j); [lia|done]. }
    destruct (Z.eqb_spec (de_inum de) 0) as [E0|E0]; [wp_step; apply Hnext; by intros []|].
    destruct (Z.eqb_spec (namecmp name (de_name de)) 0) as [Ec|Ec].
    + apply namecmp_same in Ec. assert (list_find (ent_is name) (dir_ents x V) = Some (t, de)) as F.
      { apply list_find_Some. split_and!; [done|by split|]. intros j y Hj Hlt. by apply (Hno j). }
      rewrite F in HQ. destruct HQ as [Hroom HQ]. wp_step. rewrite (fo_dev _ _ _ _ (id_file _ _ _ _ Hd)).
      apply wp_iget; rewrite ?(fs_step_inode _ _ St); [by destruct St as (?&?&?&?&->&_)|done|].
      intros i' y y' Hg. wp_step. wp_step. eapply HQ; [done|by apply tx_set_inode|].
      unfold i_step. destruct St as (bs&lru&ps&lg&->&?&?). exists bs, lru, ps, lg. by destruct s.
    + wp_step. apply Hnext. rewrite namecmp_same in Ec. by intros [].
  - intros [] s1 (Ht1 & St1 & Hno). wp_step. destruct (list_find _ _) as [[j de]|] eqn:F; [|by apply HQ].
    apply list_find_Some in F as (Hj & His & _). exfalso. eapply (Hno j); [|done..].
    apply lookup_lt_Some in Hj. by rewrite length_dir_ents in Hj.
  - split_and!; [done|apply fs_step_refl|lia].
Qed.

(** The search of [dirlink] for an entry that is not in use. *)
Lemma wp_find_entry i x V L k Q s : tx s pid [] V d L k -> k_inode s !! i = Some x -> is_dir s d V x ->
  (forall j s', tx s' pid [] V d L k -> fs_step s s' -> (j <= length (dir_ents x V))%nat ->
     (forall de, dir_ents x V !! j = Some de -> de_inum de = 0) -> Q (inl (Z.of_nat j * DIRENTSIZE)) s') ->
  wp (for_ (R := unit) (dir_offsets (i_size x)) (fun off (_ : Z) =>
        de ← read_dirent "dirlink read" i off;
        if de_inum de =? 0 then mret (Break off) else mret (Next (off + DIRENTSIZE))) 0) Q s.
Proof.
  intros Ht Hx Hd HQ. rewrite (dir_offsets_eq _ _ _ _ Hd). apply wp_for_fmap. pose proof (id_size _ _ _ _ Hd) as Hs.
  assert (0 <= i_size x / DIRENTSIZE) as Hn by (change DIRENTSIZE with 16; zdiv).
  apply (wp_for_seqZ _ _ (fun t o s' => o = Z.of_nat t * DIRENTSIZE /\ tx s' pid [] V d L k /\ fs_step s s')).
  - done.
  - intros t o s1 Htn (-> & Ht1 & St1). wp_step.
    eapply (wp_read_dirent _ _ _ x V L k); [done|by rewrite (fs_step_inode _ _ St1)| |done|].
    { eapply is_dir_same; [by apply fs_step_sb|by apply fs_step_disksize|done]. }
    intros s2 Ht2 St2. assert (fs_step s s2) as St by (by eapply fs_step_trans).
    destruct (Z.eqb_spec (de_inum (entry x V (Z.of_nat t))) 0) as [E0|E0]; wp_step.
    + apply HQ; [done..|rewrite length_dir_ents; lia|]. intros de. rewrite dir_ents_lookup by lia. by intros [= <-].
    + split_and!; [lia|done..].
  - intros o s1 (-> & Ht1 & St1). apply HQ; [done..|by rewrite length_dir_ents|].
    intros de Hde%lookup_lt_Some. rewrite length_dir_ents in Hde. lia.
  - split_and!; [done..|apply fs_step_refl].
Qed.
End lookup.

(** The entries after [mk_dirent] is written at entry [j]. *)
Lemma entries_written x V x' V' j name inum : 0 <= i_size x -> i_size x mod DIRENTSIZE = 0 ->
  (j <= length (dir_ents x V))%nat -> i_size x' = Z.max (i_size x) (Z.of_nat j * DIRENTSIZE + DIRENTSIZE) ->
  i_size x' <= MAXFILE * BSIZE ->
  (forall o, 0 <= o < MAXFILE * BSIZE -> fbyte x' V' o =
     if decide (Z.of_nat j * DIRENTSIZE <= o < Z.of_nat j * DIRENTSIZE + DIRENTSIZE)
     then nth (Z.to_nat (o - Z.of_nat j * DIRENTSIZE)) (mk_dirent name inum) 0 else fbyte x V o) ->
  forall j', dir_ents x' V' !! j' = if decide (j' = j) then Some (mk_dirent name inum) else dir_ents x V !! j'.
Proof.
  rewrite length_dir_ents. change DIRENTSIZE with 16. intros Hs Hw Hj Hs' Hmax Hb j'.
  assert (forall t, (t < Z.to_nat (i_size x' / 16))%nat -> entry x' V' (Z.of_nat t) =
    if decide (t = j) then mk_dirent name inum else entry x V (Z.of_nat t)) as Hent.
  { intros t Ht. assert (Z.of_nat t * 16 + 16 <= i_size x') as Hle by zdiv. unfold entry, frange. change DIRENTSIZE with 16.
    destruct (decide (t = j)) as [->|Hne].
    - apply list_eq. intros q. rewrite list_lookup_fmap. destruct (decide (q < 16)%nat) as [Hq|Hq].
      + rewrite lookup_seqZ_lt by lia. cbn [fmap option_fmap option_map]. rewrite Hb by lia. rewrite decide_True by lia.
        pose proof (mk_dirent_len name inum) as Hl. change DIRENTSIZE with 16 in Hl.
        destruct (lookup_lt_is_Some_2 (mk_dirent name inum) q ltac:(lia)) as [y Hy]. rewrite Hy. f_equal.
        apply nth_lookup_Some. rewrite <-Hy. f_equal. lia.
      + rewrite lookup_seqZ_ge by lia. symmetry. apply lookup_ge_None. rewrite mk_dirent_len. change DIRENTSIZE with 16. lia.
    - apply list_fmap_ext. intros q z [-> Hq]%lookup_seqZ. rewrite Hb by lia. rewrite decide_False by lia. done. }
  destruct (decide (j' < Z.to_nat (i_size x' / 16))%nat) as [Hlt|Hge].
  - rewrite dir_ents_lookup by (change DIRENTSIZE with 16; lia). rewrite Hent by done. case_decide; [done|].
    symmetry. apply dir_ents_lookup; [done|]. change DIRENTSIZE with 16. zdiv.
  - rewrite (lookup_ge_None_2 (dir_ents x' V')) by (rewrite length_dir_ents; change DIRENTSIZE with 16; lia).
    rewrite decide_False by zdiv. symmetry. apply lookup_ge_None. rewrite length_dir_ents. change DIRENTSIZE with 16. zdiv.
Qed.

(** A directory that [dirlink] can extend, inside a transaction. *)
Record linkable s pid d V L k m i x : Prop := {
  lk_wr : writable s pid d V L (7 + k) (2 + m) i x;
  lk_dir : is_dir s d V x;
  lk_icache : L_icache ∉ k_held s;
  lk_space : i_size x + DIRENTSIZE <= MAXFILE * BSIZE;
}.

(** What [dirlink] of a new name achieves. *)
Record linked s pid d V k i x name inum s' V' L' x' : Prop := {
  ln_tx : tx s' pid [] V' d L' k;
  ln_dir : is_dir s' d V' x';
  ln_map : map_ok s' d V';
  ln_meaning : forall name', dir_inum x' V' name' = if decide (same_name name' name) then Some inum else dir_inum x V name';
  ln_keeps : keeps s V V' (fun a => own_of x V a \/ a = iblock s x);
  ln_step : i_step s s' i x';
  ln_inode : x' = set_i_size (i_size x') (set_i_addrs (i_addrs x') x);
}.

Lemma pieces_left_dirent j : pieces_left (Z.of_nat j * DIRENTSIZE) DIRENTSIZE 0 = 1%nat.
Proof. unfold pieces_left. change BSIZE with 512. change DIRENTSIZE with 16. change (0 <? 16) with true. cbn match. zdiv. Qed.

Lemma wp_dirlink {DV : Devsw} pid d i name inum k m V x L Q s : linkable s pid d V L k m i x -> 0 < inum < 65536 ->
  dir_inum x V name = None ->
  (forall s' V' L' x', linked s pid d V k i x name inum s' V' L' x' -> Q 0 s') ->
  wp (dirlink i name inum) Q s.
Proof.
  intros [[Ht Hm Hx Hf Hib Hfree Hty Hsz Hall] Hd Hh Hsp] Hi Habs HQ. unfold dirlink. wp_step.
  eapply (wp_dirlookup pid d); [done..|]. pose proof Habs as Hnone. unfold dir_inum, ents_inum in Hnone. apply fmap_None in Hnone. rewrite Hnone.
  intros s1 Ht1 St1. pose proof (fs_step_sb _ _ St1) as Esb. pose proof (fs_step_disksize _ _ St1) as Eds.
  wp_step. eapply wp_get_inode; [by rewrite (fs_step_inode _ _ St1)|]. wp_step.
  eapply (wp_find_entry pid d); [done|by rewrite (fs_step_inode _ _ St1)|by eapply is_dir_same|].
  intros j s2 Ht2 St2 Hj Hslot. assert (fs_step s s2) as St by (by eapply fs_step_trans). clear s1 Ht1 St1 St2 Esb Eds.
  pose proof (fs_step_sb _ _ St) as Esb. pose proof (fs_step_disksize _ _ St) as Eds. wp_step.
  pose proof (mk_dirent_len name inum) as Hlen. pose proof (pieces_left_dirent j) as Hp.
  assert (Z.of_nat j * DIRENTSIZE <= i_size x) as Hoff.
  { rewrite length_dir_ents in Hj. change DIRENTSIZE with 16 in *. zdiv. }
  eapply (wp_writei pid d i (mk_dirent name inum) (Z.of_nat j * DIRENTSIZE) k m V x L); rewrite ?Hlen, ?Z2Nat.id, ?Hp by done.
  - done.
  - by eapply map_ok_same.
  - by rewrite (fs_step_inode _ _ St).
  - by eapply file_ok_same.
  - by eapply iblock_ok_same.
  - by eapply nfree_same.
  - done.
  - change DIRENTSIZE with 16 in *. lia.
  - lia.
  - intros s3 V3 L3 x3 W1 W2 W3 W4 W5 W6 W7 W8. rewrite Z.eqb_refl. cbn [negb]. wp_step. apply (HQ s3 V3 L3 x3).
    assert (i_size x3 = Z.max (i_size x) (Z.of_nat j * DIRENTSIZE + DIRENTSIZE)) as Es by (by rewrite W5).
    pose proof (id_whole _ _ _ _ Hd) as Hw. split; try done.
    + split; [done|rewrite W5; exact (id_type _ _ _ _ Hd)|rewrite Es; change DIRENTSIZE with 16 in *; lia|rewrite Es; change DIRENTSIZE with 16 in *; zdiv|].
      intros bn Hbn Hlt. apply W8; [done|]. destruct (decide (bn * BSIZE < i_size x)); [left; by apply Hall|right].
      change BSIZE with 512 in *. change DIRENTSIZE with 16 in *. zdiv.
    + apply (ents_inum_write (dir_ents x V) _ j); [done..| |done].
      apply entries_written; [lia|done..|rewrite Es; lia|done].
    + unfold keeps in *. unfold iblock in *. by rewrite Esb in W6.
    + eapply i_step_trans; [by eapply i_step_fs|done].
    + by rewrite Es.
Qed.

(** ** The locks of inodes *)

Section ilocks.
Context (i : nat) (y : inode).

Lemma wp_get_ilk Q s : k_inode s !! i = Some y -> Q (i_lock y) s -> wp (get_ilk i) Q s.
Proof. intros. unfold get_ilk. wp_step. eapply wp_get_inode; [done|]. by wp_steps. Qed.

Lemma wp_put_ilk l Q s : k_inode s !! i = Some y ->
  Q tt (set_k_inode (<[i := set_i_lock l y]> (k_inode s)) s) -> wp (put_ilk i l) Q s.
Proof. intros. unfold put_ilk. by eapply wp_upd_inode. Qed.

Lemma wp_i_acquiresleep pid Q s : L_inode i ∉ k_held s -> k_inode s !! i = Some y -> sl_locked (i_lock y) = 0 -> cur_pid s pid ->
  Q tt (set_k_inode (<[i := set_i_lock (mk_sleeplock 1 pid) y]> (k_inode s)) s) -> wp (i_acquiresleep i) Q s.
Proof.
  intros Hl Hy Hlk Hpid HQ. unfold i_acquiresleep, acquiresleep.
  wp_step. apply wp_acquire; [done|]. wp_step. eapply wp_get_ilk; [done|]. rewrite Hlk. cbn [negb Z.eqb].
  apply (wp_cur_pid (fun pid => put_ilk i (mk_sleeplock 1 pid);; release (L_inode i)) pid); [done|].
  wp_step. eapply wp_put_ilk; [done|]. eapply wp_release; [done|]. by destruct s.
Qed.

Lemma wp_i_holdingsleep pid Q s : L_inode i ∉ k_held s -> k_inode s !! i = Some y -> i_lock y = mk_sleeplock 1 pid -> cur_pid s pid ->
  Q true s -> wp (i_holdingsleep i) Q s.
Proof.
  intros Hl Hy Hlk Hpid HQ. unfold i_holdingsleep, holdingsleep.
  wp_step. apply wp_acquire; [done|]. wp_step. eapply wp_get_ilk; [done|]. rewrite Hlk. cbn [sl_locked sl_pid negb Z.eqb]. wp_step.
  apply (wp_cur_pid (fun q => mret (pid =? q)) pid); [done|]. wp_steps.
  eapply wp_release; [done|]. wp_steps. rewrite Z.eqb_refl. by destruct s.
Qed.

Lemma wp_i_releasesleep Q s : L_inode i ∉ k_held s -> L_ptable ∉ k_held s -> k_inode s !! i = Some y ->
  (forall ps, procs_woken (k_proc s) ps ->
     Q tt (set_k_proc ps (set_k_inode (<[i := set_i_lock (mk_sleeplock 0 0) y]> (k_inode s)) s))) ->
  wp (i_releasesleep i) Q s.
Proof.
  intros Hl Hpt Hy HQ. unfold i_releasesleep, releasesleep.
  wp_step. apply wp_acquire; [done|]. wp_step. eapply wp_put_ilk; [done|].
  wp_step. apply wp_wakeup; [by intros [?|?]%elem_of_cons|]. eapply wp_release; [done|].
  specialize (HQ (wake_proc (ChInode i) <$> k_proc s)). destruct s. apply HQ.
  apply Forall2_fmap_r, Forall_Forall2_diag, Forall_forall. intros. apply wake_proc_woken.
Qed.
End ilocks.

Lemma tx_set_proc ps s pid H V d L k : procs_woken (k_proc s) ps -> tx s pid H V d L k -> tx (set_k_proc ps s) pid H V d L k.
Proof.
  intros Hps [[Hr Hli Hh Hlen Hlk Hc] ? ? ? ?]. split; try done. split; try done.
  - eapply brep_ext; [exact Hr|done..|apply Hr|]. apply (cur_pid_woken s); [done|exact Hps|apply Hr].
  - by destruct Hli; split.
Qed.

Lemma i_step_set_proc ps s i x : procs_woken (k_proc s) ps -> i_step s (set_k_proc ps (set_k_inode (<[i := x]> (k_inode s)) s)) i x.
Proof. intros Hps. exists (k_buf s), (k_lru s), ps, (k_log s). by destruct s. Qed.

(** The locks of the inode cache are free. *)
Definition icache_unlocked s : Prop := (L_icache ∉ k_held s) /\ forall i, L_inode i ∉ k_held s.

Lemma icache_unlocked_step s s' i x : i_step s s' i x -> icache_unlocked s -> icache_unlocked s'.
Proof. by intros (?&?&?&?&->&_). Qed.

(** [iput] of a reference that is not the last one to an inode without
    links. *)
Lemma wp_iput pid d i y V L k Q s : tx s pid [] V d L k -> icache_unlocked s -> k_inode s !! i = Some y ->
  sl_locked (i_lock y) = 0 -> i_valid y = 0 \/ i_nlink y <> 0 \/ i_ref y <> 1 ->
  (forall s', tx s' pid [] V d L k -> i_step s s' i (set_i_ref (i_ref y - 1) (set_i_lock (mk_sleeplock 0 0) y)) -> Q tt s') ->
  wp (iput i) Q s.
Proof.
  intros Ht [Hic Hin] Hy Hlk Hlast HQ. unfold iput. wp_step. pose proof (tx_rep _ _ _ _ _ _ _ (t_txn _ _ _ _ _ _ _ Ht)) as Hr.
  eapply (wp_i_acquiresleep i y pid); [done..|apply Hr|]. wp_step. eapply wp_get_inode; [by apply list_lookup_insert_eq; eapply lookup_lt_Some|].
  set (s1 := set_k_inode _ s). set (y1 := set_i_lock _ y). wp_step.
  assert (k_inode s1 !! i = Some y1) as Hy1 by (apply list_lookup_insert_eq; by eapply lookup_lt_Some).
  assert (wp (when (negb (i_valid y1 =? 0) && (i_nlink y1 =? 0))
    (acquire L_icache;; ip ← get_inode i; let r := i_ref ip in release L_icache;;
     when (r =? 1) (itrunc i;; upd_inode i (set_i_type 0);; iupdate i;; upd_inode i (set_i_valid 0)))) (fun _ s' => s' = s1) s1) as Hskip.
  { unfold when at 1. destruct (negb _ && _) eqn:E; [|by wp_step].
    apply andb_true_iff in E as [E1%negb_true_iff%Z.eqb_neq E2%Z.eqb_eq]. cbn in E1, E2.
    wp_step. apply wp_acquire; [done|]. wp_step. eapply wp_get_inode; [exact Hy1|]. cbn zeta. wp_step. eapply wp_release; [done|].
    unfold when. cbn [i_ref y1 set_i_lock]. rewrite (proj2 (Z.eqb_neq _ _)) by (destruct Hlast as [?|[?|?]]; done). wp_step. by destruct s. }
  eapply wp_mono; [exact Hskip|]. intros [] s' ->. clear Hskip. wp_step.
  eapply (wp_i_releasesleep i y1); [done|apply Hr|done|]. intros ps Hps. wp_step. apply wp_acquire; [done|]. wp_step.
  eapply wp_upd_inode; [apply list_lookup_insert_eq; by eapply lookup_lt_Some|]. eapply wp_release; [done|]. ksimpl.
  unfold s1; ksimpl; rewrite !list_insert_insert_eq. set (y2 := set_i_ref _ _).
  replace (set_k_held _ _) with (set_k_proc ps (set_k_inode (<[i := y2]> (k_inode s)) s)) by (by destruct s).
  apply HQ; [by apply tx_set_proc, tx_set_inode|by apply i_step_set_proc].
Qed.

(** ** Linking names *)

(** C16: Directories are finite maps that [dirlink] updates.  Linking a name
    that the directory does not have returns 0, inside a transaction with
    room for the directory's blocks; the directory then gives the inode
    number to that name (up to its first 14 bytes) and all other names mean
    what they meant before, no block outside of the directory and its inode
    changes, and [dirlookup] of the name returns an inode-cache entry for
    the inode with a reference of its own. *)
Theorem dirlink_dirlookup {DV : Devsw} pid d i name inum k m V x L s :
  linkable s pid d V L k m i x -> 0 < inum < 65536 -> dir_inum x V name = None ->
  icache_room (k_inode s) ROOTDEV inum ->
  wp (dirlink i name inum) (fun r s1 => r = 0 /\ exists V1 L1 x1,
    tx s1 pid [] V1 d L1 k /\ is_dir s1 d V1 x1 /\ k_inode s1 = <[i := x1]> (k_inode s) /\
    (forall name', dir_inum x1 V1 name' = if decide (same_name name' name) then Some inum else dir_inum x V name') /\
    keeps s V V1 (fun a => own_of x V a \/ a = iblock s x) /\
    wp (dirlookup i name) (fun r2 s2 => exists j y off, r2 = Some (j, off) /\ k_inode s2 !! j = Some y /\
      i_dev y = ROOTDEV /\ i_inum y = inum /\ 1 <= i_ref y) s1) s.
Proof.
  intros Hl Hi Habs Hroom. eapply (wp_dirlink pid d i name inum k m); [done..|]. intros s1 V1 L1 x1 [H1 H2 H3 H4 H5 H6 H7].
  split; [done|]. assert (k_inode s1 = <[i := x1]> (k_inode s)) as Et by (by destruct H6 as (?&?&?&?&->&_)).
  pose proof (wr_inode _ _ _ _ _ _ _ _ _ (lk_wr _ _ _ _ _ _ _ _ _ Hl)) as Hx.
  exists V1, L1, x1. split_and!; try done. assert (k_inode s1 !! i = Some x1) as Hx1 by (rewrite Et; apply list_lookup_insert_eq; by eapply lookup_lt_Some).
  eapply (wp_dirlookup pid d); [done..|destruct H6 as (?&?&?&?&->&_); apply Hl|].
  specialize (H4 name). rewrite decide_True in H4 by done. unfold dir_inum, ents_inum in H4.
  destruct (list_find _ _) as [[j de]|]; [|done]. cbn in H4. simplify_eq H4. intros ->. split.
  - destruct Hroom as (y & Hy & Hor). apply list_elem_of_lookup in Hy as [q Hq]. destruct (decide (q = i)) as [->|Hne].
    + exists x1. split; [by eapply list_elem_of_lookup_2|]. simplify_eq. rewrite H7. done.
    + exists y. split; [|done]. apply (list_elem_of_lookup_2 _ q). by rewrite Et, list_lookup_insert_ne.
  - intros i' y y' s2 Hg Ht2 St2. destruct (igot_names _ _ _ _ _ _ Hg) as (? & ? & ?).
    exists i', y', (Z.of_nat j * DIRENTSIZE). split_and!; try done. eapply i_step_lookup; [done|apply Hg].
Qed.

Lemma bind_err {S A B} (m : M S A) (f : A -> M S B) e s : wp m (fun a s' => f a s' = Err e) s -> (m ≫= f) s = Err e.
Proof. unfold wp, mbind, M_bind. by destruct (m s) as [[a s']|]. Qed.
Lemma err_bind {S A B} (m : M S A) (f : A -> M S B) e s : m s = Err e -> (m ≫= f) s = Err e.
Proof. unfold mbind, M_bind. by intros ->. Qed.

(** C37: A name that stands for the directory itself cannot be linked.
    [dirlink] of such a name (["."], or [".."] in the root), called as by
    [sys_link] with the directory locked, does not return [-1]: [iput] waits
    for the directory's lock, which the process itself holds. *)
Theorem dirlink_self_deadlock {DV : Devsw} pid d i name inum k V x L s :
  tx s pid [] V d L k -> k_inode s !! i = Some x -> is_dir s d V x -> icache_unlocked s ->
  i_lock x = mk_sleeplock 1 pid -> 0 < i_ref x ->
  (forall j y, k_inode s !! j = Some y -> iget_hit ROOTDEV (i_inum x) y = true -> j = i) ->
  dir_inum x V name = Some (i_inum x) ->
  dirlink i name inum s = Err Blocked.
Proof.
  intros Ht Hx Hd [Hh Hin] Hlk Href Huniq Hname. unfold dirlink. apply bind_err.
  eapply (wp_dirlookup pid d); [done..|]. unfold dir_inum, ents_inum in Hname.
  destruct (list_find _ _) as [[j de]|]; [|done]. cbn in Hname. simplify_eq Hname. intros ->.
  assert (iget_hit ROOTDEV (i_inum x) x = true) as Hhit.
  { unfold iget_hit. rewrite (proj2 (Z.ltb_lt _ _)) by done. by rewrite (fo_dev _ _ _ _ (id_file _ _ _ _ Hd)), !Z.eqb_refl. }
  split; [exists x; split; [by eapply list_elem_of_lookup_2|by left]|].
  intros i' y y' s' [Hy [[Hhy ->]|(Hno & _ & _)]] Ht' St.
  - pose proof (Huniq _ _ Hy Hhy) as ->. simplify_eq. pose proof (i_step_lookup _ _ _ _ _ St Hx) as Hx'.
    unfold iput, i_acquiresleep, acquiresleep.
    do 2 apply err_bind. apply bind_err, wp_acquire; [by destruct St as (?&?&?&?&->&_)|]. apply bind_err.
    eapply wp_get_ilk; [done|]. cbn [i_lock set_i_ref]. by rewrite Hlk.
  - rewrite Forall_forall in Hno. exfalso. eapply (Hno x); [by eapply list_elem_of_lookup_2|done].
Qed.

(** ** Instances *)

Definition state_root : kstate := set_k_inode (root1 :: replicate 49 inode0) state_fs.

Lemma fblock_root1 bn : 0 <= bn < MAXFILE -> fblock root1 V_fs bn = if bn =? 0 then 2059 else 0.
Proof.
  intros Hbn. unfold fblock. destruct (Z.ltb_spec bn NDIRECT) as [Hlt|]; [|by rewrite (proj2 (Z.eqb_neq bn 0)) by (unfold NDIRECT in *; lia)].
  assert (forallb (fun b => addr_of root1 b =? (if b =? 0 then 2059 else 0)) (seqZ 0 NDIRECT) = true) as H by (by vm_compute).
  rewrite forallb_forall in H. apply Z.eqb_eq, H, list_elem_of_In, elem_of_seqZ. lia.
Qed.

Lemma root1_data : data_block state_root logdev0 V_fs 2059.
Proof.
  split; [cbn; lia|by apply (used_fs 2059)|apply (home_fs 2059); lia|intros b Hb|by vm_compute].
  change (k_sb state_root) with (k_sb state_fs) in *. by rewrite BBLOCK_fs.
Qed.

Lemma root1_file : file_ok state_root logdev0 V_fs root1.
Proof.
  split; [done..| | | |].
  - intros bn Hbn. rewrite fblock_root1 by done. case_if; [intros _; apply root1_data|done].
  - by intros [].
  - intros bn bn' Hbn Hbn'. rewrite !fblock_root1 by done. repeat case_if; bool_prop; lia.
  - intros bn Hbn. rewrite fblock_root1 by done. by case_if.
Qed.

Lemma root1_dir : is_dir state_root logdev0 V_fs root1.
Proof.
  split; [apply root1_file|done|by vm_compute|done|].
  intros bn Hbn Hlt. rewrite fblock_root1 by done. change (i_size root1) with 48 in Hlt. change BSIZE with 512 in Hlt.
  by rewrite (proj2 (Z.eqb_eq bn 0)) by lia.
Qed.

Lemma state_root_linkable k m : (k <= 19)%nat -> (m <= 800)%nat -> linkable state_root 1 logdev0 V_fs [] k m 0 root1.
Proof.
  intros Hk Hm. split; [|apply root1_dir|apply not_elem_of_nil|by vm_compute].
  split; [apply tx_set_inode, state_fs_tx; lia|eapply map_ok_same; [..|apply state_fs_map]; done|done|apply root1_file| |
    eapply nfree_same; [|apply state_fs_nfree]; [done|lia]|done|apply root1_dir|apply root1_dir].
  apply (iblock_ok_same state_fs); [done..|]. split.
  - change (iblock state_fs root1) with 2032. apply home_fs; lia.
  - intros Hr. change (iblock state_fs root1) with 2032. by rewrite used_fs.
  - intros b Hb. by rewrite BBLOCK_fs.
  - change (iblock state_fs root1) with 2032. intros [E|(bn & Hbn & E)]; [done|]. rewrite fblock_root1 in E by done. by destruct (bn =? 0).
Qed.

Lemma dirlink_dirlookup_witness :
  wp (dirlink (DV := no_devices) 0 [98; 99] 7) (fun r s1 => r = 0 /\
    wp (dirlookup (DV := no_devices) 0 [98; 99]) (fun r2 s2 => exists j y off, r2 = Some (j, off) /\ k_inode s2 !! j = Some y /\
      i_dev y = ROOTDEV /\ i_inum y = 7 /\ 1 <= i_ref y) s1) state_root.
Proof.
  eapply wp_mono.
  - apply (@dirlink_dirlookup no_devices 1 logdev0 0 [98; 99] 7 19 800 V_fs root1 [] state_root).
    + apply state_root_linkable; lia.
    + lia.
    + vm_compute. reflexivity.
    + exists inode0. split; [apply (list_elem_of_lookup_2 _ 1%nat); reflexivity|right; reflexivity].
  - intros r s1 (H1 & V1 & L1 & x1 & _ & _ & _ & _ & _ & H2). exact (conj H1 H2).
Defined.

Lemma state_root_hit j y : k_inode state_root !! j = Some y -> iget_hit ROOTDEV 1 y = true -> j = 0%nat.
Proof. destruct j as [|j]; [done|]. intros [-> _]%(proj1 (lookup_replicate 49 inode0 _ _)). by vm_compute. Qed.

Lemma dirlink_self_deadlock_witness : dirlink (DV := no_devices) 0 [46] 2 state_root = Err Blocked.
Proof.
  apply (@dirlink_self_deadlock no_devices 1 logdev0 0 [46] 2 19 V_fs root1 [] state_root).
  - apply tx_set_inode, state_fs_tx. lia.
  - reflexivity.
  - apply root1_dir.
  - split; [apply not_elem_of_nil|intros i; apply not_elem_of_nil].
  - reflexivity.
  - reflexivity.
  - exact state_root_hit.
  - vm_compute. reflexivity.
Defined.
