(* ===== verification/FsPath.v ===== *)
(** * Path names

    [skipelem] and [namex] of [fs.c] find what a path means on the disk: the
    inode number reached from the root, or from the current directory, by
    looking up one element after the other.  The inode cache serves the
    walk: its entries agree with the disk, and no reference is leaked. *)

From Stdlib Require Import ZArith Lia.
From stdpp Require Import base strings numbers gmap list.
From S2P Require Import Prelude Mmu Memory Kernel Sample Sleeplock Bio Block Layout Log Fs FsBlock FsData FsDir.

(** ** The elements of a path *)

(** The path cut at its slashes. *)
Fixpoint split_path (path : list Z) : list (list Z) :=
  match path with
  | [] => [[]]
  | c :: path => if c =? SLASH then [] :: split_path path
                 else match split_path path with e :: es => (c :: e) :: es | [] => [[c]] end
  end.
Definition path_elems (path : list Z) : list (list Z) :=
  take (Z.to_nat DIRSIZ) <$> filter (.≠ []) (split_path path).

Lemma path_elems_slash path : path_elems (SLASH :: path) = path_elems path.
Proof. done. Qed.

Lemma path_elems_skip path : path_elems (skip_slashes path) = path_elems path.
Proof.
  induction path as [|c path IH]; [done|]. cbn [skip_slashes]. destruct (Z.eqb_spec c SLASH) as [->|]; [|done].
  by rewrite path_elems_slash.
Qed.

Lemma take_elem_spec path e rest : take_elem path = (e, rest) ->
  path = e ++ rest /\ (rest = [] \/ exists r, rest = SLASH :: r) /\
  split_path path = match rest with [] => [e] | _ :: r => e :: split_path r end.
Proof.
  revert e rest. induction path as [|c path IH]; intros e rest; cbn [take_elem]; [intros [= <- <-]; auto|].
  destruct (Z.eqb_spec c SLASH) as [->|Hc].
  - intros [= <- <-]. split_and!; [done|right; by exists path|done].
  - destruct (take_elem path) as [e' r'] eqn:E. intros [= <- <-]. destruct (IH _ _ eq_refl) as (-> & Hr & Hs).
    split_and!; [done|done|]. cbn [split_path]. rewrite (proj2 (Z.eqb_neq _ _) Hc), Hs. by destruct r'.
Qed.

Lemma take_elem_ne c path : c <> SLASH -> (take_elem (c :: path)).1 <> [].
Proof. intros H. cbn. rewrite (proj2 (Z.eqb_neq _ _) H). by destruct (take_elem path). Qed.

Lemma skip_slashes_head path c p : skip_slashes path = c :: p -> c <> SLASH.
Proof.
  induction path as [|a path IH]; [done|]. cbn [skip_slashes]. destruct (Z.eqb_spec a SLASH); [done|]. by intros [= -> _].
Qed.
Lemma skip_slashes_length path : (length (skip_slashes path) <= length path)%nat.
Proof. induction path as [|c path IH]; cbn; [done|]. case_if; cbn in *; lia. Qed.
Lemma skip_slashes_idem path : skip_slashes (skip_slashes path) = skip_slashes path.
Proof.
  destruct (skip_slashes path) as [|c p] eqn:E; [done|]. apply skip_slashes_head in E. cbn. by rewrite (proj2 (Z.eqb_neq _ _) E).
Qed.

Lemma path_elems_nil path : path_elems path = [] <-> skip_slashes path = [].
Proof.
  rewrite <-path_elems_skip. destruct (skip_slashes path) as [|c p] eqn:E; [done|]. split; [|done]. intros H. exfalso.
  pose proof (skip_slashes_head _ _ _ E) as Hc. destruct (take_elem (c :: p)) as [e rest] eqn:Et.
  pose proof (take_elem_ne c p Hc) as Hne. rewrite Et in Hne. destruct (take_elem_spec _ _ _ Et) as (_ & _ & Hs).
  unfold path_elems in H. rewrite Hs in H. destruct rest; cbn in H; by rewrite decide_True in H.
Qed.

(** [skipelem] takes the first element off. *)
Lemma skipelem_elems path :
  match skipelem path with
  | None => path_elems path = []
  | Some (e, rest) => path_elems path = e :: path_elems rest /\ (rest = [] <-> path_elems rest = []) /\ (length rest < length path)%nat
  end.
Proof.
  unfold skipelem. destruct (skip_slashes path) as [|c p] eqn:E; [by apply path_elems_nil|].
  pose proof (skip_slashes_head _ _ _ E) as Hc. pose proof (skip_slashes_length path) as Hl. rewrite E in Hl.
  destruct (take_elem (c :: p)) as [e rest] eqn:Et. pose proof (take_elem_ne c p Hc) as Hne. rewrite Et in Hne. cbn in Hne.
  destruct (take_elem_spec _ _ _ Et) as (Hcp & Hr & Hs). split_and!.
  - rewrite path_elems_skip, <-path_elems_skip, E. unfold path_elems. rewrite Hs.
    destruct Hr as [->|[r ->]]; cbn; by rewrite decide_True.
  - by rewrite path_elems_nil, skip_slashes_idem.
  - rewrite Hcp in Hl. rewrite length_app in Hl. pose proof (skip_slashes_length rest). destruct e; [done|]. cbn in Hl. lia.
Qed.

(** ** Inodes on the disk *)

(** Inode [n] as the disk has it. *)
Definition on_disk (sb : superblock) (V : Z -> list Z) (n : Z) : inode :=
  decode_dinode (V (IBLOCK n sb)) (dinode_off n) (mk_inode ROOTDEV n 0 (mk_sleeplock 0 0) 1 0 0 0 0 0 []).
(** The cache entry has what the disk has. *)
Definition agrees (sb : superblock) (V : Z -> list Z) (y : inode) : Prop :=
  y = decode_dinode (V (IBLOCK (i_inum y) sb)) (dinode_off (i_inum y)) y.

Lemma agrees_fields sb V y : agrees sb V y -> let x := on_disk sb V (i_inum y) in
  i_type y = i_type x /\ i_nlink y = i_nlink x /\ i_size y = i_size x /\ i_addrs y = i_addrs x.
Proof. intros E. cbn. split_and!; by rewrite E at 1. Qed.

Lemma addr_of_ext x x' bn : i_addrs x' = i_addrs x -> addr_of x' bn = addr_of x bn.
Proof. unfold addr_of. by intros ->. Qed.
Lemma fblock_ext x x' V bn : i_addrs x' = i_addrs x -> fblock x' V bn = fblock x V bn.
Proof. intros E. unfold fblock. by rewrite !(addr_of_ext x x') by done. Qed.

Lemma is_dir_ext s d V x x' : is_dir s d V x -> i_dev x' = i_dev x -> i_type x' = i_type x -> i_size x' = i_size x ->
  i_addrs x' = i_addrs x -> is_dir s d V x'.
Proof.
  intros [[H1 H2 H3 H4 H5 H6] Ht Hs Hw Ha] Ed Et Es Ea. split; rewrite ?Et, ?Es; try done.
  - split; rewrite ?Ed, ?Ea, ?(addr_of_ext x x') by done; try done; intros *; rewrite ?(fblock_ext x x') by done; auto.
  - intros *. rewrite (fblock_ext x x') by done. auto.
Qed.

Lemma dir_ents_ext x x' V : i_size x' = i_size x -> i_addrs x' = i_addrs x -> dir_ents x' V = dir_ents x V.
Proof.
  intros Es Ea. unfold dir_ents, entry, frange, fbyte, fdata. rewrite Es. apply list_fmap_ext. intros _ k _.
  apply list_fmap_ext. intros _ q _. by rewrite (fblock_ext x x').
Qed.

(** The tree of directories: the inode numbers in [W] can be reached by
    names and are those of live inodes. *)
Record tree s (d : logdev) (V : Z -> list Z) (W : Z -> Prop) : Prop := {
  tr_root : W ROOTINO;
  tr_block : forall n, W n -> IBLOCK n (k_sb s) < k_disksize s;
  tr_type : forall n, W n -> i_type (on_disk (k_sb s) V n) <> 0;
  tr_nlink : forall n, W n -> i_nlink (on_disk (k_sb s) V n) <> 0;
  tr_dir : forall n, W n -> i_type (on_disk (k_sb s) V n) = T_DIR -> is_dir s d V (on_disk (k_sb s) V n);
  tr_closed : forall n e n', W n -> i_type (on_disk (k_sb s) V n) = T_DIR ->
    dir_inum (on_disk (k_sb s) V n) V e = Some n' -> W n';
}.

Lemma tree_same s s' d V W : k_sb s' = k_sb s -> k_disksize s' = k_disksize s -> tree s d V W -> tree s' d V W.
Proof. intros E1 E2 []. split; rewrite ?E1, ?E2; try done. intros. eapply is_dir_same; [done..|]. by apply tr_dir0. Qed.

(** What a path means: the inode number that the elements lead to. *)
Fixpoint resolve (sb : superblock) (V : Z -> list Z) (n : Z) (es : list (list Z)) : option Z :=
  match es with
  | [] => Some n
  | e :: es =>
      let x := on_disk sb V n in
      if i_type x =? T_DIR then n' ← dir_inum x V e; resolve sb V n' es else None
  end.
(** The directory of the last element. *)
Definition resolve_parent (sb : superblock) (V : Z -> list Z) (n : Z) (es : list (list Z)) : option (Z * list Z) :=
  match last es with
  | None => None
  | Some e =>
      n' ← resolve sb V n (removelast es);
      if i_type (on_disk sb V n') =? T_DIR then Some (n', e) else None
  end.

Lemma resolve_parent_cons sb V n e es : es <> [] -> resolve_parent sb V n (e :: es) =
  (if i_type (on_disk sb V n) =? T_DIR then n' ← dir_inum (on_disk sb V n) V e; resolve_parent sb V n' es else None).
Proof.
  intros Hne. unfold resolve_parent. destruct es as [|e' es]; [done|].
  change (last (e :: e' :: es)) with (last (e' :: es)). change (removelast (e :: e' :: es)) with (e :: removelast (e' :: es)).
  cbn [resolve]. cbn zeta. destruct (last (e' :: es)) as [l|] eqn:El; [|by apply last_None in El].
  case_if; [|done]. by destruct (dir_inum _ _ _).
Qed.

(** ** The inode cache during a walk *)

(** Entries in use are for different inodes, and agree with the disk once
    they are read; only [lk] is locked. *)
Record icache_ok (sb : superblock) (V : Z -> list Z) (T : list inode) (lk : option nat) : Prop := {
  ic_ref : forall i y, T !! i = Some y -> 0 <= i_ref y;
  ic_lock : forall i y, T !! i = Some y -> lk <> Some i -> sl_locked (i_lock y) = 0;
  ic_dev : forall i y, T !! i = Some y -> 0 < i_ref y -> i_dev y = ROOTDEV;
  ic_uniq : forall i j y z, T !! i = Some y -> T !! j = Some z -> 0 < i_ref y -> 0 < i_ref z -> i_inum y = i_inum z -> i = j;
  ic_agree : forall i y, T !! i = Some y -> 0 < i_ref y -> i_valid y <> 0 -> agrees sb V y;
}.

Definition ref_of (T : list inode) (q : nat) : Z := from_option i_ref 0 (T !! q).
(** How often [q] is in [R], the references taken. *)
Fixpoint held_refs (R : list nat) (q : nat) : Z :=
  match R with [] => 0 | i :: R => (if decide (q = i) then 1 else 0) + held_refs R q end.

Lemma held_refs_nonneg R q : 0 <= held_refs R q.
Proof. induction R as [|i R IH]; cbn; [done|]. case_decide; lia. Qed.

Lemma ref_of_insert T i y q : (i < length T)%nat -> ref_of (<[i := y]> T) q = if decide (q = i) then i_ref y else ref_of T q.
Proof. intros Hi. unfold ref_of. case_decide as E; [subst; by rewrite list_lookup_insert_eq|by rewrite list_lookup_insert_ne]. Qed.

Lemma icache_set sb V T lk lk' i y y' : icache_ok sb V T lk -> T !! i = Some y -> 0 <= i_ref y' ->
  (lk' <> Some i -> sl_locked (i_lock y') = 0) -> (forall j, j <> i -> lk' <> Some j -> lk <> Some j) ->
  (0 < i_ref y' -> i_dev y' = ROOTDEV /\ (i_valid y' <> 0 -> agrees sb V y') /\
     forall j z, T !! j = Some z -> 0 < i_ref z -> i_inum z = i_inum y' -> j = i) ->
  icache_ok sb V (<[i := y']> T) lk'.
Proof.
  intros [H1 H2 H3 H4 H5] Hi Hr Hlk Hlk' Hpos. assert (i < length T)%nat as Hlt by (by eapply lookup_lt_Some).
  assert (forall j z, <[i := y']> T !! j = Some z -> j = i /\ z = y' \/ j <> i /\ T !! j = Some z) as Hl.
  { intros j z. destruct (decide (j = i)) as [->|]; [rewrite list_lookup_insert_eq by done|rewrite list_lookup_insert_ne by done]; naive_solver. }
  split.
  - intros j z [[-> ->]|[? ?]]%Hl; eauto.
  - intros j z [[-> ->]|[? ?]]%Hl ?; eauto.
  - intros j z [[-> ->]|[? ?]]%Hl ?; [by apply Hpos|eauto].
  - intros j j' z z' [[-> ->]|[? ?]]%Hl [[-> ->]|[? ?]]%Hl ? ? E; [done| | |eauto].
    + symmetry. by eapply (proj2 (proj2 (Hpos ltac:(done)))).
    + by eapply (proj2 (proj2 (Hpos ltac:(done)))).
  - intros j z [[-> ->]|[? ?]]%Hl ? ?; [by apply Hpos|eauto].
Qed.

(** Changing the lock and the count of an entry in use. *)
Lemma icache_touch sb V T lk lk' i y l r : icache_ok sb V T lk -> T !! i = Some y -> 0 < i_ref y -> 0 <= r ->
  (lk' <> Some i -> sl_locked l = 0) -> (forall j, j <> i -> lk' <> Some j -> lk <> Some j) ->
  icache_ok sb V (<[i := set_i_ref r (set_i_lock l y)]> T) lk'.
Proof.
  intros H Hi Hy Hr Hl Hlk. eapply icache_set; [exact H|exact Hi|done|done|done|]. intros _. split_and!.
  - exact (ic_dev _ _ _ _ H _ _ Hi Hy).
  - intros Hv. pose proof (ic_agree _ _ _ _ H _ _ Hi Hy Hv) as E. exact (f_equal (fun y => set_i_ref r (set_i_lock l y)) E).
  - intros j z Hj Hz E. by eapply (ic_uniq _ _ _ _ H).
Qed.

Lemma icache_igot sb V T lk n i y y' : icache_ok sb V T lk -> igot T ROOTDEV n i y y' -> icache_ok sb V (<[i := y']> T) lk.
Proof.
  intros H [Hi Hor]. eapply icache_set; [exact H|exact Hi| | |done|].
  - destruct Hor as [[_ ->]|(_ & _ & ->)]; [|done]. cbn. pose proof (ic_ref _ _ _ _ H _ _ Hi). lia.
  - intros Hl. destruct Hor as [[_ ->]|(_ & _ & ->)]; exact (ic_lock _ _ _ _ H _ _ Hi Hl).
  - intros _. destruct Hor as [[Hh ->]|(Hno & _ & ->)].
    + unfold iget_hit in Hh. apply andb_true_iff in Hh as [[H1%Z.ltb_lt H2%Z.eqb_eq]%andb_true_iff H3%Z.eqb_eq]. split_and!; [done| |].
      * intros Hv. pose proof (ic_agree _ _ _ _ H _ _ Hi H1 Hv) as E. exact (f_equal (set_i_ref (i_ref y + 1)) E).
      * intros j z Hj Hz E. by eapply (ic_uniq _ _ _ _ H).
    + split_and!; [done|done|]. intros j z Hj Hz E. exfalso. rewrite Forall_forall in Hno. apply (Hno z); [by eapply list_elem_of_lookup_2|].
      unfold iget_hit. cbn in E. rewrite (proj2 (Z.ltb_lt _ _)) by done. by rewrite (ic_dev _ _ _ _ H _ _ Hj Hz), E, !Z.eqb_refl.
Qed.

(** What a walk changes: the cache of inodes and what reading changes. *)
Definition ic_step s s' : Prop := exists T, length T = length (k_inode s) /\ fs_step (set_k_inode T s) s'.

Lemma ic_step_refl s : ic_step s s.
Proof. exists (k_inode s). split; [done|]. replace (set_k_inode (k_inode s) s) with s by (by destruct s). apply fs_step_refl. Qed.
Lemma ic_step_i s0 s s' i y : ic_step s0 s -> i_step s s' i y -> ic_step s0 s'.
Proof.
  intros (T & Hl & bs & lru & ps & lg & -> & Hp & Ho) (bs' & lru' & ps' & lg' & -> & Hp' & Ho').
  exists (<[i := y]> T). split; [by rewrite length_insert|]. exists bs', lru', ps', lg'. split_and!; [done| |].
  - by eapply procs_woken_trans.
  - by rewrite Ho'.
Qed.
Lemma ic_step_same s s' : ic_step s s' ->
  k_sb s' = k_sb s /\ k_disksize s' = k_disksize s /\ length (k_inode s') = length (k_inode s) /\ k_held s' = k_held s.
Proof. by intros (?&?&?&?&?&?&->&_). Qed.

(** On a walk from [s0] that has taken the references [R] and holds the
    lock of [lk]. *)
Record walk s0 s pid d V L k (lk : option nat) (R : list nat) : Prop := {
  wk_tx : tx s pid [] V d L k;
  wk_un : icache_unlocked s;
  wk_ok : icache_ok (k_sb s0) V (k_inode s) lk;
  wk_step : ic_step s0 s;
  wk_refs : forall q, ref_of (k_inode s) q = ref_of (k_inode s0) q + held_refs R q;
}.

Lemma walk_set s0 s s' pid d V L k lk lk' R R' i y y' : walk s0 s pid d V L k lk R -> k_inode s !! i = Some y ->
  tx s' pid [] V d L k -> i_step s s' i y' -> icache_ok (k_sb s0) V (<[i := y']> (k_inode s)) lk' ->
  (forall q, held_refs R' q = held_refs R q + if decide (q = i) then i_ref y' - i_ref y else 0) ->
  walk s0 s' pid d V L k lk' R' /\ k_inode s' = <[i := y']> (k_inode s).
Proof.
  intros [H1 H2 H3 H4 H5] Hi Ht St Hok Hr.
  assert (k_inode s' = <[i := y']> (k_inode s)) as Et by (by destruct St as (?&?&?&?&->&_)). split; [|done]. split.
  - done.
  - by eapply icache_unlocked_step.
  - by rewrite Et.
  - by eapply ic_step_i.
  - intros q. rewrite Et, ref_of_insert by (by eapply lookup_lt_Some). rewrite Hr. specialize (H5 q).
    case_decide; [subst|lia]. unfold ref_of in H5 at 1. rewrite Hi in H5. cbn in H5. lia.
Qed.

(** Entry [y] is for inode [n], read, and locked by [pid]. *)
Record locked_at (sb : superblock) (V : Z -> list Z) (pid n : Z) (y : inode) : Prop := {
  la_lock : i_lock y = mk_sleeplock 1 pid;
  la_ref : 0 < i_ref y;
  la_inum : i_inum y = n;
  la_dev : i_dev y = ROOTDEV;
  la_valid : i_valid y <> 0;
  la_agree : agrees sb V y;
}.

Section ops.
Context (s0 : kstate) (pid : Z) (d : logdev) (V : Z -> list Z) (W : Z -> Prop) (Htree : tree s0 d V W).

(** The read of the inode in [ilock]. *)
Lemma wp_fill i y L k Q s : tx s pid [] V d L k -> k_sb s = k_sb s0 -> k_disksize s = k_disksize s0 ->
  k_inode s !! i = Some y -> i_dev y = ROOTDEV -> W (i_inum y) ->
  (let y' := set_i_valid 1 (decode_dinode (V (IBLOCK (i_inum y) (k_sb s0))) (dinode_off (i_inum y)) y) in
   forall s', tx s' pid [] V d L k -> i_step s s' i y' -> Q tt s') ->
  wp (sb ← gets k_sb;
      bp ← bread (i_dev y) (IBLOCK (i_inum y) sb);
      buf ← get_buf bp;
      upd_inode i (decode_dinode (b_data buf) (dinode_off (i_inum y)));;
      brelse bp;;
      upd_inode i (set_i_valid 1);;
      ip ← get_inode i;
      if i_type ip =? 0 then panic "ilock: no type" else mret tt) Q s.
Proof.
  intros Ht Esb Eds Hi Hdev HW HQ. assert (i < length (k_inode s))%nat as Hlt by (by eapply lookup_lt_Some).
  wp_step. apply wp_gets. rewrite Hdev, Esb. set (n := i_inum y) in *. wp_step.
  eapply (wp_tx_bread pid d (IBLOCK n (k_sb s0))); [done|apply not_elem_of_nil|cbn; lia|rewrite Eds; by eapply tr_block|].
  intros bp s2 Ht2 St2 _ Hset. wp_step. eapply (wp_tx_get pid d (IBLOCK n (k_sb s0))); [done|by left|]. intros b ->. wp_step.
  eapply wp_upd_inode; [by rewrite (fs_step_inode _ _ St2)|]. set (y2 := decode_dinode _ _ y). wp_step.
  eapply (wp_tx_brelse pid d (IBLOCK n (k_sb s0)) bp); [by apply tx_set_inode|by left|exact Hset|]. intros s3 Ht3 St3.
  assert (k_inode s3 !! i = Some y2) as Hy3.
  { rewrite (fs_step_inode _ _ St3). ksimpl. apply list_lookup_insert_eq. by rewrite (fs_step_inode _ _ St2). }
  wp_step. eapply wp_upd_inode; [exact Hy3|]. set (y3 := set_i_valid 1 y2). wp_step.
  eapply wp_get_inode; [apply list_lookup_insert_eq; by eapply lookup_lt_Some|].
  rewrite (proj2 (Z.eqb_neq (i_type y3) 0)) by exact (tr_type _ _ _ _ Htree _ HW). wp_step.
  rewrite drop_held_cons in Ht3 by apply not_elem_of_nil. apply HQ; [by apply tx_set_inode|]. unfold i_step.
  destruct St3 as (bs&lru&ps&lg&->&Hp&Ho), St2 as (bs'&lru'&ps'&lg'&->&Hp'&Ho'). exists bs, lru, ps, lg. split_and!.
  - destruct s. ksimpl. by rewrite list_insert_insert_eq.
  - by eapply procs_woken_trans.
  - by rewrite Ho.
Qed.

Lemma wp_walk_ilock i y L k R Q s : walk s0 s pid d V L k None R -> k_inode s !! i = Some y -> 0 < i_ref y -> W (i_inum y) ->
  (forall s' y', walk s0 s' pid d V L k (Some i) R -> k_inode s' = <[i := y']> (k_inode s) -> i_ref y' = i_ref y ->
     locked_at (k_sb s0) V pid (i_inum y) y' -> Q tt s') ->
  wp (ilock i) Q s.
Proof.
  intros Hw Hi Hr HW HQ. pose proof Hw as [Ht [Hic Hin] Hok Hst _]. destruct (ic_step_same _ _ Hst) as (Esb & Eds & _ & _).
  pose proof (tx_rep _ _ _ _ _ _ _ (t_txn _ _ _ _ _ _ _ Ht)) as Hrep. pose proof (ic_dev _ _ _ _ Hok _ _ Hi Hr) as Hdev.
  unfold ilock. wp_step. eapply wp_get_inode; [done|]. rewrite (proj2 (Z.ltb_ge _ _)) by lia. wp_step.
  eapply (wp_i_acquiresleep i y pid); [done..|by eapply (ic_lock _ _ _ _ Hok)|apply Hrep|]. set (y1 := set_i_lock _ y).
  set (s1 := set_k_inode _ s). wp_step. assert (k_inode s1 !! i = Some y1) as Hy1 by (apply list_lookup_insert_eq; by eapply lookup_lt_Some).
  eapply wp_get_inode; [exact Hy1|]. unfold when. destruct (Z.eqb_spec (i_valid y1) 0) as [Ev|Ev].
  - apply (wp_fill i y1 L k); [by apply tx_set_inode|done..|]. cbn zeta. set (y3 := set_i_valid 1 _). intros s' Ht' St'.
    destruct (walk_set s0 s s' pid d V L k None (Some i) R R i y y3 Hw Hi Ht') as [Hw' Et].
    + unfold i_step in *. unfold s1 in St'. ksimpl. rewrite list_insert_insert_eq in St'. by destruct s.
    + eapply icache_set; [exact Hok|exact Hi|cbn; lia|done|done|]. intros _. split_and!; [done|done|].
      intros j z Hj Hz E. by eapply (ic_uniq _ _ _ _ Hok).
    + intros q. case_decide; cbn; lia.
    + by eapply (HQ _ y3).
  - wp_step. destruct (walk_set s0 s s1 pid d V L k None (Some i) R R i y y1 Hw Hi) as [Hw' Et].
    + by apply tx_set_inode.
    + apply fs_step_refl.
    + replace y1 with (set_i_ref (i_ref y) (set_i_lock (mk_sleeplock 1 pid) y)) by (by destruct y).
      eapply icache_touch; [exact Hok|exact Hi|done|lia|done|done].
    + intros q. case_decide; cbn; lia.
    + eapply (HQ _ y1); [exact Hw'|exact Et|done|]. split; try done.
      pose proof (ic_agree _ _ _ _ Hok _ _ Hi Hr Ev) as E. exact (f_equal (set_i_lock _) E).
Qed.

Lemma wp_walk_iunlock i y n L k R Q s : walk s0 s pid d V L k (Some i) R -> k_inode s !! i = Some y -> locked_at (k_sb s0) V pid n y ->
  (forall s', walk s0 s' pid d V L k None R -> k_inode s' = <[i := set_i_lock (mk_sleeplock 0 0) y]> (k_inode s) -> Q tt s') ->
  wp (iunlock i) Q s.
Proof.
  intros Hw Hi [Hlk Hr Hn Hdev Hv Hag] HQ. pose proof Hw as [Ht [Hic Hin] Hok Hst _].
  pose proof (tx_rep _ _ _ _ _ _ _ (t_txn _ _ _ _ _ _ _ Ht)) as Hrep.
  unfold iunlock. wp_step. eapply (wp_i_holdingsleep i y pid); [done..|apply Hrep|]. wp_step. eapply wp_get_inode; [done|].
  rewrite (proj2 (Z.ltb_ge _ _)) by lia. cbn [negb orb]. eapply wp_i_releasesleep; [done|apply Hrep|done|]. intros ps Hps.
  set (y1 := set_i_lock _ y). destruct (walk_set s0 s (set_k_proc ps (set_k_inode (<[i := y1]> (k_inode s)) s)) pid d V L k (Some i) None R R i y y1 Hw Hi)
    as [Hw' Et]; [by apply tx_set_proc, tx_set_inode|by apply i_step_set_proc| | |by eapply HQ].
  - replace y1 with (set_i_ref (i_ref y) (set_i_lock (mk_sleeplock 0 0) y)) by (by destruct y).
    eapply icache_touch; [exact Hok|exact Hi|done|lia|done|]. intros j Hj _ [=]. done.
  - intros q. case_decide; cbn; lia.
Qed.

Lemma wp_walk_iput i y L k R R' Q s : walk s0 s pid d V L k None R -> k_inode s !! i = Some y -> 0 < i_ref y -> W (i_inum y) ->
  (forall q, held_refs R q = (if decide (q = i) then 1 else 0) + held_refs R' q) ->
  (forall s', walk s0 s' pid d V L k None R' -> k_inode s' = <[i := set_i_ref (i_ref y - 1) (set_i_lock (mk_sleeplock 0 0) y)]> (k_inode s) -> Q tt s') ->
  wp (iput i) Q s.
Proof.
  intros Hw Hi Hr HW Hrefs HQ. pose proof Hw as [Ht Hun Hok Hst _].
  eapply (wp_iput pid d i y); [done..|by eapply (ic_lock _ _ _ _ Hok)| |].
  { destruct (decide (i_valid y = 0)) as [|Hv]; [by left|right; left].
    destruct (agrees_fields _ _ _ (ic_agree _ _ _ _ Hok _ _ Hi Hr Hv)) as (_ & -> & _ & _). by eapply tr_nlink. }
  intros s' Ht' St. destruct (walk_set s0 s s' pid d V L k None None R R' i y _ Hw Hi Ht' St) as [Hw' Et]; [| |by apply HQ].
  - eapply icache_touch; [exact Hok|exact Hi|done|lia|done|done].
  - intros q. rewrite Hrefs. case_decide; cbn; lia.
Qed.

Lemma wp_walk_iunlockput i y n L k R R' Q s : walk s0 s pid d V L k (Some i) R -> k_inode s !! i = Some y -> locked_at (k_sb s0) V pid n y ->
  W n -> (forall q, held_refs R q = (if decide (q = i) then 1 else 0) + held_refs R' q) ->
  (forall s', walk s0 s' pid d V L k None R' -> k_inode s' = <[i := set_i_ref (i_ref y - 1) (set_i_lock (mk_sleeplock 0 0) y)]> (k_inode s) -> Q tt s') ->
  wp (iunlockput i) Q s.
Proof.
  intros Hw Hi Hla HW Hrefs HQ. unfold iunlockput. wp_step. eapply wp_walk_iunlock; [done..|]. intros s1 Hw1 Et1.
  eapply wp_walk_iput; [done|rewrite Et1; apply list_lookup_insert_eq; by eapply lookup_lt_Some|by destruct Hla| |done|].
  { cbn. by rewrite (la_inum _ _ _ _ _ Hla). }
  intros s2 Hw2 Et2. apply HQ; [done|]. by rewrite Et2, Et1, list_insert_insert_eq.
Qed.

(** Two entries are free: one for the inode at hand, one for the next. *)
Definition two_free (T : list inode) : Prop :=
  exists a b, a <> b /\ (a < length T)%nat /\ (b < length T)%nat /\ ref_of T a = 0 /\ ref_of T b = 0.

Lemma walk_room i L k lk R n s : two_free (k_inode s0) -> walk s0 s pid d V L k lk R ->
  R = [i] \/ R = [] -> icache_room (k_inode s) ROOTDEV n.
Proof.
  intros (a & b & Hne & Ha & Hb & Ra & Rb) Hw HR. destruct (ic_step_same _ _ (wk_step _ _ _ _ _ _ _ _ _ Hw)) as (_ & _ & El & _).
  assert (exists q, (q < length (k_inode s))%nat /\ ref_of (k_inode s) q = 0) as (q & Hq & Rq).
  { pose proof (wk_refs _ _ _ _ _ _ _ _ _ Hw) as Hr. rewrite El. destruct HR as [->| ->]; cbn in Hr.
    - destruct (decide (a = i)) as [->|]; [exists b|exists a]; rewrite Hr, decide_False by congruence; split; lia.
    - exists a. rewrite Hr. split; lia. }
  destruct (lookup_lt_is_Some_2 _ _ Hq) as [z Hz]. exists z. split; [by eapply list_elem_of_lookup_2|right].
  unfold ref_of in Rq. by rewrite Hz in Rq.
Qed.

Lemma igot_walk L k lk R n i y y' s s' : walk s0 s pid d V L k lk R -> igot (k_inode s) ROOTDEV n i y y' ->
  tx s' pid [] V d L k -> i_step s s' i y' -> walk s0 s' pid d V L k lk (i :: R) /\ k_inode s' = <[i := y']> (k_inode s).
Proof.
  intros Hw Hg Ht St. eapply walk_set; [exact Hw|apply Hg|done|done| |].
  - eapply icache_igot; [apply Hw|done].
  - destruct Hg as [_ [[_ ->]|(_ & Hz & ->)]]; intros q; cbn; case_decide; lia.
Qed.

Lemma walk_fs L k lk R s s' : walk s0 s pid d V L k lk R -> tx s' pid [] V d L k -> fs_step s s' -> walk s0 s' pid d V L k lk R.
Proof.
  intros [H1 H2 H3 (T & Hl & St) H5] Ht St'. pose proof (fs_step_inode _ _ St') as Ei. split; rewrite ?Ei; try done.
  - by destruct St' as (?&?&?&?&->&_).
  - exists T. split; [done|]. by eapply fs_step_trans.
Qed.

Lemma wp_walk_dirlookup {DV : Devsw} i y n e L k Q s : two_free (k_inode s0) -> walk s0 s pid d V L k (Some i) [i] ->
  k_inode s !! i = Some y -> locked_at (k_sb s0) V pid n y -> W n -> i_type (on_disk (k_sb s0) V n) = T_DIR ->
  match dir_inum (on_disk (k_sb s0) V n) V e with
  | None => forall s', walk s0 s' pid d V L k (Some i) [i] -> k_inode s' = k_inode s -> Q None s'
  | Some n' => forall j off s' z y', walk s0 s' pid d V L k (Some i) [j; i] -> k_inode s' !! j = Some z -> i_inum z = n' -> W n' ->
      k_inode s' !! i = Some y' -> locked_at (k_sb s0) V pid n y' -> Q (Some (j, off)) s'
  end ->
  wp (dirlookup i e) Q s.
Proof.
  intros Hfree Hw Hi Hla HW Hty HQ. pose proof Hla as [Hlk Hr Hn Hdev Hv Hag]. destruct (ic_step_same _ _ (wk_step _ _ _ _ _ _ _ _ _ Hw)) as (Esb & Eds & _ & _).
  destruct (agrees_fields _ _ _ Hag) as (E1 & _ & E3 & E4). rewrite Hn in *.
  assert (dir_ents y V = dir_ents (on_disk (k_sb s0) V n) V) as Eents by (by apply dir_ents_ext).
  eapply (wp_dirlookup pid d); [apply Hw|done| |apply Hw|].
  { eapply is_dir_same; [done..|]. eapply is_dir_ext; [by apply (tr_dir _ _ _ _ Htree n)|done..]. }
  rewrite Eents. unfold dir_inum, ents_inum in HQ. pose proof (fun n' => tr_closed _ _ _ _ Htree n e n' HW Hty) as Hcl. unfold dir_inum, ents_inum in Hcl.
  destruct (list_find _ _) as [[j de]|]; cbn in HQ, Hcl.
  - split; [eapply walk_room; [done|exact Hw|by left]|]. intros i' z z' s' Hg Ht' St. destruct (igot_walk _ _ _ _ _ _ _ _ _ _ Hw Hg Ht' St) as [Hw' Et].
    assert (k_inode s' !! i' = Some z') as Hz' by (rewrite Et; apply list_lookup_insert_eq, (lookup_lt_Some _ _ z), Hg).
    assert (i_inum z' = de_inum de) as Ez by apply (igot_names _ _ _ _ _ _ Hg).
    destruct (decide (i' = i)) as [->|Hne].
    + eapply (HQ i _ s' z' z'); [done..|by apply Hcl|done|]. destruct Hg as [Hy [[Hh ->]|(_ & Hz & _)]]; simplify_eq; [|lia].
      split; try done; [cbn; lia|]. exact (f_equal (set_i_ref (i_ref y + 1)) Hag).
    + eapply (HQ i' _ s' z' y); [done..|by apply Hcl| |done]. by rewrite Et, list_lookup_insert_ne.
  - intros s' Ht' St. apply HQ; [by eapply walk_fs|by apply fs_step_inode].
Qed.

Context (Hok0 : icache_ok (k_sb s0) V (k_inode s0) None).

Lemma walk_ref_pos i y L k lk R s : walk s0 s pid d V L k lk R -> i ∈ R -> k_inode s !! i = Some y -> 0 < i_ref y.
Proof.
  intros Hw HR Hi. pose proof (wk_refs _ _ _ _ _ _ _ _ _ Hw i) as E. unfold ref_of in E at 1. rewrite Hi in E. cbn in E.
  assert (0 <= ref_of (k_inode s0) i) as Hr0.
  { unfold ref_of. destruct (k_inode s0 !! i) as [z|] eqn:Ez; [|done]. exact (ic_ref _ _ _ _ Hok0 _ _ Ez). }
  assert (1 <= held_refs R i); [|lia]. clear -HR. induction R as [|j R IH]; [by apply elem_of_nil in HR|]. cbn.
  pose proof (held_refs_nonneg R i). apply elem_of_cons in HR as [->|HR]; [rewrite decide_True by done; lia|]. specialize (IH HR). case_decide; lia.
Qed.

(** Where a path leads, with the last element of the name when it is the
    parent that is looked for. *)
Definition meaning (np : bool) (n : Z) (es : list (list Z)) : option (Z * option (list Z)) :=
  if np then (fun '(n, e) => (n, Some e)) <$> resolve_parent (k_sb s0) V n es
  else (fun n => (n, None)) <$> resolve (k_sb s0) V n es.

Lemma meaning_cons np n e es : np = false \/ es <> [] -> meaning np n (e :: es) =
  (if i_type (on_disk (k_sb s0) V n) =? T_DIR then n' ← dir_inum (on_disk (k_sb s0) V n) V e; meaning np n' es else None).
Proof.
  intros H. unfold meaning. destruct np; [rewrite resolve_parent_cons by (by destruct H)|cbn [resolve]]; cbn zeta; case_if; try done;
    by destruct (dir_inum _ _ _).
Qed.

Lemma meaning_last n e : meaning true n [e] = if i_type (on_disk (k_sb s0) V n) =? T_DIR then Some (n, Some e) else None.
Proof.
  unfold meaning, resolve_parent. cbn [last removelast resolve].
  cbn [mbind option_bind]. by destruct (i_type (on_disk (k_sb s0) V n) =? T_DIR).
Qed.

(** What a walk to [m] returns. *)
Definition walked L k (m : option (Z * option (list Z))) (r : option (nat * list Z)) s : Prop :=
  match m with
  | None => r = None /\ walk s0 s pid d V L k None []
  | Some (n, e) => exists i name y, r = Some (i, name) /\ (forall e', e = Some e' -> name = e') /\
      walk s0 s pid d V L k None [i] /\ k_inode s !! i = Some y /\ i_inum y = n
  end.

(** One element of the path. *)
Lemma wp_walk_elem {DV : Devsw} np ip path name L k y Q s : two_free (k_inode s0) ->
  walk s0 s pid d V L k None [ip] -> k_inode s !! ip = Some y -> W (i_inum y) ->
  (forall r s', walked L k (meaning np (i_inum y) (path_elems path)) r s' -> Q (inr r) s') ->
  (forall ip' path' name' s' y', walk s0 s' pid d V L k None [ip'] -> k_inode s' !! ip' = Some y' -> W (i_inum y') ->
     meaning np (i_inum y') (path_elems path') = meaning np (i_inum y) (path_elems path) -> (length path' < length path)%nat ->
     Q (inl (ip', path', name')) s') ->
  wp (match skipelem path with
      | None => if np : bool then iput ip;; mret (inr None) else mret (inr (Some (ip, name)))
      | Some (name, path) =>
          ilock ip;;
          x ← get_inode ip;
          if negb (i_type x =? T_DIR) then iunlockput ip;; mret (inr None)
          else if np && bool_decide (path = []) then iunlock ip;; mret (inr (Some (ip, name)))
          else
            next ← dirlookup ip name;
            match next with
            | None => iunlockput ip;; mret (inr None)
            | Some (next, _) => iunlockput ip;; mret (inl (next, path, name))
            end
      end) Q s.
Proof.
  intros Hfree Hw Hi HW Hret Hnext. pose proof (skipelem_elems path) as Hsk. assert (0 < i_ref y) as Hr by (eapply walk_ref_pos; [exact Hw|by left|done]).
  destruct (skipelem path) as [[e rest]|].
  2:{ rewrite Hsk in Hret. destruct np.
      - wp_step. eapply wp_walk_iput; [exact Hw|done..|by intros q|]. intros s' Hw' _. wp_step. by apply Hret.
      - wp_step. apply Hret. exists ip, name, y. by split_and!. }
  destruct Hsk as (Hes & Hrest & Hlen). wp_step. eapply wp_walk_ilock; [done..|]. intros s1 y1 Hw1 Et1 _ Hla.
  assert (k_inode s1 !! ip = Some y1) as Hi1 by (rewrite Et1; apply list_lookup_insert_eq; by eapply lookup_lt_Some).
  wp_step. eapply wp_get_inode; [exact Hi1|]. pose proof (la_inum _ _ _ _ _ Hla) as Hn1.
  destruct (agrees_fields _ _ _ (la_agree _ _ _ _ _ Hla)) as (-> & _). rewrite Hn1. rewrite Hes in Hret, Hnext. set (n := i_inum y) in *.
  destruct (Z.eqb_spec (i_type (on_disk (k_sb s0) V n)) T_DIR) as [Ety|Ety]; cbn [negb].
  2:{ wp_step. eapply wp_walk_iunlockput; [exact Hw1|done..|by intros q|]. intros s2 Hw2 _. wp_step. apply Hret.
      assert (meaning np n (e :: path_elems rest) = None) as ->; [|done].
      destruct (decide (np = false \/ path_elems rest <> [])) as [Hc|Hc].
      - rewrite meaning_cons by done. by rewrite (proj2 (Z.eqb_neq _ _)).
      - destruct np; [|by destruct Hc; left]. destruct (path_elems rest); [|by destruct Hc; right]. by rewrite meaning_last, (proj2 (Z.eqb_neq _ _)). }
  destruct (np && bool_decide (rest = [])) eqn:Estop.
  - apply andb_true_iff in Estop as [-> Enil%bool_decide_eq_true]. apply Hrest in Enil. rewrite Enil in Hret. wp_step.
    eapply wp_walk_iunlock; [done..|]. intros s2 Hw2 Et2. wp_step. apply Hret. rewrite meaning_last, (proj2 (Z.eqb_eq _ _) Ety).
    exists ip, e, (set_i_lock (mk_sleeplock 0 0) y1). split_and!; try done; [congruence|]. rewrite Et2. apply list_lookup_insert_eq. by eapply lookup_lt_Some.
  - assert (np = false \/ path_elems rest <> []) as Hgo.
    { destruct np; [right|by left]. cbn in Estop. apply bool_decide_eq_false in Estop. by rewrite <-Hrest. }
    rewrite meaning_cons in Hret, Hnext by done. rewrite (proj2 (Z.eqb_eq _ _) Ety) in Hret, Hnext. wp_step.
    eapply wp_walk_dirlookup; [done..|]. destruct (dir_inum _ V e) as [n'|]; cbn in Hret, Hnext.
    + intros j off s2 z y2 Hw2 Hz Ez HW' Hi2 Hla2. wp_step. eapply (wp_walk_iunlockput ip y2 n L k [j; ip] [j]); [done..|intros q; cbn; lia|].
      intros s3 Hw3 Et3. wp_step. destruct (decide (j = ip)) as [->|Hne].
      * simplify_eq. eapply Hnext; [exact Hw3|rewrite Et3; apply list_lookup_insert_eq; by eapply lookup_lt_Some|done|done|done].
      * eapply Hnext; [exact Hw3|by rewrite Et3, list_lookup_insert_ne|by rewrite Ez|by rewrite Ez|done].
    + intros s2 Hw2 Et2. wp_step. eapply wp_walk_iunlockput; [exact Hw2|by rewrite Et2|done|done|by intros q|]. intros s3 Hw3 _. wp_step. by apply Hret.
Qed.

(** The inode that a path starts from. *)
Definition starts_at (path : list Z) (n : Z) : Prop :=
  if bool_decide (head path = Some SLASH) then n = ROOTINO
  else exists c p i y, k_cur s0 = Some c /\ k_proc s0 !! c = Some p /\ p_cwd p = Some i /\ k_inode s0 !! i = Some y /\
    0 < i_ref y /\ i_inum y = n /\ W n.

Lemma wp_walk_start path n L k Q : two_free (k_inode s0) -> walk s0 s0 pid d V L k None [] -> starts_at path n ->
  (forall i s y, walk s0 s pid d V L k None [i] -> k_inode s !! i = Some y -> i_inum y = n -> W n -> Q i s) ->
  wp (if bool_decide (head path = Some SLASH) then iget ROOTDEV ROOTINO
      else c ← curproc; p ← get_proc c; cwd ← the (p_cwd p); idup cwd) Q s0.
Proof.
  intros Hfree Hw Hst HQ. unfold starts_at in Hst. pose proof (wk_tx _ _ _ _ _ _ _ _ _ Hw) as Ht. destruct (bool_decide _).
  - subst n. apply wp_iget; [apply Hw|by eapply (walk_room 0); [done|exact Hw|right]|]. intros i y y' Hg.
    destruct (igot_walk _ _ _ _ _ _ _ _ _ (set_k_inode (<[i := y']> (k_inode s0)) s0) Hw Hg) as [Hw' Et].
    + by apply tx_set_inode.
    + apply fs_step_refl.
    + eapply HQ; [exact Hw'|rewrite Et; apply list_lookup_insert_eq, (lookup_lt_Some _ _ y), Hg|by apply (igot_names _ _ _ _ _ _ Hg)|apply Htree].
  - destruct Hst as (c & p & i & y & Hc & Hp & Hcwd & Hi & Hr & Hn & HW). wp_step. eapply wp_curproc; [done|]. wp_step.
    eapply wp_get_proc; [done|]. wp_step. eapply wp_the; [exact Hcwd|]. unfold idup. wp_step. apply wp_acquire; [apply Hw|]. wp_step.
    eapply wp_upd_inode; [exact Hi|]. wp_step. eapply wp_release; [done|]. wp_step. set (y' := set_i_ref (i_ref y + 1) y).
    match goal with |- Q i ?s1 => replace s1 with (set_k_inode (<[i := y']> (k_inode s0)) s0) by (by destruct s0) end.
    assert (igot (k_inode s0) ROOTDEV n i y y') as Hg.
    { split; [done|left]. split; [|done]. unfold iget_hit. rewrite (proj2 (Z.ltb_lt _ _)) by done.
      by rewrite (ic_dev _ _ _ _ Hok0 _ _ Hi Hr), Hn, !Z.eqb_refl. }
    destruct (igot_walk _ _ _ _ _ _ _ _ _ (set_k_inode (<[i := y']> (k_inode s0)) s0) Hw Hg) as [Hw' Et].
    + by apply tx_set_inode.
    + apply fs_step_refl.
    + eapply HQ; [exact Hw'|rewrite Et; apply list_lookup_insert_eq; by eapply lookup_lt_Some|done|done].
Qed.

Lemma wp_namex {DV : Devsw} np path n L k Q : two_free (k_inode s0) -> walk s0 s0 pid d V L k None [] -> starts_at path n ->
  (forall r s', walked L k (meaning np n (path_elems path)) r s' -> Q r s') -> wp (namex path np) Q s0.
Proof.
  intros Hfree Hw Hst HQ. unfold namex. wp_step. eapply wp_walk_start; [done..|]. intros i s y Hw1 Hi Hn HW.
  apply (wp_while _ (fun '(ip, path', name) s' => exists y', walk s0 s' pid d V L k None [ip] /\ k_inode s' !! ip = Some y' /\ W (i_inum y') /\
    meaning np (i_inum y') (path_elems path') = meaning np n (path_elems path)) (fun '(_, path', _) => length path')).
  - intros [[ip path'] name] s1 (y' & Hw' & Hi' & HW' & Hm). eapply wp_walk_elem; [done..| |].
    + intros r s' Hr. apply HQ. by rewrite <-Hm.
    + intros ip2 path2 name2 s2 y2 Hw2 Hi2 HW2 Hm2 Hlt. split; [|done]. exists y2. by rewrite Hm2.
  - lia.
  - exists y. split_and!; try done; by rewrite Hn.
Qed.
End ops.

(** A state from which paths can be looked up: inside a transaction, with
    the directory tree [W] on the disk, and an inode cache in order with two
    entries to spare. *)
Record can_walk s pid d V W L k : Prop := {
  cw_tx : tx s pid [] V d L k;
  cw_un : icache_unlocked s;
  cw_tree : tree s d V W;
  cw_ok : icache_ok (k_sb s) V (k_inode s) None;
  cw_free : two_free (k_inode s);
}.

Lemma can_walk_start s pid d V W L k : can_walk s pid d V W L k -> walk s s pid d V L k None [].
Proof. intros []. split; try done; [apply ic_step_refl|]. intros q. cbn. lia. Qed.

(** An entry [r] of the cache for inode [m], with one reference to it more
    than before, or none; the cache is in order. *)
Definition found s s' pid d V L k (m : option Z) (r : option nat) : Prop :=
  match m with
  | Some n => exists i y, r = Some i /\ k_inode s' !! i = Some y /\ i_dev y = ROOTDEV /\ i_inum y = n /\
      forall q, ref_of (k_inode s') q = ref_of (k_inode s) q + (if decide (q = i) then 1 else 0)
  | None => r = None /\ forall q, ref_of (k_inode s') q = ref_of (k_inode s) q
  end /\ tx s' pid [] V d L k /\ icache_ok (k_sb s) V (k_inode s') None.

Lemma walked_found s s' pid d V W L k m r : can_walk s pid d V W L k -> walked s pid d V L k m r s' ->
  found s s' pid d V L k (fst <$> m) (fst <$> r).
Proof.
  intros Hc Hw. destruct m as [[n e]|]; cbn in Hw.
  - destruct Hw as (i & name & y & -> & _ & Hw & Hi & Hn). split; [|split; apply Hw]. exists i, y. split_and!; try done.
    + eapply (ic_dev _ _ _ _ (wk_ok _ _ _ _ _ _ _ _ _ Hw)); [exact Hi|]. eapply walk_ref_pos; [apply Hc|exact Hw|by left|done].
    + intros q. rewrite (wk_refs _ _ _ _ _ _ _ _ _ Hw). cbn. lia.
  - destruct Hw as [-> Hw]. split; [|split; apply Hw]. split; [done|]. intros q. rewrite (wk_refs _ _ _ _ _ _ _ _ _ Hw). cbn. lia.
Qed.

(** C15: [namei] finds what a path means.  The elements of the path are what
    is between its slashes, cut to 14 bytes; looking them up one after the
    other on the disk, from the root or from the current directory, gives
    the inode number of the path, or none if an element is missing or is
    looked for in a file that is not a directory.  [namei] returns an entry
    of the inode cache for that inode, or none; it takes one reference to
    the entry, changes no other count, and leaves the cache in agreement
    with the disk and all inodes unlocked. *)
Theorem namei_correct {DV : Devsw} s pid d V W L k path n : can_walk s pid d V W L k -> starts_at s W path n ->
  wp (namei path) (fun r s' => found s s' pid d V L k (resolve (k_sb s) V n (path_elems path)) r) s.
Proof.
  intros Hc Hst. unfold namei. wp_step. eapply (wp_namex s pid d V W); [apply Hc|apply Hc|apply Hc|by eapply can_walk_start|exact Hst|].
  intros r s' Hw. wp_step. apply (walked_found _ _ _ _ _ _ _ _ _ _ Hc) in Hw. unfold meaning in Hw.
  by destruct (resolve _ _ _ _).
Qed.

(** [nameiparent] finds the directory of a path's last element: the
    inode that the elements before it lead to, which must be a directory,
    and the last element itself; a path without elements has none.  The
    effects on the inode cache are those of [namei]. *)
Theorem nameiparent_correct {DV : Devsw} s pid d V W L k path n : can_walk s pid d V W L k -> starts_at s W path n ->
  wp (nameiparent path) (fun r s' => let m := resolve_parent (k_sb s) V n (path_elems path) in
    snd <$> r = snd <$> m /\ found s s' pid d V L k (fst <$> m) (fst <$> r)) s.
Proof.
  intros Hc Hst. unfold nameiparent. eapply (wp_namex s pid d V W); [apply Hc|apply Hc|apply Hc|by eapply can_walk_start|exact Hst|].
  intros r s' Hw. pose proof (walked_found _ _ _ _ _ _ _ _ _ _ Hc Hw) as Hf. unfold meaning in Hw, Hf. cbn zeta.
  destruct (resolve_parent _ _ _ _) as [[n' e]|]; split; try done; cbn in Hw.
  - destruct Hw as (i & name & y & -> & He & _). cbn. by rewrite (He e).
  - by destruct Hw as [-> _].
Qed.

(** ** Instances *)

Definition state_walk : kstate := set_k_inode (replicate 50 inode0) state_fs.
Definition W_fs (n : Z) : Prop := n = 1 \/ n = 2.

Lemma on_disk_root : on_disk (k_sb state_fs) V_fs 1 = mk_inode 1 1 0 (mk_sleeplock 0 0) 1 T_DIR 0 0 1 48 (2059 :: replicate 12 0).
Proof. by vm_compute. Qed.
Lemma on_disk_a : on_disk (k_sb state_fs) V_fs 2 = mk_inode 1 2 0 (mk_sleeplock 0 0) 1 T_FILE 0 0 1 0 (replicate 13 0).
Proof. by vm_compute. Qed.
Lemma root_ents : dir_ents (on_disk (k_sb state_fs) V_fs 1) V_fs = [mk_dirent [46] 1; mk_dirent [46; 46] 1; mk_dirent [97] 2].
Proof. by vm_compute. Qed.

Lemma state_walk_tree : tree state_walk logdev0 V_fs W_fs.
Proof.
  change (k_sb state_walk) with (k_sb state_fs). split; change (k_sb state_walk) with (k_sb state_fs).
  - by left.
  - intros n [->| ->]; by vm_compute.
  - intros n [->| ->]; [by rewrite on_disk_root|by rewrite on_disk_a].
  - intros n [->| ->]; [by rewrite on_disk_root|by rewrite on_disk_a].
  - intros n [->| ->] Hty; [|by rewrite on_disk_a in Hty]. eapply is_dir_ext; [eapply is_dir_same; [..|apply root1_dir]; done|by rewrite on_disk_root..].
  - intros n e n' [->| ->] Hty; [|exfalso; rewrite on_disk_a in Hty; discriminate Hty]. unfold dir_inum, ents_inum. rewrite root_ents.
    destruct (list_find _ _) as [[j de]|] eqn:F; [|done]. apply list_find_Some in F as (Hj & _). intros [= <-].
    destruct j as [|[|[|j]]]; [| | |discriminate Hj]; apply (inj Some) in Hj as <-; [left|left|right]; vm_compute; reflexivity.
Qed.

Lemma state_walk_can : can_walk state_walk 1 logdev0 V_fs W_fs [] 20.
Proof.
  assert (forall i y, k_inode state_walk !! i = Some y -> y = inode0) as H0 by (by intros i y [-> _]%(proj1 (lookup_replicate 50 inode0 _ _))).
  split; [apply tx_set_inode, state_fs_tx; lia|split; [|intros i]; apply not_elem_of_nil|apply state_walk_tree| |].
  - split.
    + by intros i y ->%H0.
    + by intros i y ->%H0.
    + by intros i y ->%H0.
    + by intros i j y z ->%H0.
    + by intros i y ->%H0.
  - exists 0%nat, 1%nat. split_and!; [done|cbn; lia|cbn; lia|done|done].
Qed.

(** The path [/a] is inode 2. *)
Lemma namei_correct_witness :
  wp (namei (DV := no_devices) [47; 97]) (fun r s' => exists i y, r = Some i /\ k_inode s' !! i = Some y /\ i_inum y = 2) state_walk.
Proof.
  eapply wp_mono.
  - apply (@namei_correct no_devices state_walk 1 logdev0 V_fs W_fs [] 20 [47; 97] 1); [apply state_walk_can|reflexivity].
  - intros r s'. replace (resolve _ _ _ _) with (Some 2) by (vm_compute; reflexivity).
    intros [(i & y & H1 & H2 & _ & H3 & _) _]. exists i, y. exact (conj H1 (conj H2 H3)).
Defined.

(** The parent of [/bb//] is the root, the last element [bb]. *)
Lemma nameiparent_correct_witness :
  wp (nameiparent (DV := no_devices) [47; 98; 98; 47; 47]) (fun r s' => exists i y, r = Some (i, [98; 98]) /\ k_inode s' !! i = Some y /\ i_inum y = 1) state_walk.
Proof.
  eapply wp_mono.
  - apply (@nameiparent_correct no_devices state_walk 1 logdev0 V_fs W_fs [] 20 [47; 98; 98; 47; 47] 1); [apply state_walk_can|reflexivity].
  - intros r s'. cbn zeta. replace (resolve_parent _ _ _ _) with (Some (1, [98; 98])) by (vm_compute; reflexivity).
    intros [E [(i & y & H1 & H2 & _ & H3 & _) _]]. exists i, y. destruct r as [[i' nm]|]; [|discriminate E].
    injection E as ->. injection H1 as ->. exact (conj eq_refl (conj H2 H3)).
Defined.
