(* ===== verification/Mkfs.v ===== *)
(** * The file system image

    [mkfs.c], the host program that writes the initial disk: the image is a
    file of sectors, the in-memory inodes are 64-byte structures.  The
    invariant says which blocks each file owns and what it holds; every
    operation keeps it.  [MkfsImage] reads the result. *)

From Stdlib Require Import ZArith Lia.
From stdpp Require Import base strings numbers gmap list.
From S2P Require Import Prelude Mmu Memory Kernel Sleeplock Bio Block Layout Log Fs FsBlock FsData FsDir FsPath.

(** ** Operations *)

Definition NINODES : Z := 200.
Definition nbitmap : Z := (FSSIZE + SWAPBLOCKS) / (BSIZE * 8) + 1.
Definition ninodeblocks : Z := NINODES / IPB + 1.
Definition nlog : Z := LOGSIZE.
Definition nmeta : Z := 2 + nlog + ninodeblocks + nbitmap.

Record mkfs := mk_mkfs {
  m_img : list (list Z); (* the sectors of the image file *)
  m_sb : superblock;
  m_freeinode : Z;
  m_freeblock : Z;
}.
Notation MK := (M mkfs).
Definition set_m_img l st := mk_mkfs l (m_sb st) (m_freeinode st) (m_freeblock st).
Definition set_m_freeinode n st := mk_mkfs (m_img st) (m_sb st) n (m_freeblock st).
Definition set_m_freeblock n st := mk_mkfs (m_img st) (m_sb st) (m_freeinode st) n.

Definition zeroes : list Z := replicate (Z.to_nat BSIZE) 0.
(** A failed [assert] ends the program. *)
Definition assert_ (b : bool) : MK unit := if b then mret tt else panic "assert".

(** Convert to intel byte order; the host that reads the bytes back is a
    little-endian machine. *)
Definition xshort (x : Z) : Z := x mod 256 + 256 * ((x / 256) mod 256).
Definition xint (x : Z) : Z := x mod 256 + 256 * ((x / 256) mod 256) + 65536 * ((x / 65536) mod 256) + 16777216 * ((x / 16777216) mod 256).

(** [sec * BSIZE] is computed in 32 bits. *)
Definition sector (sec : Z) : nat := Z.to_nat (u32 (sec * BSIZE) / BSIZE).
(** A write behind the end of the file fills the gap with zeroes.  The exits
    of the host's failing [lseek], [read] and [write] are left out. *)
Definition wsect (sec : Z) (buf : list Z) : MK unit :=
  modify (fun st => let i := sector sec in
    set_m_img (if (i <? length (m_img st))%nat then <[i := buf]> (m_img st)
               else m_img st ++ replicate (i - length (m_img st)) zeroes ++ [buf]) st).
Definition rsect (sec : Z) : MK (list Z) :=
  img ← gets m_img;
  match img !! sector sec with Some buf => mret buf | None => panic "read" end.

(** The bytes [l] copied into [buf] at [o]. *)
Definition splice (buf : list Z) (o : Z) (l : list Z) : list Z :=
  take (Z.to_nat o) buf ++ l ++ drop (Z.to_nat o + length l) buf.

(** [struct dinode] as its bytes. *)
Definition din_addr (k : Z) : Z := 12 + 4 * k.
Definition winode (inum : Z) (din : list Z) : MK unit :=
  sb ← gets m_sb;
  let bn := IBLOCK inum sb in
  buf ← rsect bn;
  wsect bn (splice buf (dinode_off inum) din).
Definition rinode (inum : Z) : MK (list Z) :=
  sb ← gets m_sb;
  buf ← rsect (IBLOCK inum sb);
  mret (take (Z.to_nat DINODESIZE) (drop (Z.to_nat (dinode_off inum)) buf)).

Definition mkfs_ialloc (type : Z) : MK Z :=
  inum ← gets m_freeinode;
  modify (set_m_freeinode (u32 (inum + 1)));;
  let din := replicate (Z.to_nat DINODESIZE) 0 in
  let din := put16 din 0 (xshort type) in
  let din := put16 din 6 (xshort 1) in
  let din := put32 din 8 (xint 0) in
  winode inum din;;
  mret inum.

Definition bitmap_of (used : Z) : list Z := foldl (fun buf i => mark_used i buf) zeroes (seqZ 0 used).
Definition mkfs_balloc (used : Z) : MK unit :=
  assert_ (used <? BSIZE * 8);;
  sb ← gets m_sb;
  wsect (sb_bmapstart sb) (bitmap_of used).

(** [freeblock++]. *)
Definition new_block : MK Z :=
  b ← gets m_freeblock;
  modify (set_m_freeblock (u32 (b + 1)));;
  mret b.

(** The block [fbn] of the file, allocated if there is none; the inode may
    change. *)
Definition iappend_block (din : list Z) (fbn : Z) : MK (list Z * Z) :=
  if fbn <? NDIRECT then
    din ← (if xint (get32 din (din_addr fbn)) =? 0 then b ← new_block; mret (put32 din (din_addr fbn) (xint b)) else mret din);
    mret (din, xint (get32 din (din_addr fbn)))
  else
    din ← (if xint (get32 din (din_addr NDIRECT)) =? 0 then b ← new_block; mret (put32 din (din_addr NDIRECT) (xint b)) else mret din);
    indirect ← rsect (xint (get32 din (din_addr NDIRECT)));
    let o := 4 * (fbn - NDIRECT) in
    indirect ← (if get32 indirect o =? 0 then
                  b ← new_block;
                  let indirect := put32 indirect o (xint b) in
                  wsect (xint (get32 din (din_addr NDIRECT))) indirect;;
                  mret indirect
                else mret indirect);
    mret (din, xint (get32 indirect o)).

Definition iappend (inum : Z) (p : list Z) : MK unit :=
  din ← rinode inum;
  '(din, off) ← while_ (S (length p)) (fun '(din, off, p) =>
    let n := Z.of_nat (length p) in
    if 0 <? n then
      let fbn := off / BSIZE in
      assert_ (fbn <? MAXFILE);;
      '(din, x) ← iappend_block din fbn;
      let n1 := Z.min n ((fbn + 1) * BSIZE - off) in
      buf ← rsect x;
      wsect x (splice buf (off - fbn * BSIZE) (take (Z.to_nat n1) p));;
      mret (inl (din, off + n1, drop (Z.to_nat n1) p))
    else mret (inr (din, off))) (din, xint (get32 din 8), p);
  winode inum (put32 din 8 (xint off)).

Definition sb_bytes (sb : superblock) : list Z :=
  foldl (fun l '(k, v) => put32 l (4 * k) v) zeroes (zip (seqZ 0 9)
    [sb_size sb; sb_nblocks sb; sb_ninodes sb; sb_nlog sb; sb_logstart sb; sb_inodestart sb; sb_bmapstart sb;
     sb_swapblockstart sb; sb_nswapblocks sb]).
Definition the_sb : superblock :=
  mk_sb (xint (FSSIZE + SWAPBLOCKS)) (xint (FSSIZE - nmeta)) (xint NINODES) (xint nlog) (xint (2 + SWAPBLOCKS))
    (xint (2 + nlog + SWAPBLOCKS)) (xint (2 + nlog + ninodeblocks + SWAPBLOCKS)) (xint 2) SWAPBLOCKS.

(** The host: whether the image can be created, and for a file that can be
    opened what each [read] of it returns until the end of the file. *)
Section host.
Context (creat : list Z -> bool) (reads : list Z -> option (list (list Z))).

Definition UNDERSCORE : Z := 95.
(** Skip leading _ in name when writing to file system. *)
Definition target_name (arg : list Z) : list Z :=
  match arg with c :: arg' => if c =? UNDERSCORE then arg' else arg | [] => [] end.

Definition add_file (rootino : Z) (arg : list Z) : MK unit :=
  assert_ (negb (bool_decide (SLASH ∈ arg)));;
  match reads arg with
  | None => panic "open"
  | Some chunks =>
      inum ← mkfs_ialloc T_FILE;
      iappend rootino (mk_dirent (target_name arg) (xshort inum));;
      _ ← for_ (R := unit) chunks (fun buf (_ : unit) => iappend inum buf;; mret (Next tt)) tt;
      mret tt
  end.

Definition mkfs_main (argv : list (list Z)) : MK unit :=
  if (length argv <? 2)%nat then panic "Usage: mkfs fs.img files..."
  else if negb (creat (nth 1 argv [])) then panic "open"
  else
    modify (fun st => mk_mkfs [] the_sb 1 nmeta);;
    _ ← for_ (R := unit) (seqZ 0 (FSSIZE + SWAPBLOCKS)) (fun i (_ : unit) => wsect i zeroes;; mret (Next tt)) tt;
    wsect 1 (sb_bytes the_sb);;
    rootino ← mkfs_ialloc T_DIR;
    assert_ (rootino =? ROOTINO);;
    iappend rootino (mk_dirent [46] (xshort rootino));;
    iappend rootino (mk_dirent [46; 46] (xshort rootino));;
    _ ← for_ (R := unit) (drop 2 argv) (fun arg (_ : unit) => add_file rootino arg;; mret (Next tt)) tt;
    (* fix size of root inode dir *)
    din ← rinode rootino;
    let off := xint (get32 din 8) in
    let off := (off / BSIZE + 1) * BSIZE in
    winode rootino (put32 din 8 (xint off));;
    used ← gets m_freeblock;
    mkfs_balloc used.
End host.

(** ** Bytes *)

Lemma xint_id x : 0 <= x < two32 -> xint x = x.
Proof. unfold xint, two32. intros. zdiv. Qed.
Lemma xshort_id x : 0 <= x < 65536 -> xshort x = x.
Proof. unfold xshort. intros. zdiv. Qed.
Lemma sector_id n : 0 <= n < 4096 -> sector n = Z.to_nat n.
Proof. intros. unfold sector, u32, two32. change BSIZE with 512. f_equal. zdiv. Qed.

Lemma length_splice buf o l : 0 <= o -> o + Z.of_nat (length l) <= Z.of_nat (length buf) -> length (splice buf o l) = length buf.
Proof. intros. unfold splice. rewrite !length_app, length_take, length_drop. lia. Qed.

Lemma nth_splice buf o l j : 0 <= o -> o + Z.of_nat (length l) <= Z.of_nat (length buf) ->
  nth j (splice buf o l) 0 = if decide (o <= Z.of_nat j < o + Z.of_nat (length l)) then nth (j - Z.to_nat o) l 0 else nth j buf 0.
Proof.
  intros Ho Hl. unfold splice. assert (length (take (Z.to_nat o) buf) = Z.to_nat o) as Ht by (rewrite length_take; lia).
  destruct (decide (j < Z.to_nat o)%nat) as [Hj|Hj].
  - rewrite app_nth1 by lia. rewrite decide_False by lia. rewrite !nth_lookup. by rewrite lookup_take_lt by lia.
  - rewrite app_nth2 by lia. rewrite Ht. case_decide as E.
    + by rewrite app_nth1 by lia.
    + rewrite app_nth2 by lia. rewrite !nth_lookup, lookup_drop. do 2 f_equal. lia.
Qed.

Lemma byte_at_slice b o n k : 0 <= o -> 0 <= k < Z.of_nat n -> byte_at (take n (drop (Z.to_nat o) b)) k = byte_at b (o + k).
Proof.
  intros Ho Hk. unfold byte_at. rewrite !nth_lookup, lookup_take_lt, lookup_drop by lia. by replace (Z.to_nat (o + k)) with (Z.to_nat o + Z.to_nat k)%nat by lia.
Qed.
Lemma get32_slice b o n k : 0 <= o -> 0 <= k -> k + 4 <= Z.of_nat n -> get32 (take n (drop (Z.to_nat o) b)) k = get32 b (o + k).
Proof. intros. unfold get32. rewrite !byte_at_slice by lia. by rewrite !Z.add_assoc. Qed.
Lemma get16_slice b o n k : 0 <= o -> 0 <= k -> k + 2 <= Z.of_nat n -> get16 (take n (drop (Z.to_nat o) b)) k = get16 b (o + k).
Proof. intros. unfold get16. rewrite !byte_at_slice by lia. by rewrite !Z.add_assoc. Qed.

Lemma slice_splice_eq b o l : 0 <= o -> o + Z.of_nat (length l) <= Z.of_nat (length b) ->
  take (length l) (drop (Z.to_nat o) (splice b o l)) = l.
Proof.
  intros Ho Hl. unfold splice. rewrite drop_app_length' by (rewrite length_take; lia). by rewrite take_app_length.
Qed.
Lemma slice_splice_ne b o l o' n : 0 <= o -> o + Z.of_nat (length l) <= Z.of_nat (length b) -> 0 <= o' ->
  o' + Z.of_nat n <= o \/ o + Z.of_nat (length l) <= o' -> take n (drop (Z.to_nat o') (splice b o l)) = take n (drop (Z.to_nat o') b).
Proof.
  intros Ho Hl Ho' Hd. apply list_eq. intros j. destruct (decide (j < n)%nat) as [Hj|Hj]; [|by rewrite !lookup_take_ge by lia].
  rewrite !lookup_take_lt, !lookup_drop by done. unfold splice. assert (length (take (Z.to_nat o) b) = Z.to_nat o) as Ht by (rewrite length_take; lia).
  destruct Hd as [Hd|Hd].
  - rewrite lookup_app_l by lia. by rewrite lookup_take_lt by lia.
  - rewrite lookup_app_r by lia. rewrite lookup_app_r by lia. rewrite lookup_drop. f_equal. lia.
Qed.

Lemma get16_put32_ne l o v k : 0 <= o -> o + 4 <= Z.of_nat (length l) -> 0 <= k -> k + 2 <= o \/ o + 4 <= k -> get16 (put32 l o v) k = get16 l k.
Proof. intros. unfold get16. by rewrite !byte_at_put32_ne by lia. Qed.

(** ** Sectors *)

Definition blk (img : list (list Z)) (n : Z) : list Z := default zeroes (img !! Z.to_nat n).

Lemma blk_insert img n b k : 0 <= n < Z.of_nat (length img) -> 0 <= k -> blk (<[Z.to_nat n := b]> img) k = if decide (k = n) then b else blk img k.
Proof.
  intros Hn Hk. unfold blk. case_decide as E; [subst; by rewrite list_lookup_insert_eq by lia|by rewrite list_lookup_insert_ne by lia].
Qed.

(** The whole image is there. *)
Definition full (img : list (list Z)) : Prop := length img = 3000%nat.
Lemma full_insert img n b : full img -> full (<[n := b]> img).
Proof. unfold full. by rewrite length_insert. Qed.
Lemma blk_len_insert img n b : (forall k, length (blk img k) = 512%nat) -> length b = 512%nat -> forall k, length (blk (<[n := b]> img) k) = 512%nat.
Proof.
  intros H Hb k. specialize (H k). unfold blk in *. destruct (decide (Z.to_nat k = n)) as [<-|]; [|by rewrite list_lookup_insert_ne].
  destruct (decide (Z.to_nat k < length img)%nat); [by rewrite list_lookup_insert_eq|]. by rewrite list_insert_ge by lia.
Qed.

Lemma wp_wsect n b Q st : full (m_img st) -> 0 <= n < 3000 -> Q tt (set_m_img (<[Z.to_nat n := b]> (m_img st)) st) -> wp (wsect n b) Q st.
Proof.
  intros Hf Hn HQ. unfold wsect. wp_step. rewrite sector_id by lia. unfold full in Hf. by rewrite (proj2 (Nat.ltb_lt _ _)) by lia.
Qed.
Lemma wp_rsect n Q st : full (m_img st) -> 0 <= n < 3000 -> Q (blk (m_img st) n) st -> wp (rsect n) Q st.
Proof.
  intros Hf Hn HQ. unfold rsect. wp_step. wp_step. rewrite sector_id by lia. unfold full in Hf. unfold blk in HQ.
  destruct (lookup_lt_is_Some_2 (m_img st) (Z.to_nat n) ltac:(lia)) as [b Hb]. rewrite Hb in *. by wp_step.
Qed.

(** ** Files in the image *)

(** A file: its type, its blocks, its indirect block (or 0), its bytes. *)
Record gfile := mk_gf { g_type : Z; g_bs : list Z; g_ind : Z; g_data : list Z }.
Definition owned (f : gfile) : list Z := (if g_ind f =? 0 then [] else [g_ind f]) ++ g_bs f.

(** The inode [din] is that of the file. *)
Record file_rep (img : list (list Z)) (din : list Z) (f : gfile) : Prop := {
  fr_len : length din = 64%nat;
  fr_type : get16 din 0 = g_type f;
  fr_nlink : get16 din 6 = 1;
  fr_direct : forall k, 0 <= k < NDIRECT -> get32 din (din_addr k) = nth (Z.to_nat k) (g_bs f) 0;
  fr_ind : get32 din (din_addr NDIRECT) = g_ind f;
  fr_indirect : forall k, NDIRECT <= k < MAXFILE ->
    (if g_ind f =? 0 then 0 else get32 (blk img (g_ind f)) (4 * (k - NDIRECT))) = nth (Z.to_nat k) (g_bs f) 0;
  fr_size : (length (g_data f) <= 512 * length (g_bs f))%nat;
  fr_max : (length (g_bs f) <= 140)%nat;
  fr_data : forall j, (j < 512 * length (g_bs f))%nat ->
    nth (j mod 512) (blk img (nth (j / 512) (g_bs f) 0)) 0 = nth j (g_data f) 0;
}.

Lemma owned_bs f k : (k < length (g_bs f))%nat -> nth k (g_bs f) 0 ∈ owned f.
Proof. intros Hk. unfold owned. apply elem_of_app. right. rewrite list_elem_of_In. by apply nth_In. Qed.
Lemma owned_ind f : g_ind f <> 0 -> g_ind f ∈ owned f.
Proof. intros H. unfold owned. rewrite (proj2 (Z.eqb_neq _ _) H). by left. Qed.

Lemma file_rep_frame img img' din f : file_rep img din f -> (forall n, n ∈ owned f -> blk img' n = blk img n) -> file_rep img' din f.
Proof.
  intros [] H. split; try done.
  - intros k Hk. rewrite <-fr_indirect0 by done. destruct (Z.eqb_spec (g_ind f) 0); [done|]. by rewrite H by (by apply owned_ind).
  - intros j Hj. rewrite <-fr_data0 by done. rewrite H; [done|]. apply owned_bs. by apply Nat.Div0.div_lt_upper_bound.
Qed.

(** Inode number [i + 1] in the image; [cur] is the one in memory. *)
Definition din_at (img : list (list Z)) (i : nat) : list Z :=
  take (Z.to_nat DINODESIZE) (drop (Z.to_nat (dinode_off (Z.of_nat i + 1))) (blk img (IBLOCK (Z.of_nat i + 1) the_sb))).
Definition din_of (img : list (list Z)) (cur : option (nat * list Z)) (i : nat) : list Z :=
  match cur with Some (j, din) => if decide (i = j) then din else din_at img i | None => din_at img i end.

(** The blocks of files end below the inodes; the inodes fit into their
    blocks. *)
Definition DATAEND : Z := 2032.
Definition MAXINODES : Z := 208.

Record img_rep st (G : list gfile) (cur : option (nat * list Z)) : Prop := {
  ir_full : full (m_img st);
  ir_len : forall n, length (blk (m_img st) n) = 512%nat;
  ir_sb : m_sb st = the_sb;
  ir_super : blk (m_img st) 1 = sb_bytes the_sb;
  ir_block : nmeta <= m_freeblock st <= DATAEND;
  ir_inode : m_freeinode st = Z.of_nat (length G) + 1;
  ir_inodes : Z.of_nat (length G) < MAXINODES;
  ir_file : forall i f, G !! i = Some f -> file_rep (m_img st) (din_of (m_img st) cur i) f;
  ir_size : forall i f, G !! i = Some f -> (forall din, cur <> Some (i, din)) -> get32 (din_at (m_img st) i) 8 = Z.of_nat (length (g_data f));
  ir_nodup : forall i f, G !! i = Some f -> NoDup (owned f);
  ir_own : forall i f b, G !! i = Some f -> b ∈ owned f -> nmeta <= b < m_freeblock st;
  ir_disj : forall i j f g b, i <> j -> G !! i = Some f -> G !! j = Some g -> b ∈ owned f -> b ∉ owned g;
  ir_zero : forall b, m_freeblock st <= b < DATAEND -> blk (m_img st) b = zeroes;
}.

Lemma IBLOCK_range i : 0 <= i < MAXINODES -> 2032 <= IBLOCK i the_sb < 2058.
Proof.
  intros Hi. unfold IBLOCK. change (sb_inodestart the_sb) with 2032. change IPB with 8. unfold MAXINODES in Hi.
  rewrite u32_small by (unfold two32; zdiv). zdiv.
Qed.

Lemma img_rep_update st G i f din img' f' din' fb' : img_rep st G (Some (i, din)) -> G !! i = Some f ->
  full img' -> (forall n, length (blk img' n) = 512%nat) -> (forall n, 0 <= n -> n ∉ owned f' -> blk img' n = blk (m_img st) n) ->
  NoDup (owned f') -> (forall b, b ∈ owned f' -> b ∈ owned f \/ b = m_freeblock st /\ m_freeblock st < fb') ->
  m_freeblock st <= fb' <= DATAEND -> file_rep img' din' f' ->
  img_rep (mk_mkfs img' (m_sb st) (m_freeinode st) fb') (<[i := f']> G) (Some (i, din')).
Proof.
  intros [H1 H2 H3 H4 H5 H6 H7 H8 H9 H10 H11 H12 H13] Hi Hf Hl Hsame Hnd Hsub Hfb Hrep.
  assert (i < length G)%nat as Hlt by (by eapply lookup_lt_Some).
  assert (forall b, b ∈ owned f' -> nmeta <= b < fb') as Hown.
  { intros b [Hb|[-> ?]]%Hsub; [pose proof (H11 _ _ _ Hi Hb); lia|lia]. }
  assert (forall j g, <[i := f']> G !! j = Some g -> j = i /\ g = f' \/ j <> i /\ G !! j = Some g) as HG.
  { intros j g. destruct (decide (j = i)) as [->|]; [rewrite list_lookup_insert_eq by done|rewrite list_lookup_insert_ne by done]; naive_solver. }
  assert (forall j g b, j <> i -> G !! j = Some g -> b ∈ owned g -> b ∉ owned f') as Hdis.
  { intros j g b Hne Hj Hb Hb'. apply Hsub in Hb' as [Hb'|[-> _]]; [by eapply (H12 j i)|]. pose proof (H11 _ _ _ Hj Hb). lia. }
  assert (nmeta = 59) as Hnm by done. unfold DATAEND in *.
  assert (forall j, (j < length G)%nat -> din_at img' j = din_at (m_img st) j) as Hdin.
  { intros j Hj. unfold din_at. pose proof (IBLOCK_range (Z.of_nat j + 1)). rewrite Hsame; [done|unfold MAXINODES in *; lia|].
    intros Hb%Hown. unfold MAXINODES in *. lia. }
  split; cbn [m_img m_sb m_freeblock m_freeinode]; unfold DATAEND; try done.
  - rewrite <-H4. apply Hsame; [done|]. intros Hb%Hown. lia.
  - lia.
  - by rewrite length_insert.
  - by rewrite length_insert.
  - intros j g [[-> ->]|[Hne Hj]]%HG; unfold din_of; [by rewrite decide_True|]. rewrite decide_False by done.
    rewrite Hdin by (by eapply lookup_lt_Some). specialize (H8 j g Hj). unfold din_of in H8. rewrite decide_False in H8 by done.
    eapply file_rep_frame; [done|]. intros n Hn. apply Hsame; [pose proof (H11 _ _ _ Hj Hn); lia|by eapply Hdis].
  - intros j g [[-> ->]|[Hne Hj]]%HG Hcur; [by destruct (Hcur din')|]. rewrite Hdin by (by eapply lookup_lt_Some). apply H9; [done|]. by intros ? [= ->].
  - intros j g [[-> ->]|[Hne Hj]]%HG; [done|]. by eapply H10.
  - intros j g b [[-> ->]|[Hne Hj]]%HG Hb; [by apply Hown|]. pose proof (H11 _ _ _ Hj Hb). lia.
  - intros j j' g g' b Hne [[-> ->]|[Hj1 Hj]]%HG [[-> ->]|[Hj1' Hj']]%HG Hb Hb'; [done| | |by eapply (H12 j j')].
    + by eapply (Hdis j').
    + by eapply (Hdis j).
  - intros b Hb. rewrite Hsame; [apply H13; lia|lia|]. intros Hb'%Hown. lia.
Qed.

(** ** Adding blocks *)

Lemma nth_zeroes j : nth j zeroes 0 = 0.
Proof. unfold zeroes. rewrite nth_lookup. destruct (replicate _ 0 !! j) as [a|] eqn:E; [|done]. by apply lookup_replicate in E as [-> _]. Qed.
Lemma get32_zeroes o : get32 zeroes o = 0.
Proof. unfold get32, byte_at. by rewrite !nth_zeroes. Qed.
Lemma nth_snoc k l (b : Z) : nth k (l ++ [b]) 0 = if decide (k = length l) then b else nth k l 0.
Proof.
  destruct (decide (k < length l)%nat) as [H|H]; [rewrite app_nth1, decide_False by lia; done|]. rewrite app_nth2 by lia.
  case_decide as E; [subst; by rewrite Nat.sub_diag|]. rewrite (nth_overflow l) by lia. apply nth_overflow. cbn. lia.
Qed.

Definition add_block (b : Z) (f : gfile) : gfile := mk_gf (g_type f) (g_bs f ++ [b]) (g_ind f) (g_data f).
Definition add_ind (b : Z) (f : gfile) : gfile := mk_gf (g_type f) (g_bs f) b (g_data f).

Section add.
Context (img : list (list Z)) (din : list Z) (f : gfile) (b : Z).
Context (Hrep : file_rep img din f) (Hb : 0 < b < two32) (Hz : blk img b = zeroes).

Lemma fr_data_add img' : (forall n, n ∈ g_bs f -> blk img' n = blk img n) -> blk img' b = zeroes ->
  forall j, (j < 512 * length (g_bs f ++ [b]))%nat -> nth (j mod 512) (blk img' (nth (j / 512) (g_bs f ++ [b]) 0)) 0 = nth j (g_data f) 0.
Proof.
  intros Hs Hz' j Hj. rewrite length_app in Hj. cbn in Hj. rewrite nth_snoc. case_decide as E.
  - rewrite Hz', nth_zeroes. symmetry. apply nth_overflow. pose proof (fr_size _ _ _ Hrep). pose proof (Nat.Div0.div_mod j 512). lia.
  - assert (j < 512 * length (g_bs f))%nat as Hj'. { pose proof (Nat.div_mod j 512). pose proof (Nat.mod_upper_bound j 512). lia. }
    rewrite <-(fr_data _ _ _ Hrep j Hj'). rewrite Hs; [done|]. rewrite list_elem_of_In. apply nth_In. apply Nat.Div0.div_lt_upper_bound. lia.
Qed.

Lemma rep_add_direct : Z.of_nat (length (g_bs f)) < NDIRECT ->
  file_rep img (put32 din (din_addr (Z.of_nat (length (g_bs f)))) (xint b)) (add_block b f).
Proof.
  intros Hl. pose proof Hrep as [H1 H2 H3 H4 H5 H6 H7 H8 H9]. rewrite xint_id by lia. unfold din_addr, NDIRECT in *.
  split; cbn [g_type g_bs g_ind g_data add_block].
  - by rewrite length_put32.
  - by rewrite get16_put32_ne by lia.
  - by rewrite get16_put32_ne by lia.
  - intros k Hk. rewrite nth_snoc. unfold din_addr, NDIRECT in *. case_decide as E.
    + replace k with (Z.of_nat (length (g_bs f))) by lia. rewrite get32_put32_eq by lia. apply u32_small. lia.
    + rewrite get32_put32_ne by lia. by apply H4.
  - unfold din_addr, NDIRECT. by rewrite get32_put32_ne by lia.
  - intros k Hk. rewrite nth_snoc, decide_False by (unfold NDIRECT in *; lia). by apply H6.
  - rewrite length_app. cbn. lia.
  - rewrite length_app. cbn. lia.
  - by apply fr_data_add.
Qed.

Lemma rep_add_ind : g_ind f = 0 -> file_rep img (put32 din (din_addr NDIRECT) (xint b)) (add_ind b f).
Proof.
  intros Hi. pose proof Hrep as [H1 H2 H3 H4 H5 H6 H7 H8 H9]. rewrite xint_id by lia.
  split; cbn [g_type g_bs g_ind g_data add_ind]; unfold din_addr, NDIRECT in *; try done.
  - by rewrite length_put32.
  - by rewrite get16_put32_ne by lia.
  - by rewrite get16_put32_ne by lia.
  - intros k Hk. rewrite get32_put32_ne by lia. by apply H4.
  - rewrite get32_put32_eq by lia. apply u32_small. lia.
  - intros k Hk. rewrite <-H6 by done. rewrite Hi, Hz, get32_zeroes. by destruct (b =? 0).
Qed.

Lemma rep_add_entry img' : g_ind f <> 0 -> NDIRECT <= Z.of_nat (length (g_bs f)) < MAXFILE -> NoDup (owned f) -> b ∉ owned f ->
  length (blk img (g_ind f)) = 512%nat ->
  (forall n, 0 <= n -> blk img' n = if decide (n = g_ind f) then put32 (blk img (g_ind f)) (4 * (Z.of_nat (length (g_bs f)) - NDIRECT)) (xint b) else blk img n) ->
  (forall n, n ∈ owned f -> 0 <= n) -> file_rep img' din (add_block b f).
Proof.
  intros Hi Hl Hnd Hbo Hlen Himg Hpos. pose proof Hrep as [H1 H2 H3 H4 H5 H6 H7 H8 H9]. rewrite xint_id in Himg by lia.
  pose proof (owned_ind f Hi) as Hio. assert (g_ind f ∉ g_bs f) as Hni.
  { unfold owned in Hnd. rewrite (proj2 (Z.eqb_neq _ _) Hi) in Hnd. by apply NoDup_cons in Hnd as [? _]. }
  unfold NDIRECT in *. change MAXFILE with 140 in *. split; cbn [g_type g_bs g_ind g_data add_block]; try done.
  - intros k Hk. rewrite nth_snoc, decide_False by (unfold NDIRECT in *; lia). by apply H4.
  - intros k Hk. rewrite nth_snoc. rewrite (proj2 (Z.eqb_neq _ _) Hi), Himg, decide_True by auto. unfold NDIRECT in *. change MAXFILE with 140 in *.
    case_decide as E.
    + replace k with (Z.of_nat (length (g_bs f))) by lia. rewrite get32_put32_eq by lia. apply u32_small. lia.
    + rewrite get32_put32_ne by lia. rewrite <-H6 by done. by rewrite (proj2 (Z.eqb_neq _ _) Hi).
  - rewrite length_app. cbn. lia.
  - rewrite length_app. cbn. lia.
  - apply fr_data_add.
    + intros n Hn. rewrite Himg, decide_False; [done|by intros ->|]. apply Hpos. unfold owned. apply elem_of_app. by right.
    + rewrite Himg, decide_False; [done|by intros ->|lia].
Qed.
End add.

(** The fresh block is nobody's. *)
Lemma fresh_block st G cur i f : img_rep st G cur -> G !! i = Some f -> m_freeblock st ∉ owned f.
Proof. intros H Hi Hb. pose proof (ir_own _ _ _ H _ _ _ Hi Hb). lia. Qed.

(** The file takes the fresh block, as a block or as its indirect block. *)
Lemma take_block st G i f din img' f' din' : img_rep st G (Some (i, din)) -> G !! i = Some f -> m_freeblock st < DATAEND ->
  owned f' ≡ₚ m_freeblock st :: owned f -> full img' -> (forall n, length (blk img' n) = 512%nat) ->
  (forall n, 0 <= n -> n ∉ owned f' -> blk img' n = blk (m_img st) n) -> file_rep img' din' f' ->
  img_rep (mk_mkfs img' (m_sb st) (m_freeinode st) (m_freeblock st + 1)) (<[i := f']> G) (Some (i, din')).
Proof.
  intros H Hi Hlt Hp Hf Hl Hsame Hrep. eapply img_rep_update; try done.
  - rewrite Hp. apply NoDup_cons. split; [by eapply fresh_block|by eapply (ir_nodup _ _ _ H)].
  - intros b. rewrite Hp. intros [->|Hb]%elem_of_cons; [right; split; lia|by left].
  - unfold DATAEND in *. lia.
Qed.

Lemma owned_add_block b f : owned (add_block b f) ≡ₚ b :: owned f.
Proof. unfold owned, add_block. cbn. rewrite app_assoc. by rewrite <-Permutation_cons_append. Qed.
Lemma owned_add_ind b f : b <> 0 -> g_ind f = 0 -> owned (add_ind b f) = b :: owned f.
Proof. intros Hb Hi. unfold owned, add_ind. cbn. by rewrite Hi, (proj2 (Z.eqb_neq _ _) Hb). Qed.

Lemma wp_new_block Q st : 0 <= m_freeblock st < DATAEND -> Q (m_freeblock st) (set_m_freeblock (m_freeblock st + 1) st) -> wp new_block Q st.
Proof. intros Hb HQ. unfold new_block, DATAEND in *. wp_steps. by rewrite u32_small by (unfold two32; lia). Qed.

(** What [iappend_block] may have changed. *)
Definition extends (f f' : gfile) : Prop := g_type f' = g_type f /\ g_bs f `prefix_of` g_bs f'.
Record grown st f st' f' (new : Z) : Prop := {
  gr_data : g_data f' = g_data f;
  gr_ext : extends f f';
  gr_block : m_freeblock st' = m_freeblock st + new;
  gr_owned : Z.of_nat (length (owned f')) = Z.of_nat (length (owned f)) + new;
}.

Lemma extends_refl f : extends f f.
Proof. by split. Qed.
Lemma extends_trans f f1 f2 : extends f f1 -> extends f1 f2 -> extends f f2.
Proof. intros [] []. split; [congruence|by etransitivity]. Qed.
Lemma extends_add_block b f : extends f (add_block b f).
Proof. split; [done|]. by eexists. Qed.

Lemma grown_refl st f : grown st f st f 0.
Proof. split; [done|apply extends_refl|lia|lia]. Qed.
Lemma grown_trans st f st1 f1 st2 f2 m n : grown st f st1 f1 m -> grown st1 f1 st2 f2 n -> grown st f st2 f2 (m + n).
Proof. intros [] []. split; [congruence|by eapply extends_trans|lia|lia]. Qed.

Lemma bs_zero st G cur i f k : img_rep st G cur -> G !! i = Some f -> nth k (g_bs f) 0 = 0 <-> (length (g_bs f) <= k)%nat.
Proof.
  intros H Hi. split; [|by apply nth_overflow]. intros E. destruct (decide (length (g_bs f) <= k)%nat); [done|]. exfalso.
  pose proof (ir_own _ _ _ H _ _ _ Hi (owned_bs f k ltac:(lia))) as Hr. change nmeta with 59 in Hr. lia.
Qed.

Section step.
Context (G : list gfile) (i : nat).

(** An address of the inode that may be missing. *)
Lemma wp_ensure_direct st din f q Q : img_rep st G (Some (i, din)) -> G !! i = Some f ->
  (q <= length (g_bs f))%nat -> Z.of_nat q < NDIRECT -> (q = length (g_bs f) -> m_freeblock st < DATAEND) ->
  (forall st' f' din', img_rep st' (<[i := f']> G) (Some (i, din')) -> grown st f st' f' (if decide (q = length (g_bs f)) then 1 else 0) ->
     length (g_bs f') = Nat.max (length (g_bs f)) (S q) -> g_ind f' = g_ind f -> Q din' st') ->
  wp (if xint (get32 din (din_addr (Z.of_nat q))) =? 0 then b ← new_block; mret (put32 din (din_addr (Z.of_nat q)) (xint b)) else mret din) Q st.
Proof.
  intros H Hi Hq Hd Hroom HQ. pose proof (ir_file _ _ _ H _ _ Hi) as Hrep. cbn in Hrep. rewrite decide_True in Hrep by done.
  pose proof (ir_block _ _ _ H) as Hfb. change nmeta with 59 in Hfb.
  rewrite xint_id by apply get32_range. rewrite (fr_direct _ _ _ Hrep) by lia. rewrite Nat2Z.id.
  destruct (Z.eqb_spec (nth q (g_bs f) 0) 0) as [E|E].
  - apply (bs_zero _ _ _ _ _ _ H Hi) in E. assert (q = length (g_bs f)) as -> by lia. specialize (Hroom eq_refl). wp_step.
    apply wp_new_block; [lia|]. wp_step. apply (HQ _ (add_block (m_freeblock st) f)).
    + destruct st. cbn in *. eapply (take_block (mk_mkfs _ _ _ _)); try done; [apply owned_add_block|apply H|apply H|].
      apply rep_add_direct; [done|unfold DATAEND, two32 in *; cbn; lia|by apply (ir_zero _ _ _ H); cbn|done].
    + rewrite decide_True by done. split; try done; [apply extends_add_block|]. rewrite owned_add_block. cbn. lia.
    + cbn. rewrite length_app. cbn. lia.
    + done.
  - rewrite (bs_zero _ _ _ _ _ _ H Hi) in E. wp_step. apply (HQ _ f).
    + by rewrite list_insert_id.
    + rewrite decide_False by lia. apply grown_refl.
    + lia.
    + done.
Qed.

Lemma wp_ensure_ind st din f Q : img_rep st G (Some (i, din)) -> G !! i = Some f -> (g_ind f = 0 -> m_freeblock st < DATAEND) ->
  (forall st' f' din', img_rep st' (<[i := f']> G) (Some (i, din')) -> grown st f st' f' (if decide (g_ind f = 0) then 1 else 0) ->
     g_bs f' = g_bs f -> g_ind f' <> 0 -> Q din' st') ->
  wp (if xint (get32 din (din_addr NDIRECT)) =? 0 then b ← new_block; mret (put32 din (din_addr NDIRECT) (xint b)) else mret din) Q st.
Proof.
  intros H Hi Hroom HQ. pose proof (ir_file _ _ _ H _ _ Hi) as Hrep. cbn in Hrep. rewrite decide_True in Hrep by done.
  pose proof (ir_block _ _ _ H) as Hfb. change nmeta with 59 in Hfb.
  rewrite xint_id by apply get32_range. rewrite (fr_ind _ _ _ Hrep). destruct (Z.eqb_spec (g_ind f) 0) as [E|E].
  - specialize (Hroom E). wp_step. apply wp_new_block; [lia|]. wp_step. apply (HQ _ (add_ind (m_freeblock st) f)).
    + destruct st. cbn in *. eapply (take_block (mk_mkfs _ _ _ _)); try done; [by rewrite owned_add_ind by (cbn; lia)|apply H|apply H|].
      apply rep_add_ind; [done|unfold DATAEND, two32 in *; cbn; lia|by apply (ir_zero _ _ _ H); cbn|done].
    + rewrite decide_True by done. split; try done. rewrite owned_add_ind by lia. cbn. lia.
    + done.
    + cbn. lia.
  - wp_step. apply (HQ _ f); [by rewrite list_insert_id|rewrite decide_False by lia; apply grown_refl|done|done].
Qed.

Lemma wp_ensure_entry st din f q Q : img_rep st G (Some (i, din)) -> G !! i = Some f -> g_ind f <> 0 ->
  (q <= length (g_bs f))%nat -> NDIRECT <= Z.of_nat q < MAXFILE -> (q = length (g_bs f) -> m_freeblock st < DATAEND) ->
  (forall st' f', img_rep st' (<[i := f']> G) (Some (i, din)) -> grown st f st' f' (if decide (q = length (g_bs f)) then 1 else 0) ->
     length (g_bs f') = Nat.max (length (g_bs f)) (S q) -> g_ind f' = g_ind f -> Q (din, nth q (g_bs f') 0) st') ->
  wp (indirect ← rsect (xint (get32 din (din_addr NDIRECT)));
      let o := 4 * (Z.of_nat q - NDIRECT) in
      indirect ← (if get32 indirect o =? 0 then
                    b ← new_block;
                    let indirect := put32 indirect o (xint b) in
                    wsect (xint (get32 din (din_addr NDIRECT))) indirect;;
                    mret indirect
                  else mret indirect);
      mret (din, xint (get32 indirect o))) Q st.
Proof.
  intros H Hi Hind Hq Hd Hroom HQ. pose proof (ir_file _ _ _ H _ _ Hi) as Hrep. cbn in Hrep. rewrite decide_True in Hrep by done.
  pose proof (ir_block _ _ _ H) as Hfb. change nmeta with 59 in Hfb. pose proof (ir_own _ _ _ H _ _ _ Hi (owned_ind f Hind)) as Hio. change nmeta with 59 in Hio.
  rewrite xint_id by apply get32_range. rewrite (fr_ind _ _ _ Hrep). set (o := 4 * (Z.of_nat q - NDIRECT)).
  pose proof (ir_len _ _ _ H (g_ind f)) as Hlen. pose proof (fr_indirect _ _ _ Hrep (Z.of_nat q) Hd) as Hent.
  rewrite (proj2 (Z.eqb_neq _ _) Hind), Nat2Z.id in Hent. fold o in Hent. unfold DATAEND in Hfb. wp_step. apply wp_rsect; [apply H|lia|]. cbn zeta. rewrite Hent.
  destruct (Z.eqb_spec (nth q (g_bs f) 0) 0) as [E|E].
  - apply (bs_zero _ _ _ _ _ _ H Hi) in E. assert (q = length (g_bs f)) as Eq by lia. specialize (Hroom Eq). wp_step. wp_step.
    apply wp_new_block; [lia|]. cbn zeta. wp_step. apply wp_wsect; [apply H|lia|]. wp_steps. set (b := m_freeblock st) in *.
    assert (0 <= o /\ o + 4 <= 512) as [Ho1 Ho2] by (unfold o; unfold NDIRECT in *; change MAXFILE with 140 in *; lia).
    rewrite get32_put32_eq by lia. unfold DATAEND in *. rewrite (xint_id b) by (unfold two32; lia). rewrite (u32_small b) by (unfold two32; lia).
    rewrite xint_id by (unfold two32; lia). replace b with (nth q (g_bs (add_block b f)) 0) at 1 by (cbn; by rewrite nth_snoc, decide_True).
    set (img' := <[_ := _]> _). assert (forall n, 0 <= n -> blk img' n = if decide (n = g_ind f) then put32 (blk (m_img st) (g_ind f)) o (xint b) else blk (m_img st) n) as Himg.
    { intros n Hn. unfold img'. rewrite blk_insert; [by rewrite (xint_id b) by (unfold two32; lia)| |done]. cbn. rewrite (ir_full _ _ _ H). lia. }
    apply HQ.
    + destruct st as [img sb fi fb]. cbn in *. apply (take_block (mk_mkfs img sb fi fb) G i f din); try done; [by apply owned_add_block|apply full_insert, H|apply blk_len_insert; [apply H|by rewrite length_put32]| |].
      * intros n Hn Hno. rewrite Himg by done. rewrite decide_False; [done|]. intros ->. apply Hno. rewrite owned_add_block. right. by apply owned_ind.
      * eapply rep_add_entry; [exact Hrep|unfold two32; lia|by apply (ir_zero _ _ _ H); cbn|done|by rewrite <-Eq|by eapply (ir_nodup _ _ _ H)|
          exact (fresh_block _ _ _ _ _ H Hi)|done|by rewrite <-Eq|]. intros n Hn. pose proof (ir_own _ _ _ H _ _ _ Hi Hn) as Hr. change nmeta with 59 in Hr. lia.
    + rewrite decide_True by done. split; try done; [apply extends_add_block|]. rewrite owned_add_block. cbn. lia.
    + cbn. rewrite length_app. cbn. lia.
    + done.
  - rewrite (bs_zero _ _ _ _ _ _ H Hi) in E. wp_steps. rewrite Hent.
    pose proof (ir_own _ _ _ H _ _ _ Hi (owned_bs f q ltac:(lia))) as Hr. change nmeta with 59 in Hr. rewrite xint_id by (unfold two32; lia).
    apply HQ; [by rewrite list_insert_id|rewrite decide_False by lia; apply grown_refl|lia|done].
Qed.

(** The blocks that [iappend_block] takes for block [q]. *)
Definition takes (f : gfile) (q : nat) : Z :=
  (if decide ((12 <= q)%nat /\ g_ind f = 0) then 1 else 0) + (if decide (q = length (g_bs f)) then 1 else 0).
End step.

Lemma wp_iappend_block G i st din f q Q : img_rep st G (Some (i, din)) -> G !! i = Some f ->
  (q <= length (g_bs f))%nat -> (q < 140)%nat -> m_freeblock st + takes f q <= DATAEND ->
  (forall st' f' din', img_rep st' (<[i := f']> G) (Some (i, din')) -> grown st f st' f' (takes f q) ->
     length (g_bs f') = Nat.max (length (g_bs f)) (S q) -> (g_ind f' <> 0 <-> g_ind f <> 0 \/ (12 <= q)%nat) -> Q (din', nth q (g_bs f') 0) st') ->
  wp (iappend_block din (Z.of_nat q)) Q st.
Proof.
  intros H Hi Hq Hmax Hroom HQ. unfold iappend_block, takes in *. destruct (Z.ltb_spec (Z.of_nat q) NDIRECT) as [Hd|Hd].
  - rewrite (decide_False (P := (12 <= q)%nat /\ _)) in * by (unfold NDIRECT in *; lia). wp_step.
    eapply (wp_ensure_direct G i); [done..|intros E; rewrite decide_True in Hroom by done; lia|]. intros st1 f1 din1 H1 Hg Hl Hind. wp_step.
    pose proof (ir_file _ _ _ H1 i f1 ltac:(apply list_lookup_insert_eq; by eapply lookup_lt_Some)) as Hrep. cbn in Hrep. rewrite decide_True in Hrep by done.
    rewrite xint_id by apply get32_range. rewrite (fr_direct _ _ _ Hrep) by lia. rewrite Nat2Z.id. apply HQ; try done.
    rewrite Hind. unfold NDIRECT in Hd. split; [by left|]. intros [?|?]; [done|lia].
  - assert ((if decide ((12 <= q)%nat /\ g_ind f = 0) then 1 else 0) = if decide (g_ind f = 0) then 1 else 0) as Ed.
    { unfold NDIRECT in Hd. destruct (decide (g_ind f = 0)); [rewrite decide_True by lia|rewrite decide_False by tauto]; done. }
    rewrite Ed in *. assert (0 <= (if decide (q = length (g_bs f)) then 1 else 0) <= 1) as Hle by (destruct (decide (q = length (g_bs f))); lia).
    wp_step. eapply (wp_ensure_ind G i); [done..|intros E; rewrite decide_True in Hroom by done; lia|]. intros st1 f1 din1 H1 Hg1 Hbs Hind1.
    eapply (wp_ensure_entry (<[i := f1]> G) i); [exact H1|apply list_lookup_insert_eq; by eapply lookup_lt_Some|done|by rewrite Hbs|
      change MAXFILE with 140; lia| |].
    { rewrite Hbs. intros E. rewrite (gr_block _ _ _ _ _ Hg1). rewrite (decide_True (P := q = _)) in Hroom by done. lia. }
    intros st2 f2 H2 Hg2 Hl Hind2. rewrite Hbs in Hg2, Hl. rewrite list_insert_insert_eq in H2. apply HQ; [done|by eapply grown_trans|done|].
    rewrite Hind2. split; [intros _; right; unfold NDIRECT in Hd; lia|done].
Qed.

(** ** Appending bytes *)

Definition with_data (l : list Z) (f : gfile) : gfile := mk_gf (g_type f) (g_bs f) (g_ind f) l.

Lemma bs_inj f j k : NoDup (owned f) -> (j < length (g_bs f))%nat -> (k < length (g_bs f))%nat -> nth j (g_bs f) 0 = nth k (g_bs f) 0 -> j = k.
Proof.
  intros Hnd Hj Hk E. unfold owned in Hnd. apply NoDup_app in Hnd as (_ & _ & Hnd).
  eapply (NoDup_nth (g_bs f) 0); [by apply NoDup_ListNoDup|done..].
Qed.
Lemma bs_ne_ind f k : NoDup (owned f) -> g_ind f <> 0 -> (k < length (g_bs f))%nat -> nth k (g_bs f) 0 <> g_ind f.
Proof.
  intros Hnd Hi Hk E. unfold owned in Hnd. rewrite (proj2 (Z.eqb_neq _ _) Hi) in Hnd. apply NoDup_cons in Hnd as [Hni _].
  apply Hni. rewrite <-E, list_elem_of_In. by apply nth_In.
Qed.

(** The bytes of a piece, written into the block where the data ends. *)
Lemma rep_write img img' din f piece : let q := (length (g_data f) / 512)%nat in let x := nth q (g_bs f) 0 in
  file_rep img din f -> NoDup (owned f) -> (q < length (g_bs f))%nat -> (length (g_data f) mod 512 + length piece <= 512)%nat ->
  length (blk img x) = 512%nat ->
  (forall n, n ∈ owned f -> blk img' n = if decide (n = x) then splice (blk img x) (Z.of_nat (length (g_data f) mod 512)) piece else blk img n) ->
  file_rep img' din (with_data (g_data f ++ piece) f).
Proof.
  intros q x [H1 H2 H3 H4 H5 H6 H7 H8 H9] Hnd Hq Hp Hlen Himg. pose proof (Nat.div_mod (length (g_data f)) 512 ltac:(lia)) as Hdm. fold q in Hdm.
  split; cbn [g_type g_bs g_ind g_data with_data]; try done.
  - intros k Hk. rewrite <-H6 by done. destruct (Z.eqb_spec (g_ind f) 0) as [|Hi]; [done|].
    rewrite Himg, decide_False; [done| |by apply owned_ind]. intros E. by eapply (bs_ne_ind f q).
  - rewrite length_app. lia.
  - intros j Hj. pose proof (Nat.div_mod j 512 ltac:(lia)) as Hj'. pose proof (Nat.mod_upper_bound j 512 ltac:(lia)) as Hm.
    assert (j / 512 < length (g_bs f))%nat as Hjq by (apply Nat.Div0.div_lt_upper_bound; lia).
    rewrite Himg by (by apply owned_bs). case_decide as E.
    + apply bs_inj in E; [|done..]. rewrite nth_splice by lia. case_decide as Ein.
      * rewrite app_nth2 by lia. f_equal. lia.
      * unfold x. rewrite <-E, H9 by done. destruct (decide (j < length (g_data f))%nat); [by rewrite app_nth1|].
        rewrite !nth_overflow; [done|rewrite length_app; lia|lia].
    + rewrite H9 by done. assert (j / 512 <> q)%nat as Hne by (intros E'; apply E; by rewrite E').
      destruct (decide (j < length (g_data f))%nat); [by rewrite app_nth1|]. rewrite !nth_overflow; [done|rewrite length_app; nia|lia].
Qed.

(** The blocks of [n] bytes, and with the indirect block. *)
Definition blocks (n : nat) : nat := (n + 511) / 512.
Definition need (n : nat) : Z := Z.of_nat (blocks n) + if decide (12 < blocks n)%nat then 1 else 0.
(** The file has no block too many. *)
Definition exact f : Prop := length (g_bs f) = blocks (length (g_data f)) /\ (g_ind f <> 0 <-> (12 < length (g_bs f))%nat).

Lemma need_mono m n : (m <= n)%nat -> need m <= need n.
Proof.
  intros H. unfold need. assert (blocks m <= blocks n)%nat by (unfold blocks; apply Nat.Div0.div_le_mono; lia).
  repeat case_decide; lia.
Qed.
Lemma blocks_next n m : (1 <= m)%nat -> (n mod 512 + m <= 512)%nat -> blocks (n + m) = S (n / 512).
Proof. intros. unfold blocks. pose proof (Nat.div_mod n 512 ltac:(lia)). symmetry. apply (Nat.div_unique _ 512 _ (n mod 512 + m - 1)); lia. Qed.
Lemma blocks_at n : blocks n = (n / 512 + if decide (n mod 512 = 0) then 0 else 1)%nat.
Proof.
  unfold blocks. pose proof (Nat.div_mod n 512 ltac:(lia)). pose proof (Nat.mod_upper_bound n 512 ltac:(lia)).
  symmetry. case_decide; [apply (Nat.div_unique _ 512 _ 511)|apply (Nat.div_unique _ 512 _ (n mod 512 - 1))]; lia.
Qed.

(** Taking the block of the next piece keeps the count exact. *)
Lemma takes_need f m : exact f -> (1 <= m)%nat -> (length (g_data f) mod 512 + m <= 512)%nat ->
  takes f (length (g_data f) / 512) = need (length (g_data f) + m) - need (length (g_data f)).
Proof.
  intros [Hl Hi] Hm1 Hm2. unfold takes, need. rewrite blocks_next by done. rewrite Hl, blocks_at in Hi. rewrite Hl, blocks_at.
  destruct (decide (length (g_data f) mod 512 = 0)%nat) as [E|E].
  - rewrite Nat.add_0_r in *. rewrite (decide_True (P := (_ = _)%nat)) by done. destruct (decide (g_ind f = 0)) as [E0|E0].
    + assert (~ (12 < length (g_data f) / 512)%nat) by (intros ?; by apply Hi). repeat case_decide; lia.
    + apply Hi in E0. rewrite (decide_False (P := _ /\ _)) by (intros [_ ?]; by apply Hi in E0). repeat case_decide; lia.
  - rewrite (decide_False (P := (_ = _)%nat)) by lia. rewrite Nat.add_1_r in *. rewrite (decide_False (P := _ /\ _)); [repeat case_decide; lia|].
    intros [Hq E0]. apply (proj2 Hi); [lia|done].
Qed.

Lemma exact_owned f : exact f -> Z.of_nat (length (owned f)) = need (length (g_data f)).
Proof.
  intros [Hl Hi]. unfold owned, need. rewrite length_app, Hl. rewrite Hl in Hi. destruct (Z.eqb_spec (g_ind f) 0) as [E|E]; cbn.
  - rewrite decide_False; [lia|]. intros H. by apply Hi in H.
  - rewrite decide_True by (by apply Hi). lia.
Qed.

(** One piece. *)
Lemma wp_append_piece G i st din f p n1 Q : img_rep st G (Some (i, din)) -> G !! i = Some f -> exact f ->
  n1 = Nat.min (length p) (512 - length (g_data f) mod 512) -> (0 < length p)%nat -> (length (g_data f) < 512 * 140)%nat ->
  m_freeblock st + (need (length (g_data f) + n1) - need (length (g_data f))) <= DATAEND ->
  (forall st' f' din', img_rep st' (<[i := f']> G) (Some (i, din')) -> exact f' -> extends f f' -> g_data f' = g_data f ++ take n1 p ->
     m_freeblock st' = m_freeblock st + (need (length (g_data f) + n1) - need (length (g_data f))) ->
     Q (inl (din', Z.of_nat (length (g_data f)) + Z.of_nat n1, drop n1 p)) st') ->
  wp (let off := Z.of_nat (length (g_data f)) in
      let fbn := off / BSIZE in
      assert_ (fbn <? MAXFILE);;
      '(din, x) ← iappend_block din fbn;
      let n1 := Z.min (Z.of_nat (length p)) ((fbn + 1) * BSIZE - off) in
      buf ← rsect x;
      wsect x (splice buf (off - fbn * BSIZE) (take (Z.to_nat n1) p));;
      mret (inl (B := list Z * Z) (din, off + n1, drop (Z.to_nat n1) p))) Q st.
Proof.
  intros H Hi He Hn1 Hp Hmax Hroom HQ. cbn zeta. set (len := length (g_data f)) in *. change BSIZE with (Z.of_nat 512).
  pose proof (Nat.div_mod len 512 ltac:(lia)) as Hdm. pose proof (Nat.mod_upper_bound len 512 ltac:(lia)) as Hmb.
  rewrite <-Nat2Z.inj_div. set (q := (len / 512)%nat) in *. assert (q < 140)%nat as Hq by (apply Nat.Div0.div_lt_upper_bound; lia).
  rewrite (proj2 (Z.ltb_lt _ _)) by (change MAXFILE with 140; lia). cbn [assert_]. wp_step. wp_step. wp_step.
  assert (takes f q = need (len + n1) - need len) as Ht by (apply (takes_need f n1); fold len; [done|lia|lia]). rewrite <-Ht in *.
  pose proof He as [Hl Hind]. fold len in Hl. rewrite blocks_at in Hl. fold q in Hl.
  eapply (wp_iappend_block G i); [done..|destruct (decide _); lia|done|done|]. intros st1 f1 din1 H1 Hg Hl1 Hi1.
  assert (<[i := f1]> G !! i = Some f1) as Hif1 by (apply list_lookup_insert_eq; by eapply lookup_lt_Some).
  assert (length (g_bs f1) = S q) as Hl1' by (destruct (decide _); lia). cbn zeta.
  replace (Z.min _ _) with (Z.of_nat n1) by lia. rewrite Nat2Z.id. replace (Z.of_nat len - Z.of_nat q * Z.of_nat 512) with (Z.of_nat (len mod 512)) by lia.
  set (x := nth q (g_bs f1) 0). pose proof (ir_own _ _ _ H1 _ _ _ Hif1 (owned_bs f1 q ltac:(lia)) : _ <= x < _) as Hx.
  pose proof (ir_block _ _ _ H1) as Hfb. unfold DATAEND in Hfb. change nmeta with 59 in *. wp_step. apply wp_rsect; [apply H1|lia|]. wp_step.
  apply wp_wsect; [apply H1|lia|]. wp_step. pose proof (gr_data _ _ _ _ _ Hg) as Ed. fold len in Ed. assert (length (g_data f1) = len) as Elen by (by rewrite Ed).
  assert (length (take n1 p) = n1) as Etk by (rewrite length_take; lia).
  apply (HQ _ (with_data (g_data f ++ take n1 p) f1)); try done.
  - replace (<[i := with_data _ f1]> G) with (<[i := with_data (g_data f ++ take n1 p) f1]> (<[i := f1]> G)) by apply list_insert_insert_eq.
    destruct st1 as [img sb fi fb]. cbn [m_img m_sb m_freeinode m_freeblock set_m_img] in *.
    eapply (img_rep_update (mk_mkfs img sb fi fb) _ i f1); [exact H1|done|apply full_insert, H1| | |exact (ir_nodup _ _ _ H1 _ _ Hif1)|by left|cbn; unfold DATAEND; lia|].
    + apply blk_len_insert; [apply H1|]. rewrite length_splice; [apply (ir_len _ _ _ H1)|lia|]. rewrite (ir_len _ _ _ H1 x : length (blk img x) = _). lia.
    + intros n Hn Hno. rewrite blk_insert; [|rewrite (ir_full _ _ _ H1 : length img = _); lia|done]. rewrite decide_False; [done|].
      intros ->. apply Hno. exact (owned_bs f1 q ltac:(lia)).
    + pose proof (ir_file _ _ _ H1 _ _ Hif1) as Hrep. cbn in Hrep. rewrite decide_True in Hrep by done. rewrite <-Ed.
      eapply rep_write; rewrite ?Elen; [exact Hrep|exact (ir_nodup _ _ _ H1 _ _ Hif1)|lia|lia|apply (ir_len _ _ _ H1)|].
      intros n Hn. apply blk_insert; [rewrite (ir_full _ _ _ H1 : length img = _); fold q x; lia|].
      pose proof (ir_own _ _ _ H1 _ _ _ Hif1 Hn) as Hr. change nmeta with 59 in Hr. lia.
  - split; cbn [g_bs g_ind g_data with_data]; [rewrite Hl1', length_app, Etk; fold len; by rewrite blocks_next by lia|]. rewrite Hi1, Hl1', Hind, Hl. destruct (decide _); lia.
  - apply Hg.
  - apply Hg.
Qed.

(** ** Inodes in the image *)

Lemma file_rep_size img din f v : file_rep img din f -> file_rep img (put32 din 8 v) f.
Proof.
  intros [H1 H2 H3 H4 H5 H6 H7 H8 H9]. unfold din_addr, NDIRECT in *. split; try done; unfold din_addr, NDIRECT.
  - by rewrite length_put32.
  - by rewrite get16_put32_ne by lia.
  - by rewrite get16_put32_ne by lia.
  - intros k Hk. rewrite get32_put32_ne by lia. by apply H4.
  - by rewrite get32_put32_ne by lia.
Qed.

Lemma img_rep_cur st G i f din din' : img_rep st G (Some (i, din)) -> G !! i = Some f -> file_rep (m_img st) din' f -> img_rep st G (Some (i, din')).
Proof.
  intros [] Hi Hrep. split; try done.
  - intros j g Hj. specialize (ir_file0 j g Hj). unfold din_of in *. case_decide; [by simplify_eq|done].
  - intros j g Hj Hcur. apply ir_size0; [done|]. intros din0 [= -> ->]. by apply (Hcur din').
Qed.

Lemma img_rep_load st G i : img_rep st G None -> img_rep st G (Some (i, din_at (m_img st) i)).
Proof.
  intros []. split; try done.
  - intros j g Hj. specialize (ir_file0 j g Hj). unfold din_of in *. by case_decide; subst.
  - intros j g Hj _. by apply ir_size0.
Qed.

Lemma length_din_at st G cur i : img_rep st G cur -> length (din_at (m_img st) i) = 64%nat.
Proof.
  intros H. unfold din_at. rewrite length_take, length_drop, (ir_len _ _ _ H). unfold dinode_off. change IPB with 8. change DINODESIZE with 64. zdiv.
Qed.

(** The inodes after one is written. *)
Lemma din_at_write img i j din : (forall n, length (blk img n) = 512%nat) -> full img -> length din = 64%nat ->
  Z.of_nat i + 1 < MAXINODES -> Z.of_nat j + 1 < MAXINODES -> let bn := IBLOCK (Z.of_nat i + 1) the_sb in
  din_at (<[Z.to_nat bn := splice (blk img bn) (dinode_off (Z.of_nat i + 1)) din]> img) j = if decide (j = i) then din else din_at img j.
Proof.
  intros Hl Hf Hd Hi Hj bn. pose proof (IBLOCK_range (Z.of_nat i + 1) ltac:(lia)) as Hbi. pose proof (IBLOCK_range (Z.of_nat j + 1) ltac:(lia)) as Hbj.
  fold bn in Hbi. unfold full in Hf. unfold din_at. rewrite blk_insert by lia. change (Z.to_nat DINODESIZE) with 64%nat.
  assert (forall k, 0 <= dinode_off k <= 448) as Hoff by (intros k; unfold dinode_off; change IPB with 8; change DINODESIZE with 64; zdiv).
  pose proof (Hoff (Z.of_nat i + 1)). pose proof (Hl bn).
  destruct (decide (j = i)) as [->|Hne].
  - rewrite decide_True by done. rewrite <-Hd at 1. apply slice_splice_eq; lia.
  - case_decide as E; [|done]. rewrite E. apply slice_splice_ne; [lia|lia|apply Hoff|].
    unfold bn, IBLOCK in E. change (sb_inodestart the_sb) with 2032 in E. unfold MAXINODES in *. change IPB with 8 in *.
    rewrite !u32_small in E by (unfold two32; zdiv). unfold dinode_off. change IPB with 8. change DINODESIZE with 64. zdiv.
Qed.

(** What [winode] writes: one inode, in its block. *)
Record inode_set (img img' : list (list Z)) (i : nat) (din : list Z) : Prop := {
  is_full : full img';
  is_len : forall n, length (blk img' n) = 512%nat;
  is_same : forall n, 0 <= n -> ~ (2032 <= n < 2058) -> blk img' n = blk img n;
  is_din : forall j, Z.of_nat j + 1 < MAXINODES -> din_at img' j = if decide (j = i) then din else din_at img j;
}.

Lemma wp_winode_set st i din Q : full (m_img st) -> (forall n, length (blk (m_img st) n) = 512%nat) -> m_sb st = the_sb ->
  length din = 64%nat -> Z.of_nat i + 1 < MAXINODES ->
  (forall img', inode_set (m_img st) img' i din -> Q tt (set_m_img img' st)) -> wp (winode (Z.of_nat i + 1) din) Q st.
Proof.
  intros H1 H2 H3 Hd Hmax HQ. unfold winode. wp_step. wp_step. rewrite H3. pose proof (IBLOCK_range (Z.of_nat i + 1) ltac:(lia)) as Hb.
  wp_step. apply wp_rsect; [done|lia|]. apply wp_wsect; [done|lia|]. apply HQ. split.
  - by apply full_insert.
  - apply blk_len_insert; [done|]. rewrite length_splice; rewrite ?H2, ?Hd; unfold dinode_off; change IPB with 8; change DINODESIZE with 64; zdiv.
  - unfold full in H1. intros n Hn Hne. by rewrite blk_insert, decide_False by lia.
  - intros j Hj. by apply din_at_write.
Qed.

Lemma wp_winode st G i f din Q : img_rep st G (Some (i, din)) -> G !! i = Some f -> get32 din 8 = Z.of_nat (length (g_data f)) ->
  (forall img', img_rep (set_m_img img' st) G None -> Q tt (set_m_img img' st)) -> wp (winode (Z.of_nat i + 1) din) Q st.
Proof.
  intros H Hi Hsz HQ. pose proof H as [H1 H2 H3 H4 H5 H6 H7 H8 H9 H10 H11 H12 H13].
  assert (forall j g, G !! j = Some g -> Z.of_nat j + 1 < MAXINODES) as Hidx by (intros j g Hj%lookup_lt_Some; lia).
  pose proof (H8 i f Hi) as Hrep. cbn in Hrep. rewrite decide_True in Hrep by done.
  apply wp_winode_set; [done..|apply Hrep|by eapply Hidx|]. intros img' [Hfull Hlen Hsame Hdin]. apply HQ.
  assert (nmeta = 59) as Hnm by done. unfold DATAEND in *. split; cbn [m_img m_sb m_freeblock m_freeinode set_m_img]; unfold DATAEND; try done.
  - rewrite <-H4. apply Hsame; lia.
  - intros j g Hj. eapply file_rep_frame; [|intros n Hn; apply Hsame; pose proof (H11 _ _ _ Hj Hn); lia].
    cbn. rewrite Hdin by (by eapply Hidx). specialize (H8 j g Hj). cbn in H8. case_decide; done.
  - intros j g Hj _. rewrite Hdin by (by eapply Hidx). case_decide as E; [subst; by simplify_eq|]. apply H9; [done|]. by intros ? [= ->].
  - intros b Hb'. rewrite Hsame by lia. by apply H13.
Qed.

Lemma wp_rinode st G i f Q : img_rep st G None -> G !! i = Some f -> Q (din_at (m_img st) i) st -> wp (rinode (Z.of_nat i + 1)) Q st.
Proof.
  intros H Hi HQ. pose proof (lookup_lt_Some _ _ _ Hi) as Hlt. pose proof (ir_inodes _ _ _ H). pose proof (IBLOCK_range (Z.of_nat i + 1) ltac:(lia)) as Hb.
  unfold rinode. wp_step. wp_step. rewrite (ir_sb _ _ _ H). wp_step. apply wp_rsect; [apply H|lia|]. by wp_step.
Qed.

(** [iappend] makes the file longer. *)
Lemma wp_iappend st G i f p Q : img_rep st G None -> G !! i = Some f -> exact f ->
  (length (g_data f) + length p <= 512 * 140)%nat ->
  m_freeblock st + (need (length (g_data f) + length p) - need (length (g_data f))) <= DATAEND ->
  (forall st' f', img_rep st' (<[i := f']> G) None -> exact f' -> extends f f' -> g_data f' = g_data f ++ p ->
     m_freeblock st' = m_freeblock st + (need (length (g_data f) + length p) - need (length (g_data f))) -> Q tt st') ->
  wp (iappend (Z.of_nat i + 1) p) Q st.
Proof.
  intros H Hi He Hmax Hroom HQ. unfold iappend. wp_step. eapply wp_rinode; [done..|]. set (total := (length (g_data f) + length p)%nat) in *. wp_step.
  rewrite xint_id by apply get32_range. rewrite (ir_size _ _ _ H i f Hi) by done.
  apply (wp_while _ (fun '(din, off, p') st' => exists f', img_rep st' (<[i := f']> G) (Some (i, din)) /\ exact f' /\ extends f f' /\
      g_data f' ++ p' = g_data f ++ p /\ off = Z.of_nat (length (g_data f')) /\
      m_freeblock st' = m_freeblock st + (need (length (g_data f')) - need (length (g_data f)))) (fun '(_, _, p') => length p')).
  - intros [[din off] p'] st1 (f1 & H1 & He1 & Hty & Hcat & -> & Hfb). apply (f_equal length) in Hcat as Hlen. rewrite !length_app in Hlen. fold total in Hlen.
    assert (<[i := f1]> G !! i = Some f1) as Hi1 by (apply list_lookup_insert_eq; by eapply lookup_lt_Some).
    destruct (Z.ltb_spec 0 (Z.of_nat (length p'))) as [Hp|Hp].
    + set (n1 := Nat.min (length p') (512 - length (g_data f1) mod 512)). pose proof (need_mono (length (g_data f1) + n1) total ltac:(lia)) as Hmono.
      pose proof (Nat.mod_upper_bound (length (g_data f1)) 512 ltac:(lia)).
      eapply (wp_append_piece (<[i := f1]> G) i st1 din f1 p' n1); [done..|lia|lia|lia|]. intros st2 f2 din2 H2 He2 Hty2 Hd2 Hfb2.
      rewrite list_insert_insert_eq in H2. assert (length (take n1 p') = n1) as Etk by (rewrite length_take; lia). split.
      * exists f2. split_and!; [done..|by eapply extends_trans|by rewrite Hd2, <-app_assoc, take_drop| |]; rewrite Hd2, length_app, Etk; lia.
      * rewrite length_drop. lia.
    + destruct p'; [|cbn in Hp; lia]. rewrite app_nil_r in Hcat. wp_step. cbn in Hlen. rewrite Nat.add_0_r in Hlen. rewrite Hlen in Hfb.
      assert (0 <= Z.of_nat (length (g_data f1)) < two32) as Hr by (rewrite Hlen; unfold two32; lia). rewrite xint_id by done.
      pose proof (ir_file _ _ _ H1 _ _ Hi1) as Hrep. cbn in Hrep. rewrite decide_True in Hrep by done.
      eapply (wp_winode st1 (<[i := f1]> G) i f1); [eapply img_rep_cur; [exact H1|done|by apply file_rep_size]|done| |].
      * rewrite get32_put32_eq by (rewrite ?(fr_len _ _ _ Hrep); lia). by apply u32_small.
      * intros img' H2. by eapply HQ.
  - lia.
  - exists f. rewrite list_insert_id by done. split_and!; try done; [by apply img_rep_load|lia].
Qed.

(** ** Creating files *)

Definition new_file (type : Z) : gfile := mk_gf type [] 0 [].
Definition new_din (type : Z) : list Z := put32 (put16 (put16 (replicate 64 0) 0 type) 6 1) 8 0.

Lemma new_din_rep img type : type = T_DIR \/ type = T_FILE -> file_rep img (new_din type) (new_file type) /\ get32 (new_din type) 8 = 0.
Proof.
  assert (forall t, t = T_DIR \/ t = T_FILE -> get16 (new_din t) 0 = t /\ get16 (new_din t) 6 = 1 /\ get32 (new_din t) 8 = 0 /\ get32 (new_din t) 60 = 0 /\
    forallb (fun k => get32 (new_din t) (din_addr k) =? 0) (seqZ 0 NDIRECT) = true) as Hall by (intros t [-> | ->]; by vm_compute).
  intros Ht. destruct (Hall type Ht) as (H1 & H2 & H3 & H4 & H5). split; [|done]. split; try done.
  - intros k Hk. rewrite forallb_forall in H5. cbn [g_bs new_file]. replace (nth _ [] 0) with 0 by (by destruct (Z.to_nat k)).
    apply Z.eqb_eq, H5, list_elem_of_In, elem_of_seqZ. lia.
  - intros k Hk. cbn [g_bs g_ind new_file]. by destruct (Z.to_nat k).
  - cbn. lia.
  - cbn. lia.
Qed.

Lemma exact_new type : exact (new_file type).
Proof. split; [done|]. cbn. split; [done|lia]. Qed.

Lemma img_rep_new st G f din : img_rep st G None -> file_rep (m_img st) din f -> owned f = [] -> Z.of_nat (length G) + 1 < MAXINODES ->
  img_rep (set_m_freeinode (Z.of_nat (length G) + 2) st) (G ++ [f]) (Some (length G, din)).
Proof.
  intros [H1 H2 H3 H4 H5 H6 H7 H8 H9 H10 H11 H12 H13] Hrep Hown Hmax.
  assert (forall j g, (G ++ [f]) !! j = Some g -> j = length G /\ g = f \/ j <> length G /\ G !! j = Some g) as HG.
  { intros j g. destruct (decide (j = length G)) as [->|Hne]; [rewrite list_lookup_middle by done; naive_solver|].
    intros [Hj|[? Hj]]%lookup_app_Some; [by right|]. apply list_lookup_singleton_Some in Hj as [? _]. lia. }
  split; cbn [m_img m_sb m_freeblock m_freeinode set_m_freeinode]; try done; try (rewrite length_app; cbn; lia).
  - intros j g [[-> ->]|[Hne Hj]]%HG; cbn; [by rewrite decide_True|]. rewrite decide_False by done. by apply H8.
  - intros j g [[-> ->]|[Hne Hj]]%HG Hcur; [by destruct (Hcur din)|]. by apply H9.
  - intros j g [[-> ->]|[Hne Hj]]%HG; [rewrite Hown; apply NoDup_nil_2|]. by eapply H10.
  - intros j g b [[-> ->]|[Hne Hj]]%HG Hb; [rewrite Hown in Hb; by apply elem_of_nil in Hb|]. by eapply H11.
  - intros j j' g g' b Hne [[-> ->]|[Hj1 Hj]]%HG [[-> ->]|[Hj1' Hj']]%HG Hb; [done| | |by eapply (H12 j j')].
    + rewrite Hown in Hb. by apply elem_of_nil in Hb.
    + rewrite Hown. apply not_elem_of_nil.
Qed.

Lemma wp_ialloc st G type Q : img_rep st G None -> Z.of_nat (length G) + 1 < MAXINODES -> type = T_DIR \/ type = T_FILE ->
  (forall st', img_rep st' (G ++ [new_file type]) None -> m_freeblock st' = m_freeblock st -> Q (Z.of_nat (length G) + 1) st') ->
  wp (mkfs_ialloc type) Q st.
Proof.
  intros H Hmax Ht HQ. unfold mkfs_ialloc. wp_step. wp_step. wp_step. wp_step. rewrite (ir_inode _ _ _ H). unfold MAXINODES in Hmax.
  rewrite u32_small by (unfold two32; lia). rewrite xshort_id by (destruct Ht; subst; done). destruct (new_din_rep (m_img st) type Ht) as [Hrep Hsz].
  change (put32 _ 8 (xint 0)) with (new_din type). wp_step. replace (Z.of_nat (length G) + 1 + 1) with (Z.of_nat (length G) + 2) by lia.
  eapply wp_winode; [apply img_rep_new; [exact H|exact Hrep|done|done]|by apply list_lookup_middle|done|].
  intros img' H'. wp_step. by apply HQ.
Qed.

(** The entries of the root directory, with the names of the files. *)
Definition root_ents (names : list (list Z)) : list (list Z) :=
  mk_dirent [46] 1 :: mk_dirent [46; 46] 1 :: imap (fun k name => mk_dirent name (Z.of_nat k + 2)) names.
Definition root_data (names : list (list Z)) : list Z := concat (root_ents names).
(** The blocks of all files. *)
Definition needs (cs : list (list Z)) : Z := foldr (fun c n => need (length c) + n) 0 cs.

Lemma root_ents_snoc names name : root_ents (names ++ [name]) = root_ents names ++ [mk_dirent name (Z.of_nat (length names) + 2)].
Proof. unfold root_ents. rewrite imap_app. cbn. by rewrite Nat.add_0_r. Qed.
Lemma root_data_snoc names name : root_data (names ++ [name]) = root_data names ++ mk_dirent name (Z.of_nat (length names) + 2).
Proof. unfold root_data. by rewrite root_ents_snoc, concat_app, concat_cons, concat_nil, app_nil_r. Qed.
Lemma length_root_data names : length (root_data names) = (16 * (length names + 2))%nat.
Proof.
  induction names as [|name names IH] using rev_ind; [done|]. rewrite root_data_snoc, !length_app, IH, mk_dirent_len. cbn [length].
  change (Z.to_nat DIRENTSIZE) with 16%nat. lia.
Qed.
Lemma needs_snoc cs c : needs (cs ++ [c]) = needs cs + need (length c).
Proof. unfold needs. induction cs as [|c' cs IH]; cbn; [lia|]. rewrite IH. lia. Qed.
Lemma need_nonneg n : 0 <= need n.
Proof. unfold need. case_decide; lia. Qed.
Lemma insert_snoc {A} (l : list A) x y : <[length l := x]> (l ++ [y]) = l ++ [x].
Proof. by rewrite insert_app_r_alt, Nat.sub_diag by lia. Qed.

(** The image holds the files [cs] under the names [names]. *)
Definition is_gfile (type : Z) (f : gfile) (c : list Z) : Prop := g_type f = type /\ g_data f = c /\ exact f.
Record built st names cs f0 fs : Prop := {
  bt_rep : img_rep st (f0 :: fs) None;
  bt_root : is_gfile T_DIR f0 (root_data names);
  bt_files : Forall2 (is_gfile T_FILE) fs cs;
  bt_names : length names = length cs;
  bt_block : m_freeblock st = nmeta + need (length (root_data names)) + needs cs;
  bt_first : head (g_bs f0) = Some nmeta;
}.

Lemma head_prefix (l l' : list Z) x : l `prefix_of` l' -> head l = Some x -> head l' = Some x.
Proof. intros [k ->]. by destruct l. Qed.

(** The chunks of a file, one [iappend] each. *)
Lemma wp_append_chunks G chunks f st Q : img_rep st (G ++ [f]) None -> exact f ->
  (length (g_data f) + length (concat chunks) <= 512 * 140)%nat ->
  m_freeblock st + (need (length (g_data f) + length (concat chunks)) - need (length (g_data f))) <= DATAEND ->
  (forall st' f', img_rep st' (G ++ [f']) None -> is_gfile (g_type f) f' (g_data f ++ concat chunks) ->
     m_freeblock st' = m_freeblock st + (need (length (g_data f) + length (concat chunks)) - need (length (g_data f))) -> Q (inl tt) st') ->
  wp (for_ (R := unit) chunks (fun buf (_ : unit) => iappend (Z.of_nat (length G) + 1) buf;; mret (Next tt)) tt) Q st.
Proof.
  revert f st. induction chunks as [|c chunks IH]; intros f st H He Hmax Hroom HQ.
  - apply (HQ st f); [done| |cbn; rewrite Nat.add_0_r; lia]. by split_and!; [|cbn; rewrite app_nil_r|].
  - cbn [for_]. cbn [concat] in *. rewrite length_app in *. wp_step. wp_step.
    pose proof (need_mono (length (g_data f) + length c) (length (g_data f) + (length c + length (concat chunks))) ltac:(lia)) as Hmono.
    eapply wp_iappend; [exact H|by apply list_lookup_middle|done|lia|lia|]. intros st1 f1 H1 He1 Hty Hd Hfb. rewrite insert_snoc in H1. wp_step.
    assert (length (g_data f1) = length (g_data f) + length c)%nat as El by (by rewrite Hd, length_app).
    apply (IH f1); rewrite ?El; [done|done|lia|rewrite <-Nat.add_assoc; lia|]. intros st2 f2 H2 (Hty2 & Hd2 & He2) Hfb2. apply (HQ st2 f2); [done| |].
    + split_and!; [by rewrite Hty2, (proj1 Hty)|by rewrite Hd2, Hd, app_assoc|done].
    + rewrite Hfb2, <-Nat.add_assoc. lia.
Qed.

Lemma wp_add_file reads arg chunks names cs f0 fs st Q : built st names cs f0 fs -> SLASH ∉ arg -> reads arg = Some chunks ->
  let name := target_name arg in let c := concat chunks in
  Z.of_nat (length cs) + 2 < MAXINODES -> (length c <= 512 * 140)%nat ->
  nmeta + need (length (root_data (names ++ [name]))) + needs (cs ++ [c]) <= DATAEND ->
  (forall st' f0' fs', built st' (names ++ [name]) (cs ++ [c]) f0' fs' -> Q tt st') ->
  wp (add_file reads 1 arg) Q st.
Proof.
  intros [H (Hty & Hd & He) Hfs Hn Hfb Hfst] Hsl Hr name c Hmax Hc Hroom HQ. unfold add_file. rewrite bool_decide_false by done. cbn [negb assert_]. wp_step. wp_step. rewrite Hr.
  pose proof (Forall2_length _ _ _ Hfs) as Hlf. rewrite needs_snoc in Hroom. wp_step. eapply wp_ialloc; [exact H|cbn; lia|by right|]. intros st1 H1 Hfb1. wp_step.
  pose proof (need_nonneg (length c)). pose proof (length_root_data names) as Hl. pose proof (length_root_data (names ++ [name])) as Hl'.
  rewrite length_app in Hl'. cbn [length] in Hl'. unfold MAXINODES in Hmax. rewrite xshort_id by (cbn; lia). set (de := mk_dirent _ _).
  assert (root_data (names ++ [name]) = root_data names ++ de) as Ede.
  { rewrite root_data_snoc. unfold de, name. do 2 f_equal. cbn. lia. }
  assert (length de = 16%nat) as Hde by apply mk_dirent_len.
  assert (length (g_data f0) + length de = length (root_data (names ++ [name])))%nat as El0 by (rewrite Hd, Ede, length_app; lia).
  eapply (wp_iappend _ _ 0 f0); [exact H1|done|done|rewrite El0; lia|rewrite El0, Hd; lia|]. intros st2 f0' H2 He2 Hty2 Hd2 Hfb2. rewrite El0, Hd in Hfb2.
  cbn [insert list_insert app] in H2. wp_step. change (f0' :: fs ++ [new_file T_FILE]) with ((f0' :: fs) ++ [new_file T_FILE]) in H2.
  change (length (f0 :: fs)) with (length (f0' :: fs)).
  assert (need 0 = 0) as Hn0 by done. eapply wp_append_chunks; [exact H2|apply exact_new|cbn [length g_data new_file Nat.add]; fold c; lia|cbn [length g_data new_file Nat.add]; fold c; lia|].
  intros st3 f' H3 Hf' Hfb3. cbn [length g_data new_file Nat.add g_type app] in Hfb3, Hf'. fold c in Hfb3, Hf'. wp_step. apply (HQ st3 f0' (fs ++ [f'])).
  split; [exact H3| | | | |by eapply head_prefix; [apply Hty2|]].
  - split_and!; [by rewrite (proj1 Hty2)|by rewrite Hd2, Hd, Ede|done].
  - by apply Forall2_app; [|constructor; [|constructor]].
  - rewrite !length_app. cbn. lia.
  - rewrite needs_snoc. lia.
Qed.

(** The files that the host gives, and that there is room for them. *)
Definition given (reads : list Z -> option (list (list Z))) (arg c : list Z) : Prop :=
  SLASH ∉ arg /\ exists chunks, reads arg = Some chunks /\ concat chunks = c.
Record fits (names cs : list (list Z)) : Prop := {
  ft_inodes : Z.of_nat (length cs) + 1 < MAXINODES;
  ft_each : Forall (fun c => length c <= 512 * 140)%nat cs;
  ft_blocks : nmeta + need (length (root_data names)) + needs cs <= DATAEND;
}.

Lemma needs_app cs cs' : needs (cs ++ cs') = needs cs + needs cs'.
Proof. unfold needs. induction cs as [|c cs IH]; cbn; [lia|]. rewrite IH. lia. Qed.
Lemma needs_nonneg cs : 0 <= needs cs.
Proof. unfold needs. induction cs as [|c cs IH]; cbn; [lia|]. pose proof (need_nonneg (length c)). lia. Qed.

Lemma fits_prefix names ns cs cs' : fits (names ++ ns) (cs ++ cs') -> fits names cs.
Proof.
  intros [H1 H2 H3]. rewrite length_app in H1. rewrite needs_app in H3. apply Forall_app in H2 as [H2 _]. split; [lia|done|].
  pose proof (need_mono (length (root_data names)) (length (root_data (names ++ ns)))) as Hm. rewrite !length_root_data, length_app in Hm.
  rewrite !length_root_data, length_app in H3. rewrite length_root_data. pose proof (needs_nonneg cs'). lia.
Qed.

Lemma wp_add_files reads args cs' names cs f0 fs st Q : built st names cs f0 fs -> Forall2 (given reads) args cs' ->
  fits (names ++ (target_name <$> args)) (cs ++ cs') ->
  (forall st' f0' fs', built st' (names ++ (target_name <$> args)) (cs ++ cs') f0' fs' -> Q (inl tt) st') ->
  wp (for_ (R := unit) args (fun arg (_ : unit) => add_file reads 1 arg;; mret (Next tt)) tt) Q st.
Proof.
  intros Hb Hg. revert names cs f0 fs st Hb. induction Hg as [|arg c args cs' [Hsl (chunks & Hr & <-)] Hg IH]; intros names cs f0 fs st Hb Hfit HQ.
  - cbn in *. rewrite !app_nil_r in *. by eapply HQ.
  - cbn [for_]. rewrite fmap_cons, !cons_middle, !app_assoc in *. pose proof (fits_prefix _ _ _ _ Hfit) as [F1 F2 F3]. rewrite length_app in F1. cbn [length] in F1.
    apply Forall_app in F2 as [_ F2]. apply Forall_inv in F2. wp_step. wp_step.
    eapply wp_add_file; [exact Hb|done|done|lia|exact F2|done|]. intros st1 f1 fs1 Hb1. wp_step. by eapply IH.
Qed.

Lemma length_sb_bytes : length (sb_bytes the_sb) = 512%nat.
Proof. by vm_compute. Qed.

Definition img0 : list (list Z) := <[1%nat := sb_bytes the_sb]> (replicate 3000 zeroes).
Lemma blk_img0 n : blk img0 n = if decide (Z.to_nat n = 1%nat) then sb_bytes the_sb else zeroes.
Proof.
  unfold blk, img0. case_decide as E.
  - rewrite E, list_lookup_insert_eq by (rewrite length_replicate; lia). reflexivity.
  - rewrite list_lookup_insert_ne by done. destruct (replicate 3000 zeroes !! Z.to_nat n) as [b|] eqn:F; [|done].
    apply lookup_replicate in F as [-> _]. done.
Qed.

Lemma img0_rep : img_rep (mk_mkfs img0 the_sb 1 nmeta) [] None.
Proof.
  assert (full img0) as Hfull by (unfold full, img0; by rewrite length_insert, length_replicate).
  split; cbn [m_img m_sb m_freeinode m_freeblock]; [done| |done| | |done|done|by intros i f ?..| ].
  - intros n. rewrite blk_img0. case_decide; [apply length_sb_bytes|apply length_replicate].
  - rewrite blk_img0. by rewrite decide_True.
  - change nmeta with 59. unfold DATAEND. lia.
  - intros b Hb. rewrite blk_img0. change nmeta with 59 in Hb. by rewrite decide_False by lia.
Qed.

Lemma wp_zero_image Q st : m_img st = [] -> Q (inl tt) (set_m_img (replicate 3000 zeroes) st) ->
  wp (for_ (R := unit) (seqZ 0 (FSSIZE + SWAPBLOCKS)) (fun i (_ : unit) => wsect i zeroes;; mret (Next tt)) tt) Q st.
Proof.
  intros Hn HQ. change (FSSIZE + SWAPBLOCKS) with 3000. apply (wp_for_seqZ _ _ (fun t _ st' => st' = set_m_img (replicate t zeroes) st)).
  - lia.
  - intros t [] st' Ht ->. wp_step. unfold wsect. wp_step. rewrite sector_id by lia. rewrite Nat2Z.id. cbn [m_img set_m_img].
    rewrite length_replicate, Nat.ltb_irrefl, Nat.sub_diag. cbn [replicate app]. wp_step.
    unfold set_m_img. cbn. f_equal. change [zeroes] with (replicate 1 zeroes). by rewrite <-replicate_add, Nat.add_1_r.
  - intros [] st' ->. exact HQ.
  - destruct st. cbn in *. by subst.
Qed.

(** The finished image: the files [cs] in [fs], the directory in [f0] with
    its size rounded up, and the free map. *)
Definition root_size (names : list (list Z)) : Z := (Z.of_nat (length (root_data names)) / BSIZE + 1) * BSIZE.
Record finished img names cs f0 fs : Prop := {
  fi_super : blk img 1 = sb_bytes the_sb;
  fi_root : is_gfile T_DIR f0 (root_data names);
  fi_files : Forall2 (is_gfile T_FILE) fs cs;
  fi_rep : forall i f, (f0 :: fs) !! i = Some f -> file_rep img (din_at img i) f;
  fi_size : get32 (din_at img 0) 8 = root_size names;
  fi_sizes : forall i f, fs !! i = Some f -> get32 (din_at img (S i)) 8 = Z.of_nat (length (g_data f));
  fi_own : forall i f b, (f0 :: fs) !! i = Some f -> b ∈ owned f -> nmeta <= b < nmeta + need (length (root_data names)) + needs cs;
  fi_first : head (g_bs f0) = Some nmeta;
  fi_map : blk img 2058 = bitmap_of (nmeta + need (length (root_data names)) + needs cs);
}.

Lemma wp_finish names cs f0 fs st Q : built st names cs f0 fs ->
  (forall st', finished (m_img st') names cs f0 fs -> Q tt st') ->
  wp (din ← rinode 1;
      let off := xint (get32 din 8) in
      let off := (off / BSIZE + 1) * BSIZE in
      winode 1 (put32 din 8 (xint off));;
      used ← gets m_freeblock;
      mkfs_balloc used) Q st.
Proof.
  intros [H Hroot Hfs Hn Hfb Hfst] HQ. pose proof H as [H1 H2 H3 H4 H5 H6 H7 H8 H9 H10 H11 H12 H13]. wp_step.
  apply (wp_rinode st (f0 :: fs) 0 f0); [exact H|done|]. cbn zeta. pose proof (H8 0%nat f0 eq_refl) as Hrep0. cbn [din_of] in Hrep0.
  rewrite (xint_id (get32 _ 8)) by apply get32_range. rewrite (H9 0%nat f0 eq_refl) by done. destruct Hroot as (Hty & Hd & He). rewrite Hd. fold (root_size names).
  cbn [length] in H7. pose proof (Forall2_length _ _ _ Hfs) as Hlf. unfold MAXINODES in H7.
  assert (0 <= root_size names < two32) as Hrs. { unfold root_size. rewrite length_root_data. change BSIZE with 512. unfold two32. zdiv. }
  rewrite xint_id by done. wp_step. apply (wp_winode_set _ 0); [done..|by rewrite length_put32; apply Hrep0|done|]. intros img1 [Hf1 Hl1 Hs1 Hdin1].
  assert (nmeta = 59) as Hnm by done. unfold DATAEND in *. wp_step. wp_step. unfold mkfs_balloc. cbn [m_freeblock set_m_img].
  rewrite (proj2 (Z.ltb_lt _ _)) by (change (BSIZE * 8) with 4096; lia). cbn [assert_]. wp_step. wp_step. wp_step. wp_step. cbn [m_sb set_m_img]. rewrite H3.
  change (sb_bmapstart the_sb) with 2058. apply wp_wsect; [done|lia|]. apply HQ. cbn [m_img set_m_img]. unfold full in Hf1. set (img' := <[_ := _]> img1).
  assert (forall n, 0 <= n -> blk img' n = if decide (n = 2058) then bitmap_of (m_freeblock st) else blk img1 n) as Himg.
  { intros n Hn'. unfold img'. rewrite blk_insert by lia. done. }
  assert (forall j, (j < 207)%nat -> din_at img' j = din_at img1 j) as Hdin'.
  { intros j Hj. unfold din_at. pose proof (IBLOCK_range (Z.of_nat j + 1) ltac:(unfold MAXINODES; lia)) as Hr. by rewrite Himg, decide_False by lia. }
  split; try done.
  - rewrite Himg, decide_False by lia. rewrite Hs1 by lia. done.
  - intros j f Hj. pose proof (lookup_lt_Some _ _ _ Hj) as Hlt. cbn in Hlt. rewrite Hdin' by lia. rewrite Hdin1 by (unfold MAXINODES; lia).
    eapply file_rep_frame; [|intros n Hn'; pose proof (H11 _ _ _ Hj Hn') as Hr; rewrite Himg, decide_False, Hs1 by lia; done].
    specialize (H8 j f Hj). cbn [din_of] in H8. case_decide; [subst; by apply file_rep_size|done].
  - rewrite Hdin' by lia. rewrite Hdin1 by done. rewrite decide_True by done. rewrite get32_put32_eq by (rewrite ?(fr_len _ _ _ Hrep0); lia). by apply u32_small.
  - intros j f Hj. pose proof (lookup_lt_Some _ _ _ Hj) as Hlt. rewrite Hdin' by lia. rewrite Hdin1 by (unfold MAXINODES; lia). by apply (H9 (S j)).
  - intros j f b Hj Hb. pose proof (H11 _ _ _ Hj Hb). lia.
  - rewrite Himg, decide_True by lia. by rewrite Hfb.
Qed.

Lemma wp_mkfs_main creat reads prog image args cs Q st : creat image = true -> Forall2 (given reads) args cs -> fits (target_name <$> args) cs ->
  (forall st' f0 fs, finished (m_img st') (target_name <$> args) cs f0 fs -> Q tt st') ->
  wp (mkfs_main creat reads (prog :: image :: args)) Q st.
Proof.
  intros Hc Hg Hfit HQ. unfold mkfs_main. cbn [length Nat.ltb Nat.leb nth drop]. rewrite Hc. cbn [negb]. wp_step. wp_step. wp_step.
  apply wp_zero_image; [done|]. wp_step. apply wp_wsect; [unfold full; apply length_replicate|lia|].
  change (set_m_img _ _) with (mk_mkfs img0 the_sb 1 nmeta). wp_step.
  eapply wp_ialloc; [apply img0_rep|done|by left|]. intros st1 H1 Hfb1. cbn [length] in *.
  change (Z.of_nat 0 + 1) with 1. change (assert_ (1 =? ROOTINO)) with (mret tt : MK unit). change (xshort 1) with 1. rewrite drop_0. cbn [app] in H1. wp_step. wp_step. wp_step.
  eapply (wp_iappend _ _ 0); [exact H1|done|apply exact_new|rewrite mk_dirent_len; cbn [length g_data new_file]; change (Z.to_nat DIRENTSIZE) with 16%nat; lia| |].
  { rewrite mk_dirent_len, Hfb1. by vm_compute. }
  intros st2 f2 H2 He2 Hty2 Hd2 Hfb2. cbn [insert list_insert g_data g_type new_file app] in *. wp_step.
  eapply (wp_iappend _ _ 0); [exact H2|done|done|rewrite Hd2, !mk_dirent_len; change (Z.to_nat DIRENTSIZE) with 16%nat; lia| |].
  { rewrite Hd2, !mk_dirent_len, Hfb2, mk_dirent_len, Hfb1. by vm_compute. }
  intros st3 f3 H3 He3 Hty3 Hd3 Hfb3. cbn [insert list_insert] in H3. wp_step.
  assert (built st3 [] [] f3 []) as Hb.
  { split; try done.
    - split_and!; [by rewrite (proj1 Hty3), (proj1 Hty2)|by rewrite Hd3, Hd2|done].
    - by rewrite Hfb3, Hd2, !mk_dirent_len, Hfb2, mk_dirent_len, Hfb1.
    - eapply head_prefix; [apply Hty3|]. destruct (g_bs f2) as [|b bs] eqn:Eb.
      { destruct He2 as [He2 _]. by rewrite Eb, Hd2, mk_dirent_len in He2. }
      cbn. f_equal. pose proof (ir_own _ _ _ H2 0%nat f2 b eq_refl ltac:(unfold owned; rewrite Eb; apply elem_of_app; right; by left)) as Hr.
      rewrite Hfb2, mk_dirent_len, Hfb1 in Hr. change (need _ - need _) with 1 in Hr. cbn [m_freeblock] in Hr. lia. }
  eapply (wp_add_files reads args cs [] []); [exact Hb|done|done|]. intros st4 f4 fs4 Hb4. eapply wp_finish; [exact Hb4|]. intros st5 Hfin. by eapply HQ.
Qed.
