(* ===== verification/MkfsImage.v ===== *)
(** * What the file system image holds

    The image that [mkfs.c] builds, read the way the kernel reads its disk
    ([FsData], [FsDir], [FsPath]): every file is found under its name with
    its contents; and all of it lies in the blocks that the kernel swaps
    to ([initswap] of [proc.c] in Swap.v). *)

From Stdlib Require Import ZArith Lia.
From stdpp Require Import base strings numbers gmap list.
From S2P Require Import Prelude Mmu Memory Kernel Sample Swap Sleeplock Bio Block Layout Log Fs FsBlock FsData FsDir FsPath Mkfs.

(** ** The image as the kernel reads it *)

Section read.
Context (img : list (list Z)) (i : nat) (f : gfile).
Context (Hrep : file_rep img (din_at img i) f) (Hpos : forall b, b ∈ owned f -> b <> 0).
Let V := blk img.
Let x := on_disk the_sb V (Z.of_nat i + 1).

Lemma dinode_off_range k : 0 <= dinode_off k <= 448.
Proof. unfold dinode_off. change IPB with 8. change DINODESIZE with 64. zdiv. Qed.

Lemma read_type : 0 <= g_type f < 0x8000 -> i_type x = g_type f.
Proof.
  intros Ht. unfold x, on_disk, decode_dinode. cbn [i_type]. pose proof (dinode_off_range (Z.of_nat i + 1)).
  rewrite <-(fr_type _ _ _ Hrep) in *. unfold din_at in *. rewrite get16_slice, Z.add_0_r in * by (change DINODESIZE with 64; lia).
  unfold s16. fold V in Ht |- *. by rewrite (proj2 (Z.ltb_lt _ _)) by lia.
Qed.
Lemma read_nlink : i_nlink x = 1.
Proof.
  unfold x, on_disk, decode_dinode. cbn [i_nlink]. pose proof (dinode_off_range (Z.of_nat i + 1)). pose proof (fr_nlink _ _ _ Hrep) as E.
  unfold din_at in E. rewrite get16_slice in E by (change DINODESIZE with 64; lia). fold V in E. by rewrite E.
Qed.
Lemma read_size : i_size x = get32 (din_at img i) 8.
Proof.
  unfold x, on_disk, decode_dinode. cbn [i_size]. pose proof (dinode_off_range (Z.of_nat i + 1)). unfold din_at.
  by rewrite get32_slice by (change DINODESIZE with 64; lia).
Qed.
Lemma read_addr k : 0 <= k <= NDIRECT -> addr_of x k = get32 (din_at img i) (din_addr k).
Proof.
  intros Hk. unfold addr_of, zlookup. rewrite (proj2 (Z.ltb_ge _ _)) by lia. unfold x, on_disk, decode_dinode. cbn [i_addrs]. unfold decode_addrs.
  rewrite list_lookup_fmap, lookup_seqZ_lt by lia. cbn [fmap option_fmap option_map default]. pose proof (dinode_off_range (Z.of_nat i + 1)).
  unfold din_at, din_addr, NDIRECT in *. rewrite get32_slice by (change DINODESIZE with 64; lia). unfold id. f_equal. lia.
Qed.

Lemma read_fblock k : 0 <= k < MAXFILE -> fblock x V k = nth (Z.to_nat k) (g_bs f) 0.
Proof.
  intros Hk. unfold fblock. destruct (Z.ltb_spec k NDIRECT).
  - rewrite read_addr by lia. apply (fr_direct _ _ _ Hrep); lia.
  - rewrite read_addr by (unfold NDIRECT in *; lia). rewrite (fr_ind _ _ _ Hrep). apply (fr_indirect _ _ _ Hrep); lia.
Qed.

Lemma read_byte o : (o < 512 * 140)%nat -> fbyte x V (Z.of_nat o) = nth o (g_data f) 0.
Proof.
  intros Ho. unfold fbyte, fdata. change BSIZE with (Z.of_nat 512). rewrite <-Nat2Z.inj_mod, <-Nat2Z.inj_div, Nat2Z.id.
  assert (o / 512 < 140)%nat as Hq by (apply Nat.Div0.div_lt_upper_bound; lia).
  rewrite read_fblock by (change MAXFILE with 140; lia). rewrite Nat2Z.id. destruct (decide (o < 512 * length (g_bs f))%nat) as [Hlt|Hge].
  - assert (o / 512 < length (g_bs f))%nat as Hq' by (by apply Nat.Div0.div_lt_upper_bound).
    rewrite (proj2 (Z.eqb_neq _ _)) by (by apply Hpos, owned_bs). by apply (fr_data _ _ _ Hrep).
  - assert (length (g_bs f) <= o / 512)%nat as Hq' by (apply Nat.div_le_lower_bound; lia).
    rewrite (nth_overflow (g_bs f)) by done. rewrite Z.eqb_refl. change (replicate _ 0) with zeroes. rewrite nth_zeroes.
    symmetry. apply nth_overflow. pose proof (fr_size _ _ _ Hrep). lia.
Qed.

Lemma read_range o n : (o + n <= 512 * 140)%nat -> frange x V (Z.of_nat o) (Z.of_nat n) = (fun k => nth (o + k) (g_data f) 0) <$> seq 0 n.
Proof.
  intros Hn. unfold frange. apply list_eq. intros j. rewrite !list_lookup_fmap. destruct (decide (j < n)%nat) as [Hj|Hj].
  - rewrite lookup_seqZ_lt, lookup_seq_lt by lia. cbn [fmap option_fmap option_map]. f_equal. rewrite <-read_byte by lia. f_equal. lia.
  - rewrite lookup_seqZ_ge, lookup_seq_ge by lia. done.
Qed.

Lemma read_all : frange x V 0 (Z.of_nat (length (g_data f))) = g_data f.
Proof.
  pose proof (fr_size _ _ _ Hrep). pose proof (fr_max _ _ _ Hrep). rewrite (read_range 0) by lia. cbn [Nat.add]. apply list_eq. intros j. rewrite list_lookup_fmap.
  destruct (decide (j < length (g_data f))%nat) as [Hj|Hj].
  - rewrite lookup_seq_lt by done. cbn [fmap option_fmap option_map]. destruct (lookup_lt_is_Some_2 _ _ Hj) as [y Hy]. rewrite Hy. by rewrite (nth_lookup_Some _ _ _ _ Hy).
  - rewrite lookup_seq_ge by lia. by rewrite lookup_ge_None_2 by lia.
Qed.
End read.

Lemma length_bitmap_of u : length (bitmap_of u) = 512%nat.
Proof.
  unfold bitmap_of. assert (forall l buf, length (foldl (fun buf i => mark_used i buf) buf l) = length buf) as H.
  { induction l as [|k l IH]; intros buf; [done|]. cbn. by rewrite IH, length_mark_used. }
  rewrite H. apply length_replicate.
Qed.

Lemma bitmap_of_succ u : 0 <= u -> bitmap_of (u + 1) = mark_used u (bitmap_of u).
Proof.
  intros Hu. unfold bitmap_of. rewrite seqZ_split by lia. rewrite foldl_app. change (seqZ 0 1) with [0]. cbn [fmap list_fmap foldl]. by rewrite Z.add_0_r.
Qed.

Lemma bit_set_bitmap u b : 0 <= u <= 4096 -> 0 <= b < 4096 -> bit_set (bitmap_of u) b = bool_decide (b < u).
Proof.
  intros Hu Hb. assert (0 <= u) as Hu0 by lia. revert Hu. pattern u. apply natlike_ind; [| |exact Hu0].
  - intros _. change (bitmap_of 0) with zeroes. rewrite bool_decide_false by lia. unfold bit_set, byte_at. by rewrite nth_zeroes.
  - clear u Hu0. intros u Hu IH Hu'. change (Z.succ u) with (u + 1) in *. rewrite bitmap_of_succ by lia.
    rewrite bit_set_mark_used; [|lia|rewrite length_bitmap_of; zdiv|lia]. rewrite IH by lia.
    repeat case_bool_decide; try lia; done.
Qed.

(** The names can be told apart: they differ in their first 14 bytes, from
    each other and from the two entries that every directory has. *)
Record distinct (names : list (list Z)) : Prop := {
  dn_ne : forall i name, names !! i = Some name -> name <> [];
  dn_dots : forall i name, names !! i = Some name -> ~ same_name name [46] /\ ~ same_name name [46; 46];
  dn_inj : forall i j a b, names !! i = Some a -> names !! j = Some b -> same_name a b -> i = j;
}.

Lemma split_path_single name : SLASH ∉ name -> split_path name = [name].
Proof.
  induction name as [|c name IH]; [done|]. rewrite not_elem_of_cons. intros [Hc Hn]. cbn [split_path].
  rewrite (proj2 (Z.eqb_neq _ _)) by done. by rewrite IH.
Qed.
Lemma path_elems_single name : SLASH ∉ name -> name <> [] -> path_elems (SLASH :: name) = [take (Z.to_nat DIRSIZ) name].
Proof.
  intros Hs Hne. rewrite path_elems_slash. unfold path_elems. rewrite split_path_single by done. cbn [filter list_filter].
  by rewrite decide_True.
Qed.
Lemma cut_take n l : cut n (take n l) = cut n l.
Proof. revert l. induction n as [|n IH]; intros l; [done|]. destruct l as [|a l]; [done|]. cbn [take cut hd tail]. by rewrite IH. Qed.

Lemma target_no_slash arg : SLASH ∉ arg -> SLASH ∉ target_name arg.
Proof. unfold target_name. destruct arg as [|c arg]; [done|]. rewrite not_elem_of_cons. intros [? ?]. case_if; [done|]. by apply not_elem_of_cons. Qed.

Lemma root_ents_len names j de : root_ents names !! j = Some de -> length de = 16%nat.
Proof.
  intros Hj. eapply (Forall_lookup_1 (fun de => length de = 16%nat)); [|exact Hj]. unfold root_ents.
  do 2 (apply Forall_cons; split; [apply mk_dirent_len|]). apply Forall_lookup_2. intros q d. rewrite list_lookup_imap.
  destruct (names !! q); [|done]. intros [= <-]. apply mk_dirent_len.
Qed.

(** Byte [16 j + k] of the directory is byte [k] of entry [j]. *)
Lemma concat_nth (L : list (list Z)) j k de : (forall i d, L !! i = Some d -> length d = 16%nat) -> L !! j = Some de -> (k < 16)%nat ->
  nth (16 * j + k) (concat L) 0 = nth k de 0.
Proof.
  revert j. induction L as [|d L IH]; intros j Hl Hj Hk; [done|]. pose proof (Hl 0%nat d eq_refl) as Hd. cbn [concat]. destruct j as [|j].
  - cbn in Hj. simplify_eq. rewrite app_nth1 by lia. f_equal.
  - rewrite app_nth2 by lia. rewrite Hd. replace (16 * S j + k - 16)%nat with (16 * j + k)%nat by lia. apply IH; [|done|done].
    intros i d' Hi. by apply (Hl (S i)).
Qed.

Lemma map_nth_id (de : list Z) n : length de = n -> (fun k => nth k de 0) <$> seq 0 n = de.
Proof.
  intros <-. apply list_eq. intros j. rewrite list_lookup_fmap. destruct (decide (j < length de)%nat) as [Hj|Hj].
  - rewrite lookup_seq_lt by done. cbn [fmap option_fmap option_map]. destruct (lookup_lt_is_Some_2 _ _ Hj) as [y Hy]. by rewrite Hy, (nth_lookup_Some _ _ _ _ Hy).
  - rewrite lookup_seq_ge by lia. by rewrite lookup_ge_None_2 by lia.
Qed.

Section final.
Context (img : list (list Z)) (names cs : list (list Z)) (f0 : gfile) (fs : list gfile).
Context (Hfin : finished img names cs f0 fs) (Hfit : fits names cs) (Hlen : length names = length cs).
Let V := blk img.

Lemma fin_pos i f b : (f0 :: fs) !! i = Some f -> b ∈ owned f -> b <> 0.
Proof. intros Hi Hb. pose proof (fi_own _ _ _ _ _ Hfin _ _ _ Hi Hb) as Hr. change nmeta with 59 in Hr. lia. Qed.

Lemma names_bound : (length names < 207)%nat.
Proof. pose proof (ft_inodes _ _ Hfit) as H. unfold MAXINODES in H. lia. Qed.

(** The entries of the root, and unused ones behind them. *)
Lemma fin_ents : exists k, dir_ents (on_disk the_sb V ROOTINO) V = root_ents names ++ replicate k (replicate 16 0).
Proof.
  pose proof (fi_rep _ _ _ _ _ Hfin 0%nat f0 eq_refl) as Hrep. pose proof (fin_pos 0 f0) as Hpos. destruct (fi_root _ _ _ _ _ Hfin) as (_ & Hd & _).
  pose proof names_bound as Hb. pose proof (length_root_data names) as Hl. unfold dir_ents. change ROOTINO with (Z.of_nat 0 + 1).
  unfold V. rewrite read_size, (fi_size _ _ _ _ _ Hfin). unfold root_size. rewrite Hl. change BSIZE with 512. change DIRENTSIZE with 16.
  set (sz := (Z.of_nat (16 * (length names + 2)) / 512 + 1) * 512). assert (length (root_ents names) = length names + 2)%nat as Hle.
  { unfold root_ents. cbn. rewrite length_imap. lia. }
  assert (sz mod 16 = 0 /\ 16 * (Z.of_nat (length names) + 2) <= sz <= 4096) as [Hs1 Hs2] by (unfold sz; zdiv).
  exists (Z.to_nat (sz / 16) - (length names + 2))%nat. apply list_eq. intros j. rewrite list_lookup_fmap.
  destruct (decide (j < Z.to_nat (sz / 16))%nat) as [Hj|Hj].
  - rewrite lookup_seqZ_lt by lia. cbn [fmap option_fmap option_map]. unfold entry. change DIRENTSIZE with (Z.of_nat 16).
    replace ((0 + Z.of_nat j) * Z.of_nat 16) with (Z.of_nat (16 * j)) by lia.
    rewrite (read_range img 0 f0 Hrep) by (try (intros; by eapply Hpos); zdiv). rewrite Hd. unfold root_data.
    destruct (root_ents names !! j) as [de|] eqn:Ej.
    + rewrite lookup_app_l by (by eapply lookup_lt_Some). rewrite Ej. f_equal. rewrite <-(map_nth_id de 16) by (by eapply root_ents_len).
      apply list_fmap_ext. intros q k [-> Hk]%lookup_seq. cbn [Nat.add]. apply concat_nth; [apply root_ents_len|done|lia].
    + apply lookup_ge_None in Ej. rewrite lookup_app_r by done. rewrite lookup_replicate_2 by lia. f_equal.
      apply list_eq. intros q. rewrite list_lookup_fmap. destruct (decide (q < 16)%nat) as [Hq|Hq].
      * rewrite lookup_seq_lt by done. rewrite lookup_replicate_2 by done. cbn [fmap option_fmap option_map]. f_equal.
        apply nth_overflow. change (concat (root_ents names)) with (root_data names). lia.
      * rewrite lookup_seq_ge by lia. symmetry. apply lookup_replicate_None. lia.
  - rewrite lookup_seqZ_ge by lia. symmetry. apply lookup_ge_None. rewrite length_app, length_replicate, Hle. zdiv.
Qed.

(** The name of file [i] leads to its inode. *)
Lemma fin_lookup i name : distinct names -> names !! i = Some name -> dir_inum (on_disk the_sb V ROOTINO) V (take (Z.to_nat DIRSIZ) name) = Some (Z.of_nat i + 2).
Proof.
  intros [_ Hdots Hinj] Hi. destruct fin_ents as [k Hk]. unfold dir_inum. rewrite Hk. pose proof names_bound as Hb. pose proof (lookup_lt_Some _ _ _ Hi) as Hlt.
  rewrite (ents_inum_same _ _ name) by apply cut_take. unfold ents_inum.
  assert (forall j n, names !! j = Some n -> root_ents names !! S (S j) = Some (mk_dirent n (Z.of_nat j + 2))) as Hent.
  { intros j n Hj. change (root_ents names !! S (S j)) with (imap (fun k name => mk_dirent name (Z.of_nat k + 2)) names !! j). by rewrite list_lookup_imap, Hj. }
  assert (list_find (ent_is name) (root_ents names ++ replicate k (replicate 16 0)) = Some (S (S i), mk_dirent name (Z.of_nat i + 2))) as ->;
    [|by apply (f_equal Some), mk_dirent_inum; lia].
  apply list_find_Some. split_and!; [by apply lookup_app_l_Some, Hent|by apply mk_dirent_is; [lia|]|].
  intros j de Hj Hji. rewrite lookup_app_l in Hj by (unfold root_ents; cbn; rewrite length_imap; lia). destruct j as [|[|j]].
  - apply (inj Some) in Hj as <-. rewrite mk_dirent_is by lia. by eapply Hdots.
  - apply (inj Some) in Hj as <-. rewrite mk_dirent_is by lia. by eapply Hdots.
  - destruct (lookup_lt_is_Some_2 names j ltac:(lia)) as [n Hn]. rewrite (Hent _ _ Hn) in Hj. apply (inj Some) in Hj as <-.
    rewrite mk_dirent_is by lia. intros Hs. pose proof (Hinj _ _ _ _ Hi Hn Hs). lia.
Qed.

(** The inode of file [i] has its contents. *)
Lemma fin_file i c : cs !! i = Some c -> let x := on_disk the_sb V (Z.of_nat i + 2) in
  i_type x = T_FILE /\ i_nlink x = 1 /\ i_size x = Z.of_nat (length c) /\ frange x V 0 (i_size x) = c.
Proof.
  intros Hi. destruct (Forall2_lookup_r _ _ _ _ _ (fi_files _ _ _ _ _ Hfin) Hi) as (f & Hf & Hty & Hd & _).
  pose proof (fi_rep _ _ _ _ _ Hfin (S i) f Hf) as Hrep. pose proof (fun b => fin_pos (S i) f b Hf) as Hpos.
  replace (Z.of_nat i + 2) with (Z.of_nat (S i) + 1) by lia. cbn zeta. unfold V. rewrite (read_type img (S i) f) by (done || rewrite Hty; done).
  rewrite (read_nlink img (S i) f) by done. rewrite read_size, (fi_sizes _ _ _ _ _ Hfin i f Hf), Hd. split_and!; [done..|].
  rewrite <-Hd at 1. rewrite (read_all img (S i) f) by done. done.
Qed.

Lemma fin_root : i_type (on_disk the_sb V ROOTINO) = T_DIR.
Proof.
  destruct (fi_root _ _ _ _ _ Hfin) as (Hty & _). change ROOTINO with (Z.of_nat 0 + 1). unfold V.
  rewrite (read_type img 0 f0); [done|by apply (fi_rep _ _ _ _ _ Hfin)|by rewrite Hty].
Qed.

(** Where the blocks of files are. *)
Lemma fin_blocks i k : (i <= length cs)%nat -> 0 <= k < MAXFILE -> let a := fblock (on_disk the_sb V (Z.of_nat i + 1)) V k in
  a <> 0 -> nmeta <= a < nmeta + need (length (root_data names)) + needs cs.
Proof.
  intros Hi Hk. pose proof (Forall2_length _ _ _ (fi_files _ _ _ _ _ Hfin)) as Hlf.
  destruct (lookup_lt_is_Some_2 (f0 :: fs) i ltac:(cbn; lia)) as [f Hf]. cbn zeta. unfold V.
  rewrite (read_fblock img i f) by (done || by apply (fi_rep _ _ _ _ _ Hfin)). intros Hne. eapply (fi_own _ _ _ _ _ Hfin); [exact Hf|].
  apply owned_bs. destruct (decide (Z.to_nat k < length (g_bs f))%nat); [done|]. rewrite nth_overflow in Hne by lia. done.
Qed.

Lemma fin_root_block : fblock (on_disk the_sb V ROOTINO) V 0 = nmeta.
Proof.
  change ROOTINO with (Z.of_nat 0 + 1). unfold V.
  rewrite (read_fblock img 0 f0) by (done || by apply (fi_rep _ _ _ _ _ Hfin)). pose proof (fi_first _ _ _ _ _ Hfin) as Hf.
  destruct (g_bs f0) as [|b bs]; [done|]. injection Hf as ->. reflexivity.
Qed.

(** The free map: one run of blocks in use. *)
Lemma fin_used b : 0 <= b < 3000 -> used the_sb V b = bool_decide (b < nmeta + need (length (root_data names)) + needs cs).
Proof.
  intros Hb. unfold used. assert (BBLOCK b the_sb = 2058) as ->.
  { unfold BBLOCK. change (sb_bmapstart the_sb) with 2058. change BPB with 4096. replace (b / 4096) with 0 by zdiv. done. }
  unfold V. rewrite (fi_map _ _ _ _ _ Hfin). pose proof (ft_blocks _ _ Hfit) as Hle. unfold DATAEND in Hle. change nmeta with 59 in *.
  pose proof (need_nonneg (length (root_data names))). pose proof (needs_nonneg cs).
  replace (b mod BPB) with b by (change BPB with 4096; zdiv). apply bit_set_bitmap; lia.
Qed.
End final.

(** ** What the image is good for *)

(** C17: [mkfs] builds the file system that the kernel reads.  For every list
    of files that fits, however the host's [read] cuts them into pieces,
    [main] ends without an error; block 1 holds the super block; and the
    path [/name] of every file leads, by the kernel's directory lookup, to
    an inode of an ordinary file with one link, the size of the file and
    its contents. *)
Theorem mkfs_image_correct creat reads prog image args cs st : creat image = true -> Forall2 (given reads) args cs ->
  fits (target_name <$> args) cs -> distinct (target_name <$> args) ->
  wp (mkfs_main creat reads (prog :: image :: args)) (fun _ st' => let V := blk (m_img st') in
    decode_sb (V 1) = the_sb /\
    forall i arg c, args !! i = Some arg -> cs !! i = Some c ->
      exists n, resolve the_sb V ROOTINO (path_elems (SLASH :: target_name arg)) = Some n /\
        let x := on_disk the_sb V n in
        i_type x = T_FILE /\ i_nlink x = 1 /\ i_size x = Z.of_nat (length c) /\ frange x V 0 (i_size x) = c) st.
Proof.
  intros Hc Hg Hfit Hdn. pose proof (Forall2_length _ _ _ Hg) as Hlen. eapply wp_mkfs_main; [done..|]. intros st' f0 fs Hfin. cbn zeta. split.
  - rewrite (fi_super _ _ _ _ _ Hfin). by vm_compute.
  - intros i arg c Hi Hci. exists (Z.of_nat i + 2). assert ((target_name <$> args) !! i = Some (target_name arg)) as Hni by (by rewrite list_lookup_fmap, Hi).
    destruct (Forall2_lookup_lr _ _ _ _ _ _ Hg Hi Hci) as [Hsl _]. assert (length (target_name <$> args) = length cs) as Hl by (by rewrite length_fmap).
    split; [|by eapply fin_file]. rewrite path_elems_single by (by apply target_no_slash || by eapply (dn_ne _ Hdn)). cbn [resolve].
    rewrite (fin_root _ _ _ _ _ Hfin). change (T_DIR =? T_DIR) with true. cbv iota. by rewrite (fin_lookup _ _ _ _ _ Hfin Hfit Hl _ _ Hdn Hni).
Qed.

(** The slots that the kernel makes of the swap area. *)
Lemma wp_initswap ks : length (k_swap ks) = 250%nat ->
  wp initswap (fun _ ks' => forall j, 0 <= j < 250 ->
    exists w, zlookup (k_swap ks') j = Some w /\ is_free w = 1 /\ sw_cnt w = 0 /\ sw_start w = 2 + 8 * j) ks.
Proof.
  intros Hl. unfold initswap. change (SWAPBLOCKS / 8) with 250. wp_step.
  apply (wp_for_seqZ _ _ (fun t _ ks' => length (k_swap ks') = 250%nat /\ forall j, 0 <= j < Z.of_nat t ->
    exists w, zlookup (k_swap ks') j = Some w /\ is_free w = 1 /\ sw_cnt w = 0 /\ sw_start w = 2 + 8 * j)).
  - lia.
  - intros t [] s Ht [Hlen Hdone]. destruct (lookup_lt_is_Some_2 (k_swap s) t) as [w Hw]; [lia|].
    assert (zlookup (k_swap s) (Z.of_nat t) = Some w) as Hz by (unfold zlookup; rewrite (proj2 (Z.ltb_ge _ _)), Nat2Z.id by lia; done).
    wp_step. eapply wp_get_swap; [exact Hz|]. wp_step. unfold put_swap. wp_step. wp_step. ksimpl. rewrite length_zinsert. split; [done|].
    intros j Hj. rewrite zlookup_zinsert by lia. case_decide as E; [|apply Hdone; lia]. subst j. eexists. split; [done|]. ksimpl.
    split; [done|]. split; [done|]. change (Swap.xint 2) with 2. apply u32_small. unfold two32. lia.
  - intros [] s [_ H]. wp_step. intros j Hj. apply H. lia.
  - split; [done|]. lia.
Qed.

(** C38: The image's files lie in the swap area.  [mkfs] counts the blocks of
    files from [nmeta], block 59, as if there were no swap area, while the
    super block gives blocks 2 to 2001 to swapping.  For every list of files
    whose blocks end below the inodes, the root directory begins in block 59,
    and the blocks of all files follow it without regard to the areas: each
    lies in the swap area or, for images of more than 1943 blocks, in the log
    behind it.  The free map marks exactly the blocks below the last file
    block as used, so the inodes and the map itself are free in it.  At boot
    [initswap] makes every block of the swap area part of a free swap slot,
    those of the files too. *)
Theorem mkfs_files_in_swap creat reads prog image args cs st ks : creat image = true -> Forall2 (given reads) args cs ->
  fits (target_name <$> args) cs -> length (k_swap ks) = 250%nat ->
  let last := nmeta + need (length (root_data (target_name <$> args))) + needs cs in
  wp (mkfs_main creat reads (prog :: image :: args)) (fun _ st' => let V := blk (m_img st') in
    let swap b := sb_swapblockstart the_sb <= b < sb_swapblockstart the_sb + sb_nswapblocks the_sb in
    let log b := sb_logstart the_sb <= b < sb_logstart the_sb + sb_nlog the_sb in
    let block n k := fblock (on_disk the_sb V n) V k in
    block ROOTINO 0 = nmeta /\ swap nmeta /\
    (forall n k, 1 <= n <= Z.of_nat (length args) + 1 -> 0 <= k < MAXFILE -> block n k <> 0 ->
       nmeta <= block n k < last /\ (swap (block n k) \/ log (block n k))) /\
    (forall b, 0 <= b < sb_size the_sb -> used the_sb V b = bool_decide (b < last)) /\
    last <= sb_inodestart the_sb /\
    wp initswap (fun _ ks' => forall n k, 1 <= n <= Z.of_nat (length args) + 1 -> 0 <= k < MAXFILE -> block n k <> 0 -> swap (block n k) ->
      exists j w, zlookup (k_swap ks') j = Some w /\ is_free w = 1 /\ sw_start w <= block n k < sw_start w + 8) ks) st.
Proof.
  intros Hc Hg Hfit Hks last. pose proof (Forall2_length _ _ _ Hg) as Hlen. eapply wp_mkfs_main; [done..|]. intros st' f0 fs Hfin. cbn zeta.
  assert (length (target_name <$> args) = length cs) as Hl by (by rewrite length_fmap).
  change (sb_swapblockstart the_sb) with 2. change (sb_nswapblocks the_sb) with 2000. change (sb_logstart the_sb) with 2002. change (sb_size the_sb) with 3000.
  change (sb_nlog the_sb) with 30. change (sb_inodestart the_sb) with 2032. pose proof (ft_blocks _ _ Hfit) as Hle. fold last in Hle. unfold DATAEND in Hle. split_and!.
  - by eapply fin_root_block.
  - by vm_compute.
  - by vm_compute.
  - intros n k Hn Hk Hne. pose proof (fin_blocks _ _ _ _ _ Hfin Hl (Z.to_nat (n - 1)) k ltac:(lia) Hk) as Hr. cbn zeta in Hr.
    replace (Z.of_nat (Z.to_nat (n - 1)) + 1) with n in Hr by lia. specialize (Hr Hne). fold last in Hr. split; [done|]. change nmeta with 59 in Hr. lia.
  - intros b Hb. rewrite (fin_used _ _ _ _ _ Hfin Hfit) by lia. done.
  - lia.
  - eapply wp_mono; [by apply wp_initswap|]. intros [] ks' Hslots n k Hn Hk Hne Hsw.
    set (a := fblock _ _ _) in *. destruct (Hslots ((a - 2) / 8)) as (w & Hw & Hf & _ & Hst); [zdiv|]. exists ((a - 2) / 8), w. rewrite Hst. split_and!; try done; zdiv.
Qed.

(** ** Instances *)

(** A file [_hi] with three bytes, read in two pieces. *)
Definition reads0 (arg : list Z) : option (list (list Z)) := if decide (arg = [95; 104; 105]) then Some [[120; 121]; [122]] else None.

Lemma fits0 : fits (target_name <$> [[95; 104; 105]]) [[120; 121; 122]].
Proof. split; [done|apply Forall_cons; split; [cbn [length]; lia|by apply Forall_nil_2]|by vm_compute]. Qed.
Lemma given0 : Forall2 (given reads0) [[95; 104; 105]] [[120; 121; 122]].
Proof.
  constructor; [|constructor]. split; [|by exists [[120; 121]; [122]]]. rewrite !not_elem_of_cons. split_and!; try done. apply not_elem_of_nil.
Qed.
Lemma distinct0 : distinct (target_name <$> [[95; 104; 105]]).
Proof.
  split.
  - by intros [|i] name [= <-].
  - intros [|i] name [= <-]. split; by vm_compute.
  - intros [|i] [|j] a b [= <-] [= <-]; done.
Qed.

Lemma mkfs_image_correct_witness :
  wp (mkfs_main (fun _ => true) reads0 [[109]; [102]; [95; 104; 105]]) (fun _ st' => let V := blk (m_img st') in
    exists n, resolve the_sb V ROOTINO (path_elems [47; 104; 105]) = Some n /\
      frange (on_disk the_sb V n) V 0 (i_size (on_disk the_sb V n)) = [120; 121; 122]) (mk_mkfs [] the_sb 1 0).
Proof.
  eapply wp_mono.
  - apply (mkfs_image_correct (fun _ => true) reads0 [109] [102] [[95; 104; 105]] [[120; 121; 122]] (mk_mkfs [] the_sb 1 0));
      [reflexivity|exact given0|exact fits0|exact distinct0].
  - intros r st' [_ H]. destruct (H 0%nat _ _ eq_refl eq_refl) as (n & H1 & _ & _ & _ & H2). exists n. exact (conj H1 H2).
Defined.

Lemma mkfs_files_in_swap_witness :
  wp (mkfs_main (fun _ => true) reads0 [[109]; [102]; [95; 104; 105]]) (fun _ st' => let V := blk (m_img st') in
    fblock (on_disk the_sb V ROOTINO) V 0 = 59 /\ used the_sb V 2032 = false /\
    wp initswap (fun _ ks' => exists j w, zlookup (k_swap ks') j = Some w /\ is_free w = 1 /\ sw_start w <= 59 < sw_start w + 8) state0) (mk_mkfs [] the_sb 1 0).
Proof.
  eapply wp_mono.
  - apply (mkfs_files_in_swap (fun _ => true) reads0 [109] [102] [[95; 104; 105]] [[120; 121; 122]] (mk_mkfs [] the_sb 1 0) state0);
      [reflexivity|exact given0|exact fits0|reflexivity].
  - intros r st' (H1 & Hsw & H2 & H3 & H4 & H5). split; [exact H1|]. split.
    + rewrite H3; [vm_compute; reflexivity|vm_compute; split; [discriminate|reflexivity]].
    + eapply wp_mono; [exact H5|]. intros [] ks' H. change 59 with nmeta. rewrite <-H1.
      apply (H ROOTINO 0); [unfold ROOTINO; cbn; lia|change MAXFILE with 140; lia|rewrite H1; discriminate|rewrite H1; exact Hsw].
Defined.
