(* ===== verification/File.v ===== *)
(** * Open files

    [file.c]: the table of open files with their reference counts, and the
    operations that reach a pipe or an inode through a file.  [pipealloc] of
    [pipe.c], which makes the two files of a pipe, is here as well.  Bytes
    read and written are lists; a pipe operation that has to sleep ends in
    [Blocked], Pipe.v has its state then. *)

From Stdlib Require Import ZArith Lia.
From stdpp Require Import base strings numbers gmap list.
From S2P Require Import Prelude Mmu Memory Kernel Sample Sleeplock Bio Block Layout Log.
From S2P Require Import Kmem Rmap Swap Kalloc Sched Pipe Fs.

(** ** Operations *)

(** The file is found by its index; [None] is the null pointer. *)
Definition filealloc : K (option nat) :=
  acquire L_ftable;;
  r ← for_ (seq 0 (Z.to_nat NFILE)) (fun i (_ : unit) =>
        f ← get_file i;
        if f_ref f =? 0 then
          put_file i (set_f_ref 1 f);;
          release L_ftable;;
          mret (Return (Some i))
        else mret (Next tt)) tt;
  match r with
  | inr o => mret o
  | inl _ => release L_ftable;; mret None
  end.

Definition filedup (f : nat) : K nat :=
  acquire L_ftable;;
  x ← get_file f;
  if f_ref x <? 1 then panic "filedup"
  else
    put_file f (set_f_ref (f_ref x + 1) x);;
    release L_ftable;;
    mret f.

Definition filestat (f : nat) : K (option stat) :=
  x ← get_file f;
  if bool_decide (f_type x = FD_INODE) then
    ilock (f_ip x);;
    st ← stati (f_ip x);
    iunlock (f_ip x);;
    mret (Some st)
  else mret None.

(** The result of a pipe operation as that of the call. *)
Definition finished {A} (o : outcome A) : K A :=
  match o with Done a => mret a | Asleep => fail Blocked end.

Section file.
Context {I : KernelImage} {DV : Devsw}.

Definition fileclose (f : nat) : K unit :=
  acquire L_ftable;;
  x ← get_file f;
  if f_ref x <? 1 then panic "fileclose"
  else
    upd_file f (set_f_ref (f_ref x - 1));;
    if 0 <? f_ref x - 1 then release L_ftable
    else
      ff ← get_file f;
      upd_file f (set_f_ref 0);;
      upd_file f (set_f_type FD_NONE);;
      release L_ftable;;
      match f_type ff with
      | FD_PIPE => pipeclose (f_pipe ff) (f_writable ff)
      | FD_INODE =>
          begin_op;;
          iput (f_ip ff);;
          end_op
      | FD_NONE => mret tt
      end.

Definition fileread (f : nat) (n : Z) : K (Z * list Z) :=
  x ← get_file f;
  if f_readable x =? 0 then mret (-1, [])
  else
    match f_type x with
    | FD_PIPE => o ← piperead (f_pipe x) n; finished o
    | FD_INODE =>
        ilock (f_ip x);;
        '(r, l) ← readi (f_ip x) (f_off x) n;
        when (0 <? r) (upd_file f (fun x => set_f_off (u32 (f_off x + r)) x));;
        iunlock (f_ip x);;
        mret (r, l)
    | FD_NONE => panic "fileread"
    end.

(** The most bytes that one transaction of [filewrite] writes. *)
Definition write_max : Z := ((MAXOPBLOCKS - 1 - 1 - 2) / 2) * 512.

(** Every iteration writes at least one byte. *)
Definition filewrite (f : nat) (addr : list Z) : K Z :=
  let n := Z.of_nat (length addr) in
  x ← get_file f;
  if f_writable x =? 0 then mret (-1)
  else
    match f_type x with
    | FD_PIPE => '(o, _) ← pipewrite (f_pipe x) addr; finished o
    | FD_INODE =>
        i ← while_ (S (length addr)) (fun i =>
              if i <? n then
                let n1 := if write_max <? n - i then write_max else n - i in
                begin_op;;
                ilock (f_ip x);;
                y ← get_file f;
                r ← writei (f_ip x) (take (Z.to_nat n1) (drop (Z.to_nat i) addr)) (f_off y);
                when (0 <? r) (upd_file f (fun x => set_f_off (u32 (f_off x + r)) x));;
                iunlock (f_ip x);;
                end_op;;
                if r <? 0 then mret (inr i)
                else if negb (r =? n1) then panic "short filewrite"
                else mret (inl (i + r))
              else mret (inr i)) 0;
        mret (if i =? n then n else -1)
    | FD_NONE => panic "filewrite"
    end.

(** Offset of [data] in [struct pipe], after its spin lock. *)
Definition PIPEDATA : Z := 52.
(** The pipe made in the page [p]: its bytes are what the page holds. *)
Definition new_pipe (m : mem) (p : Z) : pipe :=
  mk_pipe ((fun i => ldb m (p + PIPEDATA + i)) <$> seqZ 0 PIPESIZE) 0 0 1 1.
Definition pipe_file (p readable writable : Z) (f : file) : file :=
  set_f_pipe p (set_f_writable writable (set_f_readable readable (set_f_type FD_PIPE f))).

(** [None] is the result -1. *)
Definition pipealloc : K (option (nat * nat)) :=
  o0 ← filealloc;
  match o0 with
  | None => mret None
  | Some f0 =>
      o1 ← filealloc;
      match o1 with
      | None => fileclose f0;; mret None
      | Some f1 =>
          p ← kalloc;
          if p =? 0 then fileclose f0;; fileclose f1;; mret None
          else
            modify (fun s => set_k_pipe (<[p := new_pipe (k_mem s) p]> (k_pipe s)) s);;
            upd_file f0 (pipe_file p 1 0);;
            upd_file f1 (pipe_file p 0 1);;
            mret (Some (f0, f1))
      end
  end.
End file.

(** ** The table of files *)

(** [i] is the first unused entry. *)
Definition first_free (l : list file) (i : nat) : Prop :=
  (exists x, l !! i = Some x /\ f_ref x = 0) /\
  forall j x, (j < i)%nat -> l !! j = Some x -> f_ref x <> 0.

Lemma seq_split n i : (i < n)%nat -> seq 0 n = seq 0 i ++ i :: seq (S i) (n - S i).
Proof. intros. replace n with (i + S (n - S i))%nat at 1 by lia. by rewrite seq_app. Qed.

Lemma wp_filealloc i x Q s : length (k_file s) = Z.to_nat NFILE -> k_held s = [] ->
  first_free (k_file s) i -> k_file s !! i = Some x ->
  Q (Some i) (set_k_file (<[i := set_f_ref 1 x]> (k_file s)) s) -> wp filealloc Q s.
Proof.
  intros Hl Hh [(x' & Hx' & Hr) Hbefore] Hx HQ. assert (x' = x) as -> by congruence. unfold filealloc. wp_steps.
  apply wp_acquire; [rewrite Hh; set_solver|]. wp_steps.
  rewrite (seq_split _ i) by (rewrite <-Hl; by eapply lookup_lt_Some).
  apply wp_for_first.
  - intros j Hj Q' HQ'. apply elem_of_seq in Hj. wp_steps.
    destruct (lookup_lt_is_Some_2 (k_file s) j) as [y Hy].
    { apply lookup_lt_Some in Hx. lia. }
    eapply wp_get_file; [exact Hy|]. rewrite (proj2 (Z.eqb_neq _ _)); [by wp_steps|].
    eapply Hbefore; [|exact Hy]. lia.
  - wp_steps. eapply wp_get_file; [exact Hx|]. rewrite Hr. cbn. unfold put_file. wp_steps.
    eapply wp_release; [done|]. wp_steps. destruct s; ksimpl. by rewrite Hh in *.
Qed.

Lemma wp_filealloc_full Q s : length (k_file s) = Z.to_nat NFILE -> k_held s = [] ->
  Forall (fun x => f_ref x <> 0) (k_file s) -> Q None s -> wp filealloc Q s.
Proof.
  intros Hl Hh Hall HQ. unfold filealloc. wp_steps.
  apply wp_acquire; [rewrite Hh; set_solver|]. wp_steps. apply wp_for_none.
  - intros j Hj Q' HQ'. apply elem_of_seq in Hj. wp_steps.
    destruct (lookup_lt_is_Some_2 (k_file s) j) as [y Hy]; [lia|].
    eapply wp_get_file; [exact Hy|]. rewrite Forall_lookup in Hall.
    rewrite (proj2 (Z.eqb_neq _ _)); [by wp_steps|by eapply Hall].
  - wp_steps. eapply wp_release; [done|]. wp_steps. by destruct s.
Qed.

(** ** Closing the ends of a pipe *)

Section close.
Context {I : KernelImage} {Iok : KernelImageOk I}.

Definition close_end (writable : Z) (x : pipe) : pipe :=
  if writable =? 0 then set_pi_readopen 0 x else set_pi_writeopen 0 x.
Definition closed (x : pipe) : bool := (pi_readopen x =? 0) && (pi_writeopen x =? 0).

(** The state after an end is closed: the page is freed with the last one. *)
Definition pipeclose_state (p writable : Z) (x : pipe) (s : kstate) : kstate :=
  let ch := if writable =? 0 then ChPipeWrite p else ChPipeRead p in
  let s := set_k_proc (wake_proc ch <$> k_proc s) s in
  if closed (close_end writable x) then kfree_state p (set_k_pipe (delete p (k_pipe s)) s)
  else set_k_pipe (<[p := close_end writable x]> (k_pipe s)) s.

Lemma wp_pipeclose p w x Q s : k_pipe s !! p = Some x -> k_held s = [] -> page_ok p ->
  Q tt (pipeclose_state p w x s) -> wp (pipeclose p w) Q s.
Proof.
  intros Hx Hh Hp HQ. unfold pipeclose, pipeclose_state, close_end, closed in *. wp_steps.
  apply wp_acquire; [rewrite Hh; set_solver|]. wp_steps. rewrite Hh.
  destruct (w =? 0); cbn [negb];
    (wp_steps; eapply wp_upd_pipe; [exact Hx|];
     apply wp_wakeup; [ksimpl; set_solver|]; wp_steps;
     eapply wp_get_pipe; [ksimpl; apply lookup_insert_eq|]; ksimpl;
     destruct (_ && _); wp_steps;
     (eapply wp_release; [done|])).
  all: try (destruct s; ksimpl; by subst).
  all: wp_steps; apply wp_kfree; [done|intros ?; ksimpl; apply not_elem_of_nil|].
  all: ksimpl; rewrite delete_insert_eq; destruct s; ksimpl; by subst.
Qed.

(** Closing the last reference to a file that is an end of a pipe. *)
Lemma wp_fileclose_pipe f y x Q s : k_file s !! f = Some y -> f_ref y = 1 -> f_type y = FD_PIPE ->
  k_pipe s !! f_pipe y = Some x -> k_held s = [] -> page_ok (f_pipe y) ->
  Q tt (pipeclose_state (f_pipe y) (f_writable y) x
         (set_k_file (<[f := set_f_type FD_NONE (set_f_ref 0 y)]> (k_file s)) s)) ->
  wp (fileclose f) Q s.
Proof.
  intros Hf Hr Ht Hx Hh Hp HQ. assert (f < length (k_file s))%nat by by eapply lookup_lt_Some.
  unfold fileclose. wp_steps. apply wp_acquire; [rewrite Hh; set_solver|]. wp_steps. rewrite Hh.
  eapply wp_get_file; [exact Hf|]. rewrite Hr. change (1 <? 1) with false. cbv iota. wp_steps.
  eapply wp_upd_file; [exact Hf|]. change (0 <? 1 - 1) with false. cbv iota. wp_steps.
  eapply wp_get_file; [ksimpl; by apply list_lookup_insert_eq|]. wp_steps.
  eapply wp_upd_file; [ksimpl; by apply list_lookup_insert_eq|]. wp_steps. ksimpl. rewrite list_insert_insert_eq.
  eapply wp_upd_file; [ksimpl; by apply list_lookup_insert_eq|]. wp_steps. ksimpl. rewrite list_insert_insert_eq.
  eapply wp_release; [done|]. rewrite Ht. eapply wp_pipeclose; ksimpl; [exact Hx|done|done|].
  destruct s; ksimpl; by subst.
Qed.

Lemma free_ok_frame s s' l : k_mem s' = k_mem s -> k_freelist s' = k_freelist s ->
  k_nfree s' = k_nfree s -> free_ok s l -> free_ok s' l.
Proof. intros Hm Hf Hn [????]. split; try done; [by rewrite Hm, Hf|by rewrite Hn]. Qed.

(** Closing both ends, in either order, frees the page once. *)
Lemma wp_close_both g h yg yh v x l s : g <> h -> k_file s !! g = Some yg -> k_file s !! h = Some yh ->
  f_ref yg = 1 -> f_ref yh = 1 -> f_type yg = FD_PIPE -> f_type yh = FD_PIPE ->
  f_pipe yg = v -> f_pipe yh = v -> (f_writable yg =? 0) = negb (f_writable yh =? 0) ->
  k_pipe s !! v = Some x -> pi_readopen x = 1 -> pi_writeopen x = 1 ->
  k_held s = [] -> page_ok v -> v ∉ l -> free_ok s l ->
  wp (fileclose g;; fileclose h) (fun _ s' => k_held s' = [] /\ k_pipe s' = delete v (k_pipe s) /\
    free_ok s' (v :: l) /\
    k_file s' = <[h := set_f_type FD_NONE (set_f_ref 0 yh)]> (<[g := set_f_type FD_NONE (set_f_ref 0 yg)]> (k_file s))) s.
Proof.
  intros Hne Hg Hh Hrg Hrh Htg Hth Hpg Hph Hw Hx Hro Hwo Hheld Hv Hl Hf.
  wp_steps. eapply wp_fileclose_pipe; [exact Hg|done|done|by rewrite Hpg|done|by rewrite Hpg|].
  rewrite Hpg. unfold pipeclose_state, closed.
  replace (_ && _) with false; [|unfold close_end; case_if; ksimpl; by rewrite ?Hro, ?Hwo].
  eapply wp_fileclose_pipe; ksimpl; [by rewrite list_lookup_insert_ne|done|done| |done|by rewrite Hph|].
  { rewrite Hph. apply lookup_insert_eq. }
  rewrite Hph. unfold pipeclose_state, closed.
  replace (_ && _) with true.
  2: { unfold close_end. rewrite Hw. destruct (f_writable yh =? 0); ksimpl; reflexivity. }
  split; [done|]. split; [unfold kfree_state; ksimpl; by rewrite delete_insert_eq|]. split; [|done].
  apply kfree_state_free_ok; [done..|]. by apply (free_ok_frame s).
Qed.

Lemma insert_pair {A} (l : list A) i j a b a' b' : i <> j ->
  <[j := b']> (<[i := a']> (<[j := b]> (<[i := a]> l))) = <[j := b']> (<[i := a']> l).
Proof.
  intros. rewrite (list_insert_insert_ne (<[i := a]> l) i j) by done.
  by rewrite !list_insert_insert_eq.
Qed.

Lemma lookup_insert_pair {A} (P : A -> Prop) (l : list A) i j a b k y : P a -> P b ->
  <[j := b]> (<[i := a]> l) !! k = Some y -> k = i \/ k = j -> P y.
Proof.
  intros Ha Hb Hk Hor. apply list_lookup_insert_Some in Hk as [(<- & <- & _)|[? Hk]]; [done|].
  apply list_lookup_insert_Some in Hk as [(<- & <- & _)|[? Hk]]; [done|]. destruct Hor; congruence.
Qed.

Lemma new_pipe_rep m p : pipe_rep (new_pipe m p) [].
Proof.
  split; unfold new_pipe; ksimpl; [done..| |done]. by rewrite length_fmap, length_seqZ.
Qed.

(** [pipealloc] gives the first two unused files, the first open for
    reading and the second for writing, on an empty pipe in a page of its
    own with both ends open; when both files are closed, in either order,
    the page is back on the free list, once, the pipe is gone and the two
    files are unused again. *)
Theorem pipe_lifecycle {DV : Devsw} s v l f0 f1 x0 x1 :
  length (k_file s) = Z.to_nat NFILE -> k_held s = [] -> free_ok s (v :: l) -> k_pipe s !! v = None ->
  k_file s !! f0 = Some x0 -> first_free (k_file s) f0 ->
  k_file s !! f1 = Some x1 -> first_free (<[f0 := set_f_ref 1 x0]> (k_file s)) f1 ->
  wp pipealloc (fun o s1 => o = Some (f0, f1) /\ free_ok s1 l /\
    (exists x, k_pipe s1 = <[v := x]> (k_pipe s) /\ pipe_rep x [] /\ pi_readopen x = 1 /\ pi_writeopen x = 1) /\
    k_file s1 = <[f1 := pipe_file v 0 1 (set_f_ref 1 x1)]>
      (<[f0 := pipe_file v 1 0 (set_f_ref 1 x0)]> (k_file s)) /\
    forall g h, (g, h) = (f0, f1) \/ (g, h) = (f1, f0) ->
      wp (fileclose g;; fileclose h) (fun _ s2 => k_held s2 = [] /\ k_pipe s2 = k_pipe s /\
        free_ok s2 (v :: l) /\ forall i y, k_file s2 !! i = Some y ->
          i = f0 \/ i = f1 -> f_ref y = 0 /\ f_type y = FD_NONE) s1) s.
Proof.
  intros Hl Hh Hf Hv H0 Hf0 H1 Hf1.
  assert (f0 <> f1) as Hne.
  { intros <-. destruct Hf1 as [(x & Hx & Hr) _]. rewrite list_lookup_insert_eq in Hx by by eapply lookup_lt_Some.
    by simplify_eq. }
  assert (f0 < length (k_file s))%nat as L0 by by eapply lookup_lt_Some.
  assert (f1 < length (k_file s))%nat as L1 by by eapply lookup_lt_Some.
  assert (page_ok v) as Hpv by (apply (Forall_inv (free_pages _ _ Hf))).
  assert (v <> 0) as Hv0. { destruct Hpv as [_ ?]. pose proof end_range. unfold KERNLINK in *. klia. }
  assert (v ∉ l) as Hvl by by apply NoDup_cons, (free_nodup _ _ Hf).
  unfold pipealloc. wp_steps. eapply wp_filealloc; [done..|]. wp_steps.
  eapply wp_filealloc; ksimpl; [by rewrite length_insert|done|exact Hf1|by rewrite list_lookup_insert_ne|].
  wp_steps. eapply (wp_kalloc_free v l); [by apply (free_ok_frame s)|done|intros _; ksimpl; rewrite Hh; set_solver|].
  rewrite (proj2 (Z.eqb_neq _ _) Hv0). wp_steps.
  eapply wp_upd_file; [unfold kalloc_state; ksimpl; rewrite list_lookup_insert_ne by done; by apply list_lookup_insert_eq|]. wp_steps.
  eapply wp_upd_file; [unfold kalloc_state; ksimpl; rewrite list_lookup_insert_ne by done;
    apply list_lookup_insert_eq; by rewrite length_insert|]. wp_steps.
  match goal with |- context [free_ok ?t l] => set (s1 := t) end.
  assert (free_ok s1 l) as Hs1.
  { apply (free_ok_frame (kalloc_state s)); [done..|]. by eapply kalloc_state_free_ok. }
  assert (k_file s1 = <[f1 := pipe_file v 0 1 (set_f_ref 1 x1)]>
      (<[f0 := pipe_file v 1 0 (set_f_ref 1 x0)]> (k_file s))) as Hfs.
  { unfold s1, kalloc_state. ksimpl. by apply insert_pair. }
  split; [done|]. split; [done|]. split; [eexists; split; [reflexivity|]; split; [apply new_pipe_rep|done]|].
  split; [done|]. intros g h Hgh.
  set (y0 := pipe_file v 1 0 (set_f_ref 1 x0)) in *. set (y1 := pipe_file v 0 1 (set_f_ref 1 x1)) in *.
  assert (k_file s1 !! f0 = Some y0) as E0.
  { rewrite Hfs, list_lookup_insert_ne by done. by apply list_lookup_insert_eq. }
  assert (k_file s1 !! f1 = Some y1) as E1.
  { rewrite Hfs. apply list_lookup_insert_eq. by rewrite length_insert. }
  assert (k_pipe s1 !! v = Some (new_pipe (k_mem s) v)) as Ep by apply lookup_insert_eq.
  assert (k_held s1 = []) as Eh by done.
  assert (delete v (k_pipe s1) = k_pipe s) as Ed by (apply delete_insert_id; done).
  clearbody s1. destruct Hgh as [[= -> ->]|[= -> ->]].
  - eapply wp_mono; [by eapply (wp_close_both f0 f1 y0 y1 v _ l)|].
    intros _ s2 (Hh2 & Hp2 & Hf2 & Hfile). rewrite Ed in Hp2. split_and!; try done.
    intros i y Hi Hor. rewrite Hfile in Hi. eapply (lookup_insert_pair (fun y => f_ref y = 0 /\ f_type y = FD_NONE)); [..|exact Hi|exact Hor]; done.
  - eapply wp_mono; [by eapply (wp_close_both f1 f0 y1 y0 v _ l)|].
    intros _ s2 (Hh2 & Hp2 & Hf2 & Hfile). rewrite Ed in Hp2. split_and!; try done.
    intros i y Hi Hor. rewrite Hfile in Hi. eapply (lookup_insert_pair (fun y => f_ref y = 0 /\ f_type y = FD_NONE)); [..|exact Hi|by destruct Hor; [right|left]]; done.
Qed.
End close.

Lemma pipe_lifecycle_witness :
  wp (pipealloc (I := img)) (fun o s1 => o = Some (0%nat, 1%nat) /\
    wp (fileclose (I := img) 1;; fileclose (I := img) 0) (fun _ s2 => free_ok (I := img) s2 free0) s1) state0.
Proof.
  eapply wp_mono.
  - apply (pipe_lifecycle (I := img) (DV := Build_Devsw (fun _ => None) (fun _ => None)) state0
      0x80303000 (tail free0) 0 1 file0 file0).
    + reflexivity.
    + reflexivity.
    + exact sample_free_ok.
    + reflexivity.
    + reflexivity.
    + split; [exists file0; split; reflexivity|]. intros; lia.
    + reflexivity.
    + split; [exists file0; split; reflexivity|]. intros j x Hj Hx.
      assert (j = 0%nat) as -> by lia. injection Hx as <-. discriminate.
  - intros o s1 (-> & _ & _ & _ & Hc). split; [reflexivity|].
    eapply wp_mono; [apply (Hc 1%nat 0%nat); right; reflexivity|]. intros _ s2 (_ & _ & Hf & _). exact Hf.
Defined.
