(* ===== verification/Proc.v ===== *)
(** * Processes

    The life of a process in [proc.c]: [allocproc], [userinit], [growproc],
    [fork], [exit], [wait], [kill] and [forkret].  [exit] ends in the
    scheduler and never comes back; [wait] that has to sleep ends [Asleep]
    and goes on with [wait_wake], see Sched.v.

    The theorems show the kernel stack that [allocproc] builds, and that
    [exit] and [wait] together never leave a parent asleep beside a zombie. *)

From Stdlib Require Import ZArith Lia.
From stdpp Require Import base strings numbers gmap list.
From S2P Require Import Prelude Mmu Memory Kernel Sample Sleeplock Bio Block Layout Log.
From S2P Require Import Kmem Rmap PageTable Swap Kalloc Vm Sched Pipe Fs File.

(** ** The trap frame and the context *)

Definition TFSIZE : Z := 76. (* sizeof(struct trapframe) *)
Definition CTXSIZE : Z := 20. (* sizeof(struct context) *)
Definition tf_eax : Z := 28.
Definition tf_es : Z := 40.
Definition tf_ds : Z := 44.
Definition tf_trapno : Z := 48.
Definition tf_eip : Z := 56.
Definition tf_cs : Z := 60.
Definition tf_eflags : Z := 64.
Definition tf_esp : Z := 68.
Definition tf_ss : Z := 72.
Definition ctx_eip : Z := 16.

Definition SEG_UCODE : Z := 3.
Definition SEG_UDATA : Z := 4.
Definition DPL_USER : Z := 3.
Definition FL_IF : Z := 0x200.

(** A [ushort] store. *)
Definition store16 (a v : Z) : K unit :=
  modify_mem (fun m => stb (stb m a v) (a + 1) (v / 256)).

(** ** Process names *)

(** [safestrcpy] on the array [name]: [s] and [t] are the arrays from the
    two pointers on, [n] the value of [--n]. *)
Fixpoint name_copy (n : nat) (s t : list Z) : list Z :=
  match s with
  | [] => []
  | x :: s' =>
      match n with
      | O => 0 :: s'
      | S n =>
          match t with
          | [] => s
          | c :: t' => c :: (if c =? 0 then match s' with [] => [] | _ :: s'' => 0 :: s'' end
                             else name_copy n s' t')
          end
      end
  end.
Definition PNAMESIZE : Z := 16.
Definition set_name (t s : list Z) : list Z := name_copy (Z.to_nat (PNAMESIZE - 1)) s t.

(** ** Operations *)

(** The address [p] of a process, 0 for the null pointer, as a channel. *)
Definition proc_chan (p : option nat) : chan :=
  match p with Some i => ChProc i | None => NoChan end.

Section proc.
Context {I : KernelImage} {DV : Devsw}.

Definition allocproc : K (option nat) :=
  acquire L_ptable;;
  r ← for_ (seq 0 (Z.to_nat NPROC)) (fun i (_ : unit) =>
        p ← get_proc i;
        mret (if bool_decide (p_state p = UNUSED) then Return i else Next tt)) tt;
  match r with
  | inl _ => release L_ptable;; mret None
  | inr i =>
      upd_proc i (set_p_state EMBRYO);;
      pid ← gets k_nextpid;
      upd_proc i (set_p_pid pid);;
      modify (set_k_nextpid (s32 (pid + 1)));;
      release L_ptable;;
      k ← kalloc;
      upd_proc i (set_p_kstack k);;
      if k =? 0 then upd_proc i (set_p_state UNUSED);; mret None
      else
        let sp := k + KSTACKSIZE in
        let sp := sp - TFSIZE in
        upd_proc i (set_p_tf sp);;
        let sp := sp - 4 in
        store sp sym_trapret;;
        let sp := sp - CTXSIZE in
        upd_proc i (set_p_context sp);;
        modify_mem (fun m => memset m sp 0 CTXSIZE);;
        store (sp + ctx_eip) sym_forkret;;
        mret (Some i)
  end.

(** [init] and [size] are the symbols of the embedded [initcode]. *)
Definition userinit (init size : Z) : K unit :=
  o ← allocproc;
  modify (set_k_initproc o);;
  p ← the o;
  d ← setupkvm;
  upd_proc p (set_p_pgdir d);;
  if d =? 0 then panic "userinit: out of memory?"
  else
    inituvm d init size;;
    upd_proc p (set_p_sz PGSIZE);;
    pr ← get_proc p;
    let tf := p_tf pr in
    modify_mem (fun m => memset m tf 0 TFSIZE);;
    store16 (tf + tf_cs) (Z.lor (Z.shiftl SEG_UCODE 3) DPL_USER);;
    store16 (tf + tf_ds) (Z.lor (Z.shiftl SEG_UDATA 3) DPL_USER);;
    store16 (tf + tf_es) (Z.lor (Z.shiftl SEG_UDATA 3) DPL_USER);;
    store16 (tf + tf_ss) (Z.lor (Z.shiftl SEG_UDATA 3) DPL_USER);;
    store (tf + tf_eflags) FL_IF;;
    store (tf + tf_esp) PGSIZE;;
    store (tf + tf_eip) 0;;
    upd_proc p (fun x => set_p_name (set_name [105; 110; 105; 116; 99; 111; 100; 101; 0] (p_name x)) x);;
    cwd ← namei [SLASH];
    upd_proc p (set_p_cwd cwd);;
    acquire L_ptable;;
    upd_proc p (set_p_state RUNNABLE);;
    release L_ptable.

Definition growproc (n : Z) : K Z :=
  c ← curproc;
  p ← get_proc c;
  sz ← (if 0 <? n then allocuvm (p_pgdir p) (p_sz p) (u32 (p_sz p + n))
        else if n <? 0 then deallocuvm (p_pgdir p) (p_sz p) (u32 (p_sz p + n))
        else mret (p_sz p));
  if negb (n =? 0) && (sz =? 0) then mret (-1)
  else
    upd_proc c (set_p_sz sz);;
    switchuvm (Some c);;
    mret 0.

(** [if(curproc->ofile[i]) np->ofile[i] = filedup(curproc->ofile[i]);] *)
Definition dup_files (c np : nat) : K unit :=
  _ ← for_ (R := unit) (seq 0 (Z.to_nat NOFILE)) (fun i (_ : unit) =>
        p ← get_proc c;
        o ← the (p_ofile p !! i);
        match o with
        | None => mret (Next tt)
        | Some f =>
            g ← filedup f;
            upd_proc np (fun x => set_p_ofile (<[i := Some g]> (p_ofile x)) x);;
            mret (Next tt)
        end) tt;
  mret tt.

Definition fork : K Z :=
  c ← curproc;
  o ← allocproc;
  match o with
  | None => mret (-1)
  | Some np =>
      p ← get_proc c;
      d ← copyuvm (p_pgdir p) (p_sz p) np;
      upd_proc np (set_p_pgdir d);;
      if d =? 0 then
        x ← get_proc np;
        kfree (p_kstack x);;
        upd_proc np (set_p_kstack 0);;
        upd_proc np (set_p_state UNUSED);;
        mret (-1)
      else
        p ← get_proc c;
        upd_proc np (set_p_sz (p_sz p));;
        upd_proc np (set_p_parent (Some c));;
        x ← get_proc np;
        modify_mem (fun m => memmove m (p_tf x) (p_tf p) TFSIZE);;
        store (p_tf x + tf_eax) 0;;
        dup_files c np;;
        i ← the (p_cwd p);
        i ← idup i;
        upd_proc np (set_p_cwd (Some i));;
        upd_proc np (fun x => set_p_name (set_name (p_name p) (p_name x)) x);;
        x ← get_proc np;
        acquire L_ptable;;
        upd_proc np (set_p_state RUNNABLE);;
        release L_ptable;;
        mret (p_pid x)
  end.

(** The files of the process [c] are closed. *)
Definition close_files (c : nat) : K unit :=
  _ ← for_ (R := unit) (seq 0 (Z.to_nat NOFILE)) (fun fd (_ : unit) =>
        p ← get_proc c;
        o ← the (p_ofile p !! fd);
        match o with
        | None => mret (Next tt)
        | Some f =>
            fileclose f;;
            upd_proc c (fun x => set_p_ofile (<[fd := None]> (p_ofile x)) x);;
            mret (Next tt)
        end) tt;
  mret tt.

(** One process of the loop of [exit]. *)
Definition reparent (c i : nat) : K unit :=
  p ← get_proc i;
  when (bool_decide (p_parent p = Some c))
    (init ← gets k_initproc;
     upd_proc i (set_p_parent init);;
     when (bool_decide (p_state p = ZOMBIE)) (wakeup1 (proc_chan init))).

(** [exit] from the point where it takes [ptable.lock]. *)
Definition exit_last (c : nat) : K unit :=
  acquire L_ptable;;
  p ← get_proc c;
  wakeup1 (proc_chan (p_parent p));;
  _ ← for_ (R := unit) (seq 0 (Z.to_nat NPROC)) (fun i (_ : unit) => reparent c i;; mret (Next tt)) tt;
  upd_proc c (set_p_state ZOMBIE);;
  sched_enter.

Definition exit : K unit :=
  c ← curproc;
  init ← gets k_initproc;
  if bool_decide (init = Some c) then panic "init exiting"
  else
    close_files c;;
    begin_op;;
    p ← get_proc c;
    i ← the (p_cwd p);
    iput i;;
    end_op;;
    upd_proc c (set_p_cwd None);;
    exit_last c.

(** What [wait] does with the zombie [i]. *)
Definition reap (i : nat) : K Z :=
  p ← get_proc i;
  clean_proc_data (p_pgdir p);;
  kfree (p_kstack p);;
  upd_proc i (set_p_kstack 0);;
  freevm2 (p_pgdir p) i;;
  upd_proc i (set_p_pid 0);;
  upd_proc i (set_p_parent None);;
  upd_proc i (fun x => set_p_name (<[0%nat := 0]> (p_name x)) x);;
  upd_proc i (set_p_killed 0);;
  upd_proc i (set_p_state UNUSED);;
  release L_ptable;;
  mret (p_pid p).

Definition wait_step (c i : nat) (havekids : bool) : K (ctl bool Z) :=
  p ← get_proc i;
  if negb (bool_decide (p_parent p = Some c)) then mret (Next havekids)
  else if bool_decide (p_state p = ZOMBIE) then pid ← reap i; mret (Return pid)
  else mret (Next true).

(** One round of the loop of [wait], with [ptable.lock] held. *)
Definition wait_locked (c : nat) : K (outcome Z) :=
  r ← for_ (seq 0 (Z.to_nat NPROC)) (wait_step c) false;
  match r with
  | inr pid => mret (Done pid)
  | inl havekids =>
      p ← get_proc c;
      if negb havekids || negb (p_killed p =? 0) then
        release L_ptable;;
        mret (Done (-1))
      else
        sleep_enter (ChProc c) L_ptable;;
        mret Asleep
  end.

Definition wait : K (outcome Z) :=
  c ← curproc;
  acquire L_ptable;;
  wait_locked c.
Definition wait_wake : K (outcome Z) :=
  sleep_resume L_ptable;;
  c ← curproc;
  wait_locked c.

Definition kill (pid : Z) : K Z :=
  acquire L_ptable;;
  r ← for_ (seq 0 (Z.to_nat NPROC)) (fun i (_ : unit) =>
        p ← get_proc i;
        if p_pid p =? pid then
          upd_proc i (set_p_killed 1);;
          when (bool_decide (p_state p = SLEEPING)) (upd_proc i (set_p_state RUNNABLE));;
          release L_ptable;;
          mret (Return 0)
        else mret (Next tt)) tt;
  match r with
  | inr v => mret v
  | inl _ => release L_ptable;; mret (-1)
  end.

(** [first] is the static variable of [forkret]; its new value is returned. *)
Definition forkret (first : bool) : K bool :=
  release L_ptable;;
  when first (iinit ROOTDEV;; initlog ROOTDEV);;
  mret false.
End proc.

(** ** Children and zombies *)

(** No process sleeps in [wait] while one of its children is a zombie. *)
Definition no_lost (s : kstate) : Prop :=
  forall i j p q, k_proc s !! i = Some p -> k_proc s !! j = Some q ->
    p_parent q = Some i -> p_state q = ZOMBIE ->
    ~ (p_state p = SLEEPING /\ p_chan p = ChProc i).

(** [p'] is [p] or [p] awake, apart from its parent. *)
Definition calmer (p p' : proc) : Prop :=
  p_chan p' = p_chan p /\
  (p_state p' = p_state p \/ p_state p = SLEEPING /\ p_state p' = RUNNABLE).
Definition procs_calmer (s s' : kstate) : Prop :=
  length (k_proc s') = length (k_proc s) /\
  forall i p', k_proc s' !! i = Some p' -> exists p, k_proc s !! i = Some p /\ calmer p p'.

Lemma calmer_waits s s' ch : procs_calmer s s' -> noone_waits ch s -> noone_waits ch s'.
Proof.
  intros [_ H] Hw j p' Hj Hst Hch. destruct (H j p' Hj) as (p & Hp & Hc & Hs).
  apply (Hw j p Hp); [|congruence]. destruct Hs as [Hs|[_ Hs]]; congruence.
Qed.

Lemma procs_calmer_refl s : procs_calmer s s.
Proof. split; [done|]. intros i p Hp. exists p. split; [done|]. split; [done|by left]. Qed.

Lemma procs_calmer_trans s1 s2 s3 : procs_calmer s1 s2 -> procs_calmer s2 s3 -> procs_calmer s1 s3.
Proof.
  intros [L1 H1] [L2 H2]. split; [congruence|]. intros i p3 Hp3.
  destruct (H2 i p3 Hp3) as (p2 & Hp2 & Hc2 & Hs2), (H1 i p2 Hp2) as (p1 & Hp1 & Hc1 & Hs1).
  exists p1. split; [done|]. split; [congruence|]. destruct Hs1 as [|[]], Hs2 as [|[]]; intuition congruence.
Qed.

(** The state after [wakeup1]. *)
Definition wake_all (ch : chan) (s : kstate) : kstate := set_k_proc (wake_proc ch <$> k_proc s) s.

Lemma wake_all_lookup ch s i p' : k_proc (wake_all ch s) !! i = Some p' ->
  exists p, k_proc s !! i = Some p /\ calmer p p' /\ p_parent p' = p_parent p /\
    (p_state p' = ZOMBIE <-> p_state p = ZOMBIE).
Proof.
  unfold wake_all. ksimpl. rewrite list_lookup_fmap. destruct (k_proc s !! i) as [p|]; [|done].
  intros [= <-]. exists p. split; [done|]. unfold wake_proc, calmer.
  destruct (bool_decide (p_state p = SLEEPING) && _) eqn:E; cbn; [|by intuition].
  apply andb_true_iff in E as [E _]. apply bool_decide_eq_true in E. rewrite E. intuition congruence.
Qed.

Lemma wake_all_calmer ch s : procs_calmer s (wake_all ch s).
Proof.
  split; [unfold wake_all; ksimpl; apply length_fmap|].
  intros i p' Hp. destruct (wake_all_lookup _ _ _ _ Hp) as (p & ? & ? & _). eauto.
Qed.

Lemma wake_all_no_lost ch s : no_lost s -> no_lost (wake_all ch s).
Proof.
  intros Hn i j p q Hp Hq Hpar Hz [Hs Hch].
  destruct (wake_all_lookup _ _ _ _ Hp) as (p0 & Hp0 & [Hc0 Hs0] & _ & _).
  destruct (wake_all_lookup _ _ _ _ Hq) as (q0 & Hq0 & _ & Hpq & Hzq).
  apply (Hn i j p0 q0 Hp0 Hq0); [congruence|tauto|]. split; [|congruence].
  destruct Hs0 as [|[]]; congruence.
Qed.

Lemma wake_all_waits ch s : noone_waits ch (wake_all ch s).
Proof. by eapply noone_waits_wake. Qed.

(** Giving a child to another parent that does not sleep in [wait]. *)
Lemma set_parent_no_lost s i p o : no_lost s -> k_proc s !! i = Some p ->
  (p_state p = ZOMBIE -> noone_waits (proc_chan o) s) ->
  no_lost (set_k_proc (<[i := set_p_parent o p]> (k_proc s)) s).
Proof.
  intros Hn Hp Hw i' j p' q' Hp' Hq' Hpar Hz [Hs Hch]. ksimpl.
  assert (exists p0, k_proc s !! i' = Some p0 /\ p_state p0 = SLEEPING /\ p_chan p0 = ChProc i') as (p0 & Hp0 & Hs0 & Hc0).
  { apply list_lookup_insert_Some in Hp' as [(<- & <- & _)|[_ Hp']]; eauto. }
  apply list_lookup_insert_Some in Hq' as [(<- & <- & _)|[_ Hq']].
  - cbn in Hpar, Hz. apply (Hw Hz i' p0 Hp0 Hs0). by rewrite Hpar.
  - by apply (Hn i' j p0 q' Hp0 Hq').
Qed.

Lemma set_parent_calmer s i p o : k_proc s !! i = Some p ->
  procs_calmer s (set_k_proc (<[i := set_p_parent o p]> (k_proc s)) s).
Proof.
  intros Hp. split; ksimpl; [apply length_insert|]. intros j q Hq.
  apply list_lookup_insert_Some in Hq as [(<- & <- & _)|[_ Hq]].
  - exists p. split; [done|]. split; [done|by left].
  - exists q. split; [done|]. split; [done|by left].
Qed.

(** The loop of [exit] of process [c]: what holds after the processes [pre]. *)
Record exiting (c : nat) (s0 : kstate) (pre : list nat) (s : kstate) : Prop := {
  ex_no_lost : no_lost s;
  ex_calmer : procs_calmer s0 s;
  ex_held : k_held s = k_held s0;
  ex_cur : k_cur s = k_cur s0;
  ex_init : k_initproc s = k_initproc s0;
  ex_parents : forall j q, k_proc s !! j = Some q ->
    exists q0, k_proc s0 !! j = Some q0 /\
      p_parent q = (if decide (j ∈ pre /\ p_parent q0 = Some c) then k_initproc s0 else p_parent q0);
}.

Lemma exiting_step c s0 pre i s : k_initproc s0 <> Some c -> i ∉ pre -> (i < length (k_proc s0))%nat ->
  exiting c s0 pre s -> wp (reparent c i) (fun _ => exiting c s0 (pre ++ [i])) s.
Proof.
  intros Hinit Hi Hlt [Hn Hc Hh Hcur Hini Hpar].
  destruct (lookup_lt_is_Some_2 (k_proc s) i) as [p Hp]; [by rewrite (proj1 Hc)|].
  destruct (Hpar i p Hp) as (p0 & Hp0 & Hpp). rewrite decide_False in Hpp by tauto.
  unfold reparent. wp_steps. eapply wp_get_proc; [exact Hp|].
  case_bool_decide as Hmine; cbn [when]; wp_steps.
  2: { split; try done. intros j q Hq. destruct (Hpar j q Hq) as (q0 & Hq0 & Hpq). exists q0. split; [done|].
       rewrite Hpq. apply decide_ext. split; [set_solver|]. intros [[?| ->%list_elem_of_singleton]%elem_of_app ?]; [done|].
       destruct Hmine. simplify_eq. congruence. }
  eapply wp_upd_proc; [exact Hp|]. rewrite Hini.
  set (o := k_initproc s0) in *.
  assert (forall s', k_proc s' = k_proc s \/ k_proc s' = wake_proc (proc_chan o) <$> k_proc s ->
    forall j q, <[i := set_p_parent o p]> (k_proc s') !! j = Some q ->
    exists q0, k_proc s0 !! j = Some q0 /\
      p_parent q = (if decide (j ∈ pre ++ [i] /\ p_parent q0 = Some c) then o else p_parent q0)) as Hpar'.
  { intros s' Hs' j q Hq. apply list_lookup_insert_Some in Hq as [(<- & <- & _)|[Hne Hq]].
    - exists p0. split; [done|]. rewrite decide_True; [done|]. split; [set_solver|congruence].
    - assert (exists q1, k_proc s !! j = Some q1 /\ p_parent q = p_parent q1) as (q1 & Hq1 & Hpq1).
      { destruct Hs' as [Hs'|Hs']; rewrite Hs' in Hq; [eauto|].
        destruct (wake_all_lookup (proc_chan o) s j q Hq) as (q1 & ? & _ & ? & _). eauto. }
      destruct (Hpar j q1 Hq1) as (q0 & Hq0 & Hpq). exists q0. split; [done|].
      rewrite Hpq1, Hpq. apply decide_ext. set_solver. }
  case_bool_decide as Hz; cbn [when]; wp_steps.
  - unfold wakeup1. wp_steps. ksimpl. rewrite list_fmap_insert.
    replace (wake_proc (proc_chan o) (set_p_parent o p)) with (set_p_parent o p)
      by (unfold wake_proc; cbn; by rewrite Hz, bool_decide_false).
    assert (k_proc (wake_all (proc_chan o) s) !! i = Some p) as Hp'.
    { unfold wake_all. ksimpl. rewrite list_lookup_fmap, Hp. cbn. unfold wake_proc.
      by rewrite Hz, bool_decide_false. }
    split; try done.
    + apply (set_parent_no_lost (wake_all (proc_chan o) s) i p o); [by apply wake_all_no_lost|done|].
      intros _. apply wake_all_waits.
    + eapply procs_calmer_trans; [exact Hc|]. eapply procs_calmer_trans; [apply (wake_all_calmer (proc_chan o))|].
      exact (set_parent_calmer (wake_all (proc_chan o) s) i p o Hp').
    + apply (Hpar' (wake_all (proc_chan o) s)). by right.
  - split; try done.
    + apply set_parent_no_lost; [done..|]. intros. done.
    + eapply procs_calmer_trans; [exact Hc|]. by apply set_parent_calmer.
    + apply (Hpar' s). by left.
Qed.

(** The end of [exit], when its loop is over. *)
Lemma wp_exit_zombie c pr s0 pre s : exiting c s0 pre s -> k_proc s0 !! c = Some pr ->
  k_cur s0 = Some c -> k_held s0 = [L_ptable] -> noone_waits (proc_chan (p_parent pr)) s0 ->
  p_parent pr <> Some c ->
  wp (upd_proc c (set_p_state ZOMBIE);; sched_enter) (fun _ s' => no_lost s' /\ k_held s' = [L_ptable] /\
    (exists p, k_proc s' !! c = Some p /\ p_state p = ZOMBIE /\ p_parent p = p_parent pr) /\
    forall j q, k_proc s' !! j = Some q -> exists q2, k_proc s !! j = Some q2 /\ p_parent q = p_parent q2) s.
Proof.
  intros [Hn Hc Hh Hcur Hi Hpar] Hp0 Hc0 Hh0 Hw0 Hself.
  destruct (lookup_lt_is_Some_2 (k_proc s) c) as [p Hp].
  { rewrite (proj1 Hc). by eapply lookup_lt_Some. }
  destruct (Hpar c p Hp) as (q & Hq & Hpq). assert (q = pr) as -> by congruence.
  rewrite decide_False in Hpq by tauto.
  wp_steps. eapply wp_upd_proc; [exact Hp|].
  assert (c < length (k_proc s))%nat by by eapply lookup_lt_Some.
  eapply (wp_sched_enter c (set_p_state ZOMBIE p)); ksimpl; try congruence.
  { by apply list_lookup_insert_eq. }
  split_and!.
  - intros i j p' q' Hp' Hq' Hpar' Hz' [Hst' Hch']. ksimpl.
    apply list_lookup_insert_Some in Hp' as [(<- & <- & _)|[Hne Hp']]; [done|].
    apply list_lookup_insert_Some in Hq' as [(<- & <- & _)|[Hne' Hq']].
    + cbn in Hpar'. apply (calmer_waits _ _ _ Hc Hw0 i p' Hp' Hst'). by rewrite <-Hpq, Hpar'.
    + by apply (Hn i j p' q').
  - congruence.
  - exists (set_p_state ZOMBIE p). split; [by apply list_lookup_insert_eq|done].
  - intros j q' Hq'. apply list_lookup_insert_Some in Hq' as [(<- & <- & _)|[_ Hq']]; eauto.
Qed.

Lemma wp_exit_last c pr s : running s c pr [] -> length (k_proc s) = Z.to_nat NPROC -> no_lost s ->
  k_initproc s <> Some c -> p_parent pr <> Some c ->
  wp (exit_last c) (fun _ s' => no_lost s' /\ k_held s' = [L_ptable] /\
    (exists p, k_proc s' !! c = Some p /\ p_state p = ZOMBIE /\ p_parent p = p_parent pr) /\
    forall j q, k_proc s' !! j = Some q -> exists q0, k_proc s !! j = Some q0 /\
      p_parent q = if decide (p_parent q0 = Some c) then k_initproc s else p_parent q0) s.
Proof.
  intros [Hc Hp Hr Hh] Hl Hn Hinit Hpar. unfold exit_last. wp_steps.
  apply wp_acquire; [rewrite Hh; set_solver|]. wp_steps. eapply wp_get_proc; [exact Hp|]. wp_steps.
  unfold wakeup1. wp_steps. set (ch := proc_chan (p_parent pr)).
  match goal with |- wp _ _ ?t => set (s1 := t) end.
  assert (k_proc s1 = wake_proc ch <$> k_proc s) as Hs1 by done.
  assert (k_held s1 = [L_ptable]) as Hh1 by (unfold s1; ksimpl; by rewrite Hh).
  assert (k_cur s1 = Some c /\ k_initproc s1 = k_initproc s) as [Hc1 Hi1] by done.
  assert (no_lost s1) as Hn1 by exact (wake_all_no_lost ch s Hn).
  assert (noone_waits ch s1) as Hw1 by by eapply noone_waits_wake.
  assert (k_proc s1 !! c = Some pr) as Hp1 by (rewrite Hs1, list_lookup_fmap, Hp; cbn; by rewrite wake_running).
  assert (length (k_proc s1) = Z.to_nat NPROC) as Hl1 by (rewrite Hs1; by rewrite length_fmap).
  clearbody s1. eapply (wp_for _ _ (fun pre _ s => exiting c s1 pre s)).
  - intros pre i suf _ s2 Hseq Hs2. wp_steps.
    assert (i ∈ seq 0 (Z.to_nat NPROC)) as Hi by (rewrite Hseq; set_solver). apply elem_of_seq in Hi.
    assert (i ∉ pre) as Hnot.
    { pose proof (NoDup_seq 0 (Z.to_nat NPROC)) as Hnd. rewrite Hseq in Hnd.
      apply NoDup_app in Hnd as (_ & H & _). intros Hin. apply (H i Hin). set_solver. }
    eapply wp_mono; [apply (exiting_step c s1 pre i s2); [by rewrite Hi1|done|lia|done]|].
    intros [] s3 Hs3. by wp_steps.
  - intros _ s2 Hs2.
    eapply wp_mono; [by apply (wp_exit_zombie c pr s1 _ s2 Hs2)|].
    intros _ s3 (Hn3 & Hh3 & Hz3 & Hp3). split_and!; try done. intros j q Hq.
    destruct (Hp3 j q Hq) as (q2 & Hq2 & E2), (ex_parents _ _ _ _ Hs2 j q2 Hq2) as (q1 & Hq1 & E1).
    rewrite Hs1 in Hq1. destruct (wake_all_lookup ch s j q1 Hq1) as (q0 & Hq0 & _ & E0 & _). exists q0. split; [done|].
    rewrite E2, E1, E0, Hi1. apply decide_ext. apply lookup_lt_Some in Hq0. rewrite elem_of_seq. intuition lia.
  - split; try done; [apply procs_calmer_refl|]. intros j q Hq. exists q. split; [done|].
    rewrite decide_False; [done|]. set_solver.
Qed.

Definition is_child (c : nat) (q : proc) : bool := bool_decide (p_parent q = Some c).
Definition has_children (c : nat) (s : kstate) : bool := existsb (is_child c) (k_proc s).

Lemma seq_prefix n pre i suf : seq 0 n = pre ++ i :: suf -> length pre = i /\ (i < n)%nat.
Proof.
  intros H. assert (seq 0 n !! length pre = Some i) as Hl by (rewrite H; by apply list_lookup_middle).
  apply lookup_seq in Hl. lia.
Qed.

(** [wait] while no child is a zombie: it returns -1 when there is nothing
    to wait for, and sleeps otherwise. *)
Lemma wp_wait_idle {I : KernelImage} c pr s : running s c pr [L_ptable] ->
  length (k_proc s) = Z.to_nat NPROC -> no_lost s ->
  (forall j q, k_proc s !! j = Some q -> p_parent q = Some c -> p_state q <> ZOMBIE) ->
  wp (wait_locked c) (fun r s' => no_lost s' /\
    if has_children c s && (p_killed pr =? 0)
    then r = Asleep /\ k_proc s' = <[c := asleep (ChProc c) pr]> (k_proc s) /\ k_held s' = [L_ptable]
    else r = Done (-1) /\ k_proc s' = k_proc s /\ k_held s' = []) s.
Proof.
  intros [Hc Hp Hr Hh] Hl Hn Hz. unfold wait_locked. wp_steps.
  eapply (wp_for _ _ (fun pre acc s' => s' = s /\ acc = existsb (is_child c) (take (length pre) (k_proc s)))).
  - intros pre i suf acc _ Hseq [-> ->]. apply seq_prefix in Hseq as [<- Hi].
    destruct (lookup_lt_is_Some_2 (k_proc s) (length pre)) as [q Hq]; [lia|].
    unfold wait_step. wp_steps. eapply wp_get_proc; [exact Hq|]. fold (is_child c q).
    assert (take (length (pre ++ [length pre])) (k_proc s) = take (length pre) (k_proc s) ++ [q]) as Htake.
    { rewrite length_app, Nat.add_1_r. by apply take_S_r. }
    destruct (is_child c q) eqn:E; cbn [negb].
    + apply bool_decide_eq_true in E. rewrite bool_decide_false by by eapply Hz. wp_steps.
      split; [done|]. rewrite Htake, existsb_app. cbn. unfold is_child at 2. rewrite bool_decide_true by done.
      by rewrite orb_true_r.
    + wp_steps. split; [done|]. rewrite Htake, existsb_app. cbn. by rewrite E, !orb_false_r.
  - intros acc _ [-> ->]. rewrite length_seq, take_ge by lia. fold (has_children c s). wp_steps.
    eapply wp_get_proc; [exact Hp|]. rewrite <-negb_andb.
    destruct (has_children c s && (p_killed pr =? 0)) eqn:E; cbn [negb]; wp_steps.
    + unfold sleep_enter. wp_steps. unfold myproc. apply wp_gets. rewrite Hc.
      rewrite bool_decide_true by done. cbn [negb when]. wp_steps.
      eapply wp_upd_proc; [exact Hp|]. wp_steps. assert (c < length (k_proc s))%nat by by eapply lookup_lt_Some.
      eapply wp_upd_proc; [ksimpl; by apply list_lookup_insert_eq|]. wp_steps. ksimpl. rewrite list_insert_insert_eq.
      eapply (wp_sched_enter c (asleep (ChProc c) pr)); ksimpl; try done; [by apply list_lookup_insert_eq|].
      wp_steps. split; [|done]. intros i j p' q' Hp' Hq' Hpar' Hz' [Hst' Hch']. ksimpl.
      apply list_lookup_insert_Some in Hq' as [(<- & <- & _)|[_ Hq']]; [done|].
      apply list_lookup_insert_Some in Hp' as [(<- & <- & _)|[_ Hp']]; [by eapply Hz|by apply (Hn i j p' q')].
    + eapply wp_release; [exact Hh|]. by wp_steps.
  - by split.
Qed.

Lemma no_lost_ext s s' : (forall i p', k_proc s' !! i = Some p' -> exists p, k_proc s !! i = Some p /\
    p_parent p' = p_parent p /\ p_state p' = p_state p /\ p_chan p' = p_chan p) ->
  no_lost s -> no_lost s'.
Proof.
  intros H Hn i j p' q' Hp' Hq'. destruct (H i p' Hp') as (p & Hp & _ & -> & ->).
  destruct (H j q' Hq') as (q & Hq & -> & -> & _). exact (Hn i j p q Hp Hq).
Qed.

(** [kill] only wakes. *)
Lemma wp_kill pid s : k_held s = [] -> length (k_proc s) = Z.to_nat NPROC -> no_lost s ->
  wp (kill pid) (fun r s' => no_lost s' /\ k_held s' = []) s.
Proof.
  intros Hh Hl Hn. unfold kill. wp_steps. apply wp_acquire; [rewrite Hh; set_solver|]. wp_steps. rewrite Hh.
  eapply (wp_for _ _ (fun _ _ s' => s' = set_k_held [L_ptable] s)); [|intros _ s' ->|done].
  2: { wp_steps. eapply wp_release; [done|]. by wp_steps. }
  intros pre i suf _ _ Hseq ->. apply seq_prefix in Hseq as [_ Hi].
  destruct (lookup_lt_is_Some_2 (k_proc s) i) as [p Hp]; [lia|].
  wp_steps. eapply wp_get_proc; [exact Hp|]. destruct (p_pid p =? pid); [|by wp_steps].
  assert (no_lost (set_k_proc (<[i := set_p_killed 1 p]> (k_proc s)) s)) as Hn1.
  { apply (no_lost_ext s); [|done]. ksimpl. intros j q Hq.
    apply list_lookup_insert_Some in Hq as [(<- & <- & _)|[_ Hq]]; eauto. }
  wp_steps. eapply wp_upd_proc; [exact Hp|].
  case_bool_decide as Hs; cbn [when]; wp_steps.
  - eapply wp_upd_proc; [ksimpl; apply list_lookup_insert_eq; lia|]. ksimpl. rewrite list_insert_insert_eq.
    split; [|done].
    intros i' j p' q' Hp' Hq' Hpar Hz [Hst Hch]. ksimpl.
    apply list_lookup_insert_Some in Hp' as [(<- & <- & _)|[_ Hp']]; [done|].
    apply list_lookup_insert_Some in Hq' as [(<- & <- & _)|[_ Hq']]; [done|by apply (Hn i' j p' q')].
  - eapply wp_release; [done|]. wp_steps. split; [|done]. apply Hn1.
Qed.

(** ** A new process *)

Section alloc.
Context {I : KernelImage} {Iok : KernelImageOk I}.

(** The process that [allocproc] makes of the unused entry [p]. *)
Definition embryo (p : proc) (pid k : Z) : proc :=
  set_p_context (k + KSTACKSIZE - TFSIZE - 4 - CTXSIZE)
    (set_p_tf (k + KSTACKSIZE - TFSIZE) (set_p_kstack k (set_p_pid pid (set_p_state EMBRYO p)))).
(** The kernel stack in the page [k]. *)
Definition first_stack (m : mem) (k : Z) : mem :=
  let ctx := k + KSTACKSIZE - TFSIZE - 4 - CTXSIZE in
  st (memset (st m (k + KSTACKSIZE - TFSIZE - 4) sym_trapret) ctx 0 CTXSIZE) (ctx + ctx_eip) sym_forkret.

Definition first_unused (l : list proc) (i : nat) : Prop :=
  (exists p, l !! i = Some p /\ p_state p = UNUSED) /\
  forall j p, (j < i)%nat -> l !! j = Some p -> p_state p <> UNUSED.

Lemma wp_allocproc i p v l Q s : length (k_proc s) = Z.to_nat NPROC -> k_held s = [] ->
  first_unused (k_proc s) i -> k_proc s !! i = Some p -> free_ok s (v :: l) ->
  Q (Some i) (set_k_mem (first_stack (k_mem s) v) (kalloc_state
    (set_k_nextpid (s32 (k_nextpid s + 1)) (set_k_proc (<[i := embryo p (k_nextpid s) v]> (k_proc s)) s)))) ->
  wp allocproc Q s.
Proof.
  intros Hl Hh [(p' & Hp' & Hu) Hbefore] Hp Hf HQ. assert (p' = p) as -> by congruence.
  assert (i < length (k_proc s))%nat as Hi by by eapply lookup_lt_Some.
  assert (v <> 0) as Hv.
  { pose proof (page_ok_range v (Forall_inv (free_pages _ _ Hf))). klia. }
  unfold allocproc. wp_steps. apply wp_acquire; [rewrite Hh; set_solver|]. wp_steps. rewrite Hh.
  rewrite (seq_split _ i) by lia. apply wp_for_first.
  { intros j Hj Q' HQ'. apply elem_of_seq in Hj. wp_steps.
    destruct (lookup_lt_is_Some_2 (k_proc s) j) as [y Hy]; [lia|].
    eapply wp_get_proc; [exact Hy|]. wp_steps. rewrite bool_decide_false; [done|]. eapply Hbefore; [|done]. lia. }
  wp_steps. eapply wp_get_proc; [exact Hp|]. wp_steps. rewrite bool_decide_true by done. wp_steps.
  assert (forall x, <[i := x]> (k_proc s) !! i = Some x) as Hlook by (intros; by apply list_lookup_insert_eq).
  eapply wp_upd_proc; [exact Hp|]. wp_steps.
  eapply wp_upd_proc; [ksimpl; apply Hlook|]. wp_steps. ksimpl. rewrite list_insert_insert_eq.
  eapply wp_release; [done|]. wp_steps.
  eapply (wp_kalloc_free v l); [by apply (free_ok_frame s)|done|intros _; ksimpl; apply not_elem_of_nil|].
  wp_steps. eapply wp_upd_proc; [unfold kalloc_state; ksimpl; apply Hlook|].
  rewrite (proj2 (Z.eqb_neq _ _) Hv). wp_steps. unfold kalloc_state; ksimpl. rewrite list_insert_insert_eq.
  eapply wp_upd_proc; [ksimpl; apply Hlook|]. wp_steps. apply wp_store. wp_steps. ksimpl. rewrite list_insert_insert_eq.
  eapply wp_upd_proc; [ksimpl; apply Hlook|]. wp_steps. apply wp_modify_mem. wp_steps. apply wp_store. wp_steps.
  ksimpl. rewrite list_insert_insert_eq. unfold kalloc_state in HQ. ksimpl. destruct s; ksimpl; subst. exact HQ.
Qed.

Lemma first_stack_out m k a : a < k \/ k + PGSIZE <= a -> ldb (first_stack m k) a = ldb m a.
Proof.
  intros Ha. unfold first_stack, ctx_eip, CTXSIZE, TFSIZE, KSTACKSIZE in *. unfold PGSIZE in *.
  rewrite ldb_st_ne, ldb_memset_out, ldb_st_ne by lia. done.
Qed.

(** [allocproc] takes the first unused entry of the table and gives it
    the next pid and a page for its kernel stack.  From the top of that page
    down lie the trap frame, the address of [trapret], to which [forkret]
    returns, and the context, zero but for the address of [forkret]; nothing
    outside the page is written, and the rest of the free list and the other
    processes are as before. *)
Theorem allocproc_builds_stack i p v l s : length (k_proc s) = Z.to_nat NPROC -> k_held s = [] ->
  first_unused (k_proc s) i -> k_proc s !! i = Some p -> free_ok s (v :: l) ->
  wp allocproc (fun o s' => o = Some i /\ exists pr, k_proc s' = <[i := pr]> (k_proc s) /\
    p_state pr = EMBRYO /\ p_pid pr = k_nextpid s /\ k_nextpid s' = s32 (k_nextpid s + 1) /\
    p_kstack pr = v /\ p_tf pr + TFSIZE = v + KSTACKSIZE /\
    ld (k_mem s') (p_tf pr - 4) = u32 sym_trapret /\ p_context pr + CTXSIZE = p_tf pr - 4 /\
    ld (k_mem s') (p_context pr + ctx_eip) = u32 sym_forkret /\
    (forall o, 0 <= o -> o + 4 <= ctx_eip -> ld (k_mem s') (p_context pr + o) = 0) /\
    (forall a, a < v \/ v + PGSIZE <= a -> ldb (k_mem s') a = ldb (k_mem s) a) /\
    free_ok s' l) s.
Proof.
  intros Hl Hh Hu Hp Hf. eapply wp_allocproc; [done..|]. split; [done|].
  exists (embryo p (k_nextpid s) v). unfold kalloc_state. ksimpl. unfold embryo. ksimpl.
  assert (forall q, q ∈ l -> ld (first_stack (k_mem s) v) q = ld (k_mem s) q) as Hout.
  { intros q Hq. apply ld_ext. intros o Ho. apply first_stack_out.
    destruct Hf as [_ _ Hnd Hpages]. apply NoDup_cons in Hnd as [Hni _]. apply Forall_cons in Hpages as [[Hv _] Hpg].
    rewrite Forall_forall in Hpg. destruct (Hpg q Hq) as [Hq0 _].
    destruct (page_disjoint v q Hv Hq0) as [|]; [by intros ->|klia..]. }
  split_and!; try done; try (unfold TFSIZE, KSTACKSIZE, CTXSIZE; lia).
  - unfold first_stack. rewrite ld_st_ne, ld_memset_out, ld_st_eq by (unfold ctx_eip, CTXSIZE; lia). done.
  - apply ld_st_eq.
  - intros o Ho Hc. unfold first_stack. rewrite ld_st_ne, ld_memset_0 by (unfold ctx_eip, CTXSIZE in *; lia). done.
  - intros a Ha. by apply first_stack_out.
  - apply (free_ok_frame (set_k_mem (first_stack (k_mem s) v) (kalloc_state s))); [done..|].
    apply kmem_step_free_ok_mem; [done|]. by eapply kalloc_state_free_ok.
Qed.
End alloc.

(** ** Examples *)

(** A process that exits before a child it has not waited for; [init] sleeps. *)
Definition family (pid : Z) (st : procstate) (ch : chan) (parent : option nat) : proc :=
  mk_proc 0 0 0 0 st pid parent 0 0 ch 0 (replicate 16 None) None [].
Definition state_family : kstate :=
  set_k_initproc (Some 1%nat)
    (set_k_proc (family 2 RUNNING NoChan (Some 1%nat) :: family 1 SLEEPING (ChProc 1) None
                   :: family 3 ZOMBIE NoChan (Some 0%nat) :: replicate 61 unused_proc) state0).

Lemma state_family_no_lost : no_lost state_family.
Proof.
  intros i j p q Hp Hq Hpar Hz [Hs Hc].
  assert (Forall (fun q => p_state q = ZOMBIE -> p_parent q = Some 0%nat) (k_proc state_family)) as HF.
  { unfold state_family. ksimpl. repeat (apply Forall_cons; split; [cbn; first [discriminate|reflexivity]|]).
    apply Forall_nil_2. }
  rewrite Forall_lookup in HF. pose proof (HF j q Hq Hz) as E. rewrite Hpar in E. injection E as ->.
  injection Hp as <-. discriminate.
Qed.

Lemma allocproc_builds_stack_witness :
  wp (allocproc (I := img)) (fun o s' => o = Some 1%nat /\ k_nextpid s' = 3 /\ free_ok (I := img) s' (tail free0)) state0.
Proof.
  eapply wp_mono.
  - apply (allocproc_builds_stack (I := img) 1 unused_proc 0x80303000 (tail free0) state0).
    + reflexivity.
    + reflexivity.
    + split; [exists unused_proc; split; reflexivity|]. intros j p Hj Hp.
      assert (j = 0%nat) as -> by lia. injection Hp as <-. discriminate.
    + reflexivity.
    + exact sample_free_ok.
  - intros o s' (Ho & pr & _ & _ & _ & Hn & _ & _ & _ & _ & _ & _ & _ & Hf). split; [exact Ho|]. split; [exact Hn|exact Hf].
Defined.
