(* ===== verification/Fork.v ===== *)
(** * fork as a whole

    [fork] of [proc.c] from the system call to its return: the new entry of
    the process table, its kernel stack, the address space shared
    copy-on-write, the files and the current directory. *)

From Stdlib Require Import ZArith Lia.
From stdpp Require Import base strings numbers gmap list.
From S2P Require Import Prelude Mmu Memory Kernel Sample Sleeplock Kmem Rmap PageTable Swap Kalloc Vm VmKernel SampleTables VmUser.
From S2P Require Import Sched Pipe Fs File Proc.

Section fork.
Context {I : KernelImage} {Iok : KernelImageOk I}.

(** ** After [allocproc] *)

(** The state in which [fork] calls [copyuvm]. *)
Definition alloc_state (i : nat) (p0 : proc) (v : Z) (s : kstate) : kstate :=
  set_k_mem (first_stack (k_mem s) v) (kalloc_state
    (set_k_nextpid (s32 (k_nextpid s + 1)) (set_k_proc (<[i := embryo p0 (k_nextpid s) v]> (k_proc s)) s))).

Lemma first_stack_same m v p : v mod PGSIZE = 0 -> p mod PGSIZE = 0 -> p <> v -> same_page m (first_stack m v) p.
Proof. intros Hv Hp Hne a Ha. apply first_stack_out. destruct (page_disjoint v p Hv Hp); [done|klia..]. Qed.

Lemma free_head s v l : free_ok s (v :: l) -> page_ok v /\ v ∉ l.
Proof.
  intros [_ _ Hd Hp]. apply NoDup_cons in Hd as [? _]. apply Forall_cons in Hp as [? _]. done.
Qed.

Lemma alloc_state_free_ok i p0 v l s : free_ok s (v :: l) -> free_ok (alloc_state i p0 v s) l.
Proof.
  intros Hf. destruct (free_head _ _ _ Hf) as [[Hv _] Hni].
  apply (free_ok_frame (set_k_mem (first_stack (k_mem s) v) (kalloc_state s))); [done..|].
  apply kmem_step_free_ok_mem; [|by eapply kalloc_state_free_ok]. intros q Hq.
  pose proof (proj1 (Forall_forall _ _) (Forall_inv_tail (free_pages _ _ Hf)) q Hq) as [Hq0 _].
  apply ld_ext. intros o Ho. apply (first_stack_same (k_mem s) v q); [done|done|by intros ->|klia].
Qed.

(** The address space of the parent is ready to be copied. *)
Lemma cow_pre_alloc s P i p0 own n v l : cow_pre s P i p0 own n (v :: l) -> (10 + (n + 1023) / 1024 <= length l)%nat ->
  cow_pre (alloc_state i p0 v s) P i (embryo p0 (k_nextpid s) v) own n l /\ untouched (k_mem s) (first_stack (k_mem s) v) P.
Proof.
  intros [Hr Hn Hpres Hinj Hown Hch Hrss _] Hfree. destruct Hr as [Hf Hu Hwf Hfresh].
  destruct (free_head _ _ _ Hf) as [[Hv Hve] Hni].
  assert (forall p, owns (k_mem s) P p -> same_page (k_mem s) (first_stack (k_mem s) v) p) as Hsame.
  { intros p Hp. apply first_stack_same; [done|by apply (owns_page_ok _ _ _ Hwf Hp)|]. intros ->. eapply Hfresh; [by left|done]. }
  pose proof (untouched_frame _ _ _ Hsame) as Hut. split; [|done].
  assert (forall va, pte_of (k_mem (alloc_state i p0 v s)) P va = pte_of (k_mem s) P va) as Hpte by (intros; apply Hut).
  split; [|done|..|done|done].
  - split; [by apply alloc_state_free_ok|done|by apply frame_pt_wf with (k_mem s)|].
    intros p Hp Ho. apply (Hfresh p); [by right|]. by apply (frame_owns _ _ _ Hsame).
  - intros k Hk. rewrite Hpte. by apply Hpres.
  - intros j k Hjk. rewrite !Hpte. by apply Hinj.
  - intros k Hk. rewrite Hpte. by apply Hown.
  - cbn. apply list_lookup_insert_eq. by eapply lookup_lt_Some.
Qed.

(** ** Files *)

(** How many descriptors refer to the file [f]. *)
Definition uses (ofile : list (option nat)) (f : nat) : Z := Z.of_nat (length (filter (fun o => o = Some f) ofile)).

(** [F] are the files [F0] with a reference more for each descriptor. *)
Definition refs_added (ofile : list (option nat)) (F0 F : list file) : Prop :=
  length F = length F0 /\ forall f x, F0 !! f = Some x -> F !! f = Some (set_f_ref (f_ref x + uses ofile f) x).

Lemma uses_app l l' f : uses (l ++ l') f = uses l f + uses l' f.
Proof. unfold uses. rewrite filter_app, length_app. lia. Qed.
Lemma uses_one o f : uses [o] f = if decide (o = Some f) then 1 else 0.
Proof. unfold uses. rewrite filter_cons, filter_nil. by case_decide. Qed.
Lemma uses_nonneg l f : 0 <= uses l f.
Proof. unfold uses. lia. Qed.

Lemma refs_added_snoc l F0 F o : refs_added l F0 F ->
  match o with
  | None => refs_added (l ++ [None]) F0 F
  | Some f => forall x, F !! f = Some x -> refs_added (l ++ [Some f]) F0 (<[f := set_f_ref (f_ref x + 1) x]> F)
  end.
Proof.
  intros [Hlen HF]. destruct o as [f|].
  - intros x Hx. split; [by rewrite length_insert|]. intros g y Hy. rewrite uses_app, uses_one. specialize (HF g y Hy).
    destruct (decide (f = g)) as [->|Hne].
    + rewrite list_lookup_insert_eq, decide_True by (done || by eapply lookup_lt_Some). rewrite HF in Hx. injection Hx as <-.
      destruct y. unfold set_f_ref. cbn. do 2 f_equal. lia.
    + rewrite list_lookup_insert_ne, decide_False by congruence. rewrite HF. do 2 f_equal. lia.
  - split; [done|]. intros g y Hy. rewrite uses_app, uses_one, (HF g y Hy), decide_False by done. do 2 f_equal. lia.
Qed.

Lemma wp_filedup f x Q s : L_ftable ∉ k_held s -> k_file s !! f = Some x -> 1 <= f_ref x ->
  Q f (set_k_file (<[f := set_f_ref (f_ref x + 1) x]> (k_file s)) s) -> wp (filedup f) Q s.
Proof.
  intros Hh Hx Hr HQ. unfold filedup. wp_step. apply wp_acquire; [done|]. wp_step. eapply wp_get_file; [exact Hx|].
  rewrite (proj2 (Z.ltb_ge _ _)) by lia. wp_step. unfold put_file. wp_step. ksimpl. wp_step. eapply wp_release; [done|]. wp_step. by destruct s.
Qed.

Lemma wp_dup_files c np pr q Q s : c <> np -> k_proc s !! c = Some pr -> k_proc s !! np = Some q -> k_held s = [] ->
  p_ofile q = replicate (Z.to_nat NOFILE) None -> length (p_ofile pr) = Z.to_nat NOFILE ->
  (forall j f, p_ofile pr !! j = Some (Some f) -> exists x, k_file s !! f = Some x /\ 1 <= f_ref x) ->
  (forall F, refs_added (p_ofile pr) (k_file s) F -> Q tt (set_k_file F (set_k_proc (<[np := set_p_ofile (p_ofile pr) q]> (k_proc s)) s))) ->
  wp (dup_files c np) Q s.
Proof.
  intros Hne Hpr Hq Hh Hq0 Hlen Hfiles HQ. unfold dup_files. wp_step.
  assert (np < length (k_proc s))%nat as Hnp by (by eapply lookup_lt_Some).
  apply (wp_for _ _ (fun pre _ s' => exists F, refs_added (take (length pre) (p_ofile pr)) (k_file s) F /\
    s' = set_k_file F (set_k_proc (<[np := set_p_ofile (take (length pre) (p_ofile pr) ++ replicate (Z.to_nat NOFILE - length pre) None) q]> (k_proc s)) s))).
  - intros pre j suf [] s' Hseq (F & HF & ->). apply seq_prefix in Hseq as [Ej Hj]. rewrite length_app, Nat.add_1_r. set (n := length pre) in *. clearbody n. subst j.
    destruct (lookup_lt_is_Some_2 (p_ofile pr) n) as [o Ho]; [lia|].
    wp_step. eapply wp_get_proc; [ksimpl; by rewrite list_lookup_insert_ne by congruence|]. wp_step. eapply wp_the; [exact Ho|].
    pose proof (refs_added_snoc _ _ _ o HF) as HF'.
    assert (Z.to_nat NOFILE - n = S (Z.to_nat NOFILE - S n))%nat as En by lia.
    assert (take n (p_ofile pr) ++ replicate (Z.to_nat NOFILE - n) None = take n (p_ofile pr) ++ None :: replicate (Z.to_nat NOFILE - S n) None) as Erep by (by rewrite En).
    assert (length (take n (p_ofile pr)) = n) as Etake by (rewrite length_take; lia).
    destruct o as [f|].
    + destruct (Hfiles n f Ho) as (x & Hx & Hrx). destruct HF as [HFl HF]. pose proof (HF f x Hx) as Hfx.
      pose proof (uses_nonneg (take n (p_ofile pr)) f).
      wp_step. eapply (wp_filedup f); [ksimpl; rewrite Hh; apply not_elem_of_nil|ksimpl; exact Hfx|cbn; lia|]. wp_step.
      eapply wp_upd_proc; [ksimpl; by apply list_lookup_insert_eq|]. wp_step. eexists. split; [rewrite (take_S_r _ _ _ Ho); by apply HF'|].
      ksimpl. rewrite list_insert_insert_eq. unfold set_p_ofile. ksimpl. rewrite Erep.
      replace (<[n:=Some f]> (take n (p_ofile pr) ++ None :: replicate (Z.to_nat NOFILE - S n) None))
        with (take (S n) (p_ofile pr) ++ replicate (Z.to_nat NOFILE - S n) None); [done|].
      rewrite insert_app_r_alt by lia. replace (n - length (take n (p_ofile pr)))%nat with 0%nat by lia.
      cbn [insert list_insert]. by rewrite (take_S_r _ _ _ Ho), <-app_assoc.
    + wp_step. exists F. split; [by rewrite (take_S_r _ _ _ Ho)|]. rewrite Erep. by rewrite (take_S_r _ _ _ Ho), <-app_assoc.
  - intros [] s' (F & HF & ->). wp_step. rewrite length_seq, Nat.sub_diag, app_nil_r in *. rewrite take_ge in * by lia. by apply HQ.
  - exists (k_file s). split; [split; [done|]|].
    + intros f x Hx. cbn. rewrite Hx. f_equal. unfold uses. cbn. rewrite Z.add_0_r. by destruct x.
    + rewrite take_0. cbn [app length]. rewrite Nat.sub_0_r, <-Hq0. replace (set_p_ofile (p_ofile q) q) with q by (by destruct q).
      rewrite list_insert_id by exact Hq. by destruct s.
Qed.

Lemma wp_idup w x Q s : L_icache ∉ k_held s -> k_inode s !! w = Some x ->
  Q w (set_k_inode (<[w := set_i_ref (i_ref x + 1) x]> (k_inode s)) s) -> wp (idup w) Q s.
Proof.
  intros Hh Hx HQ. unfold idup. wp_step. apply wp_acquire; [done|]. wp_step. eapply wp_upd_inode; [exact Hx|]. wp_step.
  eapply wp_release; [done|]. wp_step. by destruct s.
Qed.

(** ** The name *)

(** The bytes before the terminating zero. *)
Fixpoint name_of (l : list Z) : list Z :=
  match l with [] => [] | c :: l => if c =? 0 then [] else c :: name_of l end.

Lemma name_copy_name_of n s t : (n < length s)%nat -> length t = length s -> 0 ∈ take (S n) t -> name_of (name_copy n s t) = name_of t.
Proof.
  revert s t. induction n as [|n IH]; intros [|x s] [|c t] Hn Hl Hz; cbn [length] in *; try lia; cbn [name_copy name_of].
  - apply list_elem_of_singleton in Hz. subst c. done.
  - destruct (Z.eqb_spec c 0) as [->|Hc]; [done|]. f_equal. apply IH; [lia|lia|].
    cbn in Hz. apply elem_of_cons in Hz as [|Hz]; [congruence|done].
Qed.

(** ** Memory *)

(** The trap frame of the child, in its kernel stack [v]. *)
Definition TF (v : Z) : Z := v + KSTACKSIZE - TFSIZE.
Definition child_mem (m : mem) (v tf : Z) : mem := st (memmove m (TF v) tf TFSIZE) (TF v + tf_eax) 0.

Lemma child_mem_out m v tf a : a < TF v \/ v + PGSIZE <= a -> ldb (child_mem m v tf) a = ldb m a.
Proof.
  intros Ha. unfold child_mem, TF, TFSIZE, KSTACKSIZE, tf_eax in *. unfold PGSIZE in *. rewrite ldb_st_ne by lia. apply ldb_memmove_out; lia.
Qed.

Lemma child_mem_tf m v tf o : 0 <= o < TFSIZE ->
  ldb (child_mem m v tf) (TF v + o) = if decide (tf_eax <= o < tf_eax + 4) then 0 else ldb m (tf + o).
Proof.
  intros Ho. unfold child_mem. case_decide as Hd.
  - unfold st. rewrite !ldb_stb. unfold tf_eax in *. assert (o = 28 \/ o = 29 \/ o = 30 \/ o = 31) as [-> | [-> | [-> | ->]]] by lia;
      repeat (case_decide; try lia); reflexivity.
  - rewrite ldb_st_ne by lia. rewrite ldb_memmove by (unfold TFSIZE; lia). rewrite decide_True by lia. f_equal. lia.
Qed.

Lemma child_mem_same m v tf p : v mod PGSIZE = 0 -> p mod PGSIZE = 0 -> p <> v -> same_page m (child_mem m v tf) p.
Proof. intros Hv Hp Hne a Ha. apply child_mem_out. unfold TF, KSTACKSIZE, TFSIZE. destruct (page_disjoint v p Hv Hp); [done|klia..]. Qed.

Section fork_mem.
Context (s s2 : kstate) (P d : Z) (i : nat) (p0 : proc) (own : nat -> list Z) (n : nat) (v : Z) (l used l' : list Z) (tf : Z).
Context (Hpre : cow_pre s P i p0 own n (v :: l)) (Hfree : (10 + (n + 1023) / 1024 <= length l)%nat).
Context (Hcf : cow_fork (alloc_state i p0 v s) s2 P d i (embryo p0 (k_nextpid s) v) own n l used l').

Let m3 := child_mem (k_mem s2) v tf.

Lemma fork_head : page_ok v /\ v ∉ l /\ ~ owns (k_mem s) P v.
Proof.
  destruct (cp_ready _ _ _ _ _ _ _ Hpre) as [Hf _ _ Hfresh]. destruct (free_head _ _ _ Hf). split_and!; [done|done|]. apply Hfresh. by left.
Qed.

Lemma fork_owns1 p : owns (k_mem (alloc_state i p0 v s)) P p <-> owns (k_mem s) P p.
Proof. apply (ut_owns _ _ _ (proj2 (cow_pre_alloc _ _ _ _ _ _ _ _ Hpre Hfree))). Qed.
Lemma fork_pte1 va : pte_of (k_mem (alloc_state i p0 v s)) P va = pte_of (k_mem s) P va.
Proof. apply (ut_pte _ _ _ (proj2 (cow_pre_alloc _ _ _ _ _ _ _ _ Hpre Hfree))). Qed.

Lemma used_l p : p ∈ used -> p ∈ l.
Proof. intros Hp. rewrite (cf_list _ _ _ _ _ _ _ _ _ _ _ Hcf). apply elem_of_app. by left. Qed.

(** The kernel stack is as [allocproc] left it. *)
Lemma fork_page_v : same_page (first_stack (k_mem s) v) (k_mem s2) v.
Proof.
  destruct fork_head as ([Hv _] & Hvl & Ho). apply (cf_frame _ _ _ _ _ _ _ _ _ _ _ Hcf v Hv).
  - by rewrite fork_owns1.
  - intros Hu. by apply Hvl, used_l.
Qed.

(** A page that is neither free nor part of the page table keeps its bytes. *)
Lemma fork_same p : p mod PGSIZE = 0 -> ~ owns (k_mem s) P p -> p ∉ v :: l -> same_page (k_mem s) m3 p.
Proof.
  intros Hp Ho [Hpv Hpl]%not_elem_of_cons. destruct fork_head as ([Hv _] & _).
  eapply same_page_trans; [by apply (first_stack_same _ v)|]. eapply same_page_trans; [|by apply child_mem_same].
  apply (cf_frame _ _ _ _ _ _ _ _ _ _ _ Hcf p Hp); [by rewrite fork_owns1|]. intros Hu. by apply Hpl, used_l.
Qed.

Lemma fork_tables : untouched (k_mem s2) m3 P /\ untouched (k_mem s2) m3 d.
Proof.
  destruct fork_head as ([Hv _] & Hvl & Ho). pose proof (cf_tables _ _ _ _ _ _ _ _ _ _ _ Hcf) as [HP Hd _].
  split; apply untouched_frame; intros p Hp; apply child_mem_same; try done.
  - by apply (owns_page_ok _ _ _ (pr_wf _ _ _ HP) Hp).
  - intros ->. apply Ho. apply fork_owns1. by apply (cf_owns_l _ _ _ _ _ _ _ _ _ _ _ Hcf).
  - by apply (owns_page_ok _ _ _ (pr_wf _ _ _ Hd) Hp).
  - intros ->. apply Hvl, used_l. by apply (cf_owns_r _ _ _ _ _ _ _ _ _ _ _ Hcf).
Qed.

(** Parent and child read what the parent read, and neither can write. *)
Lemma fork_uread va : frames (k_mem s) P (fun f => page_ok f /\ ~ owns (k_mem s) P f /\ f ∉ v :: l) -> 0 <= va < Z.of_nat n * PGSIZE ->
  uread m3 d va = uread (k_mem s) P va /\ uread m3 P va = uread (k_mem s) P va /\
  forall b, uwrite m3 d va b = None /\ uwrite m3 P va b = None.
Proof.
  intros Hfr Hva. pose proof (cp_n _ _ _ _ _ _ _ Hpre). assert (0 <= va < two32) as Hva' by klia. destruct fork_tables as [HutP Hutd].
  assert (pte_of m3 P va = readonly (pte_of (k_mem s) P va)) as El.
  { rewrite (ut_pte _ _ _ HutP), (cf_pte_l _ _ _ _ _ _ _ _ _ _ _ Hcf va Hva'), decide_True by lia. by rewrite fork_pte1. }
  assert (pte_of m3 d va = readonly (pte_of (k_mem s) P va)) as Er.
  { rewrite (ut_pte _ _ _ Hutd), (cf_pte_r _ _ _ _ _ _ _ _ _ _ _ Hcf va Hva'), decide_True by lia. by rewrite fork_pte1. }
  pose proof (pte_of_range (k_mem s) P va).
  assert (forall p, p mod PGSIZE = 0 -> page_ok p /\ ~ owns (k_mem s) P p /\ p ∉ v :: l -> same_page (k_mem s) m3 p) as Hsame by (intros p Hp (_ & ? & ?); by apply fork_same).
  split_and!.
  - eapply uread_same; [klia|..]; [by rewrite Er; auto using readonly_P, readonly_U, readonly_addr..|exact Hfr|done].
  - eapply uread_same; [klia|..]; [by rewrite El; auto using readonly_P, readonly_U, readonly_addr..|exact Hfr|done].
  - intros b. unfold uwrite. by rewrite El, Er, readonly_W, !andb_false_r.
Qed.
End fork_mem.

(** ** fork *)

(** The running process [c] can fork: [i] is the first unused entry of the
    table, [v] and [l] the free pages; its pages are present and have room
    in the reverse map, its open files and its directory are in use. *)
Record forkable (s : kstate) (c : nat) (pr : proc) (i : nat) (p0 : proc) (own : nat -> list Z) (v : Z) (l : list Z) (w : nat) (x : inode) : Prop := {
  fb_running : running s c pr [];
  fb_table : length (k_proc s) = Z.to_nat NPROC;
  fb_first : first_unused (k_proc s) i;
  fb_cow : cow_pre s (p_pgdir pr) i p0 own (npages (p_sz pr)) (v :: l);
  fb_sz : p_sz pr <= KERNBASE;
  fb_free : (10 + (npages (p_sz pr) + 1023) / 1024 <= length l)%nat;
  fb_frames : frames (k_mem s) (p_pgdir pr) (fun f => page_ok f /\ ~ owns (k_mem s) (p_pgdir pr) f /\ f ∉ v :: l);
  fb_kstack : p_kstack pr mod PGSIZE = 0 /\ ~ owns (k_mem s) (p_pgdir pr) (p_kstack pr) /\ p_kstack pr ∉ v :: l;
  fb_tf : p_tf pr = TF (p_kstack pr);
  fb_ofile : length (p_ofile pr) = Z.to_nat NOFILE /\ forall j f, p_ofile pr !! j = Some (Some f) -> exists y, k_file s !! f = Some y /\ 1 <= f_ref y;
  fb_cwd : p_cwd pr = Some w /\ k_inode s !! w = Some x;
  fb_name : length (p_name pr) = Z.to_nat PNAMESIZE /\ 0 ∈ p_name pr;
  fb_unused : p_ofile p0 = replicate (Z.to_nat NOFILE) None /\ length (p_name p0) = Z.to_nat PNAMESIZE;
}.

(** [q] is the child of the process [pr] with number [c] in the state [s']. *)
Record child_of (s s' : kstate) (c : nat) (pr q : proc) (w : nat) (x : inode) : Prop := {
  co_state : p_state q = RUNNABLE;
  co_pid : p_pid q = k_nextpid s;
  co_parent : p_parent q = Some c;
  co_sz : p_sz q = p_sz pr;
  co_ofile : p_ofile q = p_ofile pr;
  co_cwd : p_cwd q = p_cwd pr;
  co_name : name_of (p_name q) = name_of (p_name pr);
  (* it returns 0 to the instruction at which the parent called *)
  co_tf : forall o, 0 <= o < TFSIZE ->
    ldb (k_mem s') (p_tf q + o) = if decide (tf_eax <= o < tf_eax + 4) then 0 else ldb (k_mem s) (p_tf pr + o);
  co_parent_tf : forall o, 0 <= o < TFSIZE -> ldb (k_mem s') (p_tf pr + o) = ldb (k_mem s) (p_tf pr + o);
  co_trapret : ld (k_mem s') (p_tf q - 4) = u32 sym_trapret;
  co_forkret : ld (k_mem s') (p_context q + ctx_eip) = u32 sym_forkret;
  co_memory : forall va, 0 <= va < Z.of_nat (npages (p_sz pr)) * PGSIZE ->
    uread (k_mem s') (p_pgdir q) va = uread (k_mem s) (p_pgdir pr) va /\
    uread (k_mem s') (p_pgdir pr) va = uread (k_mem s) (p_pgdir pr) va /\
    forall b, uwrite (k_mem s') (p_pgdir q) va b = None /\ uwrite (k_mem s') (p_pgdir pr) va b = None;
  co_files : refs_added (p_ofile pr) (k_file s) (k_file s');
  co_inodes : k_inode s' = <[w := set_i_ref (i_ref x + 1) x]> (k_inode s);
  co_nextpid : k_nextpid s' = s32 (k_nextpid s + 1);
  co_held : k_held s' = [] /\ k_cur s' = k_cur s;
}.

(** What the scheduler and [forkret] find on the kernel stack. *)
Lemma first_stack_words m v : ld (first_stack m v) (TF v - 4) = u32 sym_trapret /\
  ld (first_stack m v) (TF v - 4 - CTXSIZE + ctx_eip) = u32 sym_forkret.
Proof.
  unfold first_stack, TF, CTXSIZE, ctx_eip. split; [|apply ld_st_eq].
  by rewrite ld_st_ne, ld_memset_out, ld_st_eq by lia.
Qed.

Lemma fork_words s s2 P d i p0 own n v l used l' tf : cow_pre s P i p0 own n (v :: l) -> (10 + (n + 1023) / 1024 <= length l)%nat ->
  cow_fork (alloc_state i p0 v s) s2 P d i (embryo p0 (k_nextpid s) v) own n l used l' ->
  ld (child_mem (k_mem s2) v tf) (TF v - 4) = u32 sym_trapret /\
  ld (child_mem (k_mem s2) v tf) (TF v - 4 - CTXSIZE + ctx_eip) = u32 sym_forkret.
Proof.
  intros Hpre Hfree Hcf. destruct (first_stack_words (k_mem s) v) as [<- <-].
  assert (forall a, v <= a -> a + 4 <= TF v -> ld (child_mem (k_mem s2) v tf) a = ld (first_stack (k_mem s) v) a) as H.
  { intros a Ha Hb. apply ld_ext. intros o Ho. rewrite child_mem_out by lia.
    apply (fork_page_v _ _ _ _ _ _ _ _ _ _ _ _ Hpre Hfree Hcf). unfold TF, TFSIZE, KSTACKSIZE in *. klia. }
  split; apply H; unfold TF, TFSIZE, KSTACKSIZE, CTXSIZE, ctx_eip; lia.
Qed.

(** After [copyuvm]: the rest of [fork]. *)
Lemma wp_fork_rest s s2 c pr i p0 own v l used l' w x d Q :
  forkable s c pr i p0 own v l w x ->
  cow_fork (alloc_state i p0 v s) s2 (p_pgdir pr) d i (embryo p0 (k_nextpid s) v) own (npages (p_sz pr)) l used l' -> d <> 0 ->
  (forall q s', k_proc s' = <[i := q]> (k_proc s) -> child_of s s' c pr q w x -> Q (k_nextpid s) s') ->
  wp (upd_proc i (set_p_pgdir d);;
      if d =? 0 then
        x ← get_proc i; kfree (p_kstack x);; upd_proc i (set_p_kstack 0);; upd_proc i (set_p_state UNUSED);; mret (-1)
      else
        p ← get_proc c;
        upd_proc i (set_p_sz (p_sz p));;
        upd_proc i (set_p_parent (Some c));;
        x ← get_proc i;
        modify_mem (fun m => memmove m (p_tf x) (p_tf p) TFSIZE);;
        store (p_tf x + tf_eax) 0;;
        dup_files c i;;
        j ← the (p_cwd p);
        j ← idup j;
        upd_proc i (set_p_cwd (Some j));;
        upd_proc i (fun x => set_p_name (set_name (p_name p) (p_name x)) x);;
        x ← get_proc i;
        acquire L_ptable;;
        upd_proc i (set_p_state RUNNABLE);;
        release L_ptable;;
        mret (p_pid x)) Q s2.
Proof.
  intros Hfb Hcf Hd HQ. destruct Hfb as [[Hcur Hpr Hst Hh] Htab Hfirst Hcow Hsz Hfree Hfr (Hk0 & Hko & Hkl) Htf (Hol & Hof) [Hw Hx] (Hnl & Hn0) (Hu0 & Hun)].
  destruct Hfirst as [(p0' & Hp0 & Hunused) _].
  pose proof (cp_child _ _ _ _ _ _ _ Hcow) as Hp0'. assert (p0' = p0) as -> by congruence.
  assert (c <> i) as Hci by (intros ->; congruence). assert (i < length (k_proc s))%nat as Hi by (by eapply lookup_lt_Some).
  pose proof (cf_proc _ _ _ _ _ _ _ _ _ _ _ Hcf) as Hps. destruct (cf_rest _ _ _ _ _ _ _ _ _ _ _ Hcf) as (sx & Hvm & Hs2).
  unfold alloc_state in Hps. ksimpl. unfold kalloc_state in Hps. ksimpl. rewrite list_insert_insert_eq in Hps.
  set (q0 := add_rss _ _) in *.
  assert (k_file s2 = k_file s /\ k_inode s2 = k_inode s /\ k_held s2 = [] /\ k_cur s2 = k_cur s /\ k_nextpid s2 = s32 (k_nextpid s + 1)) as (Ef & Ei & Eh & Ec & En).
  { destruct Hvm as (f & nf & m & g & r & ps & ->). rewrite Hs2. unfold alloc_state, kalloc_state. ksimpl. by rewrite Hh. }
  assert (forall y, <[i := y]> (k_proc s) !! i = Some y) as Hlook by (intros; by apply list_lookup_insert_eq).
  assert (forall y, <[i := y]> (k_proc s) !! c = Some pr) as Hlookc by (intros; by rewrite list_lookup_insert_ne by congruence).
  wp_step. eapply wp_upd_proc; [rewrite Hps; apply Hlook|]. rewrite (proj2 (Z.eqb_neq _ _)) by done.
  rewrite Hps, list_insert_insert_eq.
  wp_step. eapply wp_get_proc; [ksimpl; apply Hlookc|].
  wp_step. eapply wp_upd_proc; [ksimpl; apply Hlook|]. ksimpl. rewrite list_insert_insert_eq.
  wp_step. eapply wp_upd_proc; [ksimpl; apply Hlook|]. ksimpl. rewrite list_insert_insert_eq.
  wp_step. eapply wp_get_proc; [ksimpl; apply Hlook|].
  wp_step. apply wp_modify_mem. wp_step. apply wp_store. ksimpl.
  wp_step. eapply (wp_dup_files c i pr); [done|ksimpl; apply Hlookc|ksimpl; apply Hlook|ksimpl; exact Eh|exact Hu0|exact Hol|ksimpl; by rewrite Ef|].
  intros F HF. ksimpl. rewrite list_insert_insert_eq. rewrite Ef in HF.
  wp_step. eapply wp_the; [exact Hw|]. wp_step. eapply (wp_idup w); [ksimpl; rewrite Eh; apply not_elem_of_nil|ksimpl; by rewrite Ei|].
  wp_step. eapply wp_upd_proc; [ksimpl; apply Hlook|]. ksimpl. rewrite list_insert_insert_eq.
  wp_step. eapply wp_upd_proc; [ksimpl; apply Hlook|]. ksimpl. rewrite list_insert_insert_eq.
  wp_step. eapply wp_get_proc; [ksimpl; apply Hlook|]. wp_step. apply wp_acquire; [ksimpl; rewrite Eh; apply not_elem_of_nil|].
  wp_step. eapply wp_upd_proc; [ksimpl; apply Hlook|]. ksimpl. rewrite list_insert_insert_eq. wp_step. eapply wp_release; [ksimpl; reflexivity|].
  wp_step. change (p_pid q0) with (k_nextpid s). change (p_tf q0) with (TF v).
  destruct (fork_words _ _ _ _ _ _ _ _ _ _ _ _ (p_tf pr) Hcow Hfree Hcf) as [Htr Hfk].
  match goal with |- Q _ ?s3 => apply (HQ (set_p_state RUNNABLE (set_p_name (set_name (p_name pr) (p_name q0))
    (set_p_cwd (Some w) (set_p_ofile (p_ofile pr) (set_p_parent (Some c) (set_p_sz (p_sz pr) (set_p_pgdir d q0))))))) s3) end; [by ksimpl|].
  destruct (fork_head _ _ _ _ _ _ _ _ Hcow) as ([Hv0 _] & _).
  assert (forall o, 0 <= o < TFSIZE -> p_kstack pr <= p_tf pr + o < p_kstack pr + PGSIZE) as Hin.
  { intros o Ho. rewrite Htf. unfold TF, TFSIZE, KSTACKSIZE in *. klia. }
  assert (forall o, 0 <= o < TFSIZE -> ldb (child_mem (k_mem s2) v (p_tf pr)) (p_tf pr + o) = ldb (k_mem s) (p_tf pr + o)) as Htfs.
  { intros o Ho. apply (fork_same _ _ _ _ _ _ _ _ _ _ _ _ (p_tf pr) Hcow Hfree Hcf (p_kstack pr)); [done..|by apply Hin]. }
  split; ksimpl; fold (child_mem (k_mem s2) v (p_tf pr)); try done.
  - unfold set_name. apply name_copy_name_of; [|by rewrite Hnl|].
    + change (p_name q0) with (p_name p0). rewrite Hun. unfold PNAMESIZE. lia.
    + rewrite take_ge; [done|]. rewrite Hnl. unfold PNAMESIZE. lia.
  - intros o Ho. change (p_tf q0) with (TF v). rewrite child_mem_tf by done. case_decide; [done|].
    rewrite <-(Htfs o Ho). symmetry. apply (child_mem_same _ v (p_tf pr) (p_kstack pr)); [done|done|set_solver|by apply Hin].
  - intros va Hva. by apply (fork_uread _ _ _ _ _ _ _ _ _ _ _ _ (p_tf pr) Hcow Hfree Hcf).
  - by rewrite Ei.
Qed.

(** C11: fork.  When the parent can fork, [fork] returns the new process
    number; the first unused entry of the table is now its child and the
    other processes are as before.  The child can be scheduled, and when it
    is, it goes through [forkret] to [trapret] and returns 0 from the same
    call; it has the parent's registers, size, name, open files and directory,
    each with one reference more for each use.  Parent and child both read
    what the parent read before, and every write of either faults.  With a
    full process table [fork] returns -1 and changes nothing. *)
Theorem fork_correct s c pr i p0 own v l w x :
  (forkable s c pr i p0 own v l w x ->
   wp fork (fun r s' => r = k_nextpid s /\ exists q, k_proc s' = <[i := q]> (k_proc s) /\ child_of s s' c pr q w x) s) /\
  (k_cur s = Some c -> k_held s = [] -> length (k_proc s) = Z.to_nat NPROC ->
   (forall j p, k_proc s !! j = Some p -> p_state p <> UNUSED) -> fork s = Ok (-1, s)).
Proof.
  split.
  - intros Hfb. pose proof Hfb as [[Hcur Hpr _ Hh] Htab Hfirst Hcow Hsz Hfree _ _ _ _ _ _ _].
    pose proof (cp_child _ _ _ _ _ _ _ Hcow) as Hp0. unfold fork. wp_step. eapply wp_curproc; [exact Hcur|].
    wp_step. eapply wp_allocproc; [done|done|done|exact Hp0|apply (pr_free _ _ _ (cp_ready _ _ _ _ _ _ _ Hcow))|].
    fold (alloc_state i p0 v s). destruct Hfirst as [(p0' & Hp0' & Hun) _]. assert (p0' = p0) as -> by congruence.
    assert (c <> i) as Hci. { intros ->. destruct Hfb as [[_ Hpr' Hrun _] _ _ _ _ _ _ _ _ _ _ _ _]. congruence. }
    wp_step. eapply wp_get_proc; [unfold alloc_state, kalloc_state; ksimpl; by rewrite list_lookup_insert_ne|].
    wp_step. destruct (cow_pre_alloc _ _ _ _ _ _ _ _ Hcow Hfree) as [Hcow1 _].
    eapply wp_copyuvm; [done|exact Hcow1|]. intros d s2 used l' Hcf Hd.
    eapply (wp_fork_rest s s2 c pr i p0 own v l used l' w x d); [done..|].
    intros q s' Hq Hchild. split; [done|]. by exists q.
  - intros Hcur Hh Htab Hfull. enough (wp fork (fun r s' => r = -1 /\ s' = s) s) as (r & s' & -> & -> & ->)%wp_run by done.
    unfold fork. wp_step. eapply wp_curproc; [exact Hcur|]. wp_step. unfold allocproc. wp_step. apply wp_acquire; [rewrite Hh; apply not_elem_of_nil|].
    wp_step. apply wp_for_none.
    { intros j Hj Q' HQ'. apply elem_of_seq in Hj. destruct (lookup_lt_is_Some_2 (k_proc s) j) as [p Hp]; [lia|].
      wp_step. eapply wp_get_proc; [exact Hp|]. wp_step. rewrite bool_decide_false by (by eapply Hfull). done. }
    wp_step. eapply wp_release; [done|]. do 2 wp_step. split; [done|]. by destruct s.
Qed.
End fork.

(** ** An instance *)

#[local] Existing Instance img.

(** The process of the sample state, with a kernel stack, an open file, a
    directory and a name. *)
Definition parent0 : proc :=
  set_p_name (115 :: 104 :: replicate 14 0) (set_p_cwd (Some 0%nat) (set_p_ofile (Some 0%nat :: replicate 15 None)
    (set_p_tf (TF 0x80310000) (set_p_kstack 0x80310000 proc0)))).
Definition unused0 : proc := set_p_name (replicate 16 0) unused_proc.
Definition fork_state : kstate :=
  set_k_file (set_f_ref 1 file0 :: replicate 99 file0) (set_k_proc (parent0 :: replicate 63 unused0) state0).

Lemma fork_state_forkable : forkable fork_state 0 parent0 1 unused0 (fun _ => [table0]) 0x80303000 (tail free0) 0 inode0.
Proof.
  destruct sample_cow_pre as [[Hf Hu Hwf Hfresh] Hn Hp Hi Ho _ _ _]. split.
  - split; reflexivity.
  - reflexivity.
  - split; [by exists unused0|]. intros [|j] p Hj Hp0; [|lia]. injection Hp0 as <-. done.
  - split; [|exact Hn|exact Hp|exact Hi|exact Ho|reflexivity|done|apply Nat.leb_le; reflexivity].
    destruct Hf. by split.
  - done.
  - apply Nat.leb_le. reflexivity.
  - apply sample_frames, sample_frame0.
  - split; [reflexivity|]. change (~ owns mem0 pgdir0 0x80310000 /\ 0x80310000 ∉ free0). split.
    + intros Hown%sample_owns. unfold pgdir0, table0 in Hown. lia.
    + intros (k & Hk & E)%sample_free. unfold pgdir0 in E. klia.
  - reflexivity.
  - split; [reflexivity|]. intros [|j] f Hj; [injection Hj as <-; by exists (set_f_ref 1 file0)|].
    change (replicate 15 (None : option nat) !! j = Some (Some f)) in Hj. apply lookup_replicate in Hj as [? ?]. done.
  - by split.
  - split; [reflexivity|]. by apply list_elem_of_lookup_2 with 2%nat.
  - by split.
Qed.

Lemma fork_correct_witness :
  wp fork (fun r s' => r = 2 /\ exists q, k_proc s' !! 1%nat = Some q /\ p_parent q = Some 0%nat /\ p_ofile q = p_ofile parent0 /\
    (forall va, 0 <= va < PGSIZE -> uread (k_mem s') (p_pgdir q) va = uread mem0 pgdir0 va)) fork_state.
Proof.
  eapply wp_mono.
  - exact (proj1 (fork_correct fork_state 0 parent0 1 unused0 (fun _ => [table0]) 0x80303000 (tail free0) 0 inode0) fork_state_forkable).
  - intros r s' (-> & q & Hq & Hc). split; [reflexivity|]. exists q. split; [rewrite Hq; reflexivity|]. split; [apply Hc|]. split; [apply Hc|].
    intros va Hva. exact (proj1 (co_memory _ _ _ _ _ _ _ Hc va Hva)).
Defined.
