(* ===== verification/Reap.v ===== *)
(** * wait of a zombie

    [wait] of [proc.c] when a child has exited: the swap slots, the kernel
    stack and the address space of the child are released, its entry of the
    process table is free again. *)

From Stdlib Require Import ZArith Lia.
From stdpp Require Import base strings numbers gmap list.
From S2P Require Import Prelude Mmu Memory Kernel Sample Sleeplock Kmem Rmap PageTable Swap Kalloc Vm VmKernel SampleTables VmUser VmGrow VmShrink VmFree.
From S2P Require Import Sched Pipe Fs File Proc.

Section reap.
Context {I : KernelImage} {Iok : KernelImageOk I}.

(** ** Swap slots *)

(** The slots in the entries [js] of the table [t], and in all tables of
    [P]. *)
Definition slots_in (m : mem) (t : Z) (js : list Z) : list Z :=
  (fun j => Z.shiftr (PTE_ADDR (ld m (t + 4 * j))) 12) <$> filter (fun j => has (ld m (t + 4 * j)) PTE_S = true) js.
Definition slots_of (m : mem) (P : Z) (dirs : list Z) : list Z :=
  concat ((fun i => match table m P i with Some t => slots_in m t (seqZ 0 NPTENTRIES) | None => [] end) <$> dirs).
Definition swapped_slots (m : mem) (P : Z) : list Z := slots_of m P (seqZ 0 NPDENTRIES).

(** One sharer fewer. *)
Definition drop_at (sw : list swapslot) (slot : Z) : list swapslot :=
  match zlookup sw slot with Some w => zinsert slot (drop_sharer w) sw | None => sw end.
Definition drop_all (sw : list swapslot) (slots : list Z) : list swapslot := foldl drop_at sw slots.

Lemma zlookup_length {A} (sw : list A) i : is_Some (zlookup sw i) <-> 0 <= i < Z.of_nat (length sw).
Proof.
  unfold zlookup. destruct (Z.ltb_spec i 0); [split; [by intros []|lia]|]. rewrite lookup_lt_is_Some. lia.
Qed.
Lemma length_drop_all sw slots : length (drop_all sw slots) = length sw.
Proof.
  revert sw. induction slots as [|x slots IH]; intros sw; [done|]. unfold drop_all in *. cbn. rewrite IH. unfold drop_at.
  destruct (zlookup sw x); [apply length_zinsert|done].
Qed.

Lemma wp_clean_table t js Q sw s : (forall x, x ∈ slots_in (k_mem s) t js -> 0 <= x < Z.of_nat (length sw)) ->
  Q (inl tt) (set_k_swap (drop_all sw (slots_in (k_mem s) t js)) s) ->
  wp (for_ (R := unit) js (fun j (_ : unit) =>
        f ← load (t + 4 * j);
        if has f PTE_S then
          let slot := Z.shiftr (PTE_ADDR f) 12 in
          w ← get_swap slot;
          put_swap slot (drop_sharer w);;
          mret (Next tt)
        else mret (Next tt)) tt) Q (set_k_swap sw s).
Proof.
  intros Hin HQ. revert sw Hin HQ. induction js as [|j js IH]; intros sw Hin HQ; [apply wp_ret; exact HQ|]. cbn [for_].
  unfold slots_in in *. rewrite filter_cons in *. wp_step. wp_step. apply wp_load. ksimpl.
  destruct (has (ld (k_mem s) (t + 4 * j)) PTE_S) eqn:E.
  - rewrite decide_True in * by done. cbn [fmap list_fmap] in *. set (x := Z.shiftr _ 12) in *.
    destruct (proj2 (zlookup_length sw x) (Hin x ltac:(by left))) as [w Hw].
    wp_step. eapply wp_get_swap; [exact Hw|]. wp_step. unfold put_swap. wp_step. wp_step. ksimpl.
    assert (drop_at sw x = zinsert x (drop_sharer w) sw) as Ed by (unfold drop_at; by rewrite Hw).
    rewrite <-Ed. apply IH; [|exact HQ]. intros y Hy. rewrite Ed, length_zinsert. apply Hin. by right.
  - rewrite decide_False in * by done. wp_step. by apply IH.
Qed.

Lemma slots_of_cons m P i dirs :
  slots_of m P (i :: dirs) = match table m P i with Some t => slots_in m t (seqZ 0 NPTENTRIES) | None => [] end ++ slots_of m P dirs.
Proof. done. Qed.

Lemma wp_clean_proc_data P Q s : (forall x, x ∈ swapped_slots (k_mem s) P -> 0 <= x < Z.of_nat (length (k_swap s))) ->
  Q tt (set_k_swap (drop_all (k_swap s) (swapped_slots (k_mem s) P)) s) -> wp (clean_proc_data P) Q s.
Proof.
  unfold clean_proc_data, swapped_slots. intros Hin HQ. wp_step.
  assert (forall dirs sw, (forall x, x ∈ slots_of (k_mem s) P dirs -> 0 <= x < Z.of_nat (length sw)) ->
    forall Q', Q' (inl tt) (set_k_swap (drop_all sw (slots_of (k_mem s) P dirs)) s) ->
    wp (for_ (R := unit) dirs (fun i (_ : unit) =>
        e ← load (P + 4 * i);
        if has e PTE_P then
          let pte := P2V (PTE_ADDR e) in
          _ ← for_ (R := unit) (seqZ 0 NPTENTRIES) (fun j (_ : unit) =>
                f ← load (pte + 4 * j);
                if has f PTE_S then
                  let slot := Z.shiftr (PTE_ADDR f) 12 in
                  w ← get_swap slot;
                  put_swap slot (drop_sharer w);;
                  mret (Next tt)
                else mret (Next tt)) tt;
          mret (Next tt)
        else mret (Next tt)) tt) Q' (set_k_swap sw s)) as Hgen.
  { clear. induction dirs as [|i dirs IH]; intros sw Hin Q' HQ; [apply wp_ret; exact HQ|]. cbn [for_].
    rewrite slots_of_cons in *. wp_step. wp_step. apply wp_load. ksimpl. unfold table in *. cbv zeta in *.
    destruct (has (ld (k_mem s) (P + 4 * i)) PTE_P).
    - set (t := P2V _) in *. wp_step. apply wp_clean_table; [intros x Hx; apply Hin, elem_of_app; by left|]. wp_step.
      apply IH; [intros x Hx; rewrite length_drop_all; apply Hin, elem_of_app; by right|]. unfold drop_all in *. by rewrite <-foldl_app.
    - wp_step. apply IH; done. }
  replace s with (set_k_swap (k_swap s) s) at 1 by (by destruct s). apply Hgen; [done|]. wp_step. exact HQ.
Qed.

(** ** The address space while the rest of the kernel moves on *)

Lemma space_swap sw s P own l : space s P own l -> space (set_k_swap sw s) P own l.
Proof. intros [[[] ???] ???]. split; [by split; [split|..]|done..]. Qed.
Lemma space_proc ps s P own l : space s P own l -> space (set_k_proc ps s) P own l.
Proof. intros [[[] ???] ???]. split; [by split; [split|..]|done..]. Qed.

(** No user page of [P] is in the frame [p]. *)
Definition not_mapped s P (p : Z) : Prop :=
  forall k, (k < NPAGES)%nat -> has (upte s P k) PTE_P = true -> P2V (PTE_ADDR (upte s P k)) <> p.

Lemma space_kfree p s P own l : space s P own l -> page_ok p -> p ∉ l -> ~ owns (k_mem s) P p -> not_mapped s P p ->
  space (kfree_state p s) P own (p :: l) /\ untouched (k_mem s) (k_mem (kfree_state p s)) P.
Proof.
  intros [Hr Hpage Hinj Hown] Hp Hl Ho Hm. destruct (pt_ready_kfree _ _ _ _ Hr Hp Hl Ho) as [Hr' Hut]. split; [|done].
  assert (forall k, upte (kfree_state p s) P k = upte s P k) as E by (intros; apply Hut). split; [done|..].
  - intros k Hk. rewrite E, (ut_owns _ _ _ Hut). intros Hpk. destruct (Hpage k Hk Hpk) as (? & ? & ?). split_and!; [done| |done].
    apply not_elem_of_cons. split; [by apply Hm|done].
  - intros j k Hjk. rewrite !E. by apply Hinj.
  - intros k Hk. rewrite E, (ut_addr _ _ _ Hut). by apply Hown.
Qed.

(** ** The zombie *)

(** The zombie [q], entry [i] of the process table, and what it still has. *)
Record zombie s (i : nat) (q : proc) (own : nat -> list Z) l : Prop := {
  zb_proc : k_proc s !! i = Some q;
  zb_state : p_state q = ZOMBIE;
  zb_space : space s (p_pgdir q) own l;
  zb_stack : page_ok (p_kstack q) /\ p_kstack q ∉ l /\ ~ owns (k_mem s) (p_pgdir q) (p_kstack q) /\ not_mapped s (p_pgdir q) (p_kstack q);
  zb_slots : forall x, x ∈ swapped_slots (k_mem s) (p_pgdir q) -> 0 <= x < Z.of_nat (length (k_swap s));
}.

(** Its entry when it is gone. *)
Definition reaped (r : Z) (q : proc) : proc :=
  mk_proc (p_sz q) r (p_pgdir q) 0 UNUSED 0 None (p_tf q) (p_context q) (p_chan q) 0 (p_ofile q) (p_cwd q) (<[0%nat := 0]> (p_name q)).

(** The state without the zombie: the free list has grown by [freed]. *)
Record reaped_state s s' (i : nat) q own l freed : Prop := {
  rs_free : free_ok s' (freed ++ l);
  rs_in : forall p, p ∈ freed <-> p = p_kstack q \/ private s (p_pgdir q) own p;
  rs_same : forall p, p mod PGSIZE = 0 -> p ∉ freed -> same_page (k_mem s) (k_mem s') p;
  rs_owner : forall k, (k < NPAGES)%nat -> has (upte s (p_pgdir q) k) PTE_P = true ->
    mapped_by s' (PTE_ADDR (upte s (p_pgdir q) k) / PGSIZE) (own k);
  rs_proc : exists r, k_proc s' = <[i := reaped r q]> (k_proc s);
  rs_swap : k_swap s' = drop_all (k_swap s) (swapped_slots (k_mem s) (p_pgdir q));
}.

Lemma private_kfree p s P own : untouched (k_mem s) (k_mem (kfree_state p s)) P ->
  forall x, private (kfree_state p s) P own x <-> private s P own x.
Proof.
  intros Hut x. unfold private. assert (forall k, upte (kfree_state p s) P k = upte s P k) as E by (intros; apply Hut).
  rewrite (ut_owns _ _ _ Hut). by setoid_rewrite E.
Qed.
Lemma private_proc ps s P own x : private (set_k_proc ps s) P own x <-> private s P own x.
Proof. done. Qed.

(** The kernel stack, then the address space. *)
Lemma wp_free_stack_space {A} (rest : K A) i q own l Q s : zombie s i q own l ->
  (forall s' freed, free_ok s' (freed ++ l) -> (forall p, p ∈ freed <-> p = p_kstack q \/ private s (p_pgdir q) own p) ->
    (forall p, p mod PGSIZE = 0 -> p ∉ freed -> same_page (k_mem s) (k_mem s') p) ->
    (forall k, (k < NPAGES)%nat -> has (upte s (p_pgdir q) k) PTE_P = true -> mapped_by s' (PTE_ADDR (upte s (p_pgdir q) k) / PGSIZE) (own k)) ->
    (exists r, k_proc s' = <[i := set_p_rss r (set_p_kstack 0 q)]> (k_proc s)) -> vm_step s s' -> wp rest Q s') ->
  wp (kfree (p_kstack q);; upd_proc i (set_p_kstack 0);; freevm2 (p_pgdir q) i;; rest) Q s.
Proof.
  intros [Hq _ Hs (Hok & Hl & Ho & Hm) _] HQ. wp_step. set (v := p_kstack q) in *. set (P := p_pgdir q) in *.
  apply wp_kfree; [done|apply (sc_ready _ _ _ _ Hs)|].
  destruct (space_kfree v s P own l Hs Hok Hl Ho Hm) as [Hs1 Hut]. wp_step.
  eapply wp_upd_proc; [exact Hq|]. wp_step. assert (i < length (k_proc s))%nat as Hi by (by eapply lookup_lt_Some).
  eapply (wp_freevm2 P own (v :: l) i (set_p_kstack 0 q)); [by apply space_proc|ksimpl; by apply list_lookup_insert_eq|].
  set (s1 := set_k_proc _ _). assert (forall x, private s1 P own x <-> private s P own x) as Hpv by exact (private_kfree v s P own Hut).
  assert (forall k, upte s1 P k = upte s P k) as E by (intros k; exact (ut_pte _ _ _ Hut (Z.of_nat k * PGSIZE))).
  assert (vm_step s s1) as V1.
  { exists (k_freelist (kfree_state v s)), (k_nfree (kfree_state v s)), (k_mem (kfree_state v s)), (k_global_var s), (k_rmap s), (k_proc s1). by destruct s. }
  assert (k_proc s1 = <[i := set_p_kstack 0 q]> (k_proc s)) as E1 by reflexivity.
  assert (forall p, p mod PGSIZE = 0 -> p <> v -> same_page (k_mem s) (k_mem s1) p) as Hsame.
  { intros p Hp Hn a Ha. apply (kfree_state_mem_out v s a Hok). destruct Hok as [Hv _]. destruct (page_disjoint v p Hv Hp); [done|klia..]. }
  clearbody s1. intros s' freed [F In Same Own _ (r & Pr) V]. apply (HQ s' (freed ++ [v])).
  - by rewrite <-app_assoc.
  - intros p. rewrite elem_of_app, list_elem_of_singleton, In, Hpv. tauto.
  - intros p Hp Hn. rewrite elem_of_app, list_elem_of_singleton, In in Hn.
    eapply same_page_trans; [apply Hsame; tauto|apply Same; tauto].
  - intros k Hk. rewrite <-E. by apply Own.
  - exists r. by rewrite Pr, E1, list_insert_insert_eq.
  - by eapply vm_step_trans.
Qed.

Lemma zombie_swap sw s i q own l : zombie s i q own l -> length sw = length (k_swap s) -> zombie (set_k_swap sw s) i q own l.
Proof. intros [H1 H2 H4 H5 H6] E. split; [done|done|by apply space_swap|done|]. intros x Hx. ksimpl. rewrite E. by apply H6. Qed.

Lemma zombie_held h s i q own l : zombie s i q own l -> L_kmem ∉ h -> zombie (set_k_held h s) i q own l.
Proof.
  intros [H1 H2 [[[] Hk Hw Hf] H41 H42 H43] H5 H6] Hh. split; [exact H1|done| |exact H5|exact H6].
  split; [|exact H41|exact H42|exact H43]. split; [by split|by intros _|exact Hw|exact Hf].
Qed.

Lemma wp_reap i q own l h Q s : zombie s i q own l -> k_held s = L_ptable :: h ->
  (forall s' freed, reaped_state s s' i q own l freed -> k_held s' = h -> k_cur s' = k_cur s -> Q (p_pid q) s') ->
  wp (reap i) Q s.
Proof.
  intros Hz Hh HQ. pose proof (zb_proc _ _ _ _ _ Hz) as Hq. assert (i < length (k_proc s))%nat as Hi by (by eapply lookup_lt_Some).
  unfold reap. wp_step. eapply wp_get_proc; [exact Hq|]. wp_step.
  apply wp_clean_proc_data; [apply Hz|]. set (sw := drop_all _ _). pose proof (length_drop_all (k_swap s) (swapped_slots (k_mem s) (p_pgdir q))) as El.
  apply (wp_free_stack_space _ i q own l); [by apply zombie_swap|].
  intros s' freed F In Same Own (r & Pr) V.
  assert (k_held s' = L_ptable :: h /\ k_cur s' = k_cur s /\ k_swap s' = sw) as (Eh & Ec & Es) by (by destruct V as (? & ? & ? & ? & ? & ? & ->)).
  assert (i < length (k_proc s'))%nat as Hi' by (rewrite Pr; by rewrite length_insert). clear V.
  wp_step. eapply wp_upd_proc; [rewrite Pr; by apply list_lookup_insert_eq|]. ksimpl.
  do 4 (wp_step; eapply wp_upd_proc; [ksimpl; rewrite ?list_insert_insert_eq; by apply list_lookup_insert_eq|]; ksimpl; rewrite ?list_insert_insert_eq).
  wp_step. eapply wp_release; [exact Eh|]. wp_step. eapply (HQ _ freed); [|done|exact Ec].
  split; ksimpl.
  - destruct F as [F1 F2 F3 F4]. split; [exact F1|exact F2|exact F3|exact F4].
  - exact In.
  - exact Same.
  - exact Own.
  - exists r. rewrite Pr, list_insert_insert_eq. by destruct q.
  - exact Es.
Qed.

(** ** The scan *)

(** The loop leaves at [i], whatever the iterations before it collect. *)
Lemma wp_for_leaves {Ix A R} (pre suf : list Ix) i (body : Ix -> A -> K (ctl A R)) (Q : A + R -> kstate -> Prop) s :
  (forall j a, j ∈ pre -> forall Q' : ctl A R -> kstate -> Prop, (forall a', Q' (Next a') s) -> wp (body j a) Q' s) ->
  (forall a, wp (body i a) (fun c s' => match c with Next _ => False | Break a' => Q (inl a') s' | Return r => Q (inr r) s' end) s) ->
  forall a, wp (for_ (pre ++ i :: suf) body a) Q s.
Proof.
  intros Hpre Hi. induction pre as [|j pre IH]; intros a; cbn [app for_].
  - apply wp_bind. eapply wp_mono; [apply Hi|]. by intros [?|?|?] s'.
  - apply wp_bind, Hpre; [by left|]. intros a'. apply IH. intros j' b Hj'. apply Hpre. by right.
Qed.

(** [wait] of a process whose first exited child is entry [i]. *)
Lemma wp_wait_reaps c pr i q own l s :
  running s c pr [] -> length (k_proc s) = Z.to_nat NPROC -> zombie s i q own l -> p_parent q = Some c ->
  (forall j x, (j < i)%nat -> k_proc s !! j = Some x -> p_parent x = Some c -> p_state x <> ZOMBIE) ->
  wp wait (fun r s' => r = Done (p_pid q) /\ k_held s' = [] /\ k_cur s' = Some c /\
    exists freed, reaped_state s s' i q own l freed) s.
Proof.
  intros [Hc Hp Hr Hh] Hlen Hz Hpar Hfirst. pose proof (zb_proc _ _ _ _ _ Hz) as Hq.
  assert (i < Z.to_nat NPROC)%nat as Hi by (rewrite <-Hlen; by eapply lookup_lt_Some).
  unfold wait. wp_step. eapply wp_curproc; [exact Hc|]. wp_step. apply wp_acquire; [rewrite Hh; apply not_elem_of_nil|].
  unfold wait_locked. wp_step. replace (Z.to_nat NPROC) with (i + S (Z.to_nat NPROC - S i))%nat by lia.
  rewrite seq_app. cbn [seq]. apply wp_for_leaves.
  - intros j a [_ Hj]%elem_of_seq Q' HQ. destruct (lookup_lt_is_Some_2 (k_proc s) j) as [x Hx]; [lia|].
    unfold wait_step. wp_step. eapply wp_get_proc; [exact Hx|]. case_bool_decide as Hpx; cbn [negb]; [|by apply wp_ret].
    rewrite bool_decide_false by (by apply (Hfirst j); [lia|..]). by apply wp_ret.
  - intros a. unfold wait_step. wp_step. eapply wp_get_proc; [exact Hq|]. rewrite bool_decide_true by done. cbn [negb].
    rewrite bool_decide_true by apply Hz. wp_step. eapply (wp_reap i q own l []); [apply zombie_held; [done|rewrite Hh; set_solver]|ksimpl; by rewrite Hh|].
    + intros s' freed [] Hh' Hc'. wp_step. wp_step. split_and!; [done|done|by rewrite Hc'|]. exists freed. by split.
Qed.

(** C13: [wait] of a process [c] whose first exited child is entry [i] of the
    process table returns that child's process id, with no lock held. The
    entry is [UNUSED] and no other entry changes. The free list grows by
    exactly the kernel stack of the child, its page directory, its page tables
    and the frames that no other process maps; every other page of memory,
    the frames the child shared with its relatives included, keeps its
    contents, and the reverse map of a shared frame keeps the other owners.
    Each swap slot that an entry of the child referred to has lost one
    sharer. *)
Theorem wait_reaps_zombie c pr i q own l s :
  running s c pr [] -> length (k_proc s) = Z.to_nat NPROC -> zombie s i q own l -> p_parent q = Some c ->
  (forall j x, (j < i)%nat -> k_proc s !! j = Some x -> p_parent x = Some c -> p_state x <> ZOMBIE) ->
  wp wait (fun r s' => r = Done (p_pid q) /\ k_held s' = [] /\ k_cur s' = Some c /\
    exists freed, reaped_state s s' i q own l freed) s.
Proof. apply wp_wait_reaps. Qed.

(** With a zombie child the scan never gets to its end, so [wait] does not
    sleep. *)
Lemma wait_scan_reaps c (l : list nat) i q s : k_proc s !! i = Some q -> p_parent q = Some c -> p_state q = ZOMBIE ->
  i ∈ l -> forall b, wlp (for_ l (wait_step c) b) (fun r _ => exists pid, r = inr pid) s.
Proof.
  intros Hq Hpar Hz. induction l as [|j l IH]; [by intros ?%elem_of_nil|]. intros Hin b. cbn [for_].
  apply wlp_bind. intros r s1 Hr. unfold wait_step, get_proc in Hr. unfold mbind, M_bind, gets in Hr.
  destruct (decide (j = i)) as [->|Hne].
  - rewrite Hq in Hr. cbn in Hr. rewrite !bool_decide_true in Hr by done. cbn in Hr.
    destruct (reap i s) as [[pid s2]|]; [|done]. injection Hr as <- <-. apply wlp_ret. eauto.
  - assert (i ∈ l) as Hl by (apply elem_of_cons in Hin as [|]; [congruence|done]).
    destruct (k_proc s !! j) as [x|]; cbn in Hr; [|done].
    destruct (negb (bool_decide (p_parent x = Some c))); [injection Hr as <- <-; by apply IH|].
    destruct (bool_decide (p_state x = ZOMBIE)); [|injection Hr as <- <-; by apply IH].
    destruct (reap j s) as [[pid s2]|]; [|done]. injection Hr as <- <-. apply wlp_ret. eauto.
Qed.

Lemma wait_sleeps_without_zombie c s s' : k_cur s = Some c -> length (k_proc s) = Z.to_nat NPROC ->
  wait s = Ok (Asleep, s') -> forall j q, k_proc s !! j = Some q -> p_parent q = Some c -> p_state q <> ZOMBIE.
Proof.
  intros Hc Hlen Hw j q Hq Hpar Hz. assert (wlp wait (fun r _ => r <> Asleep) s) as H; [|by apply (H Asleep s')].
  unfold wait. apply wlp_bind, wp_wlp. eapply wp_curproc; [exact Hc|]. apply wlp_bind. intros [] s1 Ha.
  assert (k_proc s1 = k_proc s) as Ep.
  { unfold acquire, mbind, M_bind, gets in Ha. cbn in Ha. destruct (bool_decide _); [done|]. by injection Ha as <-. }
  unfold wait_locked. apply wlp_bind. intros r s2 Hr.
  apply (wait_scan_reaps c _ j q s1) in Hr as [pid ->]; [|by rewrite Ep|done|done|].
  - by apply wlp_ret.
  - apply elem_of_seq. apply lookup_lt_Some in Hq. lia.
Qed.

(** Reaping a child loses no wake-up. *)
Lemma no_lost_reaped s s' i r q : k_proc s' = <[i := reaped r q]> (k_proc s) -> no_lost s -> no_lost s'.
Proof.
  intros E Hn a b p x. rewrite E. intros Hp Hx Hpar Hz [Hs Hch].
  apply list_lookup_insert_Some in Hp as [(<- & <- & _)|[_ Hp]]; [done|].
  apply list_lookup_insert_Some in Hx as [(<- & <- & _)|[_ Hx]]; [done|]. by apply (Hn a b p x).
Qed.

(** C23: no wake-up is lost between [exit] and [wait]: if no process sleeps in
    [wait] beside a zombie child, this stays so when a process exits (it
    becomes a zombie, its children go to [init], and its parent and, for
    zombie children, [init] are awake), when a process without a zombie child
    waits (it sleeps if it has children, and returns -1 if it has none or was
    killed), when a process with a zombie child waits (it returns the process
    id of the first one, whose entry is free afterwards, and changes no other
    entry) and when a process is killed.  In every state, [wait] sleeps only
    if no child is a zombie. *)
Theorem exit_wait_no_lost_child c pr pid s : running s c pr [] ->
  length (k_proc s) = Z.to_nat NPROC -> no_lost s -> p_parent pr <> Some c -> k_initproc s <> Some c ->
  wp (exit_last c) (fun _ s' => no_lost s' /\ k_held s' = [L_ptable] /\
    (exists p, k_proc s' !! c = Some p /\ p_state p = ZOMBIE /\ p_parent p = p_parent pr) /\
    forall j q, k_proc s' !! j = Some q -> exists q0, k_proc s !! j = Some q0 /\
      p_parent q = if decide (p_parent q0 = Some c) then k_initproc s else p_parent q0) s /\
  ((forall j q, k_proc s !! j = Some q -> p_parent q = Some c -> p_state q <> ZOMBIE) ->
   wp wait (fun r s' => no_lost s' /\
     if has_children c s && (p_killed pr =? 0)
     then r = Asleep /\ k_proc s' = <[c := asleep (ChProc c) pr]> (k_proc s) /\ k_held s' = [L_ptable]
     else r = Done (-1) /\ k_proc s' = k_proc s /\ k_held s' = []) s) /\
  (forall i q own l, zombie s i q own l -> p_parent q = Some c ->
   (forall j x, (j < i)%nat -> k_proc s !! j = Some x -> p_parent x = Some c -> p_state x <> ZOMBIE) ->
   wp wait (fun r s' => no_lost s' /\ r = Done (p_pid q) /\ k_held s' = [] /\
     exists r', k_proc s' = <[i := reaped r' q]> (k_proc s)) s) /\
  (forall s', wait s = Ok (Asleep, s') ->
   forall j q, k_proc s !! j = Some q -> p_parent q = Some c -> p_state q <> ZOMBIE) /\
  wp (kill pid) (fun r s' => no_lost s' /\ k_held s' = []) s.
Proof.
  intros Hrn Hl Hn Hpar Hinit. pose proof Hrn as [Hc Hp Hr Hh]. split_and!; [by apply wp_exit_last| | | |by apply wp_kill].
  - intros Hz. unfold wait. wp_steps. eapply wp_curproc; [exact Hc|]. wp_steps.
    apply wp_acquire; [rewrite Hh; set_solver|]. eapply wp_mono; [apply (wp_wait_idle c pr); ksimpl; try done|done].
    split; ksimpl; try done. by rewrite Hh.
  - intros i q own l Hz Hq Hfirst. eapply wp_mono; [by eapply wp_wait_reaps|]. intros r s' (-> & Hh' & _ & freed & Hrs).
    destruct (rs_proc _ _ _ _ _ _ _ Hrs) as [r' E]. split; [by eapply no_lost_reaped|]. eauto.
  - intros s' Hw. by eapply wait_sleeps_without_zombie.
Qed.
End reap.

(** ** An example *)

(** A child that has exited and shares its only page with another process;
    [init] sleeps. *)
Definition child0 : proc :=
  mk_proc PGSIZE PGSIZE pgdir0 0x8030f000 ZOMBIE 2 (Some 0%nat) 0 0 NoChan 0 (replicate 16 None) None [115; 104; 0].
Definition reap_state : kstate :=
  set_k_initproc (Some 2%nat)
    (set_k_proc (proc0 :: child0 :: family 1 SLEEPING (ChProc 2) None :: replicate 61 unused_proc) state_shared).

#[local] Existing Instance img.

Lemma NPAGES_eq : Z.of_nat NPAGES = 0x80000.
Proof. unfold NPAGES, npages. rewrite Z2Nat.id; [reflexivity|vm_compute; discriminate]. Qed.

Lemma reap_pte k : (k < NPAGES)%nat -> pte_of mem0 pgdir0 (Z.of_nat k * PGSIZE) = if decide (k = 0%nat) then entry0 else 0.
Proof.
  intros Hk%Nat2Z.inj_lt. rewrite NPAGES_eq in Hk.
  rewrite sample_pte by (unfold two32; klia). destruct (decide (k = 0%nat)) as [->|]; [by rewrite decide_True|].
  by rewrite decide_False by klia.
Qed.
(** Only the first page is present. *)
Lemma reap_present k : (k < NPAGES)%nat -> has (upte reap_state pgdir0 k) PTE_P = true ->
  k = 0%nat /\ upte reap_state pgdir0 k = entry0.
Proof. unfold upte. change (k_mem reap_state) with mem0. intros Hk. rewrite reap_pte by done. by case_decide. Qed.

Lemma reap_space : space reap_state pgdir0 (fun _ => [0x80200000]) free0.
Proof.
  destruct sample_frame0 as (F1 & F2 & F3). split.
  - destruct sample_shared_ready as [[] ???]. by split; [split|..].
  - intros k Hk [_ ->]%reap_present; [|done]. by split_and!.
  - intros j k Hjk [-> _]%reap_present [-> _]%reap_present; lia.
  - intros k Hk [-> ->]%reap_present; [|done]. exists table0. split; [reflexivity|apply sample_shared_mapped].
Qed.

Lemma reap_slots : swapped_slots mem0 pgdir0 = [].
Proof. vm_compute. reflexivity. Qed.

Lemma reap_zombie : zombie reap_state 1 child0 (fun _ => [0x80200000]) free0.
Proof.
  split; [reflexivity|reflexivity|exact reap_space| |].
  - split; [apply (sample_page_ok 15); lia|]. split; [|split].
    + intros (i & Hi & E)%sample_free. unfold child0, pgdir0 in E. cbn in E. klia.
    + intros [H|H]%sample_owns; discriminate H.
    + change (p_pgdir child0) with pgdir0. intros k Hk [_ ->]%reap_present; [|done]. vm_compute. discriminate.
  - change (k_mem reap_state) with mem0. change (p_pgdir child0) with pgdir0. rewrite reap_slots. intros x []%elem_of_nil.
Qed.

Lemma wait_reaps_zombie_witness :
  wp wait (fun r s' => r = Done 2 /\ exists freed, free_ok s' (freed ++ free0) /\ 0x8030f000 ∈ freed /\ table0 ∈ freed /\ frame0 ∉ freed) reap_state.
Proof.
  eapply wp_mono.
  - apply (wait_reaps_zombie 0 proc0 1 child0 (fun _ => [0x80200000]) free0);
      [split; reflexivity|reflexivity|exact reap_zombie|reflexivity|].
    intros [|j] x Hj Hx Hpar; [by injection Hx as <-|lia].
  - intros r s' (-> & _ & _ & freed & [F In _ _ _ _]). split; [reflexivity|]. exists freed. split; [exact F|]. split; [|split].
    + apply In. by left.
    + apply In. right. left. right. exists 0. by split.
    + intros [H|[H|(k & _ & _ & H & _)]]%In; [discriminate H| |discriminate H]. by apply sample_owns in H as [H|H].
Defined.

Lemma reap_no_lost : no_lost reap_state.
Proof.
  intros a b p x Hp Hx Hpar Hz [Hs Hch].
  assert (Forall (fun q => p_state q = ZOMBIE -> p_parent q = Some 0%nat) (k_proc reap_state)) as HF.
  { unfold reap_state. ksimpl. repeat (apply Forall_cons; split; [cbn; first [discriminate|reflexivity]|]). apply Forall_nil_2. }
  rewrite Forall_lookup in HF. pose proof (HF b x Hx Hz) as E. rewrite Hpar in E. injection E as ->.
  injection Hp as <-. discriminate.
Qed.

Lemma exit_wait_no_lost_child_witness :
  wp (exit_last 0) (fun _ s' => no_lost s' /\
    forall q, k_proc s' !! 2%nat = Some q -> p_parent q = Some 1%nat) state_family /\
  wp wait (fun r s' => no_lost s' /\ r = Done 2) reap_state.
Proof.
  split.
  - destruct (exit_wait_no_lost_child 0 (family 2 RUNNING NoChan (Some 1%nat)) 7 state_family) as (Hexit & _).
    + split; reflexivity.
    + reflexivity.
    + exact state_family_no_lost.
    + discriminate.
    + discriminate.
    + eapply wp_mono; [exact Hexit|]. intros _ s' (Hn & _ & _ & Hpar). split; [exact Hn|].
      intros q Hq. destruct (Hpar 2%nat q Hq) as (q0 & Hq0 & ->). injection Hq0 as <-. reflexivity.
  - destruct (exit_wait_no_lost_child 0 proc0 7 reap_state) as (_ & _ & Hwait & _).
    + split; reflexivity.
    + reflexivity.
    + exact reap_no_lost.
    + discriminate.
    + discriminate.
    + eapply wp_mono; [eapply (Hwait 1%nat child0); [exact reap_zombie|reflexivity|]|].
      * intros [|j] x Hj Hx Hpar; [by injection Hx as <-|lia].
      * intros r s' (Hn & Hr & _). split; [exact Hn|exact Hr].
Defined.
