(* ===== verification/Syscall.v ===== *)
(** * System call arguments

    [fetchint], [fetchstr], [argint], [argptr] and [argstr] of [syscall.c].
    The kernel reads and writes user memory at user addresses, through the
    page table that is loaded: [user_load] and [user_store] translate the
    address as the hardware does in kernel mode, where write protection
    counts but the user bit does not; on a page fault the handler runs and
    the access is made again.

    The theorem shows that an address that passes these checks lies, with
    all its bytes, below the size of the process. *)

From Stdlib Require Import ZArith Lia.
From stdpp Require Import base strings numbers gmap list.
From S2P Require Import Prelude Mmu Memory Kernel Sample Rmap PageTable Swap Kalloc Vm SampleTables VmUser Fault Proc.

(** ** User memory *)

(** The byte at [va]; [None] is a page fault. *)
Definition kread (m : mem) (pgdir va : Z) : option Z :=
  let e := pte_of m pgdir va in
  if has e PTE_P then Some (ldb m (P2V (PTE_ADDR e) + va mod PGSIZE)) else None.
Definition kwrite (m : mem) (pgdir va b : Z) : option mem :=
  let e := pte_of m pgdir va in
  if has e PTE_P && has e PTE_W then Some (stb m (P2V (PTE_ADDR e) + va mod PGSIZE) b) else None.

Section syscall.
Context {I : KernelImage}.

(** The page fault at [va]. *)
Definition fault_at (va : Z) : K unit := modify (set_k_cr2 va);; handle_fage_fault.

(** An access that faults again after the handler has run is a [Trap]. *)
Definition user_load (va : Z) : K Z :=
  s ← gets id;
  match kread (k_mem s) (P2V (k_cr3 s)) va with
  | Some b => mret b
  | None => fault_at va;; s ← gets id; the (kread (k_mem s) (P2V (k_cr3 s)) va)
  end.
Definition user_store (va b : Z) : K unit :=
  s ← gets id;
  match kwrite (k_mem s) (P2V (k_cr3 s)) va b with
  | Some m => modify (set_k_mem m)
  | None =>
      fault_at va;;
      s ← gets id;
      m ← the (kwrite (k_mem s) (P2V (k_cr3 s)) va b);
      modify (set_k_mem m)
  end.

Fixpoint user_loads (va : Z) (n : nat) : K (list Z) :=
  match n with
  | O => mret []
  | S n => b ← user_load va; l ← user_loads (va + 1) n; mret (b :: l)
  end.
Fixpoint user_stores (va : Z) (l : list Z) : K unit :=
  match l with
  | [] => mret tt
  | b :: l => user_store va b;; user_stores (va + 1) l
  end.

(** ** Arguments *)

(** [None] is the result -1. *)
Definition fetchint (addr : Z) : K (option Z) :=
  c ← curproc;
  p ← get_proc c;
  if (p_sz p <=? addr) || (p_sz p <? u32 (addr + 4)) then mret None
  else
    l ← user_loads addr 4;
    mret (Some (s32 (foldr (fun b v => b + 256 * v) 0 l))).

(** The bytes of the string; its address is [addr]. *)
Fixpoint fetchstr_loop (s : Z) (n : nat) : K (option (list Z)) :=
  match n with
  | O => mret None
  | S n =>
      b ← user_load s;
      if b =? 0 then mret (Some [])
      else r ← fetchstr_loop (s + 1) n; mret (cons b <$> r)
  end.
Definition fetchstr (addr : Z) : K (option (list Z)) :=
  c ← curproc;
  p ← get_proc c;
  if p_sz p <=? addr then mret None
  else fetchstr_loop addr (Z.to_nat (p_sz p - addr)).

Definition argint (n : Z) : K (option Z) :=
  c ← curproc;
  p ← get_proc c;
  esp ← load (p_tf p + tf_esp);
  fetchint (u32 (esp + 4 + 4 * n)).

Definition argptr (n size : Z) : K (option Z) :=
  c ← curproc;
  p ← get_proc c;
  o ← argint n;
  match o with
  | None => mret None
  | Some i =>
      if (size <? 0) || (p_sz p <=? u32 i) || (p_sz p <? u32 (u32 i + size)) then mret None
      else mret (Some (u32 i))
  end.

Definition argstr (n : Z) : K (option (list Z)) :=
  o ← argint n;
  match o with
  | None => mret None
  | Some addr => fetchstr (u32 addr)
  end.
End syscall.

(** ** Bounds *)

Section bounds.
Context {I : KernelImage}.

(** The pages of the process are present, so that no access faults. *)
Record present s (c : nat) (p : proc) : Prop := {
  pz_cur : k_cur s = Some c;
  pz_proc : k_proc s !! c = Some p;
  pz_sz : 0 <= p_sz p <= KERNBASE;
  pz_map : forall va, 0 <= va < p_sz p -> has (pte_of (k_mem s) (P2V (k_cr3 s)) va) PTE_P = true;
}.

(** The byte of user memory at [va]. *)
Definition user_byte s (va : Z) : Z :=
  ldb (k_mem s) (P2V (PTE_ADDR (pte_of (k_mem s) (P2V (k_cr3 s)) va)) + va mod PGSIZE).
Definition user_word s (va : Z) : Z :=
  s32 (user_byte s va + 256 * (user_byte s (va + 1) + 256 * (user_byte s (va + 2) + 256 * (user_byte s (va + 3) + 256 * 0)))).
(** The string [l] lies at [a], with its end below [sz]. *)
Definition user_string s (a sz : Z) (l : list Z) : Prop :=
  a + Z.of_nat (length l) < sz /\ user_byte s (a + Z.of_nat (length l)) = 0 /\
  forall i b, l !! i = Some b -> b <> 0 /\ user_byte s (a + Z.of_nat i) = b.

Lemma wp_user_load va c p Q s : present s c p -> 0 <= va < p_sz p -> Q (user_byte s va) s -> wp (user_load va) Q s.
Proof.
  intros Hs Hva HQ. unfold user_load. wp_steps. unfold kread, id. by rewrite (pz_map _ _ _ Hs va Hva).
Qed.

Lemma wp_fetchint addr c p Q s : present s c p -> 0 <= addr < two32 ->
  Q (if decide (addr + 4 <= p_sz p) then Some (user_word s addr) else None) s -> wp (fetchint addr) Q s.
Proof.
  intros Hs Ha HQ. pose proof (pz_sz _ _ _ Hs) as Hsz. unfold fetchint. wp_steps.
  eapply wp_curproc; [apply Hs|]. wp_steps. eapply wp_get_proc; [apply Hs|].
  destruct (_ || _) eqn:E; case_decide as Hd.
  - exfalso. apply orb_true_iff in E as [E|E]; [klia|]. rewrite u32_small in E by klia. klia.
  - by wp_steps.
  - cbn [user_loads]. do 4 (wp_steps; eapply wp_user_load; [exact Hs|lia|]). wp_steps. cbn [foldr].
    unfold user_word in HQ. replace (addr + 1 + 1 + 1) with (addr + 3) by lia.
    by replace (addr + 1 + 1) with (addr + 2) by lia.
  - exfalso. apply orb_false_iff in E as [E1 E2]. apply Z.leb_gt in E1. apply Z.ltb_ge in E2.
    rewrite u32_small in E2 by klia. lia.
Qed.

Lemma wp_fetchstr_loop c p n : forall a s Q, present s c p -> 0 <= a -> a + Z.of_nat n = p_sz p ->
  (forall r, (forall l, r = Some l <-> user_string s a (p_sz p) l) -> Q r s) -> wp (fetchstr_loop a n) Q s.
Proof.
  induction n as [|n IH]; intros a s Q Hs Ha Hn HQ; cbn [fetchstr_loop].
  - wp_steps. apply HQ. intros l. split; [done|]. intros [? _]. lia.
  - wp_steps. eapply wp_user_load; [exact Hs|lia|]. destruct (Z.eqb_spec (user_byte s a) 0) as [H0|H0].
    + wp_steps. apply HQ. intros l. split.
      * intros [= <-]. split; [cbn; lia|]. rewrite Z.add_0_r. split; [done|]. intros i b Hi. by rewrite lookup_nil in Hi.
      * intros (_ & _ & Hl). destruct l as [|b l]; [done|]. destruct (Hl 0%nat b eq_refl) as [Hb Hb'].
        rewrite Z.add_0_r in Hb'. congruence.
    + wp_steps. eapply (IH (a + 1)); [exact Hs|lia|lia|]. intros r Hr. wp_steps. apply HQ. intros l. split.
      * intros Hl. destruct r as [l'|]; [|done]. injection Hl as <-. destruct (proj1 (Hr l') eq_refl) as (Hlen & Hend & Hbytes).
        split; [cbn; lia|]. split; [rewrite <-Hend; f_equal; cbn; lia|]. intros [|i] b Hi.
        -- injection Hi as <-. by rewrite Z.add_0_r.
        -- destruct (Hbytes i b Hi) as [Hb Hb']. split; [done|]. rewrite <-Hb'. f_equal. lia.
      * intros (Hlen & Hend & Hbytes). destruct l as [|b l]; [by rewrite Z.add_0_r in Hend|].
        destruct (Hbytes 0%nat b eq_refl) as [Hb Hb']. rewrite Z.add_0_r in Hb'.
        rewrite (proj2 (Hr l)); [by rewrite Hb'|]. split; [cbn in Hlen; lia|]. split.
        -- rewrite <-Hend. f_equal. cbn. lia.
        -- intros i d Hi. destruct (Hbytes (S i) d Hi) as [Hd Hd']. split; [done|]. rewrite <-Hd'. f_equal. lia.
Qed.

Lemma wp_fetchstr addr c p Q s : present s c p -> 0 <= addr ->
  (forall r, (forall l, r = Some l <-> user_string s addr (p_sz p) l) -> Q r s) -> wp (fetchstr addr) Q s.
Proof.
  intros Hs Ha HQ. unfold fetchstr. wp_steps. eapply wp_curproc; [apply Hs|]. wp_steps. eapply wp_get_proc; [apply Hs|].
  destruct (Z.leb_spec (p_sz p) addr) as [Hle|Hlt].
  - wp_steps. apply HQ. intros l. split; [done|]. intros [? _]. lia.
  - eapply wp_fetchstr_loop; [exact Hs|done|lia|done].
Qed.

(** The address of argument [n]. *)
Definition arg_addr s (p : proc) (n : Z) : Z := u32 (ld (k_mem s) (p_tf p + tf_esp) + 4 + 4 * n).
Definition arg_word s (p : proc) (n : Z) : option Z :=
  if decide (arg_addr s p n + 4 <= p_sz p) then Some (user_word s (arg_addr s p n)) else None.

Lemma wp_argint n c p Q s : present s c p -> Q (arg_word s p n) s -> wp (argint n) Q s.
Proof.
  intros Hs HQ. unfold argint. wp_steps. eapply wp_curproc; [apply Hs|]. wp_steps. eapply wp_get_proc; [apply Hs|].
  wp_steps. apply wp_load. eapply wp_fetchint; [exact Hs|apply u32_range|exact HQ].
Qed.

(** C30: what user programs pass to system calls is checked against the size
    of the process: [argint] reads a word of the stack only if its four bytes
    lie below the size; [argptr] accepts exactly the pointers from which
    [size] bytes, not a negative number, lie below it, also for sizes with
    which the 32-bit sum could wrap around; [argstr] accepts exactly the
    strings that end below it and returns their bytes.  With the pages below
    the size present, no check changes the state. *)
Theorem syscall_args_in_bounds n size c p s : present s c p -> size < 2147483648 ->
  wp (argint n) (fun r s' => s' = s /\ r = arg_word s p n) s /\
  wp (argptr n size) (fun r s' => s' = s /\ forall a, r = Some a <->
    exists w, arg_word s p n = Some w /\ a = u32 w /\ 0 <= size /\ a < p_sz p /\ a + size <= p_sz p) s /\
  wp (argstr n) (fun r s' => s' = s /\ forall l, r = Some l <->
    exists w, arg_word s p n = Some w /\ user_string s (u32 w) (p_sz p) l) s.
Proof.
  intros Hs Hsize. pose proof (pz_sz _ _ _ Hs) as Hsz. split; [|split].
  - by eapply wp_argint.
  - unfold argptr. wp_steps. eapply wp_curproc; [apply Hs|]. wp_steps. eapply wp_get_proc; [apply Hs|]. wp_steps.
    eapply wp_argint; [exact Hs|]. destruct (arg_word s p n) as [w|]; wp_steps.
    2: { split; [done|]. intros a. split; [done|]. by intros (w & ? & _). }
    pose proof (u32_range w) as Hw. destruct (_ || _) eqn:E; wp_steps; (split; [done|]); intros a; split; try done.
    + intros (w' & [= <-] & -> & H0 & Hlt & Hle). exfalso.
      rewrite (u32_small (u32 w + size)) in E by klia. apply orb_true_iff in E as [[E|E]%orb_true_iff|E]; lia.
    + intros [= <-]. apply orb_false_iff in E as [[E1 E2]%orb_false_iff E3].
      apply Z.ltb_ge in E1, E3. apply Z.leb_gt in E2. rewrite (u32_small (u32 w + size)) in E3 by klia. exists w. intuition lia.
    + by intros (w' & [= <-] & -> & _).
  - unfold argstr. wp_steps. eapply wp_argint; [exact Hs|]. destruct (arg_word s p n) as [w|].
    + eapply wp_fetchstr; [exact Hs|apply u32_range|]. intros r Hr. split; [done|]. intros l. rewrite Hr.
      split; [eauto|]. by intros (w' & [= <-] & ?).
    + wp_steps. split; [done|]. intros l. split; [done|]. by intros (w & ? & _).
Qed.
End bounds.

Lemma sample_present : present state0 0 proc0.
Proof.
  split; [reflexivity|reflexivity|cbn; klia|]. intros va Hva. change (p_sz proc0) with PGSIZE in Hva.
  change (pte_of (k_mem state0) (P2V (k_cr3 state0)) va) with (pte_of mem0 pgdir0 va).
  rewrite sample_pte by klia. by rewrite decide_True by lia.
Qed.

(** The stack pointer of the sample process is 0, and its page is empty. *)
Lemma syscall_args_in_bounds_witness :
  wp (argptr (I := img) 0 4096) (fun r s' => s' = state0 /\ forall a, r = Some a -> a + 4096 <= 4096) state0.
Proof.
  destruct (syscall_args_in_bounds (I := img) 0 4096 0 proc0 state0) as (_ & Hptr & _).
  - exact sample_present.
  - reflexivity.
  - eapply wp_mono; [exact Hptr|]. intros r s' [Hs Hr]. split; [exact Hs|].
    intros a Ha. destruct (proj1 (Hr a) Ha) as (w & _ & _ & _ & _ & Hle). exact Hle.
Defined.
