(* ===== verification/Sysfile.v ===== *)
(** * The file system calls

    [sysfile.c]: file descriptors, and the calls that open, create, link and
    unlink files.  Paths are the strings that [argstr] fetched.  Bytes go to
    and from user memory in one piece, before [filewrite] and after
    [fileread], where the code copies them block by block. *)

From Stdlib Require Import ZArith Lia.
From stdpp Require Import base strings numbers gmap list.
From S2P Require Import Prelude Mmu Memory Kernel Sample Sleeplock Bio Block Layout Log.
From S2P Require Import Rmap Swap Kalloc Vm Sched Pipe Fs File Proc Syscall.

Definition O_RDONLY : Z := 0x000.
Definition O_WRONLY : Z := 0x001.
Definition O_RDWR : Z := 0x002.
Definition O_CREATE : Z := 0x200.

(** ** File descriptors *)

(** Allocate a file descriptor for the given file: the first free one of the
    current process, or -1. *)
Definition fdalloc (f : nat) : K Z :=
  c ← curproc;
  r ← for_ (seq 0 (Z.to_nat NOFILE)) (fun fd (_ : unit) =>
        p ← get_proc c;
        o ← the (p_ofile p !! fd);
        match o with
        | None =>
            upd_proc c (fun x => set_p_ofile (<[fd := Some f]> (p_ofile x)) x);;
            mret (Return (Z.of_nat fd))
        | Some _ => mret (Next tt)
        end) tt;
  mret (match r with inr fd => fd | inl _ => -1 end).

(** [curproc->ofile[fd] = 0] *)
Definition fd_clear (fd : Z) : K unit :=
  c ← curproc;
  upd_proc c (fun x => set_p_ofile (<[Z.to_nat fd := None]> (p_ofile x)) x).

Section sysfile.
Context {I : KernelImage} {DV : Devsw}.

(** The descriptor and the file; [None] is -1. *)
Definition argfd (n : Z) : K (option (Z * nat)) :=
  o ← argint n;
  match o with
  | None => mret None
  | Some fd =>
      if (fd <? 0) || (NOFILE <=? fd) then mret None
      else
        c ← curproc;
        p ← get_proc c;
        o ← the (p_ofile p !! Z.to_nat fd);
        mret (f ← o; Some (fd, f))
  end.

Definition sys_dup : K Z :=
  o ← argfd 0;
  match o with
  | None => mret (-1)
  | Some (_, f) =>
      fd ← fdalloc f;
      if fd <? 0 then mret (-1)
      else filedup f;; mret fd
  end.

Definition sys_read : K Z :=
  o ← argfd 0;
  match o with
  | None => mret (-1)
  | Some (_, f) =>
      o ← argint 2;
      match o with
      | None => mret (-1)
      | Some n =>
          o ← argptr 1 n;
          match o with
          | None => mret (-1)
          | Some p => '(r, l) ← fileread f n; user_stores p l;; mret r
          end
      end
  end.

Definition sys_write : K Z :=
  o ← argfd 0;
  match o with
  | None => mret (-1)
  | Some (_, f) =>
      o ← argint 2;
      match o with
      | None => mret (-1)
      | Some n =>
          o ← argptr 1 n;
          match o with
          | None => mret (-1)
          | Some p => l ← user_loads p (Z.to_nat n); filewrite f l
          end
      end
  end.

Definition sys_close : K Z :=
  o ← argfd 0;
  match o with
  | None => mret (-1)
  | Some (fd, f) =>
      fd_clear fd;;
      fileclose f;;
      mret 0
  end.

(** [struct stat] in memory: the padding is not written. *)
Definition STATSIZE : Z := 20.
Definition le_bytes (n : nat) (v : Z) : list Z := (fun i => (v / 256 ^ i) mod 256) <$> seqZ 0 (Z.of_nat n).
Definition store_stat (p : Z) (st : stat) : K unit :=
  user_stores (p + 4) (le_bytes 4 (st_dev st));;
  user_stores (p + 8) (le_bytes 4 (st_ino st));;
  user_stores p (le_bytes 2 (st_type st));;
  user_stores (p + 12) (le_bytes 2 (st_nlink st));;
  user_stores (p + 16) (le_bytes 4 (st_size st)).

Definition sys_fstat : K Z :=
  o ← argfd 0;
  match o with
  | None => mret (-1)
  | Some (_, f) =>
      o ← argptr 1 STATSIZE;
      match o with
      | None => mret (-1)
      | Some p =>
          r ← filestat f;
          match r with
          | None => mret (-1)
          | Some st => store_stat p st;; mret 0
          end
      end
  end.

(** ** Links and directories *)

(** The end of [sys_link] at [bad]. *)
Definition link_bad (ip : nat) : K Z :=
  ilock ip;;
  upd_inode ip (fun x => set_i_nlink (s16 ((i_nlink x - 1) mod 0x10000)) x);;
  iupdate ip;;
  iunlockput ip;;
  end_op;;
  mret (-1).

(** Create the path [new] as a link to the same inode as [old]. *)
Definition link (old new : list Z) : K Z :=
  begin_op;;
  o ← namei old;
  match o with
  | None => end_op;; mret (-1)
  | Some ip =>
      ilock ip;;
      x ← get_inode ip;
      if i_type x =? T_DIR then iunlockput ip;; end_op;; mret (-1)
      else
        upd_inode ip (fun x => set_i_nlink (s16 ((i_nlink x + 1) mod 0x10000)) x);;
        iupdate ip;;
        iunlock ip;;
        o ← nameiparent new;
        match o with
        | None => link_bad ip
        | Some (dp, name) =>
            ilock dp;;
            d ← get_inode dp;
            x ← get_inode ip;
            r ← (if negb (i_dev d =? i_dev x) then mret (-1) else dirlink dp name (i_inum x));
            if r <? 0 then iunlockput dp;; link_bad ip
            else
              iunlockput dp;;
              iput ip;;
              end_op;;
              mret 0
        end
  end.

Definition sys_link : K Z :=
  o ← argstr 0;
  match o with
  | None => mret (-1)
  | Some old =>
      o ← argstr 1;
      match o with
      | None => mret (-1)
      | Some new => link old new
      end
  end.

(** Is the directory empty except for "." and ".." ? *)
Definition isdirempty (dp : nat) : K bool :=
  d ← get_inode dp;
  r ← for_ (drop 2 (dir_offsets (i_size d))) (fun off (_ : unit) =>
        de ← read_dirent "isdirempty: readi" dp off;
        mret (if negb (de_inum de =? 0) then Return false else Next tt)) tt;
  mret (loop_result r true).

Definition dot : list Z := [46; 0].
Definition dotdot : list Z := [46; 46; 0].

Definition unlink_bad (dp : nat) : K Z :=
  iunlockput dp;; end_op;; mret (-1).

Definition unlink (path : list Z) : K Z :=
  begin_op;;
  o ← nameiparent path;
  match o with
  | None => end_op;; mret (-1)
  | Some (dp, name) =>
      ilock dp;;
      if (namecmp name dot =? 0) || (namecmp name dotdot =? 0) then unlink_bad dp
      else
        o ← dirlookup dp name;
        match o with
        | None => unlink_bad dp
        | Some (ip, off) =>
            ilock ip;;
            x ← get_inode ip;
            if i_nlink x <? 1 then panic "unlink: nlink < 1"
            else
              full ← (if i_type x =? T_DIR then e ← isdirempty ip; mret (negb e) else mret false);
              if full : bool then iunlockput ip;; unlink_bad dp
              else
                w ← writei dp (replicate (Z.to_nat DIRENTSIZE) 0) off;
                if negb (w =? DIRENTSIZE) then panic "unlink: writei"
                else
                  x ← get_inode ip;
                  when (i_type x =? T_DIR)
                    (upd_inode dp (fun d => set_i_nlink (s16 ((i_nlink d - 1) mod 0x10000)) d);;
                     iupdate dp);;
                  iunlockput dp;;
                  upd_inode ip (fun x => set_i_nlink (s16 ((i_nlink x - 1) mod 0x10000)) x);;
                  iupdate ip;;
                  iunlockput ip;;
                  end_op;;
                  mret 0
        end
  end.

Definition sys_unlink : K Z :=
  o ← argstr 0;
  match o with None => mret (-1) | Some path => unlink path end.

(** ** Creating and opening *)

Definition create (path : list Z) (type major minor : Z) : K (option nat) :=
  o ← nameiparent path;
  match o with
  | None => mret None
  | Some (dp, name) =>
      ilock dp;;
      o ← dirlookup dp name;
      match o with
      | Some (ip, _) =>
          iunlockput dp;;
          ilock ip;;
          x ← get_inode ip;
          if (type =? T_FILE) && (i_type x =? T_FILE) then mret (Some ip)
          else iunlockput ip;; mret None
      | None =>
          d ← get_inode dp;
          ip ← ialloc (i_dev d) type;
          ilock ip;;
          upd_inode ip (set_i_major major);;
          upd_inode ip (set_i_minor minor);;
          upd_inode ip (set_i_nlink 1);;
          iupdate ip;;
          when (type =? T_DIR)
            (upd_inode dp (fun d => set_i_nlink (s16 ((i_nlink d + 1) mod 0x10000)) d);;
             iupdate dp;;
             x ← get_inode ip;
             r1 ← dirlink ip dot (i_inum x);
             d ← get_inode dp;
             r2 ← (if r1 <? 0 then mret r1 else dirlink ip dotdot (i_inum d));
             if r2 <? 0 then panic "create dots" else mret tt);;
          x ← get_inode ip;
          r ← dirlink dp name (i_inum x);
          if r <? 0 then panic "create: dirlink"
          else iunlockput dp;; mret (Some ip)
      end
  end.

(** The inode of [sys_open], locked; [None] when the call fails. *)
Definition open_inode (path : list Z) (omode : Z) : K (option nat) :=
  if negb (Z.land omode O_CREATE =? 0) then create path T_FILE 0 0
  else
    o ← namei path;
    match o with
    | None => mret None
    | Some ip =>
        ilock ip;;
        x ← get_inode ip;
        if (i_type x =? T_DIR) && negb (omode =? O_RDONLY) then iunlockput ip;; mret None
        else mret (Some ip)
    end.

Definition bool_Z (b : bool) : Z := if b then 1 else 0.

Definition open (path : list Z) (omode : Z) : K Z :=
  begin_op;;
  o ← open_inode path omode;
  match o with
  | None => end_op;; mret (-1)
  | Some ip =>
      o ← filealloc;
      match o with
      | None => iunlockput ip;; end_op;; mret (-1)
      | Some f =>
          fd ← fdalloc f;
          if fd <? 0 then fileclose f;; iunlockput ip;; end_op;; mret (-1)
          else
            iunlock ip;;
            end_op;;
            upd_file f (fun x => set_f_writable (bool_Z (negb (Z.land omode O_WRONLY =? 0) || negb (Z.land omode O_RDWR =? 0)))
              (set_f_readable (bool_Z (Z.land omode O_WRONLY =? 0))
                (set_f_off 0 (set_f_ip ip (set_f_type FD_INODE x)))));;
            mret fd
      end
  end.

Definition sys_open : K Z :=
  o ← argstr 0;
  match o with
  | None => mret (-1)
  | Some path =>
      o ← argint 1;
      match o with None => mret (-1) | Some omode => open path omode end
  end.

(** The common end of [sys_mkdir] and [sys_mknod], when the arguments are
    fetched. *)
Definition make (o : option (list Z * Z * Z * Z)) : K Z :=
  match o with
  | None => end_op;; mret (-1)
  | Some (path, type, major, minor) =>
      r ← create path type major minor;
      match r with
      | None => end_op;; mret (-1)
      | Some ip => iunlockput ip;; end_op;; mret 0
      end
  end.

Definition sys_mkdir : K Z :=
  begin_op;;
  o ← argstr 0;
  make (path ← o; Some (path, T_DIR, 0, 0)).

Definition sys_mknod : K Z :=
  begin_op;;
  o ← argstr 0;
  match o with
  | None => make None
  | Some path =>
      o ← argint 1;
      match o with
      | None => make None
      | Some major =>
          o ← argint 2;
          make (minor ← o; Some (path, T_DEV, s16 (major mod 0x10000), s16 (minor mod 0x10000)))
      end
  end.

Definition chdir (path : list Z) : K Z :=
  o ← namei path;
  match o with
  | None => end_op;; mret (-1)
  | Some ip =>
      ilock ip;;
      x ← get_inode ip;
      if negb (i_type x =? T_DIR) then iunlockput ip;; end_op;; mret (-1)
      else
        iunlock ip;;
        c ← curproc;
        p ← get_proc c;
        cwd ← the (p_cwd p);
        iput cwd;;
        end_op;;
        upd_proc c (set_p_cwd (Some ip));;
        mret 0
  end.
Definition sys_chdir : K Z :=
  begin_op;;
  o ← argstr 0;
  match o with None => end_op;; mret (-1) | Some path => chdir path end.

Definition sys_pipe : K Z :=
  o ← argptr 0 8;
  match o with
  | None => mret (-1)
  | Some fd =>
      o ← pipealloc;
      match o with
      | None => mret (-1)
      | Some (rf, wf) =>
          fd0 ← fdalloc rf;
          fd1 ← (if fd0 <? 0 then mret (-1) else fdalloc wf);
          if (fd0 <? 0) || (fd1 <? 0) then
            when (0 <=? fd0) (fd_clear fd0);;
            fileclose rf;;
            fileclose wf;;
            mret (-1)
          else
            user_stores fd (le_bytes 4 fd0);;
            user_stores (fd + 4) (le_bytes 4 fd1);;
            mret 0
      end
  end.
End sysfile.
