(* ===== verification/Exec.v ===== *)
(** * Running a program

    [exec.c], and [sys_exec] of [sysfile.c].  The argument strings are lists
    of bytes, fetched from user memory by [sys_exec]; [copyout_bytes] is
    [copyout] of [vm.c] for bytes that are given as a list. *)

From Stdlib Require Import ZArith Lia.
From stdpp Require Import base strings numbers gmap list.
From S2P Require Import Prelude Mmu Memory Kernel Sleeplock Bio Block Layout Log.
From S2P Require Import Kmem Rmap PageTable Swap Kalloc Vm Fs File Proc Syscall Sysfile.

(** ** The ELF header *)

Definition ELF_MAGIC : Z := 0x464C457F.
Definition ELF_PROG_LOAD : Z := 1.
Definition ELFHDRSIZE : Z := 52. (* sizeof(struct elfhdr) *)
Definition PROGHDRSIZE : Z := 32. (* sizeof(struct proghdr) *)
Definition elf_magic (l : list Z) : Z := get32 l 0.
Definition elf_entry (l : list Z) : Z := get32 l 24.
Definition elf_phoff (l : list Z) : Z := get32 l 28.
Definition elf_phnum (l : list Z) : Z := get16 l 44.
Definition ph_type (l : list Z) : Z := get32 l 0.
Definition ph_off (l : list Z) : Z := get32 l 4.
Definition ph_vaddr (l : list Z) : Z := get32 l 8.
Definition ph_filesz (l : list Z) : Z := get32 l 16.
Definition ph_memsz (l : list Z) : Z := get32 l 20.

Section exec.
Context {I : KernelImage} {DV : Devsw}.

(** ** Loading *)

(** [readi] into kernel memory at [a]. *)
Definition readi_at (ip : nat) (a off n : Z) : K Z :=
  '(r, l) ← readi ip off n;
  modify_mem (fun m => put_bytes m a l);;
  mret r.

(** One program header; [Return] is [goto bad]. *)
Definition load_segment (ip : nat) (pgdir : Z) (elf : list Z) (i sz : Z) : K (ctl Z unit) :=
  '(r, ph) ← readi ip (u32 (elf_phoff elf + i * PROGHDRSIZE)) PROGHDRSIZE;
  if negb (r =? PROGHDRSIZE) then mret (Return tt)
  else if negb (ph_type ph =? ELF_PROG_LOAD) then mret (Next sz)
  else if ph_memsz ph <? ph_filesz ph then mret (Return tt)
  else if u32 (ph_vaddr ph + ph_memsz ph) <? ph_vaddr ph then mret (Return tt)
  else
    sz ← allocuvm pgdir sz (u32 (ph_vaddr ph + ph_memsz ph));
    if sz =? 0 then mret (Return tt)
    else if negb (ph_vaddr ph mod PGSIZE =? 0) then mret (Return tt)
    else
      r ← loaduvm (fun _ a off n => readi_at ip a off n) pgdir (ph_vaddr ph) 0 (ph_off ph) (ph_filesz ph);
      if r <? 0 then mret (Return tt) else mret (Next sz).

Definition load_segments (ip : nat) (pgdir : Z) (elf : list Z) : K (Z + unit) :=
  for_ (seqZ 0 (elf_phnum elf)) (load_segment ip pgdir elf) 0.

(** ** The user stack *)

(** [copyout] of the bytes [l]; a page takes at least one byte. *)
Definition copyout_bytes (pgdir va : Z) (l : list Z) : K Z :=
  while_ (S (length l)) (fun '(va, l) =>
    match l with
    | [] => mret (inr 0)
    | _ =>
        let va0 := PGROUNDDOWN va in
        pa0 ← uva2ka pgdir va0;
        if pa0 =? 0 then mret (inr (-1))
        else
          let n := Z.to_nat (PGSIZE - (va - va0)) in
          modify_mem (fun m => put_bytes m (pa0 + (va - va0)) (take n l));;
          mret (inl (u32 (va0 + PGSIZE), drop n l))
    end) (va, l).

(** Push argument strings: the stack pointer and the addresses pushed. *)
Definition push_arg (pgdir : Z) (arg : list Z) '((sp, ptrs) : Z * list Z) : K (ctl (Z * list Z) unit) :=
  if MAXARG <=? Z.of_nat (length ptrs) then mret (Return tt)
  else
    let sp := Z.land (u32 (sp - (Z.of_nat (length arg) + 1))) (Z.lnot 3) in
    r ← copyout_bytes pgdir sp (arg ++ [0]);
    if r <? 0 then mret (Return tt) else mret (Next (sp, ptrs ++ [sp])).

(** The words below the strings: the fake return address, [argc], [argv] and
    the pointers with a null pointer at their end. *)
Definition ustack (sp : Z) (ptrs : list Z) : list Z :=
  let argc := Z.of_nat (length ptrs) in
  [0xffffffff; argc; u32 (sp - (argc + 1) * 4)] ++ ptrs ++ [0].

(** The program name: what follows the last slash of the path. *)
Fixpoint last_elem (path last : list Z) : list Z :=
  match path with
  | [] => last
  | c :: path' => last_elem path' (if c =? SLASH then path' else last)
  end.

(** ** The system call *)

(** The end at [bad], before and after [ip] was released. *)
Definition exec_bad (pgdir : Z) (ip : option nat) : K Z :=
  when (negb (pgdir =? 0)) (freevm pgdir);;
  match ip with
  | Some ip => iunlockput ip;; end_op
  | None => mret tt
  end;;
  mret (-1).

(** The name, and the commit to the user image. *)
Definition exec_commit (path : list Z) (pgdir sz entry sp : Z) : K Z :=
  c ← curproc;
  upd_proc c (fun x => set_p_name (set_name (last_elem path path ++ [0]) (p_name x)) x);;
  p ← get_proc c;
  upd_proc c (set_p_pgdir pgdir);;
  upd_proc c (set_p_sz sz);;
  store (p_tf p + tf_eip) entry;;
  store (p_tf p + tf_esp) sp;;
  switchuvm (Some c);;
  freevm (p_pgdir p);;
  mret 0.

(** The part of [exec] after the program is loaded. *)
Definition exec_stack (path : list Z) (argv : list (list Z)) (pgdir sz entry : Z) : K Z :=
  let sz := PGROUNDUP sz in
  sz ← allocuvm pgdir sz (u32 (sz + 2 * PGSIZE));
  if sz =? 0 then exec_bad pgdir None
  else
    clearpteu pgdir (u32 (sz - 2 * PGSIZE));;
    r ← for_ argv (push_arg pgdir) (sz, []);
    match r with
    | inr _ => exec_bad pgdir None
    | inl (sp, ptrs) =>
        let words := ustack sp ptrs in
        let sp := u32 (sp - Z.of_nat (length words) * 4) in
        r ← copyout_bytes pgdir sp (mjoin (le_bytes 4 <$> words));
        if r <? 0 then exec_bad pgdir None
        else exec_commit path pgdir sz entry sp
    end.

Definition exec (path : list Z) (argv : list (list Z)) : K Z :=
  begin_op;;
  o ← namei path;
  match o with
  | None => end_op;; cprintf "exec: fail\n";; mret (-1)
  | Some ip =>
      ilock ip;;
      '(r, elf) ← readi ip 0 ELFHDRSIZE;
      if negb (r =? ELFHDRSIZE) then exec_bad 0 (Some ip)
      else if negb (elf_magic elf =? ELF_MAGIC) then exec_bad 0 (Some ip)
      else
        pgdir ← setupkvm;
        if pgdir =? 0 then exec_bad 0 (Some ip)
        else
          r ← load_segments ip pgdir elf;
          match r with
          | inr _ => exec_bad pgdir (Some ip)
          | inl sz =>
              iunlockput ip;;
              end_op;;
              exec_stack path argv pgdir sz (elf_entry elf)
          end
  end.

(** The arguments of [sys_exec] from index [i] on; [None] is -1. *)
Fixpoint fetch_argv (uargv i : Z) (n : nat) : K (option (list (list Z))) :=
  match n with
  | O => mret None
  | S n =>
      o ← fetchint (u32 (uargv + 4 * i));
      match o with
      | None => mret None
      | Some uarg =>
          if uarg =? 0 then mret (Some [])
          else
            o ← fetchstr (u32 uarg);
            match o with
            | None => mret None
            | Some arg => r ← fetch_argv uargv (i + 1) n; mret (cons arg <$> r)
            end
      end
  end.

Definition sys_exec : K Z :=
  o ← argstr 0;
  match o with
  | None => mret (-1)
  | Some path =>
      o ← argint 1;
      match o with
      | None => mret (-1)
      | Some uargv =>
          o ← fetch_argv (u32 uargv) 0 (Z.to_nat MAXARG);
          match o with
          | None => mret (-1)
          | Some argv => exec path argv
          end
      end
  end.
End exec.
