(* ===== verification/ExecStack.v ===== *)
(** * The stack of a new program

    The part of [exec] of [exec.c] after the program is loaded: the guard page
    and the stack page, the argument strings and the words that [main] finds
    on its stack, the commit to the new image and the release of the old
    one. *)

From Stdlib Require Import ZArith Lia.
From stdpp Require Import base strings numbers gmap list.
From S2P Require Import Prelude Mmu Memory Kernel Sample Sleeplock Bio Kmem Rmap PageTable Swap Kalloc Vm VmKernel SampleTables VmUser VmGrow VmShrink VmFree SwapOut.
From S2P Require Import Fs File Proc Fork Reap Syscall Sysfile Exec.

(** ** Where the arguments go *)

(** The stack pointer after the string [arg] was pushed. *)
Definition below (sp : Z) (arg : list Z) : Z := (sp - (Z.of_nat (length arg) + 1)) / 4 * 4.
Fixpoint pointers (sp : Z) (argv : list (list Z)) : list Z :=
  match argv with [] => [] | a :: argv => below sp a :: pointers (below sp a) argv end.
Definition strings_end (sp : Z) (argv : list (list Z)) : Z := foldl below sp argv.
(** The stack pointer of the new program. *)
Definition start_esp (top : Z) (argv : list (list Z)) : Z := strings_end top argv - 4 * (Z.of_nat (length argv) + 4).

Lemma below_lt sp arg : below sp arg < sp.
Proof. unfold below. zdiv. Qed.
Lemma strings_end_le sp argv : strings_end sp argv <= sp.
Proof.
  revert sp. induction argv as [|a argv IH]; intros sp; [done|]. unfold strings_end in *. cbn. specialize (IH (below sp a)).
  pose proof (below_lt sp a). lia.
Qed.
Lemma strings_end_aligned sp argv : sp mod 4 = 0 -> strings_end sp argv mod 4 = 0.
Proof.
  revert sp. induction argv as [|a argv IH]; intros sp Hsp; [done|]. unfold strings_end in *. cbn. apply IH. unfold below. zdiv.
Qed.
Lemma length_pointers sp argv : length (pointers sp argv) = length argv.
Proof. revert sp. induction argv as [|a argv IH]; intros sp; [done|]. cbn. by rewrite IH. Qed.

Lemma land_word_mask x : Z.land x (Z.lnot 3) = x / 4 * 4.
Proof.
  change (Z.lnot 3) with (Z.lnot (Z.ones 2)). rewrite <-Z.ldiff_land, Z.ldiff_ones_r by lia.
  by rewrite Z.shiftl_mul_pow2, Z.shiftr_div_pow2 by lia.
Qed.

(** ** Bytes in memory *)

(** The bytes [l] are at [a]. *)
Definition holds (m : mem) (a : Z) (l : list Z) : Prop := forall i b, l !! i = Some b -> ldb m (a + Z.of_nat i) = b.
Definition byte_list (l : list Z) : Prop := Forall (fun b => 0 <= b < 256) l.

Lemma put_bytes_holds m a l : byte_list l -> holds (put_bytes m a l) a l.
Proof.
  intros Hl i b Hi. rewrite ldb_put_bytes. assert (i < length l)%nat by (by eapply lookup_lt_Some). rewrite decide_True by lia.
  replace (Z.to_nat (a + Z.of_nat i - a)) with i by lia. rewrite (nth_lookup_Some _ _ _ _ Hi). apply Z.mod_small.
  by apply (proj1 (Forall_lookup _ _) Hl i).
Qed.
Lemma put_bytes_out m a l b : b < a \/ a + Z.of_nat (length l) <= b -> ldb (put_bytes m a l) b = ldb m b.
Proof. intros. rewrite ldb_put_bytes. by rewrite decide_False by lia. Qed.
Lemma holds_same m m' a l : holds m a l -> (forall b, a <= b < a + Z.of_nat (length l) -> ldb m' b = ldb m b) -> holds m' a l.
Proof. intros H E i b Hi. rewrite E; [by apply H|]. apply lookup_lt_Some in Hi. lia. Qed.
Lemma holds_app m a l l' : holds m a (l ++ l') <-> holds m a l /\ holds m (a + Z.of_nat (length l)) l'.
Proof.
  split.
  - intros H. split; intros i b Hi; [apply H; by apply lookup_app_l_Some|].
    rewrite <-Z.add_assoc, <-Nat2Z.inj_add. apply H. by rewrite lookup_app_r, Nat.add_comm, Nat.add_sub by lia.
  - intros [H1 H2] i b [Hi|[Hi Hj]]%lookup_app_Some; [by apply H1|]. replace (a + Z.of_nat i) with (a + Z.of_nat (length l) + Z.of_nat (i - length l)) by lia.
    by apply H2.
Qed.

Lemma le_bytes_range n v : byte_list (le_bytes n v).
Proof. apply Forall_forall. unfold le_bytes. intros b (i & -> & _)%list_elem_of_fmap. zdiv. Qed.
Lemma length_le_bytes n v : length (le_bytes n v) = n.
Proof. unfold le_bytes. rewrite length_fmap, length_seqZ. lia. Qed.
Lemma holds_word m a v : holds m a (le_bytes 4 v) -> ld m a = u32 v.
Proof.
  intros H. unfold ld. pose proof (H 0%nat _ eq_refl) as H0. pose proof (H 1%nat _ eq_refl) as H1.
  pose proof (H 2%nat _ eq_refl) as H2. pose proof (H 3%nat _ eq_refl) as H3. cbn [Z.of_nat] in *.
  change (Z.of_nat 1) with 1 in *. change (Z.of_nat 2) with 2 in *. change (Z.of_nat 3) with 3 in *.
  rewrite Z.add_0_r in H0. rewrite H0, H1, H2, H3. unfold u32, two32.
  change (256 ^ (0 + 0)) with 1. change (256 ^ (0 + 1)) with 256. change (256 ^ (0 + 2)) with 65536. change (256 ^ (0 + 3)) with 16777216.
  rewrite Z.div_1_r. zdiv.
Qed.

(** ** The pushes *)

Section pushes.
Context {I : KernelImage} {Iok : KernelImageOk I}.
(** The stack page of [P] is at [base], in the frame [f]. *)
Context (P base f : Z).

Record stack_page (m : mem) : Prop := {
  sp_wf : pt_wf m P;
  sp_base : base mod PGSIZE = 0 /\ 0 <= base /\ base + PGSIZE <= KERNBASE;
  sp_frame : page_ok f /\ ~ owns m P f;
  sp_pte : has (pte_of m P base) PTE_P = true /\ has (pte_of m P base) PTE_U = true /\ P2V (PTE_ADDR (pte_of m P base)) = f;
}.

Lemma stack_page_put m a l : stack_page m -> f <= a -> a + Z.of_nat (length l) <= f + PGSIZE -> stack_page (put_bytes m a l).
Proof.
  intros [Hw Hb [Hf Ho] Hp] Ha Hl.
  assert (forall p, owns m P p -> same_page m (put_bytes m a l) p) as Hsame.
  { intros p Hp' b Hb'. apply put_bytes_out. assert (p <> f) by (by intros ->). destruct (owns_page_ok _ _ _ Hw Hp'), Hf. klia. }
  split; [by eapply frame_pt_wf|done| |].
  - split; [done|]. by rewrite (frame_owns _ _ _ Hsame).
  - by rewrite (frame_pte_of _ _ _ Hsame).
Qed.

Lemma wp_copyout_bytes va l Q s : stack_page (k_mem s) -> l <> [] -> base <= va -> va + Z.of_nat (length l) <= base + PGSIZE ->
  Q 0 (set_k_mem (put_bytes (k_mem s) (f + (va - base)) l) s) -> wp (copyout_bytes P va l) Q s.
Proof.
  intros [Hw (Hb1 & Hb2 & Hb3) [Hf Ho] (Hp & Hu & Ef)] Hl Hva Hlen HQ. unfold copyout_bytes.
  assert (0 < length l)%nat as Hl0 by (destruct l; [done|cbn; lia]).
  assert (PGROUNDDOWN va = base) as E by (rewrite PGROUNDDOWN_eq, u32_small by klia; klia).
  destruct (pte_present_addr _ _ _ Hp) as (a & Ha & Eld).
  apply wp_while_S. destruct l as [|x l0]; [done|]. cbv beta iota zeta. set (l := x :: l0) in *. rewrite E.
  wp_step. unfold uva2ka. wp_step. eapply wp_walkpgdir_Some; [exact Ha|]. wp_step.
  apply wp_deref; [by eapply pt_addr_nonzero|]. rewrite Eld, Hp, Hu, Ef. cbn [negb]. wp_step.
  rewrite (proj2 (Z.eqb_neq _ _)) by (by apply page_ok_nonzero). wp_step. apply wp_modify_mem. wp_step.
  rewrite take_ge, drop_ge by lia. change (length l) with (S (length l0)). apply wp_while_S. wp_step. exact HQ.
Qed.

(** Memory after the strings were pushed. *)
Fixpoint pushed (m : mem) (sp : Z) (argv : list (list Z)) : mem :=
  match argv with
  | [] => m
  | a :: argv => pushed (put_bytes m (f + (below sp a - base)) (a ++ [0])) (below sp a) argv
  end.

Lemma pushed_out m sp argv b : b < f + (strings_end sp argv - base) \/ f + (sp - base) <= b -> ldb (pushed m sp argv) b = ldb m b.
Proof.
  revert m sp. induction argv as [|a argv IH]; intros m sp Hb; [done|]. cbn. unfold strings_end in *. cbn in Hb.
  pose proof (strings_end_le (below sp a) argv) as Hle. unfold strings_end in Hle. pose proof (below_lt sp a).
  rewrite IH by lia. apply put_bytes_out. rewrite length_app. cbn. unfold below in *. zdiv.
Qed.

Lemma pushed_page m sp argv : stack_page m -> base <= strings_end sp argv -> sp <= base + PGSIZE -> stack_page (pushed m sp argv).
Proof.
  revert m sp. induction argv as [|a argv IH]; intros m sp Hm Hb Hsp; [done|]. cbn. unfold strings_end in *. cbn in Hb.
  pose proof (strings_end_le (below sp a) argv) as Hle. unfold strings_end in Hle. pose proof (below_lt sp a).
  apply IH; [|done|lia]. apply stack_page_put; [done|lia|]. rewrite length_app. cbn. unfold below in *. zdiv.
Qed.

Lemma pushed_holds m sp argv : Forall byte_list argv ->
  Forall2 (fun p a => strings_end sp argv <= p /\ p + Z.of_nat (length a) + 1 <= sp /\
    holds (pushed m sp argv) (f + (p - base)) (a ++ [0])) (pointers sp argv) argv.
Proof.
  intros Hby. revert m sp. induction Hby as [|a argv Ha _ IH]; intros m sp; [constructor|]. cbn. unfold strings_end in *. cbn.
  pose proof (strings_end_le (below sp a) argv) as Hle. unfold strings_end in Hle. pose proof (below_lt sp a).
  assert (below sp a + Z.of_nat (length a) + 1 <= sp) as Hlen by (unfold below; zdiv). constructor.
  - split; [lia|]. split; [lia|]. eapply holds_same; [apply put_bytes_holds; apply Forall_app; split; [done|by repeat constructor]|].
    intros b Hb. apply pushed_out. right. lia.
  - eapply Forall2_impl; [apply IH|]. cbn. intros p a' (? & ? & ?). split_and!; [done|lia|done].
Qed.

(** Only the bytes of the strings matter for [below]. *)
Lemma push_below sp a : 0 <= sp - (Z.of_nat (length a) + 1) -> sp < two32 ->
  Z.land (u32 (sp - (Z.of_nat (length a) + 1))) (Z.lnot 3) = below sp a.
Proof. intros. by rewrite land_word_mask, u32_small by lia. Qed.

Lemma wp_push_args argv sp ptrs Q s : stack_page (k_mem s) -> base <= strings_end sp argv -> sp <= base + PGSIZE ->
  Z.of_nat (length ptrs + length argv) <= MAXARG ->
  Q (inl (strings_end sp argv, ptrs ++ pointers sp argv)) (set_k_mem (pushed (k_mem s) sp argv) s) ->
  wp (for_ argv (push_arg P) (sp, ptrs)) Q s.
Proof.
  revert sp ptrs s. induction argv as [|a argv IH]; intros sp ptrs s Hm Hb Hsp Hn HQ.
  { apply wp_ret. cbn in HQ. rewrite app_nil_r in HQ. by destruct s. }
  pose proof (sp_base _ Hm) as (Hb1 & Hb2 & Hb3). unfold strings_end in Hb. cbn in Hb.
  pose proof (strings_end_le (below sp a) argv) as Hle. unfold strings_end in Hle. pose proof (below_lt sp a).
  assert (below sp a + Z.of_nat (length a) + 1 <= sp) as Hlen by (unfold below; zdiv).
  cbn [for_]. wp_step. unfold push_arg. cbn [length] in Hn. rewrite (proj2 (Z.leb_gt _ _)) by lia. cbv zeta.
  rewrite push_below by klia. wp_step. apply wp_copyout_bytes; [done|by destruct a|lia|rewrite length_app; cbn; lia|].
  cbv beta. rewrite (proj2 (Z.ltb_ge _ _)) by lia. wp_step. apply IH.
  - apply stack_page_put; [done|lia|]. rewrite length_app. cbn. lia.
  - done.
  - lia.
  - rewrite length_app. cbn. lia.
  - cbn in HQ. rewrite <-app_assoc. exact HQ.
Qed.
End pushes.

(** ** Building the stack *)

Section build.
Context {I : KernelImage} {Iok : KernelImageOk I}.

(** The page table [P] of the new program, of [n] pages, can take two pages
    more from the free list [l]. *)
Record loaded s (c : nat) pr P (n : nat) l : Prop := {
  ld_cur : k_cur s = Some c;
  ld_proc : k_proc s !! c = Some pr;
  ld_rss : 0 <= p_rss pr < two32;
  ld_ready : pt_ready s P l;
  ld_size : Z.of_nat (n + 2) * PGSIZE < KERNBASE;
  ld_absent : forall va, Z.of_nat n * PGSIZE <= va < Z.of_nat (n + 2) * PGSIZE -> has (pte_of (k_mem s) P va) PTE_P = false;
  ld_free : forall p, p ∈ l -> mapped_by s (V2P p / PGSIZE) [];
  ld_room : (4 <= length l)%nat;
}.

Lemma npages_pages n : npages (Z.of_nat n * PGSIZE) = n.
Proof. unfold npages. klia. Qed.

Lemma clear_U e : 0 <= e < two32 -> has (u32 (Z.land e (Z.lnot PTE_U))) PTE_U = false.
Proof.
  intros He. rewrite u32_small by (by apply land_u32_range). unfold has.
  rewrite <-Z.land_assoc. change (Z.land (Z.lnot PTE_U) PTE_U) with 0. by rewrite Z.land_0_r.
Qed.

(** The guard page and the stack page are there, the latter in the frame
    [f]; the pages [used] were taken for them. *)
Record two_pages s (c : nat) pr P (n : nat) l used l' (f : Z) s' : Prop := {
  tp_list : l = used ++ l';
  tp_ready : pt_ready s' P l';
  tp_owns : forall p, owns (k_mem s') P p -> owns (k_mem s) P p \/ p ∈ used;
  tp_frame : forall p, p mod PGSIZE = 0 -> ~ owns (k_mem s) P p -> p ∉ used -> same_page (k_mem s) (k_mem s') p;
  tp_old : forall va, 0 <= va < Z.of_nat n * PGSIZE -> pte_of (k_mem s') P va = pte_of (k_mem s) P va;
  tp_guard : forall va, Z.of_nat n * PGSIZE <= va < Z.of_nat (n + 1) * PGSIZE -> has (pte_of (k_mem s') P va) PTE_U = false;
  tp_stack : forall va, Z.of_nat (n + 1) * PGSIZE <= va < Z.of_nat (n + 2) * PGSIZE -> pte_of (k_mem s') P va = user_entry f;
  tp_used : f ∈ used /\ page_ok f /\ ~ owns (k_mem s') P f;
  tp_rmap : forall pg, (forall p, p ∈ used -> V2P p / PGSIZE <> pg) -> zlookup (k_rmap s') pg = zlookup (k_rmap s) pg;
  tp_proc : k_proc s' = <[c := add_rss (2 * PGSIZE) pr]> (k_proc s);
  tp_vm : vm_step s s';
}.

Lemma vm_step_mem s s' m : vm_step s s' -> vm_step s (set_k_mem m s').
Proof. intros (f & n & m' & g & r & ps & ->). by exists f, n, m, g, r, ps. Qed.

Lemma pt_ready_store s P l va a v : pt_ready s P l -> pt_addr (k_mem s) P va = Some a -> pt_ready (set_k_mem (st (k_mem s) a v) s) P l.
Proof.
  intros [Hf Hu Hw Hfr] Ha. destruct (pt_addr_Some _ _ _ _ Hw Ha) as (t & Ht & Hok & Hne & Ea). split; ksimpl.
  - apply kmem_step_free_ok_mem; [|done]. intros q Hq. rewrite ld_st_ne; [done|].
    pose proof (proj1 (Forall_forall _ _) (free_pages _ _ Hf) q Hq) as [Hq0 _].
    assert (q <> t) as Hqt. { intros ->. apply (Hfr t Hq). right. exists (PDX va). split; [apply PDX_range|done]. }
    pose proof (PTX_range va). destruct Hok. klia.
  - done.
  - by apply store_pte_wf with va.
  - intros p Hp. rewrite (store_pte_owns _ _ va) by done. by apply Hfr.
Qed.

Lemma wp_guard s c pr P n l s1 used l1 Q : loaded s c pr P n l -> grown s l P c pr n (n + 2) s1 used l1 ->
  (forall s' f, two_pages s c pr P n l used l1 f s' -> Q tt s') ->
  wp (clearpteu P (Z.of_nat n * PGSIZE)) Q s1.
Proof.
  intros Hl [Gl Gr Go Gf Gold Gnew Gfree Grm Gpr Gvm] HQ. pose proof (ld_size _ _ _ _ _ _ Hl) as Hsz.
  destruct (Gnew n ltac:(lia)) as (g & Hg & Fg & Fpte & _ & a & Ha & _).
  destruct (Gnew (n + 1)%nat ltac:(lia)) as (f & Hf & Ff & Fpte' & _).
  pose proof (Fpte (Z.of_nat n * PGSIZE) ltac:(klia)) as Eg. unfold pte_of in Eg. rewrite Ha in Eg.
  pose proof (pr_wf _ _ _ Gr) as Hw. assert (forall p, p ∈ l -> page_ok p) as Hok.
  { apply Forall_forall, (free_pages _ _ (pr_free _ _ _ (ld_ready _ _ _ _ _ _ Hl))). }
  unfold clearpteu. wp_step. eapply wp_walkpgdir_Some; [exact Ha|].
  rewrite (proj2 (Z.eqb_neq _ _)) by (by eapply pt_addr_nonzero). wp_step. apply wp_load. apply wp_store. rewrite Eg.
  apply (HQ _ f). split; ksimpl.
  - done.
  - by eapply pt_ready_store.
  - intros p. rewrite (store_pte_owns _ _ (Z.of_nat n * PGSIZE)) by done. apply Go.
  - intros p Hp Ho Hu. eapply same_page_trans; [by apply Gf|]. destruct (pt_addr_Some _ _ _ _ Hw Ha) as (t & Ht & [Ht0 _] & _ & ->).
    assert (p <> t) as Hne. { intros ->. destruct (Go t) as [?|?]; [right; exists (PDX (Z.of_nat n * PGSIZE)); split; [apply PDX_range|done]|done..]. }
    intros b Hb. apply ldb_st_ne. pose proof (PTX_range (Z.of_nat n * PGSIZE)). klia.
  - intros va Hva. rewrite (store_pte_of _ _ _ _ _ Hw Ha), decide_False; [apply Gold; klia|].
    intros E%same_vpage_aligned; klia.
  - intros va Hva. rewrite (store_pte_of _ _ _ _ _ Hw Ha), decide_True; [apply clear_U; rewrite <-Eg; apply ld_range|].
    apply same_vpage_aligned; klia.
  - intros va Hva. rewrite (store_pte_of _ _ _ _ _ Hw Ha), decide_False; [apply Fpte'; klia|]. intros E%same_vpage_aligned; klia.
  - split; [done|]. split; [apply Hok; rewrite Gl; set_solver|]. by rewrite (store_pte_owns _ _ (Z.of_nat n * PGSIZE)) by done.
  - done.
  - rewrite Gpr. do 3 f_equal. lia.
  - by apply vm_step_mem.
Qed.

(** Writes on the stack page keep this. *)
Lemma two_pages_write s c pr P n l used l' f s' m : two_pages s c pr P n l used l' f s' ->
  NoDup l -> (forall b, b < f \/ f + PGSIZE <= b -> ldb m b = ldb (k_mem s') b) ->
  two_pages s c pr P n l used l' f (set_k_mem m s').
Proof.
  intros [Tl [Rf Ru Rw Rfr] To Tf Told Tg Ts (Tu & Tp & Tn) Trm Tpr Tvm] Hnd Hm.
  assert (forall p, p mod PGSIZE = 0 -> p <> f -> same_page (k_mem s') m p) as Hs.
  { intros p Hp Hpf b Hb. apply Hm. destruct Tp. klia. }
  assert (forall p, owns (k_mem s') P p -> same_page (k_mem s') m p) as Hsame.
  { intros p Hp. apply Hs; [by apply (owns_page_ok _ _ _ Rw Hp)|by intros ->]. }
  split; ksimpl.
  - done.
  - split; ksimpl; [|done|by eapply frame_pt_wf|intros p Hp; rewrite (frame_owns _ _ _ Hsame); by apply Rfr].
    apply kmem_step_free_ok_mem; [|done]. intros q Hq. pose proof (proj1 (Forall_forall _ _) (free_pages _ _ Rf) q Hq) as [Hq0 _].
    apply ld_ext. intros o Ho. apply (Hs q); [done| |klia]. intros ->. rewrite Tl in Hnd. apply NoDup_app in Hnd as (_ & Hx & _). by apply (Hx f).
  - intros p. rewrite (frame_owns _ _ _ Hsame). apply To.
  - intros p Hp Ho Hu. eapply same_page_trans; [by apply Tf|]. apply Hs; [done|by intros ->].
  - intros va Hva. rewrite (frame_pte_of _ _ _ Hsame). by apply Told.
  - intros va Hva. rewrite (frame_pte_of _ _ _ Hsame). by apply Tg.
  - intros va Hva. rewrite (frame_pte_of _ _ _ Hsame). by apply Ts.
  - split; [done|]. split; [done|]. by rewrite (frame_owns _ _ _ Hsame).
  - done.
  - done.
  - by apply vm_step_mem.
Qed.

Lemma two_pages_stack s c pr P n l used l' f s' : two_pages s c pr P n l used l' f s' -> Z.of_nat (n + 2) * PGSIZE < KERNBASE ->
  stack_page P (Z.of_nat (n + 1) * PGSIZE) f (k_mem s').
Proof.
  intros [_ Hr _ _ _ _ Hs (_ & Hf & Ho) _ _ _] Hsz. split; [apply Hr|klia|done|]. rewrite Hs by klia.
  destruct (user_entry_facts f Hf) as (? & ? & _ & ?). done.
Qed.

(** The words below the strings, and all that is on the stack page. *)
Definition start_words (top : Z) (argv : list (list Z)) : list Z :=
  [0xffffffff; Z.of_nat (length argv); start_esp top argv + 12] ++ pointers top argv ++ [0].
Record stack_built s c pr P (n : nat) argv l used l' (f : Z) s' : Prop := {
  sb_pages : two_pages s c pr P n l used l' f s';
  sb_strings : Forall2 (fun p a => Z.of_nat (n + 1) * PGSIZE <= p /\ p + Z.of_nat (length a) + 1 <= Z.of_nat (n + 2) * PGSIZE /\
    holds (k_mem s') (f + (p - Z.of_nat (n + 1) * PGSIZE)) (a ++ [0])) (pointers (Z.of_nat (n + 2) * PGSIZE) argv) argv;
  sb_words : holds (k_mem s') (f + (start_esp (Z.of_nat (n + 2) * PGSIZE) argv - Z.of_nat (n + 1) * PGSIZE))
    (mjoin (le_bytes 4 <$> start_words (Z.of_nat (n + 2) * PGSIZE) argv));
}.

Lemma length_words ws : length (mjoin (le_bytes 4 <$> ws)) = (4 * length ws)%nat.
Proof. induction ws as [|w ws IH]; [done|]. change (length (le_bytes 4 w ++ mjoin (le_bytes 4 <$> ws)) = (4 * S (length ws))%nat). rewrite length_app, length_le_bytes, IH. lia. Qed.
Lemma words_bytes ws : byte_list (mjoin (le_bytes 4 <$> ws)).
Proof. induction ws as [|w ws IH]; [constructor|]. change (byte_list (le_bytes 4 w ++ mjoin (le_bytes 4 <$> ws))). apply Forall_app. split; [apply le_bytes_range|done]. Qed.
Lemma length_start_words top argv : length (start_words top argv) = (length argv + 4)%nat.
Proof. unfold start_words. rewrite !length_app, length_pointers. cbn. lia. Qed.
Lemma start_words_ustack top argv : 0 <= start_esp top argv -> strings_end top argv < two32 ->
  ustack (strings_end top argv) (pointers top argv) = start_words top argv.
Proof.
  intros H1 H2. unfold ustack, start_words. rewrite length_pointers. cbv zeta.
  replace (u32 _) with (start_esp top argv + 12); [done|]. unfold start_esp in *. rewrite u32_small by lia. lia.
Qed.

Lemma built_of_pages s c pr P n argv l used l' f s' : two_pages s c pr P n l used l' f s' -> NoDup l -> Forall byte_list argv ->
  let base := Z.of_nat (n + 1) * PGSIZE in let top := Z.of_nat (n + 2) * PGSIZE in let esp := start_esp top argv in
  base <= esp ->
  stack_built s c pr P n argv l used l' f
    (set_k_mem (put_bytes (pushed base f (k_mem s') top argv) (f + (esp - base)) (mjoin (le_bytes 4 <$> start_words top argv))) s').
Proof.
  intros Hp Hnd Hby base top esp Hesp. assert (top = base + PGSIZE) as Etop by (unfold top, base; lia).
  pose proof (strings_end_le top argv) as Hse. assert (esp + Z.of_nat (4 * (length argv + 4)) = strings_end top argv) as Ee by (unfold esp, start_esp; lia).
  split; ksimpl.
  - apply two_pages_write; [done|done|]. intros b Hb. rewrite put_bytes_out by (rewrite length_words, length_start_words; lia).
    apply pushed_out. lia.
  - fold base top. eapply Forall2_impl; [apply (pushed_holds base f (k_mem s') top argv Hby)|]. cbn beta. intros p a (H1 & H2 & H3).
    split; [lia|]. split; [done|]. eapply holds_same; [exact H3|]. intros b Hb. apply put_bytes_out.
    rewrite length_words, length_start_words. lia.
  - apply put_bytes_holds, words_bytes.
Qed.

(** [exec_stack] up to the commit, when the arguments fit. *)
Lemma wp_build path argv P sz entry c pr n l Q s : loaded s c pr P n l -> 0 <= sz < KERNBASE -> n = npages sz ->
  let base := Z.of_nat (n + 1) * PGSIZE in let top := Z.of_nat (n + 2) * PGSIZE in let esp := start_esp top argv in
  Forall byte_list argv -> Z.of_nat (length argv) <= MAXARG -> base <= esp ->
  (forall s' used l' f, stack_built s c pr P n argv l used l' f s' -> wp (exec_commit path P top entry esp) Q s') ->
  wp (exec_stack path argv P sz entry) Q s.
Proof.
  intros Hl Hsz Hn base top esp Hby Hmax Hesp HQ. pose proof Hl as [Hcur Hpr Hrss Hr Hbound Habs Hfree Hroom].
  assert (NoDup l) as Hnd by apply (free_nodup _ _ (pr_free _ _ _ Hr)).
  pose proof (strings_end_le top argv) as Hse. assert (top = base + PGSIZE) as Etop by (unfold top, base; lia).
  unfold exec_stack. cbv zeta. rewrite PGROUNDUP_npages, <-Hn by lia.
  assert (u32 (Z.of_nat n * PGSIZE + 2 * PGSIZE) = top) as Eu by (rewrite u32_small by klia; unfold top; lia).
  rewrite Eu. wp_step. apply (wp_allocuvm P _ _ c pr l); [done|unfold top; klia|done|done|done|done| | | |].
  - unfold top. by rewrite !npages_pages.
  - done.
  - unfold top. rewrite !npages_pages. replace (n + 2 - n)%nat with 2%nat by lia. exact Hroom.
  - unfold top at 1. rewrite !npages_pages. fold top. intros s1 used l1 Hg. cbv beta.
    rewrite (proj2 (Z.eqb_neq _ _)) by (unfold top; klia). wp_step.
    assert (u32 (top - 2 * PGSIZE) = Z.of_nat n * PGSIZE) as Eg by (rewrite u32_small by (unfold top; klia); unfold top; lia).
    rewrite Eg. eapply wp_guard; [exact Hl|exact Hg|]. intros s2 f Hp. pose proof (two_pages_stack _ _ _ _ _ _ _ _ _ _ Hp Hbound) as Hsp.
    fold base in Hsp. wp_step. apply (wp_push_args P base f); [done|unfold esp, start_esp in Hesp; lia|lia|cbn; lia|].
    cbv beta iota zeta. cbn [app]. rewrite start_words_ustack, length_start_words by (unfold top in *; klia). fold esp.
    assert (u32 (strings_end top argv - Z.of_nat (length argv + 4) * 4) = esp) as Ee.
    { rewrite u32_small by (unfold esp, start_esp, top in *; klia). unfold esp, start_esp. lia. }
    rewrite Ee. wp_step. apply (wp_copyout_bytes P base f).
    + ksimpl. apply pushed_page; [done|unfold esp, start_esp in Hesp; lia|lia].
    + intros E%(f_equal length). rewrite length_words, length_start_words in E. cbn in E. lia.
    + done.
    + rewrite length_words, length_start_words. unfold esp, start_esp. lia.
    + cbv beta. rewrite (proj2 (Z.ltb_ge _ _)) by lia. apply (HQ _ used l1 f).
      exact (built_of_pages _ _ _ _ _ argv _ _ _ _ _ Hp Hnd Hby Hesp).
Qed.
End build.

(** ** The commit *)

Section commit.
Context {I : KernelImage} {Iok : KernelImageOk I}.

(** An address space when other pages change. *)
Lemma space_frame s s' P own l used l' : space s P own l -> l = used ++ l' -> free_ok s' l' -> kmem_unlocked s' ->
  (forall p, owns (k_mem s) P p -> same_page (k_mem s) (k_mem s') p) ->
  (forall pg, (forall p, p ∈ used -> V2P p / PGSIZE <> pg) -> zlookup (k_rmap s') pg = zlookup (k_rmap s) pg) ->
  space s' P own l' /\ untouched (k_mem s) (k_mem s') P.
Proof.
  intros [[Hf Hu Hw Hfr] Hpage Hinj Hown] El Hf' Hu' Hsame Hrm. pose proof (untouched_frame _ _ _ Hsame) as Hut. split; [|done].
  assert (forall k, upte s' P k = upte s P k) as E by (intros; apply Hut).
  assert (forall p, p ∈ l' -> p ∈ l) as Hsub by (intros p Hp; rewrite El; apply elem_of_app; by right).
  split.
  - split; [done|done|by eapply frame_pt_wf|]. intros p Hp. rewrite (ut_owns _ _ _ Hut). by apply Hfr, Hsub.
  - intros k Hk. rewrite E, (ut_owns _ _ _ Hut). intros Hp. destruct (Hpage k Hk Hp) as (? & Hn & ?). split_and!; [done| |done].
    intros Hin. by apply Hn, Hsub.
  - intros j k Hjk. rewrite !E. by apply Hinj.
  - intros k Hk. rewrite E, (ut_addr _ _ _ Hut). intros Hp. destruct (Hown k Hk Hp) as (a & Ha & Hm). exists a. split; [done|].
    unfold mapped_by. rewrite Hrm; [done|]. intros p Hpu Eq. destruct (Hpage k Hk Hp) as (Hok & Hn & _). apply Hn.
    assert (p ∈ l) as Hpl by (rewrite El; apply elem_of_app; by left). rewrite <-(frame_num_inj p (P2V (PTE_ADDR (upte s P k)))); [done| |done|].
    + by apply (proj1 (Forall_forall _ _) (free_pages _ _ Hf)).
    + rewrite Eq. f_equal. symmetry. apply V2P_P2V. pose proof (PTE_ADDR_range (upte s P k)). klia.
Qed.

Lemma private_untouched s s' P own x : untouched (k_mem s) (k_mem s') P -> private s' P own x <-> private s P own x.
Proof.
  intros Hut. unfold private. assert (forall k, upte s' P k = upte s P k) as E by (intros; apply Hut).
  rewrite (ut_owns _ _ _ Hut). by setoid_rewrite E.
Qed.

(** The entry of the process table after the commit. *)
Definition committed (path : list Z) (P sz : Z) (p : proc) : proc :=
  set_p_sz sz (set_p_pgdir P (set_p_name (set_name (last_elem path path ++ [0]) (p_name p)) p)).

(** The state in which the old address space is released. *)
Record commit_state path P sz entry esp (c : nat) p s s' : Prop := {
  cs_mem : k_mem s' = st (st (k_mem s) (p_tf p + tf_eip) entry) (p_tf p + tf_esp) esp;
  cs_proc : k_proc s' = <[c := committed path P sz p]> (k_proc s);
  cs_same : k_rmap s' = k_rmap s /\ k_freelist s' = k_freelist s /\ k_nfree s' = k_nfree s /\ k_cur s' = k_cur s /\
    k_use_lock s' = k_use_lock s /\ k_held s' = k_held s;
  cs_cr3 : k_cr3 s' = V2P P;
}.

Lemma wp_exec_commit path P sz entry esp c p Q s : k_cur s = Some c -> k_proc s !! c = Some p -> p_kstack p <> 0 -> P <> 0 ->
  (forall s', commit_state path P sz entry esp c p s s' -> wp (freevm (p_pgdir p);; mret 0) Q s') ->
  wp (exec_commit path P sz entry esp) Q s.
Proof.
  intros Hc Hp Hk HP HQ. unfold exec_commit. assert (c < length (k_proc s))%nat as Hi by (by eapply lookup_lt_Some).
  wp_step. apply (wp_curproc c); [done|]. wp_step. eapply wp_upd_proc; [exact Hp|].
  wp_step. eapply wp_get_proc; [ksimpl; by apply list_lookup_insert_eq|].
  do 2 (wp_step; eapply wp_upd_proc; [ksimpl; rewrite ?list_insert_insert_eq; by apply list_lookup_insert_eq|]; ksimpl; rewrite ?list_insert_insert_eq).
  do 2 (wp_step; apply wp_store). wp_step. unfold switchuvm. wp_step. eapply wp_get_proc; [ksimpl; by apply list_lookup_insert_eq|].
  ksimpl. rewrite (proj2 (Z.eqb_neq _ _)) by done. rewrite (proj2 (Z.eqb_neq _ _)) by done. wp_step. wp_step. unfold lcr3. wp_step.
  apply HQ. split; [reflexivity|reflexivity|by split_and!|reflexivity].
Qed.

(** The process that calls [exec]: its address space [own] is separate from
    the new page table [P], and its kernel stack with the trap frame is
    neither part of one of them nor free. *)
Record old_image s pr P own l : Prop := {
  oi_space : space s (p_pgdir pr) own l;
  oi_tables : forall p, owns (k_mem s) P p -> ~ private s (p_pgdir pr) own p /\ p <> p_kstack pr;
  oi_frames : frames (k_mem s) P (fun p => ~ owns (k_mem s) P p /\ p ∉ l /\ p <> p_kstack pr /\ ~ private s (p_pgdir pr) own p);
  oi_kstack : page_ok (p_kstack pr) /\ p_kstack pr ∉ l /\ ~ private s (p_pgdir pr) own (p_kstack pr);
  oi_tf : p_kstack pr <= p_tf pr /\ p_tf pr + TFSIZE <= p_kstack pr + PGSIZE;
}.

(** The bytes [l] at [va], as the program reads them. *)
Definition uholds (m : mem) P va (l : list Z) : Prop := forall i b, l !! i = Some b -> uread m P (va + Z.of_nat i) = Some b.

(** The new program of [n] pages is ready to run, the old image is gone. *)
Record started s s' (c : nat) pr path argv P (n : nat) entry own l : Prop := {
  st_proc : exists r, k_proc s' = <[c := set_p_rss r (committed path P (Z.of_nat (n + 2) * PGSIZE) pr)]> (k_proc s);
  st_regs : ld (k_mem s') (p_tf pr + tf_eip) = u32 entry /\
    ld (k_mem s') (p_tf pr + tf_esp) = start_esp (Z.of_nat (n + 2) * PGSIZE) argv;
  st_cr3 : k_cr3 s' = V2P P;
  st_image : forall va, 0 <= va < Z.of_nat n * PGSIZE -> uread (k_mem s') P va = uread (k_mem s) P va;
  st_guard : forall va, Z.of_nat n * PGSIZE <= va < Z.of_nat (n + 1) * PGSIZE -> uread (k_mem s') P va = None;
  st_stack : forall va b, Z.of_nat (n + 1) * PGSIZE <= va < Z.of_nat (n + 2) * PGSIZE -> is_Some (uwrite (k_mem s') P va b);
  st_words : uholds (k_mem s') P (start_esp (Z.of_nat (n + 2) * PGSIZE) argv)
    (mjoin (le_bytes 4 <$> start_words (Z.of_nat (n + 2) * PGSIZE) argv));
  st_strings : Forall2 (fun p a => uholds (k_mem s') P p (a ++ [0])) (pointers (Z.of_nat (n + 2) * PGSIZE) argv) argv;
  st_free : exists used freed l', l = used ++ l' /\ free_ok s' (freed ++ l') /\ forall p, p ∈ freed <-> private s (p_pgdir pr) own p;
  st_owner : forall k, (k < NPAGES)%nat -> has (upte s (p_pgdir pr) k) PTE_P = true ->
    mapped_by s' (PTE_ADDR (upte s (p_pgdir pr) k) / PGSIZE) (own k);
}.

Section release.
Context (s : kstate) (c : nat) (pr : proc) (path : list Z) (argv : list (list Z)) (P : Z) (n : nat) (entry : Z) (own : nat -> list Z) (l : list Z).
Context (s4 : kstate) (used l' : list Z) (f : Z) (s5 : kstate).
Context (Hl : loaded s c pr P n l) (Ho : old_image s pr P own l) (Hb : stack_built s c pr P n argv l used l' f s4).
Context (Hc : commit_state path P (Z.of_nat (n + 2) * PGSIZE) entry (start_esp (Z.of_nat (n + 2) * PGSIZE) argv) c (add_rss (2 * PGSIZE) pr) s4 s5).

(** The two stores into the trap frame. *)
Lemma release_tf p : p mod PGSIZE = 0 -> p <> p_kstack pr -> same_page (k_mem s4) (k_mem s5) p.
Proof.
  intros Hp Hne b Hb'. rewrite (cs_mem _ _ _ _ _ _ _ _ _ Hc). destruct (oi_kstack _ _ _ _ _ Ho) as ([Hk _] & _), (oi_tf _ _ _ _ _ Ho).
  unfold add_rss, set_p_rss, tf_eip, tf_esp, TFSIZE in *. ksimpl. rewrite !ldb_st_ne; [done|klia..].
Qed.

(** Nothing that is private to the old image was used. *)
Lemma release_private p : private s (p_pgdir pr) own p -> p ∉ l /\ p mod PGSIZE = 0.
Proof.
  destruct (oi_space _ _ _ _ _ Ho) as [[_ _ Hw Hfr] Hpg _ _]. intros [Hp|(k & Hk & Hp & _ & ->)].
  - split; [intros Hin; by apply (Hfr p)|]. by apply (owns_page_ok _ _ _ Hw Hp).
  - destruct (Hpg k Hk Hp) as ([? _] & ? & _). done.
Qed.

Lemma release_same p : p mod PGSIZE = 0 -> p <> p_kstack pr -> ~ owns (k_mem s) P p -> p ∉ l -> same_page (k_mem s) (k_mem s5) p.
Proof.
  intros Hp Hk Hno Hnl. pose proof (sb_pages _ _ _ _ _ _ _ _ _ _ _ Hb) as Ht. eapply same_page_trans; [|by apply release_tf].
  apply (tp_frame _ _ _ _ _ _ _ _ _ _ Ht); [done|done|]. intros Hin. apply Hnl. rewrite (tp_list _ _ _ _ _ _ _ _ _ _ Ht). set_solver.
Qed.

Lemma release_space : space s5 (p_pgdir pr) own l' /\ untouched (k_mem s) (k_mem s5) (p_pgdir pr).
Proof.
  pose proof (sb_pages _ _ _ _ _ _ _ _ _ _ _ Hb) as [Tl [Rf Ru Rw Rfr] _ _ _ _ _ _ Trm _ _].
  destruct (cs_same _ _ _ _ _ _ _ _ _ Hc) as (Erm & Ef & En & Ec & Eu & Eh).
  apply space_frame with l used; [apply Ho|done| | | |by rewrite Erm].
  - destruct Rf as [F1 F2 F3 F4]. split; [|by rewrite En|done|done]. rewrite Ef. eapply chain_frame; [|exact F1]. intros p Hp.
    assert (p ∈ l) as Hpl by (rewrite Tl; set_solver). pose proof (proj1 (Forall_forall _ _) F4 p Hp) as [Hp0 _].
    apply ld_ext. intros o Hr. apply (release_tf p); [done| |klia]. intros ->. by destruct (oi_kstack _ _ _ _ _ Ho) as (_ & ? & _).
  - unfold kmem_unlocked in *. by rewrite Eu, Eh.
  - intros p Hp. assert (private s (p_pgdir pr) own p) as Hpv by (by left). destruct (release_private p Hpv) as [Hnl Hp0].
    apply release_same; [done| | |done].
    + intros ->. by destruct (oi_kstack _ _ _ _ _ Ho) as (_ & _ & Hx).
    + intros Hown. by destruct (oi_tables _ _ _ _ _ Ho p Hown).
Qed.

(** What the program sees after the old image was released. *)
Context (s6 : kstate) (freed : list Z).
Context (Hf : space_freed s5 s6 (p_pgdir pr) own l' freed c (committed path P (Z.of_nat (n + 2) * PGSIZE) (add_rss (2 * PGSIZE) pr))).

Lemma release_keeps p : p mod PGSIZE = 0 -> p <> p_kstack pr -> ~ private s (p_pgdir pr) own p -> same_page (k_mem s4) (k_mem s6) p.
Proof.
  intros Hp Hk Hpv. eapply same_page_trans; [by apply release_tf|]. apply (sf_same _ _ _ _ _ _ _ _ Hf); [done|].
  by rewrite (private_untouched s s5) by apply release_space.
Qed.

Lemma release_used p : p ∈ used -> p mod PGSIZE = 0 /\ p <> p_kstack pr /\ ~ private s (p_pgdir pr) own p.
Proof.
  intros Hu. pose proof (tp_list _ _ _ _ _ _ _ _ _ _ (sb_pages _ _ _ _ _ _ _ _ _ _ _ Hb)) as El.
  assert (p ∈ l) as Hpl by (rewrite El; set_solver).
  pose proof (proj1 (Forall_forall _ _) (free_pages _ _ (pr_free _ _ _ (ld_ready _ _ _ _ _ _ Hl))) p Hpl) as [? _].
  split; [done|]. split; [|by intros [? _]%release_private]. intros ->. by destruct (oi_kstack _ _ _ _ _ Ho) as (_ & ? & _).
Qed.

Lemma release_table : untouched (k_mem s4) (k_mem s6) P.
Proof.
  pose proof (sb_pages _ _ _ _ _ _ _ _ _ _ _ Hb) as Ht. apply untouched_frame. intros p Hp.
  destruct (tp_owns _ _ _ _ _ _ _ _ _ _ Ht p Hp) as [Ho'|Hu].
  - destruct (oi_tables _ _ _ _ _ Ho p Ho') as [H1 H2]. apply release_keeps; [|done|done].
    by apply (owns_page_ok _ _ _ (pr_wf _ _ _ (tp_ready _ _ _ _ _ _ _ _ _ _ Ht)) Hp).
  - destruct (release_used p Hu) as (? & ? & ?). by apply release_keeps.
Qed.

Lemma release_stack va : Z.of_nat (n + 1) * PGSIZE <= va < Z.of_nat (n + 2) * PGSIZE ->
  uread (k_mem s6) P va = Some (ldb (k_mem s4) (f + (va - Z.of_nat (n + 1) * PGSIZE))) /\ forall b, is_Some (uwrite (k_mem s6) P va b).
Proof.
  intros Hva. pose proof (sb_pages _ _ _ _ _ _ _ _ _ _ _ Hb) as Ht. destruct (tp_used _ _ _ _ _ _ _ _ _ _ Ht) as (Hu & Hok & _).
  destruct (user_entry_facts f Hok) as (E1 & E2 & E3 & E4). unfold uread, uwrite.
  rewrite (ut_pte _ _ _ release_table), (tp_stack _ _ _ _ _ _ _ _ _ _ Ht va Hva), E1, E2, E3, E4. cbn. split; [|by eexists].
  destruct (release_used f Hu) as (H1 & H2 & H3). f_equal. rewrite (release_keeps f H1 H2 H3) by klia. f_equal. klia.
Qed.

Lemma release_holds va bs : Z.of_nat (n + 1) * PGSIZE <= va -> va + Z.of_nat (length bs) <= Z.of_nat (n + 2) * PGSIZE ->
  holds (k_mem s4) (f + (va - Z.of_nat (n + 1) * PGSIZE)) bs -> uholds (k_mem s6) P va bs.
Proof.
  intros H1 H2 Hh i b Hi. pose proof (lookup_lt_Some _ _ _ Hi). rewrite (proj1 (release_stack (va + Z.of_nat i) ltac:(lia))). f_equal.
  rewrite <-(Hh i b Hi). f_equal. lia.
Qed.

Lemma release_image va : 0 <= va < Z.of_nat n * PGSIZE -> uread (k_mem s6) P va = uread (k_mem s) P va.
Proof.
  intros Hva. pose proof (sb_pages _ _ _ _ _ _ _ _ _ _ _ Hb) as Ht. pose proof (ld_size _ _ _ _ _ _ Hl) as Hs.
  assert (pte_of (k_mem s6) P va = pte_of (k_mem s) P va) as E.
  { rewrite (ut_pte _ _ _ release_table). by apply (tp_old _ _ _ _ _ _ _ _ _ _ Ht). }
  eapply uread_same; [klia|by rewrite E..|apply (oi_frames _ _ _ _ _ Ho)|].
  intros p Hp (H1 & H2 & H3 & H4). eapply same_page_trans; [by apply release_same|].
  apply (sf_same _ _ _ _ _ _ _ _ Hf); [done|]. by rewrite (private_untouched s s5) by apply release_space.
Qed.

Lemma release_regs : ld (k_mem s6) (p_tf pr + tf_eip) = u32 entry /\
  ld (k_mem s6) (p_tf pr + tf_esp) = u32 (start_esp (Z.of_nat (n + 2) * PGSIZE) argv).
Proof.
  destruct (oi_kstack _ _ _ _ _ Ho) as ([Hk _] & _ & Hpv), (oi_tf _ _ _ _ _ Ho) as [Ht1 Ht2]. unfold TFSIZE in *.
  assert (same_page (k_mem s5) (k_mem s6) (p_kstack pr)) as Hs.
  { apply (sf_same _ _ _ _ _ _ _ _ Hf); [done|]. by rewrite (private_untouched s s5) by apply release_space. }
  rewrite !(ld_ext (k_mem s6) (k_mem s5)) by (intros; apply Hs; unfold tf_eip, tf_esp; klia).
  rewrite (cs_mem _ _ _ _ _ _ _ _ _ Hc). unfold add_rss, set_p_rss. ksimpl. rewrite ld_st_eq, ld_st_ne, ld_st_eq by (unfold tf_eip, tf_esp; lia). done.
Qed.

Lemma release_started : Z.of_nat (n + 1) * PGSIZE <= start_esp (Z.of_nat (n + 2) * PGSIZE) argv ->
  started s s6 c pr path argv P n entry own l.
Proof.
  intros Hesp. pose proof (sb_pages _ _ _ _ _ _ _ _ _ _ _ Hb) as Ht. destruct Hb as [_ Hstr Hwords].
  pose proof (strings_end_le (Z.of_nat (n + 2) * PGSIZE) argv) as Hse. pose proof (ld_size _ _ _ _ _ _ Hl) as Hsz.
  assert (start_esp (Z.of_nat (n + 2) * PGSIZE) argv + Z.of_nat (4 * (length argv + 4)) = strings_end (Z.of_nat (n + 2) * PGSIZE) argv) as Ee by (unfold start_esp; lia).
  destruct release_space as [_ Hut]. split.
  - destruct (sf_proc _ _ _ _ _ _ _ _ Hf) as (r & Er). exists r. rewrite Er, (cs_proc _ _ _ _ _ _ _ _ _ Hc), (tp_proc _ _ _ _ _ _ _ _ _ _ Ht).
    rewrite !list_insert_insert_eq. done.
  - destruct release_regs as [-> ->]. split; [done|]. apply u32_small. klia.
  - destruct (sf_vm _ _ _ _ _ _ _ _ Hf) as (? & ? & ? & ? & ? & ? & ->). apply Hc.
  - apply release_image.
  - intros va Hva. unfold uread. rewrite (ut_pte _ _ _ release_table), (tp_guard _ _ _ _ _ _ _ _ _ _ Ht va Hva). by rewrite andb_false_r.
  - intros va b Hva. by apply release_stack.
  - apply release_holds; [done|rewrite length_words, length_start_words; lia|done].
  - eapply Forall2_impl; [exact Hstr|]. cbn beta. intros p a (H1 & H2 & H3). apply release_holds; [done|rewrite length_app; cbn; lia|done].
  - exists used, freed, l'. split; [apply Ht|]. split; [apply Hf|]. intros p. rewrite (sf_in _ _ _ _ _ _ _ _ Hf).
    by apply private_untouched.
  - intros k Hk Hp. assert (upte s5 (p_pgdir pr) k = upte s (p_pgdir pr) k) as E by apply Hut. rewrite <-E.
    apply (sf_owner _ _ _ _ _ _ _ _ Hf); [done|by rewrite E].
Qed.
End release.

(** C12: when a program of [n] pages is loaded into the page table [P] and its
    arguments fit into one page, the rest of [exec] returns 0 with the process
    committed to the new image. The program finds its pages as loaded, a page
    above them that it cannot read, and a stack page above that. On top of the
    stack are, from the stack pointer on, the fake return address, [argc], the
    address of [argv], the [argc] pointers of [argv] and a null pointer; every
    pointer leads to the zero-terminated argument string. The trap frame holds
    the entry point and that stack pointer, which is a multiple of 4. Exactly
    the pages that only the old image used are free again; a frame it shared
    keeps its other owners. *)
Theorem exec_starts_program path argv sz entry c pr P n own l s :
  loaded s c pr P n l -> old_image s pr P own l -> 0 <= sz < KERNBASE -> n = npages sz ->
  Forall byte_list argv -> Z.of_nat (length argv) <= MAXARG ->
  Z.of_nat (n + 1) * PGSIZE <= start_esp (Z.of_nat (n + 2) * PGSIZE) argv ->
  wp (exec_stack path argv P sz entry) (fun r s' => r = 0 /\ started s s' c pr path argv P n entry own l /\
    start_esp (Z.of_nat (n + 2) * PGSIZE) argv mod 4 = 0) s.
Proof.
  intros Hl Ho Hsz Hn Hby Hmax Hesp. assert (start_esp (Z.of_nat (n + 2) * PGSIZE) argv mod 4 = 0) as Hal.
  { unfold start_esp. pose proof (strings_end_aligned (Z.of_nat (n + 2) * PGSIZE) argv ltac:(klia)). zdiv. }
  apply (wp_build path argv P sz entry c pr n l); try done. intros s4 used l' f Hb.
  pose proof (sb_pages _ _ _ _ _ _ _ _ _ _ _ Hb) as Ht. assert (c < length (k_proc s))%nat as Hi by (eapply lookup_lt_Some, Hl).
  assert (k_cur s4 = Some c) as Hcur.
  { destruct (tp_vm _ _ _ _ _ _ _ _ _ _ Ht) as (? & ? & ? & ? & ? & ? & ->). apply Hl. }
  apply (wp_exec_commit _ _ _ _ _ c (add_rss (2 * PGSIZE) pr)).
  - done.
  - rewrite (tp_proc _ _ _ _ _ _ _ _ _ _ Ht). by apply list_lookup_insert_eq.
  - apply page_ok_nonzero. apply (oi_kstack _ _ _ _ _ Ho).
  - apply page_ok_nonzero, (wf_dir _ _ (pr_wf _ _ _ (ld_ready _ _ _ _ _ _ Hl))).
  - intros s5 Hc. wp_step. change (p_pgdir (add_rss (2 * PGSIZE) pr)) with (p_pgdir pr).
    eapply (wp_freevm _ own l' c).
    + by eapply release_space.
    + by destruct (cs_same _ _ _ _ _ _ _ _ _ Hc) as (_ & _ & _ & -> & _).
    + rewrite (cs_proc _ _ _ _ _ _ _ _ _ Hc). apply list_lookup_insert_eq. rewrite (tp_proc _ _ _ _ _ _ _ _ _ _ Ht). by rewrite length_insert.
    + intros s6 freed Hf. wp_step. split; [done|]. split; [|done]. by eapply release_started.
Qed.
End commit.

(** ** An example *)

(** A process with one page that another page table, of the new program, also
    maps, runs [ls /]. *)
Definition caller0 : proc :=
  set_p_name (replicate 16 0) (set_p_tf (TF 0x80312000) (set_p_kstack 0x80312000 proc0)).
Definition exec_state : kstate := set_k_proc (caller0 :: replicate 63 unused_proc) state1.
Definition args0 : list (list Z) := [[108; 115]; [47]].

#[local] Existing Instance img.

(** Only the first page of the old image is present. *)
Lemma exec_present k : (k < NPAGES)%nat -> has (upte exec_state pgdir0 k) PTE_P = true ->
  k = 0%nat /\ upte exec_state pgdir0 k = entry0.
Proof.
  unfold upte. change (k_mem exec_state) with mem1. rewrite (ut_pte _ _ _ (proj1 sample1_untouched)).
  intros Hk. rewrite reap_pte by done. by case_decide.
Qed.

Lemma exec_space : space exec_state pgdir0 (fun _ => [table1]) free0.
Proof.
  destruct sample_frame0 as (F1 & F2 & F3). destruct sample1_untouched as [Hut _]. split.
  - destruct sample1_ready as [[] ???]. by split; [split|..].
  - intros k Hk [_ ->]%exec_present; [|done]. split; [exact F1|]. split; [exact F3|].
    change (k_mem exec_state) with mem1. rewrite (ut_owns _ _ _ Hut). exact F2.
  - intros j k Hjk [-> _]%exec_present [-> _]%exec_present; lia.
  - intros k Hk [-> ->]%exec_present; [|done]. exists table0. change (k_mem exec_state) with mem1. split; [apply sample1_entry|].
    exists (two_owners table0 table1). split; [reflexivity|]. by split; [split|].
Qed.

Lemma exec_private p : private exec_state pgdir0 (fun _ => [table1]) p -> p = pgdir0 \/ p = table0.
Proof.
  intros [H|(k & _ & _ & H & _)]; [|discriminate H]. change (k_mem exec_state) with mem1 in H.
  rewrite (ut_owns _ _ _ (proj1 sample1_untouched)) in H. by apply sample_owns.
Qed.

Lemma exec_pte va : 0 <= va < two32 -> pte_of mem1 pgdir1 va = if decide (va < PGSIZE) then entry0 else 0.
Proof.
  intros Hva. unfold pte_of, pt_addr. rewrite sample1_table by apply PDX_range. rewrite PDX_eq, u32_small by done.
  case_decide as Hd; cbn; [|by rewrite decide_False by klia]. rewrite PTX_eq, u32_small by done. case_decide as Hd'.
  - replace (table1 + 4 * _) with table1 by klia. apply sample1_pte.
  - unfold mem1. rewrite !ld_st_ne by (unfold pgdir1, table1; klia). apply mem0_other; unfold table1; klia.
Qed.

Lemma exec_loaded : loaded exec_state 0 caller0 pgdir1 1 free0.
Proof.
  split; [reflexivity|reflexivity|done| |reflexivity| | |apply Nat.leb_le; reflexivity].
  - destruct sample1_ready as [[] ???]. destruct sample1_wf as [Hw Ho]. split; [by split|done|exact Hw|].
    intros p (i & Hi & ->)%sample_free [E|E]%Ho; unfold pgdir0, pgdir1, table1 in E; klia.
  - intros va Hva. change (k_mem exec_state) with mem1. rewrite exec_pte by klia. by rewrite decide_False by klia.
  - intros p Hp. destruct (sample_unowned p Hp) as (r & Hr & H). exists r. split; [|exact H]. rewrite <-Hr.
    apply sample_free in Hp as (i & Hi & ->). change (k_rmap exec_state) with (<[Z.to_nat (V2P frame0 / PGSIZE) := two_owners table0 table1]> (k_rmap state0)).
    unfold zlookup. case_match; [done|]. rewrite list_lookup_insert_ne; [done|].
    change (V2P frame0 / PGSIZE) with 0x302. rewrite V2P_high by (unfold pgdir0; klia). unfold pgdir0. klia.
Qed.

Lemma exec_old : old_image exec_state caller0 pgdir1 (fun _ => [table1]) free0.
Proof.
  destruct sample1_wf as [Hw Ho]. split.
  - exact exec_space.
  - intros p Hp%Ho. split; [|by destruct Hp; subst].
    intros [E|E]%exec_private; subst; by destruct Hp.
  - intros va Hva. change (k_mem exec_state) with mem1. rewrite exec_pte by klia. case_decide; [|done]. intros _.
    change (P2V (PTE_ADDR entry0)) with frame0. split; [intros [E|E]%Ho; discriminate E|]. split; [apply sample_frame0|].
    split; [discriminate|]. intros [E|E]%exec_private; discriminate E.
  - split; [apply (sample_page_ok 18); lia|]. split.
    + intros (i & Hi & E)%sample_free. change (p_kstack caller0) with 0x80312000 in E. unfold pgdir0 in E. klia.
    + intros [E|E]%exec_private; discriminate E.
  - split; vm_compute; discriminate.
Qed.

Lemma exec_starts_program_witness :
  wp (exec_stack [47; 108; 115] args0 pgdir1 PGSIZE 0) (fun r s' => r = 0 /\
    uholds (k_mem s') pgdir1 12256 (mjoin (le_bytes 4 <$> [0xffffffff; 2; 12268; 12284; 12280; 0])) /\
    uholds (k_mem s') pgdir1 12284 [108; 115; 0] /\ uread (k_mem s') pgdir1 5 = uread mem1 pgdir1 5) exec_state.
Proof.
  eapply wp_mono.
  - apply (exec_starts_program [47; 108; 115] args0 PGSIZE 0 0 caller0 pgdir1 1 (fun _ => [table1]) free0);
      [exact exec_loaded|exact exec_old|done|reflexivity| |vm_compute; discriminate|vm_compute; discriminate].
    repeat constructor; lia.
  - intros r s' (-> & Hs & _). split; [reflexivity|]. split; [exact (st_words _ _ _ _ _ _ _ _ _ _ _ Hs)|].
    pose proof (st_strings _ _ _ _ _ _ _ _ _ _ _ Hs) as Hst. apply Forall2_cons in Hst as [Hst _].
    split; [exact Hst|]. apply (st_image _ _ _ _ _ _ _ _ _ _ _ Hs). vm_compute. split; [discriminate|reflexivity].
Defined.
