(* ===== verification/Boot.v ===== *)
(** * The boot loader

    [bootmain.c]: it reads the ELF file of the kernel from the boot disk,
    from sector 1 on, with programmed I/O, and copies its segments to the
    physical addresses that the file names.  The disk is the device of
    [Ide]; [entrypgdir] of [main.c] is the page directory that the kernel
    starts on. *)

From Stdlib Require Import ZArith Lia.
From stdpp Require Import base strings numbers gmap list.
From S2P Require Import Prelude Mmu Memory Kernel Sleeplock Bio Ide Layout Fs Exec.

(** ** Operations *)

Definition SECTSIZE : Z := 512.
(** Physical memory and the disk. *)
Record loader := mk_loader { l_mem : mem; l_dev : device }.
Abbreviation BL := (M loader).

Section boot.
(** How often the status reads busy after a command. *)
Context (delay : device -> nat).

(** The disk carries out a command by itself; no interrupt is used. *)
Definition b_outb (port v : Z) : BL unit :=
  modify (fun s => let d := dev_outb port (v mod 256) (l_dev s) in
    mk_loader (l_mem s) (if port =? 0x1F7 then dev_finish (delay d) d else d)).
Definition b_inb_status : BL Z :=
  s ← gets (fun s => s);
  match d_busy (l_dev s) with
  | S k => modify (fun s => mk_loader (l_mem s) (set_d_busy k (l_dev s)));; mret IDE_BSY
  | O => mret (Z.lor IDE_DRDY (d_err (l_dev s)))
  end.
Fixpoint store_bytes (m : mem) (a : Z) (l : list Z) : mem :=
  match l with [] => m | v :: l => store_bytes (stb m a v) (a + 1) l end.
Definition b_insl (dst : Z) : BL unit :=
  s ← gets (fun s => s);
  match d_op (l_dev s) with
  | ReadReady data => modify (fun s => mk_loader (store_bytes (l_mem s) dst data) (set_d_op Idle (l_dev s)))
  | _ => fail Trap
  end.

Definition waitdisk : BL unit :=
  s ← gets (fun s => s);
  while_ (S (d_busy (l_dev s))) (fun _ : unit =>
    r ← b_inb_status;
    mret (if negb (Z.land r 0xC0 =? 0x40) then inl tt else inr tt)) tt.

(** Read a single sector at offset into dst. *)
Definition readsect (dst offset : Z) : BL unit :=
  waitdisk;;
  b_outb 0x1F2 1;; (* count = 1 *)
  b_outb 0x1F3 offset;;
  b_outb 0x1F4 (Z.shiftr offset 8);;
  b_outb 0x1F5 (Z.shiftr offset 16);;
  b_outb 0x1F6 (Z.lor (Z.shiftr offset 24) 0xE0);;
  b_outb 0x1F7 0x20;; (* cmd 0x20 - read sectors *)
  waitdisk;;
  b_insl dst.

(** Read [count] bytes at [offset] from kernel into physical address [pa].
    Might copy more than asked. *)
Definition readseg (pa count offset : Z) : BL unit :=
  let epa := u32 (pa + count) in
  (* Round down to sector boundary. *)
  let pa := u32 (pa - offset mod SECTSIZE) in
  (* Translate from bytes to sectors; kernel starts at sector 1. *)
  let offset := offset / SECTSIZE + 1 in
  while_ (Z.to_nat (count / SECTSIZE + 3)) (fun '(pa, offset) =>
    if pa <? epa then
      readsect pa offset;;
      mret (inl (u32 (pa + SECTSIZE), u32 (offset + 1)))
    else mret (inr tt)) (pa, offset).

(** One program segment, with its header at [ph]. *)
Definition load_ph (ph : Z) : BL unit :=
  m ← gets l_mem;
  let pa := ld m (ph + 12) in
  readseg pa (ld m (ph + 16)) (ld m (ph + 4));;
  m ← gets l_mem;
  when (ld m (ph + 16) <? ld m (ph + 20))
    (modify (fun s => mk_loader (stosb (l_mem s) (pa + ld m (ph + 16)) 0 (Z.to_nat (ld m (ph + 20) - ld m (ph + 16)))) (l_dev s))).

(** The entry point, where the loader jumps to; none if the file is not an
    ELF executable. *)
Definition ELFBUF : Z := 0x10000. (* scratch space *)
Definition bootmain : BL (option Z) :=
  readseg ELFBUF 4096 0;; (* Read 1st page off disk *)
  m ← gets l_mem;
  if negb (ld m ELFBUF =? ELF_MAGIC) then mret None
  else
    let ph := ELFBUF + ld m (ELFBUF + 28) in
    _ ← for_ (R := unit) (seqZ 0 (ld16 m (ELFBUF + 44))) (fun i (_ : unit) =>
          load_ph (ph + i * PROGHDRSIZE);; mret (Next tt)) tt;
    m ← gets l_mem;
    mret (Some (ld m (ELFBUF + 24))).

(** ** The disk *)

Lemma wp_waitdisk (Q : unit -> loader -> Prop) m d : d_err d = 0 -> Q tt (mk_loader m (set_d_busy 0 d)) -> wp waitdisk Q (mk_loader m d).
Proof.
  intros He HQ. unfold waitdisk. wp_step. wp_step. cbn [l_dev].
  assert (forall k d, d_busy d = k -> d_err d = 0 -> Q tt (mk_loader m (set_d_busy 0 d)) ->
    wp (while_ (S k) (fun _ : unit => r ← b_inb_status; mret (if negb (Z.land r 0xC0 =? 0x40) then inl tt else inr tt)) tt) Q (mk_loader m d)) as Hloop.
  { clear. induction k as [|k IH]; intros d Hk He HQ; apply wp_while_S; unfold b_inb_status; wp_step; wp_step; wp_step; cbn [l_dev]; rewrite Hk.
    - wp_step. wp_step. rewrite He. change (negb (Z.land (Z.lor IDE_DRDY 0) 0xC0 =? 0x40)) with false. cbn iota.
      replace (set_d_busy 0 d) with d in HQ; [done|]. destruct d. cbn in *. by subst.
    - wp_steps. change (negb (Z.land IDE_BSY 0xC0 =? 0x40)) with true. cbn iota. apply IH; [done|done|]. exact HQ. }
  by apply Hloop.
Qed.

(** The registers name the sector and the first drive. *)
Lemma lba_registers n : 0 <= n < 0x10000000 -> let h := (Z.lor (Z.shiftr n 24) 0xE0) mod 256 in
  Z.land (Z.shiftr h 4) 1 = 0 /\
  n mod 256 + 0x100 * (Z.shiftr n 8 mod 256) + 0x10000 * (Z.shiftr n 16 mod 256) + 0x1000000 * Z.land h 0x0f = n.
Proof.
  intros Hn h. rewrite !Z.shiftr_div_pow2 in * by lia. change (2 ^ 8) with 256. change (2 ^ 16) with 65536.
  assert (forallb (fun t => let h := (Z.lor t 0xE0) mod 256 in (Z.land (Z.shiftr h 4) 1 =? 0) && (Z.land h 0x0f =? t)) (seqZ 0 16) = true) as H by (by vm_compute).
  rewrite forallb_forall in H. assert (0 <= n / 2 ^ 24 < 16) as Ht by (change (2 ^ 24) with 16777216; zdiv).
  specialize (H (n / 2 ^ 24) ltac:(apply list_elem_of_In, elem_of_seqZ; lia)). cbn zeta in H. apply andb_true_iff in H as [H1%Z.eqb_eq H2%Z.eqb_eq].
  unfold h. rewrite Z.shiftr_div_pow2 in H1 |- * by lia. split; [done|]. rewrite H2. change (2 ^ 24) with 16777216. zdiv.
Qed.

(** A disk in order holds the sectors [D] and reports no error. *)
Record disk_has (D : Z -> list Z) (d : device) : Prop := {
  dh_disk : forall n, disk_at (d_disk d 0) n = D n;
  dh_err : d_err d = 0;
}.

Lemma wp_b_outb port v m d (Q : unit -> loader -> Prop) :
  Q tt (mk_loader m (let d := dev_outb port (v mod 256) d in if port =? 0x1F7 then dev_finish (delay d) d else d)) -> wp (b_outb port v) Q (mk_loader m d).
Proof. done. Qed.

Lemma wp_readsect D dst n (Q : unit -> loader -> Prop) m d : disk_has D d -> 0 <= n < 0x10000000 ->
  (forall d', disk_has D d' -> Q tt (mk_loader (store_bytes m dst (D n)) d')) -> wp (readsect dst n) Q (mk_loader m d).
Proof.
  intros [Hd He] Hn HQ. destruct (lba_registers n Hn) as [H1 H2]. unfold readsect. wp_step. apply wp_waitdisk; [done|].
  destruct d as [n0 a b c h k e op disk]. cbn in He, Hd. subst e. unfold set_d_busy. cbn.
  do 5 (wp_step; apply wp_b_outb; cbn [dev_outb Z.eqb Pos.eqb]). wp_step. apply wp_b_outb.
  cbn [dev_outb Z.eqb Pos.eqb]. change (0x20 mod 256 =? IDE_CMD_READ) with true. cbn. unfold d_drive, d_lba. cbn.
  change (1 mod 256) with 1. rewrite H1, H2. wp_step. apply wp_waitdisk; [done|]. unfold b_insl. wp_step. wp_step. cbn.
  rewrite Hd. by apply HQ.
Qed.

(** ** The file on the disk *)

(** Byte [j] of the file that starts in sector 1, and integers in it. *)
Definition fileb (D : Z -> list Z) (j : Z) : Z := nth (Z.to_nat (j mod SECTSIZE)) (D (j / SECTSIZE + 1)) 0 mod 256.
Definition file32 (D : Z -> list Z) (j : Z) : Z :=
  fileb D j + 0x100 * fileb D (j + 1) + 0x10000 * fileb D (j + 2) + 0x1000000 * fileb D (j + 3).
Definition file16 (D : Z -> list Z) (j : Z) : Z := fileb D j + 0x100 * fileb D (j + 1).

Lemma ldb_store_bytes m a l b : ldb (store_bytes m a l) b =
  if decide (a <= b < a + Z.of_nat (length l)) then nth (Z.to_nat (b - a)) l 0 mod 256 else ldb m b.
Proof.
  revert m a. induction l as [|v l IH]; intros m a; cbn [store_bytes length].
  - by rewrite decide_False by lia.
  - rewrite IH, ldb_stb. destruct (decide (a = b)) as [->|Hne].
    + rewrite decide_False by lia. rewrite decide_True by lia. by rewrite Z.sub_diag.
    + destruct (decide (a + 1 <= b < a + 1 + Z.of_nat (length l))).
      * rewrite decide_True by lia. replace (Z.to_nat (b - a)) with (S (Z.to_nat (b - (a + 1)))) by lia. done.
      * by rewrite decide_False by lia.
Qed.

(** The bytes of the file from [o] on, loaded at [lo] to [hi]. *)
Definition loaded (D : Z -> list Z) (m m' : mem) (lo hi o : Z) : Prop :=
  forall a, ldb m' a = if decide (lo <= a < hi) then fileb D (o + (a - lo)) else ldb m a.

Lemma wp_readseg D pa count off (Q : unit -> loader -> Prop) m d : disk_has D d -> (forall n, length (D n) = 512%nat) ->
  0 <= count -> 0 <= off < two32 -> let lo := pa - off mod SECTSIZE in 0 <= lo -> pa + count + SECTSIZE < two32 ->
  (forall m' d' hi, disk_has D d' -> pa + count <= hi < pa + count + SECTSIZE -> lo <= hi ->
     loaded D m m' lo hi (off - off mod SECTSIZE) -> Q tt (mk_loader m' d')) ->
  wp (readseg pa count off) Q (mk_loader m d).
Proof.
  intros Hd Hlen Hc Ho lo Hlo Hhi HQ. change SECTSIZE with 512 in *. unfold readseg. change SECTSIZE with 512. unfold two32 in *.
  rewrite !u32_small by (unfold two32; zdiv). fold lo. set (s0 := off / 512 + 1). set (o := off - off mod 512) in *.
  apply (wp_while _ (fun '(p, n) s => exists t d', s = mk_loader (l_mem s) d' /\ disk_has D d' /\ 0 <= t /\ p = lo + 512 * t /\ n = s0 + t /\ p < pa + count + 512 /\
    loaded D m (l_mem s) lo p o) (fun '(p, _) => Z.to_nat ((pa + count - p + 511) / 512))).
  - intros [p n] s (t & d1 & -> & Hd1 & Ht & -> & -> & Hp & Hl). cbn [l_mem] in *. destruct (Z.ltb_spec (lo + 512 * t) (pa + count)) as [Hlt|Hge].
    + wp_step. apply (wp_readsect D); [done|unfold s0; zdiv|]. intros d2 Hd2. wp_step. rewrite !u32_small by (unfold s0, two32; zdiv). split; [|zdiv].
      exists (t + 1), d2. split_and!; try done; [lia|lia|lia|lia|]. cbn [l_mem]. intros a. rewrite ldb_store_bytes, Hlen. specialize (Hl a).
      destruct (decide (lo + 512 * t <= a < lo + 512 * t + Z.of_nat 512)) as [Hin|Hout].
      * rewrite decide_True by lia. unfold fileb. change SECTSIZE with 512. assert (o mod 512 = 0 /\ o / 512 + 1 = s0) as [Eo1 Eo2] by (unfold o, s0; zdiv).
        replace ((o + (a - lo)) mod 512) with (a - (lo + 512 * t)) by zdiv. by replace ((o + (a - lo)) / 512 + 1) with (s0 + t) by zdiv.
      * rewrite Hl. destruct (decide (lo <= a < lo + 512 * t)); [rewrite decide_True by lia|rewrite decide_False by lia]; done.
    + wp_step. eapply (HQ _ d1); [done| | |exact Hl]; [lia|lia].
  - unfold lo. zdiv.
  - exists 0, d. cbn [l_mem]. split_and!; try done; [lia|lia|unfold lo; zdiv|]. intros a. by rewrite decide_False by lia.
Qed.

(** ** Segments *)

(** Program header [i] of the file. *)
Record segment := mk_seg { sg_off : Z; sg_pa : Z; sg_filesz : Z; sg_memsz : Z }.
Definition file_phnum (D : Z -> list Z) : Z := file16 D 44.
Definition file_seg (D : Z -> list Z) (i : Z) : segment :=
  let ph := file32 D 28 + i * PROGHDRSIZE in
  mk_seg (file32 D (ph + 4)) (file32 D (ph + 12)) (file32 D (ph + 16)) (file32 D (ph + 20)).
(** Where the segment goes; the loader also writes the start of its first
    sector, and up to a sector behind it. *)
Definition sg_lo (g : segment) : Z := sg_pa g - sg_off g mod SECTSIZE.
Definition sg_hi (g : segment) : Z := sg_pa g + Z.max (sg_filesz g) (sg_memsz g).

(** A kernel file that the loader can load: the program headers are in the
    first page; the segments are in memory, in increasing order, and clear
    of the scratch page. *)
Record loadable (D : Z -> list Z) : Prop := {
  lb_len : forall n, length (D n) = 512%nat;
  lb_magic : file32 D 0 = ELF_MAGIC;
  lb_headers : file32 D 28 + file_phnum D * PROGHDRSIZE <= 4096;
  lb_range : forall i, 0 <= i < file_phnum D -> 0 <= sg_lo (file_seg D i) /\ sg_hi (file_seg D i) + SECTSIZE < two32;
  lb_scratch : forall i, 0 <= i < file_phnum D -> sg_hi (file_seg D i) + SECTSIZE <= ELFBUF \/ ELFBUF + 4096 <= sg_lo (file_seg D i);
  lb_order : forall i j, 0 <= i < j -> j < file_phnum D -> sg_hi (file_seg D i) <= sg_lo (file_seg D j);
}.

(** The segment's bytes are in memory, and zeroes behind them. *)
Definition in_memory (D : Z -> list Z) (m : mem) (g : segment) : Prop := forall k, 0 <= k < Z.max (sg_filesz g) (sg_memsz g) ->
  ldb m (sg_pa g + k) = if decide (k < sg_filesz g) then fileb D (sg_off g + k) else 0.
Definition header_in (D : Z -> list Z) (m : mem) : Prop := forall k, 0 <= k < 4096 -> ldb m (ELFBUF + k) = fileb D k.

Lemma fileb_range D j : 0 <= fileb D j < 256.
Proof. unfold fileb. zdiv. Qed.
Lemma file32_range D j : 0 <= file32 D j < two32.
Proof.
  unfold file32, two32. pose proof (fileb_range D j). pose proof (fileb_range D (j + 1)). pose proof (fileb_range D (j + 2)).
  pose proof (fileb_range D (j + 3)). lia.
Qed.

Lemma header_ld D m k : header_in D m -> 0 <= k -> k + 4 <= 4096 -> ld m (ELFBUF + k) = file32 D k.
Proof. intros H Hk1 Hk2. unfold ld, file32. rewrite <-!Z.add_assoc. by rewrite !H by lia. Qed.

Lemma loaded_segment D m m' hi g : loaded D m m' (sg_lo g) hi (sg_off g - sg_off g mod SECTSIZE) -> sg_pa g + sg_filesz g <= hi -> 0 <= sg_filesz g ->
  in_memory D (stosb m' (sg_pa g + sg_filesz g) 0 (Z.to_nat (sg_memsz g - sg_filesz g))) g.
Proof.
  intros Hl Hhi Hf k Hk. assert (0 <= sg_off g mod SECTSIZE) as Hmod by (change SECTSIZE with 512; zdiv). rewrite ldb_stosb. unfold sg_lo in *. case_decide as E1.
  - rewrite decide_False by lia. done.
  - rewrite decide_True by lia. rewrite Hl, decide_True by lia. f_equal. lia.
Qed.

(** [load_ph] of segment [i]. *)
Lemma wp_load_ph D i (Q : unit -> loader -> Prop) m d : loadable D -> disk_has D d -> header_in D m -> 0 <= i < file_phnum D ->
  let g := file_seg D i in
  (forall m' d', disk_has D d' -> in_memory D m' g -> header_in D m' -> (forall a, a < sg_lo g -> ldb m' a = ldb m a) -> Q tt (mk_loader m' d')) ->
  wp (load_ph (ELFBUF + file32 D 28 + i * PROGHDRSIZE)) Q (mk_loader m d).
Proof.
  intros [L1 L2 L3 L4 L5 L6] Hd Hh Hi g HQ. pose proof (L4 i Hi) as [Hlo Hhi]. pose proof (L5 i Hi) as Hsc. fold g in Hlo, Hhi, Hsc.
  set (ph := file32 D 28 + i * PROGHDRSIZE). assert (0 <= ph /\ ph + 32 <= 4096) as [Hp1 Hp2].
  { unfold ph. change PROGHDRSIZE with 32 in *. pose proof (file32_range D 28). split; [lia|nia]. }
  rewrite <-Z.add_assoc. fold ph. unfold load_ph. wp_step. wp_step. cbn [l_mem]. rewrite <-!Z.add_assoc. rewrite !(header_ld D) by (done || lia).
  change (file32 D (ph + 12)) with (sg_pa g). change (file32 D (ph + 16)) with (sg_filesz g). change (file32 D (ph + 4)) with (sg_off g).
  pose proof (file32_range D (ph + 16) : 0 <= sg_filesz g < _) as Hfr. pose proof (file32_range D (ph + 4) : 0 <= sg_off g < _) as Hor.
  change SECTSIZE with 512 in *. wp_step. unfold sg_hi in Hhi, Hsc. unfold sg_lo in Hlo. change SECTSIZE with 512 in Hlo.
  eapply (wp_readseg D); [done|done|lia|done|done|change SECTSIZE with 512; lia|]. change SECTSIZE with 512. intros m1 d1 hi Hd1 Hhi1 Hle1 Hl. wp_step. wp_step. cbn [l_mem].
  assert (header_in D m1) as Hh1. { intros k Hk. rewrite Hl, decide_False; [by apply Hh|]. unfold sg_lo in Hsc. change SECTSIZE with 512 in Hsc. lia. }
  rewrite !(header_ld D) by (done || lia). change (file32 D (ph + 16)) with (sg_filesz g). change (file32 D (ph + 20)) with (sg_memsz g).
  pose proof (loaded_segment D m m1 hi g) as Hseg. unfold sg_lo in Hseg. change SECTSIZE with 512 in Hseg. specialize (Hseg Hl ltac:(lia) ltac:(lia)).
  set (m2 := stosb _ _ _ _) in Hseg.
  assert (Q tt (mk_loader m2 d1)) as HQ2.
  { apply HQ; [done|done| |].
    - intros k Hk. unfold m2. rewrite ldb_stosb, decide_False; [by apply Hh1|]. unfold sg_lo in Hsc. change SECTSIZE with 512 in Hsc. zdiv.
    - intros a Ha. unfold sg_lo in Ha. change SECTSIZE with 512 in Ha. unfold m2. rewrite ldb_stosb, decide_False by zdiv. by rewrite Hl, decide_False by lia. }
  unfold when. destruct (Z.ltb_spec (sg_filesz g) (sg_memsz g)).
  - wp_step. exact HQ2.
  - wp_step. unfold m2 in HQ2. by replace (Z.to_nat (sg_memsz g - sg_filesz g)) with 0%nat in HQ2 by lia.
Qed.

(** A loadable kernel. *)
Lemma wp_bootmain D m d : disk_has D d -> loadable D ->
  wp bootmain (fun r s => r = Some (file32 D 24) /\ forall i, 0 <= i < file_phnum D -> in_memory D (l_mem s) (file_seg D i)) (mk_loader m d).
Proof.
  intros Hd HL. unfold bootmain. wp_step. change SECTSIZE with 512 in *. eapply (wp_readseg D); [done|apply HL|lia|done|done|done|].
  change (0 mod SECTSIZE) with 0. rewrite !Z.sub_0_r. intros m1 d1 hi Hd1 Hhi _ Hl.
  assert (header_in D m1) as Hh. { intros k Hk. rewrite Hl, decide_True by lia. f_equal. lia. }
  wp_step. wp_step. cbn [l_mem]. replace (ld m1 ELFBUF) with (ld m1 (ELFBUF + 0)) by (by rewrite Z.add_0_r).
  rewrite (header_ld D) by (done || lia). rewrite (lb_magic _ HL). rewrite Z.eqb_refl. cbn [negb]. cbn zeta. rewrite (header_ld D) by (done || lia).
  assert (ld16 m1 (ELFBUF + 44) = file_phnum D) as ->. { unfold ld16, file_phnum, file16. rewrite <-Z.add_assoc. by rewrite !Hh by lia. }
  assert (0 <= file_phnum D) as Hn by (unfold file_phnum, file16; pose proof (fileb_range D 44); pose proof (fileb_range D (44 + 1)); lia).
  wp_step. apply (wp_for_seqZ _ _ (fun t _ s => exists d', s = mk_loader (l_mem s) d' /\ disk_has D d' /\ header_in D (l_mem s) /\
    forall i, 0 <= i < Z.of_nat t -> in_memory D (l_mem s) (file_seg D i))).
  - done.
  - intros t [] s Ht (d2 & -> & Hd2 & Hh2 & Hin). cbn [l_mem] in *. wp_step.
    eapply (wp_load_ph D (Z.of_nat t)); [done|done|done|lia|]. intros m3 d3 Hd3 Hin3 Hh3 Hsame. wp_step. exists d3. cbn [l_mem]. split_and!; try done.
    intros i Hi. destruct (decide (i = Z.of_nat t)) as [->|Hne]; [done|]. intros k Hk. rewrite <-(Hin i ltac:(lia) k Hk). apply Hsame.
    pose proof (lb_order _ HL i (Z.of_nat t) ltac:(lia) Ht) as Hord. unfold sg_hi in Hord. lia.
  - intros [] s (d2 & -> & Hd2 & Hh2 & Hin). cbn [l_mem] in *. wp_step. wp_step. wp_step. cbn [l_mem]. split; [by rewrite (header_ld D) by (done || lia)|].
    intros i Hi. apply Hin. lia.
  - exists d1. cbn [l_mem]. split_and!; try done. lia.
Qed.

(** A disk without an ELF file: the loader returns. *)
Lemma bootmain_not_elf D m d : disk_has D d -> (forall n, length (D n) = 512%nat) -> file32 D 0 <> ELF_MAGIC ->
  wp bootmain (fun r s => r = None /\ forall a, a < ELFBUF \/ ELFBUF + 4096 + SECTSIZE <= a -> ldb (l_mem s) a = ldb m a) (mk_loader m d).
Proof.
  intros Hd Hlen Hm. unfold bootmain. wp_step. eapply (wp_readseg D); [done|done|lia|done|done|done|].
  change (0 mod SECTSIZE) with 0. rewrite !Z.sub_0_r. intros m1 d1 hi Hd1 Hhi _ Hl.
  assert (header_in D m1) as Hh. { intros k Hk. rewrite Hl, decide_True by lia. f_equal. lia. }
  wp_step. wp_step. cbn [l_mem]. replace (ld m1 ELFBUF) with (ld m1 (ELFBUF + 0)) by (by rewrite Z.add_0_r).
  rewrite (header_ld D) by (done || lia). rewrite (proj2 (Z.eqb_neq _ _) Hm). cbn [negb]. wp_step. split; [done|]. intros a Ha. cbn [l_mem]. rewrite Hl, decide_False by lia. done.
Qed.

(** C31: The boot loader loads the kernel.  From a disk that holds, from
    sector 1 on, an ELF file whose segments are in increasing order and
    clear of the scratch page, [bootmain] ends by jumping to the file's
    entry point, with every segment at its physical address and zeroes up
    to its size in memory, although whole sectors are read around each
    segment, and however long the disk is busy.  If the file does not begin
    with the ELF magic number, nothing is started: [bootmain] returns, and
    memory has changed only in the scratch page and the sector behind it. *)
Theorem bootmain_loads_kernel D m d : disk_has D d ->
  (loadable D ->
   wp bootmain (fun r s => r = Some (file32 D 24) /\ forall i, 0 <= i < file_phnum D -> in_memory D (l_mem s) (file_seg D i)) (mk_loader m d)) /\
  ((forall n, length (D n) = 512%nat) -> file32 D 0 <> ELF_MAGIC ->
   wp bootmain (fun r s => r = None /\ forall a, a < ELFBUF \/ ELFBUF + 4096 + SECTSIZE <= a -> ldb (l_mem s) a = ldb m a) (mk_loader m d)).
Proof. intros Hd. split; [by apply wp_bootmain|by apply bootmain_not_elf]. Qed.
End boot.

(** ** The page directory of the entry code *)

Definition PTE_PS : Z := 0x080.
Definition entrypgdir : list Z :=
  let pde := Z.lor (Z.lor (Z.lor 0 PTE_P) PTE_W) PTE_PS in
  <[Z.to_nat (Z.shiftr KERNBASE PDXSHIFT) := pde]> (<[0%nat := pde]> (replicate (Z.to_nat NPDENTRIES) 0)).
(** The translation of an address by a directory of 4-megabyte pages. *)
Definition large_page (pgdir : list Z) (va : Z) : option Z :=
  let pde := nth (Z.to_nat (PDX va)) pgdir 0 in
  if (Z.land pde PTE_P =? 0) || (Z.land pde PTE_PS =? 0) then None
  else Some (Z.lor (Z.land pde 0xFFC00000) (Z.land va 0x3FFFFF)).

(** The first four megabytes are mapped twice, at 0 and at [KERNBASE]. *)
Lemma entrypgdir_maps va : 0 <= va < two32 -> large_page entrypgdir va =
  if va <? 0x400000 then Some va
  else if (KERNBASE <=? va) && (va <? KERNBASE + 0x400000) then Some (va - KERNBASE) else None.
Proof.
  intros Hva. assert (PDX va = va / 0x400000) as Hp.
  { unfold PDX. rewrite u32_small by done. change 0x3FF with (Z.ones 10). rewrite Z.land_ones, Z.shiftr_div_pow2 by (unfold PDXSHIFT; lia).
    change (2 ^ PDXSHIFT) with 0x400000. change (2 ^ 10) with 1024. unfold two32 in Hva. zdiv. }
  unfold large_page. rewrite Hp. change 0x3FFFFF with (Z.ones 22). rewrite Z.land_ones by lia. change (2 ^ 22) with 0x400000.
  assert (forallb (fun q => nth (Z.to_nat q) entrypgdir 0 =? (if (q =? 0) || (q =? 512) then 0x83 else 0)) (seqZ 0 1024) = true) as H by (by vm_compute).
  rewrite forallb_forall in H. specialize (H (va / 0x400000) ltac:(apply list_elem_of_In, elem_of_seqZ; unfold two32 in Hva; zdiv)).
  apply Z.eqb_eq in H. rewrite H. clear H Hp. change KERNBASE with 0x80000000. unfold two32 in Hva.
  destruct (Z.ltb_spec va 0x400000); [replace (va / 0x400000) with 0 by zdiv; cbn -[Z.modulo]; f_equal; change (Z.land 131 4290772992) with 0; rewrite Z.lor_0_l; zdiv|].
  destruct (Z.leb_spec 0x80000000 va), (Z.ltb_spec va (0x80000000 + 0x400000)); cbn [andb].
  - replace (va / 0x400000) with 512 by zdiv. cbn -[Z.modulo Z.sub]. f_equal. change (Z.land 131 4290772992) with 0. rewrite Z.lor_0_l. zdiv.
  - rewrite (proj2 (Z.eqb_neq (va / 0x400000) 0)), (proj2 (Z.eqb_neq (va / 0x400000) 512)) by zdiv. done.
  - rewrite (proj2 (Z.eqb_neq (va / 0x400000) 0)), (proj2 (Z.eqb_neq (va / 0x400000) 512)) by zdiv. done.
  - lia.
Qed.

(** ** An instance *)

(** A file with two segments: four bytes and four zeroes at 1 MB, and two
    bytes right behind, from the middle of the same sector. *)
Definition elf0 : list Z :=
  foldl (fun l '(o, v) => put32 l o v) (replicate 512 0)
    [(0, ELF_MAGIC); (24, 0x10000c); (28, 52); (44, 2);
     (56, 512); (64, 0x100000); (68, 4); (72, 8);
     (88, 516); (96, 0x10000c); (100, 2); (104, 2)].
Definition elf0_data : list Z := [1; 2; 3; 4; 5; 6] ++ replicate 506 0.
Definition elf0_disk : list (Z * list Z) := [(1, elf0); (2, elf0_data)].
Definition dev0 : device := mk_device 0 0 0 0 0 3 0 Idle (fun _ => elf0_disk).

Lemma elf0_loadable : loadable (disk_at elf0_disk).
Proof.
  assert (file_phnum (disk_at elf0_disk) = 2) as Hn by (by vm_compute).
  assert (file_seg (disk_at elf0_disk) 0 = mk_seg 512 0x100000 4 8) as H0 by (by vm_compute).
  assert (file_seg (disk_at elf0_disk) 1 = mk_seg 516 0x10000c 2 2) as H1 by (by vm_compute).
  split; rewrite ?Hn.
  - intros n. cbn [disk_at elf0_disk]. do 2 (case_decide; [by vm_compute|]). apply length_replicate.
  - by vm_compute.
  - by vm_compute.
  - intros i Hi. assert (i = 0 \/ i = 1) as Hor by lia. destruct Hor as [E|E]; rewrite E; [rewrite H0|rewrite H1]; (vm_compute; split; [discriminate|reflexivity]).
  - intros i Hi. right. assert (i = 0 \/ i = 1) as [E|E] by lia; rewrite E; [rewrite H0|rewrite H1]; (vm_compute; discriminate).
  - intros i j Hij Hj. assert (i = 0 /\ j = 1) as [Ei Ej] by lia. rewrite Ei, Ej, H0, H1. vm_compute. discriminate.
Qed.

Lemma bootmain_loads_kernel_witness :
  wp (bootmain (fun _ => 5%nat)) (fun r s => r = Some 0x10000c /\ ldb (l_mem s) 0x100001 = 2 /\ ldb (l_mem s) 0x100005 = 0 /\ ldb (l_mem s) 0x10000d = 6)
    (mk_loader ∅ dev0).
Proof.
  eapply wp_mono.
  - refine (proj1 (bootmain_loads_kernel (fun _ => 5%nat) (disk_at elf0_disk) ∅ dev0 _) elf0_loadable). split; reflexivity.
  - intros r s [-> H]. split; [vm_compute; reflexivity|].
    pose proof (H 0 ltac:(vm_compute; split; [discriminate|reflexivity])) as H0. pose proof (H 1 ltac:(vm_compute; split; [discriminate|reflexivity])) as H1.
    split; [|split].
    + apply (H0 1). vm_compute. split; [discriminate|reflexivity].
    + apply (H0 5). vm_compute. split; [discriminate|reflexivity].
    + apply (H1 1). vm_compute. split; [discriminate|reflexivity].
Defined.
