(* ===== verification/Trap.v ===== *)
(** * System calls and traps

    [sysproc.c], [syscall] of [syscall.c] and [trap] of [trap.c].  A trap
    that ends the process or gives up the CPU leaves in the middle: its
    result says so, and [trap_resume] is what is left after [yield].  The
    number of the CPU and the interrupt handlers of the devices, which do
    not touch the state of this model, are arguments. *)

From Stdlib Require Import ZArith Lia.
From stdpp Require Import base strings numbers gmap list.
From S2P Require Import Prelude Mmu Memory Kernel Sample Sleeplock Bio Block Layout Log.
From S2P Require Import Kmem Rmap Swap Kalloc Vm Fault Sched Pipe Fs File Proc Syscall Sysfile Exec.

(** ** [sysproc.c] *)

Section sysproc.
Context {I : KernelImage} {DV : Devsw}.

Definition print_rss : K unit :=
  cprintf "PrintingRSS\n";;
  acquire L_ptable;;
  _ ← for_ (R := unit) (seq 0 (Z.to_nat NPROC)) (fun i (_ : unit) =>
        p ← get_proc i;
        when (negb (bool_decide (p_state p = UNUSED)))
          (cprintf "((P)) id: %d, state: %d, rss: %d\n");;
        mret (Next tt)) tt;
  release L_ptable.

Definition sys_getNumFreePages : K Z := num_of_FreePages.
Definition sys_getrss : K Z := print_rss;; mret 0.
Definition sys_fork : K Z := fork.
Definition sys_wait : K Z := o ← wait; finished o.

Definition sys_kill : K Z :=
  o ← argint 0;
  match o with None => mret (-1) | Some pid => kill pid end.

Definition sys_getpid : K Z := c ← curproc; p ← get_proc c; mret (p_pid p).

Definition sys_sbrk : K Z :=
  o ← argint 0;
  match o with
  | None => mret (-1)
  | Some n =>
      c ← curproc;
      p ← get_proc c;
      r ← growproc n;
      mret (if r <? 0 then -1 else s32 (p_sz p))
  end.

(** The loop of [sys_sleep], with [tickslock] held; the comparison is that
    of unsigned integers. *)
Definition sleep_ticks (ticks0 n : Z) : K (outcome Z) :=
  ticks ← gets k_ticks;
  if u32 (ticks - ticks0) <? u32 n then
    c ← curproc;
    p ← get_proc c;
    if negb (p_killed p =? 0) then release L_tickslock;; mret (Done (-1))
    else sleep_enter ChTicks L_tickslock;; mret Asleep
  else release L_tickslock;; mret (Done 0).
Definition sleep_ticks_wake (ticks0 n : Z) : K (outcome Z) :=
  sleep_resume L_tickslock;; sleep_ticks ticks0 n.

Definition sys_sleep : K Z :=
  o ← argint 0;
  match o with
  | None => mret (-1)
  | Some n =>
      acquire L_tickslock;;
      ticks0 ← gets k_ticks;
      o ← sleep_ticks ticks0 n;
      finished o
  end.

Definition sys_uptime : K Z :=
  acquire L_tickslock;;
  xticks ← gets k_ticks;
  release L_tickslock;;
  mret (s32 xticks).

(** ** [syscall] *)

(** How a system call or a trap ends: it returns, the process has exited, or
    it has given up the CPU. *)
Inductive ending (A : Type) := Returned (a : A) | Exited | Yielded.
Arguments Returned {A} a.
Arguments Exited {A}.
Arguments Yielded {A}.

(** The table [syscalls]; [sys_exit] does not return. *)
Definition syscalls (num : Z) : option (K (ending Z)) :=
  let ret (m : K Z) : option (K (ending Z)) := Some (r ← m; mret (Returned r)) in
  match num with
  | 1 => ret sys_fork
  | 2 => Some (exit;; mret Exited)
  | 3 => ret sys_wait
  | 4 => ret sys_pipe
  | 5 => ret sys_read
  | 6 => ret sys_kill
  | 7 => ret sys_exec
  | 8 => ret sys_fstat
  | 9 => ret sys_chdir
  | 10 => ret sys_dup
  | 11 => ret sys_getpid
  | 12 => ret sys_sbrk
  | 13 => ret sys_sleep
  | 14 => ret sys_uptime
  | 15 => ret sys_open
  | 16 => ret sys_write
  | 17 => ret sys_mknod
  | 18 => ret sys_unlink
  | 19 => ret sys_link
  | 20 => ret sys_mkdir
  | 21 => ret sys_close
  | 22 => ret sys_getrss
  | 23 => ret sys_getNumFreePages
  | _ => None
  end.

(** [curproc->tf->eax = v], where [curproc->tf] is read after the call. *)
Definition set_eax (c : nat) (v : Z) : K unit :=
  p ← get_proc c;
  store (p_tf p + tf_eax) v.

Definition syscall : K (ending unit) :=
  c ← curproc;
  p ← get_proc c;
  num ← load (p_tf p + tf_eax);
  match syscalls (s32 num) with
  | Some m =>
      r ← m;
      match r with
      | Returned v => set_eax c v;; mret (Returned tt)
      | Exited => mret Exited
      | Yielded => mret Yielded
      end
  | None =>
      cprintf "%d %s: unknown sys call %d\n";;
      set_eax c (-1);;
      mret (Returned tt)
  end.

(** ** [trap] *)

Definition T_PGFLT : Z := 14.
Definition T_SYSCALL : Z := 64.
Definition T_IRQ0 : Z := 32.
Definition IRQ_TIMER : Z := 0.
Definition IRQ_KBD : Z := 1.
Definition IRQ_COM1 : Z := 4.
Definition IRQ_IDE : Z := 14.
Definition IRQ_SPURIOUS : Z := 31.

(** [myproc() && myproc()->killed] *)
Definition killed : K bool :=
  o ← myproc;
  match o with
  | None => mret false
  | Some c => p ← get_proc c; mret (negb (p_killed p =? 0))
  end.

(** [if(myproc()->killed) exit();] where [myproc()] is not null. *)
Definition exit_if_killed : K (ending unit) :=
  c ← curproc;
  p ← get_proc c;
  if negb (p_killed p =? 0) then exit;; mret Exited else mret (Returned tt).

Definition trap_syscall (tf : Z) : K (ending unit) :=
  r ← exit_if_killed;
  match r with
  | Returned _ =>
      c ← curproc;
      upd_proc c (set_p_tf tf);;
      r ← syscall;
      match r with
      | Returned _ => exit_if_killed
      | _ => mret r
      end
  | _ => mret r
  end.

(** The switch on the trap number: the devices are [dev_intr]. *)
Definition trap_switch (dev_intr : Z -> K unit) (cpuid tf : Z) : K unit :=
  trapno ← load (tf + tf_trapno);
  cs ← load (tf + tf_cs);
  if trapno =? T_PGFLT then handle_fage_fault
  else if trapno =? T_IRQ0 + IRQ_TIMER then
    when (cpuid =? 0)
      (acquire L_tickslock;;
       modify (fun s => set_k_ticks (u32 (k_ticks s + 1)) s);;
       wakeup ChTicks;;
       release L_tickslock)
  else if bool_decide (trapno ∈ [T_IRQ0 + IRQ_IDE; T_IRQ0 + IRQ_KBD; T_IRQ0 + IRQ_COM1]) then dev_intr trapno
  else if bool_decide (trapno ∈ [T_IRQ0 + IRQ_IDE + 1; T_IRQ0 + 7; T_IRQ0 + IRQ_SPURIOUS]) then mret tt
  else
    o ← myproc;
    match o with
    | None => panic "trap"
    | Some c => if Z.land cs 3 =? 0 then panic "trap" else upd_proc c (set_p_killed 1)
    end.

(** The last check of [trap], also after [yield]. *)
Definition trap_end (tf : Z) : K (ending unit) :=
  cs ← load (tf + tf_cs);
  b ← killed;
  if b && (Z.land cs 3 =? DPL_USER) then exit;; mret Exited else mret (Returned tt).

Definition trap (dev_intr : Z -> K unit) (cpuid tf : Z) : K (ending unit) :=
  trapno ← load (tf + tf_trapno);
  if trapno =? T_SYSCALL then trap_syscall tf
  else
    trap_switch dev_intr cpuid tf;;
    r ← trap_end tf;
    match r with
    | Returned _ =>
        o ← myproc;
        running ← match o with
                  | None => mret false
                  | Some c => p ← get_proc c; mret (bool_decide (p_state p = RUNNING))
                  end;
        if running && (trapno =? T_IRQ0 + IRQ_TIMER) then yield_enter;; mret Yielded
        else trap_end tf
    | _ => mret r
    end.

Definition trap_resume (tf : Z) : K (ending unit) := yield_resume;; trap_end tf.
End sysproc.
