(* ===== verification/Apic.v ===== *)
(** * Interrupt controllers and the clock chip

    [lapic.c], [ioapic.c] and [picirq.c].  The controllers are register
    files that behave as their manuals document: the local APIC sends an
    inter-processor interrupt on each write to [ICRLO], and the I/O APIC is
    read and written through a selected register.  The clock chip is a
    function from the number of reads so far to the contents of its
    registers. *)

From Stdlib Require Import ZArith Lia.
From stdpp Require Import base strings numbers gmap list.
From S2P Require Import Prelude Mmu Memory Kernel Trap.

(** ** The local APIC *)

(** Registers, divided by 4 for use as indices. *)
Definition ID : Z := 0x0020 / 4.
Definition VER : Z := 0x0030 / 4.
Definition TPR : Z := 0x0080 / 4.
Definition EOI : Z := 0x00B0 / 4.
Definition SVR : Z := 0x00F0 / 4.
Definition ENABLE : Z := 0x00000100.
Definition ESR : Z := 0x0280 / 4.
Definition ICRLO : Z := 0x0300 / 4.
Definition INIT : Z := 0x00000500.
Definition STARTUP : Z := 0x00000600.
Definition DELIVS : Z := 0x00001000.
Definition ASSERT : Z := 0x00004000.
Definition LEVEL : Z := 0x00008000.
Definition BCAST : Z := 0x00080000.
Definition ICRHI : Z := 0x0310 / 4.
Definition TIMER : Z := 0x0320 / 4.
Definition X1 : Z := 0x0000000B.
Definition PERIODIC : Z := 0x00020000.
Definition PCINT : Z := 0x0340 / 4.
Definition LINT0 : Z := 0x0350 / 4.
Definition LINT1 : Z := 0x0360 / 4.
Definition ERROR : Z := 0x0370 / 4.
Definition MASKED : Z := 0x00010000.
Definition TICR : Z := 0x0380 / 4.
Definition TDCR : Z := 0x03E0 / 4.
Definition IRQ_ERROR : Z := 19.

(** [h_on]: the pointer [lapic] is set.  [h_ipis] are the interrupts sent,
    the contents of [ICRHI] and [ICRLO], the oldest first; [h_busy] is how
    often [ICRLO] still reads as pending. *)
Record hw := mk_hw {
  h_k : kstate; h_on : bool; h_regs : gmap Z Z; h_busy : nat; h_ipis : list (Z * Z);
  h_ports : list (Z * Z) }.
Abbreviation HW := (M hw).

Definition reg (r : Z) (s : hw) : Z := default 0 (h_regs s !! r).
Definition set_h_k (k : kstate) (s : hw) : hw := mk_hw k (h_on s) (h_regs s) (h_busy s) (h_ipis s) (h_ports s).
Definition set_h_busy (n : nat) (s : hw) : hw := mk_hw (h_k s) (h_on s) (h_regs s) n (h_ipis s) (h_ports s).

(** A call of a function on the kernel's state. *)
Definition on_k {A} (f : K A) : HW A := fun s =>
  match f (h_k s) with Ok (a, k) => Ok (a, set_h_k k s) | Err e => Err e end.

(** The ports that are only written: the last write comes first. *)
Definition h_outb (port v : Z) : HW unit := modify (fun s =>
  mk_hw (h_k s) (h_on s) (h_regs s) (h_busy s) (h_ipis s) ((port, v mod 256) :: h_ports s)).

Section lapic.
(** How long an interrupt stays pending. *)
Context (delay : nat).

Definition lapic_store (index value : Z) (s : hw) : hw :=
  mk_hw (h_k s) (h_on s) (<[index := value]> (h_regs s))
    (if index =? ICRLO then delay else h_busy s)
    (if index =? ICRLO then h_ipis s ++ [(reg ICRHI s, value)] else h_ipis s) (h_ports s).
Definition lapic_load (index : Z) : HW Z :=
  s ← gets (fun s => s);
  if index =? ICRLO then
    match h_busy s with
    | S n => modify (set_h_busy n);; mret (Z.lor (reg ICRLO s) DELIVS)
    | O => mret (reg ICRLO s)
    end
  else mret (reg index s).

Definition lapicw (index value : Z) : HW unit :=
  modify (lapic_store index value);;
  _ ← lapic_load ID; (* wait for write to finish, by reading *)
  mret tt.

Definition lapicinit : HW unit :=
  lapic ← gets h_on;
  if negb lapic then mret tt
  else
    (* Enable local APIC; set spurious interrupt vector. *)
    lapicw SVR (Z.lor ENABLE (T_IRQ0 + IRQ_SPURIOUS));;
    (* The timer repeatedly counts down at bus frequency from TICR. *)
    lapicw TDCR X1;;
    lapicw TIMER (Z.lor PERIODIC (T_IRQ0 + IRQ_TIMER));;
    lapicw TICR 10000000;;
    (* Disable logical interrupt lines. *)
    lapicw LINT0 MASKED;;
    lapicw LINT1 MASKED;;
    (* Disable performance counter overflow interrupts where they exist. *)
    ver ← lapic_load VER;
    when (4 <=? Z.land (Z.shiftr ver 16) 0xFF) (lapicw PCINT MASKED);;
    (* Map error interrupt to IRQ_ERROR. *)
    lapicw ERROR (T_IRQ0 + IRQ_ERROR);;
    (* Clear error status register. *)
    lapicw ESR 0;;
    lapicw ESR 0;;
    (* Ack any outstanding interrupts. *)
    lapicw EOI 0;;
    (* Send an Init Level De-Assert. *)
    lapicw ICRHI 0;;
    lapicw ICRLO (Z.lor (Z.lor BCAST INIT) LEVEL);;
    while_ (S delay) (fun _ : unit =>
      r ← lapic_load ICRLO;
      mret (if negb (Z.land r DELIVS =? 0) then inl tt else inr tt)) tt;;
    (* Enable interrupts on the APIC (but not on the processor). *)
    lapicw TPR 0.

Definition lapicid : HW Z :=
  lapic ← gets h_on;
  if negb lapic then mret 0
  else id ← lapic_load ID; mret (Z.shiftr id 24).

(** Acknowledge interrupt. *)
Definition lapiceoi : HW unit :=
  lapic ← gets h_on;
  when lapic (lapicw EOI 0).

Definition CMOS_PORT : Z := 0x70.
Definition st16 (m : mem) (a v : Z) : mem := stb (stb m a v) (a + 1) (v / 0x100).

(** Start additional processor running entry code at [addr]. *)
Definition lapicstartap (apicid addr : Z) : HW unit :=
  (* CMOS shutdown code 0AH, and the warm reset vector *)
  h_outb CMOS_PORT 0xF;;
  h_outb (CMOS_PORT + 1) 0x0A;;
  let wrv := P2V (Z.lor (Z.shiftl 0x40 4) 0x67) in
  on_k (modify (fun k => set_k_mem (st16 (st16 (k_mem k) wrv 0) (wrv + 2) (Z.shiftr addr 4)) k));;
  (* Send INIT (level-triggered) interrupt to reset other CPU. *)
  lapicw ICRHI (Z.shiftl apicid 24);;
  lapicw ICRLO (Z.lor (Z.lor INIT LEVEL) ASSERT);;
  lapicw ICRLO (Z.lor INIT LEVEL);;
  (* Send startup IPI (twice!) to enter code. *)
  _ ← for_ (R := unit) (seqZ 0 2) (fun _ (_ : unit) =>
    lapicw ICRHI (Z.shiftl apicid 24);;
    lapicw ICRLO (Z.lor STARTUP (Z.shiftr addr 12));;
    mret (Next tt)) tt;
  mret tt.

(** ** What the other processors do *)

(** A processor before it is started, after INIT, and running at a physical
    address; [apply_ipi] is the reaction of the processor [id] that the
    manual documents: an INIT that is not asserted only synchronises
    identifiers, and a STARTUP is ignored unless the processor waits. *)
Inductive ap := Stopped | WaitSipi | Running (pc : Z).
#[export] Instance ap_eq : EqDecision ap.
Proof. solve_decision. Defined.

Definition addressed (id : Z) (ipi : Z * Z) : bool :=
  match Z.land (Z.shiftr (ipi.2) 18) 3 with
  | 0 => Z.shiftr (ipi.1) 24 =? id
  | 2 => true
  | _ => false
  end.
Definition apply_ipi (id : Z) (a : ap) (ipi : Z * Z) : ap :=
  if addressed id ipi then
    match Z.land (Z.shiftr (ipi.2) 8) 7 with
    | 5 => if Z.testbit (ipi.2) 14 then WaitSipi else a
    | 6 => match a with WaitSipi => Running (Z.land (ipi.2) 0xFF * 4096) | _ => a end
    | _ => a
    end
  else a.
Definition apply_ipis (id : Z) (a : ap) (l : list (Z * Z)) : ap := foldl (apply_ipi id) a l.

(** ** Writing registers *)

Lemma wp_lapicw i v (Q : unit -> hw -> Prop) s : Q tt (lapic_store i v s) -> wp (lapicw i v) Q s.
Proof. done. Qed.

Lemma reg_store i v r s : reg r (lapic_store i v s) = if decide (i = r) then v else reg r s.
Proof. unfold reg, lapic_store. cbn [h_regs]. rewrite lookup_insert. by case_decide. Qed.

Lemma reg_busy r n s : reg r (set_h_busy n s) = reg r s.
Proof. done. Qed.

(** Waiting for delivery changes nothing else. *)
Lemma wp_delivered (Q : unit -> hw -> Prop) n s : Z.land (reg ICRLO s) DELIVS = 0 -> h_busy s = n -> Q tt (set_h_busy 0 s) ->
  wp (while_ (S n) (fun _ : unit =>
      r ← lapic_load ICRLO;
      mret (if negb (Z.land r DELIVS =? 0) then inl tt else inr tt)) tt) Q s.
Proof.
  revert s. induction n as [|n IH]; intros s Hr Hn HQ; apply wp_while_S; unfold lapic_load; wp_step; wp_step; wp_step; cbn [Z.eqb Pos.eqb ICRLO]; rewrite Hn.
  - change (ICRLO =? ICRLO) with true. cbn iota. do 2 wp_step. rewrite Hr. cbn. replace s with (set_h_busy 0 s); [done|]. destruct s. cbn in *. by subst.
  - change (ICRLO =? ICRLO) with true. cbn iota. wp_step. wp_step. wp_step. wp_step.
    assert (Z.land (Z.lor (reg ICRLO s) DELIVS) DELIVS = DELIVS) as -> by (rewrite Z.land_lor_distr_l, Hr; done).
    cbn iota. by apply IH.
Qed.
End lapic.

(** What a processor's local APIC is set up for. *)
Definition lapic_ready (s : hw) : Prop :=
  reg SVR s = Z.lor ENABLE (T_IRQ0 + IRQ_SPURIOUS) /\ reg TIMER s = Z.lor PERIODIC (T_IRQ0 + IRQ_TIMER) /\ reg TDCR s = X1 /\
  reg TICR s = 10000000 /\ reg LINT0 s = MASKED /\ reg LINT1 s = MASKED /\ reg ERROR s = T_IRQ0 + IRQ_ERROR /\ reg TPR s = 0.

Ltac regs := repeat (rewrite reg_store || rewrite reg_busy || rewrite decide_True by reflexivity || rewrite decide_False by discriminate).

(** [lapicinit] returns, however long its interrupt is pending, and leaves
    the local APIC enabled with the timer interrupt periodic and the local
    lines masked; the performance counter is masked exactly on versions that
    have it; the one interrupt it sends resets or starts no processor; and
    without a local APIC nothing is touched. *)
Theorem lapicinit_correct delay s :
  wp (lapicinit delay) (fun _ s' =>
    if h_on s then
      lapic_ready s' /\
      reg PCINT s' = (if 4 <=? Z.land (Z.shiftr (reg VER s) 16) 0xFF then MASKED else reg PCINT s) /\
      (exists ipi, h_ipis s' = h_ipis s ++ [ipi] /\ forall id a, apply_ipi id a ipi = a) /\
      h_k s' = h_k s /\ h_busy s' = 0%nat /\ forall r, r ∉ [SVR; TDCR; TIMER; TICR; LINT0; LINT1; PCINT; ERROR; ESR; EOI; ICRHI; ICRLO; TPR] -> reg r s' = reg r s
    else s' = s) s.
Proof.
  unfold lapicinit. wp_step. wp_step. destruct (h_on s); cbn [negb]; [|by wp_step].
  do 6 (wp_step; apply wp_lapicw). wp_step. unfold lapic_load at 1. do 2 wp_step.
  change (VER =? ICRLO) with false. cbn iota. wp_step. regs.
  set (s6 := lapic_store _ LINT1 _ _). wp_step.
  assert (forall s7, (forall r, r <> PCINT -> reg r s7 = reg r s6) -> h_ipis s7 = h_ipis s6 -> h_k s7 = h_k s6 ->
    reg PCINT s7 = (if 4 <=? Z.land (Z.shiftr (reg VER s) 16) 0xFF then MASKED else reg PCINT s) ->
    wp (lapicw delay ERROR (T_IRQ0 + IRQ_ERROR);; lapicw delay ESR 0;; lapicw delay ESR 0;; lapicw delay EOI 0;; lapicw delay ICRHI 0;;
      lapicw delay ICRLO (Z.lor (Z.lor BCAST INIT) LEVEL);;
      while_ (S delay) (fun _ : unit => r ← lapic_load ICRLO; mret (if negb (Z.land r DELIVS =? 0) then inl tt else inr tt)) tt;;
      lapicw delay TPR 0) (fun _ s' => lapic_ready s' /\
      reg PCINT s' = (if 4 <=? Z.land (Z.shiftr (reg VER s) 16) 0xFF then MASKED else reg PCINT s) /\
      (exists ipi, h_ipis s' = h_ipis s ++ [ipi] /\ forall id a, apply_ipi id a ipi = a) /\
      h_k s' = h_k s /\ h_busy s' = 0%nat /\ forall r, r ∉ [SVR; TDCR; TIMER; TICR; LINT0; LINT1; PCINT; ERROR; ESR; EOI; ICRHI; ICRLO; TPR] -> reg r s' = reg r s) s7) as Hrest.
  { intros s7 H7 Hi7 Hk7 Hp7. do 6 (wp_step; apply wp_lapicw). wp_step. apply wp_delivered; [regs; reflexivity|reflexivity|]. apply wp_lapicw.
    unfold lapic_ready. regs. rewrite !H7 by discriminate. unfold s6. regs. split_and!; try done.
    - eexists. split; [cbn; rewrite Hi7; reflexivity|]. intros id a. unfold apply_ipi. by case_if.
    - intros r Hr. rewrite !not_elem_of_cons in Hr. destruct_and!. repeat (rewrite reg_store || rewrite reg_busy).
      repeat (rewrite decide_False by congruence). rewrite H7 by done. unfold s6. rewrite !reg_store. by repeat (rewrite decide_False by congruence). }
  destruct (4 <=? _); cbn [when]; [apply wp_lapicw|apply wp_ret]; apply Hrest; try done.
  - intros r Hr. rewrite reg_store. by rewrite decide_False by congruence.
  - by regs.
  - unfold s6. by regs.
Qed.

(** ** Starting a processor *)

Lemma startup_fields v : 0 <= v < 256 ->
  Z.land (Z.shiftr (Z.lor STARTUP v) 18) 3 = 0 /\ Z.land (Z.shiftr (Z.lor STARTUP v) 8) 7 = 6 /\ Z.land (Z.lor STARTUP v) 0xFF = v.
Proof.
  intros Hv. assert (forallb (fun n => let v := Z.of_nat n in
    (Z.land (Z.shiftr (Z.lor STARTUP v) 18) 3 =? 0) && (Z.land (Z.shiftr (Z.lor STARTUP v) 8) 7 =? 6) && (Z.land (Z.lor STARTUP v) 0xFF =? v))
    (seq 0 256) = true) as Hall by reflexivity.
  rewrite forallb_forall in Hall. specialize (Hall (Z.to_nat v)). rewrite Z2Nat.id in Hall by lia.
  assert (List.In (Z.to_nat v) (seq 0 256)) as Hin by (apply in_seq; lia). apply Hall in Hin. cbv beta zeta in Hin. by bool_prop.
Qed.

(** The interrupts of the universal start-up algorithm. *)
Definition start_ipis (apicid addr : Z) : list (Z * Z) :=
  [(Z.shiftl apicid 24, Z.lor (Z.lor INIT LEVEL) ASSERT); (Z.shiftl apicid 24, Z.lor INIT LEVEL);
   (Z.shiftl apicid 24, Z.lor STARTUP (Z.shiftr addr 12)); (Z.shiftl apicid 24, Z.lor STARTUP (Z.shiftr addr 12))].

Lemma start_ipis_target apicid v a : 0 <= v < 256 -> apply_ipis apicid a (start_ipis apicid (4096 * v)) = Running (4096 * v).
Proof.
  intros Hv. unfold start_ipis. assert (Z.shiftr (4096 * v) 12 = v) as -> by (rewrite Z.shiftr_div_pow2 by lia; zdiv).
  destruct (startup_fields v Hv) as (H1 & H2 & H3).
  assert (Z.shiftr (Z.shiftl apicid 24) 24 = apicid) as Hs by (rewrite Z.shiftr_shiftl_l, Z.sub_diag by lia; apply Z.shiftl_0_r).
  assert (forall x, Z.land (Z.shiftr x 18) 3 = 0 -> addressed apicid (Z.shiftl apicid 24, x) = true) as Ha.
  { intros x Hx. unfold addressed. cbn [fst snd]. by rewrite Hx, Hs, Z.eqb_refl. }
  unfold apply_ipis. cbn [foldl]. unfold apply_ipi. rewrite !Ha by done. cbn [fst snd]. rewrite H2, H3.
  cbn. f_equal. lia.
Qed.

Lemma start_ipis_other apicid id v a : 0 <= v < 256 -> id <> apicid -> apply_ipis id a (start_ipis apicid (4096 * v)) = a.
Proof.
  intros Hv Hid. unfold start_ipis. assert (Z.shiftr (4096 * v) 12 = v) as -> by (rewrite Z.shiftr_div_pow2 by lia; zdiv).
  destruct (startup_fields v Hv) as (H1 & H2 & H3).
  assert (Z.shiftr (Z.shiftl apicid 24) 24 = apicid) as Hs by (rewrite Z.shiftr_shiftl_l, Z.sub_diag by lia; apply Z.shiftl_0_r).
  assert (forall x, Z.land (Z.shiftr x 18) 3 = 0 -> addressed id (Z.shiftl apicid 24, x) = false) as Ha.
  { intros x Hx. unfold addressed. cbn [fst snd]. rewrite Hx, Hs. by apply Z.eqb_neq. }
  unfold apply_ipis. cbn [foldl]. unfold apply_ipi. by rewrite !Ha.
Qed.

(** The warm reset vector, a segment and an offset in it. *)
Definition WRV : Z := P2V 0x467.
Definition warm_reset (m : mem) : Z := 16 * ld16 m (WRV + 2) + ld16 m WRV.

Definition wrv_mem (m : mem) (addr : Z) : mem := st16 (st16 m WRV 0) (WRV + 2) (Z.shiftr addr 4).
Lemma wrv_mem_out m addr b : b < WRV \/ WRV + 4 <= b -> ldb (wrv_mem m addr) b = ldb m b.
Proof. intros. unfold wrv_mem, st16. by rewrite !ldb_stb_ne by lia. Qed.
Lemma warm_reset_wrv m v : 0 <= v < 256 -> warm_reset (wrv_mem m (4096 * v)) = 4096 * v.
Proof.
  intros Hv. unfold warm_reset, wrv_mem, st16, ld16. assert (Z.shiftr (4096 * v) 4 = 256 * v) as -> by (rewrite Z.shiftr_div_pow2 by lia; zdiv).
  rewrite !ldb_stb. repeat (case_decide; try lia). zdiv.
Qed.

(** Only the interrupt command changes. *)
Definition same_regs (g g' : gmap Z Z) : Prop := forall r, r <> ICRHI -> r <> ICRLO -> g' !! r = g !! r.

(** Choosing the destination, and sending. *)
Lemma wp_dest delay v (Q : unit -> hw -> Prop) s :
  (forall regs busy, default 0 (regs !! ICRHI) = v -> same_regs (h_regs s) regs -> Q tt (mk_hw (h_k s) (h_on s) regs busy (h_ipis s) (h_ports s))) ->
  wp (lapicw delay ICRHI v) Q s.
Proof. intros HQ. apply wp_lapicw, HQ; [by rewrite lookup_insert_eq|]. intros r ??. by rewrite lookup_insert_ne. Qed.
Lemma wp_send delay hi v (Q : unit -> hw -> Prop) s : reg ICRHI s = hi ->
  (forall regs busy, default 0 (regs !! ICRHI) = hi -> same_regs (h_regs s) regs -> Q tt (mk_hw (h_k s) (h_on s) regs busy (h_ipis s ++ [(hi, v)]) (h_ports s))) ->
  wp (lapicw delay ICRLO v) Q s.
Proof. intros <- HQ. apply wp_lapicw, HQ; [by rewrite lookup_insert_ne|]. intros r ??. by rewrite lookup_insert_ne. Qed.

Lemma wp_lapicstartap delay apicid addr (Q : unit -> hw -> Prop) s :
  (forall regs busy, same_regs (h_regs s) regs -> Q tt (mk_hw (set_k_mem (wrv_mem (k_mem (h_k s)) addr) (h_k s)) (h_on s) regs busy (h_ipis s ++ start_ipis apicid addr)
     ((CMOS_PORT + 1, 0x0A) :: (CMOS_PORT, 0xF) :: h_ports s))) -> wp (lapicstartap delay apicid addr) Q s.
Proof.
  intros HQ. unfold lapicstartap. do 2 (wp_step; unfold h_outb; wp_step). wp_step. unfold on_k, wp at 1. cbn [modify h_k].
  wp_step. apply wp_dest. intros r0 b0 E0 G0. wp_step. eapply wp_send; [exact E0|]. intros r1 b1 E1 G1.
  wp_step. eapply wp_send; [exact E1|]. intros r2 b2 _ G2. change (seqZ 0 2) with [0; 1]. cbn [for_].
  wp_step. wp_step. wp_step. apply wp_dest. intros r3 b3 E3 G3. wp_step. eapply wp_send; [exact E3|]. intros r4 b4 _ G4. wp_step.
  wp_step. wp_step. apply wp_dest. intros r5 b5 E5 G5. wp_step. eapply wp_send; [exact E5|]. intros r6 b6 _ G6. wp_step. do 2 wp_step.
  cbn [set_h_k h_k h_on h_ipis h_ports h_regs] in *. rewrite <-!app_assoc. apply (HQ r6 b6).
  intros r ??. by rewrite G6, G5, G4, G3, G2, G1, G0.
Qed.

(** ** The 8259A controllers *)

Definition IO_PIC1 : Z := 0x20.
Definition IO_PIC2 : Z := 0xA0.

(** Mask all interrupts. *)
Definition picinit : HW unit :=
  h_outb (IO_PIC1 + 1) 0xFF;;
  h_outb (IO_PIC2 + 1) 0xFF.

(** ** The I/O APIC *)

Definition REG_ID : Z := 0x00.
Definition REG_VER : Z := 0x01.
Definition REG_TABLE : Z := 0x10.
Definition INT_DISABLED : Z := 0x00010000.

(** The selected register, the registers, and whether the warning about the
    identifier has been printed. *)
Record ioapic := mk_ioapic { io_reg : Z; io_data : gmap Z Z; io_warned : bool }.
Abbreviation IO := (M ioapic).
Definition io_get (r : Z) (s : ioapic) : Z := default 0 (io_data s !! r).

Definition ioapicread (r : Z) : IO Z :=
  modify (fun s => mk_ioapic r (io_data s) (io_warned s));;
  gets (fun s => io_get (io_reg s) s).
Definition ioapicwrite (r data : Z) : IO unit :=
  modify (fun s => mk_ioapic r (io_data s) (io_warned s));;
  modify (fun s => mk_ioapic (io_reg s) (<[io_reg s := data]> (io_data s)) (io_warned s)).

(** [ioapicid] is the one that [mpinit] found. *)
Definition ioapicinit (ioapicid : Z) : IO unit :=
  v ← ioapicread REG_VER;
  let maxintr := Z.land (Z.shiftr v 16) 0xFF in
  id ← ioapicread REG_ID;
  when (negb (Z.shiftr id 24 =? ioapicid)) (modify (fun s => mk_ioapic (io_reg s) (io_data s) true));;
  (* Mark all interrupts edge-triggered, active high, disabled, and not
     routed to any CPUs. *)
  _ ← for_ (R := unit) (seqZ 0 (maxintr + 1)) (fun i (_ : unit) =>
    ioapicwrite (REG_TABLE + 2 * i) (Z.lor INT_DISABLED (T_IRQ0 + i));;
    ioapicwrite (REG_TABLE + 2 * i + 1) 0;;
    mret (Next tt)) tt;
  mret tt.

(** Mark interrupt edge-triggered, active high, enabled, and routed to the
    given [cpunum], which happens to be that cpu's APIC ID. *)
Definition ioapicenable (irq cpunum : Z) : IO unit :=
  ioapicwrite (REG_TABLE + 2 * irq) (T_IRQ0 + irq);;
  ioapicwrite (REG_TABLE + 2 * irq + 1) (Z.shiftl cpunum 24).

(** What the I/O APIC does with interrupt [i]: the vector, and the APIC
    identifier of the processor it is delivered to. *)
Definition redirect (s : ioapic) (i : Z) : option (Z * Z) :=
  let low := io_get (REG_TABLE + 2 * i) s in
  if Z.testbit low 16 then None else Some (Z.land low 0xFF, Z.shiftr (io_get (REG_TABLE + 2 * i + 1) s) 24).
Definition max_intr (s : ioapic) : Z := Z.land (Z.shiftr (io_get REG_VER s) 16) 0xFF.

Lemma wp_ioapicwrite r d (Q : unit -> ioapic -> Prop) s : Q tt (mk_ioapic r (<[r := d]> (io_data s)) (io_warned s)) -> wp (ioapicwrite r d) Q s.
Proof. done. Qed.

Lemma io_get_insert r d x g w : io_get x (mk_ioapic r (<[r := d]> g) w) = if decide (r = x) then d else default 0 (g !! x).
Proof. unfold io_get. cbn. rewrite lookup_insert. by case_decide. Qed.

(** Enabling changes the route of one interrupt. *)
Lemma wp_ioapicenable irq cpunum (Q : unit -> ioapic -> Prop) s : 0 <= irq <= 223 ->
  (forall s', (forall i, redirect s' i = if decide (i = irq) then Some (T_IRQ0 + irq, cpunum) else redirect s i) ->
     max_intr s' = max_intr s -> Q tt s') -> wp (ioapicenable irq cpunum) Q s.
Proof.
  intros Hi HQ. unfold ioapicenable. wp_step. apply wp_ioapicwrite, wp_ioapicwrite, HQ.
  - intros i. unfold redirect. rewrite !io_get_insert. cbn [io_data]. unfold REG_TABLE. destruct (decide (i = irq)) as [->|Hd].
    + rewrite (decide_False (P := 16 + 2 * irq + 1 = 16 + 2 * irq)) by lia. rewrite lookup_insert_eq, decide_True by lia. cbn [default id]. unfold T_IRQ0.
      rewrite Z.shiftr_shiftl_l, Z.sub_diag, Z.shiftl_0_r by lia.
      change 0xFF with (Z.ones 8). rewrite Z.land_ones, Z.mod_small by (cbn; lia).
      assert (Z.testbit (32 + irq) 16 = false) as -> by (apply Z.bits_above_log2; [lia|]; apply Z.log2_lt_pow2; lia). done.
    + rewrite !decide_False by lia. rewrite lookup_insert_ne by lia. rewrite (lookup_insert_ne (io_data s)) by lia. done.
  - unfold max_intr. rewrite io_get_insert, decide_False by (unfold REG_TABLE, REG_VER; lia). cbn [io_data].
    by rewrite lookup_insert_ne by (unfold REG_TABLE, REG_VER; lia).
Qed.

Lemma testbit_lor_16 x : Z.testbit (Z.lor INT_DISABLED x) 16 = true.
Proof. rewrite Z.lor_spec. done. Qed.

(** After the set-up no interrupt is delivered. *)
Lemma wp_ioapicinit ioapicid (Q : unit -> ioapic -> Prop) s :
  (forall s', (forall i, 0 <= i <= max_intr s -> redirect s' i = None) -> max_intr s' = max_intr s -> Q tt s') -> wp (ioapicinit ioapicid) Q s.
Proof.
  intros HQ. unfold ioapicinit, ioapicread. wp_steps; cbn [io_data io_reg]; unfold io_get at 1; cbn [io_data];
    change (Z.land (Z.shiftr (default 0 (io_data s !! REG_VER)) 16) 0xFF) with (max_intr s).
  all: assert (0 <= max_intr s) as Hm by (apply Z.land_nonneg; lia).
  all: eapply (wp_for_seqZ _ _ (fun t _ s' => max_intr s' = max_intr s /\ forall i, 0 <= i < Z.of_nat t -> redirect s' i = None)); [lia| | |].
  all: try (split; [done|intros; lia]).
  all: try (intros [] s' [Hv Hr]; wp_step; apply HQ; [intros; apply Hr; lia|done]).
  all: intros t [] s' Ht [Hv Hr]; wp_step; apply wp_ioapicwrite; wp_step; apply wp_ioapicwrite; wp_step; split.
  all: try (unfold max_intr; rewrite io_get_insert, decide_False by (unfold REG_TABLE, REG_VER; lia); cbn [io_data];
    by rewrite lookup_insert_ne by (unfold REG_TABLE, REG_VER; lia)).
  all: intros i Hi; unfold redirect; rewrite !io_get_insert; cbn [io_data]; rewrite (decide_False) by lia; rewrite lookup_insert;
    case_decide; [cbn [default id]; by rewrite testbit_lor_16|].
  all: specialize (Hr i ltac:(lia)); unfold redirect, io_get in Hr; by destruct (Z.testbit _ 16).
Qed.

(** Several calls. *)
Fixpoint enable_all (l : list (Z * Z)) : IO unit :=
  match l with [] => mret tt | (irq, cpu) :: l => ioapicenable irq cpu;; enable_all l end.

(** After [ioapicinit] and any calls of [ioapicenable], an interrupt of
    the I/O APIC is delivered exactly if it was enabled, with the vector
    [T_IRQ0] plus its number, to the processor of the last call for it; every
    other interrupt is disabled. *)
Theorem ioapic_routes ioapicid l s : Forall (fun '(irq, cpu) => 0 <= irq <= 223) l ->
  wp (ioapicinit ioapicid;; enable_all l) (fun _ s' => forall i, 0 <= i <= max_intr s ->
    redirect s' i = p ← last (filter (fun p => p.1 = i) l); Some (T_IRQ0 + i, p.2)) s.
Proof.
  intros Hl. wp_step. apply wp_ioapicinit. intros s1 Hr1 Hm1.
  assert (forall pre suf s2, Forall (fun '(irq, cpu) => 0 <= irq <= 223) suf ->
    (forall i, 0 <= i <= max_intr s -> redirect s2 i = p ← last (filter (fun p => p.1 = i) pre); Some (T_IRQ0 + i, p.2)) ->
    wp (enable_all suf) (fun _ s' => forall i, 0 <= i <= max_intr s ->
      redirect s' i = p ← last (filter (fun p => p.1 = i) (pre ++ suf)); Some (T_IRQ0 + i, p.2)) s2) as Hgen.
  { intros pre suf. revert pre. induction suf as [|[irq cpu] suf IH]; intros pre s2 Hs H2; cbn [enable_all].
    - wp_step. by rewrite app_nil_r.
    - apply Forall_cons in Hs as [Hi Hs]. wp_step. apply wp_ioapicenable; [done|]. intros s3 H3 _.
      rewrite (cons_middle (irq, cpu) pre suf), app_assoc. apply IH; [done|]. intros i Hi'. rewrite H3, filter_app, filter_cons.
      cbn [fst]. case_decide as Hd; case_decide; try congruence; rewrite filter_nil.
      + rewrite last_snoc. by subst.
      + by rewrite app_nil_r, H2. }
  apply (Hgen []); [done|]. exact Hr1.
Qed.

(** ** The clock chip *)

Definition CMOS_STATA : Z := 0x0a.
Definition CMOS_STATB : Z := 0x0b.
Definition CMOS_UIP : Z := Z.shiftl 1 7. (* RTC update in progress *)
Definition SECS : Z := 0x00.
Definition MINS : Z := 0x02.
Definition HOURS : Z := 0x04.
Definition DAY : Z := 0x07.
Definition MONTH : Z := 0x08.
Definition YEAR : Z := 0x09.

Record rtcdate := mk_date { second : Z; minute : Z; hour : Z; day : Z; month : Z; year : Z }.
#[export] Instance rtcdate_eq : EqDecision rtcdate.
Proof. solve_decision. Defined.

(** How many reads there have been, and the selected register. *)
Record cmos := mk_cmos { c_reads : nat; c_index : Z }.
Abbreviation CM := (M cmos).

Section rtc.
(** What a register holds at the [t]-th read. *)
Context (rtc : nat -> Z -> Z).

Definition cmos_read (r : Z) : CM Z :=
  modify (fun s => mk_cmos (c_reads s) r);;
  s ← gets (fun s => s);
  modify (fun s => mk_cmos (S (c_reads s)) (c_index s));;
  mret (rtc (c_reads s) (c_index s)).

Definition fill_rtcdate : CM rtcdate :=
  second ← cmos_read SECS;
  minute ← cmos_read MINS;
  hour ← cmos_read HOURS;
  day ← cmos_read DAY;
  month ← cmos_read MONTH;
  year ← cmos_read YEAR;
  mret (mk_date second minute hour day month year).

Definition CONV (x : Z) : Z := Z.shiftr x 4 * 10 + Z.land x 0xf.

Definition cmostime (fuel : nat) : CM rtcdate :=
  sb ← cmos_read CMOS_STATB;
  let bcd := Z.land sb (Z.shiftl 1 2) =? 0 in
  (* make sure CMOS doesn't modify time while we read it *)
  t1 ← while_ fuel (fun _ : unit =>
    t1 ← fill_rtcdate;
    a ← cmos_read CMOS_STATA;
    if negb (Z.land a CMOS_UIP =? 0) then mret (inl tt)
    else
      t2 ← fill_rtcdate;
      mret (if decide (t1 = t2) then inr t1 else inl tt)) tt;
  let t1 := if bcd then mk_date (CONV (second t1)) (CONV (minute t1)) (CONV (hour t1)) (CONV (day t1)) (CONV (month t1)) (CONV (year t1)) else t1 in
  mret (mk_date (second t1) (minute t1) (hour t1) (day t1) (month t1) (year t1 + 2000)).

(** ** A clock *)

Definition encode (bcd : bool) (x : Z) : Z := if bcd then x / 10 * 16 + x mod 10 else x.
Definition encode_date (bcd : bool) (d : rtcdate) : rtcdate :=
  mk_date (encode bcd (second d)) (encode bcd (minute d)) (encode bcd (hour d)) (encode bcd (day d)) (encode bcd (month d)) (encode bcd (year d)).
Definition two_digits (d : rtcdate) : Prop :=
  0 <= second d < 100 /\ 0 <= minute d < 100 /\ 0 <= hour d < 100 /\ 0 <= day d < 100 /\ 0 <= month d < 100 /\ 0 <= year d < 100.

(** The chip shows [time], in decimal digits or in binary.  The reads are
    fast: within thirteen of them, seconds that are the same at both ends
    have not moved in between, and among any sixty there are thirty in which
    nothing moves. *)
Record clock (bcd : bool) (time : nat -> rtcdate) : Prop := {
  ck_date : forall t, mk_date (rtc t SECS) (rtc t MINS) (rtc t HOURS) (rtc t DAY) (rtc t MONTH) (rtc t YEAR) = encode_date bcd (time t);
  ck_digits : forall t, two_digits (time t);
  ck_statb : forall t, (Z.land (rtc t CMOS_STATB) (Z.shiftl 1 2) =? 0) = bcd;
  ck_fast : forall t u t', (t <= u <= t')%nat -> (t' < t + 13)%nat -> second (time t) = second (time t') -> time u = time t;
  ck_calm : forall t, exists c, (t <= c <= t + 30)%nat /\ forall u, (c <= u < c + 30)%nat -> time u = time c /\ Z.land (rtc u CMOS_STATA) CMOS_UIP = 0;
}.

Lemma conv_encode x : 0 <= x < 100 -> CONV (encode true x) = x.
Proof.
  intros Hx. unfold CONV, encode. change 0xf with (Z.ones 4). rewrite Z.land_ones, Z.shiftr_div_pow2 by lia.
  change (2 ^ 4) with 16. zdiv.
Qed.

Lemma encode_inj bcd x y : 0 <= x < 100 -> 0 <= y < 100 -> encode bcd x = encode bcd y -> x = y.
Proof. unfold encode. destruct bcd; [|done]. intros. zdiv. Qed.

Section clock.
Context (bcd : bool) (time : nat -> rtcdate) (Hck : clock bcd time).

Lemma wp_cmos_read r (Q : Z -> cmos -> Prop) s : Q (rtc (c_reads s) r) (mk_cmos (S (c_reads s)) r) -> wp (cmos_read r) Q s.
Proof. done. Qed.

(** The six fields are read at six moments. *)
Lemma wp_fill_rtcdate (Q : rtcdate -> cmos -> Prop) s :
  (let t := c_reads s in let e := encode_date bcd in
   Q (mk_date (second (e (time t))) (minute (e (time (1 + t)%nat))) (hour (e (time (2 + t)%nat))) (day (e (time (3 + t)%nat)))
        (month (e (time (4 + t)%nat))) (year (e (time (5 + t)%nat)))) (mk_cmos (6 + t) YEAR)) -> wp fill_rtcdate Q s.
Proof.
  cbv zeta. intros HQ. unfold fill_rtcdate. do 6 (wp_step; apply wp_cmos_read). wp_step. cbn [c_reads] in *.
  rewrite <-!(ck_date _ _ Hck) in HQ. exact HQ.
Qed.

(** One attempt: it gives up only if the time moved or an update is on, and
    a date it returns is of one moment. *)
Lemma wp_attempt (Q : unit + rtcdate -> cmos -> Prop) s :
  (forall n idx, (7 <= n <= 13)%nat ->
     ~ (forall u, (c_reads s <= u < c_reads s + 13)%nat -> time u = time (c_reads s) /\ Z.land (rtc u CMOS_STATA) CMOS_UIP = 0) ->
     Q (inl tt) (mk_cmos (n + c_reads s) idx)) ->
  (forall n idx, (0 < n)%nat -> Q (inr (encode_date bcd (time (c_reads s)))) (mk_cmos (n + c_reads s) idx)) ->
  wp (t1 ← fill_rtcdate;
      a ← cmos_read CMOS_STATA;
      if negb (Z.land a CMOS_UIP =? 0) then mret (inl tt)
      else
        t2 ← fill_rtcdate;
        mret (if decide (t1 = t2) then inr t1 else inl tt)) Q s.
Proof.
  intros Hagain Hdone. set (t := c_reads s) in *. wp_step. apply wp_fill_rtcdate. fold t. cbv zeta. wp_step. apply wp_cmos_read. cbn [c_reads].
  case_if.
  - wp_step. apply (Hagain 7%nat); [lia|]. intros Hq. by destruct (Hq (6 + t)%nat ltac:(lia)).
  - wp_step. apply wp_fill_rtcdate. cbv zeta. cbn [c_reads]. wp_step. change (6 + S (6 + t))%nat with (13 + t)%nat. case_decide as Hd.
    + injection Hd as Hsec _ _ _ _ _. apply encode_inj in Hsec; [|apply (ck_digits _ _ Hck)..].
      assert (forall i, (i <= 7)%nat -> time (i + t)%nat = time t) as Heq.
      { intros i Hi. apply (ck_fast _ _ Hck t (i + t) (S (6 + t)))%nat; [lia|lia|exact Hsec]. }
      rewrite !Heq by lia. apply (Hdone 13%nat). lia.
    + apply (Hagain 13%nat); [lia|]. intros Hq. apply Hd. 
      assert (forall u, (t <= u < t + 13)%nat -> time u = time t) as Heq by (intros; apply Hq; lia).
      repeat match goal with |- context [time ?u] => assert_fails (constr_eq u t); rewrite (Heq u) by lia end. done.
Qed.

(** [cmostime] returns, and the date is one that the clock showed during
    the call, all six fields of the same moment, decoded from decimal digits
    if the chip uses them, with the full year; the test for an update and
    the second reading rule out a mixture of two moments. *)
Theorem cmostime_consistent fuel s : (6 < fuel)%nat ->
  wp (cmostime fuel) (fun d s' => exists u, (c_reads s <= u < c_reads s')%nat /\
    d = mk_date (second (time u)) (minute (time u)) (hour (time u)) (day (time u)) (month (time u)) (year (time u) + 2000)) s.
Proof.
  intros Hfuel. unfold cmostime. wp_step. apply wp_cmos_read. rewrite (ck_statb _ _ Hck). wp_step.
  destruct (ck_calm _ _ Hck (S (c_reads s))) as (c & Hc & Hcalm).
  assert (forall f s', (c_reads s < c_reads s' <= c + 12)%nat -> (c + 13 <= c_reads s' + 7 * f)%nat ->
    wp (while_ f (fun _ : unit => t1 ← fill_rtcdate; a ← cmos_read CMOS_STATA;
      if negb (Z.land a CMOS_UIP =? 0) then mret (inl tt)
      else t2 ← fill_rtcdate; mret (if decide (t1 = t2) then inr t1 else inl tt)) tt)
      (fun d s' => exists u, (c_reads s <= u < c_reads s')%nat /\ d = encode_date bcd (time u)) s') as Hloop.
  { induction f as [|f IH]; intros s' Hs' Hf; [lia|]. apply wp_while_S, wp_attempt.
    - intros n idx Hn Hnot. apply IH; cbn [c_reads]; [|lia].
      destruct (decide (c <= c_reads s')%nat); [|lia]. destruct Hnot. intros u Hu.
      rewrite (proj1 (Hcalm u ltac:(lia))), (proj1 (Hcalm (c_reads s') ltac:(lia))). split; [done|]. by apply Hcalm; lia.
    - intros n idx Hn. exists (c_reads s'). cbn [c_reads]. split; [lia|done]. }
  eapply wp_mono; [apply Hloop; cbn [c_reads]; lia|].
  intros d s' (u & Hu & ->). wp_step. exists u. split; [done|].
  destruct (ck_digits _ _ Hck u) as (?&?&?&?&?&?). unfold encode_date. destruct bcd; cbn [second minute hour day month year]; [|done].
  by rewrite !conv_encode.
Qed.
End clock.
End rtc.

(** ** Instances *)

(** A chip with decimal digits whose clock moves during the first attempt. *)
Definition time0 (t : nat) : rtcdate := mk_date (if (t <? 4)%nat then 58 else 59) 30 12 15 11 26.
Definition rtc0 (t : nat) (r : Z) : Z :=
  let d := encode_date true (time0 t) in
  match r with 0 => second d | 2 => minute d | 4 => hour d | 7 => day d | 8 => month d | 9 => year d | _ => 0 end.

Lemma clock0 : clock rtc0 true time0.
Proof.
  split.
  - done.
  - intros t. unfold two_digits, time0. cbn [second minute hour day month year]. destruct (t <? 4)%nat; lia.
  - done.
  - intros t u t' Hu _ Hs. unfold time0 in *. cbn [second] in Hs. destruct (Nat.ltb_spec t 4), (Nat.ltb_spec t' 4), (Nat.ltb_spec u 4); try done; lia.
  - intros t. exists (Nat.max t 4). split; [lia|]. intros u Hu. split; [|done]. unfold time0.
    by rewrite !(proj2 (Nat.ltb_ge _ _)) by lia.
Qed.

Lemma cmostime_consistent_witness :
  wp (cmostime rtc0 7) (fun d _ => exists u, d = mk_date (second (time0 u)) 30 12 15 11 2026) (mk_cmos 0 0).
Proof.
  eapply wp_mono; [apply (cmostime_consistent rtc0 true time0 clock0 7 (mk_cmos 0 0)); lia|].
  intros d s (u & _ & ->). exists u. reflexivity.
Defined.

Definition ioapic0 : ioapic := mk_ioapic 0 {[REG_VER := 0x170020]} false.

Lemma ioapic_routes_witness :
  wp (ioapicinit 0;; enable_all [(IRQ_KBD, 0); (IRQ_COM1, 0); (IRQ_IDE, 1)])
    (fun _ s => redirect s IRQ_IDE = Some (46, 1) /\ redirect s IRQ_KBD = Some (33, 0) /\ redirect s 2 = None) ioapic0.
Proof.
  eapply wp_mono; [apply (ioapic_routes 0 [(IRQ_KBD, 0); (IRQ_COM1, 0); (IRQ_IDE, 1)] ioapic0)|].
  - repeat constructor; unfold IRQ_KBD, IRQ_COM1, IRQ_IDE; lia.
  - intros r s H. rewrite !H by (vm_compute; split; discriminate). split_and!; reflexivity.
Defined.
