(* ===== verification/Startup.v ===== *)
(** * Starting the other processors

    [startothers] of [main.c]: the boot processor copies the entry code to
    low memory and starts the processors that [mpinit] found, one at a time,
    each on a stack of its own.  The entry code is assembly; what it does
    enters as the variable [started]. *)

From Stdlib Require Import ZArith Lia.
From stdpp Require Import base strings numbers gmap list.
From S2P Require Import Prelude Mmu Memory Kernel Sample Kmem Kalloc Mp Apic.

Section startup.
Context `{I : KernelImage}.
(** The linker's symbols: the image of entryother.S, [mpenter] and
    [entrypgdir]. *)
Context (entryother_start entryother_size mpenter a_entrypgdir : Z).
(** The value of [c->started] at the [k]-th look, for the processor with the
    given APIC identifier, after the start-up interrupts were sent. *)
Context (started : hw -> Z -> nat -> bool).
Context (delay fuel : nat).

(** ** Operations *)

Definition CODE : Z := P2V 0x7000.

(** [while(c->started == 0);] *)
Definition wait_started (apicid : Z) : HW unit :=
  s ← gets (fun s => s);
  while_ fuel (fun k => mret (if started s apicid k then inr tt else inl (S k))) 0%nat.

(** The body of the loop, for a processor that is not the running one. *)
Definition start_cpu (apicid : Z) : HW unit :=
  stack ← on_k kalloc;
  on_k (modify (fun k => set_k_mem (st (k_mem k) (CODE - 4) (stack + KSTACKSIZE)) k));;
  on_k (modify (fun k => set_k_mem (st (k_mem k) (CODE - 8) mpenter) k));;
  on_k (modify (fun k => set_k_mem (st (k_mem k) (CODE - 12) (V2P a_entrypgdir)) k));;
  lapicstartap delay apicid (V2P CODE);;
  wait_started apicid.

(** [mc] holds the processors that [mpinit] recorded. *)
Definition startothers (mc : machine) : HW unit :=
  on_k (modify (fun k => set_k_mem (memmove (k_mem k) CODE entryother_start entryother_size) k));;
  _ ← for_ (R := unit) (seqZ 0 (mc_ncpu mc)) (fun i (_ : unit) =>
    id ← lapicid;
    match mycpu false id mc with
    | Err e => fail e
    | Ok (me, _) =>
        if i =? me then mret (Next tt) (* We've started already. *)
        else
          apicid ← the (mc_cpus mc !! Z.to_nat i);
          start_cpu apicid;;
          mret (Next tt)
    end) tt;
  mret tt.

(** ** One processor *)

(** What the processor [id] finds when it starts. *)
Record ap_ready (entry : list Z) (s : hw) (id stack : Z) : Prop := {
  ar_running : apply_ipis id Stopped (h_ipis s) = Running 0x7000;
  ar_code : bytes_at (k_mem (h_k s)) CODE entry;
  ar_stack : ld (k_mem (h_k s)) (CODE - 4) = u32 (stack + KSTACKSIZE);
  ar_enter : ld (k_mem (h_k s)) (CODE - 8) = u32 mpenter;
  ar_pgdir : ld (k_mem (h_k s)) (CODE - 12) = V2P a_entrypgdir;
}.

Lemma wp_on_k {A} (f : K A) (Q : A -> hw -> Prop) s : wp f (fun a k => Q a (set_h_k k s)) (h_k s) -> wp (on_k f) Q s.
Proof. unfold wp, on_k. by destruct (f (h_k s)) as [[a k]|]. Qed.

Lemma wp_wait_started apicid (Q : unit -> hw -> Prop) s : (exists k, (k < fuel)%nat /\ started s apicid k = true) -> Q tt s -> wp (wait_started apicid) Q s.
Proof.
  intros (k & Hk & Hs) HQ. unfold wait_started. wp_step. wp_step.
  eapply (wp_while _ (fun j s' => s' = s /\ (j <= k)%nat) (fun j => (k - j)%nat)); [|lia|split; [done|lia]].
  intros j s' [-> Hj]. wp_step. destruct (started s apicid j) eqn:E; [done|].
  assert (j <> k) by congruence. split; [split; [done|lia]|lia].
Qed.

Lemma apply_ipis_app id a l l' : apply_ipis id a (l ++ l') = apply_ipis id (apply_ipis id a l) l'.
Proof. apply foldl_app. Qed.

Lemma CODE_eq : CODE = 0x80007000.
Proof. reflexivity. Qed.
Lemma WRV_eq : WRV = 0x80000467.
Proof. reflexivity. Qed.

(** The memory that a start writes is below the code and at the warm reset
    vector. *)
Definition low_mem (m m' : mem) : Prop := forall b, CODE <= b -> ldb m' b = ldb m b.

Lemma start_mem m stack addr : let m' := wrv_mem (st (st (st m (CODE - 4) (stack + KSTACKSIZE)) (CODE - 8) mpenter) (CODE - 12) (V2P a_entrypgdir)) addr in
  ld m' (CODE - 4) = u32 (stack + KSTACKSIZE) /\ ld m' (CODE - 8) = u32 mpenter /\ ld m' (CODE - 12) = V2P a_entrypgdir /\ low_mem m m'.
Proof.
  cbv zeta. set (m3 := st (st (st _ _ _) _ _) _ _).
  assert (forall b, CODE - 12 <= b -> ldb (wrv_mem m3 addr) b = ldb m3 b) as Hw by (intros; apply wrv_mem_out; rewrite WRV_eq; rewrite CODE_eq in *; lia).
  assert (forall a, CODE - 12 <= a -> ld (wrv_mem m3 addr) a = ld m3 a) as Hl by (intros; apply ld_ext; intros; apply Hw; lia).
  rewrite !Hl by lia. unfold m3. split_and!.
  - rewrite !ld_st_ne by lia. apply ld_st_eq.
  - rewrite ld_st_ne by lia. apply ld_st_eq.
  - rewrite ld_st_eq. unfold V2P. apply u32_idem.
  - intros b Hb. rewrite Hw by lia. unfold m3. by rewrite !ldb_st_ne by lia.
Qed.

Lemma wp_lapicid (Q : Z -> hw -> Prop) s : Q (if h_on s then Z.shiftr (reg ID s) 24 else 0) s -> wp lapicid Q s.
Proof. intros HQ. unfold lapicid, lapic_load. wp_step. wp_step. by destruct (h_on s). Qed.

Context {Iok : KernelImageOk I}.
Context (entry : list Z).

Lemma low_mem_free_ok k l m : free_ok k l -> low_mem (k_mem k) m -> free_ok (set_k_mem m k) l.
Proof.
  intros Hf Hm. apply kmem_step_free_ok_mem; [|done]. intros p Hp. apply ld_ext. intros i Hi. apply Hm.
  pose proof (proj1 (Forall_forall _ _) (free_pages _ _ Hf) p Hp) as [Hr _]%page_ok_range. rewrite CODE_eq. klia.
Qed.

(** What holds between two starts: the pages [l] are free, the code is in
    place, [run] tells which processors run. *)
Record booting (hwid : Z) (l : list Z) (run : Z -> Prop) (s : hw) : Prop := {
  bt_free : free_ok (h_k s) l;
  bt_unlocked : kmem_unlocked (h_k s);
  bt_on : h_on s = true;
  bt_id : reg ID s = hwid;
  bt_code : bytes_at (k_mem (h_k s)) CODE entry;
  bt_running : forall id, run id -> apply_ipis id Stopped (h_ipis s) = Running 0x7000;
  bt_stopped : forall id, ~ run id -> apply_ipis id Stopped (h_ipis s) = Stopped;
}.

(** A start takes one page for the stack, and the processor runs. *)
Lemma wp_start_cpu hwid stack l run apicid s :
  booting hwid (stack :: l) run s -> ~ run apicid ->
  (forall s, ap_ready entry s apicid stack -> exists k, (k < fuel)%nat /\ started s apicid k = true) ->
  wp (start_cpu apicid) (fun _ s' => booting hwid l (fun id => id = apicid \/ run id) s') s.
Proof.
  intros [Hf Hu Hon Hid Hcode Hrun Hstop] Hnr Hup. unfold start_cpu. wp_step. apply wp_on_k.
  assert (stack <> 0) as Hs0.
  { pose proof (free_pages _ _ Hf) as [[Hr _]%page_ok_range _]%Forall_cons. klia. }
  eapply wp_kalloc_free; [exact Hf|exact Hs0|exact Hu|]. set (k1 := kalloc_state (h_k s)).
  assert (free_ok k1 l) as Hf1 by (by eapply kalloc_state_free_ok).
  assert (k_mem k1 = k_mem (h_k s)) as Hm1 by (unfold k1, kalloc_state; by ksimpl).
  assert (kmem_unlocked k1) as Hu1 by (unfold k1, kalloc_state, kmem_unlocked in *; by ksimpl).
  do 3 (wp_step; apply wp_on_k; wp_step). cbn [set_h_k h_k]. wp_step. apply wp_lapicstartap. intros regs busy Hregs.
  cbn [set_h_k h_k h_on h_ipis h_regs h_ports] in *. change (V2P CODE) with (4096 * 7). ksimpl. rewrite Hm1.
  pose proof (start_mem (k_mem (h_k s)) stack (4096 * 7)) as (H4 & H8 & H12 & Hlow). set (m' := wrv_mem _ _) in *.
  assert (bytes_at m' CODE entry) as Hcode'.
  { intros i v Hi. rewrite Hlow by lia. by apply Hcode. }
  assert (apply_ipis apicid Stopped (h_ipis s ++ start_ipis apicid (4096 * 7)) = Running 0x7000) as Hr.
  { rewrite apply_ipis_app. by apply start_ipis_target. }
  assert (forall id, id <> apicid -> apply_ipis id Stopped (h_ipis s ++ start_ipis apicid (4096 * 7)) = apply_ipis id Stopped (h_ipis s)) as Ho.
  { intros id Hne. rewrite apply_ipis_app. by apply start_ipis_other. }
  apply wp_wait_started; [apply Hup; split; cbn [h_k h_ipis]; by ksimpl|].
  split; cbn [h_k h_on h_ipis]; ksimpl; try done.
  - match goal with |- free_ok ?k l => change k with (set_k_mem m' k1) end. apply low_mem_free_ok; [done|]. by rewrite Hm1.
  - rewrite <-Hid. unfold reg. cbn [h_regs]. by rewrite (Hregs ID) by discriminate.
  - intros id [->|Hi]; [done|]. rewrite Ho by congruence. by apply Hrun.
  - intros id Hi. rewrite Ho by tauto. apply Hstop. tauto.
Qed.

(** How many of the processors below [t] are not [me]. *)
Definition rank (me t : nat) : nat := if decide (t <= me)%nat then t else (t - 1)%nat.

Lemma rank_S me t : rank me (S t) = if decide (t = me) then rank me t else S (rank me t).
Proof. unfold rank. repeat case_decide; lia. Qed.

(** C32: [startothers] returns, and every processor that [mpinit] recorded, but
    the running one, executes the entry code at 0x7000, a copy of the linked
    image.  When it started it found there the end of a stack of its own, the
    next page of the free list, [mpenter] and the page directory: a processor
    need only set [started] once it finds these, for the wait to end.  The
    running processor got no interrupt, and exactly one page for each started
    processor is gone from the free list. *)
Theorem startothers_correct mc ids me hwid pages s :
  mc_ncpu mc = Z.of_nat (length ids) -> take (length ids) (mc_cpus mc) = ids -> NoDup ids ->
  ids !! me = Some (Z.shiftr hwid 24) ->
  0 <= entryother_size <= 0x1000 -> bytes_at (k_mem (h_k s)) entryother_start entry -> Z.of_nat (length entry) = entryother_size ->
  free_ok (h_k s) pages -> kmem_unlocked (h_k s) -> (length ids <= length pages)%nat -> h_on s = true -> reg ID s = hwid ->
  (forall id, apply_ipis id Stopped (h_ipis s) = Stopped) ->
  (forall s i id stack, ids !! i = Some id -> pages !! rank me i = Some stack -> ap_ready entry s id stack ->
     exists k, (k < fuel)%nat /\ started s id k = true) ->
  wp (startothers mc) (fun _ s' => booting hwid (drop (length ids - 1) pages) (fun id => id ∈ ids /\ id <> Z.shiftr hwid 24) s') s.
Proof.
  intros Hn Hids Hnd Hme Hsz Hentry Hlen Hf Hu Hpages Hon Hid Hstop Hup. unfold startothers. wp_step. apply wp_on_k. wp_step. wp_step. rewrite Hn.
  pose proof (lookup_lt_Some _ _ _ Hme) as Hmelt.
  assert (forall j x, ids !! j = Some x -> mc_cpus mc !! j = Some x) as Hcpu.
  { intros j x Hj. rewrite <-Hids in Hj. by apply lookup_take_Some in Hj as [??]. }
  eapply (wp_for_seqZ _ _ (fun t _ s' => booting hwid (drop (rank me t) pages) (fun id => exists i, (i < t)%nat /\ i <> me /\ ids !! i = Some id) s')); [lia| | |].
  - intros t [] s' Ht Hb. wp_step. apply wp_lapicid. rewrite (bt_on _ _ _ _ Hb), (bt_id _ _ _ _ Hb).
    rewrite (mycpu_first mc ids me) by (done || intros j Hj Hj'; pose proof (NoDup_lookup _ _ _ _ Hnd Hme Hj'); lia).
    case_if.
    + wp_step. assert (t = me) as -> by lia. rewrite rank_S, decide_True by done. destruct Hb; split; try done.
      * intros id (i & Hi & Hne & Hi'). apply bt_running0. exists i. split_and!; [lia|done|done].
      * intros id Hno. apply bt_stopped0. intros (i & Hi & Hne & Hi'). apply Hno. exists i. split_and!; [lia|done|done].
    + destruct (lookup_lt_is_Some_2 ids t) as [id Hidt]; [lia|]. wp_step. eapply wp_the; [rewrite Nat2Z.id; by apply Hcpu|].
      destruct (lookup_lt_is_Some_2 pages (rank me t)) as [stack Hst]; [unfold rank; case_decide; lia|].
      rewrite (drop_S _ stack) in Hb by done. wp_step.
      eapply wp_mono; [eapply wp_start_cpu; [exact Hb| |]|].
      * intros (i & Hi & _ & Hi'). pose proof (NoDup_lookup _ _ _ _ Hnd Hi' Hidt). lia.
      * intros s1. by apply (Hup s1 t id stack).
      * intros ? s1 Hb1. wp_step. rewrite rank_S, decide_False by lia. destruct Hb1; split; try done.
        -- intros x (i & Hi & Hne & Hi'). apply bt_running0. destruct (decide (i = t)) as [->|]; [left; congruence|right].
           exists i. split_and!; [lia|done|done].
        -- intros x Hno. apply bt_stopped0. intros [->|(i & Hi & Hne & Hi')]; apply Hno; [exists t|exists i]; (split_and!; [lia|lia|done]).
  - intros [] s' Hb. wp_step. rewrite Nat2Z.id in Hb. unfold rank in Hb. rewrite decide_False in Hb by lia. destruct Hb; split; try done.
    + intros id [(i & Hi)%list_elem_of_lookup Hne]. apply bt_running0. exists i. split_and!; [by eapply lookup_lt_Some|congruence|done].
    + intros id Hno. apply bt_stopped0. intros (i & Hi & Hne & Hi'). apply Hno. split; [by eapply list_elem_of_lookup_2|].
      intros ->. pose proof (NoDup_lookup _ _ _ _ Hnd Hme Hi'). lia.
  - assert (forall b, CODE <= b -> CODE + entryother_size <= b -> ldb (memmove (k_mem (h_k s)) CODE entryother_start entryother_size) b = ldb (k_mem (h_k s)) b) as Hout
      by (intros; apply ldb_memmove_out; lia).
    split; cbn [set_h_k h_k h_on h_ipis]; ksimpl; try done.
    + unfold rank. rewrite decide_True by lia. rewrite drop_0. apply kmem_step_free_ok_mem; [|done]. intros p Hp. apply ld_ext. intros i Hi.
      pose proof (proj1 (Forall_forall _ _) (free_pages _ _ Hf) p Hp) as [Hr _]%page_ok_range.
      rewrite CODE_eq in *. apply Hout; klia.
    + intros i v Hi. pose proof (lookup_lt_Some _ _ _ Hi). rewrite ldb_memmove, decide_True by lia. rewrite <-(Hentry i v Hi). f_equal. lia.
    + intros id (i & Hi & _). lia.
Qed.
End startup.

(** ** An instance *)

#[local] Existing Instance img.

(** Processors 0 and 4, of which 0 runs; the other sets [started] between
    the first and the third look. *)
Definition mc0 : machine := mk_machine ∅ (0 :: 4 :: replicate 6 0) 2 0 0 0 0.
Definition hw0 : hw := mk_hw state0 true ∅ 0 [] [].

Lemma startothers_correct_witness :
  wp (@startothers img 0x80201000 3 0x80100500 0x80109000 (fun _ _ k => k =? 2)%nat 1 5 mc0)
    (fun _ s' => apply_ipis 4 Stopped (h_ipis s') = Running 0x7000 /\ apply_ipis 0 Stopped (h_ipis s') = Stopped /\ free_ok (h_k s') (drop 1 free0)) hw0.
Proof.
  eapply wp_mono.
  - apply (@startothers_correct img 0x80201000 3 0x80100500 0x80109000 (fun _ _ k => k =? 2)%nat 1 5 img_ok [0; 0; 0] mc0 [0; 4] 0%nat 0 free0 hw0).
    + reflexivity.
    + reflexivity.
    + repeat constructor; set_solver.
    + reflexivity.
    + lia.
    + apply has_sig_bytes_at. vm_compute. reflexivity.
    + reflexivity.
    + apply sample_free_ok.
    + intros _. apply not_elem_of_nil.
    + vm_compute. lia.
    + reflexivity.
    + reflexivity.
    + reflexivity.
    + intros s i id stack _ _ _. exists 2%nat. split; [lia|reflexivity].
  - intros r s [Hf _ _ _ _ Hrun Hstop]. split_and!; [apply Hrun|apply Hstop|exact Hf].
    + split; [by right; left|discriminate].
    + intros [_ H]. apply H. reflexivity.
Defined.
