(* ===== verification/Gate.v ===== *)
(** * Segments and gates

    The descriptors with which the kernel tells the processor how user code
    may enter it: [SEG], [SEG16] and [SETGATE] of [mmu.h], [seginit] and the
    task state of [switchuvm] in [vm.c], [tvinit] and [idtinit] of [trap.c],
    [lgdt] and [lidt] of [x86.h], and the entry points that [vectors.pl]
    generates.  [deliver] is what the processor does with an interrupt or an
    exception, as its manual documents it. *)

From Stdlib Require Import ZArith Lia.
From stdpp Require Import base strings numbers gmap list.
From S2P Require Import Prelude Mmu Memory Kernel Pipe Fs File Proc Trap.

(** ** Descriptors *)

Definition SEG_KCODE : Z := 1. (* kernel code *)
Definition SEG_KDATA : Z := 2. (* kernel data+stack *)
Definition SEG_TSS : Z := 5. (* this process's task state *)
Definition NSEGS : Z := 6.

(** The fields are bit fields of the given widths. *)
Record segdesc := mk_segdesc {
  lim_15_0 : Z; base_15_0 : Z; base_23_16 : Z; sd_type : Z; sd_s : Z; sd_dpl : Z; sd_p : Z;
  lim_19_16 : Z; sd_avl : Z; sd_rsv1 : Z; sd_db : Z; sd_g : Z; base_31_24 : Z }.

(** Normal segment *)
Definition SEG (type base lim dpl : Z) : segdesc :=
  mk_segdesc (Z.land (Z.shiftr lim 12) 0xffff) (Z.land (u32 base) 0xffff) (Z.land (Z.shiftr (u32 base) 16) 0xff) type 1 dpl 1
    (Z.shiftr (u32 lim) 28) 0 0 1 1 (Z.shiftr (u32 base) 24).
Definition SEG16 (type base lim dpl : Z) : segdesc :=
  mk_segdesc (Z.land lim 0xffff) (Z.land (u32 base) 0xffff) (Z.land (Z.shiftr (u32 base) 16) 0xff) type 1 dpl 1
    (Z.shiftr (u32 lim) 16) 0 0 1 0 (Z.shiftr (u32 base) 24).
Definition null_seg : segdesc := mk_segdesc 0 0 0 0 0 0 0 0 0 0 0 0 0.

Definition STA_X : Z := 0x8. (* Executable segment *)
Definition STA_W : Z := 0x2. (* Writeable (non-executable segments) *)
Definition STA_R : Z := 0x2. (* Readable (executable segments) *)
Definition STS_T32A : Z := 0x9. (* Available 32-bit TSS *)



(** The three words that [lgdt] and [lidt] load: a size and an address. *)
Definition pseudo_desc (p size : Z) : Z * Z * Z := ((size - 1) mod 0x10000, u32 p mod 0x10000, Z.shiftr (u32 p) 16 mod 0x10000).
Definition pd_limit (pd : Z * Z * Z) : Z := pd.1.1.
Definition pd_base (pd : Z * Z * Z) : Z := pd.1.2 + 0x10000 * pd.2.

(** ** Operations *)

Section gates.
(** vectors.S: the entry points; the addresses of the tables. *)
Context (vectors : Z -> Z) (a_idt a_gdt a_ts : Z).

Definition seginit (gdt : list segdesc) : list segdesc * (Z * Z * Z) :=
  let gdt := <[Z.to_nat SEG_KCODE := SEG (Z.lor STA_X STA_R) 0 0xffffffff 0]> gdt in
  let gdt := <[Z.to_nat SEG_KDATA := SEG STA_W 0 0xffffffff 0]> gdt in
  let gdt := <[Z.to_nat SEG_UCODE := SEG (Z.lor STA_X STA_R) 0 0xffffffff DPL_USER]> gdt in
  let gdt := <[Z.to_nat SEG_UDATA := SEG STA_W 0 0xffffffff DPL_USER]> gdt in
  (gdt, pseudo_desc a_gdt (8 * NSEGS)).


Definition idtinit : Z * Z * Z := pseudo_desc a_idt (8 * 256).

(** The task state: stack pointer and segment after an increase in privilege
    level, and the I/O map base. *)
Record taskstate := mk_ts { ts_esp0 : Z; ts_ss0 : Z; ts_iomb : Z }.

(** What [switchuvm] sets for a process with the kernel stack [kstack]. *)
Definition switch_ts (kstack : Z) (gdt : list segdesc) : list segdesc * taskstate :=
  let d := SEG16 STS_T32A a_ts (104 - 1) 0 in
  let d := mk_segdesc (lim_15_0 d) (base_15_0 d) (base_23_16 d) (sd_type d) 0 (sd_dpl d) (sd_p d) (lim_19_16 d) (sd_avl d) (sd_rsv1 d) (sd_db d) (sd_g d) (base_31_24 d) in
  (<[Z.to_nat SEG_TSS := d]> gdt, mk_ts (u32 (kstack + KSTACKSIZE)) (Z.shiftl SEG_KDATA 3) 0xFFFF).

(** ** The processor *)

Definition seg_base (d : segdesc) : Z := base_15_0 d + 0x10000 * base_23_16 d + 0x1000000 * base_31_24 d.
Definition seg_limit (d : segdesc) : Z :=
  let l := lim_15_0 d + 0x10000 * lim_19_16 d in if sd_g d =? 0 then l else l * 4096 + 4095.










(** The tables as the kernel sets them up. *)
Definition gdt_of (kstack : Z) : list segdesc := fst (switch_ts kstack (fst (seginit (replicate (Z.to_nat NSEGS) null_seg)))).

(** ** The tables *)




(** The segments are flat; the processor finds all the gates. *)
Lemma segments_flat kstack i d : gdt_of kstack !! i = Some d -> (1 <= i <= 4)%nat ->
  seg_base d = 0 /\ seg_limit d = 0xffffffff /\ sd_dpl d = if decide (3 <= i)%nat then DPL_USER else 0.
Proof.
  intros Hd Hi. assert (i = 1 \/ i = 2 \/ i = 3 \/ i = 4)%nat as [-> | [-> | [-> | ->]]] by lia;
    injection Hd as <-; split_and!; vm_compute; reflexivity.
Qed.
Lemma idtinit_limit : 0 <= a_idt < two32 -> pd_base (idtinit) = a_idt /\ pd_limit idtinit = 8 * 256 - 1.
Proof.
  intros Ha. unfold idtinit, pseudo_desc, pd_base, pd_limit. cbn [fst snd]. rewrite u32_small by done. split; [|reflexivity].
  rewrite Z.shiftr_div_pow2 by lia. change (2 ^ 16) with 0x10000. unfold two32 in Ha. zdiv.
Qed.





End gates.

(** ** An instance *)

