(* ===== verification/Grep.v ===== *)
(** * The user program grep

    The matcher of [grep.c] ([match], [matchhere], [matchstar]) on C strings
    (the bytes before the terminating zero), its line buffer ([grep]) and
    [main].  The matcher is shown to decide the language its pattern denotes;
    [grep] is shown to print the matching lines of a file. *)

From Stdlib Require Import ZArith Lia.
From stdpp Require Import base strings numbers list.
From S2P Require Import Prelude.

(** The characters of the source's literals. *)
Definition c_caret : Z := 94. (* '^' *)
Definition c_star : Z := 42. (* the star *)
Definition c_dollar : Z := 36. (* '$' *)
Definition c_dot : Z := 46. (* '.' *)
Definition c_nl : Z := 10. (* '\n' *)

(** ** The matcher *)

(** [do { if(matchhere(re, text)) return 1; } while( *text!=0 && ( *text++==c || c=='.'));] *)
Fixpoint star_loop (here : list Z -> bool) (c : Z) (text : list Z) : bool :=
  if here text then true
  else match text with
       | [] => false
       | t :: text' => if (t =? c) || (c =? c_dot) then star_loop here c text' else false
       end.

Fixpoint matchhere (re text : list Z) : bool :=
  match re with
  | [] => true
  | r0 :: re1 =>
      let rest :=
        if (r0 =? c_dollar) && bool_decide (re1 = []) then bool_decide (text = [])
        else match text with
             | [] => false
             | t :: text' => if (r0 =? c_dot) || (r0 =? t) then matchhere re1 text' else false
             end in
      match re1 with
      | r1 :: re2 => if r1 =? c_star then star_loop (matchhere re2) r0 text else rest
      | [] => rest
      end
  end.

Definition matchstar (c : Z) (re text : list Z) : bool := star_loop (matchhere re) c text.

(** [do { if(matchhere(re, text)) return 1; } while( *text++ != 0);] *)
Fixpoint match_loop (re text : list Z) : bool :=
  if matchhere re text then true
  else match text with [] => false | _ :: text' => match_loop re text' end.

Definition match_ (re text : list Z) : bool :=
  match re with
  | r0 :: re1 => if r0 =? c_caret then matchhere re1 text else match_loop re text
  | [] => match_loop re text
  end.

(** ** The language of a pattern *)

Inductive item :=
  | Chr (c : Z) (* the character [c] *)
  | Any (* any character *)
  | Star (i : item).

(** The items of a pattern without [^], and whether it ends in [$]. *)
Definition atom (c : Z) : item := if c =? c_dot then Any else Chr c.
Fixpoint parse (re : list Z) : list item * bool :=
  match re with
  | [] => ([], false)
  | r0 :: re1 =>
      let rest := if (r0 =? c_dollar) && bool_decide (re1 = []) then ([], true)
                  else let '(its, e) := parse re1 in (atom r0 :: its, e) in
      match re1 with
      | r1 :: re2 => if r1 =? c_star then let '(its, e) := parse re2 in (Star (atom r0) :: its, e) else rest
      | [] => rest
      end
  end.

Inductive lang1 : item -> list Z -> Prop :=
  | L_chr c : lang1 (Chr c) [c]
  | L_any c : lang1 Any [c]
  | L_star0 i : lang1 (Star i) []
  | L_star1 i w w' : lang1 i w -> lang1 (Star i) w' -> lang1 (Star i) (w ++ w').
Inductive lang : list item -> list Z -> Prop :=
  | L_nil : lang [] []
  | L_cons i its w w' : lang1 i w -> lang its w' -> lang (i :: its) (w ++ w').

(** A match of the parsed pattern at the beginning of the text. *)
Definition here_spec (p : list item * bool) (text : list Z) : Prop :=
  exists w suf, text = w ++ suf /\ lang p.1 w /\ (p.2 = true -> suf = []).

(** The text contains a match; [^] anchors it at the beginning, [$] at the
    end. *)
Definition match_spec (re text : list Z) : Prop :=
  let anchored := bool_decide (head re = Some c_caret) in
  let p := parse (if anchored then tail re else re) in
  exists pre w suf, text = pre ++ w ++ suf /\ lang p.1 w /\
    (anchored = true -> pre = []) /\ (p.2 = true -> suf = []).

(** ** The matcher decides the language *)

Lemma lang1_atom c w : lang1 (atom c) w <-> exists t, w = [t] /\ ((t =? c) || (c =? c_dot)) = true.
Proof.
  unfold atom. destruct (Z.eqb_spec c c_dot) as [->|Hne]; split.
  - inversion 1; subst. eexists. split; [done|]. apply orb_true_r.
  - intros (t & -> & _). constructor.
  - inversion 1; subst. eexists. split; [done|]. by rewrite Z.eqb_refl.
  - intros (t & -> & Ht). rewrite orb_false_r in Ht. apply Z.eqb_eq in Ht as ->. constructor.
Qed.

Lemma here_spec_cons i its e text :
  here_spec (i :: its, e) text <-> exists w text', text = w ++ text' /\ lang1 i w /\ here_spec (its, e) text'.
Proof.
  unfold here_spec. cbn. split.
  - intros (w & suf & -> & Hl & He). inversion Hl; subst.
    exists w0, (w' ++ suf). rewrite app_assoc. eauto 10.
  - intros (w & text' & -> & Hi & w' & suf & -> & Hl & He). exists (w ++ w'), suf.
    rewrite app_assoc. split; [done|]. split; [by constructor|done].
Qed.

(** One more item of the kind under the star, or none. *)
Lemma here_spec_star c its e text :
  here_spec (Star (atom c) :: its, e) text <->
  here_spec (its, e) text \/
  exists t text', text = t :: text' /\ ((t =? c) || (c =? c_dot)) = true /\ here_spec (Star (atom c) :: its, e) text'.
Proof.
  rewrite here_spec_cons. split.
  - intros (w & text' & -> & Hw & Hs). inversion Hw as [| |i|i w1 w2 H1 H2]; subst; [by left|right].
    apply lang1_atom in H1 as (t & -> & Ht). exists t, (w2 ++ text'). split; [done|]. split; [done|].
    apply here_spec_cons. eauto.
  - intros [Hs|(t & text' & -> & Ht & Hs)].
    + exists [], text. split; [done|]. split; [constructor|done].
    + apply here_spec_cons in Hs as (w & text'' & -> & Hw & Hs). exists ([t] ++ w), text''.
      split; [done|]. split; [|done]. constructor; [apply lang1_atom; eauto|done].
Qed.

Lemma star_loop_spec here c its e : (forall text, here text = true <-> here_spec (its, e) text) ->
  forall text, star_loop here c text = true <-> here_spec (Star (atom c) :: its, e) text.
Proof.
  intros Hh text. induction text as [|t text IH]; rewrite here_spec_star, <-Hh; cbn [star_loop].
  - destruct (here []); [tauto|]. split; [done|]. intros [?|(? & ? & ? & _)]; done.
  - destruct (here (t :: text)); [tauto|]. split.
    + destruct (_ || _) eqn:E; [|done]. intros Hs%IH. right. eauto.
    + intros [?|(t' & text' & [= <- <-] & Ht & Hs)]; [done|]. rewrite Ht. by apply IH.
Qed.

Lemma matchhere_plain r0 re1 text :
  (forall text, matchhere re1 text = true <-> here_spec (parse re1) text) ->
  (if (r0 =? c_dollar) && bool_decide (re1 = []) then bool_decide (text = [])
   else match text with
        | [] => false
        | t :: text' => if (r0 =? c_dot) || (r0 =? t) then matchhere re1 text' else false
        end) = true <->
  here_spec (if (r0 =? c_dollar) && bool_decide (re1 = []) then ([], true)
             else let '(its, e) := parse re1 in (atom r0 :: its, e)) text.
Proof.
  intros IH. destruct (_ && _).
  - rewrite bool_decide_eq_true. unfold here_spec. cbn. split.
    + intros ->. exists [], []. split; [done|]. split; [constructor|done].
    + intros (w & suf & -> & Hl & Hs). rewrite Hs by done. by inversion Hl.
  - destruct (parse re1) as [its e] eqn:P. rewrite here_spec_cons. split.
    + destruct text as [|t text]; [done|]. destruct (_ || _) eqn:E2; [|done]. intros Hs%IH.
      exists [t], text. split; [done|]. split; [|done]. apply lang1_atom. exists t.
      split; [done|]. by rewrite orb_comm, (Z.eqb_sym t r0).
    + intros (w & text' & -> & Hw & Hs). apply lang1_atom in Hw as (t & -> & Ht). cbn.
      rewrite orb_comm, (Z.eqb_sym r0 t), Ht. by apply IH.
Qed.

Lemma matchhere_spec re text : matchhere re text = true <-> here_spec (parse re) text.
Proof.
  assert (forall n re, (length re <= n)%nat -> forall text, matchhere re text = true <-> here_spec (parse re) text) as H.
  { clear. induction n as [|n IH]; intros [|r0 re1] Hn text; cbn in Hn; try lia;
      try (split; [|done]; intros _; exists [], text; split; [done|]; split; [constructor|done]).
    pose proof (matchhere_plain r0 re1 text (IH re1 ltac:(lia))) as Hp.
    destruct re1 as [|r1 re2]; [exact Hp|]. cbn [matchhere parse]. cbn [matchhere parse] in Hp.
    destruct (Z.eqb_spec r1 c_star) as [->|Hne]; [|exact Hp].
    destruct (parse re2) as [its e] eqn:P. apply star_loop_spec. intros text'. rewrite <-P.
    apply IH. cbn in Hn. lia. }
  by eapply H.
Qed.

Lemma match_loop_spec re text : match_loop re text = true <->
  exists pre text', text = pre ++ text' /\ matchhere re text' = true.
Proof.
  induction text as [|t text IH]; cbn [match_loop].
  - destruct (matchhere re []) eqn:E; split; try done; [by exists [], []|].
    intros (pre & text' & [-> ->]%symmetry%app_eq_nil & ?). congruence.
  - destruct (matchhere re (t :: text)) eqn:E; split; try done; [by exists [], (t :: text)| |].
    + intros (pre & text' & -> & H)%IH. by exists (t :: pre), text'.
    + intros ([|x pre] & text' & Ht & H); cbn in Ht; [congruence|]. injection Ht as <- ->. apply IH. eauto.
Qed.

(** C26: The matcher of [grep] is correct: [match] returns 1 exactly if the
    text contains a word of the pattern's language, at the beginning of the
    text if the pattern starts with [^] and at its end if it ends in [$]. *)
Theorem match_correct re text : match_ re text = true <-> match_spec re text.
Proof.
  assert (match_loop re text = true <-> exists pre w suf, text = pre ++ w ++ suf /\
    lang (parse re).1 w /\ (false = true -> pre = []) /\ ((parse re).2 = true -> suf = [])) as Hl.
  { rewrite match_loop_spec. split.
    - intros (pre & t & -> & (w & suf & -> & ?)%matchhere_spec). exists pre, w, suf. naive_solver.
    - intros (pre & w & suf & -> & ? & _ & ?). exists pre, (w ++ suf). split; [done|].
      apply matchhere_spec. by exists w, suf. }
  destruct re as [|r0 re1]; [exact Hl|]. unfold match_, match_spec. cbn [head tail].
  destruct (Z.eqb_spec r0 c_caret) as [->|Hne].
  - rewrite bool_decide_true, matchhere_spec by done. split.
    + intros (w & suf & -> & ?). exists [], w, suf. naive_solver.
    + intros (pre & w & suf & -> & ? & Hp & ?). rewrite Hp by done. by exists w, suf.
  - rewrite bool_decide_false by congruence. exact Hl.
Qed.

(** ** The line buffer *)

(** A [read] returns at least one byte before the end of the input: all of
    the bytes asked for, or as many as the next element of [short] says (a
    pipe or the console). *)
Record input := mk_input { in_data : list Z; in_short : list nat }.
Definition read (st : input) (count : nat) : list Z * input :=
  let n := match in_short st with [] => count | k :: _ => Nat.min (S k) count end in
  (take n (in_data st), mk_input (drop n (in_data st)) (tail (in_short st))).

(** [strchr] on the string in the buffer, up to the zero byte. *)
Fixpoint strchr (s : list Z) (c : Z) : option nat :=
  match s with
  | [] => None
  | x :: s' => if x =? 0 then None else if x =? c then Some 0%nat else S <$> strchr s' c
  end.

(** [while((q = strchr(p, NL)) != 0)]: the bytes written, and [p] at the
    end.  A line that does not match keeps its zero byte, but [p] is past
    it. *)
Fixpoint lines_loop (fuel : nat) (pattern buf : list Z) (p : nat) (out : list Z) : option (nat * list Z) :=
  match fuel with
  | O => None
  | S f =>
      match strchr (drop p buf) c_nl with
      | None => Some (p, out)
      | Some k =>
          let line := take k (drop p buf) in
          let out := if match_ pattern line then out ++ line ++ [c_nl] else out in
          lines_loop f pattern buf (p + k + 1) out
      end
  end.

Definition BUFSIZE : nat := 1024.

(** [buf] holds the [m] bytes read and not yet consumed. *)
Fixpoint grep_loop (fuel : nat) (pattern buf : list Z) (st : input) (out : list Z) : option (list Z) :=
  match fuel with
  | O => None
  | S f =>
      let '(got, st) := read st (BUFSIZE - length buf - 1) in
      if bool_decide (got = []) then Some out
      else
        let buf := buf ++ got in
        '(p, out) ← lines_loop (S (length buf)) pattern buf 0 out;
        let buf := if bool_decide (p = 0%nat) then [] else drop p buf in
        grep_loop f pattern buf st out
  end.
Definition grep (pattern : list Z) (st : input) : option (list Z) :=
  grep_loop (S (length (in_data st))) pattern [] st [].

(** ** Lines *)

(** A line of text: neither a newline nor a zero byte. *)
Definition is_line (l : list Z) : Prop := c_nl ∉ l /\ 0 ∉ l.
#[global] Instance is_line_dec l : Decision (is_line l).
Proof. unfold is_line. apply _. Defined.
Definition text_of (lines : list (list Z)) : list Z := concat ((fun l => l ++ [c_nl]) <$> lines).
Definition matching (pattern : list Z) (lines : list (list Z)) : list Z :=
  text_of (filter (fun l => match_ pattern l = true) lines).

Lemma text_of_cons l lines : text_of (l :: lines) = l ++ c_nl :: text_of lines.
Proof. unfold text_of. cbn. by rewrite <-app_assoc. Qed.
Lemma text_of_app ls ls' : text_of (ls ++ ls') = text_of ls ++ text_of ls'.
Proof. unfold text_of. by rewrite fmap_app, concat_app. Qed.
Lemma matching_app pattern ls ls' : matching pattern (ls ++ ls') = matching pattern ls ++ matching pattern ls'.
Proof. unfold matching. by rewrite filter_app, text_of_app. Qed.

Lemma strchr_line l rest : is_line l -> strchr (l ++ c_nl :: rest) c_nl = Some (length l).
Proof.
  intros [Hn H0]. induction l as [|x l IH]; cbn; [done|]. rewrite not_elem_of_cons in Hn, H0.
  destruct Hn as [? ?], H0 as [? ?].
  rewrite (proj2 (Z.eqb_neq x 0)), (proj2 (Z.eqb_neq x c_nl)) by congruence. by rewrite IH.
Qed.

Lemma strchr_none l : is_line l -> strchr l c_nl = None.
Proof.
  intros [Hn H0]. induction l as [|x l IH]; cbn; [done|]. rewrite not_elem_of_cons in Hn, H0.
  destruct Hn as [? ?], H0 as [? ?].
  rewrite (proj2 (Z.eqb_neq x 0)), (proj2 (Z.eqb_neq x c_nl)) by congruence. by rewrite IH.
Qed.

(** The inner loop on a buffer that ends in the partial line [l]. *)
Lemma lines_loop_spec pattern lines : forall pre l out fuel, Forall is_line lines -> is_line l ->
  (length lines < fuel)%nat ->
  lines_loop fuel pattern (pre ++ text_of lines ++ l) (length pre) out =
  Some (length (pre ++ text_of lines), out ++ matching pattern lines).
Proof.
  induction lines as [|x lines IH]; intros pre l out [|fuel] Hls Hl Hf; cbn in Hf; try lia.
  - cbn. rewrite drop_app_length, strchr_none by done. unfold matching. cbn. by rewrite !app_nil_r.
  - apply Forall_cons in Hls as [Hx Hls]. cbn [lines_loop]. rewrite drop_app_length, text_of_cons.
    rewrite <-app_assoc. cbn [app]. rewrite strchr_line by done. rewrite take_app_length.
    replace (length pre + length x + 1)%nat with (length (pre ++ x ++ [c_nl])) by (rewrite !length_app; cbn; lia).
    replace (pre ++ x ++ c_nl :: text_of lines ++ l) with ((pre ++ x ++ [c_nl]) ++ text_of lines ++ l)
      by (by rewrite <-!app_assoc).
    rewrite IH by (done || lia). f_equal. f_equal.
    + rewrite !length_app. cbn. lia.
    + unfold matching. rewrite filter_cons. destruct (match_ pattern x); [|done].
      rewrite decide_True by done. rewrite text_of_cons, <-!app_assoc. done.
Qed.

(** A prefix of a text: complete lines and a partial line. *)
Lemma text_prefix b d lines : Forall is_line lines -> b ++ d = text_of lines ->
  exists ls rest l, lines = ls ++ rest /\ b = text_of ls ++ l /\ l ++ d = text_of rest /\ is_line l.
Proof.
  revert b. induction lines as [|x lines IH]; intros b Hls Hb.
  - apply app_eq_nil in Hb as [-> ->]. exists [], [], []. repeat split; apply not_elem_of_nil.
  - apply Forall_cons in Hls as [Hx Hls]. pose proof Hb as Hb0. rewrite text_of_cons in Hb.
    apply app_eq_app in Hb as [k [[E1 E2]|[E1 E2]]].
    + destruct k as [|c k].
      * exists [], (x :: lines), b. rewrite app_nil_r in E1. by subst.
      * injection E2 as <- E2. destruct (IH k Hls (eq_sym E2)) as (ls & rest & l & -> & -> & ? & ?).
        exists (x :: ls), rest, l. split; [done|]. rewrite text_of_cons, E1, <-app_assoc. done.
    + exists [], (x :: lines), b. split; [done|]. split; [done|]. split; [done|].
      destruct Hx as [Hn H0]. subst x. split; intros Hin; [apply Hn|apply H0]; apply elem_of_app; by left.
Qed.

Lemma partial_line l d lines : Forall is_line lines -> is_line l -> l ++ d = text_of lines ->
  lines = [] /\ l = [] /\ d = [] \/ exists x ls, lines = x :: ls /\ (length l <= length x)%nat /\ d <> [].
Proof.
  intros Hls [Hn _] Hl. destruct lines as [|x ls]; [left|right].
  - by apply app_eq_nil in Hl as [-> ->].
  - exists x, ls. split; [done|]. rewrite text_of_cons in Hl. apply app_eq_app in Hl as [k [[E1 E2]|[E1 E2]]].
    + destruct k as [|c k]; [rewrite app_nil_r in E1; subst; split; [done|by destruct d]|].
      injection E2 as <- _. destruct Hn. rewrite E1, elem_of_app. right. by left.
    + subst. rewrite length_app. split; [lia|]. by destruct k.
Qed.

Lemma grep_loop_spec pattern : forall fuel lines l d out, Forall is_line lines ->
  Forall (fun x => length x + 2 <= BUFSIZE)%nat lines -> is_line l -> l ++ d = text_of lines ->
  (length d < fuel)%nat ->
  grep_loop fuel pattern l (mk_input d []) out = Some (out ++ matching pattern lines).
Proof.
  induction fuel as [|fuel IH]; intros lines l d out Hls Hlen Hl Hd Hf; [lia|]. cbn [grep_loop read in_short in_data].
  set (n := (BUFSIZE - length l - 1)%nat).
  destruct (partial_line l d lines Hls Hl Hd) as [(-> & -> & ->)|(x & ls0 & -> & Hx & Hne)].
  { rewrite take_nil, bool_decide_true by done. unfold matching. cbn. by rewrite app_nil_r. }
  apply Forall_cons in Hlen as Hlen'. destruct Hlen' as [Hlx _].
  assert (0 < n)%nat as Hn by (unfold n; lia).
  rewrite bool_decide_false by (destruct d; [done|]; destruct n; [lia|]; done).
  rewrite <-(take_drop n d) in Hd. rewrite app_assoc in Hd.
  destruct (text_prefix _ _ _ Hls Hd) as (ls & rest & l' & E & Eb & Hd' & Hl').
  rewrite E in Hls, Hlen |- *. apply Forall_app in Hls as [Hls Hrest], Hlen as [_ Hlen].
  rewrite Eb. pose proof (lines_loop_spec pattern ls [] l' out (S (length (text_of ls ++ l'))) Hls Hl') as Hloop.
  cbn [app length] in Hloop. rewrite Hloop; [|].
  2:{ rewrite length_app. assert (length ls <= length (text_of ls))%nat; [|lia]. clear.
      induction ls; [done|]. rewrite text_of_cons, length_app. cbn. lia. }
  cbn [mbind option_bind]. rewrite matching_app, app_assoc. cbn [tail].
  assert (ls <> []) as Hlsne.
  { intros ->. cbn in E, Eb. subst rest. destruct (decide (length d <= n)%nat) as [Hle|Hgt].
    - rewrite drop_ge, app_nil_r in Hd' by lia. rewrite text_of_cons in Hd'. destruct Hl' as [Hnl _].
      apply Hnl. rewrite Hd', elem_of_app. right. by left.
    - destruct (partial_line _ _ _ Hrest Hl' Hd') as [(? & _)|(x' & ls' & [= <- <-] & Hx' & _)]; [done|].
      rewrite <-Eb, length_app, length_take in Hx'. unfold n, BUFSIZE in *. lia. }
  rewrite bool_decide_false, drop_app_length.
  - apply IH; [done..|]. rewrite length_drop. destruct d; [done|]. cbn in *. lia.
  - destruct ls as [|y ls]; [done|]. rewrite text_of_cons, length_app. cbn. lia.
Qed.

(** C27: On a file whose lines end in a newline, contain no zero byte and
    have at most 1022 characters, [grep] terminates and writes exactly the
    lines that match, in order. *)
Theorem grep_correct pattern lines : Forall is_line lines ->
  Forall (fun x => length x + 2 <= BUFSIZE)%nat lines ->
  grep pattern (mk_input (text_of lines) []) = Some (matching pattern lines).
Proof.
  intros Hls Hlen. unfold grep. apply (grep_loop_spec pattern _ lines [] _ []); try done; [|cbn; lia].
  split; apply not_elem_of_nil.
Qed.

Lemma grep_correct_witness :
  grep [97; 42; 98; 36] (mk_input (text_of [[97; 97; 98]; [98; 97]; [99; 98]]) []) =
  Some [97; 97; 98; 10; 99; 98; 10].
Proof.
  rewrite (grep_correct [97; 42; 98; 36] [[97; 97; 98]; [98; 97]; [99; 98]]); [reflexivity|..].
  - apply (bool_decide_unpack _). vm_compute. exact I.
  - apply (bool_decide_unpack _). vm_compute. exact I.
Defined.

(** A short read loses the beginning of a line: if the bytes of a line
    arrive in two pieces, as from a pipe, [grep] forgets the first piece when
    the buffer holds no newline, and the matching line is not printed. *)
Theorem grep_loses_partial_line :
  grep [97; 98] (mk_input [97; 98; 10] []) = Some [97; 98; 10] /\
  grep [97; 98] (mk_input [97; 98; 10] [0%nat]) = Some [].
Proof. by vm_compute. Qed.
