(* ===== verification/Ulib.v ===== *)
(** * The user library

    [ulib.c]: the string functions of user programs, on their flat memory.
    The loops over a C string take the number of bytes they may look at as
    fuel; with more fuel than the string has bytes they return. *)

From Stdlib Require Import ZArith Lia.
From stdpp Require Import base strings numbers gmap list.
From S2P Require Import Prelude Mmu Memory CString.

(** ** Operations *)

(** [while(( *s++ = *t++) != 0);] *)
Fixpoint strcpy (fuel : nat) (m : mem) (s t : Z) : option mem :=
  match fuel with
  | O => None
  | S f => let c := ldb m t in
           let m := stb m s c in
           if c =? 0 then Some m else strcpy f m (s + 1) (t + 1)
  end.

(** [while( *p && *p == *q) p++, q++;] *)
Fixpoint strcmp (fuel : nat) (m : mem) (p q : Z) : option Z :=
  match fuel with
  | O => None
  | S f => if negb (ldb m p =? 0) && (ldb m p =? ldb m q) then strcmp f m (p + 1) (q + 1)
           else Some (ldb m p - ldb m q)
  end.

(** The address of the first [c], or 0. *)
Fixpoint strchr (fuel : nat) (m : mem) (s c : Z) : option Z :=
  match fuel with
  | O => None
  | S f => if ldb m s =? 0 then Some 0 else if ldb m s =? c then Some s else strchr f m (s + 1) c
  end.

(** [gets]: [input] is what the [read]s of one byte return, until the end
    of the file. *)
Fixpoint gets_loop (input : list Z) (m : mem) (buf i max : Z) : mem * list Z :=
  if i + 1 <? max
  then match input with
       | [] => (stb m (buf + i) 0, [])
       | c :: input' =>
           let m := stb m (buf + i) c in
           if (c =? 10) || (c =? 13) then (stb m (buf + i + 1) 0, input')
           else gets_loop input' m buf (i + 1) max
       end
  else (stb m (buf + i) 0, input).
Definition gets (input : list Z) (m : mem) (buf max : Z) : mem * list Z := gets_loop input m buf 0 max.

(** [n] is an [int]. *)
Fixpoint atoi_loop (fuel : nat) (m : mem) (s n : Z) : option Z :=
  match fuel with
  | O => None
  | S f => let c := ldb m s in
           if (48 <=? c) && (c <=? 57) then atoi_loop f m (s + 1) (s32 (n * 10 + c - 48)) else Some n
  end.
Definition atoi (fuel : nat) (m : mem) (s : Z) : option Z := atoi_loop fuel m s 0.

(** [while(n-- > 0) *dst++ = *src++;] *)
Definition memmove (m : mem) (vdst vsrc n : Z) : mem := copy_fwd m vdst vsrc (Z.to_nat n).

(** ** Strings *)

Lemma strcpy_cstr m s t l fuel : cstr m t l -> (length l < fuel)%nat ->
  s + Z.of_nat (length l) < t \/ t + Z.of_nat (length l) < s ->
  exists m', strcpy fuel m s t = Some m' /\ cstr m' s l /\
    forall b, b < s \/ s + Z.of_nat (length l) < b -> ldb m' b = ldb m b.
Proof.
  revert m s t fuel. induction l as [|c l IH]; intros m s t [|fuel] Hl Hf Hd; cbn [length] in *; try lia; cbn [strcpy cstr] in *.
  - rewrite Hl. eexists. split; [done|]. split; [apply ldb_stb_eq|]. intros. apply ldb_stb_ne. lia.
  - destruct Hl as (Hc & Ht & Hl). pose proof (ldb_range m t). rewrite Ht, (proj2 (Z.eqb_neq c 0)) by done.
    destruct (IH (stb m s c) (s + 1) (t + 1) fuel) as (m' & -> & Hs & Hm); [|lia..|].
    { eapply cstr_frame; [|done]. intros. apply ldb_stb_ne. lia. }
    exists m'. split; [done|]. split; [|intros; rewrite Hm, ldb_stb_ne by lia; done].
    split; [done|]. split; [|done]. rewrite Hm by lia. rewrite ldb_stb_eq. apply Z.mod_small. lia.
Qed.

(** Lexicographic order of strings. *)
Fixpoint str_lt (l l' : list Z) : Prop :=
  match l, l' with
  | _, [] => False
  | [], _ :: _ => True
  | c :: l, c' :: l' => c < c' \/ c = c' /\ str_lt l l'
  end.

Lemma strcmp_cstr m p q l l' fuel : cstr m p l -> cstr m q l' -> (length l < fuel)%nat ->
  exists r, strcmp fuel m p q = Some r /\ (r < 0 <-> str_lt l l') /\ (r = 0 <-> l = l').
Proof.
  revert p q l' fuel. induction l as [|c l IH]; intros p q l' [|fuel] Hl Hl' Hf; cbn [length] in *; try lia; cbn [strcmp].
  - pose proof (ldb_range m q). cbn in Hl. rewrite Hl. cbn [Z.eqb negb andb]. eexists. split; [done|].
    destruct l' as [|c' l']; cbn in *; [rewrite Hl'; split; split; done|].
    destruct Hl' as (? & <- & ?). split; split; try done; lia.
  - destruct Hl as (Hc & <- & Hl). pose proof (ldb_range m q). pose proof (ldb_range m p).
    rewrite (proj2 (Z.eqb_neq _ 0) Hc). cbn [negb andb].
    destruct l' as [|c' l'].
    + cbn in Hl'. rewrite Hl', (proj2 (Z.eqb_neq _ 0) Hc). eexists. split; [done|].
      cbn. split; split; try done; lia.
    + destruct Hl' as (Hc' & <- & Hl'). destruct (Z.eqb_spec (ldb m p) (ldb m q)) as [E|E].
      * destruct (IH _ _ l' fuel Hl Hl' ltac:(lia)) as (r & -> & H1 & H2). exists r. split; [done|].
        cbn. rewrite E. split; [rewrite H1; split; [by right|intros [?|[_ ?]]; [lia|done]]|].
        rewrite H2. split; [by intros ->|congruence].
      * eexists. split; [done|]. cbn. split; [lia|]. split; [lia|congruence].
Qed.

Lemma strchr_cstr m s l c fuel : cstr m s l -> c <> 0 -> (length l < fuel)%nat ->
  strchr fuel m s c = Some (match list_find (fun x => x = c) l with Some (i, _) => s + Z.of_nat i | None => 0 end).
Proof.
  intros Hl Hc. revert s fuel Hl. induction l as [|x l IH]; intros s [|fuel] Hl Hf; cbn [length] in *; try lia; cbn [strchr].
  - cbn in Hl. by rewrite Hl.
  - destruct Hl as (Hx & -> & Hl). rewrite (proj2 (Z.eqb_neq x 0) Hx). cbn.
    destruct (Z.eqb_spec x c) as [->|Hne]; [rewrite decide_True by done; f_equal; lia|].
    rewrite decide_False by done. rewrite (IH (s + 1)) by (done || lia). f_equal.
    destruct (list_find _ l) as [[i y]|]; cbn; lia.
Qed.

(** The user string functions are correct: [strcpy] makes a copy and
    writes nothing else, [strcmp] orders strings lexicographically as
    unsigned bytes and is 0 exactly on equal strings, [strchr] finds the
    first occurrence. *)
Theorem ulib_strings m p q l l' (fuel : nat) : cstr m p l -> cstr m q l' ->
  (length l < fuel)%nat ->
  (exists r, strcmp fuel m p q = Some r /\ (r < 0 <-> str_lt l l') /\ (r = 0 <-> l = l')) /\
  (forall c, c <> 0 -> strchr fuel m p c =
     Some (match list_find (fun x => x = c) l with Some (i, _) => p + Z.of_nat i | None => 0 end)) /\
  (forall s, s + Z.of_nat (length l) < p \/ p + Z.of_nat (length l) < s ->
     exists m', strcpy fuel m s p = Some m' /\ cstr m' s l /\
       forall b, b < s \/ s + Z.of_nat (length l) < b -> ldb m' b = ldb m b).
Proof.
  intros Hl Hl' Hf. split; [by apply strcmp_cstr|]. split; [intros; by apply strchr_cstr|].
  intros. by apply strcpy_cstr.
Qed.

Lemma ulib_strings_witness :
  strchr 5 hello 16 108 = Some 18 /\ exists m', strcpy 5 hello 100 16 = Some m' /\ cstr m' 100 [104; 101; 108; 108].
Proof.
  assert (cstr hello 16 [104; 101; 108; 108]) as H by (repeat split; done).
  destruct (ulib_strings hello 16 16 _ _ 5 H H ltac:(cbn; lia)) as (_ & H1 & H2).
  split; [exact (H1 108 ltac:(lia))|]. destruct (H2 100 ltac:(cbn; lia)) as (m' & ? & ? & _). by exists m'.
Defined.

(** [memmove] of the user library always copies forward: when the
    destination overlaps the end of the source it does not move the bytes,
    while the kernel's does. *)
Theorem ulib_memmove_overlap :
  let m := st ∅ 100 0x04030201 in
  (ldb (Memory.memmove m 101 100 3) <$> [101; 102; 103]) = [1; 2; 3] /\
  (ldb (memmove m 101 100 3) <$> [101; 102; 103]) = [1; 1; 1].
Proof. by vm_compute. Qed.

(** The first [k] bytes of the input, up to the end of the line. *)
Fixpoint first_line (k : nat) (input : list Z) : list Z * list Z :=
  match k, input with
  | O, _ => ([], input)
  | _, [] => ([], [])
  | S k, c :: input' =>
      if (c =? 10) || (c =? 13) then ([c], input')
      else let '(l, rest) := first_line k input' in (c :: l, rest)
  end.

Lemma gets_loop_spec input : forall m buf i max, 0 <= i < max -> Forall (fun c => 0 <= c < 256) input ->
  let '(l, rest) := first_line (Z.to_nat (max - 1 - i)) input in
  exists m', gets_loop input m buf i max = (m', rest) /\
    (forall j c, l !! j = Some c -> ldb m' (buf + i + Z.of_nat j) = c) /\
    ldb m' (buf + i + Z.of_nat (length l)) = 0 /\
    forall b, b < buf + i \/ buf + max <= b -> ldb m' b = ldb m b.
Proof.
  induction input as [|c input IH]; intros m buf i max Hi Hin; cbn [gets_loop].
  - replace (first_line _ []) with (@nil Z, @nil Z) by (by destruct (Z.to_nat _)).
    exists (stb m (buf + i) 0). rewrite Z.add_0_r. split; [by case_if|]. split; [by intros ? ?|].
    split; [apply ldb_stb_eq|]. intros. apply ldb_stb_ne. lia.
  - apply Forall_cons in Hin as [Hc Hin]. destruct (Z.ltb_spec (i + 1) max) as [Hlt|Hge].
    + replace (Z.to_nat (max - 1 - i)) with (S (Z.to_nat (max - 1 - (i + 1)))) by lia. cbn [first_line].
      destruct ((c =? 10) || (c =? 13)).
      * eexists. split; [done|]. cbn [length]. split; [|split].
        -- intros j x Hj. apply list_lookup_singleton_Some in Hj as [-> <-].
           rewrite Z.add_0_r, ldb_stb_ne, ldb_stb_eq by lia. by apply Z.mod_small.
        -- rewrite ldb_stb. rewrite decide_True by lia. done.
        -- intros. rewrite !ldb_stb_ne by lia. done.
      * specialize (IH (stb m (buf + i) c) buf (i + 1) max ltac:(lia) Hin).
        destruct (first_line _ input) as [l rest]. destruct IH as (m' & -> & H1 & H2 & H3).
        exists m'. split; [done|]. split; [|split].
        -- intros [|j] x Hj; cbn in Hj.
           ++ injection Hj as <-. rewrite Z.add_0_r, H3, ldb_stb_eq by lia. by apply Z.mod_small.
           ++ rewrite <-(H1 j x Hj). f_equal. lia.
        -- rewrite <-H2. f_equal. cbn [length]. lia.
        -- intros. rewrite H3, ldb_stb_ne by lia. done.
    + replace (Z.to_nat (max - 1 - i)) with 0%nat by lia. cbn. eexists. split; [done|].
      rewrite Z.add_0_r. split; [done|]. split; [apply ldb_stb_eq|]. intros. apply ldb_stb_ne. lia.
Qed.

(** [gets] reads one line: the bytes up to the newline (or the end of the
    file, or [max - 1] bytes) are in the buffer, terminated by a zero, the
    rest of the input is left, and no byte outside of the buffer changes. *)
Theorem gets_reads_line input m buf max : 0 < max -> Forall (fun c => 0 <= c < 256) input ->
  let '(l, rest) := first_line (Z.to_nat (max - 1)) input in
  exists m', gets input m buf max = (m', rest) /\
    (forall j c, l !! j = Some c -> ldb m' (buf + Z.of_nat j) = c) /\
    ldb m' (buf + Z.of_nat (length l)) = 0 /\
    forall b, b < buf \/ buf + max <= b -> ldb m' b = ldb m b.
Proof.
  intros Hm Hin. pose proof (gets_loop_spec input m buf 0 max ltac:(lia) Hin) as H.
  rewrite Z.sub_0_r, !Z.add_0_r in H. exact H.
Qed.

Lemma gets_reads_line_witness :
  exists m', gets [104; 105; 10; 33] ∅ 50 8 = (m', [33]) /\ ldb m' 52 = 10 /\ ldb m' 53 = 0.
Proof.
  destruct (gets_reads_line [104; 105; 10; 33] ∅ 50 8 ltac:(lia)) as (m' & H & H1 & H2 & _).
  { repeat (apply List.Forall_cons; [lia|]). apply List.Forall_nil. }
  exists m'. split; [exact H|]. split; [exact (H1 2%nat 10 eq_refl)|exact H2].
Defined.
