(* ===== verification/Umalloc.v ===== *)
(** * The user memory allocator

    [umalloc.c]: [malloc] and [free] on the circular list of free blocks that
    the allocator keeps inside the memory of the process.  The state is that
    memory, its size, and the static pointer [freep]; an access outside the
    memory is a [Trap].  A [Header] is eight bytes, the pointer to the next
    free block and the size of the block in headers.

    The theorems show that a program that uses these functions sees disjoint
    arrays of bytes that change only when it writes to them, and that freed
    blocks are merged. *)

From Stdlib Require Import ZArith Lia.
From stdpp Require Import base strings numbers gmap sorting list.
From S2P Require Import Prelude Mmu Memory.

(** ** State *)

Record heap := mk_heap { u_mem : mem; u_sz : Z; u_freep : Z }.
Definition set_u_mem (m : mem) (h : heap) : heap := mk_heap m (u_sz h) (u_freep h).
Definition set_u_sz (n : Z) (h : heap) : heap := mk_heap (u_mem h) n (u_freep h).
Definition set_u_freep (p : Z) (h : heap) : heap := mk_heap (u_mem h) (u_sz h) p.
Abbreviation U := (M heap).

Definition uload (a : Z) : U Z :=
  h ← gets (fun h => h);
  if (0 <=? a) && (a + 4 <=? u_sz h) then mret (ld (u_mem h) a) else fail Trap.
Definition ustore (a v : Z) : U unit :=
  h ← gets (fun h => h);
  if (0 <=? a) && (a + 4 <=? u_sz h) then modify (set_u_mem (st (u_mem h) a v)) else fail Trap.
Definition ustore_byte (a v : Z) : U unit :=
  h ← gets (fun h => h);
  if (0 <=? a) && (a <? u_sz h) then modify (set_u_mem (stb (u_mem h) a v)) else fail Trap.

(** [sizeof(Header)], and the fields [s.ptr] and [s.size]. *)
Definition HDR : Z := 8.
Definition get_ptr (p : Z) : U Z := uload p.
Definition set_ptr (p v : Z) : U unit := ustore p v.
Definition get_size (p : Z) : U Z := uload (p + 4).
Definition set_size (p v : Z) : U unit := ustore (p + 4) v.
(** [p + n] for [Header *p] *)
Definition hdr_add (p n : Z) : Z := u32 (p + HDR * n).

(** ** Operations *)

Section umalloc.
(** The address of the static variable [base], and whether the kernel finds
    the pages to grow a process from one size to another. *)
Context (base : Z) (room : Z -> Z -> bool).

(** The system call [sbrk] as the process sees it: [sys_sbrk], with the size
    that [growproc] gets from [allocuvm] or [deallocuvm] and 0 for failure. *)
Definition sbrk (n : Z) : U Z :=
  addr ← gets u_sz;
  let newsz := u32 (addr + n) in
  let sz :=
    if 0 <? n then
      if KERNBASE <=? newsz then 0
      else if newsz <? addr then addr
      else if room addr newsz then newsz else 0
    else if n <? 0 then if addr <=? newsz then addr else newsz
    else addr in
  if negb (n =? 0) && (sz =? 0) then mret (-1)
  else modify (set_u_sz sz);; mret addr.

(** Every block has at least one header in the memory of the process. *)
Definition list_fuel (h : heap) : nat := Z.to_nat (u_sz h / HDR).

(** The loop of [free]: the block after which [bp] belongs. *)
Definition free_find (bp : Z) : U Z :=
  h ← gets (fun h => h);
  while_ (S (list_fuel h)) (fun p =>
    q ← get_ptr p;
    if (p <? bp) && (bp <? q) then mret (inr p)
    else if (q <=? p) && ((p <? bp) || (bp <? q)) then mret (inr p)
    else mret (inl q)) (u_freep h).

(** [if(x + x->s.size == y){ x->s.size += y->s.size; x->s.ptr = y->s.ptr; }
    else x->s.ptr = y;] *)
Definition merge (x y : Z) : U unit :=
  n ← get_size x;
  if hdr_add x n =? y then
    k ← get_size y;
    set_size x (u32 (n + k));;
    z ← get_ptr y;
    set_ptr x z
  else set_ptr x y.

Definition free (ap : Z) : U unit :=
  let bp := ap - HDR in
  p ← free_find bp;
  q ← get_ptr p;
  merge bp q;;
  merge p bp;;
  modify (set_u_freep p).

Definition morecore (nu : Z) : U Z :=
  let nu := if nu <? 4096 then 4096 else nu in
  p ← sbrk (s32 (nu * HDR));
  if p =? -1 then mret 0
  else
    set_size p nu;;
    free (p + HDR);;
    gets u_freep.

(** What [malloc] does with a block [p] that is large enough. *)
Definition carve (prevp p nunits : Z) : U Z :=
  n ← get_size p;
  p ← (if n =? nunits then
         q ← get_ptr p;
         set_ptr prevp q;; mret p
       else
         set_size p (u32 (n - nunits));;
         let p := hdr_add p (n - nunits) in
         set_size p nunits;; mret p);
  modify (set_u_freep prevp);;
  mret (p + HDR).

(** One iteration of the loop of [malloc]. *)
Definition malloc_step (nunits : Z) : Z * Z -> U (Z * Z + Z) := fun '(prevp, p) =>
  n ← get_size p;
  if nunits <=? n then r ← carve prevp p nunits; mret (inr r)
  else
    f ← gets u_freep;
    if p =? f then
      p ← morecore nunits;
      if p =? 0 then mret (inr 0)
      else q ← get_ptr p; mret (inl (p, q))
    else q ← get_ptr p; mret (inl (p, q)).

Definition malloc (nbytes : Z) : U Z :=
  let nunits := u32 (u32 (nbytes + HDR - 1) / HDR + 1) in
  f ← gets u_freep;
  when (f =? 0)
    (set_ptr base base;; modify (set_u_freep base);; set_size base 0);;
  h ← gets (fun h => h);
  p ← get_ptr (u_freep h);
  while_ (2 * list_fuel h + 4) (malloc_step nunits) (u_freep h, p).
End umalloc.

(** ** Blocks *)

(** The address of a block's header and its size in headers. *)
Abbreviation block := (Z * Z)%type.
Implicit Types (b c x y : block) (l : list block) (m : mem).

Definition bend b : Z := b.1 + HDR * b.2.
(** The two blocks are apart; the first ends before the second starts. *)
Definition disj b c : Prop := bend b <= c.1 \/ bend c <= b.1.
Definition gap b c : Prop := bend b < c.1.
Definition inside (lo hi : Z) b : Prop := lo <= b.1 /\ 0 < b.2 /\ bend b <= hi.
Definition units l : Z := foldr (fun b n => b.2 + n) 0 l.

(** The blocks are linked in the order of the list, the last one to [e]. *)
Definition first l (e : Z) : Z := match l with [] => e | b :: _ => b.1 end.
Fixpoint chain m l (e : Z) : Prop :=
  match l with
  | [] => True
  | b :: l' => ld m b.1 = first l' e /\ ld m (b.1 + 4) = b.2 /\ chain m l' e
  end.

(** The free blocks [fl], in the order of their addresses and never
    adjacent, and the allocated blocks [al]; together they make up the
    memory from [start] to the size of the process. *)
Definition nodes (base : Z) l : list block := (base, 0) :: l.
Record heap_ok (base start : Z) (h : heap) (fl : list block) (al : gmap Z Z) : Prop := {
  ho_base : 0 < base /\ base + HDR <= start;
  ho_size : start <= u_sz h <= KERNBASE;
  ho_chain : chain (u_mem h) (nodes base fl) base;
  ho_freep : u_freep h ∈ (nodes base fl).*1;
  ho_sorted : StronglySorted gap fl;
  ho_free : Forall (inside start (u_sz h)) fl;
  ho_alloc : forall a n, al !! a = Some n -> inside start (u_sz h) (a, n) /\ ld (u_mem h) (a + 4) = n;
  ho_disj : forall a n a' n', al !! a = Some n -> al !! a' = Some n' -> a <> a' -> disj (a, n) (a', n');
  ho_apart : forall b a n, b ∈ fl -> al !! a = Some n -> disj b (a, n);
  ho_units : HDR * (units fl + units (map_to_list al)) = u_sz h - start }.

(** What [merge] makes of the block [x] in front of the list [l]. *)
Definition absorb x l : block * list block :=
  match l with
  | y :: l' => if bend x =? y.1 then ((x.1, x.2 + y.2), l') else (x, l)
  | [] => (x, l)
  end.
Definition joined x l : list block := let '(x', l') := absorb x l in x' :: l'.

Ltac blia := unfold disj, gap, inside, bend, HDR, KERNBASE, two32 in *; cbn [fst snd] in *; lia.

(** *** Memory accesses *)

Lemma wp_uload a Q h : 0 <= a -> a + 4 <= u_sz h -> Q (ld (u_mem h) a) h -> wp (uload a) Q h.
Proof. intros ???. unfold uload. wp_step. wp_step. rewrite !(proj2 (Z.leb_le _ _)) by lia. done. Qed.

Lemma wp_ustore a v Q h : 0 <= a -> a + 4 <= u_sz h -> Q tt (set_u_mem (st (u_mem h) a v) h) ->
  wp (ustore a v) Q h.
Proof. intros ???. unfold ustore. wp_step. wp_step. rewrite !(proj2 (Z.leb_le _ _)) by lia. done. Qed.

(** Memories that differ at most in the header at [p]. *)
Definition differ_at (p : Z) (m m' : mem) : Prop :=
  forall i, i < p \/ p + HDR <= i -> ldb m' i = ldb m i.

Lemma differ_ld p m m' a : differ_at p m m' -> a + 4 <= p \/ p + HDR <= a -> ld m' a = ld m a.
Proof. intros H Ha. apply ld_ext. intros i Hi. apply H. blia. Qed.

Lemma differ_st p m m' a v : differ_at p m m' -> p <= a <= p + 4 -> differ_at p m (st m' a v).
Proof. intros H Ha i Hi. rewrite ldb_st_ne by blia. by apply H. Qed.

Definition sep (p q : Z) : Prop := p + HDR <= q \/ q + HDR <= p.

Lemma hchain_frame m m' p l e : differ_at p m m' -> Forall (fun b => sep p b.1) l -> chain m l e -> chain m' l e.
Proof.
  intros Hd. induction l as [|b l IH]; [done|]. intros Hs (H1 & H2 & H3).
  inversion_clear Hs as [|?? Hb Hl]. unfold sep, HDR in Hb.
  cbn [chain]. rewrite !(differ_ld p m m') by (done || blia). auto.
Qed.

Lemma chain_app m l1 l2 e : chain m (l1 ++ l2) e <-> chain m l1 (first l2 e) /\ chain m l2 e.
Proof.
  induction l1 as [|b l1 IH]; cbn; [tauto|]. rewrite IH. destruct l1; cbn; tauto.
Qed.

Lemma first_app l1 l2 e : first (l1 ++ l2) e = first l1 (first l2 e).
Proof. by destruct l1. Qed.

(** *** [merge] *)

Lemma wp_merge x l base Q h :
  let m := u_mem h in
  ld m (x.1 + 4) = x.2 -> chain m l base -> Forall (fun b => sep x.1 b.1) l ->
  inside 0 (u_sz h) (x.1, 1) -> Forall (inside 0 (u_sz h)) l -> u_sz h <= KERNBASE ->
  0 <= x.2 -> bend x <= KERNBASE -> 0 <= base < KERNBASE -> (l = [] -> bend x <> base) ->
  (forall m', differ_at x.1 m m' -> chain m' (joined x l) base -> Q tt (set_u_mem m' h)) ->
  wp (merge x.1 (first l base)) Q h.
Proof.
  intros m Hx Hl Hs Hin Hins Hsz Hn Hb Hbase Hne HQ. unfold merge, get_size, set_size, get_ptr, set_ptr.
  wp_step. apply wp_uload; [blia|blia|]. fold m. rewrite Hx. unfold hdr_add. rewrite u32_small by blia.
  fold (bend x). assert (differ_at x.1 m m) as Hd by done.
  unfold joined, absorb in HQ. destruct l as [|y l]; cbn [first] in *.
  { rewrite (proj2 (Z.eqb_neq _ _)) by auto. apply wp_ustore; [blia|blia|]. fold m. apply HQ.
    - apply differ_st; [done|lia].
    - cbn. rewrite ld_st_eq, ld_st_ne, u32_small by blia. done. }
  inversion_clear Hs as [|?? Hy Hs']. inversion_clear Hins as [|?? Hyin Hins']. destruct Hl as (Hl1 & Hl2 & Hl3).
  destruct (Z.eqb_spec (bend x) y.1) as [E|E].
  - wp_step. apply wp_uload; [blia|blia|]. fold m. rewrite Hl2.
    wp_step. apply wp_ustore; [blia|blia|]. wp_step. apply wp_uload; cbn [set_u_mem u_mem u_sz]; [blia|blia|]. fold m.
    unfold sep in Hy. rewrite ld_st_ne, Hl1 by blia.
    apply wp_ustore; cbn [set_u_mem u_mem u_sz]; [blia|blia|]. fold m.
    apply HQ; [apply differ_st; [apply differ_st; [done|lia]|lia]|].
    cbn [chain fst snd]. split_and!.
    + rewrite ld_st_eq. apply u32_small. rewrite <-Hl1. apply ld_range.
    + rewrite ld_st_ne, ld_st_eq, u32_idem by lia. apply u32_small. blia.
    + eapply hchain_frame; [|exact Hs'|exact Hl3]. apply differ_st; [apply differ_st; [done|lia]|lia].
  - apply wp_ustore; [blia|blia|]. fold m. assert (differ_at x.1 m (st m x.1 y.1)) as Hd' by (apply differ_st; [done|lia]).
    apply HQ; [done|]. cbn [chain fst snd first]. rewrite ld_st_eq, ld_st_ne, u32_small by blia.
    split; [done|]. split; [done|]. apply (hchain_frame m _ x.1 (y :: l)); [done|by constructor|done].
Qed.

(** *** The geometry of [joined] *)

Lemma joined_Forall (P : block -> Prop) x l :
  (forall y, bend x = y.1 -> P x -> P y -> P (x.1, x.2 + y.2)) -> P x -> Forall P l -> Forall P (joined x l).
Proof.
  intros HP Hx Hl. unfold joined, absorb. destruct l as [|y l]; [by repeat constructor|].
  inversion_clear Hl. destruct (Z.eqb_spec (bend x) y.1); repeat constructor; auto.
Qed.

Lemma joined_units x l : units (joined x l) = x.2 + units l.
Proof. unfold joined, absorb. destruct l as [|y l]; [done|]. destruct (_ =? _); cbn; lia. Qed.

Lemma joined_first x l e : first (joined x l) e = x.1.
Proof. unfold joined, absorb. destruct l as [|y l]; [done|]. by destruct (_ =? _). Qed.

Lemma joined_length x l : (length (joined x l) <= S (length l))%nat.
Proof. unfold joined, absorb. destruct l as [|y l]; [done|]. destruct (_ =? _); cbn; lia. Qed.

Lemma joined_cons x l : exists x' l', joined x l = x' :: l'.
Proof. unfold joined. destruct (absorb x l). by eexists _, _. Qed.

Lemma joined_sorted x l : Forall (fun b => bend x <= b.1) l -> Forall (fun b => 0 < b.2) l ->
  StronglySorted gap l -> StronglySorted gap (joined x l).
Proof.
  intros Hx Hp Hl. unfold joined, absorb. destruct l as [|y l]; [by repeat constructor|].
  inversion_clear Hl as [|?? Hl' Hy]. inversion_clear Hx as [|?? Hxy Hx']. inversion_clear Hp.
  destruct (Z.eqb_spec (bend x) y.1) as [E|E].
  - constructor; [done|]. eapply Forall_impl; [exact Hy|]. intros z Hz. blia.
  - constructor; [by constructor|]. constructor; [blia|]. eapply Forall_impl; [exact Hy|]. intros z Hz. blia.
Qed.

Lemma units_app l1 l2 : units (l1 ++ l2) = units l1 + units l2.
Proof. unfold units. induction l1 as [|b l1 IH]; cbn; [done|]. lia. Qed.

Lemma units_perm l1 l2 : l1 ≡ₚ l2 -> units l1 = units l2.
Proof. unfold units. induction 1; cbn; lia. Qed.

Lemma units_insert (al : gmap Z Z) a n : al !! a = None -> units (map_to_list (<[a := n]> al)) = n + units (map_to_list al).
Proof. intros H. by rewrite (units_perm _ _ (map_to_list_insert _ _ _ H)). Qed.

Lemma units_delete (al : gmap Z Z) a n : al !! a = Some n -> units (map_to_list al) = n + units (map_to_list (delete a al)).
Proof. intros H. by rewrite <-(units_perm _ _ (map_to_list_delete _ _ _ H)). Qed.

(** *** The list of free blocks *)

Lemma sorted_app l1 l2 : StronglySorted gap (l1 ++ l2) <->
  StronglySorted gap l1 /\ StronglySorted gap l2 /\ (forall b c, b ∈ l1 -> c ∈ l2 -> gap b c).
Proof. rewrite StronglySorted_app. naive_solver. Qed.

Lemma sorted_suffix (R : relation block) l1 l2 : StronglySorted R (l1 ++ l2) -> StronglySorted R l2.
Proof. rewrite StronglySorted_app. naive_solver. Qed.

Lemma sorted_split l (a : Z) : StronglySorted gap l -> Forall (fun b => 0 <= b.2 /\ b.1 <> a) l ->
  exists l1 l2, l = l1 ++ l2 /\ Forall (fun b => b.1 < a) l1 /\ Forall (fun b => a < b.1) l2.
Proof.
  induction 1 as [|b l Hl IH Hb]; intros Hne; [by exists [], []|].
  inversion_clear Hne as [|?? Hb1 Hl1]. destruct (decide (b.1 < a)).
  - destruct (IH Hl1) as (l1 & l2 & -> & H1 & H2). exists (b :: l1), l2. split_and!; [done|by constructor|done].
  - exists [], (b :: l). split; [done|]. split; [done|]. constructor; [lia|].
    eapply Forall_impl; [exact Hb|]. intros c Hc. blia.
Qed.

Lemma sorted_units l lo hi : StronglySorted gap l -> Forall (inside lo hi) l -> lo <= hi ->
  HDR * units l + (Z.of_nat (length l) - 1) <= hi - lo /\ HDR * Z.of_nat (length l) <= hi - lo.
Proof.
  intros Hs. revert lo. induction Hs as [|b l Hl IH Hb]; intros lo Hin Hle; [cbn; lia|].
  inversion_clear Hin as [|?? Hb1 Hl1]. destruct (IH (bend b)) as [H1 H2].
  - apply Forall_forall. intros c Hc. rewrite Forall_forall in Hb, Hl1. specialize (Hb c Hc). specialize (Hl1 c Hc). blia.
  - blia.
  - destruct l as [|c l]; cbn [units foldr length] in *; [blia|].
    inversion_clear Hb. fold (units l) in *.
    assert (HDR * (b.2 + (c.2 + units l)) + (Z.of_nat (length l) + 1) <= hi - lo); [|blia].
    destruct (IH (bend b + 1)) as [H3 H4]; [|blia|blia].
    inversion_clear Hl as [|?? Hl' Hc]. inversion_clear Hl1 as [|?? Hc1 Hl1'].
    constructor; [blia|]. apply Forall_forall. intros d Hd. rewrite Forall_forall in Hc, Hl1'.
    specialize (Hc d Hd). specialize (Hl1' d Hd). blia.
Qed.

Section heap_lemmas.
Context (base start : Z).
Implicit Types (h : heap) (fl : list block) (al : gmap Z Z).

Lemma nodes_inside h fl al : heap_ok base start h fl al ->
  Forall (fun b => 0 <= b.2 /\ base <= b.1 /\ b.1 + HDR <= u_sz h /\ bend b <= u_sz h) (nodes base fl).
Proof.
  intros H. destruct (ho_base _ _ _ _ _ H), (ho_size _ _ _ _ _ H). constructor; [blia|].
  eapply Forall_impl; [apply (ho_free _ _ _ _ _ H)|]. intros b Hb. blia.
Qed.

Lemma nodes_sorted h fl al : heap_ok base start h fl al -> StronglySorted gap (nodes base fl).
Proof.
  intros H. constructor; [apply H|]. eapply Forall_impl; [apply (ho_free _ _ _ _ _ H)|].
  intros b Hb. destruct (ho_base _ _ _ _ _ H). blia.
Qed.

Definition below b c : Prop := b.1 < c.1.

Lemma nodes_below h fl al : heap_ok base start h fl al -> StronglySorted below (nodes base fl).
Proof.
  intros H. pose proof (nodes_inside _ _ _ H) as Hi. revert Hi.
  induction (nodes_sorted _ _ _ H) as [|b l Hl IH Hb]; intros Hi; [constructor|].
  inversion_clear Hi as [|?? Hb' Hl']. constructor; [auto|]. eapply Forall_impl; [exact Hb|].
  intros c Hc. unfold below. blia.
Qed.

(** Headers of different blocks do not overlap. *)
Lemma nodes_sep h fl al l1 x l2 : heap_ok base start h fl al -> nodes base fl = l1 ++ x :: l2 ->
  Forall (fun b => b.1 + HDR <= x.1) l1 /\ Forall (fun b => x.1 + HDR <= b.1) l2.
Proof.
  intros H E. pose proof (nodes_sorted _ _ _ H) as Hs. rewrite E in Hs.
  apply sorted_app in Hs as (_ & Hs & Hx). apply StronglySorted_inv in Hs as [_ Hx2].
  destruct (ho_base _ _ _ _ _ H) as [_ Hbs]. pose proof (ho_free _ _ _ _ _ H) as Hf.
  assert (forall b, b ∈ nodes base fl -> b = (base, 0) \/ 0 < b.2 /\ start <= b.1) as Hcase.
  { intros b [->|Hb]%elem_of_cons; [by left|right]. rewrite Forall_forall in Hf. specialize (Hf b Hb). blia. }
  rewrite E in Hcase. rewrite Forall_forall in Hx2. split; apply Forall_forall; intros b Hb.
  - assert (gap b x) as Hg by (apply Hx; [done|by left]).
    destruct (Hcase b) as [->|?]; [set_solver| |blia]. destruct (Hcase x) as [->|?]; [set_solver|blia|blia].
  - specialize (Hx2 b Hb). destruct (Hcase x) as [->|?]; [set_solver| |blia].
    destruct (Hcase b) as [->|?]; [set_solver|blia|blia].
Qed.

Lemma nodes_fuel h fl al : heap_ok base start h fl al -> (S (length fl) <= list_fuel h)%nat.
Proof.
  intros H. destruct (ho_base _ _ _ _ _ H) as [H1 H2], (ho_size _ _ _ _ _ H) as [H3 H4].
  destruct (sorted_units _ _ _ (ho_sorted _ _ _ _ _ H) (ho_free _ _ _ _ _ H) H3) as [_ Hl].
  unfold list_fuel, HDR in *. zdiv.
Qed.

(** *** [free] *)

Definition find_step (bp : Z) : Z -> U (Z + Z) := fun p =>
  q ← get_ptr p;
  if (p <? bp) && (bp <? q) then mret (inr p)
  else if (q <=? p) && ((p <? bp) || (bp <? q)) then mret (inr p)
  else mret (inl q).

(** The test that ends the loop, at the block [p] with successor [q]. *)
Definition stops (bp p q : Z) : bool := (p <? bp) && (bp <? q) || (q <=? p) && ((p <? bp) || (bp <? q)).

Lemma wp_find_step bp l1 x l2 h Q :
  chain (u_mem h) (l1 ++ x :: l2) base -> 0 <= x.1 -> x.1 + HDR <= u_sz h ->
  (let q := first l2 base in Q (if stops bp x.1 q then inr x.1 else inl q) h) -> wp (find_step bp x.1) Q h.
Proof.
  intros [_ [Hp _]]%chain_app ?? HQ. unfold find_step, get_ptr. wp_step. apply wp_uload; [done|blia|].
  rewrite Hp. unfold stops in HQ. cbn zeta in HQ. revert HQ.
  destruct ((x.1 <? bp) && (bp <? first l2 base)); cbn [orb]; [done|]. by case_match.
Qed.

(** The loop passes over blocks that do not end it. *)
Lemma wp_find_walk bp B : forall l1 l2 h fuel Q,
  chain (u_mem h) (l1 ++ B ++ l2) base -> Forall (fun x => 0 <= x.1 /\ x.1 + HDR <= u_sz h) B ->
  (forall x B1 B2, B = B1 ++ x :: B2 -> stops bp x.1 (first (B2 ++ l2) base) = false) ->
  wp (while_ fuel (find_step bp) (first l2 base)) Q h ->
  wp (while_ (length B + fuel) (find_step bp) (first (B ++ l2) base)) Q h.
Proof.
  induction B as [|x B IH]; intros l1 l2 h fuel Q Hc Hin Hst HQ; [done|].
  inversion_clear Hin as [|?? [Hx1 Hx2] HB]. cbn [length app first Nat.add]. apply wp_while_S.
  eapply (wp_find_step bp l1 x (B ++ l2)); [done|done|done|]. cbn zeta.
  rewrite (Hst x [] B) by done. apply (IH (l1 ++ [x])); [by rewrite <-app_assoc|done| |done].
  intros y B1 B2 ->. by apply (Hst y (x :: B1) B2).
Qed.

(** Whether the loop ends at a block of the sorted list. *)
Lemma stops_low bp x l : StronglySorted below (x :: l) -> Exists (fun y => y.1 < bp) l ->
  stops bp x.1 (first l base) = false.
Proof.
  intros [Hl Hx]%StronglySorted_inv Hy. destruct l as [|c l]; [by inversion Hy|]. cbn [first].
  inversion_clear Hx as [|?? Hxc _]. apply StronglySorted_inv in Hl as [_ Hc]. unfold below in *.
  assert (c.1 < bp). { inversion_clear Hy as [|?? Hy']; [done|]. apply Exists_exists in Hy' as (y & Hy & ?).
    rewrite Forall_forall in Hc. specialize (Hc y Hy). lia. }
  unfold stops. destruct (Z.ltb_spec bp c.1), (Z.leb_spec c.1 x.1); lia.
Qed.

Lemma stops_high bp x l : StronglySorted below (x :: l) -> base < bp -> bp < x.1 ->
  stops bp x.1 (first l base) = false.
Proof.
  intros [_ Hx]%StronglySorted_inv ??. assert (first l base < bp \/ x.1 < first l base).
  { destruct l; [by left|right]. by inversion_clear Hx. }
  unfold stops. destruct (Z.ltb_spec x.1 bp), (Z.ltb_spec bp (first l base)), (Z.leb_spec (first l base) x.1); lia.
Qed.

Lemma stops_at bp x l : base <= x.1 -> x.1 < bp -> Forall (fun y => bp < y.1) l ->
  stops bp x.1 (first l base) = true.
Proof.
  intros ?? Hl. assert (first l base <= x.1 \/ bp < first l base) by (destruct Hl; [by left|by right]).
  unfold stops. destruct (Z.ltb_spec x.1 bp), (Z.ltb_spec bp (first l base)), (Z.leb_spec (first l base) x.1); lia.
Qed.

(** The block found is the last one below [bp]. *)
Lemma wp_free_find h fl al TL p TR bp Q :
  heap_ok base start h fl al -> nodes base fl = TL ++ p :: TR -> base < bp ->
  p.1 < bp -> Forall (fun b => bp < b.1) TR ->
  Q p.1 h -> wp (free_find bp) Q h.
Proof.
  intros H E Hbp Hp Hhigh HQ. pose proof (ho_chain _ _ _ _ _ H) as Hc. pose proof (nodes_below _ _ _ H) as Hs.
  assert (Forall (fun x => 0 <= x.1 /\ x.1 + HDR <= u_sz h) (nodes base fl)) as Hin.
  { eapply Forall_impl; [apply (nodes_inside _ _ _ H)|]. intros b Hb. destruct (ho_base _ _ _ _ _ H). cbn in *. lia. }
  pose proof (nodes_fuel _ _ _ H) as Hfuel. assert (length (nodes base fl) = S (length fl)) as Hlen by done.
  assert (base <= p.1) as Hpb.
  { pose proof (nodes_inside _ _ _ H) as Hi. rewrite E, Forall_app, Forall_cons in Hi. apply Hi. }
  assert (first (TL ++ [p]) base = base) as Hfirst by (unfold nodes in E; destruct TL; by simplify_eq/=).
  assert (forall fuel, wp (while_ (S fuel) (find_step bp) p.1) Q h) as Hstop.
  { intros fuel. rewrite E in Hc, Hin. apply Forall_app in Hin as [_ [Hp' _]%Forall_cons].
    apply wp_while_S, (wp_find_step bp TL p TR); [done|apply Hp'|apply Hp'|]. cbn zeta. by rewrite stops_at. }
  assert (forall l1 B fuel, TL = l1 ++ B ->
    wp (while_ (length B + S fuel) (find_step bp) (first (B ++ p :: TR) base)) Q h) as HwalkL.
  { intros l1 B fuel ->. rewrite E, <-app_assoc in *. apply (wp_find_walk bp B l1); [done| | |apply Hstop].
    - by apply Forall_app in Hin as [_ [? _]%Forall_app].
    - intros x B1 B2 ->. apply stops_low; [|apply Exists_app; right; by left].
      rewrite <-app_assoc, app_assoc in Hs. by apply sorted_suffix in Hs. }
  pose proof (ho_freep _ _ _ _ _ H) as Hf. apply list_elem_of_fmap in Hf as (f & Hf & Hfn).
  unfold free_find. wp_step. wp_step. rewrite Hf. fold (find_step bp).
  rewrite E in Hfn, Hlen, Hc, Hs, Hin. rewrite length_app in Hlen. cbn [length] in Hlen.
  apply elem_of_app in Hfn as [Hfn|[->|Hfn]%elem_of_cons]; [|apply Hstop|].
  - apply list_elem_of_split in Hfn as (l1 & B & ETL).
    replace (S (list_fuel h)) with (length (f :: B) + S (list_fuel h - length (f :: B)))%nat.
    + apply (HwalkL l1 (f :: B)). done.
    + rewrite ETL, length_app in Hlen. cbn [length] in *. lia.
  - apply list_elem_of_split in Hfn as (l1 & B & ETR).
    pose proof (wp_find_walk bp (f :: B) (TL ++ p :: l1) [] h (length TL + S (list_fuel h - length TL - length (f :: B))) Q) as W.
    rewrite app_nil_r, <-app_assoc in W. cbn [app first] in W. rewrite <-ETR in W.
    replace (S (list_fuel h)) with (length (f :: B) + (length TL + S (list_fuel h - length TL - length (f :: B))))%nat.
    + apply W; [done| | |].
      * by rewrite ETR, Forall_app, Forall_cons, Forall_app in Hin; apply Hin.
      * intros x B1 B2 EB. rewrite app_nil_r.
        assert (x ∈ TR) by (rewrite ETR, EB; set_solver). rewrite Forall_forall in Hhigh.
        apply stops_high; [|done|by apply Hhigh].
        rewrite ETR, EB, app_comm_cons, !app_assoc in Hs. by apply sorted_suffix in Hs.
      * assert (first (TL ++ p :: TR) base = base) as HfT by (by destruct TL).
        rewrite <-HfT. by apply (HwalkL []).
    + rewrite ETR, length_app in Hlen. cbn [length] in *. lia.
Qed.

(** A block in use among the free ones. *)
Record placed fl (bp bn : Z) TL p TR : Prop := {
  pl_nodes : nodes base fl = TL ++ p :: TR;
  pl_low : bend p <= bp /\ p.1 + HDR <= bp;
  pl_high : Forall (fun c => bend (bp, bn) <= c.1) TR }.

Lemma place h fl al bp bn : heap_ok base start h fl al -> al !! bp = Some bn ->
  exists TL p TR, placed fl bp bn TL p TR.
Proof.
  intros H Hb. destruct (ho_alloc _ _ _ _ _ H _ _ Hb) as [Hin _]. destruct (ho_base _ _ _ _ _ H) as [_ Hbs].
  assert (forall c, c ∈ nodes base fl -> c = (base, 0) \/ inside start (u_sz h) c /\ disj c (bp, bn)) as Hn.
  { intros c [->|Hc]%elem_of_cons; [by left|right]. split; [|by apply (ho_apart _ _ _ _ _ H)].
    pose proof (ho_free _ _ _ _ _ H) as Hf. rewrite Forall_forall in Hf. auto. }
  destruct (sorted_split (nodes base fl) bp) as (l1 & TR & E & Hl1 & HTR); [by eapply nodes_sorted| |].
  { apply Forall_forall. intros c Hc. destruct (Hn c Hc) as [->|?]; blia. }
  destruct l1 as [|p TL _] using rev_ind.
  { cbn in E. rewrite <-E in HTR. inversion_clear HTR. blia. }
  rewrite <-app_assoc in E. exists TL, p, TR. rewrite E in Hn. split; [done| |].
  - apply Forall_app in Hl1 as [_ [Hp _]%Forall_cons]. destruct (Hn p) as [->|?]; [set_solver|blia|blia].
  - apply Forall_forall. intros c Hc. rewrite Forall_forall in HTR. specialize (HTR c Hc).
    destruct (Hn c) as [->|?]; [set_solver|blia|blia].
Qed.

(** The nodes after [free], as geometry: sorted, apart from the blocks still
    in use, with the units of the freed block. *)
Definition apart (h : heap) al c : Prop :=
  c = (base, 0) \/ inside start (u_sz h) c /\ forall a n, al !! a = Some n -> disj c (a, n).

Lemma apart_join h fl al x y : heap_ok base start h fl al -> bend x = y.1 ->
  forall bp, apart h (delete bp al) x -> apart h (delete bp al) y -> apart h (delete bp al) (x.1, x.2 + y.2).
Proof.
  intros H E bp [->|[Hx Hxd]] [->|[Hy Hyd]]; destruct (ho_base _ _ _ _ _ H) as [_ Hbs].
  - left. done.
  - blia.
  - blia.
  - right. split; [blia|]. intros a n Ha. specialize (Hxd _ _ Ha). specialize (Hyd _ _ Ha).
    apply lookup_delete_Some in Ha as [_ Ha]. destruct (ho_alloc _ _ _ _ _ H _ _ Ha). blia.
Qed.

Lemma apart_nodes h fl al bp : heap_ok base start h fl al -> Forall (apart h (delete bp al)) (nodes base fl).
Proof.
  intros H. constructor; [by left|]. apply Forall_forall. intros c Hc. right.
  pose proof (ho_free _ _ _ _ _ H) as Hf. rewrite Forall_forall in Hf. split; [auto|].
  intros a n [_ Ha]%lookup_delete_Some. by apply (ho_apart _ _ _ _ _ H).
Qed.

Lemma nodes_of h al l : base + HDR <= start -> StronglySorted gap l -> Forall (apart h al) l -> first l 0 = base ->
  l <> [] -> exists fl', nodes base fl' = l /\ StronglySorted gap fl' /\ units fl' = units l /\
    Forall (fun c => inside start (u_sz h) c /\ forall a n, al !! a = Some n -> disj c (a, n)) fl'.
Proof.
  intros Hbs Hs Hp Hf Hl. destruct l as [|c l]; [done|]. cbn in Hf. inversion_clear Hp as [|?? Hc Hl'].
  assert (c = (base, 0)) as -> by (destruct Hc as [?|[]]; [done|blia]).
  apply StronglySorted_inv in Hs as [Hs Hg]. exists l. split_and!; [done|done|done|].
  apply Forall_forall. intros d Hd. rewrite Forall_forall in Hl', Hg. specialize (Hg d Hd).
  destruct (Hl' d Hd) as [->|?]; [blia|done].
Qed.

Lemma placed_sorted h fl al bp bn TL p TR : heap_ok base start h fl al -> al !! bp = Some bn ->
  placed fl bp bn TL p TR -> StronglySorted gap (TL ++ joined p (joined (bp, bn) TR)).
Proof.
  intros H Hb [E [Hlow _] Hhigh]. destruct (ho_alloc _ _ _ _ _ H _ _ Hb) as [Hin _].
  pose proof (nodes_sorted _ _ _ H) as Hs. pose proof (nodes_inside _ _ _ H) as Hni.
  rewrite E in Hs, Hni. apply Forall_app in Hni as [_ [Hp HniR]%Forall_cons].
  apply sorted_app in Hs as (HsL & [HsR HpR]%StronglySorted_inv & HLR).
  assert (Forall (fun c => 0 < c.2) TR) as Hpos.
  { pose proof (ho_free _ _ _ _ _ H) as Hf. rewrite Forall_forall in Hf, Hhigh |- *. intros c Hc.
    assert (c ∈ nodes base fl) as [->|Hc']%elem_of_cons by (rewrite E; set_solver); [|apply (Hf c Hc')].
    specialize (Hhigh _ Hc). destruct (ho_base _ _ _ _ _ H). blia. }
  apply sorted_app. split; [done|]. split.
  - apply joined_sorted.
    + apply joined_Forall; [done|blia|]. eapply Forall_impl; [exact Hhigh|]. intros c Hc. blia.
    + apply joined_Forall; [|blia|done]. intros y _ ??. blia.
    + by apply joined_sorted.
  - intros b c Hb' Hc. assert (gap b p) as Hg by (apply HLR; [done|by left]).
    assert (Forall (fun c => p.1 <= c.1) (joined p (joined (bp, bn) TR))) as Hall.
    { apply joined_Forall; [done|lia|]. apply joined_Forall; [done|blia|].
      eapply Forall_impl; [exact Hhigh|]. intros d Hd. blia. }
    rewrite Forall_forall in Hall. specialize (Hall c Hc). blia.
Qed.

Lemma joined_large p bp bn l : 0 <= p.2 -> Forall (fun c => 0 <= c.2) l ->
  Exists (fun c => bn <= c.2) (joined p (joined (bp, bn) l)).
Proof.
  intros Hp Hl. assert (exists x l', joined (bp, bn) l = x :: l' /\ bn <= x.2) as (x & l' & -> & Hx).
  { unfold joined, absorb. destruct l as [|y l]; [by eexists _, _|]. inversion_clear Hl.
    destruct (_ =? _); eexists _, _; (split; [done|]); cbn; lia. }
  unfold joined at 1, absorb. destruct (_ =? _); [left; cbn; lia|right; by left].
Qed.

Lemma free_nodes h fl al bp bn TL p TR : heap_ok base start h fl al -> al !! bp = Some bn ->
  placed fl bp bn TL p TR ->
  exists fl', nodes base fl' = TL ++ joined p (joined (bp, bn) TR) /\ StronglySorted gap fl' /\
    Forall (fun c => inside start (u_sz h) c /\ forall a n, delete bp al !! a = Some n -> disj c (a, n)) fl' /\
    units fl' = units fl + bn /\ Exists (fun c => bn <= c.2) fl'.
Proof.
  intros H Hb Hpl. destruct (ho_alloc _ _ _ _ _ H _ _ Hb) as [Hin _]. destruct (ho_base _ _ _ _ _ H) as [_ Hbs].
  pose proof (placed_sorted _ _ _ _ _ _ _ _ H Hb Hpl) as Hs. destruct Hpl as [E _ _].
  pose proof (apart_nodes _ _ _ bp H) as HP. pose proof (nodes_inside _ _ _ H) as Hni.
  rewrite E in HP, Hni. apply Forall_app in HP as [HP1 [HP2 HP3]%Forall_cons].
  apply Forall_app in Hni as [_ [Hp HniR]%Forall_cons].
  destruct (nodes_of h (delete bp al) (TL ++ joined p (joined (bp, bn) TR))) as (fl' & E' & Hs' & Hu & HF); [done|done| | | |].
  - apply Forall_app. split; [done|]. apply joined_Forall; [intros; by eapply apart_join|done|].
    apply joined_Forall; [intros; by eapply apart_join| |done]. right. split; [done|].
    intros a n [??]%lookup_delete_Some. by apply (ho_disj _ _ _ _ _ H).
  - rewrite first_app, joined_first. unfold nodes in E. destruct TL; by simplify_eq/=.
  - destruct (joined_cons p (joined (bp, bn) TR)) as (? & ? & ->). by destruct TL.
  - exists fl'. split_and!; [done|done|done| |].
    + rewrite Hu, units_app, !joined_units. assert (units (nodes base fl) = units fl) as <- by done.
      rewrite E, units_app. change (units (p :: TR)) with (p.2 + units TR). cbn [snd]. lia.
    + assert (Exists (fun c => bn <= c.2) (nodes base fl')) as Hex.
      { rewrite E'. apply Exists_app. right. apply joined_large; [lia|].
        eapply Forall_impl; [exact HniR|]. cbn. lia. }
      inversion_clear Hex; [blia|done].
Qed.

(** Bytes outside the headers and the free blocks. *)
Definition in_use fl (i : Z) : Prop :=
  (i < base \/ base + HDR <= i) /\ Forall (fun c => i < c.1 \/ bend c <= i) fl.

Lemma in_use_node h fl al c i : heap_ok base start h fl al -> c ∈ nodes base fl -> in_use fl i ->
  i < c.1 \/ c.1 + HDR <= i.
Proof.
  intros H [->|Hc]%elem_of_cons [Hb Hf]; [done|]. rewrite Forall_forall in Hf. specialize (Hf c Hc).
  pose proof (ho_free _ _ _ _ _ H) as Hi. rewrite Forall_forall in Hi. specialize (Hi c Hc). blia.
Qed.

Lemma alloc_sep h fl al c a n : heap_ok base start h fl al -> al !! a = Some n -> c ∈ nodes base fl -> sep c.1 a.
Proof.
  intros H Ha Hc. destruct (ho_alloc _ _ _ _ _ H _ _ Ha) as [Hi _]. destruct (ho_base _ _ _ _ _ H).
  unfold sep. apply elem_of_cons in Hc as [->|Hc]; [blia|]. pose proof (ho_apart _ _ _ _ _ H _ _ _ Hc Ha).
  pose proof (ho_free _ _ _ _ _ H) as Hf. rewrite Forall_forall in Hf. specialize (Hf c Hc). blia.
Qed.

Lemma placed_sep h fl al bp bn TL p TR : heap_ok base start h fl al -> al !! bp = Some bn ->
  placed fl bp bn TL p TR ->
  Forall (fun c => sep bp c.1) (TL ++ p :: TR) /\ Forall (fun c => sep p.1 c.1) (TL ++ joined (bp, bn) TR).
Proof.
  intros H Hb [E [Hlow Hlow'] Hhigh]. destruct (ho_alloc _ _ _ _ _ H _ _ Hb) as [Hin _].
  destruct (nodes_sep _ _ _ _ _ _ H E) as [H1 H2]. rewrite !Forall_app, Forall_cons. unfold sep.
  split_and!.
  - eapply Forall_impl; [exact H1|]. intros c Hc. blia.
  - blia.
  - eapply Forall_impl; [exact Hhigh|]. intros c Hc. blia.
  - eapply Forall_impl; [exact H1|]. intros c Hc. blia.
  - apply joined_Forall; [done|blia|]. eapply Forall_impl; [exact H2|]. intros c Hc. blia.
Qed.

Lemma placed_inside h fl al bp bn TL p TR : heap_ok base start h fl al -> al !! bp = Some bn ->
  placed fl bp bn TL p TR -> Forall (inside 0 (u_sz h)) TR /\ Forall (inside 0 (u_sz h)) (joined (bp, bn) TR).
Proof.
  intros H Hb [E _ Hhigh]. destruct (ho_alloc _ _ _ _ _ H _ _ Hb) as [Hin _]. destruct (ho_base _ _ _ _ _ H).
  assert (Forall (inside 0 (u_sz h)) TR) as HTR.
  { pose proof (ho_free _ _ _ _ _ H) as Hf. rewrite Forall_forall in Hf, Hhigh |- *. intros c Hc.
    assert (c ∈ nodes base fl) as [->|Hc']%elem_of_cons by (rewrite E; set_solver); [|specialize (Hf c Hc'); blia].
    specialize (Hhigh _ Hc). blia. }
  split; [done|]. apply joined_Forall; [intros y; blia|blia|done].
Qed.

(** The invariant after [free]. *)
Lemma freed_ok h fl al bp bn TL p TR fl' m1 m2 : heap_ok base start h fl al -> al !! bp = Some bn ->
  placed fl bp bn TL p TR -> differ_at bp (u_mem h) m1 -> differ_at p.1 m1 m2 ->
  chain m2 (joined p (joined (bp, bn) TR)) base ->
  nodes base fl' = TL ++ joined p (joined (bp, bn) TR) -> StronglySorted gap fl' ->
  Forall (fun c => inside start (u_sz h) c /\ forall a n, delete bp al !! a = Some n -> disj c (a, n)) fl' ->
  units fl' = units fl + bn -> heap_ok base start (mk_heap m2 (u_sz h) p.1) fl' (delete bp al).
Proof.
  intros H Hb Hpl Hd1 Hd2 Hc2 E' Hs' HF Hu.
  destruct (placed_sep _ _ _ _ _ _ _ _ H Hb Hpl) as [Hsb Hsp]. apply Forall_app in Hsb as [HsbL _].
  apply Forall_app in Hsp as [HspL _]. destruct Hpl as [E _ _].
  pose proof (ho_chain _ _ _ _ _ H) as Hc. rewrite E in Hc. apply chain_app in Hc as [HcL _].
  destruct (ho_alloc _ _ _ _ _ H _ _ Hb) as [Hin _].
  split; cbn [u_mem u_sz u_freep]; [apply H|apply H| | |done| | | | |].
  - rewrite E'. apply chain_app. rewrite joined_first. split; [|done].
    eapply hchain_frame; [exact Hd2|done|]. eapply hchain_frame; [exact Hd1|done|done].
  - rewrite E', fmap_app. destruct (joined_cons p (joined (bp, bn) TR)) as (x & l & Ej).
    pose proof (joined_first p (joined (bp, bn) TR) 0) as Ef. rewrite Ej in *. cbn in *. set_solver.
  - eapply Forall_impl; [exact HF|]. naive_solver.
  - intros a n [Hne Ha]%lookup_delete_Some. destruct (ho_alloc _ _ _ _ _ H _ _ Ha) as [Hi Hn]. split; [done|].
    rewrite (differ_ld p.1 m1), (differ_ld bp (u_mem h)); [done|done| |done|].
    + pose proof (ho_disj _ _ _ _ _ H _ _ _ _ Ha Hb). blia.
    + assert (sep p.1 a) as Hs by (apply (alloc_sep _ _ _ _ _ _ H Ha); rewrite E; set_solver). unfold sep in Hs. blia.
  - intros a n a' n' [_ Ha]%lookup_delete_Some [_ Ha']%lookup_delete_Some. by apply (ho_disj _ _ _ _ _ H).
  - intros c a n Hc Ha. rewrite Forall_forall in HF. by apply (HF c Hc).
  - pose proof (ho_units _ _ _ _ _ H) as Ht. rewrite (units_delete _ _ _ Hb) in Ht. rewrite Hu. lia.
Qed.

Lemma wp_free h fl al bp bn Q : heap_ok base start h fl al -> al !! bp = Some bn ->
  (forall h' fl', heap_ok base start h' fl' (delete bp al) -> u_sz h' = u_sz h ->
     (forall i, in_use fl i -> i < bp \/ bp + HDR <= i -> ldb (u_mem h') i = ldb (u_mem h) i) ->
     Exists (fun c => bn <= c.2) fl' -> (length fl' <= S (length fl))%nat -> Q tt h') ->
  wp (free (bp + HDR)) Q h.
Proof.
  intros H Hb HQ. destruct (place _ _ _ _ _ H Hb) as (TL & p & TR & Hpl).
  destruct (ho_alloc _ _ _ _ _ H _ _ Hb) as [Hin Hbn]. destruct (ho_base _ _ _ _ _ H) as [Hb0 Hbs].
  destruct (ho_size _ _ _ _ _ H) as [Hz1 Hz2].
  destruct (free_nodes _ _ _ _ _ _ _ _ H Hb Hpl) as (fl' & E' & Hs' & HF & Hu & Hex).
  destruct (placed_sep _ _ _ _ _ _ _ _ H Hb Hpl) as [Hsb Hsp]. apply Forall_app in Hsb as [HsbL [Hsbp HsbR]%Forall_cons].
  apply Forall_app in Hsp as [HspL HspJ]. destruct (placed_inside _ _ _ _ _ _ _ _ H Hb Hpl) as [HiR HiJ].
  pose proof Hpl as [E [Hlow Hlow'] Hhigh]. pose proof (ho_chain _ _ _ _ _ H) as Hc.
  pose proof (nodes_inside _ _ _ H) as Hni. rewrite E in Hni. apply Forall_app in Hni as [_ [Hp _]%Forall_cons].
  unfold free. replace (bp + HDR - HDR) with bp by lia. cbn zeta.
  wp_step. eapply wp_free_find; [exact H|exact E|blia|blia| |].
  { eapply Forall_impl; [exact Hhigh|]. intros c Hc'. blia. }
  rewrite E in Hc. apply chain_app in Hc as [HcL (Hcp & Hcn & HcR)]. unfold get_ptr.
  wp_step. apply wp_uload; [blia|blia|]. rewrite Hcp. wp_step.
  apply (wp_merge (bp, bn) TR); try done; try blia.
  intros m1 Hd1 Hc1. wp_step.
  pose proof (wp_merge p (joined (bp, bn) TR) base) as W. rewrite joined_first in W. apply W; cbn [set_u_mem u_mem u_sz]; try done; try blia.
  { rewrite (differ_ld bp (u_mem h)); [done|done|blia]. }
  { destruct (joined_cons (bp, bn) TR) as (? & ? & ->). done. }
  intros m2 Hd2 Hc2. wp_step.
  apply (HQ _ fl'); cbn [set_u_mem set_u_freep u_mem u_sz u_freep]; [|done| |done|].
  - by apply (freed_ok h fl al bp bn TL p TR fl' m1).
  - intros i Hi Hi'. rewrite Hd2, Hd1; [done|done|]. apply (in_use_node _ _ _ p i H); [|done]. rewrite E. set_solver.
  - apply (f_equal length) in E, E'. rewrite length_app in E, E'. cbn [nodes length] in E, E'.
    pose proof (joined_length p (joined (bp, bn) TR)). pose proof (joined_length (bp, bn) TR). lia.
Qed.

(** *** [malloc] *)

Lemma alloc_in_use h fl al a n i : heap_ok base start h fl al -> al !! a = Some n -> a <= i < a + HDR * n -> in_use fl i.
Proof.
  intros H Ha Hi. destruct (ho_alloc _ _ _ _ _ H _ _ Ha) as [Hin _]. destruct (ho_base _ _ _ _ _ H).
  split; [blia|]. apply Forall_forall. intros c Hc. pose proof (ho_apart _ _ _ _ _ H _ _ _ Hc Ha). blia.
Qed.

(** The block [cur] of the list becomes [mid], and its end a block in use. *)
Definition remains (cur : block) (nunits : Z) (mid : list block) : Prop :=
  mid = [] /\ cur.2 = nunits \/ mid = [(cur.1, cur.2 - nunits)] /\ nunits < cur.2.
Definition tail_of (cur : block) (nunits : Z) : Z := cur.1 + HDR * (cur.2 - nunits).

Lemma carved_alloc h al fl fl1 cur R nunits : heap_ok base start h fl al -> fl = fl1 ++ cur :: R -> 0 < nunits <= cur.2 ->
  inside start (u_sz h) (tail_of cur nunits, nunits) /\
  forall a n, al !! a = Some n -> disj (tail_of cur nunits, nunits) (a, n).
Proof.
  intros H -> Hn. pose proof (ho_free _ _ _ _ _ H) as HF. unfold tail_of.
  assert (inside start (u_sz h) cur) as Hcur by (rewrite Forall_forall in HF; apply HF; set_solver).
  split; [blia|]. intros a n Ha. assert (disj cur (a, n)) by (apply (ho_apart _ _ _ _ _ H); [set_solver|done]).
  destruct (ho_alloc _ _ _ _ _ H _ _ Ha). blia.
Qed.

Lemma carved_free h al fl fl1 cur R mid nunits : heap_ok base start h fl al -> fl = fl1 ++ cur :: R -> 0 < nunits ->
  remains cur nunits mid ->
  StronglySorted gap (fl1 ++ mid ++ R) /\
  (forall c, c ∈ fl1 ++ mid ++ R -> inside start (u_sz h) c /\ disj c (tail_of cur nunits, nunits) /\
    forall a n, al !! a = Some n -> disj c (a, n)) /\
  units (fl1 ++ mid ++ R) + nunits = units fl.
Proof.
  intros H -> Hn Hmid. pose proof (ho_free _ _ _ _ _ H) as HF. pose proof (ho_sorted _ _ _ _ _ H) as Hs.
  apply Forall_app in HF as [HF1 [HFc HFR]%Forall_cons].
  apply sorted_app in Hs as (Hs1 & [HsR HcR]%StronglySorted_inv & H1). unfold tail_of.
  assert (forall c, c ∈ mid -> c.1 = cur.1 /\ bend c = tail_of cur nunits /\ 0 < c.2) as Hm.
  { intros c Hc. destruct Hmid as [[-> _]|[-> Hlt]]; [by apply elem_of_nil in Hc|].
    apply list_elem_of_singleton in Hc as ->. unfold tail_of. blia. }
  unfold tail_of in Hm. rewrite Forall_forall in HF1, HFR, HcR. split_and!.
  - rewrite !sorted_app. split_and!; [done| |done| |].
    + destruct Hmid as [[-> _]|[-> _]]; repeat constructor.
    + intros b c Hb Hc. destruct (Hm b Hb). specialize (HcR c Hc). destruct Hmid as [[-> _]|[_ ?]]; [by apply elem_of_nil in Hb|blia].
    + intros b c Hb [Hc|Hc]%elem_of_app; [|apply H1; [done|by right]].
      assert (gap b cur) by (apply H1; [done|by left]). destruct (Hm c Hc). blia.
  - intros c Hc. assert (forall a n, al !! a = Some n -> disj cur (a, n)) as Hd.
    { intros a n Ha. apply (ho_apart _ _ _ _ _ H); [set_solver|done]. }
    rewrite !elem_of_app in Hc. destruct Hc as [Hc|[Hc|Hc]].
    + split; [auto|]. assert (gap c cur) by (apply H1; [done|by left]). split; [destruct Hmid as [[_ ?]|[_ ?]]; blia|].
      intros a n Ha. apply (ho_apart _ _ _ _ _ H); [set_solver|done].
    + destruct (Hm c Hc) as (E1 & E2 & E3). split_and!; [blia|blia|]. intros a n Ha. specialize (Hd a n Ha). blia.
    + split; [auto|]. specialize (HcR c Hc). split; [blia|].
      intros a n Ha. apply (ho_apart _ _ _ _ _ H); [set_solver|done].
  - rewrite !units_app. change (units (cur :: R)) with (cur.2 + units R).
    destruct Hmid as [[-> ?]|[-> ?]]; unfold units; cbn [foldr snd]; lia.
Qed.

Lemma carved_ok h fl al fl1 cur R mid nunits m' f :
  heap_ok base start h fl al -> fl = fl1 ++ cur :: R -> 0 < nunits <= cur.2 -> remains cur nunits mid ->
  chain m' (nodes base (fl1 ++ mid ++ R)) base -> ld m' (tail_of cur nunits + 4) = nunits ->
  f ∈ (nodes base fl1).*1 -> (forall i, in_use fl i -> ldb m' i = ldb (u_mem h) i) ->
  al !! tail_of cur nunits = None /\
  heap_ok base start (mk_heap m' (u_sz h) f) (fl1 ++ mid ++ R) (<[tail_of cur nunits := nunits]> al).
Proof.
  intros H E Hn Hmid Hc Ha Hf Hu. destruct (carved_alloc _ _ _ _ _ _ _ H E Hn) as [Hin Hdis].
  assert (0 < nunits) as Hn0 by lia. destruct (carved_free _ _ _ _ _ _ _ _ H E Hn0 Hmid) as (Hs & Hfree & Hun).
  assert (al !! tail_of cur nunits = None) as Hnone.
  { destruct (al !! tail_of cur nunits) as [n'|] eqn:E'; [|done]. specialize (Hdis _ _ E').
    destruct (ho_alloc _ _ _ _ _ H _ _ E'). blia. }
  split; [done|]. split; cbn [u_mem u_sz u_freep]; [apply H|apply H|done| |done| | | | |].
  - unfold nodes in *. cbn in *. rewrite fmap_app. set_solver.
  - apply Forall_forall. intros c Hc'. by apply Hfree.
  - intros a n [[<- <-]|[Hne Han]]%lookup_insert_Some; [done|].
    destruct (ho_alloc _ _ _ _ _ H _ _ Han) as [Hi Hn']. split; [done|].
    rewrite <-Hn'. apply ld_ext. intros i Hi'.
    apply Hu. apply (alloc_in_use _ _ _ a n _ H Han). blia.
  - intros a n a' n' [[<- <-]|[Hne Han]]%lookup_insert_Some [[<- <-]|[Hne' Han']]%lookup_insert_Some Hd; [done| | |].
    + by apply Hdis.
    + specialize (Hdis _ _ Han). blia.
    + by apply (ho_disj _ _ _ _ _ H).
  - intros c a n Hc'. destruct (Hfree c Hc') as (_ & Hd1 & Hd2).
    intros [[<- <-]|[Hne Han]]%lookup_insert_Some; [done|by apply Hd2].
  - rewrite units_insert by done. pose proof (ho_units _ _ _ _ _ H). lia.
Qed.

Lemma nodes_split fl L prev cur R : nodes base fl = L ++ prev :: cur :: R ->
  exists fl1, nodes base fl1 = L ++ [prev] /\ fl = fl1 ++ cur :: R.
Proof.
  unfold nodes. destruct L as [|x L]; intros [= <- ->]; [by exists []|].
  exists (L ++ [prev]). split; [done|]. by rewrite <-app_assoc.
Qed.

Lemma carve_exact h fl al L prev cur R :
  heap_ok base start h fl al -> nodes base fl = L ++ prev :: cur :: R ->
  let m' := st (u_mem h) prev.1 (first R base) in
  chain m' (L ++ prev :: R) base /\ ld m' (cur.1 + 4) = cur.2 /\
  forall i, in_use fl i -> ldb m' i = ldb (u_mem h) i.
Proof.
  intros H E m'. pose proof (ho_chain _ _ _ _ _ H) as Hc. rewrite E in Hc.
  destruct (nodes_sep _ _ _ _ _ _ H E) as [HsL [Hsc HsR]%Forall_cons].
  apply chain_app in Hc as [HcL (Hcp & Hcpn & Hcc & Hccn & HcR)].
  assert (differ_at prev.1 (u_mem h) m') as Hd by (apply differ_st; [done|lia]).
  split_and!.
  - apply chain_app. split; [|split_and!].
    + eapply hchain_frame; [exact Hd| |exact HcL]. eapply Forall_impl; [exact HsL|]. unfold sep. cbn. lia.
    + unfold m'. rewrite ld_st_eq. apply u32_small. rewrite <-Hcc. apply ld_range.
    + unfold m'. rewrite ld_st_ne by lia. done.
    + eapply hchain_frame; [exact Hd| |exact HcR]. eapply Forall_impl; [exact HsR|]. unfold sep. cbn. lia.
  - rewrite (differ_ld prev.1 (u_mem h)); [done|done|blia].
  - intros i Hi. apply Hd. apply (in_use_node _ _ _ prev i H); [rewrite E; set_solver|done].
Qed.

Lemma carve_split h fl al L prev cur R nunits :
  heap_ok base start h fl al -> nodes base fl = L ++ prev :: cur :: R -> 0 < nunits < cur.2 ->
  let t := tail_of cur nunits in
  let m' := st (st (u_mem h) (cur.1 + 4) (u32 (cur.2 - nunits))) (t + 4) nunits in
  chain m' (L ++ prev :: (cur.1, cur.2 - nunits) :: R) base /\ ld m' (t + 4) = nunits /\
  forall i, in_use fl i -> ldb m' i = ldb (u_mem h) i.
Proof.
  intros H E Hn t m'. pose proof (ho_chain _ _ _ _ _ H) as Hc. destruct (ho_size _ _ _ _ _ H) as [_ Hz].
  assert (cur ∈ nodes base fl) as Hcin by (rewrite E; set_solver).
  assert (cur ∈ fl) as Hcf. { apply elem_of_cons in Hcin as [->|?]; [cbn in Hn; lia|done]. }
  pose proof (ho_free _ _ _ _ _ H) as HF. rewrite Forall_forall in HF. specialize (HF cur Hcf).
  destruct (ho_base _ _ _ _ _ H).
  rewrite E in Hc. change (L ++ prev :: cur :: R) with (L ++ [prev] ++ cur :: R) in E, Hc.
  change (L ++ prev :: (cur.1, cur.2 - nunits) :: R) with (L ++ [prev] ++ (cur.1, cur.2 - nunits) :: R).
  rewrite app_assoc in E, Hc |- *. destruct (nodes_sep _ _ _ _ _ _ H E) as [HsL HsR].
  pose proof (nodes_sorted _ _ _ H) as Hs. rewrite E in Hs. apply sorted_app in Hs as (_ & [_ HgR]%StronglySorted_inv & _).
  apply chain_app in Hc as [HcL (Hcc & Hccn & HcR)].
  assert (differ_at cur.1 (u_mem h) (st (u_mem h) (cur.1 + 4) (u32 (cur.2 - nunits)))) as Hd1 by (apply differ_st; [done|lia]).
  assert (differ_at t (st (u_mem h) (cur.1 + 4) (u32 (cur.2 - nunits))) m') as Hd2 by (apply differ_st; [done|lia]).
  assert (cur.1 + HDR <= t /\ t + HDR <= bend cur) as Ht by (unfold t, tail_of; blia).
  split_and!.
  - apply chain_app. split; [|split_and!].
    + eapply hchain_frame; [exact Hd2| |eapply hchain_frame; [exact Hd1| |exact HcL]];
        (eapply Forall_impl; [exact HsL|]); intros c; unfold sep; blia.
    + cbn [fst]. rewrite (differ_ld t _ m' _ Hd2), ld_st_ne by blia. done.
    + cbn [fst snd]. rewrite (differ_ld t _ m' _ Hd2), ld_st_eq, u32_idem, u32_small by blia. done.
    + eapply hchain_frame; [exact Hd2| |eapply hchain_frame; [exact Hd1| |exact HcR]];
        (eapply Forall_impl; [exact HgR|]); intros c; unfold sep; blia.
  - unfold m'. rewrite ld_st_eq. apply u32_small. blia.
  - intros i [_ Hi]. rewrite Forall_forall in Hi. specialize (Hi cur Hcf). rewrite Hd2, Hd1 by blia. done.
Qed.

Lemma wp_carve h fl al L prev cur R nunits Q :
  heap_ok base start h fl al -> nodes base fl = L ++ prev :: cur :: R -> 0 < nunits <= cur.2 ->
  (forall h' fl' a, al !! a = None -> heap_ok base start h' fl' (<[a := nunits]> al) -> u_sz h' = u_sz h ->
     (forall i, in_use fl i -> ldb (u_mem h') i = ldb (u_mem h) i) -> Q (a + HDR) h') ->
  wp (carve prev.1 cur.1 nunits) Q h.
Proof.
  intros H E Hn HQ. destruct (nodes_split _ _ _ _ _ E) as (fl1 & E1 & Efl).
  destruct (ho_size _ _ _ _ _ H) as [_ Hz]. destruct (ho_base _ _ _ _ _ H).
  pose proof (ho_chain _ _ _ _ _ H) as Hc. pose proof (nodes_inside _ _ _ H) as Hni. rewrite E in Hc, Hni.
  apply Forall_app in Hni as [_ [Hp [Hcur _]%Forall_cons]%Forall_cons].
  apply chain_app in Hc as [_ (_ & _ & Hcc & Hccn & _)].
  unfold carve, get_size, set_size, get_ptr, set_ptr. wp_step. apply wp_uload; [blia|blia|]. rewrite Hccn.
  assert (prev.1 ∈ (nodes base fl1).*1) as Hprev by (rewrite E1, fmap_app; set_solver).
  assert (forall mid, nodes base (fl1 ++ mid ++ R) = L ++ prev :: mid ++ R) as Hmid.
  { intros mid. unfold nodes. rewrite app_comm_cons. fold (nodes base fl1). by rewrite E1, <-app_assoc. }
  destruct (Z.eqb_spec cur.2 nunits) as [En|En]; wp_step.
  - wp_step. apply wp_uload; [blia|blia|]. rewrite Hcc. wp_step. apply wp_ustore; [blia|blia|]. wp_steps.
    assert (tail_of cur nunits = cur.1) as Et by (unfold tail_of; blia).
    destruct (carve_exact _ _ _ _ _ _ _ H E) as (Hc' & Hl' & Hu').
    destruct (carved_ok h fl al fl1 cur R [] nunits (st (u_mem h) prev.1 (first R base)) prev.1) as [Ha Hok];
      try done; [by left|by rewrite Hmid|by rewrite Et, Hl'|].
    rewrite Et in *. by apply (HQ _ (fl1 ++ R) cur.1).
  - wp_step. apply wp_ustore; [blia|blia|]. cbn [set_u_mem u_mem u_sz]. unfold hdr_add.
    rewrite (u32_small (cur.1 + _)) by blia. fold (tail_of cur nunits). assert (tail_of cur nunits + HDR <= bend cur) as Ht by (unfold tail_of; blia).
    assert (cur.1 <= tail_of cur nunits) by (unfold tail_of; blia).
    wp_step. apply wp_ustore; cbn [set_u_mem u_mem u_sz]; [blia|blia|]. wp_steps. cbn [set_u_mem set_u_freep u_mem u_sz].
    destruct (carve_split _ _ _ _ _ _ _ nunits H E) as (Hc' & Hl' & Hu'); [lia|].
    destruct (carved_ok h fl al fl1 cur R [(cur.1, cur.2 - nunits)] nunits
      (st (st (u_mem h) (cur.1 + 4) (u32 (cur.2 - nunits))) (tail_of cur nunits + 4) nunits) prev.1) as [Ha Hok];
      try done; [right; split; [done|lia]|by rewrite Hmid|].
    by apply (HQ _ (fl1 ++ [(cur.1, cur.2 - nunits)] ++ R) (tail_of cur nunits)).
Qed.

Lemma wp_scan_skip room nunits fl al h c prevp l1 l2 fuel Q :
  heap_ok base start h fl al -> nodes base fl = l1 ++ c :: l2 -> c.2 < nunits -> c.1 <> u_freep h ->
  wp (while_ fuel (malloc_step room nunits) (c.1, first l2 base)) Q h ->
  wp (while_ (S fuel) (malloc_step room nunits) (prevp, c.1)) Q h.
Proof.
  intros H E Hlt Hf HQ. pose proof (ho_chain _ _ _ _ _ H) as Hc. pose proof (nodes_inside _ _ _ H) as Hni. rewrite E in Hc, Hni.
  destruct (ho_base _ _ _ _ _ H). apply Forall_app in Hni as [_ [Hcin _]%Forall_cons].
  apply chain_app in Hc as [_ (Hcc & Hccn & _)].
  apply wp_while_S. unfold malloc_step, get_size, get_ptr. wp_step. apply wp_uload; [blia|blia|]. rewrite Hccn.
  rewrite (proj2 (Z.leb_gt _ _)) by done. wp_steps. rewrite (proj2 (Z.eqb_neq _ _)) by done.
  wp_step. apply wp_uload; [blia|blia|]. by rewrite Hcc.
Qed.

(** The search passes over blocks that are too small. *)
Lemma wp_scan_walk room nunits fl al h B : forall L x R fuel Q,
  heap_ok base start h fl al -> nodes base fl = L ++ x :: B ++ R -> u_freep h ∉ B.*1 ->
  (forall L' prev cur R', nodes base fl = L' ++ prev :: cur :: R' -> nunits <= cur.2 ->
     wp (carve prev.1 cur.1 nunits) (fun r => Q r) h) ->
  (forall y L', nodes base fl = L' ++ y :: R -> Forall (fun c => c.2 < nunits) B ->
     wp (while_ fuel (malloc_step room nunits) (y.1, first R base)) Q h) ->
  wp (while_ (length B + fuel) (malloc_step room nunits) (x.1, first (B ++ R) base)) Q h.
Proof.
  induction B as [|c B IH]; intros L x R fuel Q H E Hf Hfit Hend; [by apply (Hend x L)|].
  assert (E' : nodes base fl = (L ++ [x]) ++ c :: (B ++ R)) by (rewrite <-app_assoc; exact E).
  cbn [length Nat.add app first]. destruct (decide (nunits <= c.2)) as [Hle|Hlt].
  - pose proof (ho_chain _ _ _ _ _ H) as Hc. pose proof (nodes_inside _ _ _ H) as Hni. rewrite E' in Hc, Hni.
    destruct (ho_base _ _ _ _ _ H). apply Forall_app in Hni as [_ [Hcin _]%Forall_cons].
    apply chain_app in Hc as [_ (_ & Hccn & _)]. apply wp_while_S. unfold malloc_step, get_size.
    wp_step. apply wp_uload; [blia|blia|]. rewrite Hccn, (proj2 (Z.leb_le _ _)) by done.
    wp_step. eapply wp_mono; [by apply (Hfit L x c (B ++ R))|]. done.
  - apply (wp_scan_skip room nunits fl al h c _ _ _ _ _ H E'); [lia|set_solver|].
    apply (IH (L ++ [x]) c R); [done|by rewrite <-app_assoc|set_solver|done|].
    intros y L' Ey HB. apply (Hend y L' Ey). constructor; [lia|done].
Qed.

(** What [malloc_step] does at the last block, where the search started. *)
Definition at_freep (room : Z -> Z -> bool) (nunits : Z) (fuel : nat) : U Z :=
  p ← morecore room nunits;
  if p =? 0 then mret 0
  else q ← get_ptr p; while_ fuel (malloc_step room nunits) (p, q).

Lemma wp_scan_last room nunits fl al h f prevp l1 l2 fuel Q :
  heap_ok base start h fl al -> nodes base fl = l1 ++ f :: l2 -> u_freep h = f.1 -> f.2 < nunits ->
  wp (at_freep room nunits fuel) Q h ->
  wp (while_ (S fuel) (malloc_step room nunits) (prevp, f.1)) Q h.
Proof.
  intros H E Hf Hn HQ. pose proof (ho_chain _ _ _ _ _ H) as Hc. pose proof (nodes_inside _ _ _ H) as Hni. rewrite E in Hc, Hni.
  destruct (ho_base _ _ _ _ _ H). apply Forall_app in Hni as [_ [Hfin _]%Forall_cons].
  apply chain_app in Hc as [_ (_ & Hfn & _)].
  apply wp_while_S. unfold malloc_step, get_size. wp_step. apply wp_uload; [blia|blia|]. rewrite Hfn.
  rewrite (proj2 (Z.leb_gt _ _)) by done. wp_steps. rewrite Hf, Z.eqb_refl.
  unfold at_freep in HQ. apply wp_bind_inv in HQ. wp_step. eapply wp_mono; [exact HQ|]. cbn beta.
  intros p h'. destruct (p =? 0); [done|]. intros Hq. apply wp_bind_inv in Hq. wp_step. eapply wp_mono; [exact Hq|]. done.
Qed.

Lemma sorted_nodup h fl al : heap_ok base start h fl al -> NoDup (nodes base fl).*1.
Proof.
  intros H. induction (nodes_below _ _ _ H) as [|b l Hl IH Hb]; cbn; constructor; [|done].
  rewrite list_elem_of_fmap. intros (c & Ec & Hc). rewrite Forall_forall in Hb. specialize (Hb c Hc). unfold below in Hb. lia.
Qed.

Lemma wp_search room nunits fl al h fuel Q :
  heap_ok base start h fl al -> 0 < nunits ->
  (forall L prev cur R, nodes base fl = L ++ prev :: cur :: R -> nunits <= cur.2 ->
     wp (carve prev.1 cur.1 nunits) (fun r => Q r) h) ->
  (Forall (fun c => c.2 < nunits) fl -> wp (at_freep room nunits fuel) Q h) ->
  wp (q ← get_ptr (u_freep h); while_ (length (nodes base fl) + fuel) (malloc_step room nunits) (u_freep h, q)) Q h.
Proof.
  intros H Hn Hfit Hno. pose proof (ho_freep _ _ _ _ _ H) as Hf. apply list_elem_of_fmap in Hf as (f & Hf & Hfn).
  apply list_elem_of_split in Hfn as (A & B & E). pose proof (ho_chain _ _ _ _ _ H) as Hc.
  pose proof (nodes_inside _ _ _ H) as Hni. rewrite E in Hc, Hni.
  destruct (ho_base _ _ _ _ _ H). apply Forall_app in Hni as [_ [Hfin _]%Forall_cons].
  pose proof (sorted_nodup _ _ _ H) as Hnd. rewrite E, fmap_app in Hnd. cbn in Hnd.
  apply chain_app in Hc as [HcA (Hcf & Hcfn & HcB)]. unfold get_ptr.
  wp_step. apply wp_uload; [blia|blia|]. rewrite Hf, Hcf.
  assert (length (nodes base fl) + fuel = length B + (length A + S fuel))%nat as -> by (rewrite E, length_app; cbn; lia).
  rewrite <-(app_nil_r B) at 2. apply NoDup_app in Hnd as (HndA & HdA & [HfB HndB]%NoDup_cons).
  apply (wp_scan_walk room nunits fl al h B A f); [done|by rewrite app_nil_r|by rewrite Hf|done|].
  intros y L' Ey HB. cbn [first].
  assert (Forall (fun c => c.2 < nunits) (A ++ [f]) -> wp (at_freep room nunits fuel) Q h) as Hno'.
  { intros HA. apply Hno. assert (Forall (fun c => c.2 < nunits) (nodes base fl)) as Hall.
    { rewrite E. change (f :: B) with ([f] ++ B). rewrite app_assoc. by apply Forall_app. }
    by inversion_clear Hall. }
  destruct A as [|a A].
  - unfold nodes in E. injection E as E1 E2. cbn [length Nat.add]. apply (wp_scan_last room nunits fl al h (base, 0) _ [] fl); try done.
    + by rewrite Hf, <-E1.
    + apply Hno'. rewrite <-E1. by repeat constructor.
  - pose proof E as E0. unfold nodes in E. injection E as <- E2. cbn [length Nat.add].
    apply (wp_scan_skip room nunits fl al h (base, 0) y.1 [] (A ++ f :: B)); [done|done|done| |].
    { cbn. rewrite Hf. intros Ef. rewrite Ef in HdA. apply (HdA base); set_solver. }
    apply (wp_scan_walk room nunits fl al h A [] (base, 0) (f :: B)); [done|done| |done|].
    { rewrite Hf. intros HfA. apply (HdA f.1); set_solver. }
    intros y' L'' Ey' HA. cbn [first]. destruct (decide (nunits <= f.2)) as [Hle|Hlt].
    + apply wp_while_S. unfold malloc_step, get_size. wp_step. apply wp_uload; [blia|blia|].
      rewrite Hcfn, (proj2 (Z.leb_le _ _)) by done. wp_step. eapply wp_mono; [by apply (Hfit L'' y' f B)|]. done.
    + apply (wp_scan_last room nunits fl al h f _ ((base, 0) :: A) B); [done|done|done|lia|].
      apply Hno'. constructor; [done|]. apply Forall_app. split; [done|]. repeat constructor. lia.
Qed.

Lemma wp_sbrk room n Q h : 0 < n < 2147483648 -> 0 < u_sz h <= KERNBASE ->
  (KERNBASE <= u_sz h + n \/ room (u_sz h) (u_sz h + n) = false -> Q (-1) h) ->
  (u_sz h + n < KERNBASE -> Q (u_sz h) (set_u_sz (u_sz h + n) h)) -> wp (sbrk room n) Q h.
Proof.
  intros Hn Hz Hfail Hok. unfold sbrk. wp_steps. cbn zeta. unfold KERNBASE in *.
  rewrite (proj2 (Z.ltb_lt 0 n)) by lia. rewrite (u32_small (u_sz h + n)) by (unfold two32; lia).
  rewrite (proj2 (Z.ltb_ge (u_sz h + n) _)) by lia. rewrite (proj2 (Z.eqb_neq n 0)) by lia. cbn [negb andb].
  destruct (Z.leb_spec 0x80000000 (u_sz h + n)); [by apply Hfail; left|].
  destruct (room _ _) eqn:Er; [|by apply Hfail; right].
  rewrite (proj2 (Z.eqb_neq _ 0)) by lia. wp_steps. by apply Hok.
Qed.

(** The memory from [sbrk] is a block in use until it is freed. *)
Lemma grown_ok h fl al nu : heap_ok base start h fl al -> 0 < nu -> u_sz h + HDR * nu <= KERNBASE ->
  al !! u_sz h = None /\
  heap_ok base start (mk_heap (st (u_mem h) (u_sz h + 4) nu) (u_sz h + HDR * nu) (u_freep h)) fl (<[u_sz h := nu]> al).
Proof.
  intros H Hnu Hz. assert (forall a n, al !! a = Some n -> inside start (u_sz h) (a, n)) as Hal by (intros; by apply (ho_alloc _ _ _ _ _ H)).
  assert (al !! u_sz h = None) as Hnone.
  { destruct (al !! u_sz h) eqn:E; [|done]. specialize (Hal _ _ E). blia. }
  assert (differ_at (u_sz h) (u_mem h) (st (u_mem h) (u_sz h + 4) nu)) as Hd by (apply differ_st; [done|lia]).
  pose proof (ho_free _ _ _ _ _ H) as HF. pose proof (nodes_inside _ _ _ H) as Hni.
  destruct (ho_size _ _ _ _ _ H), (ho_base _ _ _ _ _ H). split; [done|].
  split; cbn [u_mem u_sz u_freep]; [apply H|blia| |apply H|apply H| | | | |].
  - eapply hchain_frame; [exact Hd| |apply (ho_chain _ _ _ _ _ H)]. eapply Forall_impl; [exact Hni|]. intros c Hc. unfold sep. blia.
  - eapply Forall_impl; [exact HF|]. intros c Hc. blia.
  - intros a n [[<- <-]|[Hne Ha]]%lookup_insert_Some; [split; [blia|rewrite ld_st_eq; apply u32_small; blia]|].
    specialize (Hal _ _ Ha). split; [blia|]. rewrite (differ_ld (u_sz h) (u_mem h)); [by apply (ho_alloc _ _ _ _ _ H)|done|blia].
  - intros a n a' n' [[<- <-]|[Hne Ha]]%lookup_insert_Some [[<- <-]|[Hne' Ha']]%lookup_insert_Some Haa; [done| | |].
    + specialize (Hal _ _ Ha'). blia.
    + specialize (Hal _ _ Ha). blia.
    + by apply (ho_disj _ _ _ _ _ H).
  - intros c a n Hc [[<- <-]|[Hne Ha]]%lookup_insert_Some; [|by apply (ho_apart _ _ _ _ _ H)].
    rewrite Forall_forall in HF. specialize (HF c Hc). blia.
  - rewrite units_insert by done. pose proof (ho_units _ _ _ _ _ H). blia.
Qed.

(** [sbrk] refuses the memory that [morecore] asks for. *)
Definition refused (room : Z -> Z -> bool) (nu : Z) h : Prop :=
  let newsz := u_sz h + HDR * Z.max nu 4096 in KERNBASE <= newsz \/ room (u_sz h) newsz = false.

Lemma wp_morecore room nu Q h fl al : heap_ok base start h fl al -> 0 < nu < 268435456 -> (refused room nu h -> Q 0 h) ->
  (forall h' fl', heap_ok base start h' fl' al -> u_sz h <= u_sz h' ->
     (forall i, in_use fl i -> i < u_sz h -> ldb (u_mem h') i = ldb (u_mem h) i) ->
     Exists (fun c => nu <= c.2) fl' -> (length fl' <= S (length fl))%nat -> Q (u_freep h') h') ->
  wp (morecore room nu) Q h.
Proof.
  intros H Hnu Hfail Hok. unfold morecore. set (nu' := if nu <? 4096 then 4096 else nu).
  assert (nu' = Z.max nu 4096) as Enu by (unfold nu'; destruct (Z.ltb_spec nu 4096); lia).
  destruct (ho_size _ _ _ _ _ H) as [Hz1 Hz2]. destruct (ho_base _ _ _ _ _ H). cbn zeta.
  wp_step. rewrite s32_small by blia. apply wp_sbrk; [blia|blia| |].
  { intros Hr. rewrite Z.eqb_refl. apply Hfail. unfold refused. by rewrite <-Enu, Z.mul_comm. }
  intros Hroom.
  rewrite (proj2 (Z.eqb_neq _ _)) by blia. unfold set_size. wp_step. apply wp_ustore; cbn [set_u_sz u_sz u_mem]; [blia|blia|].
  destruct (grown_ok h fl al nu') as [Hnone Hg]; [done|lia|blia|].
  wp_step. unfold set_u_mem, set_u_sz. cbn [u_mem u_sz u_freep]. rewrite (Z.mul_comm nu' HDR).
  eapply wp_free; [exact Hg|apply lookup_insert_eq|]. intros h' fl' Hok' Hsz' Hfr Hex Hlen. wp_step.
  rewrite delete_insert_id in Hok' by done. cbn [u_sz u_mem] in *.
  apply (Hok h' fl'); [done|blia| | |done].
  - intros i Hi Hlt. rewrite Hfr by (done || lia). apply ldb_st_ne. lia.
  - eapply Exists_impl; [exact Hex|]. intros c Hc. cbn in *. lia.
Qed.

(** The units that [malloc] takes for [n] bytes, without overflow. *)
Definition units_for (n : Z) : Z := (n + HDR - 1) / HDR + 1.
(** Larger requests overflow the [int] that [sbrk] takes. *)
Definition malloc_max : Z := 0x7FFFFFE8.

Lemma units_for_range n : 0 <= n <= malloc_max -> 0 < units_for n < 268435456 /\ n <= HDR * (units_for n - 1).
Proof. unfold units_for, malloc_max, HDR. zdiv. Qed.

(** The blocks in use have the same bytes. *)
Definition kept al (m m' : mem) : Prop :=
  forall a n i, al !! a = Some n -> a <= i < a + HDR * n -> ldb m' i = ldb m i.

Lemma in_use_kept h fl al m' : heap_ok base start h fl al ->
  (forall i, in_use fl i -> i < u_sz h -> ldb m' i = ldb (u_mem h) i) -> kept al (u_mem h) m'.
Proof.
  intros H Hu a n i Ha Hi. apply Hu; [by eapply alloc_in_use|].
  destruct (ho_alloc _ _ _ _ _ H _ _ Ha) as [Hin _]. blia.
Qed.

Lemma freep_pos h fl al : heap_ok base start h fl al -> 0 < u_freep h.
Proof.
  intros H. pose proof (ho_freep _ _ _ _ _ H) as Hf. apply list_elem_of_fmap in Hf as (f & -> & Hf).
  pose proof (nodes_inside _ _ _ H) as Hni. rewrite Forall_forall in Hni. specialize (Hni f Hf).
  destruct (ho_base _ _ _ _ _ H). lia.
Qed.

(** What a successful [malloc] leaves. *)
Definition allocated h fl al (nunits r : Z) h' : Prop :=
  exists fl' a, r = a + HDR /\ al !! a = None /\ heap_ok base start h' fl' (<[a := nunits]> al) /\
    u_sz h <= u_sz h' /\ kept al (u_mem h) (u_mem h') /\
    (Exists (fun c => nunits <= c.2) fl -> u_sz h' = u_sz h).

Lemma wp_malloc_loop room nunits fl al h (Q : Z -> heap -> Prop) :
  heap_ok base start h fl al -> 0 < nunits < 268435456 ->
  (Forall (fun c => c.2 < nunits) fl -> refused room nunits h -> Q 0 h) ->
  (forall r h', allocated h fl al nunits r h' -> Q r h') ->
  wp (q ← get_ptr (u_freep h); while_ (2 * list_fuel h + 4) (malloc_step room nunits) (u_freep h, q)) Q h.
Proof.
  intros H Hn Hfail Hok. pose proof (nodes_fuel _ _ _ H) as Hfuel.
  assert (forall h1 fl1, heap_ok base start h1 fl1 al -> u_sz h <= u_sz h1 -> kept al (u_mem h) (u_mem h1) ->
    (Exists (fun c => nunits <= c.2) fl -> u_sz h1 = u_sz h) ->
    forall L prev cur R, nodes base fl1 = L ++ prev :: cur :: R -> nunits <= cur.2 ->
    wp (carve prev.1 cur.1 nunits) (fun r => Q r) h1) as Hcarve.
  { intros h1 fl1 H1 Hsz Hk Hsame L prev cur R E Hle. eapply wp_carve; [exact H1|exact E|lia|].
    intros h' fl' a Ha H' Hsz' Hu. apply Hok. exists fl', a. split_and!; [done|done|done|lia| |].
    - intros a' n' i Ha' Hi. rewrite <-(Hk a' n' i Ha' Hi). by eapply Hu, alloc_in_use.
    - intros Hex. rewrite Hsz'. by apply Hsame. }
  replace (2 * list_fuel h + 4)%nat with (length (nodes base fl) + (2 * list_fuel h + 4 - S (length fl)))%nat by (cbn; lia).
  eapply wp_search; [exact H|lia|by apply (Hcarve h fl)|]. intros Hsmall. specialize (Hfail Hsmall).
  unfold at_freep. wp_step. eapply wp_morecore; [exact H|done|by rewrite Z.eqb_refl; apply Hfail|].
  intros h1 fl1 H1 Hsz1 Hu1 Hex Hlen. pose proof (freep_pos _ _ _ H1). rewrite (proj2 (Z.eqb_neq _ _)) by lia.
  replace (2 * list_fuel h + 4 - S (length fl))%nat
    with (length (nodes base fl1) + (2 * list_fuel h + 4 - S (length fl) - S (length fl1)))%nat by (cbn; lia).
  eapply wp_search; [exact H1|lia| |].
  - apply (Hcarve h1 fl1); [done|done|by eapply in_use_kept|]. intros Hbad. exfalso.
    apply Exists_exists in Hbad as (c & Hc & Hge). rewrite Forall_forall in Hsmall. specialize (Hsmall c Hc). cbn in *. lia.
  - intros Hno. apply Exists_exists in Hex as (c & Hc & Hge). rewrite Forall_forall in Hno. specialize (Hno c Hc).
    cbn in *. lia.
Qed.

(** The state before the first call of [malloc]. *)
Definition fresh h : Prop := u_freep h = 0 /\ 0 < base /\ base + HDR <= start /\ u_sz h = start /\ start <= KERNBASE.
Definition heap_inv h fl al : Prop := heap_ok base start h fl al \/ fresh h /\ fl = [] /\ al = ∅.

Lemma fresh_ok h : fresh h -> heap_ok base start (mk_heap (st (st (u_mem h) base base) (base + 4) 0) (u_sz h) base) [] ∅.
Proof.
  intros (Hf & Hb & Hs & Hz & Hk). split; cbn [u_mem u_sz u_freep]; [done|lia| |set_solver|constructor|done|done|done|done|].
  - cbn. rewrite ld_st_ne, !ld_st_eq by lia. rewrite u32_small by blia. done.
  - rewrite map_to_list_empty. cbn. lia.
Qed.

Lemma wp_malloc room nbytes fl al h (Q : Z -> heap -> Prop) :
  heap_inv h fl al -> 0 <= nbytes <= malloc_max ->
  (forall h', heap_ok base start h' fl al -> Forall (fun c => c.2 < units_for nbytes) fl -> u_sz h' = u_sz h ->
     kept al (u_mem h) (u_mem h') -> refused room (units_for nbytes) h -> Q 0 h') ->
  (forall r h', allocated h fl al (units_for nbytes) r h' -> Q r h') ->
  wp (malloc base room nbytes) Q h.
Proof.
  intros Hinv Hn Hfail Hok. destruct (units_for_range _ Hn) as [Hu _]. unfold malloc.
  assert (u32 (u32 (nbytes + HDR - 1) / HDR + 1) = units_for nbytes) as ->.
  { unfold malloc_max in Hn. rewrite (u32_small (nbytes + HDR - 1)) by blia. apply u32_small. fold (units_for nbytes). blia. }
  wp_steps; bool_prop; destruct Hinv as [Hh|(Hf & -> & ->)].
  - pose proof (freep_pos _ _ _ Hh). lia.
  - pose proof (fresh_ok _ Hf) as Hh. destruct Hf as (Hf & Hb & Hs & Hz & Hk). unfold set_ptr, set_size.
    apply wp_ustore; [blia|blia|]. wp_step. wp_step. apply wp_ustore; cbn [set_u_freep set_u_mem u_mem u_sz]; [blia|blia|].
    wp_step. wp_step. unfold set_u_mem, set_u_freep. cbn [u_mem u_sz u_freep].
    eapply (wp_malloc_loop room _ [] ∅); [exact Hh|done| |].
    + intros ??. by apply Hfail.
    + intros r h' (fl' & a & ? & ? & ? & ? & _ & ?). apply Hok. by exists fl', a.
  - apply (wp_bind_inv (get_ptr (u_freep h))). eapply wp_malloc_loop; [exact Hh|done| |done]. intros ??. by apply Hfail.
  - destruct Hf as (Hf & _). lia.
Qed.
End heap_lemmas.

(** ** What a program sees *)

(** The arrays that the program has allocated: the pointer [malloc] returned
    and the bytes there. *)
Definition arrays (base start : Z) (h : heap) (fl : list block) (live : gmap Z (list Z)) : Prop :=
  exists al, heap_inv base start h fl al /\
  (forall p d, live !! p = Some d -> exists n, al !! (p - HDR) = Some n /\ Z.of_nat (length d) <= HDR * (n - 1) /\
     forall i v, d !! i = Some v -> ldb (u_mem h) (p + Z.of_nat i) = v) /\
  (forall a, is_Some (al !! a) -> is_Some (live !! (a + HDR))).

Section client.
Context (base start : Z) (room : Z -> Z -> bool).
Implicit Types (h : heap) (live : gmap Z (list Z)) (fl : list block).

(** The bytes of an array survive a change that keeps the blocks in use. *)
Lemma array_kept (al : gmap Z Z) m m' (p n : Z) (d : list Z) :
  al !! (p - HDR) = Some n -> Z.of_nat (length d) <= HDR * (n - 1) -> kept al m m' ->
  (forall i v, d !! i = Some v -> ldb m (p + Z.of_nat i) = v) ->
  forall i v, d !! i = Some v -> ldb m' (p + Z.of_nat i) = v.
Proof.
  intros Ha Hn Hk Hl i v Hi. rewrite (Hk _ _ _ Ha); [by apply Hl|]. apply lookup_lt_Some in Hi. blia.
Qed.

Lemma arrays_malloc h fl live n Q : arrays base start h fl live -> 0 <= n <= malloc_max ->
  (forall h', arrays base start h' fl live -> Forall (fun c => c.2 < units_for n) fl -> u_sz h' = u_sz h ->
     refused room (units_for n) h -> Q 0 h') ->
  (forall r h' fl' d, arrays base start h' fl' (<[r := d]> live) -> Z.of_nat (length d) = n -> live !! r = None ->
     start < r -> r + n <= u_sz h' -> (Exists (fun c => units_for n <= c.2) fl -> u_sz h' = u_sz h) -> Q r h') ->
  wp (malloc base room n) Q h.
Proof.
  intros (al & Hinv & Hlive & Hdom) Hn Hfail Hok. destruct (units_for_range n Hn) as [_ Hfit].
  eapply wp_malloc; [exact Hinv|done| |].
  - intros h' H' Hsmall Hsz Hk Href. apply Hfail; [|done|done|done]. exists al. split; [by left|]. split; [|done].
    intros p d Hp. destruct (Hlive p d Hp) as (k & Ha & Hlen & Hl). exists k. split_and!; [done|done|]. by eapply array_kept.
  - intros r h' (fl' & a & -> & Hnone & H' & Hsz & Hk & Hsame).
    assert (live !! (a + HDR) = None) as Hfresh.
    { destruct (live !! (a + HDR)) as [d|] eqn:E; [|done]. destruct (Hlive _ _ E) as (k & Hk' & _).
      replace (a + HDR - HDR) with a in Hk' by lia. congruence. }
    destruct (ho_alloc _ _ _ _ _ H' a (units_for n)) as [Hin _]; [apply lookup_insert_eq|].
    apply (Hok _ _ fl' ((fun i => ldb (u_mem h') (a + HDR + i)) <$> seqZ 0 n)); [|rewrite length_fmap, length_seqZ; lia|done|blia|blia|done].
    exists (<[a := units_for n]> al). split; [by left|]. split.
    + intros p d [[<- <-]|[Hne Hp]]%lookup_insert_Some.
      * exists (units_for n). replace (a + HDR - HDR) with a by lia. split; [apply lookup_insert_eq|].
        split; [rewrite length_fmap, length_seqZ; lia|]. intros i v Hi.
        rewrite list_lookup_fmap in Hi. apply fmap_Some in Hi as (j & Hj & ->). by apply lookup_seqZ in Hj as [-> _].
      * destruct (Hlive p d Hp) as (k & Ha & Hlen & Hl). exists k. rewrite lookup_insert_ne by lia.
        split_and!; [done|done|]. by eapply array_kept.
    + intros a' [k Hk']. apply lookup_insert_Some in Hk' as [[<- _]|[Hne Hk']]; [rewrite lookup_insert_eq; by eexists|].
      rewrite lookup_insert_ne by lia. apply Hdom. by eexists.
Qed.

Lemma arrays_free h fl live p d Q : arrays base start h fl live -> live !! p = Some d ->
  (forall h' fl', arrays base start h' fl' (delete p live) -> u_sz h' = u_sz h -> Q tt h') -> wp (free p) Q h.
Proof.
  intros (al & [H|(_ & _ & ->)] & Hlive & Hdom) Hp HQ; destruct (Hlive p d Hp) as (n & Ha & _); [|done].
  replace p with (p - HDR + HDR) at 1 by lia. eapply wp_free; [exact H|exact Ha|].
  intros h' fl' H' Hsz Hu _ _. apply (HQ _ fl'); [|done]. exists (delete (p - HDR) al). split; [by left|].
  assert (kept (delete (p - HDR) al) (u_mem h) (u_mem h')) as Hk.
  { intros a k i [Hne Hak]%lookup_delete_Some Hi. apply Hu; [by eapply alloc_in_use|].
    pose proof (ho_disj _ _ _ _ _ H _ _ _ _ Ha Hak ltac:(done)).
    destruct (ho_alloc _ _ _ _ _ H _ _ Ha) as [Hin _]. blia. }
  split.
  - intros q d' [Hne Hq]%lookup_delete_Some. destruct (Hlive q d' Hq) as (k & Hak & Hlen & Hl).
    assert (delete (p - HDR) al !! (q - HDR) = Some k) as Hd by (rewrite lookup_delete_ne by lia; done).
    exists k. split_and!; [done|done|]. by eapply array_kept.
  - intros a [k Hk']. apply lookup_delete_Some in Hk' as [Hne Hk']. rewrite lookup_delete_ne by lia. apply Hdom. by eexists.
Qed.

Lemma chain_ext m m' l e : (forall c i, c ∈ l -> 0 <= i < HDR -> ldb m' (c.1 + i) = ldb m (c.1 + i)) -> chain m l e -> chain m' l e.
Proof.
  induction l as [|b l IH]; [done|]. intros Hm (H1 & H2 & H3). cbn [chain].
  assert (forall k, 0 <= k <= 4 -> ld m' (b.1 + k) = ld m (b.1 + k)) as Hb.
  { intros k Hk. apply ld_ext. intros i Hi. rewrite <-Z.add_assoc. apply Hm; [by left|blia]. }
  rewrite <-(Z.add_0_r b.1) at 1. rewrite !Hb, Z.add_0_r by lia.
  split_and!; [done|done|]. apply IH; [|done]. intros c i Hc. apply Hm. by right.
Qed.

(** Writing inside a block in use. *)
Lemma payload_ok h fl (al : gmap Z Z) (b n : Z) (m' : mem) : heap_ok base start h fl al -> al !! b = Some n ->
  (forall i, i < b + HDR \/ b + HDR * n <= i -> ldb m' i = ldb (u_mem h) i) -> heap_ok base start (set_u_mem m' h) fl al.
Proof.
  intros H Hb Hm. destruct (ho_alloc _ _ _ _ _ H _ _ Hb) as [Hin _]. destruct (ho_base _ _ _ _ _ H).
  pose proof (ho_free _ _ _ _ _ H) as HF. rewrite Forall_forall in HF.
  split; cbn [set_u_mem u_mem u_sz u_freep]; try apply H.
  - eapply chain_ext; [|apply (ho_chain _ _ _ _ _ H)]. intros c i [->|Hc]%elem_of_cons Hi; apply Hm; [blia|].
    pose proof (ho_apart _ _ _ _ _ H _ _ _ Hc Hb). specialize (HF c Hc). blia.
  - intros a k Ha. destruct (ho_alloc _ _ _ _ _ H _ _ Ha) as [Hi Hk]. split; [done|]. rewrite <-Hk. apply ld_ext.
    intros i Hi'. apply Hm. destruct (decide (a = b)) as [->|Hne]; [blia|].
    pose proof (ho_disj _ _ _ _ _ H _ _ _ _ Ha Hb Hne). blia.
Qed.

Lemma arrays_store h fl live (p v : Z) (i : nat) (d : list Z) Q : arrays base start h fl live ->
  live !! p = Some d -> (i < length d)%nat ->
  (forall h', arrays base start h' fl (<[p := <[i := v mod 256]> d]> live) -> Q tt h') ->
  wp (ustore_byte (p + Z.of_nat i) v) Q h.
Proof.
  intros (al & [H|(_ & _ & ->)] & Hlive & Hdom) Hp Hi HQ; destruct (Hlive p d Hp) as (n & Ha & Hlen & Hd); [|done].
  destruct (ho_alloc _ _ _ _ _ H _ _ Ha) as [Hin _]. destruct (ho_base _ _ _ _ _ H).
  unfold ustore_byte. wp_step. wp_step. rewrite (proj2 (Z.leb_le _ _)), (proj2 (Z.ltb_lt _ _)) by blia. wp_steps.
  apply HQ. exists al. split; [left; eapply payload_ok; [exact H|exact Ha|]; intros j Hj; apply ldb_stb_ne; blia|]. split.
  - intros q d' [[<- <-]|[Hne Hq]]%lookup_insert_Some.
    + exists n. rewrite length_insert. split_and!; [done|done|]. intros j w. cbn [set_u_mem u_mem]. rewrite ldb_stb.
      intros [(<- & <- & _)|(Hne & Hw)]%list_lookup_insert_Some; [by rewrite decide_True|].
      rewrite decide_False by lia. by apply Hd.
    + destruct (Hlive q d' Hq) as (k & Hak & Hlen' & Hd'). exists k. split_and!; [done|done|]. intros j w Hw.
      cbn [set_u_mem u_mem]. rewrite ldb_stb_ne; [by apply Hd'|]. apply lookup_lt_Some in Hw.
      pose proof (ho_disj _ _ _ _ _ H _ _ _ _ Ha Hak ltac:(lia)). destruct (ho_alloc _ _ _ _ _ H _ _ Hak). blia.
  - intros a Hs. destruct (decide (a + HDR = p)) as [<-|Hne]; [rewrite lookup_insert_eq; by eexists|].
    rewrite lookup_insert_ne by done. by apply Hdom.
Qed.

(** ** Properties *)

(** C18: the allocator gives a program disjoint arrays.  While the program
    asks for at most [malloc_max] bytes at a time (so that the size in units
    does not wrap around), only frees what it has allocated and writes inside its arrays, [malloc],
    [free] and the writes return without leaving the memory of the process;
    [malloc] returns a new array of at least the bytes asked for and leaves
    every other array as it was, or 0, and that only when no free block is
    large enough and [sbrk] refuses; [free] leaves the other arrays; and a
    write changes only the byte written. *)
Theorem umalloc_arrays h fl live : arrays base start h fl live ->
  (forall n, 0 <= n <= malloc_max -> wp (malloc base room n) (fun r h' =>
     r = 0 /\ arrays base start h' fl live /\ Forall (fun c => c.2 < units_for n) fl /\ refused room (units_for n) h \/
     exists d fl', Z.of_nat (length d) = n /\ live !! r = None /\ start < r /\ r + n <= u_sz h' /\
       arrays base start h' fl' (<[r := d]> live)) h) /\
  (forall p d, live !! p = Some d ->
     wp (free p) (fun _ h' => exists fl', arrays base start h' fl' (delete p live)) h) /\
  (forall p d i v, live !! p = Some d -> (i < length d)%nat ->
     wp (ustore_byte (p + Z.of_nat i) v) (fun _ h' => arrays base start h' fl (<[p := <[i := v mod 256]> d]> live)) h).
Proof.
  intros Ha. split_and!.
  - intros n Hn. eapply arrays_malloc; [exact Ha|done|naive_solver|]. intros r h' fl' d **. right. by exists d, fl'.
  - intros p d Hp. eapply arrays_free; [exact Ha|exact Hp|]. intros h' fl' **. by exists fl'.
  - intros p d i v Hp Hi. by eapply arrays_store.
Qed.

(** Freed memory is merged.  When a program has freed all its arrays, the
    free memory is one block, so a request for anything that fits into the
    whole heap is served without growing the process. *)
Theorem umalloc_merges h fl n : arrays base start h fl ∅ -> 0 <= n <= malloc_max ->
  HDR * units_for n <= u_sz h - start ->
  fl = [(start, (u_sz h - start) / HDR)] /\
  wp (malloc base room n) (fun r h' => start < r /\ r + n <= u_sz h' /\ u_sz h' = u_sz h) h.
Proof.
  intros Ha Hn Hfit. destruct (units_for_range n Hn) as [Hu _].
  assert (fl = [(start, (u_sz h - start) / HDR)]) as Efl.
  { destruct Ha as (al & Hinv & _ & Hdom). assert (al = ∅) as ->.
    { apply map_empty. intros a. destruct (al !! a) eqn:E; [|done]. destruct (Hdom a) as [? Hx]; [by eexists|done]. }
    destruct Hinv as [H|((_ & _ & _ & Hz & _) & _)]; [|blia].
    pose proof (ho_units _ _ _ _ _ H) as Ht. rewrite map_to_list_empty in Ht. cbn [units foldr] in Ht.
    pose proof (ho_free _ _ _ _ _ H) as HF.
    destruct (sorted_units _ _ _ (ho_sorted _ _ _ _ _ H) HF ltac:(blia)) as [Hl _].
    destruct fl as [|c [|c' fl]]; cbn [length] in Hl.
    - cbn in Ht. blia.
    - inversion_clear HF. cbn in Ht. assert (c = (c.1, c.2)) as -> by (by destruct c).
      f_equal. f_equal; [blia|]. unfold HDR in *. cbn in *. zdiv.
    - lia. }
  split; [done|]. assert (Exists (fun c => units_for n <= c.2) fl) as Hex.
  { rewrite Efl. left. unfold HDR in *. cbn. zdiv. }
  eapply arrays_malloc; [exact Ha|done| |].
  - intros h' _ Hsmall. rewrite Efl in Hsmall, Hex. inversion_clear Hsmall. inversion_clear Hex as [??|?? Hx]; [lia|by inversion Hx].
  - intros r h' fl' d _ _ _ ?? Hsame. auto.
Qed.
End client.

(** ** A small process *)

(** Three pages, the static data of the allocator in the first one. *)
Definition heap0 : heap := mk_heap ∅ 12288 0.
(** The same after 4096 units have been allocated and freed. *)
Definition heap1 : heap :=
  mk_heap (st (st (st ∅ 2048 12288) 12288 2048) 12292 4096) 45056 2048.
Definition always (_ _ : Z) : bool := true.

Lemma heap0_arrays : arrays 2048 12288 heap0 [] ∅.
Proof.
  exists ∅. split_and!; [|done|by intros a [? ?]]. right. split; [|done]. unfold fresh, HDR, KERNBASE. cbn. lia.
Qed.

Lemma heap1_arrays : arrays 2048 12288 heap1 [(12288, 4096)] ∅.
Proof.
  exists ∅. split_and!; [|done|by intros a [? ?]]. left.
  split; [unfold HDR; lia|unfold KERNBASE; cbn; lia| |cbn; set_solver| | |done|done|done|done].
  - cbn [chain nodes first fst snd heap1 u_mem]. split_and!; try done; vm_compute; reflexivity.
  - repeat constructor.
  - repeat constructor; cbn; unfold bend, HDR; cbn; lia.
Qed.


Lemma umalloc_arrays_witness :
  wp (malloc 2048 always 100) (fun r h' =>
     r = 0 /\ arrays 2048 12288 h' [] ∅ /\ Forall (fun c => c.2 < units_for 100) [] /\ refused always (units_for 100) heap0 \/
     exists d fl', Z.of_nat (length d) = 100 /\ (∅ : gmap Z (list Z)) !! r = None /\ 12288 < r /\ r + 100 <= u_sz h' /\
       arrays 2048 12288 h' fl' (<[r := d]> ∅)) heap0.
Proof. apply (proj1 (umalloc_arrays 2048 12288 always heap0 [] ∅ heap0_arrays) 100). unfold malloc_max. lia. Defined.

Lemma umalloc_merges_witness :
  wp (malloc 2048 always 32000) (fun r h' => 12288 < r /\ r + 32000 <= u_sz h' /\ u_sz h' = u_sz heap1) heap1.
Proof.
  refine (proj2 (umalloc_merges 2048 12288 always heap1 [(12288, 4096)] 32000 heap1_arrays _ _));
    [unfold malloc_max; lia|vm_compute; discriminate].
Defined.

(** A request of two gigabytes overflows: [nu * sizeof(Header)] is negative
    as the [int] of [sbrk], which then leaves the size as it is and reports
    success, and [morecore] writes a header behind the end of the memory. *)
Lemma malloc_overflow_traps : malloc 2048 always 0x80000000 heap0 = Err Trap.
Proof. vm_compute. reflexivity. Qed.
