(* ===== verification/ShParse.v ===== *)
(** * The command parser of the shell

    [gettoken], [peek], the recursive-descent parser and [nulterminate] of
    [sh.c].  The parser reads the line in memory; a command is a tree whose
    strings are pairs of pointers into the line.  [malloc] of the nodes is
    taken to succeed, as in the code.

    The theorem compares the parser with a grammar over tokens: a line is
    accepted exactly when its tokens derive a command, and the tree then
    stands for that command, every string of it terminated by a zero. *)

From Stdlib Require Import ZArith Lia.
From stdpp Require Import base strings numbers gmap list.
From S2P Require Import Prelude Mmu Memory CString.

(** ** Commands *)

Definition MAXARGS : nat := 10.

(** A string is given by its first byte and the byte after its last one
    ([argv] and [eargv], [file] and [efile]). *)
Inductive cmd :=
  | EXEC (argv : list (Z * Z))
  | REDIR (c : cmd) (file efile mode fd : Z)
  | PIPE (left right : cmd)
  | LIST (left right : cmd)
  | BACK (c : cmd).

(** [cmd->argv[argc] = q; cmd->eargv[argc] = eq;] through the pointer to the
    [execcmd] that the redirections in [ret] are wrapped around. *)
Fixpoint add_arg (c : cmd) (arg : Z * Z) : cmd :=
  match c with
  | EXEC argv => EXEC (argv ++ [arg])
  | REDIR c file efile mode fd => REDIR (add_arg c arg) file efile mode fd
  | _ => c
  end.

(** The modes of [open]: [O_RDONLY], and [O_WRONLY|O_CREATE]. *)
Definition rdonly : Z := 0x000.
Definition wronly_create : Z := Z.lor 0x001 0x200.

(** ** The scanner *)

(** [" \t\r\n\v"] and ["<|>&;()"] *)
Definition whitespace : list Z := [32; 9; 13; 10; 11].
Definition symbols : list Z := [60; 124; 62; 38; 59; 40; 41].
(** [strchr(l, c) != 0] *)
Definition has_chr (l : list Z) (c : Z) : bool := existsb (Z.eqb c) l.

Section parser.
(** The line and its end; the state is the variable that [ps] points to. *)
Context (m : mem) (es : Z).
Local Abbreviation P := (M Z).

(** [while(s < es && f( *s)) s++;], for [n] the bytes before [es] *)
Fixpoint advance_n (n : nat) (f : Z -> bool) (s : Z) : Z :=
  match n with
  | O => s
  | S n => if f (ldb m s) then advance_n n f (s + 1) else s
  end.
Definition advance (f : Z -> bool) (s : Z) : Z := advance_n (Z.to_nat (es - s)) f s.
Definition skip_white : Z -> Z := advance (has_chr whitespace).
Definition skip_word : Z -> Z := advance (fun c => negb (has_chr whitespace c) && negb (has_chr symbols c)).

(** The result, [*q] and [*eq]. *)
Definition gettoken : P (Z * Z * Z) :=
  s ← gets skip_white;
  let q := s in
  let c := ldb m s in
  let '(ret, s) :=
    if c =? 0 then (0, s)
    else if has_chr [124; 40; 41; 59; 38; 60] c then (c, s + 1)
    else if c =? 62 then if ldb m (s + 1) =? 62 then (43, s + 2) else (62, s + 1)
    else (97, skip_word s) in
  let eq := s in
  modify (fun _ => skip_white s);;
  mret (ret, q, eq).

Definition peek (toks : list Z) : P bool :=
  modify skip_white;;
  s ← gets (fun s => s);
  mret (negb (ldb m s =? 0) && has_chr toks (ldb m s)).

(** ** The parser *)

(** A loop runs at most once per byte of the line that is left. *)
Definition each {A B} (body : A -> P (A + B)) (a : A) : P B :=
  s ← gets (fun s => s);
  while_ (S (Z.to_nat (es - s))) body a.

Definition parseredirs : cmd -> P cmd :=
  each (fun cmd =>
    b ← peek [60; 62];
    if (b : bool) then
      '(tok, _q, _eq) ← gettoken;
      '(w, q, eq) ← gettoken;
      if negb (w =? 97) then panic "missing file for redirection"
      else if tok =? 60 then mret (inl (REDIR cmd q eq rdonly 0))
      else if tok =? 62 then mret (inl (REDIR cmd q eq wronly_create 1))
      else if tok =? 43 then mret (inl (REDIR cmd q eq wronly_create 1))
      else mret (inl cmd)
    else mret (inr cmd)).

(** The loop of [parseexec], on [argc] and [ret]. *)
Definition parseargs : nat * cmd -> P cmd :=
  each (fun '(argc, ret) =>
    b ← peek [124; 41; 38; 59];
    if (b : bool) then mret (inr ret)
    else
      '(tok, q, eq) ← gettoken;
      if tok =? 0 then mret (inr ret)
      else if negb (tok =? 97) then panic "syntax"
      else
        let ret := add_arg ret (q, eq) in
        let argc := S argc in
        if (MAXARGS <=? argc)%nat then panic "too many args"
        else ret ← parseredirs ret; mret (inl (argc, ret))).

(** The calls nest at most four deep per byte. *)
Fixpoint parseline (fuel : nat) : P cmd :=
  match fuel with
  | O => fail Hang
  | S f =>
      cmd ← parsepipe f;
      cmd ← each (fun cmd =>
        b ← peek [38];
        if (b : bool) then gettoken;; mret (inl (BACK cmd)) else mret (inr cmd)) cmd;
      b ← peek [59];
      if (b : bool) then gettoken;; r ← parseline f; mret (LIST cmd r) else mret cmd
  end
with parsepipe (fuel : nat) : P cmd :=
  match fuel with
  | O => fail Hang
  | S f =>
      cmd ← parseexec f;
      b ← peek [124];
      if (b : bool) then gettoken;; r ← parsepipe f; mret (PIPE cmd r) else mret cmd
  end
with parseexec (fuel : nat) : P cmd :=
  match fuel with
  | O => fail Hang
  | S f =>
      b ← peek [40];
      if (b : bool) then parseblock f
      else ret ← parseredirs (EXEC []); parseargs (O, ret)
  end
with parseblock (fuel : nat) : P cmd :=
  match fuel with
  | O => fail Hang
  | S f =>
      b ← peek [40];
      if negb (b : bool) then panic "parseblock"
      else
        gettoken;;
        cmd ← parseline f;
        b ← peek [41];
        if negb (b : bool) then panic "syntax - missing )"
        else gettoken;; parseredirs cmd
  end.
End parser.

Fixpoint nulterminate (m : mem) (c : cmd) : mem :=
  match c with
  | EXEC argv => foldl (fun m '(_, eq) => stb m eq 0) m argv
  | REDIR c _ efile _ _ => stb (nulterminate m c) efile 0
  | PIPE l r | LIST l r => nulterminate (nulterminate m l) r
  | BACK c => nulterminate m c
  end.

(** [len] is [strlen(s)]. *)
Definition parsecmd_at (m : mem) (s len : Z) : res (cmd * mem) :=
  let es := s + len in
  match (cmd ← parseline m es (4 * Z.to_nat len + 4); peek m es [];; mret cmd) s with
  | Ok (cmd, s) => if negb (s =? es) then Err (Panic "syntax") else Ok (cmd, nulterminate m cmd)
  | Err e => Err e
  end.
Definition parsecmd (fuel : nat) (m : mem) (s : Z) : res (cmd * mem) :=
  match strlen m s fuel with
  | Some len => parsecmd_at m s len
  | None => Err Hang
  end.

(** ** Tokens *)

(** A symbol by the code that [gettoken] returns for it (43 is [>>]), or a
    word. *)
Inductive token :=
  | Sym (c : Z)
  | Word (w : list Z).

Definition white (c : Z) : bool := has_chr whitespace c.
Definition wordc (c : Z) : bool := negb (c =? 0) && negb (has_chr whitespace c) && negb (has_chr symbols c).

Definition chars (t : token) : list Z :=
  match t with Sym c => if c =? 43 then [62; 62] else [c] | Word w => w end.
Definition code (t : token) : Z := match t with Sym c => c | Word _ => 97 end.
Definition tok_ok (t : token) : Prop :=
  match t with Sym c => c ∈ [124; 40; 41; 59; 38; 60; 62; 43] | Word w => w <> [] /\ Forall (fun c => wordc c = true) w end.
(** The token cannot be continued by the text after it. *)
Definition ends (t : token) (l : list Z) : Prop :=
  match t with
  | Sym c => c = 62 -> head l <> Some 62
  | Word _ => forall c, head l = Some c -> wordc c = false
  end.

(** A text that consists of these tokens, with white space in between. *)
Inductive spells : list token -> list Z -> Prop :=
  | spells_nil b : Forall (fun c => white c = true) b -> spells [] b
  | spells_cons b t ts l : Forall (fun c => white c = true) b -> tok_ok t -> ends t l -> spells ts l ->
      spells (t :: ts) (b ++ chars t ++ l).

(** The commands that a line can stand for. *)
Inductive ast :=
  | Exec (words : list (list Z))
  | Redir (a : ast) (kind : Z) (file : list Z)
  | Pipe (left right : ast)
  | List (left right : ast)
  | Back (a : ast).

Fixpoint add_word (a : ast) (w : list Z) : ast :=
  match a with
  | Exec ws => Exec (ws ++ [w])
  | Redir a k f => Redir (add_word a w) k f
  | _ => a
  end.

Definition redir_kind (k : Z) : Prop := k ∈ [60; 62; 43].
Definition rtoks (rs : list (Z * list Z)) : list token := rs ≫= (fun '(k, f) => [Sym k; Word f]).
Definition wrap (a : ast) (rs : list (Z * list Z)) : ast := foldl (fun a '(k, f) => Redir a k f) a rs.
Definition args_toks (l : list (list Z * list (Z * list Z))) : list token := l ≫= (fun '(w, rs) => Word w :: rtoks rs).
Definition args_ast (a : ast) (l : list (list Z * list (Z * list Z))) : ast :=
  foldl (fun a '(w, rs) => wrap (add_word a w) rs) a l.
Definition amps (n : nat) : list token := replicate n (Sym 38).
Definition backs (n : nat) (a : ast) : ast := Nat.iter n Back a.

(** The grammar.  The strings of a command are at most nine words, with
    redirections anywhere between them; [&] binds to the pipeline before it. *)
Inductive line : list token -> ast -> Prop :=
  | line_last ts a n : pipeline ts a -> line (ts ++ amps n) (backs n a)
  | line_more ts a n ts' a' : pipeline ts a -> line ts' a' ->
      line (ts ++ amps n ++ Sym 59 :: ts') (List (backs n a) a')
with pipeline : list token -> ast -> Prop :=
  | pipe_last ts a : simple ts a -> pipeline ts a
  | pipe_more ts a ts' a' : simple ts a -> pipeline ts' a' -> pipeline (ts ++ Sym 124 :: ts') (Pipe a a')
with simple : list token -> ast -> Prop :=
  | simple_exec rs args : Forall (fun r => redir_kind r.1) rs ->
      Forall (fun x => Forall (fun r => redir_kind r.1) x.2) args -> (length args < MAXARGS)%nat ->
      simple (rtoks rs ++ args_toks args) (args_ast (wrap (Exec []) rs) args)
  | simple_block ts a rs : line ts a -> Forall (fun r => redir_kind r.1) rs ->
      simple (Sym 40 :: ts ++ Sym 41 :: rtoks rs) (wrap a rs).

Scheme line_mut := Induction for line Sort Prop
  with pipeline_mut := Induction for pipeline Sort Prop
  with simple_mut := Induction for simple Sort Prop.
Combined Scheme grammar_ind from line_mut, pipeline_mut, simple_mut.

(** *** Scanning *)

Section scan.
Context (m : mem) (es : Z).

(** The text from [s] to the end of the line. *)
Definition text (s : Z) (l : list Z) : Prop := cstr m s l /\ s + Z.of_nat (length l) = es.
Definition at_tokens (ts : list token) (s : Z) : Prop := exists l, text s l /\ spells ts l.

Lemma text_app s b l : text s (b ++ l) -> text (s + Z.of_nat (length b)) l.
Proof.
  revert s. induction b as [|c b IH]; intros s; cbn [app length]; [by rewrite Z.add_0_r|].
  intros [(_ & _ & Hl) He]. cbn [length] in He. replace (s + Z.of_nat (S (length b))) with (s + 1 + Z.of_nat (length b)) by lia.
  apply IH. split; [done|]. lia.
Qed.

Lemma text_head s c l : text s (c :: l) -> ldb m s = c /\ c <> 0 /\ s < es.
Proof. intros [(? & ? & _) He]. cbn in He. split_and!; [done|done|lia]. Qed.

Lemma text_nil s : text s [] -> ldb m s = 0 /\ s = es.
Proof. intros [H He]. cbn in *. split; [done|lia]. Qed.

Lemma advance_spec f s b l : text s (b ++ l) -> Forall (fun c => f c = true) b ->
  (forall c, head l = Some c -> f c = false) -> advance m es f s = s + Z.of_nat (length b).
Proof.
  intros Ht Hb Hl. unfold advance. revert s Ht. induction Hb as [|c b Hc Hb IH]; intros s Ht.
  - cbn [app length] in *. rewrite Z.add_0_r. destruct l as [|c l].
    + apply text_nil in Ht as [_ ->]. by rewrite Z.sub_diag.
    + apply text_head in Ht as (Hs & _ & Hlt). destruct (Z.to_nat (es - s)) as [|n] eqn:E; [lia|].
      cbn. rewrite Hs. by rewrite (Hl c).
  - pose proof Ht as Ht'. apply text_head in Ht as (Hs & _ & Hlt). apply (text_app s [c]) in Ht'.
    cbn [length] in *. replace (Z.to_nat (es - s)) with (S (Z.to_nat (es - (s + 1)))) by lia. cbn [advance_n].
    rewrite Hs, Hc. rewrite (IH (s + 1)); [lia|done].
Qed.

(** The text without the white space in front of it. *)
Definition trimmed (ts : list token) (l : list Z) : Prop :=
  match ts with
  | [] => l = []
  | t :: ts' => exists r, l = chars t ++ r /\ tok_ok t /\ ends t r /\ spells ts' r
  end.

Lemma trimmed_spells ts l : trimmed ts l -> spells ts l.
Proof.
  destruct ts as [|t ts]; cbn; [intros ->; by constructor|]. intros (r & -> & ? & ? & ?). by apply (spells_cons []).
Qed.

(** The first character of a token. *)
Definition fchar (t : token) : Z :=
  match t with Sym c => if c =? 43 then 62 else c | Word w => default 0 (head w) end.

Lemma chars_head t : tok_ok t -> exists l, chars t = fchar t :: l /\ white (fchar t) = false /\ fchar t <> 0.
Proof.
  destruct t as [c|w]; cbn.
  - intros Hc. rewrite !elem_of_cons, elem_of_nil in Hc. destruct_or! Hc; try done; subst; by eexists.
  - intros [Hw Hall]. destruct w as [|c w]; [done|]. inversion_clear Hall as [|?? Hc _]. exists w. split; [done|].
    unfold wordc, white in *. bool_prop. split; [done|]. intros E. cbn in E. subst c. cbn in *. congruence.
Qed.

Lemma skip_white_spec ts s : at_tokens ts s -> exists l, text (skip_white m es s) l /\ trimmed ts l.
Proof.
  intros (l & Ht & Hs). unfold skip_white. destruct Hs as [b Hb|b t ts l Hb Hok He Hs].
  - rewrite <-(app_nil_r b) in Ht. rewrite (advance_spec _ _ b []); [|done|done|done].
    exists []. split; [by apply text_app|done].
  - destruct (chars_head t Hok) as (l' & Hc & Hw & _).
    rewrite (advance_spec _ _ b (chars t ++ l)); [|done|done|by rewrite Hc; intros ? [= <-]].
    exists (chars t ++ l). split; [by apply text_app|]. by exists l.
Qed.

Lemma wp_peek ts toks s (Q : bool -> Z -> Prop) : at_tokens ts s ->
  (forall s', at_tokens ts s' -> (s' = es <-> ts = []) ->
     Q (match ts with [] => false | t :: _ => has_chr toks (fchar t) end) s') -> wp (peek m es toks) Q s.
Proof.
  intros Hs HQ. destruct (skip_white_spec ts s Hs) as (l & Ht & Htr). unfold peek. wp_steps.
  assert (at_tokens ts (skip_white m es s)) as Hat by (exists l; split; [done|by apply trimmed_spells]).
  destruct ts as [|t ts].
  - cbn in Htr. subst l. destruct (text_nil _ Ht) as [-> E]. by apply (HQ _ Hat).
  - destruct Htr as (r & -> & Hok & _). destruct (chars_head t Hok) as (l' & Hc & Hw & Hne). rewrite Hc in Ht.
    destruct (text_head _ _ _ Ht) as (-> & _ & Hlt). rewrite (proj2 (Z.eqb_neq _ _)) by done. apply (HQ _ Hat).
    split; [lia|done].
Qed.

(** The word from [q] to [eq]. *)
Definition span (q eq : Z) (w : list Z) : Prop :=
  eq = q + Z.of_nat (length w) /\ w <> [] /\ Forall (fun c => wordc c = true) w /\
  (forall i c, w !! i = Some c -> ldb m (q + Z.of_nat i) = c) /\ wordc (ldb m eq) = false.

Lemma text_lookup s l i c : text s l -> l !! i = Some c -> ldb m (s + Z.of_nat i) = c.
Proof.
  intros Ht Hi. rewrite <-(take_drop_middle l i c Hi) in Ht. pose proof (lookup_lt_Some _ _ _ Hi).
  apply text_app in Ht. rewrite length_take_le in Ht by lia. by apply text_head in Ht as [? _].
Qed.

Lemma wp_gettoken_nil s (Q : Z * Z * Z -> Z -> Prop) : at_tokens [] s ->
  (forall q eq s', at_tokens [] s' -> Q (0, q, eq) s') -> wp (gettoken m es) Q s.
Proof.
  intros Hs HQ. destruct (skip_white_spec [] s Hs) as (l & Ht & ->). unfold gettoken. wp_step. wp_step. cbn zeta.
  destruct (text_nil _ Ht) as [E1 E2]. rewrite E1. cbn [Z.eqb]. wp_steps. apply HQ.
  destruct (skip_white_spec [] (skip_white m es s)) as (l & Ht' & ->); [exists []; split; [done|by constructor]|].
  exists []. split; [done|by constructor].
Qed.

Lemma wp_gettoken t ts s (Q : Z * Z * Z -> Z -> Prop) : at_tokens (t :: ts) s ->
  (forall q eq s', at_tokens ts s' -> (forall w, t = Word w -> span q eq w) -> Q (code t, q, eq) s') ->
  wp (gettoken m es) Q s.
Proof.
  intros Hs HQ. destruct (skip_white_spec _ s Hs) as (l & Ht & r & -> & Hok & He & Hr).
  unfold gettoken. wp_step. wp_step. cbn zeta. set (q := skip_white m es s) in *.
  destruct (chars_head t Hok) as (l' & Hc & Hw & Hne).
  assert (ldb m q = fchar t) as Hq by (rewrite Hc in Ht; by apply text_head in Ht as [? _]).
  rewrite Hq, (proj2 (Z.eqb_neq _ _)) by done.
  assert (forall eq s', eq = q + Z.of_nat (length (chars t)) -> s' = skip_white m es eq ->
    wp (mret (code t, q, eq)) Q s') as Hend.
  { intros eq s' -> ->. wp_step. apply text_app in Ht as Htr.
    destruct (skip_white_spec ts (q + Z.of_nat (length (chars t)))) as (l & Hl & Htl); [by exists r|].
    apply HQ; [exists l; split; [done|by apply trimmed_spells]|]. intros w ->. cbn [chars] in *. destruct Hok as [Hne' Hall].
    split_and!; [done|done|done| |].
    - intros i c Hi. eapply text_lookup; [exact Ht|]. by apply lookup_app_l_Some.
    - destruct r as [|c r]; [by destruct (text_nil _ Htr) as [-> _]|].
      destruct (text_head _ _ _ Htr) as (-> & _). by apply He. }
  destruct t as [c|w].
  - cbn in Hok. rewrite !elem_of_cons, elem_of_nil in Hok.
    destruct_or! Hok; try done; subst c; cbn [fchar code chars Z.eqb Pos.eqb has_chr existsb orb length app] in *;
      try (wp_steps; apply Hend; [lia|done]).
    + assert ((ldb m (q + 1) =? 62) = false) as ->; [|wp_steps; apply Hend; [lia|done]].
      apply (text_app q [62]) in Ht. cbn [length] in Ht. apply Z.eqb_neq. intros E. apply He; [done|].
      destruct r as [|c r]; [destruct (text_nil _ Ht) as [E' _]|destruct (text_head _ _ _ Ht) as (E' & _)];
        change (Z.of_nat 1) with 1 in E'; cbn; congruence.
    + pose proof (text_lookup q (62 :: 62 :: r) 1 62 Ht eq_refl) as E. change (Z.of_nat 1) with 1 in E. rewrite E. cbn [Z.eqb Pos.eqb]. wp_steps. apply Hend; [lia|done].
  - assert (wordc (fchar (Word w)) = true) as Hwc.
    { destruct Hok as [Hne' Hall]. destruct w; [done|]. by inversion_clear Hall. }
    cbn [fchar code chars] in *. set (c := default 0 (head w)) in *. clearbody c.
    unfold wordc in Hwc. bool_prop.
    assert (has_chr [124; 40; 41; 59; 38; 60] c = false /\ (c =? 62) = false) as [-> ->].
    { unfold symbols, has_chr in *. cbn [existsb] in *. bool_prop. split; [|by apply Z.eqb_neq].
      repeat match goal with H : c <> _ |- _ => apply Z.eqb_neq in H; rewrite ?H; clear H end. done. }
    wp_steps. apply Hend; [|done]. unfold skip_word. apply (advance_spec _ _ _ r); [done| |].
    + destruct Hok as [_ Hall]. eapply Forall_impl; [exact Hall|]. intros d Hd. unfold wordc in Hd. cbn beta.
      destruct (has_chr whitespace d), (has_chr symbols d), (d =? 0); done.
    + intros d Hd. specialize (He d Hd). apply text_app in Ht. destruct r as [|d' r]; [done|].
      injection Hd as ->. destruct (text_head _ _ _ Ht) as (_ & Hd0 & _). unfold wordc in He.
      rewrite (proj2 (Z.eqb_neq _ _)) in He by done. done.
Qed.
End scan.

(** ** The parser on tokens *)

Definition is_redir (k : Z) : bool := has_chr [60; 62; 43] k.

Arguments is_redir : simpl never.

Fixpoint tredirs (a : ast) (ts : list token) : option (ast * list token) :=
  match ts with
  | Sym k :: ts' =>
      if is_redir k then match ts' with Word f :: ts'' => tredirs (Redir a k f) ts'' | _ => None end
      else Some (a, ts)
  | _ => Some (a, ts)
  end.

Fixpoint targs (fuel argc : nat) (a : ast) (ts : list token) : option (ast * list token) :=
  match fuel with
  | O => None
  | S f =>
      match ts with
      | [] => Some (a, [])
      | Sym k :: _ => if has_chr [124; 41; 38; 59] k then Some (a, ts) else None
      | Word w :: ts' =>
          if (MAXARGS <=? S argc)%nat then None
          else '(a, ts) ← tredirs (add_word a w) ts'; targs f (S argc) a ts
      end
  end.

Fixpoint tamps (a : ast) (ts : list token) : ast * list token :=
  match ts with
  | Sym k :: ts' => if k =? 38 then tamps (Back a) ts' else (a, ts)
  | _ => (a, ts)
  end.

(** The next token is the symbol [k]. *)
Definition next (k : Z) (ts : list token) : option (list token) :=
  match ts with Sym c :: ts' => if c =? k then Some ts' else None | _ => None end.

Fixpoint tline (fuel : nat) (ts : list token) : option (ast * list token) :=
  match fuel with
  | O => None
  | S f =>
      '(a, ts) ← tpipe f ts;
      let '(a, ts) := tamps a ts in
      match next 59 ts with
      | Some ts => '(a', ts) ← tline f ts; Some (List a a', ts)
      | None => Some (a, ts)
      end
  end
with tpipe (fuel : nat) (ts : list token) : option (ast * list token) :=
  match fuel with
  | O => None
  | S f =>
      '(a, ts) ← texec f ts;
      match next 124 ts with
      | Some ts => '(a', ts) ← tpipe f ts; Some (Pipe a a', ts)
      | None => Some (a, ts)
      end
  end
with texec (fuel : nat) (ts : list token) : option (ast * list token) :=
  match fuel with
  | O => None
  | S f =>
      match next 40 ts with
      | Some ts' => tblock f ts'
      | None => '(a, ts) ← tredirs (Exec []) ts; targs (S (length ts)) 0 a ts
      end
  end
with tblock (fuel : nat) (ts : list token) : option (ast * list token) :=
  match fuel with
  | O => None
  | S f =>
      '(a, ts) ← tline f ts;
      ts ← next 41 ts;
      tredirs a ts
  end.

(** *** What it accepts is in the grammar *)

Lemma is_redir_kind k : is_redir k = true <-> redir_kind k.
Proof.
  unfold is_redir, has_chr, redir_kind. rewrite existsb_exists. split.
  - intros (x & Hx & ->%Z.eqb_eq). by apply list_elem_of_In.
  - intros Hk. exists k. split; [by apply list_elem_of_In|apply Z.eqb_refl].
Qed.

Lemma next_Some k ts ts' : next k ts = Some ts' -> ts = Sym k :: ts'.
Proof. destruct ts as [|[c|w] ts]; cbn; [done| |done]. by destruct (Z.eqb_spec c k) as [->|]; intros [= ->]. Qed.

Lemma tredirs_sound ts : forall a a' ts', tredirs a ts = Some (a', ts') ->
  exists rs, ts = rtoks rs ++ ts' /\ a' = wrap a rs /\ Forall (fun r => redir_kind r.1) rs.
Proof.
  induction ts as [ts IH] using (induction_ltof1 _ length). intros a a' ts'.
  destruct ts as [|[k|w] ts]; cbn [tredirs]; [by intros [= <- <-]; exists []| |by intros [= <- <-]; exists []].
  destruct (is_redir k) eqn:Hk; [|by intros [= <- <-]; exists []].
  destruct ts as [|[?|f] ts]; [done|done|]. intros H. destruct (IH ts) with (2 := H) as (rs & -> & -> & Hrs); [unfold ltof; cbn; lia|].
  exists ((k, f) :: rs). split_and!; [done|done|]. constructor; [by apply is_redir_kind|done].
Qed.

Lemma targs_sound f : forall argc a ts a' ts', targs f argc a ts = Some (a', ts') -> (argc < MAXARGS)%nat ->
  exists args, ts = args_toks args ++ ts' /\ a' = args_ast a args /\ (argc + length args < MAXARGS)%nat /\
    Forall (fun x => Forall (fun r => redir_kind r.1) x.2) args.
Proof.
  induction f as [|f IH]; intros argc a ts a' ts' H Hc; [done|]. cbn [targs] in H.
  destruct ts as [|[k|w] ts].
  - injection H as <- <-. exists []. split_and!; [done|done|cbn; lia|done].
  - destruct (has_chr _ _); [|done]. injection H as <- <-. exists []. split_and!; [done|done|cbn; lia|done].
  - destruct (Nat.leb_spec MAXARGS (S argc)); [done|]. apply bind_Some in H as ([a1 ts1] & H1 & H2).
    destruct (tredirs_sound _ _ _ _ H1) as (rs & -> & -> & Hrs).
    destruct (IH _ _ _ _ _ H2) as (args & -> & -> & Hlen & Hargs); [done|].
    exists ((w, rs) :: args). split_and!; [cbn; by rewrite app_assoc|done|cbn; lia|by constructor].
Qed.

Lemma tamps_spec ts : forall a, exists n, ts = amps n ++ (tamps a ts).2 /\ (tamps a ts).1 = backs n a /\ next 38 (tamps a ts).2 = None.
Proof.
  induction ts as [|[k|w] ts IH]; intros a; cbn [tamps]; [by exists O| |by exists O].
  destruct (Z.eqb_spec k 38) as [->|Hne].
  - destruct (IH (Back a)) as (n & E1 & E2 & E3). exists (S n). split_and!; [exact (f_equal (cons (Sym 38)) E1)| |done].
    rewrite E2. unfold backs. by rewrite Nat.iter_succ_r.
  - exists O. split_and!; [done|done|]. cbn. by rewrite (proj2 (Z.eqb_neq _ _)).
Qed.

Lemma tparse_sound f :
  (forall ts a ts', tline f ts = Some (a, ts') -> exists ts1, ts = ts1 ++ ts' /\ line ts1 a) /\
  (forall ts a ts', tpipe f ts = Some (a, ts') -> exists ts1, ts = ts1 ++ ts' /\ pipeline ts1 a) /\
  (forall ts a ts', texec f ts = Some (a, ts') -> exists ts1, ts = ts1 ++ ts' /\ simple ts1 a) /\
  (forall ts a ts', tblock f ts = Some (a, ts') -> exists ts1, Sym 40 :: ts = ts1 ++ ts' /\ simple ts1 a).
Proof.
  induction f as [|f (IHl & IHp & IHe & IHb)]; [done|]. split_and!; intros ts a ts' H; cbn [tline tpipe texec tblock] in H.
  - apply bind_Some in H as ([a1 ts1] & H1 & H2). apply IHp in H1 as (t1 & -> & Hp).
    destruct (tamps_spec ts1 a1) as (n & E1 & E2 & _). destruct (tamps a1 ts1) as [a2 ts2]. cbn [fst snd] in *. subst ts1 a2.
    destruct (next 59 ts2) as [ts3|] eqn:E3.
    + apply next_Some in E3 as ->. apply bind_Some in H2 as ([a3 ts4] & H3 & [= <- <-]).
      apply IHl in H3 as (t3 & -> & Hl). exists (t1 ++ amps n ++ Sym 59 :: t3).
      split; [by rewrite <-!app_assoc|by constructor].
    + injection H2 as <- <-. exists (t1 ++ amps n). split; [by rewrite app_assoc|by constructor].
  - apply bind_Some in H as ([a1 ts1] & H1 & H2). apply IHe in H1 as (t1 & -> & He).
    destruct (next 124 ts1) as [ts2|] eqn:E.
    + apply next_Some in E as ->. apply bind_Some in H2 as ([a3 ts4] & H3 & [= <- <-]).
      apply IHp in H3 as (t3 & -> & Hl). exists (t1 ++ Sym 124 :: t3). split; [by rewrite <-app_assoc|by constructor].
    + injection H2 as <- <-. exists t1. split; [done|by constructor].
  - destruct (next 40 ts) as [ts1|] eqn:E; [apply next_Some in E as ->; by apply IHb|].
    apply bind_Some in H as ([a1 ts1] & H1 & H2). apply tredirs_sound in H1 as (rs & -> & -> & Hrs).
    apply targs_sound in H2 as (args & -> & -> & Hlen & Hargs); [|unfold MAXARGS; lia].
    exists (rtoks rs ++ args_toks args). split; [by rewrite app_assoc|by constructor].
  - apply bind_Some in H as ([a1 ts1] & H1 & H2). apply IHl in H1 as (t1 & -> & Hl).
    apply bind_Some in H2 as (ts2 & E & H2). apply next_Some in E as ->.
    apply tredirs_sound in H2 as (rs & -> & -> & Hrs).
    exists (Sym 40 :: t1 ++ Sym 41 :: rtoks rs). split; [cbn; by rewrite <-!app_assoc|by constructor].
Qed.

(** *** It accepts what is in the grammar *)

(** What may follow a redirection, an argument list, a pipeline, a line. *)
Definition head_ok (ok : list Z) (ts : list token) : Prop :=
  match ts with [] => True | Sym k :: _ => k ∈ ok | Word _ :: _ => False end.
Definition after_redirs (ts : list token) : Prop :=
  match ts with Sym k :: _ => is_redir k = false | _ => True end.

Lemma tredirs_stop a ts : after_redirs ts -> tredirs a ts = Some (a, ts).
Proof. destruct ts as [|[k|w] ts]; cbn; [done| |done]. by intros ->. Qed.

Lemma tredirs_complete rs : forall a rest, Forall (fun r => redir_kind r.1) rs -> after_redirs rest ->
  tredirs a (rtoks rs ++ rest) = Some (wrap a rs, rest).
Proof.
  induction rs as [|[k f] rs IH]; intros a rest Hrs Hr; [by apply tredirs_stop|].
  inversion_clear Hrs as [|?? Hk Hrs']. cbn in Hk |- *. rewrite (proj2 (is_redir_kind k) Hk). by apply IH.
Qed.

Lemma head_ok_next ok k ts : head_ok ok ts -> k ∉ ok -> next k ts = None.
Proof. destruct ts as [|[c|w] ts]; cbn; [done| |done]. intros Hc Hk. by rewrite (proj2 (Z.eqb_neq _ _)) by (intros ->; done). Qed.

Lemma targs_complete args : forall f argc a rest, head_ok [124; 38; 59; 41] rest ->
  Forall (fun x => Forall (fun r => redir_kind r.1) x.2) args -> (argc + length args < MAXARGS)%nat ->
  (length (args_toks args ++ rest) < f)%nat ->
  targs f argc a (args_toks args ++ rest) = Some (args_ast a args, rest).
Proof.
  induction args as [|[w rs] args IH]; intros [|f] argc a rest Hr Ha Hn Hf; try (cbn in Hf; lia).
  - cbn [targs args_toks app mbind list_bind]. destruct rest as [|[k|w] rest]; [done| |done].
    cbn in Hr. rewrite !elem_of_cons, elem_of_nil in Hr. by destruct_or! Hr; subst.
  - inversion_clear Ha as [|?? Hrs Ha']. cbn [snd] in Hrs.
    assert (args_toks ((w, rs) :: args) = Word w :: rtoks rs ++ args_toks args) as E by done.
    rewrite E in *. cbn [app targs length] in *. rewrite <-app_assoc in *. rewrite length_app in Hf.
    rewrite (proj2 (Nat.leb_gt _ _)) by lia. rewrite (tredirs_complete rs); [|done|].
    + cbn [mbind option_bind]. apply IH; [done|done|lia|lia].
    + destruct args as [|[w' rs'] args]; [|done]. cbn. destruct rest as [|[k|w'] rest]; [done| |done].
      cbn in Hr |- *. rewrite !elem_of_cons, elem_of_nil in Hr. by destruct_or! Hr; subst.
Qed.

Lemma tamps_complete n : forall a rest, next 38 rest = None -> tamps a (amps n ++ rest) = (backs n a, rest).
Proof.
  induction n as [|n IH]; intros a rest Hr.
  - cbn. destruct rest as [|[k|w] rest]; [done| |done]. cbn in *. by destruct (k =? 38).
  - change (amps (S n) ++ rest) with (Sym 38 :: (amps n ++ rest)). cbn [tamps Z.eqb Pos.eqb].
    rewrite IH by done. unfold backs. by rewrite Nat.iter_succ_r.
Qed.

Lemma tparse_complete :
  (forall ts a, line ts a -> forall rest f, head_ok [41] rest -> (4 * length (ts ++ rest) + 4 <= f)%nat ->
     tline f (ts ++ rest) = Some (a, rest)) /\
  (forall ts a, pipeline ts a -> forall rest f, head_ok [38; 59; 41] rest -> (4 * length (ts ++ rest) + 3 <= f)%nat ->
     tpipe f (ts ++ rest) = Some (a, rest)) /\
  (forall ts a, simple ts a -> forall rest f, head_ok [124; 38; 59; 41] rest -> (4 * length (ts ++ rest) + 2 <= f)%nat ->
     texec f (ts ++ rest) = Some (a, rest)).
Proof.
  apply grammar_ind.
  - intros ts a n _ IH rest [|f] Hr Hf; [lia|]. cbn [tline]. rewrite <-app_assoc in *.
    rewrite IH; [|by destruct n, rest as [|[]]; cbn in *; set_solver|lia]. cbn [mbind option_bind].
    rewrite tamps_complete by (eapply head_ok_next; [exact Hr|set_solver]). by rewrite (head_ok_next _ 59 _ Hr) by set_solver.
  - intros ts a n ts' a' _ IH _ IH' rest [|f] Hr Hf; [lia|]. cbn [tline]. rewrite <-!app_assoc in *. cbn [app] in *.
    rewrite IH; [|by destruct n; cbn; set_solver|lia]. cbn [mbind option_bind].
    rewrite tamps_complete by done. cbn [next Z.eqb Pos.eqb]. rewrite !length_app in Hf. cbn [length] in Hf.
    rewrite IH'; [done|done|rewrite length_app in *; lia].
  - intros ts a _ IH rest [|f] Hr Hf; [lia|]. cbn [tpipe].
    rewrite IH; [|by destruct rest as [|[]]; cbn in *; set_solver|lia]. cbn [mbind option_bind].
    by rewrite (head_ok_next _ 124 _ Hr) by set_solver.
  - intros ts a ts' a' _ IH _ IH' rest [|f] Hr Hf; [lia|]. cbn [tpipe]. rewrite <-app_assoc in *. cbn [app] in *.
    rewrite IH; [|cbn; set_solver|lia]. cbn [mbind option_bind next Z.eqb Pos.eqb]. rewrite length_app in Hf. cbn [length] in Hf.
    rewrite IH'; [done|done|lia].
  - intros rs args Hrs Hargs Hlen rest [|f] Hr Hf; [lia|]. cbn [texec]. rewrite <-app_assoc in *.
    assert (next 40 (rtoks rs ++ args_toks args ++ rest) = None) as ->.
    { destruct rs as [|[k w] rs].
      - destruct args as [|[w rs] args]; [|done]. cbn. eapply head_ok_next; [exact Hr|set_solver].
      - inversion_clear Hrs as [|?? Hk _]. unfold redir_kind in Hk. cbn in *. rewrite !elem_of_cons, elem_of_nil in Hk.
        by destruct_or! Hk; subst. }
    rewrite tredirs_complete; [|done|].
    + cbn [mbind option_bind]. apply targs_complete; [done|done|cbn; lia|lia].
    + destruct args as [|[w rs'] args]; [|done]. cbn. destruct rest as [|[k|w] rest]; [done| |done].
      cbn in Hr |- *. rewrite !elem_of_cons, elem_of_nil in Hr. by destruct_or! Hr; subst.
  - intros ts a rs _ IH Hrs rest [|[|f]] Hr Hf; try lia. cbn [texec tblock app next Z.eqb Pos.eqb].
    rewrite <-app_assoc in *. cbn [app length] in *. rewrite <-app_assoc in *. cbn [app length] in *.
    rewrite IH; [|cbn; set_solver|lia]. cbn [mbind option_bind next Z.eqb Pos.eqb].
    apply tredirs_complete; [done|]. destruct rest as [|[k|w] rest]; [done| |done].
    cbn in Hr |- *. rewrite !elem_of_cons, elem_of_nil in Hr. by destruct_or! Hr; subst.
Qed.

(** ** The parser in memory follows the parser on tokens *)

Definition redir_of (k : Z) : Z * Z := if k =? 60 then (rdonly, 0) else (wronly_create, 1).

Section follow.
Context (m : mem) (es : Z).

(** The tree stands for the command, its strings still without their zeros. *)
Fixpoint reads (c : cmd) (a : ast) : Prop :=
  match c, a with
  | EXEC argv, Exec ws => Forall2 (fun qe w => span m qe.1 qe.2 w) argv ws
  | REDIR c q e mode fd, Redir a k f => reads c a /\ span m q e f /\ (mode, fd) = redir_of k
  | PIPE l r, Pipe l' r' | LIST l r, List l' r' => reads l l' /\ reads r r'
  | BACK c, Back a => reads c a
  | _, _ => False
  end.

Lemma reads_add c a q e w : reads c a -> span m q e w -> reads (add_arg c (q, e)) (add_word a w).
Proof.
  revert a. induction c; intros [] Hr Hs; cbn in *; try done; [|naive_solver].
  apply Forall2_app; [done|]. by constructor.
Qed.

(** [c] panics where the parser on tokens fails, and otherwise returns a
    tree for the command and stops at the same token. *)
Definition sim (c : M Z cmd) (s : Z) (r : option (ast * list token)) : Prop :=
  match r with
  | Some (a, ts) => wp c (fun x s' => reads x a /\ at_tokens m es ts s') s
  | None => exists msg, c s = Err (Panic msg)
  end.

Lemma sim_wp {A} (c : M Z A) k s r : wp c (fun x s' => sim (k x) s' r) s -> sim (c ≫= k) s r.
Proof.
  intros H. apply wp_run in H as (x & s' & E & H). unfold sim in *. destruct r as [[a ts]|].
  - unfold wp, mbind, M_bind in *. by rewrite E.
  - destruct H as (msg & H). exists msg. unfold mbind, M_bind. by rewrite E.
Qed.

Lemma sim_assoc {A B} (c : M Z A) (g : A -> M Z B) k s r : sim (c ≫= fun x => g x ≫= k) s r -> sim ((c ≫= g) ≫= k) s r.
Proof.
  unfold sim, wp. assert (((c ≫= g) ≫= k) s = (c ≫= fun x => g x ≫= k) s) as ->; [|done].
  unfold mbind, M_bind. by destruct (c s) as [[]|].
Qed.

Lemma sim_bind c k s r f : sim c s r ->
  (forall x a ts s', r = Some (a, ts) -> reads x a -> at_tokens m es ts s' -> sim (k x) s' (f (a, ts))) ->
  sim (c ≫= k) s (r ≫= f).
Proof.
  intros Hc Hk. destruct r as [[a ts]|]; cbn [mbind option_bind].
  - apply sim_wp. eapply wp_mono; [exact Hc|]. intros x s' [Hx Hs]. by apply Hk.
  - destruct Hc as (msg & E). exists msg. unfold mbind, M_bind. by rewrite E.
Qed.

Lemma sim_ret c a ts s : reads c a -> at_tokens m es ts s -> sim (mret c) s (Some (a, ts)).
Proof. done. Qed.

Lemma sim_panic msg s : sim (panic msg) s None.
Proof. by exists msg. Qed.

Lemma at_tokens_ok t ts s : at_tokens m es (t :: ts) s -> tok_ok t.
Proof. intros (l & _ & H). by inversion H. Qed.

Lemma at_tokens_length ts s : at_tokens m es ts s -> (length ts <= Z.to_nat (es - s))%nat.
Proof.
  intros (l & [_ He] & Hs). assert (length ts <= length l)%nat; [|lia]. clear He.
  induction Hs as [b Hb|b t ts l Hb Hok He Hs IH]; [cbn; lia|].
  destruct (chars_head t Hok) as (l' & -> & _). rewrite !length_app. cbn. lia.
Qed.

Lemma word_not_symbol toks w : tok_ok (Word w) -> forallb (has_chr symbols) toks = true -> has_chr toks (fchar (Word w)) = false.
Proof.
  intros [Hne Hall] Ht. destruct w as [|c w]; [done|]. inversion_clear Hall as [|?? Hc _]. cbn [fchar head default].
  unfold wordc in Hc. bool_prop. destruct (has_chr toks c) eqn:E; [|done]. exfalso.
  unfold has_chr in E at 1. apply existsb_exists in E as (x & Hx & ->%Z.eqb_eq).
  rewrite forallb_forall in Ht. specialize (Ht x Hx). congruence.
Qed.

(** [peek] for one symbol. *)
Lemma wp_peek1 k ts s (Q : bool -> Z -> Prop) : at_tokens m es ts s -> k ∈ [38; 59; 124; 40; 41] ->
  (forall s', at_tokens m es ts s' -> Q (match next k ts with Some _ => true | None => false end) s') ->
  wp (peek m es [k]) Q s.
Proof.
  intros Hs Hk HQ. apply (wp_peek m es ts); [done|]. intros s' Hs' _. specialize (HQ s' Hs').
  destruct ts as [|[c|w] ts]; [done| |].
  - cbn [next fchar has_chr existsb] in *. rewrite orb_false_r.
    rewrite !elem_of_cons, elem_of_nil in Hk. apply at_tokens_ok in Hs. cbn in Hs. rewrite !elem_of_cons, elem_of_nil in Hs.
    destruct_or! Hk; try done; subst k; destruct_or! Hs; try done; subst c; exact HQ.
  - rewrite word_not_symbol; [done|by eapply at_tokens_ok|].
    rewrite !elem_of_cons, elem_of_nil in Hk. by destruct_or! Hk; subst.
Qed.

(** [gettoken] for a symbol that [peek] has seen. *)
Lemma wp_gettoken1 k ts ts' s (Q : Z * Z * Z -> Z -> Prop) : at_tokens m es ts s -> next k ts = Some ts' ->
  (forall r s', at_tokens m es ts' s' -> Q r s') -> wp (gettoken m es) Q s.
Proof. intros Hs ->%next_Some HQ. eapply wp_gettoken; [exact Hs|]. intros q e s' Hs' _. by apply HQ. Qed.

Definition redir_body (cmd : cmd) : M Z (ShParse.cmd + ShParse.cmd) :=
  b ← peek m es [60; 62];
  if (b : bool) then
    '(tok, _q, _eq) ← gettoken m es;
    '(w, q, eq) ← gettoken m es;
    if negb (w =? 97) then panic "missing file for redirection"
    else if tok =? 60 then mret (inl (REDIR cmd q eq rdonly 0))
    else if tok =? 62 then mret (inl (REDIR cmd q eq wronly_create 1))
    else if tok =? 43 then mret (inl (REDIR cmd q eq wronly_create 1))
    else mret (inl cmd)
  else mret (inr cmd).

Lemma peek_redir t : tok_ok t -> has_chr [60; 62] (fchar t) = match t with Sym k => is_redir k | Word _ => false end.
Proof.
  destruct t as [c|w]; [|intros H; by apply word_not_symbol].
  cbn. rewrite !elem_of_cons, elem_of_nil. intros H. by destruct_or! H; subst.
Qed.

Lemma sim_redirs n : forall ts c a s fuel, (length ts <= n)%nat -> (length ts < fuel)%nat -> at_tokens m es ts s -> reads c a ->
  sim (while_ fuel redir_body c) s (tredirs a ts).
Proof.
  induction n as [n IH] using lt_wf_ind. intros ts c a s [|fuel] Hn Hf Hs Hr; [lia|].
  cbn [while_]. unfold redir_body at 1. apply sim_assoc, sim_wp. eapply wp_peek; [exact Hs|]. intros s1 Hs1 _.
  destruct ts as [|t ts]; [by apply sim_ret|]. pose proof (at_tokens_ok _ _ _ Hs) as Hok. rewrite (peek_redir t Hok).
  destruct t as [k|w]; [|by apply sim_ret]. cbn [tredirs]. destruct (is_redir k) eqn:Hk; [|by apply sim_ret].
  apply sim_assoc, sim_wp. eapply wp_gettoken; [exact Hs1|]. intros q1 e1 s2 Hs2 _. cbn [code]. apply sim_assoc, sim_wp.
  destruct ts as [|[k'|f] ts].
  - eapply wp_gettoken_nil; [exact Hs2|]. intros. by exists "missing file for redirection"%string.
  - eapply wp_gettoken; [exact Hs2|]. intros q e s3 Hs3 _. pose proof (at_tokens_ok _ _ _ Hs2) as Hok'. cbn [code].
    rewrite (proj2 (Z.eqb_neq k' 97)); [by exists "missing file for redirection"%string|]. intros ->. cbn in Hok'. set_solver.
  - eapply wp_gettoken; [exact Hs2|]. intros q e s3 Hs3 Hsp. specialize (Hsp f eq_refl). cbn [code Z.eqb Pos.eqb negb].
    assert (exists mode fd, (mode, fd) = redir_of k /\
      (if k =? 60 then mret (inl (REDIR c q e rdonly 0))
       else if k =? 62 then mret (inl (REDIR c q e wronly_create 1))
       else if k =? 43 then mret (inl (REDIR c q e wronly_create 1))
       else mret (inl c)) = mret (M := M Z) (A := cmd + cmd) (inl (REDIR c q e mode fd))) as (mode & fd & Hrd & ->).
    { apply is_redir_kind in Hk. unfold redir_kind in Hk. rewrite !elem_of_cons, elem_of_nil in Hk.
      destruct_or! Hk; try done; subst k; by eexists _, _. }
    cbn [length] in *. apply sim_wp, wp_ret. apply (IH (length ts)); [lia|lia|lia|done|]. done.
Qed.

Lemma sim_parseredirs ts c a s : at_tokens m es ts s -> reads c a -> sim (parseredirs m es c) s (tredirs a ts).
Proof.
  intros Hs Hr. unfold parseredirs, each. apply sim_wp, wp_gets. fold redir_body.
  apply (sim_redirs (length ts)); [lia| |done|done]. apply at_tokens_length in Hs. lia.
Qed.

Definition args_body : nat * cmd -> M Z (nat * cmd + cmd) := fun '(argc, ret) =>
  b ← peek m es [124; 41; 38; 59];
  if (b : bool) then mret (inr ret)
  else
    '(tok, q, eq) ← gettoken m es;
    if tok =? 0 then mret (inr ret)
    else if negb (tok =? 97) then panic "syntax"
    else
      let ret := add_arg ret (q, eq) in
      let argc := S argc in
      if (MAXARGS <=? argc)%nat then panic "too many args"
      else ret ← parseredirs m es ret; mret (inl (argc, ret)).

Lemma sim_args n : forall ts argc c a s fuel f, (length ts <= n)%nat -> (length ts < fuel)%nat -> (length ts < f)%nat ->
  at_tokens m es ts s -> reads c a -> sim (while_ fuel args_body (argc, c)) s (targs f argc a ts).
Proof.
  induction n as [n IH] using lt_wf_ind. intros ts argc c a s [|fuel] [|f] Hn Hf Hf' Hs Hr; try lia.
  cbn [while_]. unfold args_body at 1. apply sim_assoc, sim_wp. eapply wp_peek; [exact Hs|]. intros s1 Hs1 _.
  destruct ts as [|[k|w] ts]; cbn [targs].
  - apply sim_assoc, sim_wp. eapply wp_gettoken_nil; [exact Hs1|]. intros. by apply sim_ret.
  - pose proof (at_tokens_ok _ _ _ Hs) as Hok. cbn [tok_ok] in Hok. rewrite !elem_of_cons, elem_of_nil in Hok.
    assert (has_chr [124; 41; 38; 59] (fchar (Sym k)) = has_chr [124; 41; 38; 59] k) as -> by (by destruct_or! Hok; subst).
    destruct (has_chr [124; 41; 38; 59] k); [by apply sim_ret|].
    apply sim_assoc, sim_wp. eapply wp_gettoken; [exact Hs1|]. intros q e s2 Hs2 _. cbn [code].
    destruct_or! Hok; try done; subst k; by exists "syntax"%string.
  - rewrite word_not_symbol; [|by eapply at_tokens_ok|done].
    apply sim_assoc, sim_wp. eapply wp_gettoken; [exact Hs1|]. intros q e s2 Hs2 Hsp. cbn [code Z.eqb Pos.eqb negb].
    specialize (Hsp w eq_refl). cbn zeta. destruct (MAXARGS <=? S argc)%nat; [by exists "too many args"%string|].
    apply sim_assoc, sim_bind; [by apply sim_parseredirs, reads_add|]. intros c' a' ts' s3 Hts' Hr' Hs3.
    apply sim_wp, wp_ret. destruct (tredirs_sound _ _ _ _ Hts') as (rs & Ets & _).
    apply (f_equal length) in Ets. rewrite length_app in Ets. cbn [length] in *. apply (IH (length ts')); [lia|lia|lia|lia|done|done].
Qed.

Lemma sim_parseargs ts c a s : at_tokens m es ts s -> reads c a ->
  sim (parseargs m es (O, c)) s (targs (S (length ts)) 0 a ts).
Proof.
  intros Hs Hr. unfold parseargs, each. apply sim_wp, wp_gets. fold args_body.
  apply (sim_args (length ts)); [lia| |lia|done|done]. apply at_tokens_length in Hs. lia.
Qed.

Definition amp_body (cmd : cmd) : M Z (ShParse.cmd + ShParse.cmd) :=
  b ← peek m es [38];
  if (b : bool) then gettoken m es;; mret (inl (BACK cmd)) else mret (inr cmd).

Lemma sim_amps ts : forall c a s fuel, (length ts < fuel)%nat -> at_tokens m es ts s -> reads c a ->
  sim (while_ fuel amp_body c) s (Some (tamps a ts)).
Proof.
  induction ts as [|t ts IH]; intros c a s [|fuel] Hf Hs Hr; try (cbn in Hf; lia); cbn [while_]; unfold amp_body at 1;
    apply sim_assoc, sim_wp; (eapply (wp_peek1 38); [exact Hs|set_solver|]); intros s1 Hs1; [by apply sim_ret|].
  cbn [next tamps]. destruct t as [k|w]; [|by apply sim_ret]. destruct (k =? 38) eqn:Hk; [|by apply sim_ret].
  apply sim_assoc, sim_wp. eapply wp_gettoken; [exact Hs1|]. intros q e s2 Hs2 _.
  apply sim_wp, wp_ret. cbn in Hf. apply IH; [lia|done|done].
Qed.

Lemma sim_parse f : forall ts s,
  (at_tokens m es ts s -> (4 * length ts + 4 <= f)%nat -> sim (parseline m es f) s (tline f ts)) /\
  (at_tokens m es ts s -> (4 * length ts + 3 <= f)%nat -> sim (parsepipe m es f) s (tpipe f ts)) /\
  (at_tokens m es ts s -> (4 * length ts + 2 <= f)%nat -> sim (parseexec m es f) s (texec f ts)) /\
  (at_tokens m es (Sym 40 :: ts) s -> (4 * length ts + 5 <= f)%nat -> sim (parseblock m es f) s (tblock f ts)).
Proof.
  induction f as [|f IH]; intros ts s; [split_and!; intros; lia|]. split_and!; intros Hs Hf; cbn [parseline parsepipe parseexec parseblock tline tpipe texec tblock].
  - apply sim_bind; [by apply IH; [|lia]|]. intros c a ts1 s1 H1 Hr Hs1. apply tparse_sound in H1 as (t1 & -> & _).
    rewrite length_app in Hf. destruct (tamps_spec ts1 a) as (n & Ets & _).
    apply (f_equal length) in Ets. rewrite length_app in Ets.
    change (let '(a0, ts0) := tamps a ts1 in _) with (Some (tamps a ts1) ≫= fun '(a0, ts0) =>
      match next 59 ts0 with
      | Some ts => '(a', ts) ← tline f ts; Some (List a0 a', ts)
      | None => Some (a0, ts0)
      end).
    apply sim_bind.
    { unfold each. apply sim_wp, wp_gets. fold amp_body. apply sim_amps; [|done|done]. apply at_tokens_length in Hs1. lia. }
    intros c2 a2 ts2 s2 [= E2] Hr2 Hs2. rewrite E2 in Ets. cbn [snd] in Ets.
    apply sim_wp. eapply wp_peek1; [exact Hs2|set_solver|]. intros s3 Hs3. destruct (next 59 ts2) as [ts3|] eqn:E; [|by apply sim_ret].
    apply sim_wp. eapply wp_gettoken1; [exact Hs3|exact E|]. intros _ s4 Hs4. apply next_Some in E as ->. cbn [length] in Ets.
    apply sim_bind; [apply IH; [done|lia]|]. intros c3 a3 ts4 s5 _ Hr3 Hs5. by apply sim_ret.
  - apply sim_bind; [by apply IH; [|lia]|]. intros c a ts1 s1 H1 Hr Hs1. apply tparse_sound in H1 as (t1 & -> & _).
    rewrite length_app in Hf. apply sim_wp. eapply wp_peek1; [exact Hs1|set_solver|]. intros s3 Hs3.
    destruct (next 124 ts1) as [ts3|] eqn:E; [|by apply sim_ret].
    apply sim_wp. eapply wp_gettoken1; [exact Hs3|exact E|]. intros _ s4 Hs4. apply next_Some in E as ->. cbn [length] in Hf.
    apply sim_bind; [apply IH; [done|lia]|]. intros c3 a3 ts4 s5 _ Hr3 Hs5. by apply sim_ret.
  - apply sim_wp. eapply wp_peek1; [exact Hs|set_solver|]. intros s1 Hs1. destruct (next 40 ts) as [ts1|] eqn:E.
    + apply next_Some in E as ->. cbn [length] in Hf. apply IH; [done|lia].
    + apply sim_bind; [by apply sim_parseredirs; [|constructor]|]. intros c a ts1 s2 _ Hr Hs2. by apply sim_parseargs.
  - apply sim_wp. eapply wp_peek1; [exact Hs|set_solver|]. intros s1 Hs1. cbn [next Z.eqb Pos.eqb negb].
    apply sim_wp. eapply wp_gettoken; [exact Hs1|]. intros _ _ s2 Hs2 _.
    apply sim_bind; [apply IH; [done|lia]|]. intros c a ts1 s3 _ Hr Hs3.
    apply sim_wp. eapply wp_peek1; [exact Hs3|set_solver|]. intros s4 Hs4. destruct (next 41 ts1) as [ts2|] eqn:E; [|by exists "syntax - missing )"%string].
    cbn [negb mbind option_bind]. apply sim_wp. eapply wp_gettoken1; [exact Hs4|exact E|]. intros _ s5 Hs5. by apply sim_parseredirs.
Qed.
End follow.

(** ** The zeros *)

Fixpoint eqs (c : cmd) : list Z :=
  match c with
  | EXEC argv => argv.*2
  | REDIR c _ e _ _ => eqs c ++ [e]
  | PIPE l r | LIST l r => eqs l ++ eqs r
  | BACK c => eqs c
  end.

Lemma ldb_nulterminate c : forall m x, ldb (nulterminate m c) x = if decide (x ∈ eqs c) then 0 else ldb m x.
Proof.
  induction c as [argv|c IH q e mode fd|l IHl r IHr|l IHl r IHr|c IH]; intros m x; cbn [nulterminate eqs].
  - revert m. induction argv as [|[q e] argv IH]; intros m; cbn [foldl]; [by rewrite decide_False by set_solver|].
    rewrite IH, ldb_stb. repeat case_decide; try done; set_solver.
  - rewrite ldb_stb, IH. repeat case_decide; try done; set_solver.
  - rewrite IHr, IHl. repeat case_decide; try done; set_solver.
  - rewrite IHr, IHl. repeat case_decide; try done; set_solver.
  - apply IH.
Qed.

(** The tree stands for the command, with every string a C string. *)
Fixpoint stands (m : mem) (c : cmd) (a : ast) : Prop :=
  match c, a with
  | EXEC argv, Exec ws => Forall2 (fun qe w => cstr m qe.1 w) argv ws
  | REDIR c q _ mode fd, Redir a k f => stands m c a /\ cstr m q f /\ (mode, fd) = redir_of k
  | PIPE l r, Pipe l' r' | LIST l r, List l' r' => stands m l l' /\ stands m r r'
  | BACK c, Back a => stands m c a
  | _, _ => False
  end.

Lemma reads_eqs m c : forall a, reads m c a -> Forall (fun e => wordc (ldb m e) = false) (eqs c).
Proof.
  induction c as [argv|c IH q e mode fd|l IHl r IHr|l IHl r IHr|c IH]; intros [] H; cbn in *; try done.
  - induction H as [|[q e] w argv ws Hs H IH]; [done|]. constructor; [apply Hs|done].
  - destruct H as (H & Hs & _). apply Forall_app. split; [by eapply IH|]. constructor; [apply Hs|done].
  - apply Forall_app. naive_solver.
  - apply Forall_app. naive_solver.
  - by eapply IH.
Qed.

Lemma span_cstr m m' q e w : span m q e w -> ldb m' e = 0 ->
  (forall x, wordc (ldb m x) = true -> ldb m' x = ldb m x) -> cstr m' q w.
Proof.
  intros (-> & _ & Hall & Hc & _) He Hm. revert q Hc He. induction Hall as [|c w Hw Hall IH]; intros q Hc He; cbn [cstr length] in *.
  - by rewrite Z.add_0_r in He.
  - pose proof (Hc 0%nat c eq_refl) as H0. rewrite Z.add_0_r in H0. split; [by intros ->|].
    split; [rewrite Hm by (by rewrite H0); done|]. apply IH.
    + intros i d Hi. rewrite <-(Hc (S i) d Hi). f_equal. lia.
    + rewrite <-He. f_equal. lia.
Qed.

Lemma reads_stands m m' c : forall a, reads m c a -> Forall (fun e => ldb m' e = 0) (eqs c) ->
  (forall x, wordc (ldb m x) = true -> ldb m' x = ldb m x) -> stands m' c a.
Proof.
  induction c as [argv|c IH q e mode fd|l IHl r IHr|l IHl r IHr|c IH]; intros [] H He Hm; cbn in *; try done.
  - induction H as [|[q e] w argv ws Hs H IH]; [constructor|]. inversion_clear He. constructor; [by eapply span_cstr|auto].
  - destruct H as (H & Hs & Hrd). apply Forall_app in He as [He1 [He2 _]%Forall_cons]. split_and!; [by apply IH|by eapply span_cstr|done].
  - apply Forall_app in He as [? ?]. naive_solver.
  - apply Forall_app in He as [? ?]. naive_solver.
  - by apply IH.
Qed.

Lemma nulterminate_stands m c a : reads m c a -> stands (nulterminate m c) c a.
Proof.
  intros H. apply (reads_stands m); [done| |].
  - apply Forall_forall. intros e He. rewrite ldb_nulterminate. by rewrite decide_True.
  - intros x Hx. rewrite ldb_nulterminate, decide_False; [done|]. intros He. apply reads_eqs in H.
    rewrite Forall_forall in H. specialize (H x He). cbn in H. congruence.
Qed.

(** ** Every line has tokens *)

Lemma spells_white c ts l : white c = true -> spells ts l -> spells ts (c :: l).
Proof.
  intros Hc H. destruct H as [b Hb|b t ts l Hb Hok He Hs].
  - constructor. by constructor.
  - rewrite app_comm_cons. by constructor; [constructor|..].
Qed.

(** Text that starts with a character of a word starts with a word. *)
Lemma spells_word d l ts : spells ts (d :: l) -> wordc d = true -> exists w ts' l', ts = Word w :: ts' /\ d :: l = w ++ l' /\
  tok_ok (Word w) /\ ends (Word w) l' /\ spells ts' l'.
Proof.
  intros H Hd. assert (white d = false) as Hw by (unfold wordc, white in *; by bool_prop).
  inversion H as [b Hb E|b t ts' l' Hb Hok He Hs Ets E]; subst.
  - inversion_clear Hb. congruence.
  - destruct b as [|x b]; [|inversion_clear Hb; injection E as -> _; congruence].
    destruct t as [c|w]; [|by exists w, ts', l'].
    exfalso. cbn in Hok, E. rewrite !elem_of_cons, elem_of_nil in Hok.
    destruct_or! Hok; try done; subst c; cbn in E; injection E as <- _; done.
Qed.

Lemma spells_total l : Forall (fun c => c <> 0) l -> exists ts, spells ts l.
Proof.
  induction l as [l IH] using (induction_ltof1 _ length). unfold ltof in IH. intros H0.
  destruct l as [|c l]; [exists []; by constructor|]. inversion_clear H0 as [|?? Hc Hl].
  destruct (IH l ltac:(cbn; lia) Hl) as (ts & Hs).
  destruct (white c) eqn:Hw; [exists ts; by apply spells_white|].
  destruct (has_chr symbols c) eqn:Hsym.
  - destruct (Z.eqb_spec c 62) as [->|Hne].
    + destruct l as [|d l]; [exists [Sym 62]; apply (spells_cons [] (Sym 62) [] []); [done|set_solver|done|by constructor]|].
      destruct (Z.eqb_spec d 62) as [->|Hd].
      * inversion_clear Hl. destruct (IH l ltac:(cbn; lia) ltac:(done)) as (ts' & Hs').
        exists (Sym 43 :: ts'). apply (spells_cons [] (Sym 43) ts' l); [done|cbn; set_solver|done|done].
      * exists (Sym 62 :: ts). apply (spells_cons [] (Sym 62) ts (d :: l)); [done|cbn; set_solver| |done]. cbn. congruence.
    + exists (Sym c :: ts). assert (chars (Sym c) = [c]) as Ec.
      { cbn. destruct (Z.eqb_spec c 43) as [->|]; [discriminate Hsym|done]. }
      change (c :: l) with ([] ++ [c] ++ l). rewrite <-Ec. apply spells_cons; [done| |by intros ?|done].
      unfold has_chr, symbols in Hsym. apply existsb_exists in Hsym as (x & Hx & ->%Z.eqb_eq).
      apply list_elem_of_In in Hx. cbn. set_solver.
  - assert (wordc c = true) as Hwc.
    { unfold wordc. unfold white in Hw. rewrite Hw, Hsym. by rewrite (proj2 (Z.eqb_neq _ _)). }
    assert (forall l', (forall d, head l' = Some d -> wordc d = false) -> spells ts l' -> spells (Word [c] :: ts) (c :: l')) as Hone.
    { intros l' Hl' Hs'. apply (spells_cons [] (Word [c]) ts l'); [done|split; [done|by repeat constructor]|done|done]. }
    destruct l as [|d l]; [exists (Word [c] :: ts); by apply Hone|].
    destruct (wordc d) eqn:Hd; [|exists (Word [c] :: ts); apply Hone; [by intros ? [= <-]|done]].
    destruct (spells_word d l ts Hs Hd) as (w & ts' & l' & -> & E & [Hne Hall] & He & Hs').
    exists (Word (c :: w) :: ts'). rewrite E. change (c :: w ++ l') with ([] ++ chars (Word (c :: w)) ++ l').
    apply spells_cons; [done| |done|done]. split; [done|by constructor].
Qed.

(** ** Properties *)

Lemma cstr_nonzero m s l : cstr m s l -> Forall (fun c => c <> 0) l.
Proof. revert s. induction l as [|c l IH]; intros s; [done|]. intros (? & _ & ?). constructor; [done|by eapply IH]. Qed.

(** [parsecmd] by the parser on tokens. *)
Lemma parsecmd_tokens m s l ts fuel : cstr m s l -> (length l < fuel)%nat -> spells ts l ->
  match tline (4 * length l + 4) ts with
  | Some (a, []) => exists c m', parsecmd fuel m s = Ok (c, m') /\ stands m' c a
  | _ => exists msg, parsecmd fuel m s = Err (Panic msg)
  end.
Proof.
  intros Hl Hf Hs. unfold parsecmd, parsecmd_at. rewrite (strlen_cstr m s l fuel) by done.
  set (es := s + Z.of_nat (length l)). rewrite Nat2Z.id.
  assert (at_tokens m es ts s) as Hat by (exists l; split; [by split|done]).
  pose proof (at_tokens_length m es ts s Hat) as Hlen. replace (Z.to_nat (es - s)) with (length l) in Hlen by lia.
  destruct (sim_parse m es (4 * length l + 4) ts s) as (Hsim & _). specialize (Hsim Hat ltac:(lia)).
  destruct (tline (4 * length l + 4) ts) as [[a ts']|].
  - cbn [sim] in Hsim. apply wp_run in Hsim as (c & s1 & E1 & Hr & Hs1).
    assert (exists b s2, peek m es [] s1 = Ok (b, s2) /\ (s2 = es <-> ts' = [])) as (b & s2 & E2 & Hend).
    { apply wp_run. eapply wp_peek; [exact Hs1|]. done. }
    assert ((cmd ← parseline m es (4 * length l + 4); peek m es [];; mret cmd) s = Ok (c, s2)) as ->.
    { unfold mbind, M_bind. by rewrite E1, E2. }
    destruct (Z.eqb_spec s2 es) as [E|E]; cbn [negb].
    + apply Hend in E as ->. exists c, (nulterminate m c). split; [done|]. by apply nulterminate_stands.
    + destruct ts'; [tauto|]. by eexists.
  - destruct Hsim as (msg & E). assert ((cmd ← parseline m es (4 * length l + 4); peek m es [];; mret cmd) s = Err (Panic msg)) as ->.
    { unfold mbind, M_bind. by rewrite E. }
    by exists msg.
Qed.

(** C19: the shell's parser implements its grammar.  A line has tokens, and for
    its tokens: a command they derive is what [parsecmd] returns, as a tree
    whose strings are C strings; what it returns is a command they derive;
    and a line that derives nothing ends in a panic, never in an endless
    loop. *)
Theorem parsecmd_correct m s l fuel : cstr m s l -> (length l < fuel)%nat ->
  (exists ts, spells ts l) /\
  forall ts, spells ts l ->
    (forall a, line ts a -> exists c m', parsecmd fuel m s = Ok (c, m') /\ stands m' c a) /\
    (forall c m', parsecmd fuel m s = Ok (c, m') -> exists a, line ts a /\ stands m' c a) /\
    ((forall a, ~ line ts a) -> exists msg, parsecmd fuel m s = Err (Panic msg)).
Proof.
  intros Hl Hf. split; [by eapply spells_total, cstr_nonzero|]. intros ts Hs.
  pose proof (parsecmd_tokens m s l ts fuel Hl Hf Hs) as Hp.
  assert (length ts <= length l)%nat as Hlen.
  { assert (at_tokens m (s + Z.of_nat (length l)) ts s) as Hat by (exists l; split; [by split|done]).
    apply at_tokens_length in Hat. lia. }
  assert (forall a, line ts a -> tline (4 * length l + 4) ts = Some (a, [])) as Hcomplete.
  { intros a Ha. pose proof (proj1 tparse_complete ts a Ha [] (4 * length l + 4)%nat I) as Hc.
    rewrite app_nil_r in Hc. apply Hc. lia. }
  assert (forall a, tline (4 * length l + 4) ts = Some (a, []) -> line ts a) as Hsound.
  { intros a Ha. apply tparse_sound in Ha as (ts1 & E & Hline). rewrite app_nil_r in E. by subst. }
  split_and!.
  - intros a Ha. by rewrite (Hcomplete a Ha) in Hp.
  - intros c m' E. destruct (tline _ _) as [[a [|]]|] eqn:Et; [|destruct Hp; congruence..].
    exists a. split; [by apply Hsound|]. destruct Hp as (c1 & m1 & E1 & H1). rewrite E in E1. by injection E1 as -> ->.
  - intros Hno. destruct (tline _ _) as [[a [|]]|] eqn:Et; [|done|done]. destruct (Hno a). by apply Hsound.
Qed.

(** The line [ls -l > out | (wc; date &)] at address 100. *)
Definition line0 : list Z :=
  [108; 115; 32; 45; 108; 32; 62; 32; 111; 117; 116; 124; 40; 119; 99; 59; 32; 100; 97; 116; 101; 38; 41].
Definition mem0 : mem := list_to_map (zip (seqZ 100 23) line0).

Lemma parsecmd_correct_witness : exists ts, spells ts line0 /\
  ((forall a, line ts a -> exists c m', parsecmd 100 mem0 100 = Ok (c, m') /\ stands m' c a) /\
  (forall c m', parsecmd 100 mem0 100 = Ok (c, m') -> exists a, line ts a /\ stands m' c a) /\
  ((forall a, ~ line ts a) -> exists msg, parsecmd 100 mem0 100 = Err (Panic msg))).
Proof.
  destruct (parsecmd_correct mem0 100 line0 100) as [[ts Hts] H].
  - vm_compute. repeat split; discriminate.
  - vm_compute. lia.
  - exists ts. split; [exact Hts|exact (H ts Hts)].
Defined.

(** The parser runs on it. *)
Lemma line0_parses : exists m', parsecmd 100 mem0 100 = Ok
  (PIPE (REDIR (EXEC [(100, 102); (103, 105)]) 108 111 wronly_create 1)
     (LIST (EXEC [(113, 115)]) (BACK (EXEC [(117, 121)]))), m').
Proof. eexists. vm_compute. reflexivity. Qed.
