(* ===== verification/Shell.v ===== *)
(** * The shell

    [runcmd], [getcmd] and [main] of [sh.c].  What a process of the shell
    does is a tree of system calls ([prog]): [runcmd] builds it from the
    command.  [launch] gives the tree a meaning, in terms of the descriptor
    tables of the processes: [open], [dup] and [pipe] take the lowest free
    descriptor, [fork] copies the table.

    The theorems show that every program runs with exactly the three
    descriptors its place in the command asks for, and that [main] takes its
    input line by line. *)

From Stdlib Require Import ZArith Lia.
From stdpp Require Import base strings numbers gmap list.
From S2P Require Import Prelude Mmu Memory CString Ulib ShParse.

(** ** Processes of the shell *)

(** Strings are addresses.  [Fork] has the continuations of the child, of
    the parent and of a failure. *)
Inductive prog :=
  | Exit
  | Exec (path : Z) (argv : list Z) (failed : prog)
  | Close (fd : Z) (k : prog)
  | Open (file mode : Z) (k : Z -> prog)
  | Dup (fd : Z) (k : prog)
  | MkPipe (k : option (Z * Z) -> prog)
  | Fork (child parent failed : prog)
  | Wait (k : prog)
  | Print (msg : string) (arg : option Z) (k : prog).

(** [panic] of the shell, and [fork1]. *)
Definition sh_panic (s : string) : prog := Print s None Exit.
Definition fork1 (child parent : prog) : prog := Fork child parent (sh_panic "fork").

Fixpoint runcmd (c : cmd) : prog :=
  match c with
  | EXEC [] => Exit
  | EXEC (((q, _) :: _) as argv) => Exec q (argv.*1) (Print "exec %s failed" (Some q) Exit)
  | REDIR c file _ mode fd =>
      Close fd (Open file mode (fun r =>
        if r <? 0 then Print "open %s failed" (Some file) Exit else runcmd c))
  | LIST l r => fork1 (runcmd l) (Wait (runcmd r))
  | PIPE l r =>
      MkPipe (fun p =>
        match p with
        | None => sh_panic "pipe"
        | Some (p0, p1) =>
            fork1 (Close 1 (Dup p1 (Close p0 (Close p1 (runcmd l)))))
              (fork1 (Close 0 (Dup p0 (Close p0 (Close p1 (runcmd r)))))
                 (Close p0 (Close p1 (Wait (Wait Exit)))))
        end)
  | BACK c => fork1 (runcmd c) Exit
  end.

(** [while((fd = open("console", O_RDWR)) >= 0)] of [main], at most [fuel]
    times. *)
Fixpoint open_console (fuel : nat) (console : Z) (k : prog) : prog :=
  match fuel with
  | O => k
  | S f => Open console 2 (fun fd =>
      if fd <? 0 then k else if 3 <=? fd then Close fd k else open_console f console k)
  end.

(** ** Descriptors *)

(** What a descriptor refers to; pipes are numbered. *)
Inductive obj :=
  | Inherited (n : nat)
  | Opened (file mode : Z)
  | ReadEnd (n : nat)
  | WriteEnd (n : nat).

Abbreviation table := (list (option obj)).

Fixpoint lowest (fds : table) : option nat :=
  match fds with
  | [] => None
  | None :: _ => Some O
  | Some _ :: fds => S <$> lowest fds
  end.
Definition fd_close (fd : Z) (fds : table) : table := <[Z.to_nat fd := None]> fds.
(** The descriptor, or -1, and the table. *)
Definition fd_alloc (o : option obj) (fds : table) : Z * table :=
  match o, lowest fds with
  | Some x, Some i => (Z.of_nat i, <[i := Some x]> fds)
  | _, _ => (-1, fds)
  end.

Section launch.
(** Whether [open] of a file in a mode succeeds. *)
Context (opens : Z -> Z -> bool).

(** The calls of [exec] with the descriptors of the process, for a process
    that starts with the table [fds]; the pipes are numbered from [n], the
    result has the next number.  [fork] is taken to succeed. *)
Fixpoint launch (p : prog) (fds : table) (n : nat) : list (list Z * table) * nat :=
  match p with
  | Exit => ([], n)
  | Exec _ argv _ => ([(argv, fds)], n)
  | Close fd k => launch k (fd_close fd fds) n
  | Open file mode k =>
      let '(fd, fds) := fd_alloc (if opens file mode then Some (Opened file mode) else None) fds in
      launch (k fd) fds n
  | Dup fd k =>
      let '(_, fds) := fd_alloc (mjoin (fds !! Z.to_nat fd)) fds in launch k fds n
  | MkPipe k =>
      let '(p0, fds') := fd_alloc (Some (ReadEnd n)) fds in
      let '(p1, fds') := fd_alloc (Some (WriteEnd n)) fds' in
      if (p0 <? 0) || (p1 <? 0) then launch (k None) fds n
      else launch (k (Some (p0, p1))) fds' (S n)
  | Fork child parent _ =>
      let '(l1, n) := launch child fds n in
      let '(l2, n) := launch parent fds n in
      (l1 ++ l2, n)
  | Wait k | Print _ _ k => launch k fds n
  end.

(** The table of a process with only its three standard descriptors. *)
Definition NDESC : nat := 16.
Definition std (i o e : obj) : table := [Some i; Some o; Some e] ++ replicate (NDESC - 3) None.

(** What the command means: who is connected to what. *)
Fixpoint plumb (c : cmd) (i o e : obj) (n : nat) : list (list Z * table) * nat :=
  match c with
  | EXEC [] => ([], n)
  | EXEC argv => ([(argv.*1, std i o e)], n)
  | REDIR c file _ mode fd =>
      if opens file mode then
        if fd =? 0 then plumb c (Opened file mode) o e n else plumb c i (Opened file mode) e n
      else ([], n)
  | PIPE l r =>
      let '(l1, k) := plumb l i (WriteEnd n) e (S n) in
      let '(l2, k) := plumb r (ReadEnd n) o e k in
      (l1 ++ l2, k)
  | LIST l r =>
      let '(l1, k) := plumb l i o e n in
      let '(l2, k) := plumb r i o e k in
      (l1 ++ l2, k)
  | BACK c => plumb c i o e n
  end.

Lemma runcmd_plumb c m a : stands m c a -> forall i o e n, launch (runcmd c) (std i o e) n = plumb c i o e n.
Proof.
  revert a. induction c as [argv|c IH q e mode fd|l IHl r IHr|l IHl r IHr|c IH]; intros a Hst i o e' n.
  - by destruct argv as [|[q e] argv].
  - destruct a as [|a k f| | |]; try done. destruct Hst as (Hst & _ & Hrd). cbn [runcmd plumb launch].
    destruct (opens q mode); [|done].
    unfold redir_of in Hrd. destruct (k =? 60); injection Hrd as -> ->; cbn [Z.eqb]; rewrite <-(IH a Hst); reflexivity.
  - destruct a as [| |a b| |]; try done. destruct Hst as [Hl Hr]. cbn [plumb].
    rewrite <-(IHl a Hl). change (launch (runcmd (PIPE l r)) (std i o e') n) with
      (let '(l1, k) := launch (runcmd l) (std i (WriteEnd n) e') (S n) in
       let '(l2, k) := (let '(l2, k) := launch (runcmd r) (std (ReadEnd n) o e') k in (l2 ++ [], k)) in (l1 ++ l2, k)).
    destruct (launch (runcmd l) _ _) as [l1 k]. rewrite <-(IHr b Hr). destruct (launch (runcmd r) _ _) as [l2 k'].
    by rewrite app_nil_r.
  - destruct a as [| | |a b|]; try done. destruct Hst as [Hl Hr]. cbn [plumb runcmd fork1 launch].
    rewrite <-(IHl a Hl). destruct (launch (runcmd l) _ _) as [l1 k]. by rewrite <-(IHr b Hr).
  - destruct a as [| | | |a]; try done. cbn [plumb runcmd fork1 launch].
    rewrite <-(IH a Hst). destruct (launch (runcmd c) _ _) as [l1 k]. by rewrite app_nil_r.
Qed.

Lemma lowest_free fds i : lowest fds = Some i -> fds !! i = Some None.
Proof.
  revert i. induction fds as [|[x|] fds IH]; intros i; cbn; [done| |by intros [= <-]].
  intros (j & Hj & ->)%fmap_Some. by apply IH.
Qed.

Lemma open_console_done x y z fds console k n f : opens console 2 = true ->
  launch (open_console (S f) console k) (Some x :: Some y :: Some z :: fds) n = launch k (Some x :: Some y :: Some z :: fds) n.
Proof.
  intros Ho. cbn [open_console launch]. rewrite Ho. unfold fd_alloc. cbn [lowest].
  destruct (lowest fds) as [j|] eqn:E; cbn [fmap option_fmap option_map]; [|reflexivity].
  rewrite (proj2 (Z.ltb_ge _ _)), (proj2 (Z.leb_le _ _)) by lia. cbn [launch]. unfold fd_close. rewrite Nat2Z.id.
  change (<[S (S (S j)) := None]> (<[S (S (S j)) := Some (Opened console 2)]> (Some x :: Some y :: Some z :: fds)))
    with (Some x :: Some y :: Some z :: <[j := None]> (<[j := Some (Opened console 2)]> fds)).
  by rewrite list_insert_insert_eq, list_insert_id by (by apply lowest_free).
Qed.

(** [main] starts with the descriptors 0, 1 and 2 open. *)
Lemma open_console_std x y z fds console k n : opens console 2 = true ->
  let c := Some (Opened console 2) in
  launch (open_console 4 console k) (x :: y :: z :: fds) n =
  launch k ((if x then x else c) :: (if y then y else c) :: (if z then z else c) :: fds) n.
Proof.
  intros Ho c.
  assert (forall f l, launch (open_console (S f) console k) (None :: l) n = launch (open_console f console k) (c :: l) n) as H0
    by (intros; cbn [open_console launch]; rewrite Ho; reflexivity).
  assert (forall f a l, launch (open_console (S f) console k) (Some a :: None :: l) n =
    launch (open_console f console k) (Some a :: c :: l) n) as H1
    by (intros; cbn [open_console launch]; rewrite Ho; reflexivity).
  assert (forall f a b l, launch (open_console (S f) console k) (Some a :: Some b :: None :: l) n =
    launch (open_console f console k) (Some a :: Some b :: c :: l) n) as H2
    by (intros; cbn [open_console launch]; rewrite Ho; reflexivity).
  unfold c in *. destruct x, y, z; rewrite ?H0, ?H1, ?H2; by apply open_console_done.
Qed.
End launch.

(** ** The main loop *)

(** What the shell does with a line: [chdir] to the path at an address, or
    run the command (or the panic) that the parser returned. *)
Inductive action :=
  | Chdir (m : mem) (path : Z)
  | Run (c : res (cmd * mem)).

Definition BUFLEN : Z := 100.

(** [memset(buf, 0, nbuf); gets(buf, nbuf);], and whether [buf[0]] is not 0. *)
Definition getcmd (m : mem) (input : list Z) (buf nbuf : Z) : mem * list Z * bool :=
  let m := stosb m buf 0 (Z.to_nat nbuf) in
  let '(m, input) := Ulib.gets input m buf nbuf in
  (m, input, negb (ldb m buf =? 0)).

(** [buf[0] == 'c' && buf[1] == 'd' && buf[2] == ' '] *)
Definition is_cd (m : mem) (buf : Z) : bool :=
  (ldb m buf =? 99) && (ldb m (buf + 1) =? 100) && (ldb m (buf + 2) =? 32).

(** [buf[strlen(buf)-1] = 0;] *)
Definition chop (m : mem) (buf : Z) : mem :=
  match strlen m buf (Z.to_nat BUFLEN) with Some n => stb m (buf + n - 1) 0 | None => m end.

(** [input] is what is left to read; every line takes at least a byte. *)
Fixpoint main_loop (fuel : nat) (buf : Z) (m : mem) (input : list Z) : option (list action) :=
  match fuel with
  | O => None
  | S f =>
      let '(m, input, more) := getcmd m input buf BUFLEN in
      if negb more then Some []
      else
        let m' := if is_cd m buf then chop m buf else m in
        let a := if is_cd m buf then Chdir m' (buf + 3) else Run (parsecmd (Z.to_nat BUFLEN) m buf) in
        cons a <$> main_loop f buf m' input
  end.
Definition main (buf : Z) (m : mem) (input : list Z) : option (list action) :=
  main_loop (S (length input)) buf m input.

(** A line that fits into the buffer, without its newline. *)
Definition plain (l : list Z) : Prop :=
  Forall (fun c => 0 < c < 256 /\ c <> 10 /\ c <> 13) l /\ Z.of_nat (length l) < BUFLEN - 1.
Definition cd_line (l : list Z) : bool := bool_decide (take 3 l = [99; 100; 32]).

(** What the shell should do with it. *)
Definition handles (buf : Z) (l : list Z) (a : action) : Prop :=
  match a with
  | Chdir m path => cd_line l = true /\ cstr m path (drop 3 l)
  | Run r => cd_line l = false /\ exists m, cstr m buf (l ++ [10]) /\ r = parsecmd (Z.to_nat BUFLEN) m buf
  end.

Lemma first_line_plain l rest k : Forall (fun c => 0 < c < 256 /\ c <> 10 /\ c <> 13) l -> (length l < k)%nat ->
  first_line k (l ++ 10 :: rest) = (l ++ [10], rest).
Proof.
  intros Hl. revert k. induction Hl as [|c l Hc Hl IH]; intros [|k] Hk; cbn in Hk; try lia; cbn [app first_line]; [done|].
  destruct Hc as (_ & H1 & H2). rewrite (proj2 (Z.eqb_neq _ _) H1), (proj2 (Z.eqb_neq _ _) H2). cbn [orb].
  by rewrite IH by lia.
Qed.

Lemma bytes_cstr m s l : Forall (fun c => c <> 0) l -> (forall j c, l !! j = Some c -> ldb m (s + Z.of_nat j) = c) ->
  ldb m (s + Z.of_nat (length l)) = 0 -> cstr m s l.
Proof.
  intros Hl. revert s. induction Hl as [|c l Hc Hl IH]; intros s Hb He; cbn [cstr length] in *; [by rewrite Z.add_0_r in He|].
  split; [done|]. split; [rewrite <-(Hb 0%nat c eq_refl); f_equal; lia|]. apply IH.
  - intros j d Hj. rewrite <-(Hb (S j) d Hj). f_equal. lia.
  - rewrite <-He. f_equal. lia.
Qed.

Lemma getcmd_line m l rest buf : plain l -> Forall (fun c => 0 <= c < 256) rest ->
  exists m', getcmd m (l ++ 10 :: rest) buf BUFLEN = (m', rest, true) /\ cstr m' buf (l ++ [10]).
Proof.
  intros [Hl Hlen] Hrest. unfold BUFLEN in *. unfold getcmd.
  assert (Forall (fun c => 0 <= c < 256) (l ++ 10 :: rest)) as Hin.
  { apply Forall_app. split; [eapply Forall_impl; [exact Hl|cbn; lia]|]. constructor; [lia|done]. }
  pose proof (gets_loop_spec (l ++ 10 :: rest) (stosb m buf 0 (Z.to_nat 100)) buf 0 100 ltac:(lia) Hin) as H.
  rewrite first_line_plain in H by (done || lia). destruct H as (m' & E & Hb & He & _). unfold Ulib.gets. rewrite E.
  rewrite !Z.add_0_r in *. assert (cstr m' buf (l ++ [10])) as Hc.
  { apply bytes_cstr; [|done|done]. apply Forall_app. split; [eapply Forall_impl; [exact Hl|cbn; lia]|by repeat constructor]. }
  exists m'. split; [|done]. assert (ldb m' buf <> 0) as Hne.
  { destruct l as [|c l]; cbn in Hc; [by destruct Hc as (? & -> & _)|by destruct Hc as (? & -> & _)]. }
  by rewrite (proj2 (Z.eqb_neq _ _) Hne).
Qed.

Lemma getcmd_eof m buf : exists m', getcmd m [] buf BUFLEN = (m', [], false).
Proof.
  unfold getcmd, Ulib.gets. cbn [gets_loop]. change (0 + 1 <? BUFLEN) with true. cbn iota. rewrite Z.add_0_r.
  eexists. by rewrite ldb_stb_eq.
Qed.

Lemma is_cd_line m buf l : cstr m buf (l ++ [10]) -> is_cd m buf = cd_line l.
Proof.
  intros H. unfold is_cd, cd_line.
  assert (forall (a b c : Z) l, (a =? 99) && (b =? 100) && (c =? 32) = bool_decide (a :: b :: c :: l = 99 :: 100 :: 32 :: l)) as Hb.
  { intros. case_bool_decide as E; [by injection E as -> -> ->|].
    destruct (Z.eqb_spec a 99) as [->|]; [|done]. destruct (Z.eqb_spec b 100) as [->|]; [|done].
    destruct (Z.eqb_spec c 32) as [->|]; [|done]. done. }
  destruct l as [|a [|b [|c l]]]; cbn in H; cbn [take].
  - destruct H as (_ & -> & _). done.
  - destruct H as (_ & -> & _ & E & _). rewrite E, bool_decide_eq_false_2 by done. by destruct (a =? 99).
  - destruct H as (_ & -> & _ & E1 & _ & E2 & _). replace (buf + 1 + 1) with (buf + 2) in E2 by lia.
    rewrite E1, E2, bool_decide_eq_false_2 by done. apply andb_false_r.
  - destruct H as (_ & -> & _ & E1 & _ & E2 & _). replace (buf + 1 + 1) with (buf + 2) in E2 by lia.
    rewrite E1, E2. by rewrite (Hb a b c []), take_0.
Qed.

Lemma cstr_app_end m s l c : cstr m s (l ++ [c]) -> cstr (stb m (s + Z.of_nat (length l)) 0) s l.
Proof.
  revert s. induction l as [|d l IH]; intros s; cbn [app cstr length]; [intros _; rewrite Z.add_0_r; apply ldb_stb_eq|].
  intros (Hd & Hs & Hl). split; [done|]. split; [by rewrite ldb_stb_ne by lia|].
  replace (s + Z.of_nat (S (length l))) with (s + 1 + Z.of_nat (length l)) by lia. by apply IH.
Qed.

Lemma cstr_drop m s l k : cstr m s l -> (k <= length l)%nat -> cstr m (s + Z.of_nat k) (drop k l).
Proof.
  revert s l. induction k as [|k IH]; intros s l Hl Hk; [by rewrite Z.add_0_r|].
  destruct l as [|c l]; cbn in Hk; [lia|]. destruct Hl as (_ & _ & Hl). cbn [drop].
  replace (s + Z.of_nat (S k)) with (s + 1 + Z.of_nat k) by lia. apply IH; [done|lia].
Qed.

Lemma chop_line m buf l : plain l -> cstr m buf (l ++ [10]) -> cstr (chop m buf) buf l.
Proof.
  intros [_ Hlen] Hc. unfold chop, BUFLEN in *. rewrite (strlen_cstr m buf (l ++ [10])); [|done|rewrite length_app; cbn; lia].
  rewrite length_app. cbn [length]. replace (buf + Z.of_nat (length l + 1) - 1) with (buf + Z.of_nat (length l)) by lia.
  by eapply cstr_app_end.
Qed.

(** ** Properties *)

(** The shell reads its input line by line.  For lines that fit into the
    buffer, [main] takes each line in turn until the end of the input: for
    [cd] it changes to the directory named after it, for every other line it
    runs what the parser makes of exactly that line. *)
Theorem shell_handles_lines buf m lines : Forall plain lines ->
  exists acts, main buf m (lines ≫= fun l => l ++ [10]) = Some acts /\ Forall2 (handles buf) lines acts.
Proof.
  intros Hlines. unfold main.
  assert (forall fuel m, (length lines < fuel)%nat ->
    exists acts, main_loop fuel buf m (lines ≫= fun l => l ++ [10]) = Some acts /\ Forall2 (handles buf) lines acts) as Hloop.
  { induction Hlines as [|l lines Hl Hlines IH]; intros [|fuel] m' Hf; cbn in Hf; try lia; cbn [main_loop].
    - cbn [mbind list_bind]. destruct (getcmd_eof m' buf) as (m1 & ->). by exists [].
    - change ((l :: lines) ≫= fun l => l ++ [10]) with ((l ++ [10]) ++ (lines ≫= fun l => l ++ [10])). rewrite <-app_assoc.
      destruct (getcmd_line m' l (lines ≫= fun l => l ++ [10]) buf Hl) as (m1 & E & Hc).
      { apply Forall_bind. eapply Forall_impl; [exact Hlines|]. intros l' [Hl' _]. apply Forall_app. split; [|by repeat constructor].
        eapply Forall_impl; [exact Hl'|]. cbn. lia. }
      cbn [app] in E |- *. rewrite E. cbn [negb]. rewrite (is_cd_line m1 buf l Hc).
      destruct (IH fuel (if cd_line l then chop m1 buf else m1) ltac:(lia)) as (acts & -> & Hacts).
      eexists. split; [reflexivity|]. constructor; [|done]. destruct (cd_line l) eqn:Hcd; cbn [handles].
      + split; [done|]. apply (cstr_drop _ buf l 3); [by apply chop_line|].
        unfold cd_line in Hcd. apply bool_decide_eq_true in Hcd. apply (f_equal length) in Hcd. rewrite length_take in Hcd. cbn [length] in Hcd. lia.
      + split; [done|]. by exists m1. }
  apply Hloop. clear Hloop. induction lines as [|l lines IH]; cbn; [lia|]. inversion_clear Hlines as [|?? _ H].
  specialize (IH H). rewrite !length_app. cbn. lia.
Qed.

(** C35: descriptors.  For every line that the parser accepts, the processes
    that [runcmd] starts are those of the command, each with exactly three
    descriptors: a redirection replaces one of them, a pipe connects the
    output of its left side to the input of its right side, and no process
    keeps an end of a pipe that is not its own. *)
Theorem runcmd_plumbing opens fuel m s l c m' i o e n :
  cstr m s l -> (length l < fuel)%nat -> parsecmd fuel m s = Ok (c, m') ->
  launch opens (runcmd c) (std i o e) n = plumb opens c i o e n.
Proof.
  intros Hl Hf E. destruct (spells_total l (cstr_nonzero _ _ _ Hl)) as (ts & Hs).
  pose proof (parsecmd_tokens m s l ts fuel Hl Hf Hs) as Hp.
  destruct (tline _ _) as [[a [|]]|]; [|destruct Hp; congruence..].
  destruct Hp as (c1 & m1 & E1 & Hst). rewrite E in E1. injection E1 as <- <-. by apply (runcmd_plumb opens c m' a).
Qed.

Lemma shell_handles_lines_witness :
  exists acts, main 500 ∅ ([99; 100; 32; 47; 10] ++ [108; 115; 10]) = Some acts /\
    Forall2 (handles 500) [[99; 100; 32; 47]; [108; 115]] acts.
Proof.
  apply (shell_handles_lines 500 ∅ [[99; 100; 32; 47]; [108; 115]]).
  repeat (apply List.Forall_cons; [split; [repeat (apply List.Forall_cons; [lia|]); apply List.Forall_nil|vm_compute; reflexivity]|]).
  apply List.Forall_nil.
Defined.

(** The line of ShParse.v: three programs and one pipe. *)
Lemma runcmd_plumbing_witness : exists c m', parsecmd 100 mem0 100 = Ok (c, m') /\
  launch (fun _ _ => true) (runcmd c) (std (Inherited 0) (Inherited 1) (Inherited 2)) 0 =
  ([([100; 103], std (Inherited 0) (Opened 108 wronly_create) (Inherited 2));
    ([113], std (ReadEnd 0) (Inherited 1) (Inherited 2));
    ([117], std (ReadEnd 0) (Inherited 1) (Inherited 2))], 1%nat).
Proof.
  destruct line0_parses as (m' & E). eexists _, m'. split; [exact E|].
  refine (eq_trans (runcmd_plumbing (fun _ _ => true) 100 mem0 100 line0 _ m' (Inherited 0) (Inherited 1) (Inherited 2) 0 _ _ E) _).
  - vm_compute. repeat split; discriminate.
  - vm_compute. lia.
  - reflexivity.
Defined.
