(* ===== verification/Printf.v ===== *)
(** * Formatted output

    [printint] and [printf] of the user library ([printf.c]) and [printint]
    and [cprintf] of the kernel ([console.c]): the characters that they write.
    The arguments of a call are the words on the stack after the format. *)

From Stdlib Require Import ZArith Lia.
From stdpp Require Import base strings numbers gmap list.
From S2P Require Import Prelude Mmu Memory CString Ulib.

(** ** Integers *)

Definition digits_upper (d : Z) : Z := if d <? 10 then 48 + d else 65 + (d - 10). (* 0123456789ABCDEF *)
Definition digits_lower (d : Z) : Z := if d <? 10 then 48 + d else 97 + (d - 10). (* 0123456789abcdef *)

(** [do buf[i++] = digits[x % base]; while((x /= base) != 0);] with [room]
    bytes of the buffer left: the digits, the last one first. *)
Fixpoint digits_loop (digits : Z -> Z) (room : nat) (x base : Z) : option (list Z) :=
  match room with
  | O => None
  | S r =>
      let d := digits (x mod base) in
      let x := x / base in
      if x =? 0 then Some [d] else cons d <$> digits_loop digits r x base
  end.

(** [None]: the buffer of 16 bytes overflows. *)
Definition printint_with (digits : Z -> Z) (xx base : Z) (sgn : bool) : option (list Z) :=
  let neg := sgn && (xx <? 0) in
  let x := if neg then u32 (- xx) else u32 xx in
  buf ← digits_loop digits 16 x base;
  let buf := if neg then buf ++ [45] else buf in
  if bool_decide (length buf <= 16)%nat then Some (rev buf) else None.

(** [printf.c] *)
Definition printint (xx base : Z) (sgn : bool) : option (list Z) := printint_with digits_upper xx base sgn.
(** [console.c] *)
Definition cons_printint (xx base : Z) (sign : bool) : option (list Z) := printint_with digits_lower xx base sign.

(** ** Formats *)

(** The bytes of the string at [s], [(null)] for a null pointer. *)
Fixpoint str_bytes (fuel : nat) (m : mem) (s : Z) : option (list Z) :=
  match fuel with
  | O => None
  | S f => if ldb m s =? 0 then Some [] else cons (ldb m s) <$> str_bytes f m (s + 1)
  end.
Definition null_str : list Z := [40; 110; 117; 108; 108; 41].
Definition str_arg (fuel : nat) (m : mem) (s : Z) : option (list Z) :=
  if s =? 0 then Some null_str else str_bytes fuel m s.

(** One argument, consumed: [*ap++]. *)
Definition arg (ap : list Z) : option (Z * list Z) :=
  match ap with [] => None | a :: ap' => Some (a, ap') end.

Section fmt.
Context (fuel : nat) (m : mem).

(** The output for the conversion [c], and the arguments left. *)
Definition conversion (c : Z) (ap : list Z) : option (list Z * list Z) :=
  if c =? 100 (* d *) then '(a, ap) ← arg ap; out ← printint (s32 a) 10 true; Some (out, ap)
  else if (c =? 120) || (c =? 112) (* x, p *) then '(a, ap) ← arg ap; out ← printint (s32 a) 16 false; Some (out, ap)
  else if c =? 115 (* s *) then '(a, ap) ← arg ap; out ← str_arg fuel m a; Some (out, ap)
  else if c =? 99 (* c *) then '(a, ap) ← arg ap; Some ([a mod 256], ap)
  else if c =? 37 (* % *) then Some ([c], ap)
  else Some ([37; c], ap). (* unknown sequence: print it to draw attention *)

(** [printf] on the characters of the format; [state] says whether the last
    one was a percent sign. *)
Fixpoint printf_loop (fmt : list Z) (state : bool) (ap : list Z) : option (list Z) :=
  match fmt with
  | [] => Some []
  | c :: fmt =>
      if negb state then
        if c =? 37 then printf_loop fmt true ap else cons c <$> printf_loop fmt false ap
      else
        '(out, ap) ← conversion c ap;
        app out <$> printf_loop fmt false ap
  end.
Definition printf (fmt : list Z) (ap : list Z) : option (list Z) := printf_loop fmt false ap.

(** [cprintf]: the kernel's version has no [%c]. *)
Definition cons_conversion (c : Z) (ap : list Z) : option (list Z * list Z) :=
  if c =? 100 then '(a, ap) ← arg ap; out ← cons_printint (s32 a) 10 true; Some (out, ap)
  else if (c =? 120) || (c =? 112) then '(a, ap) ← arg ap; out ← cons_printint (s32 a) 16 false; Some (out, ap)
  else if c =? 115 then '(a, ap) ← arg ap; out ← str_arg fuel m a; Some (out, ap)
  else if c =? 37 then Some ([c], ap)
  else Some ([37; c], ap).

Fixpoint cprintf_out (fmt : list Z) (ap : list Z) : option (list Z) :=
  match fmt with
  | [] => Some []
  | c :: fmt1 =>
      if negb (c =? 37) then cons c <$> cprintf_out fmt1 ap
      else match fmt1 with
           | [] => Some []
           | c :: fmt2 => '(out, ap) ← cons_conversion c ap; app out <$> cprintf_out fmt2 ap
           end
  end.
End fmt.

(** ** Numerals *)

(** The value of a list of digits, the last one first. *)
Fixpoint value_rev (base : Z) (ds : list Z) : Z :=
  match ds with [] => 0 | d :: ds => d + base * value_rev base ds end.

Lemma digits_loop_spec digits base r : 2 <= base -> forall x, 0 <= x < base ^ Z.of_nat (S r) ->
  exists ds, digits_loop digits (S r) x base = Some (digits <$> ds) /\ value_rev base ds = x /\
    Forall (fun d => 0 <= d < base) ds /\ (0 < length ds <= S r)%nat.
Proof.
  intros Hb. induction r as [|r IH]; intros x Hx; rewrite Nat2Z.inj_succ, Z.pow_succ_r in Hx by lia.
  - cbn in Hx. exists [x mod base]. cbn [digits_loop]. rewrite (Z.div_small x base) by lia. cbn.
    rewrite Z.mod_small by lia. split; [done|]. split; [lia|]. split; [|lia]. constructor; [lia|constructor].
  - change (digits_loop digits (S (S r)) x base) with
      (if x / base =? 0 then Some [digits (x mod base)]
       else cons (digits (x mod base)) <$> digits_loop digits (S r) (x / base) base).
    assert (0 <= x mod base < base) as Hm by (apply Z.mod_pos_bound; lia).
    assert (0 <= x / base < base ^ Z.of_nat (S r)) as Hd.
    { split; [apply Z.div_pos; lia|]. apply Z.div_lt_upper_bound; lia. }
    pose proof (Z.div_mod x base ltac:(lia)) as E. destruct (Z.eqb_spec (x / base) 0) as [E0|_].
    + exists [x mod base]. cbn. split; [done|]. split; [lia|]. split; [|lia]. constructor; [done|constructor].
    + destruct (IH _ Hd) as (ds & -> & Hv & Hf & Hl). exists (x mod base :: ds). cbn.
      split; [done|]. rewrite Hv. split; [lia|]. split; [by constructor|lia].
Qed.

(** [printint] never overflows its buffer. *)
Lemma printint_with_spec digits xx base sgn : base = 10 \/ base = 16 -> - 2147483648 <= xx < two32 ->
  exists ds, printint_with digits xx base sgn =
      Some ((if sgn && (xx <? 0) then [45] else []) ++ rev (digits <$> ds)) /\
    value_rev base ds = (if sgn && (xx <? 0) then - xx else u32 xx) /\
    Forall (fun d => 0 <= d < base) ds /\ (0 < length ds)%nat.
Proof.
  intros Hb Hx. unfold printint_with. set (neg := sgn && (xx <? 0)).
  assert ((if neg then u32 (- xx) else u32 xx) = (if neg then - xx else u32 xx)) as ->.
  { unfold neg. destruct sgn, (Z.ltb_spec xx 0); cbn; try done. apply u32_small. unfold two32. lia. }
  assert (0 <= (if neg then - xx else u32 xx) < base ^ Z.of_nat 10) as Hr.
  { assert (two32 <= base ^ Z.of_nat 10) by (destruct Hb as [-> | ->]; unfold two32; cbn; lia).
    pose proof (u32_range xx). unfold neg. destruct sgn, (Z.ltb_spec xx 0); cbn; unfold two32 in *; lia. }
  assert (forall a b x y, (a <= b)%nat -> digits_loop digits a x base = Some y -> digits_loop digits b x base = Some y) as Hmono.
  { clear. induction a as [|a IH]; intros [|b] x y Hab; cbn; try done; try lia. case_if; [done|].
    intros (l & Hl & ->)%fmap_Some. by rewrite (IH b _ l) by (done || lia). }
  destruct (digits_loop_spec digits base 9 ltac:(lia) _ Hr) as (ds & Hds & Hv & Hf & Hl).
  rewrite (Hmono 10%nat 16%nat _ _ ltac:(lia) Hds). cbn [mbind option_bind]. exists ds.
  split; [|by split_and!; try lia]. rewrite bool_decide_true.
  - f_equal. destruct neg; [|done]. by rewrite rev_app_distr.
  - destruct neg; rewrite ?length_app, length_fmap; cbn; lia.
Qed.

Lemma printint_neg digits x l : printint_with digits x 10 false = Some l -> 0 < x <= 2147483648 ->
  printint_with digits (- x) 10 true = Some (45 :: l).
Proof.
  intros Hp Hx. unfold printint_with in Hp. cbn [andb] in Hp.
  destruct (printint_with_spec digits (- x) 10 true ltac:(lia) ltac:(unfold two32; lia)) as (ds & Hn & _).
  rewrite Hn. unfold printint_with in Hn. rewrite (proj2 (Z.ltb_lt (- x) 0)) in * by lia. cbn [andb] in *.
  rewrite Z.opp_involutive in Hn. destruct (digits_loop digits 16 (u32 x) 10) as [b|]; cbn in Hp, Hn; [|done].
  case_bool_decide; [|done]. case_bool_decide; [|done]. injection Hp as <-. injection Hn as Hn.
  rewrite rev_app_distr in Hn. cbn in Hn. injection Hn as Hn. cbn. by rewrite Hn.
Qed.

Lemma rev_fmap {A B} (f : A -> B) l : rev (f <$> l) = f <$> rev l.
Proof. induction l as [|x l IH]; [done|]. cbn. by rewrite IH, fmap_app. Qed.

(** Reading decimal digits. *)
Definition read_digits (n : Z) (ds : list Z) : Z := foldl (fun n d => n * 10 + d) n ds.

Lemma read_digits_le ds : forall n, 0 <= n -> Forall (fun d => 0 <= d < 10) ds -> n <= read_digits n ds.
Proof.
  induction ds as [|d ds IH]; intros n Hn Hds; cbn; [lia|]. apply Forall_cons in Hds as [Hd Hds].
  specialize (IH (n * 10 + d) ltac:(lia) Hds). unfold read_digits in IH. lia.
Qed.

Lemma read_digits_rev ds : read_digits 0 (rev ds) = value_rev 10 ds.
Proof.
  induction ds as [|d ds IH]; [done|]. cbn [rev value_rev]. unfold read_digits in *. rewrite foldl_app, IH. cbn. lia.
Qed.

Lemma atoi_loop_spec m ds : forall s n fuel, 0 <= n -> Forall (fun d => 0 <= d < 10) ds ->
  read_digits n ds < 2147483648 -> cstr m s ((fun d => 48 + d) <$> ds) -> (length ds < fuel)%nat ->
  atoi_loop fuel m s n = Some (read_digits n ds).
Proof.
  induction ds as [|d ds IH]; intros s n [|fuel] Hn Hds Hr Hm Hf; cbn [length] in *; try lia; cbn [atoi_loop].
  - cbn in Hm. by rewrite Hm.
  - apply Forall_cons in Hds as [Hd Hds]. cbn in Hm. destruct Hm as (_ & -> & Hm).
    rewrite (proj2 (Z.leb_le 48 _)), (proj2 (Z.leb_le _ 57)) by lia. cbn [andb].
    assert (s32 (n * 10 + (48 + d) - 48) = n * 10 + d) as ->.
    { pose proof (read_digits_le ds (n * 10 + d) ltac:(lia) Hds) as Hle. unfold read_digits in *. cbn in Hr.
      rewrite s32_small by lia. lia. }
    apply IH; try done; lia.
Qed.

(** Printing and reading integers: [printint] never overflows its buffer
    on an [int]; what it prints for a number that is not negative is read
    back by [atoi] as the same number, a negative number is printed as the
    minus sign and its absolute value, [INT_MIN] included. *)
Theorem printint_atoi xx : 0 <= xx < 2147483648 ->
  (exists l, printint xx 10 true = Some l /\
     forall m s fuel, cstr m s l -> (length l < fuel)%nat -> atoi fuel m s = Some xx) /\
  exists l', printint (- (xx + 1)) 10 true = Some (45 :: l') /\ printint (xx + 1) 10 false = Some l'.
Proof.
  intros Hx. unfold printint. split.
  - destruct (printint_with_spec digits_upper xx 10 true ltac:(lia) ltac:(unfold two32; lia)) as (ds & -> & Hv & Hf & Hl).
    rewrite (proj2 (Z.ltb_ge xx 0)) in * by lia. cbn [andb app] in *. eexists. split; [done|].
    intros m s fuel Hs Hfu. rewrite u32_small in Hv by (unfold two32; lia). unfold atoi.
    rewrite rev_fmap in Hs, Hfu. rewrite length_fmap in Hfu.
    assert (Forall (fun d => 0 <= d < 10) (rev ds)) as Hf' by (by apply Forall_rev).
    rewrite (atoi_loop_spec m (rev ds)); try done; [by rewrite read_digits_rev, Hv|rewrite read_digits_rev, Hv; lia|].
    assert (digits_upper <$> rev ds = (fun d => 48 + d) <$> rev ds) as <-; [|done].
    apply list_fmap_ext. intros i d Hd. rewrite Forall_lookup in Hf'. specialize (Hf' i d Hd). unfold digits_upper.
    by rewrite (proj2 (Z.ltb_lt d 10)) by lia.
  - destruct (printint_with_spec digits_upper (xx + 1) 10 false ltac:(lia) ltac:(unfold two32; lia)) as (ds & Hp & _).
    cbn [andb app] in Hp. exists (rev (digits_upper <$> ds)). by rewrite (printint_neg _ _ _ Hp) by lia.
Qed.

Lemma printint_atoi_witness : exists l, printint 2026 10 true = Some l /\
  forall m s fuel, cstr m s l -> (length l < fuel)%nat -> atoi fuel m s = Some 2026.
Proof. exact (proj1 (printint_atoi 2026 ltac:(lia))). Defined.

(** ** The meaning of a format *)

Inductive directive :=
  | Lit (c : Z) (* an ordinary character *)
  | DDec | DHex | DPtr | DStr | DChr | DPct.

Definition directive_ok (d : directive) : Prop := match d with Lit c => c <> 37 | _ => True end.
Definition fmt1 (d : directive) : list Z :=
  match d with
  | Lit c => [c]
  | DDec => [37; 100] | DHex => [37; 120] | DPtr => [37; 112]
  | DStr => [37; 115] | DChr => [37; 99] | DPct => [37; 37]
  end.
Definition fmt_of (ds : list directive) : list Z := ds ≫= fmt1.

(** What one directive prints, with the digits of [digits]. *)
Definition render1 (fuel : nat) (m : mem) (digits : Z -> Z) (d : directive) (ap : list Z) : option (list Z * list Z) :=
  match d with
  | Lit c => Some ([c], ap)
  | DDec => '(a, ap) ← arg ap; out ← printint_with digits (s32 a) 10 true; Some (out, ap)
  | DHex | DPtr => '(a, ap) ← arg ap; out ← printint_with digits (s32 a) 16 false; Some (out, ap)
  | DStr => '(a, ap) ← arg ap; out ← str_arg fuel m a; Some (out, ap)
  | DChr => '(a, ap) ← arg ap; Some ([a mod 256], ap)
  | DPct => Some ([37], ap)
  end.
Fixpoint render (fuel : nat) (m : mem) (digits : Z -> Z) (ds : list directive) (ap : list Z) : option (list Z) :=
  match ds with
  | [] => Some []
  | d :: ds => '(out, ap) ← render1 fuel m digits d ap; app out <$> render fuel m digits ds ap
  end.

(** [printf] and the kernel's [cprintf] print what the format means: the
    ordinary characters, and for each conversion its argument in the notation
    asked for (hexadecimal in capitals by [printf], in small letters by
    [cprintf], which has no [%c]). *)
Theorem printf_correct fuel m ds : Forall directive_ok ds -> forall ap,
  printf fuel m (fmt_of ds) ap = render fuel m digits_upper ds ap /\
  (DChr ∉ ds -> cprintf_out fuel m (fmt_of ds) ap = render fuel m digits_lower ds ap).
Proof.
  induction 1 as [|d ds Hd Hds IH]; intros ap; [done|].
  change (fmt_of (d :: ds)) with (fmt1 d ++ fmt_of ds). unfold printf in *. split.
  - destruct d as [c| | | | | |]; cbn [fmt1 app printf_loop negb render render1].
    { cbn in Hd. rewrite (proj2 (Z.eqb_neq c 37)) by done. cbn. rewrite (proj1 (IH ap)). done. }
    all: cbn [Z.eqb Pos.eqb].
    all: match goal with |- mbind _ ?x = mbind _ ?y => change x with y; destruct y as [[out ap']|]; cbn; [|done] end.
    all: by rewrite (proj1 (IH ap')).
  - intros [Hne Hn]%not_elem_of_cons. destruct d as [c| | | | | |]; cbn [fmt1 app cprintf_out negb render render1].
    { cbn in Hd. rewrite (proj2 (Z.eqb_neq c 37)) by done. cbn. rewrite (proj2 (IH ap)) by done. done. }
    5: done.
    all: cbn [Z.eqb Pos.eqb negb].
    all: match goal with |- mbind _ ?x = mbind _ ?y => change x with y; destruct y as [[out ap']|]; cbn; [|done] end.
    all: by rewrite (proj2 (IH ap')) by done.
Qed.

Lemma printf_correct_witness :
  printf 5 hello (fmt_of [Lit 58; DDec; DStr]) [two32 - 7; 16] = Some [58; 45; 55; 104; 101; 108; 108].
Proof.
  rewrite (proj1 (printf_correct 5 hello [Lit 58; DDec; DStr] ltac:(repeat constructor; done) [two32 - 7; 16])).
  by vm_compute.
Defined.
