(* ===== verification/UserProgs.v ===== *)
(** * Small user programs

    [wc.c], [cat.c], [echo.c], [mkdir.c], [rm.c], [ln.c], [kill.c]
    and [main] of [grep.c].  A descriptor is the input behind it ([Grep]),
    with a flag that says whether the read at its end fails; the results of
    other system calls are arguments.  Output is the list of bytes written,
    formatted by [printf] of [Printf]; [None] means that it failed to
    terminate a string. *)

From Stdlib Require Import ZArith Lia.
From stdpp Require Import base strings numbers gmap list.
From S2P Require Import Prelude Mmu Memory CString Ulib Grep Printf.

(** The bytes of a literal; [NL] is the newline. *)
Definition bytes (s : string) : list Z := (fun c => Z.of_N (Ascii.N_of_ascii c)) <$> String.list_ascii_of_string s.
Abbreviation NL := ([10 : Z]).

Section programs.
(** The memory of the process, in which the arguments are strings. *)
Context (fuel : nat) (m : mem).
Abbreviation print := (printf fuel m).

(** ** wc *)

(** [strchr(" \r\t\n\v", c)] *)
Definition space (c : Z) : bool := bool_decide (c ∈ [32; 13; 9; 10; 11]).

Record counts := mk_counts { n_l : Z; n_w : Z; n_c : Z; inword : bool }.
Definition wc_char (k : counts) (b : Z) : counts :=
  let c := s32 (n_c k + 1) in
  let l := if b =? 10 then s32 (n_l k + 1) else n_l k in
  if space b then mk_counts l (n_w k) c false
  else if negb (inword k) then mk_counts l (s32 (n_w k + 1)) c true
  else mk_counts l (n_w k) c true.

(** [while((n = read(fd, buf, sizeof(buf))) > 0)] *)
Fixpoint wc_loop (n : nat) (st : input) (k : counts) : option counts :=
  match n with
  | O => None
  | S n =>
      let '(got, st) := read st 512 in
      if bool_decide (got = []) then Some k else wc_loop n st (foldl wc_char k got)
  end.

(** The bytes written, and whether the program has exited. *)
Definition wc (st : input) (fails : bool) (name : Z) : option (list Z * bool) :=
  k ← wc_loop (S (length (in_data st))) st (mk_counts 0 0 0 false);
  if fails then o ← print (bytes "wc: read error" ++ NL) []; Some (o, true)
  else o ← print (bytes "%d %d %d %s" ++ NL) [n_l k; n_w k; n_c k; name]; Some (o, false).

(** ** cat *)

(** [wr] tells which of the writes to come succeed; all do when it ends. *)
Fixpoint cat_loop (n : nat) (st : input) (wr : list bool) (out : list Z) : option (list Z * bool * list bool) :=
  match n with
  | O => None
  | S n =>
      let '(got, st) := read st 512 in
      if bool_decide (got = []) then Some (out, false, wr)
      else if match wr with [] => true | ok :: _ => ok end then cat_loop n st (tail wr) (out ++ got)
      else o ← print (bytes "cat: write error" ++ NL) []; Some (out ++ o, true, tail wr)
  end.
Definition cat (st : input) (fails : bool) (wr : list bool) : option (list Z * bool * list bool) :=
  '(out, ended, wr) ← cat_loop (S (length (in_data st))) st wr [];
  if ended : bool then Some (out, true, wr)
  else if fails then o ← print (bytes "cat: read error" ++ NL) []; Some (out ++ o, true, wr)
  else Some (out, false, wr).

(** ** The loops over the arguments *)

(** Each argument with what [open] gives for it. *)
Abbreviation opened := (list (Z * option (input * bool))).

Fixpoint wc_files (args : opened) : option (list Z) :=
  match args with
  | [] => Some []
  | (name, None) :: _ => print (bytes "wc: cannot open %s" ++ NL) [name]
  | (name, Some (st, fails)) :: args =>
      '(o, ended) ← wc st fails name;
      if ended : bool then Some o else app o <$> wc_files args
  end.
(** [empty] is the address of the empty string. *)
Definition wc_main (stdin : input * bool) (empty : Z) (args : opened) : option (list Z) :=
  match args with
  | [] => fst <$> wc stdin.1 stdin.2 empty
  | _ => wc_files args
  end.

Fixpoint cat_files (args : opened) (wr : list bool) : option (list Z) :=
  match args with
  | [] => Some []
  | (name, None) :: _ => print (bytes "cat: cannot open %s" ++ NL) [name]
  | (name, Some (st, fails)) :: args =>
      '(o, ended, wr) ← cat st fails wr;
      if ended : bool then Some o else app o <$> cat_files args wr
  end.
Definition cat_main (stdin : input * bool) (args : opened) (wr : list bool) : option (list Z) :=
  match args with
  | [] => (fun r => r.1.1) <$> cat stdin.1 stdin.2 wr
  | _ => cat_files args wr
  end.

Fixpoint grep_files (pattern : list Z) (args : opened) : option (list Z) :=
  match args with
  | [] => Some []
  | (name, None) :: _ => print (bytes "grep: cannot open %s" ++ NL) [name]
  | (_, Some (st, _)) :: args => o ← grep pattern st; app o <$> grep_files pattern args
  end.
(** [args] are those behind the pattern; without a pattern the usage is
    printed on descriptor 2. *)
Definition grep_main (stdin : input) (pattern : option (list Z)) (args : opened) : option (list Z) :=
  match pattern, args with
  | None, _ => print (bytes "usage: grep pattern [file ...]" ++ NL) []
  | Some p, [] => grep p stdin
  | Some p, _ => grep_files p args
  end.

(** [printf(1, "%s%s", argv[i], i+1 < argc ? " " : NL)] *)
Fixpoint echo_main (args : list Z) : option (list Z) :=
  match args with
  | [] => Some []
  | a :: args =>
      o ← str_arg fuel m a;
      app (o ++ match args with [] => NL | _ => [32] end) <$> echo_main args
  end.

(** [mkdir] and [rm]: the result of the system call on each argument; the
    first that fails is reported on descriptor 2 and ends the loop.  The
    arguments that were tried, and the output. *)
Fixpoint each_arg (call : Z -> Z) (fmt : list Z) (args : list Z) : option (list Z * list Z) :=
  match args with
  | [] => Some ([], [])
  | a :: args =>
      if call a <? 0 then o ← print fmt [a]; Some ([a], o)
      else '(tried, o) ← each_arg call fmt args; Some (a :: tried, o)
  end.
Definition mkdir_main (mkdir : Z -> Z) (args : list Z) : option (list Z * list Z) :=
  match args with
  | [] => o ← print (bytes "Usage: mkdir files..." ++ NL) []; Some ([], o)
  | _ => each_arg mkdir (bytes "mkdir: %s failed to create" ++ NL) args
  end.
Definition rm_main (unlink : Z -> Z) (args : list Z) : option (list Z * list Z) :=
  match args with
  | [] => o ← print (bytes "Usage: rm files..." ++ NL) []; Some ([], o)
  | _ => each_arg unlink (bytes "rm: %s failed to delete" ++ NL) args
  end.
Definition ln_main (link : Z -> Z -> Z) (args : list Z) : option (list Z) :=
  match args with
  | [old; new] => if link old new <? 0 then print (bytes "link %s %s: failed" ++ NL) [old; new] else Some []
  | _ => print (bytes "Usage: ln old new" ++ NL) []
  end.
(** The process numbers killed, and the output. *)
Definition kill_main (args : list Z) : option (list Z * list Z) :=
  match args with
  | [] => o ← print (bytes "usage: kill pid..." ++ NL) []; Some ([], o)
  | _ => pids ← mapM (fun a => atoi fuel m a) args; Some (pids, [])
  end.
End programs.

(** ** Counting *)

(** Lines, words and characters: a word starts at a character that is no
    space, at the start of the text or behind a space. *)
Definition lines_of (l : list Z) : Z := Z.of_nat (length (filter (fun b => b = 10) l)).
Definition word_starts (l : list Z) (i : nat) : bool :=
  match l !! i with
  | Some b => negb (space b) && match i with O => true | S j => match l !! j with Some a => space a | None => false end end
  | None => false
  end.
Definition words_of (l : list Z) : Z := Z.of_nat (length (filter (fun i => word_starts l i = true) (seq 0 (length l)))).

Lemma filter_ext_in {A} (P Q : A -> Prop) `{!forall x, Decision (P x), !forall x, Decision (Q x)} (l : list A) :
  (forall x, x ∈ l -> P x <-> Q x) -> filter P l = filter Q l.
Proof.
  induction l as [|x l IH]; intros HPQ; [done|]. rewrite !filter_cons.
  assert (P x <-> Q x) as Hx by (apply HPQ; by left). rewrite IH by (intros; apply HPQ; by right).
  repeat case_decide; try done; tauto.
Qed.

Lemma words_of_snoc l b : words_of (l ++ [b]) = words_of l + if negb (space b) && match last l with Some a => space a | None => true end then 1 else 0.
Proof.
  unfold words_of. rewrite length_app. cbn [length]. rewrite Nat.add_1_r, seq_S, filter_app, length_app. cbn [Nat.add].
  rewrite (filter_ext_in (fun i => word_starts (l ++ [b]) i = true) (fun i => word_starts l i = true)).
  - rewrite filter_cons, filter_nil. assert (word_starts (l ++ [b]) (length l) = negb (space b) && match last l with Some a => space a | None => true end) as ->.
    { unfold word_starts. rewrite list_lookup_middle by done. f_equal. rewrite last_lookup.
      destruct l as [|x l]; [done|]. cbn [length Init.Nat.pred]. rewrite lookup_app_l by (cbn; lia).
      by destruct (lookup_lt_is_Some_2 (x :: l) (length l)) as [y ->]; [cbn; lia|]. }
    destruct (_ && _); [rewrite decide_True by done|rewrite decide_False by done]; cbn [length]; lia.
  - intros i Hi%elem_of_seq. unfold word_starts. rewrite lookup_app_l by lia.
    destruct i as [|j]; [done|]. by rewrite (lookup_app_l _ _ j) by lia.
Qed.

(** What the counters hold after the text [l]. *)
Definition counted (l : list Z) (k : counts) : Prop :=
  n_l k = lines_of l /\ n_w k = words_of l /\ n_c k = Z.of_nat (length l) /\
  inword k = match last l with Some a => negb (space a) | None => false end.

Lemma lines_of_le l : lines_of l <= Z.of_nat (length l).
Proof. unfold lines_of. pose proof (length_filter (fun b => b = 10) l). lia. Qed.
Lemma words_of_le l : words_of l <= Z.of_nat (length l).
Proof. unfold words_of. pose proof (length_filter (fun i => word_starts l i = true) (seq 0 (length l))). rewrite length_seq in *. lia. Qed.

Lemma wc_char_counted l b k : Z.of_nat (length l) + 1 < 2147483648 -> counted l k -> counted (l ++ [b]) (wc_char k b).
Proof.
  intros Hl (H1 & H2 & H3 & H4). unfold counted. rewrite words_of_snoc, last_snoc, length_app. unfold lines_of in *. rewrite filter_app, length_app, filter_cons, filter_nil.
  pose proof (words_of_le l). pose proof (lines_of_le l). unfold lines_of in *.
  assert (0 <= words_of l) by (unfold words_of; lia).
  unfold wc_char. rewrite H1, H2, H3, H4. rewrite !s32_small by lia.
  destruct (Z.eqb_spec b 10) as [->|Hne]; [rewrite decide_True by done|rewrite decide_False by done];
    destruct (space _) eqn:Hs, (last l) as [a|]; try destruct (space a); cbn [n_l n_w n_c inword negb andb length Nat.add]; rewrite ?s32_small by lia;
    repeat split; try done; lia.
Qed.

Lemma foldl_counted got pre k : Z.of_nat (length (pre ++ got)) < 2147483648 -> counted pre k -> counted (pre ++ got) (foldl wc_char k got).
Proof.
  revert pre k. induction got as [|b got IH]; intros pre k Hl Hk; [by rewrite app_nil_r|].
  rewrite cons_middle, app_assoc in *. cbn [foldl]. apply IH; [done|]. apply wc_char_counted; [|done].
  rewrite !length_app in Hl. cbn in Hl. lia.
Qed.

(** A read takes a piece from the front, which is empty only at the end. *)
Lemma read_spec st n : (0 < n)%nat -> exists got st', read st n = (got, st') /\ in_data st = got ++ in_data st' /\ (got = [] -> in_data st = []).
Proof.
  intros Hn. unfold read. eexists _, _. split; [reflexivity|]. cbn [in_data]. split; [by rewrite take_drop|].
  destruct (in_data st) as [|x l]; [done|]. intros Ht. exfalso. apply (f_equal length) in Ht.
  rewrite length_take in Ht. cbn [length] in Ht. destruct (in_short st); lia.
Qed.

Lemma wc_loop_counted n st pre k : (length (in_data st) < n)%nat -> Z.of_nat (length (pre ++ in_data st)) < 2147483648 -> counted pre k ->
  exists k', wc_loop n st k = Some k' /\ counted (pre ++ in_data st) k'.
Proof.
  revert st pre k. induction n as [|n IH]; intros st pre k Hn Hl Hk; [lia|]. cbn [wc_loop].
  destruct (read_spec st 512) as (got & st' & -> & Hd & He); [lia|]. rewrite Hd in *. case_bool_decide as Hg.
  - exists k. split; [done|]. rewrite He, app_nil_r by done. done.
  - destruct (IH st' (pre ++ got) (foldl wc_char k got)) as (k' & -> & Hk').
    + rewrite length_app in Hn. destruct got; [done|]. cbn in Hn. lia.
    + by rewrite <-app_assoc.
    + apply foldl_counted; [|done]. rewrite !length_app in *. lia.
    + exists k'. split; [done|]. by rewrite app_assoc.
Qed.

Lemma cat_loop_copies fuel m n st out : (length (in_data st) < n)%nat -> cat_loop fuel m n st [] out = Some (out ++ in_data st, false, []).
Proof.
  revert st out. induction n as [|n IH]; intros st out Hn; [lia|]. cbn [cat_loop].
  destruct (read_spec st 512) as (got & st' & -> & Hd & He); [lia|]. rewrite Hd in *. case_bool_decide as Hg.
  - by rewrite He, app_nil_r by done.
  - cbn [tail]. rewrite IH; [by rewrite app_assoc|]. rewrite length_app in Hn. destruct got; [done|]. cbn in Hn. lia.
Qed.

(** [wc] and [cat] do not depend on how [read] splits a file.  Whatever
    pieces the reads return, [wc] terminates and prints the lines, words and
    characters of the whole file, and [cat] copies each of its files to its
    output, one after the other. *)
Theorem wc_cat_correct fuel m st name files :
  Z.of_nat (length (in_data st)) < 2147483648 ->
  wc fuel m st false name =
    (o ← printf fuel m (bytes "%d %d %d %s" ++ NL) [lines_of (in_data st); words_of (in_data st); Z.of_nat (length (in_data st)); name]; Some (o, false)) /\
  cat_files fuel m ((fun '(a, st) => (a, Some (st, false))) <$> files) [] = Some (concat ((fun '(_, st) => in_data st) <$> files)).
Proof.
  intros Hl. split.
  - unfold wc. destruct (wc_loop_counted (S (length (in_data st))) st [] (mk_counts 0 0 0 false)) as (k & -> & H1 & H2 & H3 & _); [lia|done|done|].
    cbn [app] in *. cbn [mbind option_bind]. by rewrite H1, H2, H3.
  - induction files as [|[a st'] files IH]; [done|]. cbn [fmap list_fmap cat_files concat]. unfold cat.
    rewrite cat_loop_copies by lia. cbn. by rewrite IH.
Qed.

Lemma wc_cat_correct_witness :
  let st := mk_input [97; 32; 98; 99; 10; 100] [0; 2; 0]%nat in
  wc 3 ∅ st false 16 = Some ([49; 32; 51; 32; 54; 32; 10], false) /\
  cat_files 3 ∅ [(8, Some (st, false)); (9, Some (st, false))] [] = Some (in_data st ++ in_data st).
Proof.
  intros st. destruct (wc_cat_correct 3 ∅ st 16 [(8, st); (9, st)] ltac:(reflexivity)) as [Hw Hc].
  split; [rewrite Hw; vm_compute; reflexivity|exact Hc].
Defined.
