(* ===== verification/Ls.v ===== *)
(** * The user program ls

    [fmtname] and [ls] of [ls.c] on the memory of the process, with [memset]
    and [strlen] of [ulib.c].  What the file system answers enters as
    arguments: the status and the directory entries behind a path. *)

From Stdlib Require Import ZArith Lia.
From stdpp Require Import base strings numbers gmap list.
From S2P Require Import Prelude Mmu Memory CString Layout Fs Ulib Grep Printf UserProgs.

(** ** Operations *)

(** [stosb(dst, c, n)] *)
Definition umemset (m : mem) (dst c n : Z) : mem := stosb m dst c (Z.to_nat n).
(** [for(n = 0; s[n]; n++);] *)
Definition ustrlen (fuel : nat) (m : mem) (s : Z) : option Z := strlen m s fuel.

(** Bytes of a structure copied to [a]. *)
Fixpoint put_list (m : mem) (a : Z) (l : list Z) : mem :=
  match l with [] => m | v :: l => put_list (stb m a v) (a + 1) l end.

(** [struct stat], as far as it is printed. *)
Record ustat := mk_ustat { st_type : Z; st_ino : Z; st_size : Z }.

Section ls.
(** The buffer of [fmtname], the one of [ls]. *)
Context (fuel : nat) (sbuf buf : Z).
(** What [open] gives for a path: the result of [fstat] and the entries that
    the reads return; and the result of [stat]. *)
Context (openf : list Z -> option (option ustat * list (Z * list Z))) (statf : list Z -> option ustat).

(** [for(p=path+n; p >= path && *p != '/'; p--);] *)
Fixpoint rscan (m : mem) (path : Z) (n : nat) : Z :=
  if ldb m (path + Z.of_nat n) =? 47 then path + Z.of_nat n
  else match n with O => path - 1 | S n' => rscan m path n' end.

Definition fmtname (m : mem) (path : Z) : option (mem * Z) :=
  n ← ustrlen fuel m path;
  let p := rscan m path (Z.to_nat n) + 1 in
  k ← ustrlen fuel m p;
  (* Return blank-padded name. *)
  if DIRSIZ <=? k then Some (m, p)
  else Some (umemset (Ulib.memmove m sbuf p k) (sbuf + k) 32 (DIRSIZ - k), sbuf).

(** [printf(1, "%s %d %d %d\n", fmtname(path), st.type, st.ino, st.size)] *)
Definition show (m : mem) (path : Z) (st : ustat) : option (mem * list Z) :=
  '(m, r) ← fmtname m path;
  o ← printf fuel m (bytes "%s %d %d %d" ++ NL) [r; st_type st; st_ino st; st_size st];
  Some (m, o).

(** [while(read(fd, &de, sizeof(de)) == sizeof(de))] *)
Fixpoint ls_entries (m : mem) (p : Z) (ents : list (Z * list Z)) : option (mem * list Z) :=
  match ents with
  | [] => Some (m, [])
  | (inum, name) :: ents =>
      if inum =? 0 then ls_entries m p ents
      else
        let m := put_list m p name in
        let m := stb m (p + DIRSIZ) 0 in
        path ← str_bytes fuel m buf;
        '(m, o) ← match statf path with
                  | None => o ← printf fuel m (bytes "ls: cannot stat %s" ++ NL) [buf]; Some (m, o)
                  | Some st => show m buf st
                  end;
        '(m, o') ← ls_entries m p ents;
        Some (m, o ++ o')
  end.

Definition ls (m : mem) (path : Z) : option (mem * list Z) :=
  l ← str_bytes fuel m path;
  match openf l with
  | None => o ← printf fuel m (bytes "ls: cannot open %s" ++ NL) [path]; Some (m, o)
  | Some (None, _) => o ← printf fuel m (bytes "ls: cannot stat %s" ++ NL) [path]; Some (m, o)
  | Some (Some st, ents) =>
      if st_type st =? T_FILE then show m path st
      else if st_type st =? T_DIR then
        n ← ustrlen fuel m path;
        if 512 <? n + 1 + DIRSIZ + 1 then o ← printf fuel m (bytes "ls: path too long" ++ NL) []; Some (m, o)
        else
          m ← strcpy fuel m buf path;
          n ← ustrlen fuel m buf;
          ls_entries (stb m (buf + n) 47) (buf + n + 1) ents
      else Some (m, [])
  end.

Fixpoint ls_each (m : mem) (args : list Z) : option (list Z) :=
  match args with
  | [] => Some []
  | a :: args => '(m, o) ← ls m a; app o <$> ls_each m args
  end.
(** [dot] is the address of the string [.]. *)
Definition ls_main (m : mem) (dot : Z) (args : list Z) : option (list Z) :=
  match args with [] => snd <$> ls m dot | _ => ls_each m args end.

(** ** Names *)

(** The part of a path behind its last slash, padded with blanks. *)
Fixpoint base (l : list Z) : list Z :=
  match l with
  | [] => []
  | c :: l' => if decide (47 ∈ l') then base l' else if c =? 47 then l' else c :: l'
  end.
Definition pad (l : list Z) : list Z := l ++ replicate (Z.to_nat DIRSIZ - length l) 32.

Lemma base_app l c : 47 ∉ c -> base (l ++ 47 :: c) = c.
Proof.
  intros Hc. induction l as [|x l IH]; cbn [app base].
  - rewrite decide_False by done. done.
  - rewrite decide_True by (apply elem_of_app; right; by left). done.
Qed.
Lemma base_none l : 47 ∉ l -> base l = l.
Proof.
  destruct l as [|c l]; [done|]. intros [Hc Hl]%not_elem_of_cons. cbn. rewrite decide_False by done.
  by rewrite (proj2 (Z.eqb_neq c 47)) by congruence.
Qed.

(** A string seen from one of its bytes. *)
Lemma cstr_suffix m a l n : cstr m a l -> (n <= length l)%nat -> cstr m (a + Z.of_nat n) (drop n l).
Proof.
  revert a l. induction n as [|n IH]; intros a l Hl Hn; [rewrite Z.add_0_r; by rewrite drop_0|].
  destruct l as [|c l]; [cbn in Hn; lia|]. destruct Hl as (_ & _ & Hl). cbn [drop length] in *.
  replace (a + Z.of_nat (S n)) with (a + 1 + Z.of_nat n) by lia. apply IH; [done|lia].
Qed.
Lemma cstr_byte m a l n c : cstr m a l -> l !! n = Some c -> ldb m (a + Z.of_nat n) = c /\ c <> 0.
Proof.
  intros Hl Hn. pose proof (lookup_lt_Some _ _ _ Hn). pose proof (cstr_suffix m a l n Hl ltac:(lia)) as Hd.
  rewrite (drop_S _ _ _ Hn) in Hd. by destruct Hd as (? & ? & _).
Qed.
Lemma cstr_end m a l : cstr m a l -> ldb m (a + Z.of_nat (length l)) = 0.
Proof. intros Hl. pose proof (cstr_suffix m a l (length l) Hl ltac:(lia)) as Hd. by rewrite drop_all in Hd. Qed.
Lemma cstr_app m a l l' : cstr m a (l ++ l') <-> (forall i c, l !! i = Some c -> c <> 0 /\ ldb m (a + Z.of_nat i) = c) /\ cstr m (a + Z.of_nat (length l)) l'.
Proof.
  revert a. induction l as [|c l IH]; intros a; cbn [app length cstr]; [rewrite Z.add_0_r; naive_solver|].
  rewrite IH. replace (a + Z.of_nat (S (length l))) with (a + 1 + Z.of_nat (length l)) by lia. split.
  - intros (Hc & Ha & Hl & Hl'). split; [|done]. intros [|i] x Hx; cbn in Hx.
    + injection Hx as <-. rewrite Z.add_0_r. done.
    + destruct (Hl i x Hx). split; [done|]. by replace (a + Z.of_nat (S i)) with (a + 1 + Z.of_nat i) by lia.
  - intros [Hl Hl']. destruct (Hl 0%nat c eq_refl) as [Hc Ha]. rewrite Z.add_0_r in Ha. split_and!; [done|done| |done].
    intros i x Hx. destruct (Hl (S i) x Hx) as [Hx0 Hxa]. split; [done|]. by replace (a + 1 + Z.of_nat i) with (a + Z.of_nat (S i)) by lia.
Qed.

Lemma base_snoc q c : base (q ++ [c]) = if c =? 47 then [] else base q ++ [c].
Proof.
  destruct (Z.eqb_spec c 47) as [->|Hc]; [by apply (base_app q []), not_elem_of_nil|].
  induction q as [|x q IH]; cbn [app base].
  - rewrite decide_False by (apply not_elem_of_nil). by rewrite (proj2 (Z.eqb_neq c 47)) by done.
  - destruct (decide (47 ∈ q)) as [Hq|Hq].
    + rewrite decide_True by (apply elem_of_app; by left). done.
    + rewrite decide_False by (rewrite elem_of_app, list_elem_of_singleton; intros [?|?]; congruence). by case_if.
Qed.
Lemma base_suffix l : exists q, l = q ++ base l.
Proof.
  induction l as [|c l [q IH]]; [by exists []|]. cbn [base]. case_decide.
  - exists (c :: q). cbn. by rewrite <-IH.
  - case_if; [by exists [c]|by exists []].
Qed.

Lemma rscan_in m path l n : cstr m path l -> (n < length l)%nat ->
  rscan m path n + 1 = path + Z.of_nat (S n) - Z.of_nat (length (base (take (S n) l))).
Proof.
  intros Hl. induction n as [|n IH]; intros Hn; destruct (lookup_lt_is_Some_2 l _ Hn) as [c Hc];
    rewrite (take_S_r _ _ _ Hc), base_snoc; destruct (cstr_byte _ _ _ _ _ Hl Hc) as [Hb _]; cbn [rscan]; rewrite Hb.
  - rewrite take_0. destruct (c =? 47); cbn; lia.
  - destruct (c =? 47); [cbn; lia|]. rewrite IH by lia. rewrite length_app. cbn [length]. lia.
Qed.

Lemma rscan_base m path l : cstr m path l ->
  rscan m path (length l) + 1 = path + Z.of_nat (length l) - Z.of_nat (length (base l)) /\ cstr m (rscan m path (length l) + 1) (base l).
Proof.
  intros Hl. assert (rscan m path (length l) + 1 = path + Z.of_nat (length l) - Z.of_nat (length (base l))) as E.
  { pose proof (cstr_end m path l Hl) as He. destruct (length l) as [|n] eqn:En; cbn [rscan]; rewrite He; cbn [Z.eqb].
    - apply nil_length_inv in En. subst l. cbn. lia.
    - rewrite (rscan_in m path l) by (done || lia). by rewrite take_ge by lia. }
  split; [done|]. rewrite E. destruct (base_suffix l) as [q Hq]. rewrite Hq in Hl at 1. apply cstr_app in Hl as [_ Hl].
  replace (path + Z.of_nat (length l) - Z.of_nat (length (base l))) with (path + Z.of_nat (length q)); [done|].
  apply (f_equal length) in Hq. rewrite length_app in Hq. lia.
Qed.

(** Where the strings lie: the path is apart from the static buffer. *)
Definition apart (a n b k : Z) : Prop := a + n <= b \/ b + k <= a.

Lemma fmtname_correct m path l : cstr m path l -> (length l < fuel)%nat -> 0 < sbuf -> 0 < path ->
  apart path (Z.of_nat (length l) + 1) sbuf (DIRSIZ + 1) -> ldb m (sbuf + DIRSIZ) = 0 ->
  exists m' r, fmtname m path = Some (m', r) /\ 0 < r /\ cstr m' r (pad (base l)) /\
    forall b, b < sbuf \/ sbuf + DIRSIZ <= b -> ldb m' b = ldb m b.
Proof.
  intros Hl Hf Hs Hp Hap H0. destruct (rscan_base m path l Hl) as [E Hb]. unfold fmtname, ustrlen. rewrite (strlen_cstr m path l) by done. cbn.
  rewrite Nat2Z.id. set (p := rscan m path (length l) + 1) in *.
  destruct (base_suffix l) as [q Hq]. apply (f_equal length) in Hq. rewrite length_app in Hq.
  rewrite (strlen_cstr m p (base l)) by (done || lia). cbn. unfold pad. set (k := length (base l)) in *. unfold apart, DIRSIZ in *. case_if.
  - eexists _, _. split; [done|]. split; [lia|]. split; [|done].
    replace (Z.to_nat 14 - k)%nat with 0%nat by lia. by rewrite app_nil_r.
  - eexists _, _. split; [done|]. split; [done|]. unfold umemset, Ulib.memmove.
    set (m1 := copy_fwd m sbuf p (Z.to_nat (Z.of_nat k))).
    assert (forall b, ldb m1 b = if decide (sbuf <= b < sbuf + Z.of_nat k) then ldb m (p + (b - sbuf)) else ldb m b) as Hm1.
    { intros b. unfold m1. rewrite ldb_copy_fwd by lia. by rewrite Z2Nat.id by lia. }
    split.
    + apply cstr_app. split.
      * intros i c Hi. pose proof (lookup_lt_Some _ _ _ Hi). destruct (cstr_byte _ _ _ _ _ Hb Hi) as [Hbc Hc]. split; [done|].
        rewrite ldb_stosb, decide_False by (fold k in H; lia). rewrite Hm1, decide_True by (fold k in H; lia). rewrite <-Hbc. f_equal. lia.
      * fold k. assert (forall n a, a = sbuf + 14 - Z.of_nat n -> (n <= 14 - k)%nat ->
          cstr (stosb m1 (sbuf + Z.of_nat k) 32 (Z.to_nat (14 - Z.of_nat k))) a (replicate n 32)) as Hpad.
        { induction n as [|n IH]; intros a -> Hn; cbn [replicate cstr].
          - rewrite ldb_stosb, decide_False by lia. rewrite Hm1, decide_False by lia. rewrite <-H0. f_equal. lia.
          - split; [done|]. split; [|apply IH; lia]. rewrite ldb_stosb, decide_True by lia. done. }
        apply Hpad; lia.
    + intros b Hout. rewrite ldb_stosb, decide_False by lia. by rewrite Hm1, decide_False by lia.
Qed.

Lemma str_bytes_cstr f m a l : cstr m a l -> (length l < f)%nat -> str_bytes f m a = Some l.
Proof.
  revert a f. induction l as [|c l IH]; intros a [|f] Hl Hf; cbn [length] in *; try lia; cbn [str_bytes cstr] in *.
  - by rewrite Hl.
  - destruct Hl as (Hc & -> & Hl). rewrite (proj2 (Z.eqb_neq _ _)) by done. by rewrite (IH (a + 1) f) by (done || lia).
Qed.

(** A line of the output. *)
Definition line (name : list Z) (st : ustat) : option (list Z) :=
  a ← printint (s32 (st_type st)) 10 true;
  b ← printint (s32 (st_ino st)) 10 true;
  c ← printint (s32 (st_size st)) 10 true;
  Some (name ++ [32] ++ a ++ [32] ++ b ++ [32] ++ c ++ NL).

Lemma show_correct m path l st : cstr m path l -> (length l < fuel)%nat -> (Z.to_nat DIRSIZ < fuel)%nat -> 0 < sbuf -> 0 < path ->
  apart path (Z.of_nat (length l) + 1) sbuf (DIRSIZ + 1) -> ldb m (sbuf + DIRSIZ) = 0 ->
  exists m', show m path st = (o ← line (pad (base l)) st; Some (m', o)) /\
    forall b, b < sbuf \/ sbuf + DIRSIZ <= b -> ldb m' b = ldb m b.
Proof.
  intros Hl Hf Hf' Hs Hp Hap H0. destruct (fmtname_correct m path l) as (m' & r & E & Hr & Hc & Hout); try done.
  exists m'. split; [|done]. unfold show. rewrite E. cbn [mbind option_bind].
  assert (length (pad (base l)) < fuel)%nat as Hlen.
  { unfold pad. rewrite length_app, length_replicate. destruct (base_suffix l) as [q Hq]. apply (f_equal length) in Hq. rewrite length_app in Hq. lia. }
  pose proof (str_bytes_cstr fuel m' r _ Hc Hlen) as Hstr. unfold printf, line.
  change (bytes "%s %d %d %d" ++ NL) with [37; 115; 32; 37; 100; 32; 37; 100; 32; 37; 100; 10].
  cbn [printf_loop negb Z.eqb Pos.eqb conversion arg orb mbind option_bind]. unfold str_arg. rewrite (proj2 (Z.eqb_neq r 0)) by lia. rewrite Hstr.
  cbn -[printint s32 pad base]. destruct (printint (s32 (st_type st)) 10 true) as [a|]; [|done].
  cbn -[printint s32 pad base]. destruct (printint (s32 (st_ino st)) 10 true) as [b|]; [|done].
  cbn -[printint s32 pad base]. destruct (printint (s32 (st_size st)) 10 true) as [c|]; done.
Qed.

(** ** Directories *)

(** The bytes of a name before its zero. *)
Fixpoint cut (l : list Z) : list Z :=
  match l with [] => [] | c :: l => if c =? 0 then [] else c :: cut l end.

Lemma ldb_put_list_out m a l b : b < a \/ a + Z.of_nat (length l) <= b -> ldb (put_list m a l) b = ldb m b.
Proof.
  revert m a. induction l as [|v l IH]; intros m a Hb; [done|]. cbn [put_list length] in *. rewrite IH by lia. apply ldb_stb_ne. lia.
Qed.

Lemma put_list_cut m a l : Forall (fun v => 0 <= v < 256) l ->
  cstr (stb (put_list m a l) (a + Z.of_nat (length l)) 0) a (cut l).
Proof.
  revert m a. induction l as [|v l IH]; intros m a Hl; cbn [cut put_list length].
  - cbn. rewrite Z.add_0_r. by rewrite ldb_stb_eq.
  - apply Forall_cons in Hl as [Hv Hl]. replace (a + Z.of_nat (S (length l))) with (a + 1 + Z.of_nat (length l)) by lia.
    assert (ldb (stb (put_list (stb m a v) (a + 1) l) (a + 1 + Z.of_nat (length l)) 0) a = v) as Ha.
    { rewrite ldb_stb_ne by lia. rewrite ldb_put_list_out by lia. rewrite ldb_stb_eq. by apply Z.mod_small. }
    destruct (Z.eqb_spec v 0) as [->|Hne]; [done|]. split; [done|]. split; [done|]. by apply IH.
Qed.

Lemma cut_length l : (length (cut l) <= length l)%nat.
Proof. induction l as [|c l IH]; [done|]. cbn. case_if; cbn; lia. Qed.

(** What a directory looks like: a line for each entry in use. *)
Fixpoint listing (l : list Z) (ents : list (Z * list Z)) : option (list Z) :=
  match ents with
  | [] => Some []
  | (inum, name) :: ents =>
      if inum =? 0 then listing l ents
      else
        o ← match statf (l ++ 47 :: cut name) with
            | None => Some (bytes "ls: cannot stat " ++ (l ++ 47 :: cut name) ++ NL)
            | Some st => line (pad (cut name)) st
            end;
        app o <$> listing l ents
  end.

Definition entry_ok (e : Z * list Z) : Prop :=
  length e.2 = Z.to_nat DIRSIZ /\ Forall (fun v => 0 <= v < 256) e.2 /\ 47 ∉ cut e.2.

Lemma print_cannot_stat m l : cstr m buf l -> (length l < fuel)%nat -> 0 < buf ->
  printf fuel m (bytes "ls: cannot stat %s" ++ NL) [buf] = Some (bytes "ls: cannot stat " ++ l ++ NL).
Proof.
  intros Hl Hf Hb. unfold printf. change (bytes "ls: cannot stat %s" ++ NL) with (bytes "ls: cannot stat " ++ [37; 115; 10]).
  cbn. unfold str_arg. rewrite (proj2 (Z.eqb_neq buf 0)) by lia. by rewrite (str_bytes_cstr fuel m buf l) by done.
Qed.

Lemma ls_entries_correct ents m l : Forall entry_ok ents -> (512 < fuel)%nat -> 0 < sbuf -> 0 < buf -> apart buf 512 sbuf (DIRSIZ + 1) ->
  Z.of_nat (length l) + 1 + DIRSIZ + 1 <= 512 -> ldb m (sbuf + DIRSIZ) = 0 ->
  (forall i c, (l ++ [47]) !! i = Some c -> c <> 0 /\ ldb m (buf + Z.of_nat i) = c) ->
  exists m', ls_entries m (buf + Z.of_nat (length l) + 1) ents = (o ← listing l ents; Some (m', o)) /\
    forall b, (b < buf \/ buf + 512 <= b) -> (b < sbuf \/ sbuf + DIRSIZ <= b) -> ldb m' b = ldb m b.
Proof.
  intros Hents Hf Hs Hb Hap Hlen. revert m. induction Hents as [|[inum name] ents (Hn & Hbytes & Hslash) _ IH]; intros m H0 Hpre; cbn [ls_entries listing].
  - by exists m.
  - cbn [snd] in *. case_if; [by apply IH|]. set (p := buf + Z.of_nat (length l) + 1) in *.
    set (m1 := stb (put_list m p name) (p + DIRSIZ) 0). pose proof (cut_length name) as Hcl. unfold apart, DIRSIZ in *.
    assert (forall b, b < p \/ p + 15 <= b -> ldb m1 b = ldb m b) as Hm1.
    { intros b Hb'. unfold m1. rewrite ldb_stb_ne by lia. apply ldb_put_list_out. lia. }
    assert (cstr m1 buf (l ++ 47 :: cut name)) as Hc.
    { rewrite cons_middle, app_assoc. apply cstr_app. split.
      - intros i c Hi. destruct (Hpre i c Hi). split; [done|]. apply lookup_lt_Some in Hi. rewrite length_app in Hi. cbn in Hi. rewrite Hm1 by (unfold p; lia). done.
      - rewrite length_app. cbn [length]. replace (buf + Z.of_nat (length l + 1)) with p by (unfold p; lia). unfold m1.
        replace (p + 14) with (p + Z.of_nat (length name)) by lia. by apply put_list_cut. }
    assert (length (l ++ 47%Z :: cut name) < fuel)%nat as Hfl by (rewrite length_app; cbn [length]; lia).
    rewrite (str_bytes_cstr fuel m1 buf _ Hc Hfl). cbn [mbind option_bind].
    assert (exists m2, match statf (l ++ 47 :: cut name) with
        | None => o ← printf fuel m1 (bytes "ls: cannot stat %s" ++ NL) [buf]; Some (m1, o)
        | Some st => show m1 buf st
        end = (o ← match statf (l ++ 47 :: cut name) with
            | None => Some (bytes "ls: cannot stat " ++ (l ++ 47 :: cut name) ++ NL)
            | Some st => line (pad (cut name)) st
            end; Some (m2, o)) /\ forall b, b < sbuf \/ sbuf + 14 <= b -> ldb m2 b = ldb m1 b) as (m2 & -> & Hm2).
    { destruct (statf _) as [st|].
      - destruct (show_correct m1 buf _ st Hc Hfl) as (m2 & -> & Hm2); [unfold DIRSIZ; lia|done|done| | |].
        + unfold apart, DIRSIZ. rewrite length_app. cbn [length]. lia.
        + unfold DIRSIZ. rewrite Hm1 by (unfold p; lia). done.
        + exists m2. split; [by rewrite base_app|done].
      - exists m1. split; [|done]. by rewrite (print_cannot_stat m1 _ Hc). }
    destruct (match statf _ with Some st => line _ st | None => _ end) as [o|]; cbn [mbind option_bind]; [|exists m; done].
    destruct (IH m2) as (m3 & -> & Hm3).
    + rewrite Hm2, Hm1 by (unfold p; lia). done.
    + intros i c Hi. destruct (Hpre i c Hi) as [Hc0 Hci]. split; [done|]. apply lookup_lt_Some in Hi. rewrite length_app in Hi. cbn in Hi.
      rewrite Hm2 by lia. rewrite Hm1 by (unfold p; lia). done.
    + exists m3. split; [by destruct (listing l ents)|]. intros b Hb1 Hb2. rewrite Hm3, Hm2 by lia. apply Hm1. unfold p. lia.
Qed.

(** [ls] of a directory prints a line for each entry in use, in their
    order: the name padded with blanks to fourteen characters, and the type,
    inode number and size that [stat] gives for the path with the name behind
    it; it reports the entries for which [stat] fails and goes on.  It stays
    within its buffers, also for names without a terminating zero, and refuses
    a path for which the buffer is too short. *)
Theorem ls_directory_correct m path l st ents : cstr m path l -> Forall entry_ok ents ->
  (512 < fuel)%nat -> (length l < fuel)%nat -> 0 < sbuf -> 0 < buf -> apart buf 512 sbuf (DIRSIZ + 1) ->
  apart path (Z.of_nat (length l) + 1) buf 512 -> apart path (Z.of_nat (length l) + 1) sbuf (DIRSIZ + 1) ->
  ldb m (sbuf + DIRSIZ) = 0 -> openf l = Some (Some st, ents) -> st_type st = T_DIR ->
  exists m', ls m path = (if 512 <? Z.of_nat (length l) + 1 + DIRSIZ + 1 then Some (m, bytes "ls: path too long" ++ NL)
                          else o ← listing l ents; Some (m', o)) /\
    forall b, (b < buf \/ buf + 512 <= b) -> (b < sbuf \/ sbuf + DIRSIZ <= b) -> ldb m' b = ldb m b.
Proof.
  intros Hl Hents Hf Hlf Hs Hb Hap Hpb Hps H0 Hopen Hst. unfold ls. rewrite (str_bytes_cstr fuel m path l) by done. cbn [mbind option_bind].
  rewrite Hopen, Hst. cbn [Z.eqb T_DIR T_FILE Pos.eqb]. unfold ustrlen. rewrite (strlen_cstr m path l) by done. cbn [mbind option_bind].
  case_if; [exists m; split; [|done]; reflexivity|].
  destruct (strcpy_cstr m buf path l fuel) as (m1 & -> & Hc1 & Hm1); [done|done|unfold apart, DIRSIZ in *; lia|]. cbn [mbind option_bind].
  rewrite (strlen_cstr m1 buf l) by done. cbn [mbind option_bind]. unfold apart, DIRSIZ in *.
  destruct (ls_entries_correct ents (stb m1 (buf + Z.of_nat (length l)) 47) l) as (m2 & E & Hm2); try done.
  - unfold DIRSIZ. rewrite ldb_stb_ne by lia. rewrite Hm1 by lia. done.
  - intros i c [Hi|[Hi Hi']]%lookup_app_Some.
    + destruct (cstr_byte _ _ _ _ _ Hc1 Hi). split; [done|]. apply lookup_lt_Some in Hi. rewrite ldb_stb_ne by lia. done.
    + destruct (i - length l)%nat as [|j] eqn:Ei; [|done]. injection Hi' as <-. split; [done|]. replace i with (length l) by lia. by rewrite ldb_stb_eq.
  - exists m2. split; [exact E|]. intros b Hb1 Hb2. rewrite Hm2 by done. rewrite ldb_stb_ne by lia. apply Hm1. lia.
Qed.
End ls.

(** ** An instance *)

Definition ls_mem : mem := put_list ∅ 0x100 (bytes "bin" ++ [0]).
Definition ls_ents : list (Z * list Z) := [(1, [46] ++ replicate 13 0); (0, replicate 14 97); (7, replicate 14 98); (9, [99] ++ replicate 13 0)].
Definition ls_stat (p : list Z) : option ustat := if bool_decide (p = bytes "bin/c") then None else Some (mk_ustat 2 7 100).

Lemma ls_directory_correct_witness : exists m',
  ls 600 0x1000 0x2000 (fun _ => Some (Some (mk_ustat 1 1 64), ls_ents)) ls_stat ls_mem 0x100 =
    Some (m', bytes ".              2 7 100" ++ NL ++ bytes "bbbbbbbbbbbbbb 2 7 100" ++ NL ++ bytes "ls: cannot stat bin/c" ++ NL).
Proof.
  destruct (ls_directory_correct 600 0x1000 0x2000 (fun _ => Some (Some (mk_ustat 1 1 64), ls_ents)) ls_stat ls_mem 0x100 (bytes "bin") (mk_ustat 1 1 64) ls_ents)
    as (m' & E & _).
  - repeat split; discriminate.
  - assert (Forall entry_ok ls_ents) as H; [|exact H].
    repeat constructor; try lia; cbn; set_solver.
  - apply Nat.ltb_lt. reflexivity.
  - apply Nat.ltb_lt. reflexivity.
  - reflexivity.
  - reflexivity.
  - right. vm_compute. discriminate.
  - left. vm_compute. discriminate.
  - left. vm_compute. discriminate.
  - reflexivity.
  - reflexivity.
  - reflexivity.
  - exists m'. rewrite E. vm_compute. reflexivity.
Defined.
