(* ===== verification/Console.v ===== *)
(** * The console

    [console.c]: the screen ([cgaputc]), output ([consputc],
    [cprintf], [consolewrite]) and input ([consoleintr], [consoleread]).
    The state is the text memory and the cursor of the screen, the bytes sent
    to the serial port, and the ring buffer of the input with its read, write
    and edit indices, which are 32-bit counters.  The keys of one interrupt
    are the list that [getc] returns before it returns -1. *)

From Stdlib Require Import ZArith Lia.
From stdpp Require Import base strings numbers gmap list.
From S2P Require Import Prelude Mmu Memory Kernel Printf.

Record console := mk_console {
  c_crt : list Z; (* CGA memory *)
  c_pos : Z; (* cursor position: col + 80*row *)
  c_uart : list Z; (* sent to the serial port *)
  c_panicked : bool;
  c_held : bool; (* cons.lock *)
  c_locking : bool;
  in_buf : list Z;
  in_r : Z; in_w : Z; in_e : Z;
  c_wakeups : nat; (* wakeup(&input.r) *)
}.
Notation C := (M console).

Definition INPUT_BUF : Z := 128.
Definition BACKSPACE : Z := 0x100.
Definition CTL_D : Z := 4.
Definition CTL_H : Z := 8.
Definition CTL_P : Z := 16.
Definition CTL_U : Z := 21.
Definition NL : Z := 10.

Definition set_screen (crt : list Z) (pos : Z) (c : console) : console :=
  mk_console crt pos (c_uart c) (c_panicked c) (c_held c) (c_locking c) (in_buf c) (in_r c) (in_w c) (in_e c) (c_wakeups c).
Definition set_uart (u : list Z) (c : console) : console :=
  mk_console (c_crt c) (c_pos c) u (c_panicked c) (c_held c) (c_locking c) (in_buf c) (in_r c) (in_w c) (in_e c) (c_wakeups c).
Definition set_held (b : bool) (c : console) : console :=
  mk_console (c_crt c) (c_pos c) (c_uart c) (c_panicked c) b (c_locking c) (in_buf c) (in_r c) (in_w c) (in_e c) (c_wakeups c).
Definition set_input (buf : list Z) (r w e : Z) (c : console) : console :=
  mk_console (c_crt c) (c_pos c) (c_uart c) (c_panicked c) (c_held c) (c_locking c) buf r w e (c_wakeups c).
Definition add_wakeup (c : console) : console :=
  mk_console (c_crt c) (c_pos c) (c_uart c) (c_panicked c) (c_held c) (c_locking c) (in_buf c) (in_r c) (in_w c) (in_e c) (S (c_wakeups c)).

Definition cons_acquire : C unit :=
  b ← gets c_held; if b : bool then panic "acquire" else modify (set_held true).
Definition cons_release : C unit :=
  b ← gets c_held; if b : bool then modify (set_held false) else panic "release".

(** ** Output *)

(** The screen shows 25 rows of 80 cells. *)
Definition blank : Z := Z.lor 32 0x0700.
(** [memmove(crt, crt+80, 2*23*80)] and [memset(crt+pos, 0, 2*(24*80 - pos))]. *)
Definition scroll (crt : list Z) (pos : Z) : list Z :=
  let crt := take 1840 (drop 80 crt) ++ drop 1840 crt in
  take (Z.to_nat pos) crt ++ replicate (Z.to_nat (1920 - pos)) 0 ++ drop (Z.to_nat (Z.max pos 1920)) crt.

(** [crt[pos] = v], a store inside the memory of the screen. *)
Definition crt_store (crt : list Z) (pos v : Z) : C (list Z) :=
  if (0 <=? pos) && (pos <? Z.of_nat (length crt)) then mret (zinsert pos v crt) else fail Trap.

Definition cgaputc (c : Z) : C unit :=
  pos ← gets c_pos;
  crt ← gets c_crt;
  '(pos, crt) ←
    (if c =? NL then mret (pos + (80 - pos mod 80), crt)
     else if c =? BACKSPACE then mret (if 0 <? pos then pos - 1 else pos, crt)
     else crt ← crt_store crt pos (Z.lor (Z.land c 0xff) 0x0700); mret (pos + 1, crt));
  if (pos <? 0) || (25 * 80 <? pos) then panic "pos under/overflow"
  else
    let '(pos, crt) := if 24 <=? pos / 80 then (pos - 80, scroll crt (pos - 80)) else (pos, crt) in
    crt ← crt_store crt pos blank;
    modify (set_screen crt (pos mod 0x10000)).

(** What the port sends; Uart.v has the driver. *)
Definition uartputc (c : Z) : C unit := modify (fun s => set_uart (c_uart s ++ [c mod 256]) s).

Definition consputc (c : Z) : C unit :=
  p ← gets c_panicked;
  if p : bool then fail Hang
  else
    (if c =? BACKSPACE then uartputc 8;; uartputc 32;; uartputc 8 else uartputc c);;
    cgaputc c.

Definition putchars (l : list Z) : C unit :=
  _ ← for_ (R := unit) l (fun c (_ : unit) => consputc c;; mret (Next tt)) tt;
  mret tt.

(** [cprintf]; [out] is what the format and the arguments print. *)
Definition cprintf (fuel : nat) (m : mem) (fmt ap : list Z) : C unit :=
  locking ← gets c_locking;
  when locking cons_acquire;;
  out ← the (cprintf_out fuel m fmt ap);
  putchars out;;
  when locking cons_release.

(** [buf] are the bytes at the address that is written. *)
Definition consolewrite (buf : list Z) : C Z :=
  cons_acquire;;
  putchars ((fun c => Z.land c 0xff) <$> buf);;
  cons_release;;
  mret (Z.of_nat (length buf)).

(** ** Input *)

(** [while(input.e != input.w && input.buf[(input.e-1) % INPUT_BUF] != NL)];
    the ring has [INPUT_BUF] bytes to erase at most. *)
Definition kill_line : C unit :=
  while_ (S (Z.to_nat INPUT_BUF)) (fun _ : unit =>
    s ← gets id;
    x ← the (zlookup (in_buf s) (u32 (in_e s - 1) mod INPUT_BUF));
    if negb (in_e s =? in_w s) && negb (x =? NL)
    then modify (set_input (in_buf s) (in_r s) (in_w s) (u32 (in_e s - 1)));;
         consputc BACKSPACE;; mret (inl tt)
    else mret (inr tt)) tt.

(** One key; the result says whether a process listing was asked for. *)
Definition consoleintr_key (c : Z) : C bool :=
  if c =? CTL_P then mret true
  else if c =? CTL_U then kill_line;; mret false
  else if (c =? CTL_H) || (c =? 0x7f) then
    s ← gets id;
    when (negb (in_e s =? in_w s))
      (modify (set_input (in_buf s) (in_r s) (in_w s) (u32 (in_e s - 1)));; consputc BACKSPACE);;
    mret false
  else
    s ← gets id;
    when (negb (c =? 0) && (u32 (in_e s - in_r s) <? INPUT_BUF))
      (let c := if c =? 13 then NL else c in
       modify (set_input (zinsert (in_e s mod INPUT_BUF) (c mod 256) (in_buf s)) (in_r s) (in_w s) (u32 (in_e s + 1)));;
       consputc c;;
       s ← gets id;
       when ((c =? NL) || (c =? CTL_D) || (in_e s =? u32 (in_r s + INPUT_BUF)))
         (modify (set_input (in_buf s) (in_r s) (in_e s) (in_e s));; modify add_wakeup));;
    mret false.

Definition consoleintr (keys : list Z) : C bool :=
  cons_acquire;;
  d ← for_ (R := unit) keys (fun c d => b ← consoleintr_key c; mret (Next (d || b))) false;
  cons_release;;
  mret (match d with inl d => d | inr _ => false end).

(** [consoleread] of [n] bytes by a process that is [killed] or not: the
    return value and the bytes stored at [dst].  The lock of the inode, which
    is released before and taken again at the end, is not part of this
    state. *)
Definition consoleread (killed : bool) (n : Z) : C (Z * list Z) :=
  cons_acquire;;
  '(r, l) ← while_ (S (Z.to_nat n)) (fun '(k, l) =>
    if k <=? 0 then mret (inr (Some k, l))
    else
      s ← gets id;
      if in_r s =? in_w s then
        if killed then mret (inr (None, l)) else fail Blocked (* sleep(&input.r, &cons.lock) *)
      else
        c ← the (zlookup (in_buf s) (in_r s mod INPUT_BUF));
        modify (set_input (in_buf s) (u32 (in_r s + 1)) (in_w s) (in_e s));;
        if c =? CTL_D then
          when (k <? n) (modify (set_input (in_buf s) (in_r s) (in_w s) (in_e s)));;
          mret (inr (Some k, l))
        else if c =? NL then mret (inr (Some (k - 1), l ++ [c]))
        else mret (inl (k - 1, l ++ [c]))) (n, []);
  cons_release;;
  mret (match r with Some k => n - k | None => -1 end, l).

(** ** The screen *)

(** The cursor is above the last row of the screen. *)
Record screen_ok (s : console) : Prop := {
  sc_pos : 0 <= c_pos s < 24 * 80;
  sc_len : length (c_crt s) = Z.to_nat (25 * 80);
  sc_panicked : c_panicked s = false;
}.

Lemma length_scroll crt pos : length crt = Z.to_nat (25 * 80) -> 0 <= pos <= 1920 ->
  length (scroll crt pos) = Z.to_nat (25 * 80).
Proof.
  intros Hl Hp. unfold scroll. set (c2 := take 1840 (drop 80 crt) ++ drop 1840 crt).
  assert (length c2 = Z.to_nat (25 * 80)) as Hc2.
  { unfold c2. rewrite length_app, length_take, !length_drop, Hl. lia. }
  rewrite !length_app, length_take, length_replicate, length_drop, Hc2. lia.
Qed.

Lemma wp_crt_store crt pos v Q s : 0 <= pos < Z.of_nat (length crt) -> Q (zinsert pos v crt) s ->
  wp (crt_store crt pos v) Q s.
Proof.
  intros Hp HQ. unfold crt_store. rewrite (proj2 (Z.leb_le _ _)), (proj2 (Z.ltb_lt _ _)) by lia. by apply wp_ret.
Qed.

(** Every character can be written, and the cursor stays on the screen. *)
Lemma wp_cgaputc c Q s : screen_ok s ->
  (forall crt pos, screen_ok (set_screen crt pos s) -> Q tt (set_screen crt pos s)) ->
  wp (cgaputc c) Q s.
Proof.
  intros [Hp Hl Hpan] HQ. unfold cgaputc. wp_step. apply wp_gets. wp_step. apply wp_gets. wp_step.
  match goal with |- wp _ ?K _ => assert (forall pos crt, 0 <= pos <= 1920 -> length crt = Z.to_nat (25 * 80) -> K (pos, crt) s) as HK end.
  { intros pos crt Hpos Hcrt. cbv beta iota.
    rewrite (proj2 (Z.ltb_ge pos 0)), (proj2 (Z.ltb_ge (25 * 80) pos)) by lia. cbn [orb].
    assert (forall p c2, 0 <= p < 1920 -> length c2 = Z.to_nat (25 * 80) ->
      wp (crt ← crt_store c2 p blank; modify (set_screen crt (p mod 0x10000))) Q s) as Hend.
    { intros p c2 Hp2 Hc2. wp_step. apply wp_crt_store; [rewrite Hc2; lia|]. apply wp_modify, HQ.
      split; cbn; [zdiv|by rewrite length_zinsert|done]. }
    destruct (Z.leb_spec 24 (pos / 80)); apply Hend; try done; try zdiv.
    apply length_scroll; [done|zdiv]. }
  repeat case_if.
  - apply wp_ret, HK; [zdiv|done].
  - apply wp_ret, HK; [lia|done].
  - apply wp_ret, HK; [lia|done].
  - wp_step. apply wp_crt_store; [rewrite Hl; lia|]. apply wp_ret, HK; [lia|by rewrite length_zinsert].
Qed.

Lemma wp_consputc c Q s : screen_ok s ->
  (forall crt pos u, let s' := set_uart u (set_screen crt pos s) in screen_ok s' -> Q tt s') ->
  wp (consputc c) Q s.
Proof.
  intros Hs HQ. unfold consputc. wp_step. apply wp_gets. rewrite (sc_panicked _ Hs). wp_step.
  assert (forall u, wp (cgaputc c) Q (set_uart u s)) as Hc.
  { intros u. apply wp_cgaputc; [by destruct Hs; split|]. intros crt pos [? ? ?]. apply HQ. by split. }
  case_if; unfold uartputc; [wp_step; apply wp_modify; wp_step; apply wp_modify|]; apply wp_modify, Hc.
Qed.

(** ** The line discipline *)

(** The input as two queues: the lines committed for reading, and the line
    being edited. *)
Definition lines : Type := list Z * list Z.

Definition key_step (c : Z) (l : lines) : lines :=
  let '(q, ed) := l in
  if c =? CTL_P then (q, ed)
  else if c =? CTL_U then (q, [])
  else if (c =? CTL_H) || (c =? 0x7f) then (q, removelast ed)
  else if negb (c =? 0) && (Z.of_nat (length q + length ed) <? INPUT_BUF) then
    let c := if c =? 13 then NL else c in
    if (c =? NL) || (c =? CTL_D) || (Z.of_nat (length q + length ed) + 1 =? INPUT_BUF)
    then (q ++ ed ++ [c], []) else (q, ed ++ [c])
  else (q, ed).

Definition type_keys (keys : list Z) (l : lines) : lines := foldl (fun l c => key_step c l) l keys.

(** What a read of [n] bytes takes from the queue; [None] if it waits. *)
Fixpoint take_line (n : nat) (first : bool) (q : list Z) : option (list Z * list Z) :=
  match n with
  | O => Some ([], q)
  | S n =>
      match q with
      | [] => None
      | c :: q' =>
          if c =? CTL_D then Some ([], if first then q' else q)
          else if c =? NL then Some ([c], q')
          else '(l, rest) ← take_line n false q'; Some (c :: l, rest)
      end
  end.

(** The ring buffer holds the two queues. *)
Record line_rep (s : console) (q ed : list Z) : Prop := {
  lr_r : 0 <= in_r s < two32;
  lr_w : in_w s = u32 (in_r s + Z.of_nat (length q));
  lr_e : in_e s = u32 (in_r s + Z.of_nat (length q + length ed));
  lr_room : Z.of_nat (length q + length ed) <= INPUT_BUF;
  lr_len : length (in_buf s) = Z.to_nat INPUT_BUF;
  lr_buf : forall i c, (q ++ ed) !! i = Some c ->
    zlookup (in_buf s) ((in_r s + Z.of_nat i) mod INPUT_BUF) = Some c;
  lr_screen : screen_ok s;
}.

Lemma u32_mod_ring x : u32 x mod INPUT_BUF = x mod INPUT_BUF.
Proof. unfold u32, two32, INPUT_BUF. zdiv. Qed.

Lemma u32_diff a b k : 0 <= k < two32 -> a = u32 (b + k) -> u32 (a - b) = k.
Proof. intros Hk ->. unfold u32, two32 in *. zdiv. Qed.

Lemma line_rep_out s q ed crt pos u : line_rep s q ed -> screen_ok (set_uart u (set_screen crt pos s)) ->
  line_rep (set_uart u (set_screen crt pos s)) q ed.
Proof. by intros [] ?; split. Qed.

Lemma line_rep_w s q ed : line_rep s q ed -> in_e s = in_w s <-> ed = [].
Proof.
  intros [Hr Hw He Hroom _ _ _]. rewrite Hw, He. split.
  - intros E. assert (length ed = 0%nat) as ?%nil_length_inv; [|done].
    unfold INPUT_BUF, u32, two32 in *. zdiv.
  - intros ->. cbn. by rewrite Nat.add_0_r.
Qed.

(** Erasing the last character of the line. *)
Lemma line_rep_erase s q ed : line_rep s q ed -> ed <> [] ->
  line_rep (set_input (in_buf s) (in_r s) (in_w s) (u32 (in_e s - 1)) s) q (removelast ed).
Proof.
  intros [Hr Hw He Hroom Hlen Hbuf Hs] Hne. destruct ed as [|x ed _] using rev_ind; [done|].
  rewrite removelast_last. rewrite length_app in He, Hroom. cbn [length] in He, Hroom.
  split; cbn; try done.
  - rewrite He. unfold u32, two32. zdiv.
  - lia.
  - intros i c Hi. apply Hbuf. rewrite app_assoc. by apply lookup_app_l_Some.
  - by destruct Hs.
Qed.

(** Adding a character to the line. *)
Lemma line_rep_add s q ed c : line_rep s q ed -> Z.of_nat (length q + length ed) < INPUT_BUF ->
  line_rep (set_input (zinsert (in_e s mod INPUT_BUF) c (in_buf s)) (in_r s) (in_w s) (u32 (in_e s + 1)) s) q (ed ++ [c]).
Proof.
  intros [Hr Hw He Hroom Hlen Hbuf Hs] Hlt.
  split; cbn; try done.
  - rewrite He, length_app. cbn. unfold u32, two32. zdiv.
  - rewrite length_app. cbn. lia.
  - by rewrite length_zinsert.
  - intros i x Hi. rewrite zlookup_zinsert by (rewrite Hlen; unfold INPUT_BUF in *; zdiv).
    rewrite He, u32_mod_ring. rewrite app_assoc in Hi. pose proof (lookup_lt_Some _ _ _ Hi) as Hlt'.
    rewrite length_app, length_app in Hlt'. cbn in Hlt'. apply lookup_app_Some in Hi as [Hi|[Hge Hi]].
    + rewrite decide_False; [by apply Hbuf|]. apply lookup_lt_Some in Hi. rewrite length_app in Hi.
      unfold INPUT_BUF in *. zdiv.
    + apply list_lookup_singleton_Some in Hi as [Hi <-]. rewrite length_app in *. rewrite decide_True; [done|].
      f_equal. lia.
  - by destruct Hs.
Qed.

(** Committing the line. *)
Lemma line_rep_commit s q ed : line_rep s q ed ->
  line_rep (add_wakeup (set_input (in_buf s) (in_r s) (in_e s) (in_e s) s)) (q ++ ed) [].
Proof.
  intros [Hr Hw He Hroom Hlen Hbuf Hs]. split; cbn; rewrite ?length_app, ?Nat.add_0_r; try done.
  - by rewrite app_nil_r.
  - by destruct Hs.
Qed.

(** Taking a character. *)
Lemma line_rep_take s q ed c : line_rep s (c :: q) ed ->
  line_rep (set_input (in_buf s) (u32 (in_r s + 1)) (in_w s) (in_e s) s) q ed.
Proof.
  intros [Hr Hw He Hroom Hlen Hbuf Hs]. cbn [length] in *. split; cbn; try done; try lia.
  - apply u32_range.
  - rewrite Hw. unfold u32, two32. zdiv.
  - rewrite He. unfold u32, two32. zdiv.
  - intros i x Hi. rewrite <-(Hbuf (S i) x Hi). f_equal. unfold u32, two32, INPUT_BUF. zdiv.
  - by destruct Hs.
Qed.

Lemma line_rep_last s q ed x : line_rep s q (ed ++ [x]) ->
  zlookup (in_buf s) (u32 (in_e s - 1) mod INPUT_BUF) = Some x.
Proof.
  intros [Hr Hw He Hroom Hlen Hbuf Hs]. rewrite u32_mod_ring, He.
  rewrite <-(Hbuf (length q + length ed)%nat x).
  - f_equal. rewrite length_app. cbn. unfold u32, two32, INPUT_BUF. zdiv.
  - rewrite app_assoc, lookup_app_r by (rewrite length_app; lia). rewrite length_app, Nat.sub_diag. done.
Qed.

Lemma wp_kill_line q ed Q s : line_rep s q ed -> NL ∉ ed ->
  (forall s', line_rep s' q [] -> c_held s' = c_held s -> Q tt s') -> wp kill_line Q s.
Proof.
  intros Hrep Hnl HQ. unfold kill_line. assert (length ed < S (Z.to_nat INPUT_BUF))%nat as Hf.
  { pose proof (lr_room _ _ _ Hrep). lia. }
  revert ed s Hrep Hnl HQ Hf. generalize (S (Z.to_nat INPUT_BUF)) as fuel. induction fuel as [|fuel IH]; [lia|].
  intros ed s Hrep Hnl HQ Hf. apply wp_while_S. wp_step. apply wp_gets. cbn [id].
  assert (exists x, zlookup (in_buf s) (u32 (in_e s - 1) mod INPUT_BUF) = Some x) as [x Hx].
  { apply zlookup_is_Some. rewrite (lr_len _ _ _ Hrep). unfold INPUT_BUF. zdiv. }
  wp_step. eapply wp_the; [exact Hx|].
  destruct (Z.eqb_spec (in_e s) (in_w s)) as [E|E]; cbn [negb andb].
  - apply (line_rep_w _ _ _ Hrep) in E as ->. wp_steps. by apply HQ.
  - assert (ed <> []) as Hne by (intros ->; by apply E, (line_rep_w _ _ _ Hrep)).
    pose proof (line_rep_erase _ _ _ Hrep Hne) as Hrep'.
    destruct ed as [|y ed _] using rev_ind; [done|]. rewrite removelast_last in Hrep'.
    rewrite (line_rep_last _ _ _ _ Hrep) in Hx. injection Hx as ->.
    rewrite elem_of_app, list_elem_of_singleton in Hnl. rewrite (proj2 (Z.eqb_neq x NL)) by naive_solver. cbn [negb].
    wp_step. apply wp_modify. wp_step. apply wp_consputc; [apply Hrep'|]. intros crt pos u s' Hs'. wp_steps.
    eapply (IH ed); [by eapply line_rep_out|tauto| |rewrite length_app in Hf; cbn in Hf; lia].
    intros s2 H2 Hh. by apply HQ.
Qed.

Lemma key_step_nl c q ed : NL ∉ ed -> NL ∉ (key_step c (q, ed)).2.
Proof.
  intros Hnl. unfold key_step. repeat case_if; cbn; try done; try apply not_elem_of_nil.
  - destruct ed as [|x ed _] using rev_ind; [done|]. rewrite removelast_last, elem_of_app in *. tauto.
  - rewrite elem_of_app, list_elem_of_singleton. bool_prop. naive_solver.
Qed.

(** One key, on the ring and on the queues. *)
Lemma wp_consoleintr_key c q ed Q s : line_rep s q ed -> NL ∉ ed -> 0 <= c < 256 ->
  (forall s', line_rep s' (key_step c (q, ed)).1 (key_step c (q, ed)).2 -> c_held s' = c_held s ->
     Q (c =? CTL_P) s') ->
  wp (consoleintr_key c) Q s.
Proof.
  intros Hrep Hnl Hc HQ. unfold consoleintr_key. unfold key_step in HQ.
  destruct (c =? CTL_P); [apply wp_ret; by apply HQ|].
  destruct (c =? CTL_U). { wp_step. eapply wp_kill_line; [done..|]. intros s' ? ?. wp_steps. by apply HQ. }
  destruct ((c =? CTL_H) || (c =? 0x7f)).
  { wp_step. apply wp_gets. cbn [id]. wp_step. destruct (Z.eqb_spec (in_e s) (in_w s)) as [E|E]; cbn [negb when].
    - wp_steps. apply HQ; [|done]. apply (line_rep_w _ _ _ Hrep) in E as ->. done.
    - assert (ed <> []) as Hne by (intros ->; by apply E, (line_rep_w _ _ _ Hrep)).
      pose proof (line_rep_erase _ _ _ Hrep Hne) as Hrep'.
      wp_step. apply wp_modify. apply wp_consputc; [apply Hrep'|]. intros crt pos u s' Hs'. wp_steps.
      apply HQ; [by eapply line_rep_out|done]. }
  wp_step. apply wp_gets. cbn [id]. pose proof (lr_room _ _ _ Hrep) as Hroom.
  rewrite (u32_diff _ _ (Z.of_nat (length q + length ed))) by (apply Hrep || (unfold INPUT_BUF, two32 in *; lia)).
  wp_step. destruct (negb (c =? 0) && _) eqn:E; cbn [when]; [|wp_steps; by apply HQ].
  apply andb_true_iff in E as [_ Hlt]. apply Z.ltb_lt in Hlt. cbn zeta. set (c' := if c =? 13 then NL else c) in *.
  assert (c' mod 256 = c') as -> by (apply Z.mod_small; unfold c', NL; case_if; lia).
  pose proof (line_rep_add _ _ _ c' Hrep Hlt) as Hrep'.
  wp_step. apply wp_modify. wp_step. apply wp_consputc; [apply Hrep'|]. intros crt pos u s' Hs'.
  assert (line_rep s' q (ed ++ [c'])) as Hrep2 by (by apply line_rep_out). wp_step. apply wp_gets. cbn [id].
  assert ((in_e s' =? u32 (in_r s' + INPUT_BUF)) = (Z.of_nat (length q + length ed) + 1 =? INPUT_BUF)) as ->.
  { rewrite (lr_e _ _ _ Hrep2), length_app. cbn [length]. apply eq_bool_prop_intro.
    unfold u32, two32, INPUT_BUF in *. split; intros ?%Is_true_true%Z.eqb_eq; apply Is_true_true, Z.eqb_eq; zdiv. }
  destruct ((c' =? NL) || _ || _); cbn [when].
  - wp_step. apply wp_modify. apply wp_modify. wp_steps. apply HQ; [|done]. by apply line_rep_commit.
  - wp_steps. by apply HQ.
Qed.

Lemma wp_consoleintr keys q ed Q s : line_rep s q ed -> NL ∉ ed -> c_held s = false ->
  Forall (fun c => 0 <= c < 256) keys ->
  (forall s', let '(q', ed') := type_keys keys (q, ed) in
     line_rep s' q' ed' -> NL ∉ ed' -> c_held s' = false -> Q (bool_decide (CTL_P ∈ keys)) s') ->
  wp (consoleintr keys) Q s.
Proof.
  intros Hrep Hnl Hh Hk HQ. unfold consoleintr. wp_step. unfold cons_acquire. wp_step. apply wp_gets. rewrite Hh.
  apply wp_modify. wp_step.
  assert (line_rep (set_held true s) q ed) as Hrep1 by (by destruct Hrep as [? ? ? ? ? ? []]; split).
  apply (wp_for _ _ (fun pre d s' => let l := type_keys pre (q, ed) in
    line_rep s' l.1 l.2 /\ NL ∉ l.2 /\ c_held s' = true /\ d = bool_decide (CTL_P ∈ pre))); cbn zeta.
  - intros pre c suf d s1 E (H1 & H2 & H3 & ->).
    assert (0 <= c < 256) as Hc by (rewrite Forall_forall in Hk; apply Hk; rewrite E, elem_of_app; right; by left).
    assert (type_keys (pre ++ [c]) (q, ed) = key_step c (type_keys pre (q, ed))) as -> by (unfold type_keys; by rewrite foldl_app).
    destruct (type_keys pre (q, ed)) as [q1 ed1]. cbn [fst snd] in *.
    wp_step. eapply wp_consoleintr_key; [done..|]. intros s2 Hr2 Hh2. wp_steps.
    split; [done|]. split; [by apply key_step_nl|]. split; [by rewrite Hh2|].
    apply eq_bool_prop_intro. rewrite orb_True, !bool_decide_spec, elem_of_app, list_elem_of_singleton.
    rewrite Is_true_true, Z.eqb_eq. naive_solver.
  - intros d s1 (H1 & H2 & H3 & ->). wp_step. unfold cons_release. wp_step. apply wp_gets. rewrite H3. wp_step.
    wp_steps. specialize (HQ (set_held false s1)). destruct (type_keys keys (q, ed)) as [q1 ed1]. cbn [fst snd] in *.
    apply HQ; try done. by destruct H1 as [? ? ? ? ? ? []]; split.
  - split; [done|]. split; [done|]. split; [done|]. by rewrite bool_decide_false by apply not_elem_of_nil.
Qed.

Lemma wp_consoleread killed n q ed l q' s : line_rep s q ed -> c_held s = false -> 0 <= n ->
  take_line (Z.to_nat n) true q = Some (l, q') ->
  wp (consoleread killed n) (fun r s' => r = (Z.of_nat (length l), l) /\ line_rep s' q' ed /\ c_held s' = false) s.
Proof.
  intros Hrep Hh Hn Ht. unfold consoleread. wp_step. unfold cons_acquire. wp_step. apply wp_gets. rewrite Hh.
  apply wp_modify. wp_step.
  assert (line_rep (set_held true s) q ed) as Hrep1 by (by destruct Hrep as [? ? ? ? ? ? []]; split).
  assert (c_held (set_held true s) = true) as Hh1 by done. revert Hrep1 Hh1. generalize (set_held true s) as s1.
  clear s Hrep Hh.
  match goal with |- forall s1, _ -> _ -> wp (while_ _ ?b _) _ _ =>
    assert (forall (K : option Z * list Z -> console -> Prop) k fuel (q : list Z) l0 l1 s1, (k < fuel)%nat -> line_rep s1 q ed -> c_held s1 = true ->
      (k <= Z.to_nat n)%nat -> take_line k (bool_decide (k = Z.to_nat n)) q = Some (l1, q') ->
      (forall s2, line_rep s2 q' ed -> c_held s2 = true ->
         K (Some (Z.of_nat k - Z.of_nat (length l1)), l0 ++ l1) s2) ->
      wp (while_ fuel b (Z.of_nat k, l0)) K s1) as Hloop end.
  { intros K. induction k as [|k IH]; intros [|fuel] q0 l0 l1 s1 Hf Hr Hh Hk Htl HK; try lia; apply wp_while_S.
    - cbn in Htl. injection Htl as <- <-. cbn [Z.of_nat Z.leb Z.compare]. wp_steps. specialize (HK s1 Hr Hh).
      by rewrite app_nil_r in HK.
    - rewrite (proj2 (Z.leb_gt _ 0)) by lia. wp_step. apply wp_gets. cbn [id take_line] in *.
      destruct q0 as [|c q0]; [done|].
      assert (in_r s1 <> in_w s1) as Hne.
      { rewrite (lr_w _ _ _ Hr). pose proof (lr_r _ _ _ Hr). pose proof (lr_room _ _ _ Hr). cbn [length] in *.
        unfold u32, two32, INPUT_BUF in *. zdiv. }
      rewrite (proj2 (Z.eqb_neq _ _) Hne). wp_step.
      pose proof (lr_buf _ _ _ Hr 0%nat c eq_refl) as Hc. rewrite Z.add_0_r in Hc. eapply wp_the; [exact Hc|].
      wp_step. apply wp_modify. pose proof (line_rep_take _ _ _ _ Hr) as Hr'.
      destruct (c =? CTL_D).
      + injection Htl as <- E. wp_step. cbn [length]. rewrite app_nil_r, Z.sub_0_r in HK.
        case_bool_decide as Ek.
        * rewrite (proj2 (Z.ltb_ge _ _)) by lia. cbn [when]. wp_steps. subst q0. by apply HK.
        * rewrite (proj2 (Z.ltb_lt _ _)) by lia. cbn [when]. wp_steps. apply HK; [|done].
          cbn. subst q'. by destruct Hr as [? ? ? ? ? ? []]; split.
      + destruct (c =? NL).
        * injection Htl as <- <-. wp_steps. specialize (HK _ Hr' Hh). cbn [length] in HK.
          by replace (Z.of_nat (S k) - 1) with (Z.of_nat (S k) - Z.of_nat 1) by lia.
        * destruct (take_line k false q0) as [[l2 rest]|] eqn:E2; cbn in Htl; [|done].
          injection Htl as <- <-. wp_steps. replace (Z.of_nat (S k) - 1) with (Z.of_nat k) by lia.
          apply (IH fuel q0 (l0 ++ [c]) l2); try done; try lia.
          -- by rewrite bool_decide_false by lia.
          -- intros s2 H2 H3. specialize (HK s2 H2 H3). rewrite <-app_assoc. cbn [app].
             replace (Z.of_nat k - Z.of_nat (length l2)) with (Z.of_nat (S k) - Z.of_nat (length (c :: l2))) by (cbn [length]; lia).
             done. }
  intros s1 Hrep1 Hh1. specialize (fun K => Hloop K (Z.to_nat n) (S (Z.to_nat n)) q [] l s1).
  rewrite Z2Nat.id in Hloop by lia. apply Hloop; [lia|done|done|lia|by rewrite bool_decide_true|].
  intros s2 H2 H3. wp_step. unfold cons_release. wp_step. apply wp_gets. rewrite H3. wp_steps.
  split; [f_equal; lia|]. split; [|done]. by destruct H2 as [? ? ? ? ? ? []]; split.
Qed.

(** ** Properties *)

(** C34: The console's input is a line discipline.  The ring buffer with its
    wrapping 32-bit indices refines the two queues: an interrupt applies
    [key_step] to each key (erase, kill, commit on newline, [^D] or a full
    buffer), a read takes at most one line from the committed queue, [^D] at
    its beginning giving end of file; neither can panic or lose a byte.  The
    wake-up of readers and the lock of the console's inode are not part of the
    statement. *)
Theorem console_refines_lines s q ed keys n killed l q' :
  line_rep s q ed -> NL ∉ ed -> c_held s = false ->
  Forall (fun c => 0 <= c < 256) keys -> 0 <= n ->
  take_line (Z.to_nat n) true (type_keys keys (q, ed)).1 = Some (l, q') ->
  wp (d ← consoleintr keys; r ← consoleread killed n; mret (d, r))
     (fun x s' => x = (bool_decide (CTL_P ∈ keys), (Z.of_nat (length l), l)) /\
        line_rep s' q' (type_keys keys (q, ed)).2 /\ c_held s' = false) s.
Proof.
  intros Hrep Hnl Hh Hk Hn Ht. wp_step. eapply wp_consoleintr; [done..|]. intros s1.
  destruct (type_keys keys (q, ed)) as [q1 ed1]. cbn [fst snd] in *. intros Hr1 Hn1 Hh1.
  wp_step. eapply wp_mono; [by eapply wp_consoleread|]. cbn beta. intros r s2 (-> & H2 & H3). wp_steps. done.
Qed.

Lemma wp_putchars l Q s : screen_ok s ->
  (forall crt pos u, let s' := set_uart u (set_screen crt pos s) in screen_ok s' -> Q tt s') ->
  wp (putchars l) Q s.
Proof.
  intros Hs HQ. unfold putchars. wp_step.
  apply (wp_for _ _ (fun _ _ s' => exists crt pos u, s' = set_uart u (set_screen crt pos s) /\ screen_ok s')).
  - intros pre c suf _ s1 _ (crt & pos & u & -> & H1). wp_step. apply wp_consputc; [done|].
    intros crt2 pos2 u2 s2 H2. wp_steps. by exists crt2, pos2, u2.
  - intros [] s1 (crt & pos & u & -> & H1). wp_steps. by apply HQ.
  - exists (c_crt s), (c_pos s), (c_uart s). by destruct s.
Qed.

(** Output cannot bring the console down: from a cursor above the last
    row [cgaputc] and [consolewrite] never reach the panic on the cursor's
    position nor write outside of the screen's memory, whatever is written,
    scrolling included, and leave the input alone. *)
Theorem console_screen_safe s buf : screen_ok s -> c_held s = false ->
  wp (consolewrite buf) (fun r s' => r = Z.of_nat (length buf) /\ screen_ok s' /\ c_held s' = false /\
    in_buf s' = in_buf s /\ (in_r s', in_w s', in_e s') = (in_r s, in_w s, in_e s)) s.
Proof.
  intros Hs Hh. unfold consolewrite, cons_acquire, cons_release. wp_step. wp_step. apply wp_gets. rewrite Hh.
  apply wp_modify. wp_step. apply wp_putchars; [by destruct Hs; split|]. intros crt pos u s' [? ? ?].
  wp_steps. cbn. wp_steps. split; [done|]. split; [by split|]. done.
Qed.

Definition console0 : console :=
  mk_console (replicate 2000 0) 1900 [] false false true (replicate 128 0) 4294967294 4294967294 4294967294 0.

Lemma console0_ok : screen_ok console0.
Proof. split; cbn; lia. Qed.
Lemma console0_rep : line_rep console0 [] [].
Proof. split; cbn; try (unfold two32, INPUT_BUF; lia); done || apply console0_ok. Qed.

(** [ab^Hc] and a newline, read across the wrap of the indices. *)
Lemma console_refines_lines_witness :
  wp (d ← consoleintr [97; 98; 8; 99; 13]; r ← consoleread false 10; mret (d, r))
     (fun x s' => x = (false, (3, [97; 99; 10]))) console0.
Proof.
  eapply wp_mono.
  - apply (console_refines_lines console0 [] [] [97; 98; 8; 99; 13] 10 false [97; 99; 10] []).
    + exact console0_rep.
    + apply not_elem_of_nil.
    + reflexivity.
    + repeat (apply List.Forall_cons; [lia|]). apply List.Forall_nil.
    + lia.
    + reflexivity.
  - intros x s' H. exact (proj1 H).
Defined.

Lemma console_screen_safe_witness :
  wp (consolewrite [104; 105; 10]) (fun r s' => r = 3 /\ screen_ok s') console0.
Proof.
  eapply wp_mono; [exact (console_screen_safe console0 [104; 105; 10] console0_ok eq_refl)|].
  intros r s' (H1 & H2 & _). exact (conj H1 H2).
Defined.
