(* ===== verification/Kbd.v ===== *)
(** * The keyboard

    [kbd.c] and the tables of [kbd.h]: [kbdgetc] turns the scan codes of the
    keyboard into characters, keeping the state of the modifier keys, and
    [kbdintr] passes them to the console.

    The theorem shows that text typed on the keyboard arrives as typed. *)

From Stdlib Require Import ZArith Lia.
From stdpp Require Import base strings numbers gmap list.
From S2P Require Import Prelude Mmu Memory Console.

(** ** Tables *)

Definition SHIFT : Z := Z.shiftl 1 0.
Definition CTL : Z := Z.shiftl 1 1.
Definition ALT : Z := Z.shiftl 1 2.
Definition CAPSLOCK : Z := Z.shiftl 1 3.
Definition NUMLOCK : Z := Z.shiftl 1 4.
Definition SCROLLLOCK : Z := Z.shiftl 1 5.
Definition E0ESC : Z := Z.shiftl 1 6.
Definition NO : Z := 0.

(** An array of 256 bytes with the values of its first elements and of some
    others. *)
Definition array (l : list Z) (d : list (Z * Z)) (i : Z) : Z :=
  match list_find (fun p => p.1 = i) d with
  | Some (_, (_, v)) => v
  | None => default NO (l !! Z.to_nat i)
  end.

Definition shiftcode : Z -> Z :=
  array [] [(0x1D, CTL); (0x2A, SHIFT); (0x36, SHIFT); (0x38, ALT); (0x9D, CTL); (0xB8, ALT)].
Definition togglecode : Z -> Z := array [] [(0x3A, CAPSLOCK); (0x45, NUMLOCK); (0x46, SCROLLLOCK)].

(** [KEY_UP] and so on, in all three maps. *)
Definition keypad (enter div : Z) : list (Z * Z) :=
  [(0x9C, enter); (0xB5, div); (0xC8, 0xE2); (0xD0, 0xE3); (0xC9, 0xE6); (0xD1, 0xE7); (0xCB, 0xE4); (0xCD, 0xE5);
   (0x97, 0xE0); (0xCF, 0xE1); (0xD2, 0xE8); (0xD3, 0xE9)].

Definition normalmap : Z -> Z := array
  [NO; 0x1B; 49; 50; 51; 52; 53; 54; 55; 56; 57; 48; 45; 61; 8; 9;
   113; 119; 101; 114; 116; 121; 117; 105; 111; 112; 91; 93; 10; NO; 97; 115;
   100; 102; 103; 104; 106; 107; 108; 59; 39; 96; NO; 92; 122; 120; 99; 118;
   98; 110; 109; 44; 46; 47; NO; 42; NO; 32; NO; NO; NO; NO; NO; NO;
   NO; NO; NO; NO; NO; NO; NO; 55; 56; 57; 45; 52; 53; 54; 43; 49;
   50; 51; 48; 46; NO; NO; NO; NO] (keypad 10 47).
Definition shiftmap : Z -> Z := array
  [NO; 27; 33; 64; 35; 36; 37; 94; 38; 42; 40; 41; 95; 43; 8; 9;
   81; 87; 69; 82; 84; 89; 85; 73; 79; 80; 123; 125; 10; NO; 65; 83;
   68; 70; 71; 72; 74; 75; 76; 58; 34; 126; NO; 124; 90; 88; 67; 86;
   66; 78; 77; 60; 62; 63; NO; 42; NO; 32; NO; NO; NO; NO; NO; NO;
   NO; NO; NO; NO; NO; NO; NO; 55; 56; 57; 45; 52; 53; 54; 43; 49;
   50; 51; 48; 46; NO; NO; NO; NO] (keypad 10 47).
(** [C(x)], as the unsigned byte that the table holds. *)
Definition ctl_key (x : Z) : Z := (x - 64) mod 256.
Definition ctlmap : Z -> Z := array
  [NO; NO; NO; NO; NO; NO; NO; NO; NO; NO; NO; NO; NO; NO; NO; NO;
   ctl_key 81; ctl_key 87; ctl_key 69; ctl_key 82; ctl_key 84; ctl_key 89; ctl_key 85; ctl_key 73; ctl_key 79; ctl_key 80; NO; NO; 13; NO; ctl_key 65; ctl_key 83;
   ctl_key 68; ctl_key 70; ctl_key 71; ctl_key 72; ctl_key 74; ctl_key 75; ctl_key 76; NO; NO; NO; NO; ctl_key 92; ctl_key 90; ctl_key 88; ctl_key 67; ctl_key 86;
   ctl_key 66; ctl_key 78; ctl_key 77; NO; NO; ctl_key 47; NO; NO] (keypad 13 (ctl_key 47)).

(** [charcode[shift & (CTL | SHIFT)][data]] *)
Definition charcode (k data : Z) : Z :=
  if k =? 0 then normalmap data else if k =? 1 then shiftmap data else ctlmap data.

(** ** [kbdgetc] *)

(** One scan code: the character, or 0, and the new [shift]. *)
Definition kbd_code (shift data : Z) : Z * Z :=
  if data =? 0xE0 then (0, Z.lor shift E0ESC)
  else if negb (Z.land data 0x80 =? 0) then
    let data := if negb (Z.land shift E0ESC =? 0) then data else Z.land data 0x7F in
    (0, Z.land shift (Z.lnot (Z.lor (shiftcode data) E0ESC)))
  else
    let '(shift, data) :=
      if negb (Z.land shift E0ESC =? 0) then (Z.land shift (Z.lnot E0ESC), Z.lor data 0x80) else (shift, data) in
    let shift := Z.lor shift (shiftcode data) in
    let shift := Z.lxor shift (togglecode data) in
    let c := charcode (Z.land shift (Z.lor CTL SHIFT)) data in
    let c :=
      if negb (Z.land shift CAPSLOCK =? 0) then
        if (97 <=? c) && (c <=? 122) then c + (65 - 97)
        else if (65 <=? c) && (c <=? 90) then c + (97 - 65) else c
      else c in
    (c, shift).

(** [codes] are the scan codes that the controller holds; -1 when it holds
    none. *)
Definition kbdgetc (shift : Z) (codes : list Z) : Z * Z * list Z :=
  match codes with
  | [] => (-1, shift, [])
  | data :: codes => let '(c, shift) := kbd_code shift data in (c, shift, codes)
  end.

(** What [consoleintr] gets from [kbdgetc] until it returns -1. *)
Fixpoint kbd_keys (shift : Z) (codes : list Z) : list Z * Z :=
  match codes with
  | [] => ([], shift)
  | data :: codes =>
      let '(c, shift) := kbd_code shift data in
      let '(l, shift) := kbd_keys shift codes in (c :: l, shift)
  end.
Definition kbdintr (shift : Z) (codes : list Z) : C bool := consoleintr (kbd_keys shift codes).1.

(** ** Typing *)

(** The key of a character, among the first 57. *)
Definition find_key (map : Z -> Z) (c : Z) : option Z := snd <$> list_find (fun s => map s = c) (seqZ 1 57).
(** Press and release the key, with the left shift key held if need be. *)
Definition stroke (c : Z) : list Z :=
  match find_key normalmap c, find_key shiftmap c with
  | Some k, _ => [k; k + 0x80]
  | None, Some k => [0x2A; k; k + 0x80; 0xAA]
  | None, None => []
  end.
Definition strokes (l : list Z) : list Z := l ≫= stroke.
Definition printable (c : Z) : Prop := 32 <= c < 127.

Lemma kbd_keys_app codes codes' : forall shift, kbd_keys shift (codes ++ codes') =
  let '(l, shift1) := kbd_keys shift codes in let '(l', shift2) := kbd_keys shift1 codes' in (l ++ l', shift2).
Proof.
  induction codes as [|d codes IH]; intros shift; cbn [app kbd_keys]; [by destruct (kbd_keys shift codes')|].
  destruct (kbd_code shift d) as [c shift1]. rewrite IH. destruct (kbd_keys shift1 codes) as [l shift2].
  by destruct (kbd_keys shift2 codes').
Qed.

(** Each key of the printable characters and the newline, by computation. *)
Lemma stroke_key c : printable c \/ c = 10 ->
  filter (fun x => x <> 0) (kbd_keys 0 (stroke c)).1 = [c] /\ (kbd_keys 0 (stroke c)).2 = 0 /\
  Forall (fun x => 0 <= x < 256) (kbd_keys 0 (stroke c)).1.
Proof.
  intros Hc.
  assert (forallb (fun c => bool_decide (filter (fun x => x <> 0) (kbd_keys 0 (stroke c)).1 = [c]) && ((kbd_keys 0 (stroke c)).2 =? 0)
    && forallb (fun x => (0 <=? x) && (x <? 256)) (kbd_keys 0 (stroke c)).1) (10 :: seqZ 32 95) = true) as Hall by (vm_compute; reflexivity).
  rewrite forallb_forall in Hall. specialize (Hall c). rewrite !andb_true_iff in Hall. destruct Hall as [[H1 H2] H3].
  { apply list_elem_of_In. destruct Hc as [Hc| ->]; [right|by left]. unfold printable in Hc. apply elem_of_seqZ. lia. }
  split; [by apply bool_decide_eq_true in H1|]. split; [by apply Z.eqb_eq|].
  rewrite forallb_forall in H3. apply Forall_forall. intros x Hx. specialize (H3 x). rewrite andb_true_iff in H3.
  destruct H3 as [H3 H4]; [by apply list_elem_of_In|]. bool_prop. lia.
Qed.

Lemma strokes_keys l : Forall (fun c => printable c \/ c = 10) l ->
  filter (fun x => x <> 0) (kbd_keys 0 (strokes l)).1 = l /\ (kbd_keys 0 (strokes l)).2 = 0 /\
  Forall (fun x => 0 <= x < 256) (kbd_keys 0 (strokes l)).1.
Proof.
  induction 1 as [|c l Hc Hl (IH1 & IH2 & IH3)]; [by repeat constructor|].
  destruct (stroke_key c Hc) as (H1 & H2 & H3). change (strokes (c :: l)) with (stroke c ++ strokes l). rewrite kbd_keys_app.
  destruct (kbd_keys 0 (stroke c)) as [k1 s1]. cbn [fst snd] in H1, H2, H3. subst s1.
  destruct (kbd_keys 0 (strokes l)) as [k2 s2]. cbn [fst snd] in *. rewrite filter_app, H1, IH1.
  split; [done|]. split; [done|]. by apply Forall_app.
Qed.

(** The console ignores the codes that are no characters. *)
Lemma type_keys_filter keys : forall l, type_keys keys l = type_keys (filter (fun x => x <> 0) keys) l.
Proof.
  induction keys as [|c keys IH]; intros l; [done|]. destruct (decide (c = 0)) as [->|Hc].
  - rewrite filter_cons_False by naive_solver. rewrite <-IH. unfold type_keys. cbn [foldl]. f_equal. by destruct l.
  - rewrite filter_cons_True by done. unfold type_keys in *. cbn [foldl]. apply IH.
Qed.

Lemma key_step_printable c q ed : printable c -> Z.of_nat (length q + length ed) + 1 < INPUT_BUF ->
  key_step c (q, ed) = (q, ed ++ [c]).
Proof.
  unfold printable, INPUT_BUF. intros Hc Hr. unfold key_step, CTL_P, CTL_U, CTL_H, CTL_D, NL.
  rewrite !(proj2 (Z.eqb_neq c _)) by lia. cbn [orb negb andb]. rewrite (proj2 (Z.ltb_lt _ _)) by (unfold INPUT_BUF; lia).
  rewrite (proj2 (Z.eqb_neq (Z.of_nat _ + 1) _)) by (unfold INPUT_BUF; lia). done.
Qed.

Lemma type_printable l : forall ed, Forall printable l -> Z.of_nat (length ed + length l) + 1 < INPUT_BUF ->
  type_keys l ([], ed) = ([], ed ++ l).
Proof.
  induction l as [|c l IH]; intros ed Hl Hr; [by rewrite app_nil_r|]. inversion_clear Hl as [|?? Hc Hl'].
  unfold type_keys in *. cbn [foldl length] in *. rewrite key_step_printable; [|done|cbn; lia].
  rewrite IH; [by rewrite <-app_assoc|done|].
  rewrite length_app. cbn. lia.
Qed.

Lemma take_line_whole l n : Forall printable l -> (length l < n)%nat -> forall b,
  take_line n b (l ++ [10]) = Some (l ++ [10], []).
Proof.
  intros Hl. revert n. induction Hl as [|c l Hc Hl IH]; intros [|n] Hn b; cbn [length] in Hn; try lia; cbn [app take_line].
  - done.
  - unfold printable in Hc. unfold CTL_D, NL. rewrite !(proj2 (Z.eqb_neq _ _)) by lia. by rewrite IH by lia.
Qed.

(** ** Properties *)

(** What is typed arrives.  For every line of printable characters that
    fits into the input buffer: when its keys are struck, with the shift key
    held for the characters that need it, and then the return key, a read
    from the console returns exactly that line, and the state of the modifier
    keys is as before. *)
Theorem typed_line_arrives s l n killed : line_rep s [] [] -> c_held s = false ->
  Forall printable l -> Z.of_nat (length l) + 1 < INPUT_BUF -> Z.of_nat (length l) < n ->
  (kbd_keys 0 (strokes (l ++ [10]))).2 = 0 /\
  wp (_ ← kbdintr 0 (strokes (l ++ [10])); consoleread killed n)
     (fun r s' => r = (Z.of_nat (length l) + 1, l ++ [10]) /\ line_rep s' [] [] /\ c_held s' = false) s.
Proof.
  intros Hrep Hh Hl Hroom Hn.
  assert (Forall (fun c => printable c \/ c = 10) (l ++ [10])) as Hl'.
  { apply Forall_app. split; [eapply Forall_impl; [exact Hl|naive_solver]|]. constructor; [by right|done]. }
  destruct (strokes_keys (l ++ [10]) Hl') as (H1 & H2 & H3). split; [done|].
  assert (type_keys (kbd_keys 0 (strokes (l ++ [10]))).1 ([], []) = (l ++ [10], [])) as Ht.
  { rewrite type_keys_filter, H1. unfold type_keys. rewrite foldl_app. fold (type_keys l ([], [])).
    rewrite type_printable by (done || cbn; lia). cbn [app foldl key_step]. unfold key_step. cbn [length Nat.add].
    change (10 =? CTL_P) with false. change (10 =? CTL_U) with false. change ((10 =? CTL_H) || (10 =? 127)) with false.
    change (negb (10 =? 0)) with true. cbn [andb]. rewrite (proj2 (Z.ltb_lt _ _)) by lia. done. }
  unfold kbdintr. wp_step. eapply (wp_consoleintr _ [] []); [done|set_solver|done|done|]. intros s1. rewrite Ht.
  intros Hr1 _ Hh1. eapply wp_mono; [eapply (wp_consoleread _ _ _ _ (l ++ [10]) []); [exact Hr1|done|lia|]|].
  - apply take_line_whole; [done|lia].
  - intros r s' (-> & Hr & Hh'). split; [|done]. f_equal. rewrite length_app. cbn. lia.
Qed.

(** [Hi!] with its shifted keys. *)
Lemma typed_line_arrives_witness :
  wp (_ ← kbdintr 0 [0x2A; 0x23; 0xA3; 0xAA; 0x17; 0x97; 0x2A; 0x02; 0x82; 0xAA; 0x1C; 0x9C]; consoleread false 10)
     (fun r s' => r = (4, [72; 105; 33; 10])) console0.
Proof.
  change [0x2A; 0x23; 0xA3; 0xAA; 0x17; 0x97; 0x2A; 0x02; 0x82; 0xAA; 0x1C; 0x9C] with (strokes ([72; 105; 33] ++ [10])).
  eapply wp_mono; [apply (proj2 (typed_line_arrives console0 [72; 105; 33] 10 false console0_rep eq_refl
    ltac:(repeat (apply List.Forall_cons; [unfold printable; lia|]); apply List.Forall_nil)
    ltac:(unfold INPUT_BUF; cbn; lia) ltac:(cbn; lia)))|].
  intros r s' H. exact (proj1 H).
Defined.
