(* ===== verification/Uart.v ===== *)
(** * The serial port

    [uart.c] on a model of the 8250: the divisor behind the [DLAB] bit of the
    line control register, the receive buffer, and a transmitter that is busy
    for a while after each byte and loses a byte that is written too early.
    A port that is not there reads as 0xFF. *)

From Stdlib Require Import ZArith Lia.
From stdpp Require Import base strings numbers gmap list.
From S2P Require Import Prelude Mmu Memory Kernel Trap Apic Printf Console Kbd.

(** ** The device *)

Record port := mk_port {
  u_present : bool;
  u_div : Z * Z; (* divisor, low and high byte *)
  u_ier : Z; u_fcr : Z; u_lcr : Z; u_mcr : Z;
  u_busy : nat; (* status reads until the transmitter is empty *)
  u_tx : list Z; (* sent *)
  u_rx : list Z; (* received, not read *)
}.
(** The port, the variable [uart] and the interrupt controller. *)
Record serial := mk_serial { s_port : port; s_uart : bool; s_io : ioapic }.
Abbreviation U := (M serial).

Definition COM1 : Z := 0x3f8.
Definition dlab (p : port) : bool := Z.testbit (u_lcr p) 7.
Definition set_port (p : port) (s : serial) : serial := mk_serial p (s_uart s) (s_io s).

Section uart.
(** A byte takes [delay] status reads. *)
Context (delay : nat).

Definition port_out (i v : Z) (p : port) : port :=
  let '(mk_port here (lo, hi) ier fcr lcr mcr busy tx rx) := p in
  if negb here then p
  else if i =? 0 then
    if dlab p then mk_port here (v, hi) ier fcr lcr mcr busy tx rx
    else match busy with
         | O => mk_port here (lo, hi) ier fcr lcr mcr delay (tx ++ [v]) rx
         | S _ => p
         end
  else if i =? 1 then
    if dlab p then mk_port here (lo, v) ier fcr lcr mcr busy tx rx
    else mk_port here (lo, hi) v fcr lcr mcr busy tx rx
  else if i =? 2 then mk_port here (lo, hi) ier v lcr mcr busy tx rx
  else if i =? 3 then mk_port here (lo, hi) ier fcr v mcr busy tx rx
  else if i =? 4 then mk_port here (lo, hi) ier fcr lcr v busy tx rx
  else p.

(** The line status: bit 0 is data ready, bit 5 is transmitter empty. *)
Definition status (p : port) : Z :=
  (if bool_decide (u_rx p = []) then 0 else 1) + (if bool_decide (u_busy p = 0%nat) then 0x20 else 0).
Definition port_in (i : Z) (p : port) : Z * port :=
  let '(mk_port here d ier fcr lcr mcr busy tx rx) := p in
  if negb here then (0xFF, p)
  else if i =? 0 then
    if dlab p then (d.1, p)
    else (default 0 (head rx), mk_port here d ier fcr lcr mcr busy tx (tail rx))
  else if i =? 2 then (1, p) (* no interrupt pending *)
  else if i =? 5 then (status p, mk_port here d ier fcr lcr mcr (pred busy) tx rx)
  else (0, p).

Definition u_outb (port v : Z) : U unit := modify (fun s => set_port (port_out (port - COM1) (v mod 256) (s_port s)) s).
Definition u_inb (port : Z) : U Z :=
  s ← gets id;
  let '(v, p) := port_in (port - COM1) (s_port s) in
  modify (set_port p);;
  mret v.
(** [ioapicenable] on the interrupt controller. *)
Definition u_enable (irq cpu : Z) : U unit := fun s =>
  match ioapicenable irq cpu (s_io s) with
  | Ok (_, io) => Ok (tt, mk_serial (s_port s) (s_uart s) io)
  | Err e => Err e
  end.

(** ** The driver *)

Definition uartputc (c : Z) : U unit :=
  here ← gets s_uart;
  if negb here then mret tt
  else
    _ ← for_ (R := unit) (seq 0 128) (fun _ (_ : unit) =>
          st ← u_inb (COM1 + 5);
          if Z.land st 0x20 =? 0 then mret (Next tt) (* microdelay(10) *)
          else mret (Break tt)) tt;
    u_outb (COM1 + 0) c.

Definition GREETING : list Z := [120; 118; 54; 46; 46; 46; 10]. (* xv6... *)

Definition uartinit : U unit :=
  u_outb (COM1 + 2) 0;;
  u_outb (COM1 + 3) 0x80;;
  u_outb (COM1 + 0) (115200 / 9600);;
  u_outb (COM1 + 1) 0;;
  u_outb (COM1 + 3) 0x03;;
  u_outb (COM1 + 4) 0;;
  u_outb (COM1 + 1) 0x01;;
  st ← u_inb (COM1 + 5);
  if st =? 0xFF then mret tt
  else
    modify (fun s => mk_serial (s_port s) true (s_io s));;
    _ ← u_inb (COM1 + 2);
    _ ← u_inb (COM1 + 0);
    u_enable IRQ_COM1 0;;
    _ ← for_ (R := unit) GREETING (fun c (_ : unit) => uartputc c;; mret (Next tt)) tt;
    mret tt.

Definition uartgetc : U Z :=
  here ← gets s_uart;
  if negb here then mret (-1)
  else
    st ← u_inb (COM1 + 5);
    if Z.land st 0x01 =? 0 then mret (-1) else u_inb (COM1 + 0).

(** What [uartgetc] returns before it returns -1: the keys of one interrupt. *)
Definition uart_keys : U (list Z) :=
  s ← gets id;
  while_ (S (length (u_rx (s_port s)))) (fun keys =>
    c ← uartgetc;
    if c <? 0 then mret (inr keys) else mret (inl (keys ++ [c]))) [].

(** [uartintr]: the keys go to the console. *)
Definition uartintr (s : serial) : C (bool * serial) :=
  match uart_keys s with
  | Ok (keys, s) => d ← consoleintr keys; mret (d, s)
  | Err e => fail e
  end.

(** ** Sending *)

(** A port that is there and set up. *)
Record ready (s : serial) : Prop := {
  rd_uart : s_uart s = true;
  rd_here : u_present (s_port s) = true;
  rd_dlab : dlab (s_port s) = false;
  rd_busy : (u_busy (s_port s) <= delay)%nat;
}.
(** [l] has been sent, nothing else has changed. *)
Definition sent (l : list Z) (s s' : serial) : Prop :=
  exists busy, (busy <= delay)%nat /\ s_uart s' = s_uart s /\ s_io s' = s_io s /\
    let p := s_port s in
    s_port s' = mk_port (u_present p) (u_div p) (u_ier p) (u_fcr p) (u_lcr p) (u_mcr p) busy (u_tx p ++ l) (u_rx p).

Lemma ready_sent l s s' : ready s -> sent l s s' -> ready s'.
Proof. intros [H1 H2 H3 H4] (b & Hb & E1 & _ & E3). split; rewrite ?E1, ?E3; done. Qed.
Lemma sent_refl s : (u_busy (s_port s) <= delay)%nat -> sent [] s s.
Proof. intros Hb. exists (u_busy (s_port s)). cbv zeta. rewrite app_nil_r. by destruct s as [[] ? ?]. Qed.
Lemma sent_trans l l' s s1 s2 : sent l s s1 -> sent l' s1 s2 -> sent (l ++ l') s s2.
Proof.
  intros (b & Hb & E1 & E2 & E3) (b' & Hb' & F1 & F2 & F3). exists b'. rewrite F1, F2, F3, E1, E2, E3. cbn. by rewrite app_assoc.
Qed.

(** The port with another transmitter state. *)
Definition with_busy (n : nat) (p : port) : port :=
  mk_port (u_present p) (u_div p) (u_ier p) (u_fcr p) (u_lcr p) (u_mcr p) n (u_tx p) (u_rx p).

Lemma wp_status Q s : u_present (s_port s) = true ->
  Q (status (s_port s)) (set_port (with_busy (pred (u_busy (s_port s))) (s_port s)) s) -> wp (u_inb (COM1 + 5)) Q s.
Proof.
  intros Hp HQ. unfold u_inb. wp_step. apply wp_gets. change (COM1 + 5 - COM1) with 5. destruct s as [[] ? ?]. cbn in Hp. subst.
  cbn [id s_port port_in negb]. change (5 =? 0) with false. change (5 =? 2) with false. change (5 =? 5) with true. cbv iota. wp_step. wp_step. wp_step. exact HQ.
Qed.

Lemma status_busy p : Z.land (status p) 0x20 =? 0 = negb (bool_decide (u_busy p = 0%nat)).
Proof. unfold status. by repeat case_bool_decide. Qed.
Lemma status_data p : Z.land (status p) 0x01 =? 0 = bool_decide (u_rx p = []).
Proof. unfold status. by repeat case_bool_decide. Qed.

(** The loop polls until the transmitter is empty. *)
Lemma wp_poll (k : nat) j Q s : u_present (s_port s) = true -> (u_busy (s_port s) < k)%nat ->
  Q (inl tt) (set_port (with_busy 0 (s_port s)) s) ->
  wp (for_ (R := unit) (seq j k) (fun _ (_ : unit) =>
        st ← u_inb (COM1 + 5);
        if Z.land st 0x20 =? 0 then mret (Next tt) else mret (Break tt)) tt) Q s.
Proof.
  revert j s. induction k as [|k IH]; intros j s Hp Hb HQ; [lia|]. cbn [seq for_]. wp_step. wp_step. apply wp_status; [done|].
  rewrite status_busy. destruct (decide (u_busy (s_port s) = 0%nat)) as [E|Hne].
  - rewrite bool_decide_true by done. cbn [negb]. wp_step. rewrite E in *. wp_step. exact HQ.
  - rewrite bool_decide_false by done. cbn [negb]. wp_step. apply IH; [done|cbn; lia|exact HQ].
Qed.

Lemma wp_uartputc c Q s : ready s -> (delay < 128)%nat -> (forall s', sent [c mod 256] s s' -> Q tt s') -> wp (uartputc c) Q s.
Proof.
  intros [H1 H2 H3 H4] Hd HQ. unfold uartputc. wp_step. apply wp_gets. rewrite H1. cbn [negb]. wp_step. apply wp_poll; [done|lia|].
  unfold u_outb. apply wp_modify, HQ. exists delay. destruct s as [[here [lo hi] ier fcr lcr mcr busy tx rx] b io]. cbn in *. subst here.
  unfold set_port, with_busy, dlab in *. cbn in *. by rewrite H3.
Qed.

Lemma wp_uartputs l Q s : ready s -> (delay < 128)%nat -> (forall s', sent ((fun c => c mod 256) <$> l) s s' -> Q (inl tt) s') ->
  wp (for_ (R := unit) l (fun c (_ : unit) => uartputc c;; mret (Next tt)) tt) Q s.
Proof.
  intros Hs Hd HQ. revert s Hs HQ. induction l as [|c l IH]; intros s Hs HQ; [apply wp_ret, HQ, sent_refl, Hs|].
  cbn [for_]. wp_step. wp_step. apply wp_uartputc; [done|done|]. intros s1 H1. wp_step. apply IH; [by eapply ready_sent|].
  intros s2 H2. apply HQ. by apply (sent_trans [_] _ s s1).
Qed.

(** ** Receiving *)

Definition with_rx (rx : list Z) (p : port) : port :=
  mk_port (u_present p) (u_div p) (u_ier p) (u_fcr p) (u_lcr p) (u_mcr p) (u_busy p) (u_tx p) rx.

Lemma wp_uartgetc Q s : ready s ->
  (let p := with_busy (pred (u_busy (s_port s))) (s_port s) in
   match u_rx p with
   | [] => Q (-1) (set_port p s)
   | c :: rx => Q c (set_port (with_rx rx p) s)
   end) -> wp uartgetc Q s.
Proof.
  intros [H1 H2 H3 H4] HQ. unfold uartgetc. wp_step. apply wp_gets. rewrite H1. cbn [negb]. wp_step. apply wp_status; [done|].
  rewrite status_data. destruct s as [[here [lo hi] ier fcr lcr mcr busy tx rx] b io]. cbn in *. subst here.
  destruct rx as [|c rx]; [by rewrite bool_decide_true by done|]. rewrite bool_decide_false by done.
  unfold u_inb. wp_step. apply wp_gets. change (COM1 + 0 - COM1) with 0. cbn. unfold dlab in *. cbn in *. rewrite H3. wp_step. wp_step. wp_step. exact HQ.
Qed.

(** [n] bytes more than the port has are never asked for. *)
Lemma wp_keys n keys Q s : ready s -> (length (u_rx (s_port s)) < n)%nat -> Forall (fun c => 0 <= c) (u_rx (s_port s)) ->
  (forall s', ready s' -> s_port s' = with_rx [] (with_busy (u_busy (s_port s')) (s_port s)) -> s_io s' = s_io s -> Q (keys ++ u_rx (s_port s)) s') ->
  wp (while_ n (fun keys => c ← uartgetc; if c <? 0 then mret (inr keys) else mret (inl (keys ++ [c]))) keys) Q s.
Proof.
  revert keys s. induction n as [|n IH]; intros keys s Hs Hn Hc HQ; [lia|]. apply wp_while_S. wp_step. apply wp_uartgetc; [done|].
  pose proof Hs as [H1 H2 H3 H4]. destruct (u_rx (s_port s)) as [|c rx] eqn:E; cbv zeta; cbn [u_rx with_busy]; rewrite E.
  - change (-1 <? 0) with true. cbv iota. apply wp_ret. rewrite app_nil_r in HQ. apply HQ; [split; cbn; try done; lia| |done].
    destruct s as [[] ? ?]. cbn in *. by subst.
  - apply Forall_cons in Hc as [Hc Hrx]. rewrite (proj2 (Z.ltb_ge _ _)) by done. apply wp_ret. apply IH.
    + split; cbn; try done. lia.
    + cbn in *. lia.
    + done.
    + intros s' Hs' Ep Eio. cbn. rewrite <-app_assoc. apply HQ; [done| |done]. rewrite Ep. by destruct s as [[] ? ?].
Qed.

(** ** Properties *)

Lemma wp_out i v Q s : Q tt (set_port (port_out i (v mod 256) (s_port s)) s) -> wp (u_outb (COM1 + i) v) Q s.
Proof. intros HQ. unfold u_outb. apply wp_modify. by replace (COM1 + i - COM1) with i by lia. Qed.
Lemma wp_in i Q s : (let '(v, p) := port_in i (s_port s) in Q v (set_port p s)) -> wp (u_inb (COM1 + i)) Q s.
Proof.
  intros HQ. unfold u_inb. wp_step. apply wp_gets. replace (COM1 + i - COM1) with i by lia. cbn [id]. destruct (port_in i (s_port s)) as [v p].
  wp_step. wp_step. wp_step. exact HQ.
Qed.
Lemma wp_u_enable irq cpu (Q : unit -> serial -> Prop) s :
  wp (ioapicenable irq cpu) (fun _ io => Q tt (mk_serial (s_port s) (s_uart s) io)) (s_io s) -> wp (u_enable irq cpu) Q s.
Proof. unfold wp, u_enable. destruct (ioapicenable irq cpu (s_io s)) as [[[] io]|e]; done. Qed.

(** What [uartinit] makes of a port that is there, before the greeting. *)
Lemma wp_uartinit Q s : u_present (s_port s) = true -> (u_busy (s_port s) <= delay)%nat -> (delay < 128)%nat ->
  (forall s' busy, (busy <= delay)%nat -> s_uart s' = true -> 
     s_port s' = mk_port true (12, 0) 1 0 3 0 busy (u_tx (s_port s) ++ GREETING) (tail (u_rx (s_port s))) ->
     (forall i, redirect (s_io s') i = if decide (i = IRQ_COM1) then Some (T_IRQ0 + IRQ_COM1, 0) else redirect (s_io s) i) -> Q tt s') ->
  wp uartinit Q s.
Proof.
  destruct s as [[here [lo hi] ier fcr lcr mcr busy tx rx] b io]. cbn [s_port u_present u_busy u_tx u_rx s_io]. intros -> Hb Hd HQ. unfold uartinit.
  do 7 (wp_step; apply wp_out).
  match goal with |- wp _ _ ?s' => change s' with (mk_serial (mk_port true (12, 0) 1 0 3 0 busy tx rx) b io) end.
  wp_step. apply wp_status; [done|]. set (p1 := s_port _).
  assert (status p1 =? 0xFF = false) as -> by (unfold status; by repeat case_bool_decide).
  wp_step. apply wp_modify. do 2 (wp_step; apply wp_in;
    match goal with |- context [port_in ?i ?p] => let t := eval cbn in (port_in i p) in change (port_in i p) with t end; cbv iota).
  wp_step. apply wp_u_enable.
  apply wp_ioapicenable; [unfold IRQ_COM1; lia|]. intros io' Hio _. wp_step.
  apply wp_uartputs; [split; cbn; try done; lia|done|]. intros s' (busy' & Hb' & E1 & E2 & E3). wp_step. apply (HQ s' busy'); [done|done| |].
  - rewrite E3. reflexivity.
  - intros k. rewrite E2. apply Hio.
Qed.

(** The serial port.  When the port is there and a byte takes fewer than
    128 polls, [uartinit] sets 9600 baud (divisor 12), 8 data bits and receive
    interrupts, routes the interrupt of the port to processor 0 and sends the
    greeting; after that, every call of [uartputc] sends its byte, none is
    lost.  Without a port [uartinit] finds out, and then [uartputc] does
    nothing and [uartgetc] returns -1. *)
Theorem uart_serves s l : (delay < 128)%nat -> (u_busy (s_port s) <= delay)%nat ->
  (u_present (s_port s) = true ->
   wp (uartinit;; for_ (R := unit) l (fun c (_ : unit) => uartputc c;; mret (Next tt)) tt) (fun _ s' => ready s' /\
     u_tx (s_port s') = u_tx (s_port s) ++ GREETING ++ ((fun c => c mod 256) <$> l) /\
     u_div (s_port s') = (12, 0) /\ u_lcr (s_port s') = 3 /\ u_ier (s_port s') = 1 /\
     forall i, redirect (s_io s') i = if decide (i = IRQ_COM1) then Some (T_IRQ0 + IRQ_COM1, 0) else redirect (s_io s) i) s) /\
  (u_present (s_port s) = false -> s_uart s = false ->
   uartinit s = Ok (tt, s) /\ (forall c, uartputc c s = Ok (tt, s)) /\ uartgetc s = Ok (-1, s)).
Proof.
  intros Hd Hb. split.
  - intros Hp. wp_step. apply wp_uartinit; [done|done|done|]. intros s1 busy Hb1 Hu Ep Hio. assert (ready s1) as Hr.
    { split; rewrite ?Ep; done. }
    apply wp_uartputs; [done|done|]. intros s2 Hs2. pose proof (ready_sent _ _ _ Hr Hs2) as Hr2. destruct Hs2 as (b & _ & _ & E2 & E3).
    rewrite E3, E2, Ep. cbn. split; [done|]. rewrite <-app_assoc. split_and!; done.
  - intros Hp Hu. destruct s as [[here [lo hi] ier fcr lcr mcr busy tx rx] b io]. cbn in *. subst. by split_and!.
Qed.

(** Return ends the line. *)
Lemma key_step_end e ed : (e = 13 \/ e = 10) -> Z.of_nat (length ed) + 1 < INPUT_BUF -> key_step e ([], ed) = (ed ++ [10], []).
Proof.
  intros He Hr. unfold key_step. cbn [length Nat.add]. rewrite (proj2 (Z.ltb_lt _ _)) by lia. rewrite andb_true_r. by destruct He as [-> | ->].
Qed.

(** A line that arrives over the serial line, ended by a carriage return
    or a newline, is what a read from the console returns. *)
Theorem serial_line_arrives s cs l e n killed : ready s -> line_rep cs [] [] -> c_held cs = false ->
  u_rx (s_port s) = l ++ [e] -> (e = 13 \/ e = 10) ->
  Forall printable l -> Z.of_nat (length l) + 1 < INPUT_BUF -> Z.of_nat (length l) < n ->
  wp ('(_, s') ← uartintr s; r ← consoleread killed n; mret (r, s'))
     (fun '(r, s') cs' => r = (Z.of_nat (length l) + 1, l ++ [10]) /\ u_rx (s_port s') = [] /\ ready s' /\
        line_rep cs' [] [] /\ c_held cs' = false) cs.
Proof.
  intros Hs Hrep Hh Erx He Hl Hroom Hn.
  assert (Forall (fun c => 0 <= c < 256) (l ++ [e])) as Hby.
  { apply Forall_app. split; [eapply Forall_impl; [exact Hl|unfold printable; lia]|]. repeat constructor; lia. }
  assert (wp uart_keys (fun keys s' => keys = l ++ [e] /\ u_rx (s_port s') = [] /\ ready s') s) as Hk.
  { unfold uart_keys. wp_step. apply wp_gets. apply wp_keys; [done|cbn; lia|cbn; rewrite Erx; eapply Forall_impl; [exact Hby|cbn; lia]|].
    intros s' Hs' Ep _. rewrite Erx, Ep. done. }
  unfold uartintr. unfold wp in Hk. destruct (uart_keys s) as [[keys s']|err]; [|done]. destruct Hk as (-> & Er & Hs').
  assert (type_keys (l ++ [e]) ([], []) = (l ++ [10], [])) as Ht.
  { unfold type_keys. rewrite foldl_app. fold (type_keys l ([], [])). rewrite type_printable by (done || cbn; lia). cbn [app foldl].
    by apply key_step_end. }
  wp_step. wp_step. eapply (wp_consoleintr _ [] []); [done|set_solver|done|done|]. intros s1. rewrite Ht. intros Hr1 _ Hh1. wp_step. wp_step.
  eapply wp_mono; [eapply (wp_consoleread _ _ _ _ (l ++ [10]) []); [exact Hr1|done|lia|]|].
  - apply take_line_whole; [done|lia].
  - intros r s2 (-> & Hr2 & Hh2). wp_step. split_and!; [|done..]. f_equal. rewrite length_app. cbn. lia.
Qed.
End uart.

(** ** Examples *)

Definition port0 : port := mk_port true (0, 0) 0 0 0 0 0 [] [7].
Definition serial0 : serial := mk_serial port0 false ioapic0.
Definition serial1 : serial := mk_serial (mk_port true (12, 0) 1 0 3 0 4 GREETING [108; 115; 13]) true ioapic0.

Lemma uart_serves_witness :
  wp (uartinit 100;; for_ (R := unit) [104; 105] (fun c (_ : unit) => uartputc 100 c;; mret (Next tt)) tt)
    (fun _ s => u_tx (s_port s) = [120; 118; 54; 46; 46; 46; 10; 104; 105]) serial0.
Proof.
  eapply wp_mono; [apply (proj1 (uart_serves 100 serial0 [104; 105] ltac:(apply Nat.ltb_lt; reflexivity) ltac:(cbn; lia)) eq_refl)|].
  intros r s (_ & E & _). exact E.
Defined.

Lemma serial_line_arrives_witness :
  wp ('(_, s') ← uartintr serial1; r ← consoleread false 10; mret (r, s')) (fun '(r, s') _ => r = (3, [108; 115; 10])) console0.
Proof.
  eapply wp_mono; [apply (serial_line_arrives 100 serial1 console0 [108; 115] 13 10 false)|].
  - split; try reflexivity. apply Nat.leb_le. reflexivity.
  - exact console0_rep.
  - reflexivity.
  - reflexivity.
  - by left.
  - repeat (apply List.Forall_cons; [unfold printable; lia|]); apply List.Forall_nil.
  - reflexivity.
  - reflexivity.
  - intros [r s'] cs' H. exact (proj1 H).
Defined.
